(* ===== verification/_CoqProject ===== *)
-Q . S2P
Prelude.v
Effects.v
CMem.v
Interleave.v
Tile16.v
Tile16Yuv.v
Rgb.v
Tile128.v
Crop.v
Retile.v
PixelFormats.v
Formats.v
CscData.v
CscSw.v
CscPicture.v
CscDispatch.v
CscConvert.v
CscHandle.v
CscLife.v
CscApi.v
Ril.v
Float32.v
RilLife.v
Voice.v
VoiceLife.v
VoiceApi.v
Threads.v
ThreadRules.v
SthData.v
SthPower.v
SthOps.v
SthStream.v
SthOrder.v
SthRecord.v
SthState.v
SthControls.v
SthCall.v
SthApi.v
SthTrigger.v
SthCases.v
BootSlots.v
BootMessage.v
BootControl.v
BootLife.v
BootRules.v
BootSpec.v
BootEnds.v
BootApi.v
HdrBits.v
HdrData.v
HdrParse.v
HdrMux.v
HdrSei.v
HdrEscape.v
HdrPack.v
HdrMessage.v
HdrWrite.v
HdrPut.v
HdrRead.v
HdrParsed.v
HdrSafe.v
HdrApi.v
KmTags.v
KmBytes.v
KmDer.v
KmHeap.v
KmDecode.v
KmSteps.v
KmImport.v
KmRoundtrip.v
KmSerial.v
KmParams.v
KmAnswers.v
KmWrite.v
KmAuth.v
KmAuthList.v
KmAuthParse.v
KmWrap.v
KmApi.v
