(* ===== verification/Prelude.v ===== *)
(** * Exynos HALs: pictures, voice calls, the sound trigger, boot control, HDR metadata and keys

    This library models six parts of the C and C++ code of the repository and proves
    what they promise.  The first turns the pictures of the camera, of the video codec and
    of the screen into one another.  The second is the part of the audio HAL that
    runs voice calls.  The third listens for key phrases, in several threads.  The
    fourth keeps which of two systems is started.  The fifth reads and writes the metadata
    of HDR10+ videos.  The sixth passes keys and their parameters to the trusted
    application that keeps them.  The files follow the layers of each part.

    - [src/libswconverter/swconvertor.c]: loops over bytes that interleave planes,
      compute YUV from RGB, and take tiled planes apart or put them together.
    - [src/libexynosutils/exynos_format_v4l2.c] and [src/include/exynos_format.h]:
      the pixel formats, their V4L2 counterparts, planes, bits per pixel and frame
      sizes.
    - [src/libcsc/csc.c] and [src/include/csc.h]: the colour space converter, an
      object with settings that a client makes, sets up, runs and frees.  A
      conversion runs in the scaler hardware or, in software, in the functions of the
      first layer.
    - [src/libaudio/audiohal/audioril-sec/secril_interface.c]: the client of the
      modem, a singleton that loads the library of the radio daemon, connects to it
      and passes on the routes and volumes of a call.
    - [src/libaudio/audiohal/voice_manager_sec.c]: the voice manager of the audio
      device, with the status of the call and its settings, on top of the client.
    - [src/libaudio/sthal/sound_trigger_hw.c] and [sound_trigger_hw.h]: the sound
      trigger HAL, one device with a table of models, a callback thread that waits for
      triggers of the voice trigger system (VTS), and entry points for the framework
      and for the audio HAL, under three mutexes.
    - [src/boot]: the boot control HAL, versions 1.1 and 1.2.  [exynos_message.cpp]
      transfers bytes from and to a partition; [exsl.cpp] keeps the slots in it;
      [lib_exbc.cpp] has the operations on the slots A and B; [exynos_bootctrl.cpp]
      loads, changes and saves them; [BootControl.cpp] is the service.
    - [src/videoapi]: HDR10+ metadata (ST 2094-40), bit by bit.  [VendorVideoAPI.cpp] has
      the parser of a stream and the writer of one; [GenerateSei.cpp] writes the metadata
      as an SEI message of HEVC with emulation prevention bytes (EPB).
    - [src/tee/TlcKeymint]: the client of the KeyMint application in the trusted execution
      environment (TEE).  [km_shared_util.cpp] takes keys out of their PKCS#8 encoding,
      [serialization.cpp] turns parameters into bytes and takes answers apart,
      [authlist.cpp] and [parse_SecureKeyWrapper] of [tlcKeymint_if.cpp] read wrapped keys.

    ** Files

    [Prelude]: machine integers with their wrap-around ([u32], [s32], [u8]), bit
    operations as arithmetic, [switch] (the C statement as a table), the update of a
    field of a record, tactics.  [Effects]: the state and fault monad [ST] of the
    modules that keep objects, with the rules by which their operations are proved to
    end and to keep an invariant.  [CMem]: the memory, a finite map from
    addresses to bytes; a state and fault monad [M] in which an access to an address
    that is not mapped, and a [memcpy] between overlapping regions, is a fault
    ([None]); C loops; and the predicates [moved] and [stored], which say that a
    family of bytes is copied or computed and that every other byte is unchanged.

    [Interleave]: [csc_interleave_memcpy], [csc_deinterleave_memcpy].
    [Tile16]: [Tile2D_To_Linear] and the converters from 16x16 tiles.  [Tile16Yuv]:
    [Tile2D_To_YUV420].  [Rgb]: the six converters from RGB.  [Tile128]:
    [tile_4x2_read].  [Crop]: the converters from 128x64 tiles with a crop rectangle,
    one definition per row path of the source.  [Retile]: the converters into 128x64
    tiles and their wrappers.

    [PixelFormats]: the format constants.
    The constants that the build takes from the Android headers are the fields of
    the class [AndroidFormats]; all that is assumed of them is that no two formats
    are equal ([AndroidFormatsLaws]), which the released values satisfy
    ([aosp_formats_laws]).  [Formats]: the translations and sizes.

    [CscData]: the structures of [csc.h].  [CscSw]: [copy_mfc_data], one function per
    source format, [conv_sw].  [CscPicture]: a picture as a family of samples, and
    the arrangements of its samples in memory (planes, pairs, their order, strides
    and padding), with which the contract of a conversion is stated.  [CscDispatch]:
    every branch of [conv_sw] carries out the conversion of its pair of formats.
    [CscConvert]: the theorems on the software path.

    [CscHandle]: the objects and their operations.  The state is a [world]: the
    allocated objects by address, the memory, and the log of the calls of the
    driver.  What is not in the repository is the environment, a class
    [Environment]: how [libexynosscaler] answers a call, what a conversion does to
    the memory, the format translation of that library, and the address that
    [malloc] gives.  An access to an object that is not allocated is undefined
    behaviour ([None]).  [CscLife]: the invariant [wf] of the states, the closed
    forms of the operations, and the client as a step relation [step] with its
    reachable states.  [CscApi]: the theorems on the objects.

    [Ril]: the client of the modem.  The state is the singleton, if there is one, and
    the log of the calls of the system and of the modem library; what these answer,
    and which functions the library exports, is the class [RilLibrary].  [RilLife]:
    which calls are legal after a log ([ril_legal]), the invariant of the client, and
    its operations.  [Float32]: the binary32 product and the conversion to [int] with
    which a volume becomes a step, on [SpecFloat] of the Standard Library.  [Voice]:
    the voice manager; devices and parameter strings are the classes [AudioDevices]
    and [AudioPlatform].  [VoiceLife]: the status of the call as the state machine
    [next_status], its invariant with the client, and the audio HAL as a step relation
    over all operations.  [VoiceApi]: the theorems on voice calls.

    [Threads]: programs with mutexes and threads, and all their interleavings: a
    configuration is the shared state, the owner of each mutex and the state of each
    thread; [move] is one step of one thread, [thread_step] the step relation, and
    [schedule] runs a given interleaving.  The class [Service] is what a HAL provides:
    its calls and the loop of its own thread.  [ThreadRules]: an order of the mutexes
    that excludes deadlock ([ordered], [waiting_ends]), invariants of the shared
    state with what is known while a mutex is held ([safe]) and without
    ([steps_keep]), and runs without interference ([solo]).
    [SthData]: the device, and the class [SoundTriggerEnv], how the mixer, the PCM
    devices, the sockets, the driver and the framework answer.  [SthPower]: the
    functions that are called with the mutex [lock].  [SthOps]: models and
    recognition.  [SthStream]: streams, recordings, events, the callback thread
    ([callback_iteration] is an iteration of [callback_thread_loop]), and the service
    ([sth_perform]).  A stretch of code between two synchronisations is one step; code
    that accesses shared fields without their mutex has a step per access.
    [SthOrder], [SthRecord], [SthState]: the order of the mutexes, the PCM devices and
    what a reader of a recording may rely on, and the invariant of the fields.
    [SthControls]: what the mixer is told, and an environment for examples.
    [SthCall]: the device during a voice call ([hushed]), in all interleavings.
    [SthApi], [SthTrigger], [SthCases]: the theorems on all interleavings and on
    single operations, on one trigger, and on schedules that go wrong.

    [BootSlots]: the slots, the operations of [lib_exbc], and [slot_data] with its
    bytes in the partition.  [BootMessage]: the partition, descriptors, and the
    transfers of [exynos_message.cpp] and [exsl.cpp]; how the system answers each call
    is the class [BootEnv].  [BootControl]: [Exynos_BootControl] and the requests of the
    service ([boot_perform], [boot_run]).  [BootLife]: the class [BlockDevice], what a
    block device promises, and the transfers on it.  [BootRules]: the slots that a
    partition stands for ([stored]), and what loading and saving do to them.
    [BootSpec]: the abstract service ([ab_step]), and one request as one of its steps or
    a failure without effect.  [BootEnds]: sequences of requests end, keep the rest of
    the partition, and use descriptors.  [BootApi]: a device
    for examples, and the theorems on boot control.

    [HdrBits]: numbers and bytes as strings of bits.  [HdrData]: the structure
    [ExynosHdrData_ST2094_40], and messages of ST 2094-40 as strings of bits
    ([itu_bits]), the specification of the three functions.  [HdrParse]: the parser
    [Exynos_parsing_user_data_registered_itu_t_t35], in a monad with [return -1] and faults.
    [HdrMux]: [Exynos_dynamic_meta_to_itu_t_t35].  [HdrSei]: [Exynos_sei_write] with
    [put_bits], [insert_epb_data] and [flush_bitstream].  [HdrEscape]: the bytes with EPBs
    ([escape]), what a decoder does ([unescape]), and that [insert_epb_data] computes
    [escape] four bytes at a time.  [HdrPack]: the invariant of [put_bits].  [HdrMessage]:
    the bytes of the message and of the filler data.  [HdrWrite]: that they are written.
    [HdrPut]: that the other writer appends the bits of its syntax elements.  [HdrRead]:
    reading a field at any position of a byte.  [HdrParsed]: what each
    function of the parser, and the parser, leave in the structure.  [HdrSafe]: the
    parser on arbitrary bytes.  [HdrApi]: samples and the theorems.

    [KmTags]: tags and constants of [keymint_ta_defs.h].  [KmBytes]: the monad of functions
    with a [keymaster_error_t] and a label [end], and inputs, bytes with a position and a
    count.  [KmDer]: the readers of DER tags and lengths, and what they accept.  [KmHeap]:
    allocated objects and the functions that write to them; which allocations succeed, and
    what fresh memory holds, is the class [Allocator].  [KmDecode]: [decode_key_data] and
    [decode_pkcs8_ec_pub].  [KmSteps]: the judgement [runs], total correctness with two
    postconditions, for values and for errors, and its rules.  [KmImport]: the format of the
    trusted application, and keys from any bytes.  [KmRoundtrip]: the encodings of keys,
    and that they are read.  [KmSerial]: [km_serialize_params], and the functions that take
    answers apart and free them.  [KmParams]: parameters as values, with their bytes
    ([set_bytes]) and their objects, and what is freed.  [KmAnswers]: answers from any bytes.
    [KmWrite]: what is written, and the size of it.  [KmAuth]: authorization lists.
    [KmAuthList]: what a list says ([auth_list]), a specification without positions or
    buffers, and the two loops on an item; [KmAuthParse]: the whole function implements it.
    [KmWrap]: [parse_SecureKeyWrapper], and what it accepts.  [KmApi]: the theorems.

    ** What is proved

    Converters: each function ends, faults on no input that satisfies its documented
    layout, puts every byte where the format says and changes no other byte
    ([Tile16], [Tile16Yuv], [Rgb], [Interleave], [Crop], [Retile]).  Address
    computations are injective and stay inside the buffer ([Tile16], [Tile128]).
    Tiling and detiling, interleaving and de-interleaving are inverse; the two
    implementations of 16x16 detiling leave the same memory; the planar and the
    semi-planar RGB converters agree.  Two overruns are shown by runs that fault
    ([Crop], [Tile16]).

    Formats: the two translations are inverse up to the named exceptions, planes and
    bits per pixel are consistent, [FRAME_SIZE] does not overflow for frames up to
    16384 by 16384 and is large enough for the picture ([Formats]).

    Software conversion: for each supported pair of formats the destination picture
    is the source picture ([CscConvert.conv_sw_copies_picture]) or is computed from
    its pixels or tiles; one pair of formats exchanges Cb and Cr, which that theorem
    states too; all other pairs are refused and leave the memory alone; a frame
    survives the way to the codec and back.

    Objects: in every reachable state every call of the driver used an open scaler
    ([CscApi.scalers_used_while_open]); operations on allocated objects do not fault
    and leave other objects alone; a hardware conversion makes the calls of its
    settings in order; the settings refine a record of last writes; a software
    session from [csc_init] to [csc_deinit] copies the picture.  Two theorems show
    where a client must take care: an object is freed by a conversion that cannot
    open the scaler, and a scaler is leaked by some orders of operations.

    Voice calls: in every reachable state the modem library was called only while it
    is loaded, with a client that is open ([VoiceApi.modem_clients_open]); the status
    of the call moves along its state machine, and the sound clock of the modem is on
    exactly during an active call; no operation faults, except the event handler,
    whose callback nothing sets; [SecRilOpen] ends after ten attempts at most, with a
    connection or with nothing left behind; the route and the volume of an active
    call reach the modem as two calls, and the path tells the terminal that was asked
    for.  One theorem shows that a connection that is set up again has lost the
    settings that the voice manager still keeps.

    Sound trigger: in all interleavings of any number of clients and the callback
    thread the fields of the device keep their meaning
    ([SthApi.device_well_formed]), a client that reads a recording uses open PCM
    devices only ([SthApi.recording_reads_defined]), and without
    [stdev_stop_recognition] nobody waits for ever ([SthApi.waiting_is_finite]).  A
    trigger is delivered once; the power cycle leaves exactly the wanted models
    recognised; a voice call that starts while the microphone is on stops everything,
    and nothing is started before its end ([SthApi.voicecall_stops_listening]).  [SthCases] holds the schedules of a
    deadlock of [stdev_stop_recognition] and of three other defects.

    Boot control: on a device that works the service refines an abstract one with two
    slots of which at most one is active ([BootApi.service_refines]).  Whatever calls
    fail, short reads included, as long as no write is cut off part-way ([torn]), the
    slots in the partition are the result of exactly the acknowledged updates
    ([BootApi.acknowledged_updates_durable]), at most one slot is active, and an active
    slot can boot.  Nothing outside the 32 bytes of the slots is written.  Every request
    is answered on any device.  Three theorems show defects: descriptors that are never
    closed, an answer of [getActiveBootSlot] that is not what the partition says, and
    two active slots after a write that was cut off
    ([BootApi.cut_off_write_activates_both]).

    HDR10+ metadata: what [Exynos_dynamic_meta_to_itu_t_t35] writes is the syntax of the
    standard, and the parser reads it back ([HdrApi.metadata_roundtrip]), except for the
    upper bytes of two codes.  The parser is right on every message with one window
    ([HdrApi.message_parsed]) but for a flag in the last bit of a byte, and defined on
    every stream of 913 bytes.  [Exynos_sei_write] fills its buffer with the message, which a
    decoder reads back and which never looks like a start code, if 178 bytes are there;
    a buffer that is too small is overrun.

    Keys of the TEE: on arbitrary bytes no function accesses anything outside of its input
    and of its buffers, and each ends with a value or an error ([KmApi.any_key_decoded],
    [KmApi.any_characteristics], [KmApi.any_authorization_list], [KmApi.any_wrapped_key]);
    what is accepted is what the specification says, and what the answers allocate is given
    to the caller or freed.  Every encoded key is decoded to its numbers
    ([KmApi.key_roundtrip]), and parameters that were sent are read back
    ([KmApi.parameters_roundtrip]).  Two theorems show what goes wrong: sizes beyond 32 bits,
    and a [calloc] that fails; an example shows that the public keys are an exception to the
    first sentence ([KmApi.public_oids]).

    ** Bounds and loops

    Loops are bounded by their counters and are structural, but for the two loops that
    repeat a transfer while it is interrupted.  These have as fuel one try more than
    [max_interruptions], a number of the environment; [FewInterruptions] is the
    assumption that a call is interrupted at most that often in a row, and
    [BootApi.requests_answered] shows that the fuel is then enough.  The
    attempts of [SecRilOpen] are the counter of [open_client], [MAX_RETRY], and those of
    [stdev_stop_recognition] the counter of [stop_retry]: it has 100 further attempts,
    and the source gives up when it has counted more than 100.
    The recursion of [put_bits] has one more than the number of bits as fuel, and each half
    of a field has fewer bits ([HdrPack.put_bits_inv]).  The counter of bits of the SEI
    message is an [int] without wrap-around in the model: the theorems are on buffers below
    [2^28] bytes, where it does not overflow.
    The loop over an authorization list has the length of the list as fuel: every turn takes
    a tag and a length, and the theorems on [parse_AuthorizationList] are not conditional on
    its end.  [size_t] has 64 bits, and inputs have less than [2^64] bytes, or less than
    [2^32] where the code counts in [uint32_t].
    Frame sizes are bounded where the code computes in [int] or [unsigned int]: 16384
    for whole frames in [CscConvert] and [Formats], and the bounds in the layout
    records of the other files, which keep every offset below [2^31] or [2^32].

    ** Not modelled

    The NEON assembly and the variants under [NEON_SUPPORT], [USE_NV12T_128X64] and
    [USES_FIMC]; log output, verbose logs being compiled out (one of them, at the end of
    [csc_init_hw], would use a [NULL] pointer).  Concurrency is modelled for the sound trigger HAL only,
    with the [MMAP_INTERFACE_ENABLED] and [STHAL_2_3] variants; the converters and
    voice calls have no locks of their own, and their operations take place one after
    the other,
    as with the lock of the device that [adev_set_mode], [adev_set_parameters],
    [adev_set_voice_volume] and [adev_set_mic_mute] take.  Of the audio HAL the
    streams, the routing and the factory tests are not modelled: their behaviour is
    mostly that of the proxy library and of tinyalsa, which are not in the
    repository.  Of the sound trigger HAL the constant properties of version 1.3 and
    the table of operations are left out, a weak memory model is not considered, and
    [stdev_vts_set_power] without a mutex, as in
    [sound_trigger_notify_ahal_record_status], is one step.  Of boot control the printing
    of the slots and the entry point that makes the service are left out.  Of HDR10+ metadata the variant [USE_FULL_ST2094_40] is left out, whose larger
    structure keeps the fields that are skipped here, and the tests for NULL.  Of the
    client of the KeyMint application the sessions and the message buffers that it shares
    with the application are left out, since what these do is up to the driver of the TEE;
    so are the tests of arguments for NULL, [km_free], and two helpers that nothing here
    calls; the older [TlcTeeKeymaster4] has copies of the modelled files.  The other parts
    of the repository are C++ services over sysfs files and trusted applications, vendored code and kernel interfaces. *)

From Stdlib Require Export ZArith Lia.
From stdpp Require Export base numbers list list_numbers gmap fin_maps.

#[export] Set Default Goal Selector "!".

Global Open Scope Z_scope.

(** ** Machine integers

    An [unsigned int] is a [Z] in [[0, 2^32)]; the wrap-around of an operation
    is [u32].  The infix operators of [u32_scope] are the C operators on
    [unsigned int]; right shifts and [&] never leave the range and are the
    plain [Z] operations. *)

Definition u32_max : Z := 2 ^ 32.

(** Conversion of any integer to [unsigned int]. *)
Definition u32 (z : Z) : Z := z `mod` 2 ^ 32.

(** Conversion to [unsigned char]. *)
Definition u8 (z : Z) : Z := z `mod` 2 ^ 8.

(** Conversion to [int] (two's complement). *)
Definition s32 (z : Z) : Z := (z + 2 ^ 31) `mod` 2 ^ 32 - 2 ^ 31.

Declare Scope u32_scope.
Delimit Scope u32_scope with u32.
Notation "a ^+ b" := (u32 (a + b)) (at level 50, left associativity) : u32_scope.
Notation "a ^- b" := (u32 (a - b)) (at level 50, left associativity) : u32_scope.
Notation "a ^* b" := (u32 (a * b)) (at level 40, left associativity) : u32_scope.
Notation "a ^<< n" := (u32 (a ≪ n)) (at level 35) : u32_scope.
Global Open Scope u32_scope.

Lemma u32_small z : 0 <= z < 2 ^ 32 -> u32 z = z.
Proof. apply Z.mod_small. Qed.

Lemma u32_range z : 0 <= u32 z < 2 ^ 32.
Proof. apply Z.mod_pos_bound. lia. Qed.

Lemma s32_small z : - 2 ^ 31 <= z < 2 ^ 31 -> s32 z = z.
Proof. intros H. unfold s32. rewrite Z.mod_small; lia. Qed.

Lemma u8_small z : 0 <= z < 256 -> u8 z = z.
Proof. intros H. apply Z.mod_small. lia. Qed.

(** ** Bit operations as arithmetic

    The [bits] database turns shifts by literals and masks by literals into
    multiplication, division and remainder, where [lia] takes over. *)

Create Rewrite HintDb bits.

Lemma land_mask n a m : 0 <= n -> m = Z.ones n -> Z.land a m = a `mod` 2 ^ n.
Proof. intros Hn ->. by apply Z.land_ones. Qed.

Lemma land_0x1 a : Z.land a 0x1 = a `mod` 2.
Proof. by apply (land_mask 1). Qed.
Lemma land_0x3 a : Z.land a 0x3 = a `mod` 4.
Proof. by apply (land_mask 2). Qed.
Lemma land_0x7 a : Z.land a 0x7 = a `mod` 8.
Proof. by apply (land_mask 3). Qed.
Lemma land_0xf a : Z.land a 0xf = a `mod` 16.
Proof. by apply (land_mask 4). Qed.
Lemma land_0x1f a : Z.land a 0x1f = a `mod` 32.
Proof. by apply (land_mask 5). Qed.
Lemma land_0x3f a : Z.land a 0x3f = a `mod` 64.
Proof. by apply (land_mask 6). Qed.
Lemma land_0x7f a : Z.land a 0x7f = a `mod` 128.
Proof. by apply (land_mask 7). Qed.
Lemma land_0xff a : Z.land a 0xff = a `mod` 256.
Proof. by apply (land_mask 8). Qed.

#[export] Hint Rewrite land_0x1 land_0x3 land_0x7 land_0xf land_0x1f land_0x3f
  land_0x7f land_0xff : bits.

Lemma shr_div k d a : 0 <= k -> d = 2 ^ k -> a ≫ k = a `div` d.
Proof. intros Hk ->. by apply Z.shiftr_div_pow2. Qed.
Lemma shl_mul k d a : 0 <= k -> d = 2 ^ k -> a ≪ k = a * d.
Proof. intros Hk ->. by apply Z.shiftl_mul_pow2. Qed.

(** Replace every shift by a literal amount. *)
Ltac shifts :=
  repeat match goal with
  | |- context [?a ≫ ?k] =>
      let d := eval vm_compute in (2 ^ k) in
      rewrite (shr_div k d a) by (first [lia | reflexivity])
  | |- context [?a ≪ ?k] =>
      let d := eval vm_compute in (2 ^ k) in
      rewrite (shl_mul k d a) by (first [lia | reflexivity])
  end.

Ltac bits := shifts; autorewrite with bits.

(** An [or] of a multiple of [2^n] with a value below [2^n] is a sum. *)
Lemma lor_add n a b : 0 <= n -> a `mod` 2 ^ n = 0 -> 0 <= b < 2 ^ n -> Z.lor a b = a + b.
Proof.
  intros Hn Ha Hb. symmetry. apply Z.add_nocarry_lor, Z.bits_inj'. intros i Hi.
  rewrite Z.land_spec, Z.bits_0. destruct (Z.lt_ge_cases i n).
  - rewrite <- (Z.mod_pow2_bits_low a n i), Ha, Z.bits_0 by lia. done.
  - rewrite <- (Z.mod_small b (2 ^ n)), Z.mod_pow2_bits_high by lia.
    apply andb_false_r.
Qed.

(** [x & ~(2^k - 1)] on [unsigned int] rounds down to a multiple of [2^k]. *)
Lemma land_not_mask k x :
  0 <= k <= 32 -> 0 <= x < 2 ^ 32 ->
  Z.land x (u32 (Z.lnot (Z.ones k))) = x - x `mod` 2 ^ k.
Proof.
  intros Hk Hx. unfold u32. rewrite <- (Z.land_ones _ 32) by lia.
  rewrite (Z.land_comm (Z.lnot _)), Z.land_assoc, Z.land_ones, (Z.mod_small x) by lia.
  rewrite <- Z.ldiff_land, Z.ldiff_ones_r by lia.
  rewrite Z.shiftl_mul_pow2, Z.shiftr_div_pow2 by lia.
  pose proof (Z.div_mod x (2 ^ k) ltac:(lia)). lia.
Qed.

(** ** Rounding and positions in a rectangle *)

(** The least multiple of [n] that is at least [x]. *)
Definition roundup (x n : Z) : Z := (x + n - 1) `div` n * n.

Lemma roundup_bounds x n : 0 < n -> x <= roundup x n < x + n.
Proof.
  intros Hn. unfold roundup. pose proof (Z.div_mod (x + n - 1) n ltac:(lia)).
  pose proof (Z.mod_pos_bound (x + n - 1) n Hn). nia.
Qed.

(** A row-major position determines its row and its column. *)
Lemma rect_inj w x y x' y' :
  0 <= x < w -> 0 <= x' < w -> w * y + x = w * y' + x' -> x = x' /\ y = y'.
Proof.
  intros Hx Hx' He.
  destruct (Zdiv_mod_unique w y y' x x'); lia.
Qed.

Lemma rect_lt w h x y : 0 <= x < w -> 0 <= y < h -> 0 <= w * y + x < w * h.
Proof. nia. Qed.

(** Every position below [w * h] is one of a row and a column. *)
Lemma rect_pos w h k : 0 <= w -> 0 <= k < w * h -> exists x y, 0 <= x < w /\ 0 <= y < h /\ k = w * y + x.
Proof.
  intros Hw Hk. assert (0 < w) by (destruct (decide (w = 0)) as [->|]; lia).
  exists (k `mod` w), (k `div` w). pose proof (Z.div_mod k w ltac:(lia)).
  pose proof (Z.mod_pos_bound k w ltac:(lia)). split; [done|]. split; [|done].
  split; [apply Z.div_pos; lia|apply Z.div_lt_upper_bound; lia].
Qed.

(** Every index of a range [lo, hi) is hit by exactly one block of a loop that
    advances by [step]. *)
Lemma block_of step i : 0 < step -> exists k r, i = step * k + r /\ 0 <= r < step /\ (0 <= i -> 0 <= k).
Proof.
  intros Hs. exists (i `div` step), (i `mod` step).
  pose proof (Z.div_mod i step ltac:(lia)). pose proof (Z.mod_pos_bound i step Hs).
  pose proof (Z.div_pos i step). lia.
Qed.

(** [lia]/[nia] over goals with divisions and remainders by constants. *)
Ltac dlia := zify; Z.to_euclidean_division_equations; lia.
Ltac dnia := zify; Z.to_euclidean_division_equations; nia.

(** ** [switch]

    A list of cases, each with its labels; the result of the first case that has
    the value among its labels. *)

Definition switch {A} (x : Z) (cases : list (list Z * A)) (default : A) : A :=
  match List.find (fun c => existsb (Z.eqb x) (fst c)) cases with
  | Some c => snd c
  | None => default
  end.

Definition labels {A} (cases : list (list Z * A)) : list Z := concat (map fst cases).

Lemma switch_default {A} x (cases : list (list Z * A)) d : x ∉ labels cases -> switch x cases d = d.
Proof.
  unfold switch. induction cases as [|[ls a] cs IH]; intros Hx; simpl; [done|].
  unfold labels in *. simpl in Hx. rewrite elem_of_app in Hx.
  destruct (existsb (Z.eqb x) ls) eqn:E; [|by apply IH; tauto].
  apply existsb_exists in E as (y & Hy & Exy). apply Z.eqb_eq in Exy as <-.
  destruct Hx. left. by apply list_elem_of_In.
Qed.

Lemma switch_case {A} x ls a (cases : list (list Z * A)) d :
  NoDup (labels cases) -> (ls, a) ∈ cases -> x ∈ ls -> switch x cases d = a.
Proof.
  unfold switch. induction cases as [|[ls' a'] cs IH]; intros Hn Hc Hx; simpl.
  - by apply elem_of_nil in Hc.
  - unfold labels in *. simpl in Hn. apply NoDup_app in Hn as (H1 & H2 & H3).
    destruct (existsb (Z.eqb x) ls') eqn:E.
    + apply existsb_exists in E as (y & Hy & Exy). apply Z.eqb_eq in Exy as <-.
      apply list_elem_of_In in Hy. apply elem_of_cons in Hc as [[= -> ->]|Hc]; [done|].
      destruct (H2 x Hy). apply list_elem_of_In, in_concat. exists ls. split; [|by apply list_elem_of_In].
      apply list_elem_of_In, list_elem_of_fmap. by exists (ls, a).
    + apply elem_of_cons in Hc as [[= -> ->]|Hc]; [|by apply IH].
      assert (existsb (Z.eqb x) ls' = true) by (apply existsb_exists; exists x; split; [by apply list_elem_of_In|apply Z.eqb_refl]).
      congruence.
Qed.

Lemma switch_cases {A} x (cases : list (list Z * A)) d :
  (exists ls a, (ls, a) ∈ cases /\ x ∈ ls /\ switch x cases d = a) \/ switch x cases d = d.
Proof.
  unfold switch. destruct (List.find _ cases) as [[ls a]|] eqn:E; [left|by right].
  apply List.find_some in E as [Hin Hx]. exists ls, a. simpl in *.
  split; [by apply list_elem_of_In|]. split; [|done].
  apply existsb_exists in Hx as (y & Hy & E). apply Z.eqb_eq in E as ->. by apply list_elem_of_In.
Qed.

(** ** Assignments to the fields of a record

    [r <| f := v |>] is the record [r] with the field [f] replaced by [v], derived
    from the instance of [Fields], which rebuilds a record out of its fields. *)
Class Fields (R : Type) := rebuild : R -> R.
Class Assign {R T : Type} (f : R -> T) := assigned : T -> R -> R.
Arguments assigned {R T} f {Assign} v r : assert.

Ltac derive_assign :=
  match goal with |- @Assign ?R ?T ?f =>
    let e := eval hnf in (@rebuild R _) in
    match eval pattern f in e with ?g _ => exact (fun v => g (fun _ => v)) end
  end.
#[export] Hint Extern 0 (Assign _) => derive_assign : typeclass_instances.
Notation "r <| f := v |>" := (assigned f v r) (at level 1, f constr at level 99, left associativity,
  format "r  <| f  :=  v |>").
