(* ===== verification/Effects.v ===== *)
(** * Computations with a state and faults

    The monad of the operations on shared objects: explicit state passing, where
    [None] is undefined behaviour.  [keeps I] is the preservation of an invariant,
    with the rules that follow the structure of an operation. *)

From S2P Require Import Prelude.

Definition ST (S A : Type) : Type := S -> option (A * S).

#[export] Instance ST_ret S : MRet (ST S) := fun A a s => Some (a, s).
#[export] Instance ST_bind S : MBind (ST S) := fun A B k p s =>
  match p s with Some (a, s') => k a s' | None => None end.

(** Undefined behaviour. *)
Definition undefined {S A} : ST S A := fun _ => None.

Lemma bind_some {S A B} (p : ST S A) (k : A -> ST S B) s a s' : p s = Some (a, s') -> (p ≫= k) s = k a s'.
Proof. intros E. unfold mbind, ST_bind. by rewrite E. Qed.

Lemma bind_inv {S A B} (p : ST S A) (k : A -> ST S B) s r s' : (p ≫= k) s = Some (r, s') ->
  exists a s1, p s = Some (a, s1) /\ k a s1 = Some (r, s').
Proof. unfold mbind, ST_bind. destruct (p s) as [[a s1]|]; [|done]. eauto. Qed.

(** ** Invariants *)

Section keeps.
Context {S : Type} (I : S -> Prop).

Definition keeps {A} (o : ST S A) : Prop := forall s r s', I s -> o s = Some (r, s') -> I s'.

Lemma keeps_ret {A} (a : A) : keeps (mret a).
Proof. by intros s r s' Hs [= _ <-]. Qed.

Lemma keeps_undefined {A} : keeps (A:=A) undefined.
Proof. by intros s r s' Hs [=]. Qed.

Lemma keeps_bind {A B} (o : ST S A) (k : A -> ST S B) : keeps o -> (forall a, keeps (k a)) -> keeps (o ≫= k).
Proof. intros Ho Hk s r s' Hs (a & s1 & E1 & E2)%bind_inv. by apply (Hk a s1 r); [apply (Ho s a)|]. Qed.

Lemma keeps_if {A} (b : bool) (o o' : ST S A) : keeps o -> keeps o' -> keeps (if b then o else o').
Proof. by destruct b. Qed.

End keeps.

(** Predicates that a sequence of operations keeps hold of all its states. *)
Lemma keeps_closure {S} (I : S -> Prop) (R : S -> S -> Prop) s s' :
  (forall x y, I x -> R x y -> I y) -> I s -> rtc R s s' -> I s'.
Proof. intros HR Hs Hr. induction Hr as [|x y z Hxy _ IH]; [done|]. apply IH. by apply (HR x). Qed.

(** ** Total correctness

    [ends o s Q]: from the state [s] the operation [o] ends without a fault, with a
    result and a state that satisfy [Q]; [triple P o Q]: it does from every state that
    satisfies [P]. *)

Definition ends {S A} (o : ST S A) (s : S) (Q : A -> S -> Prop) : Prop :=
  exists r s', o s = Some (r, s') /\ Q r s'.

Definition triple {S A} (P : S -> Prop) (o : ST S A) (Q : A -> S -> Prop) : Prop :=
  forall s, P s -> ends o s Q.

Section triples.
Context {S : Type}.
Implicit Types P : S -> Prop.

Lemma ends_eq {A} (o : ST S A) s r s' (Q : A -> S -> Prop) : o s = Some (r, s') -> Q r s' -> ends o s Q.
Proof. intros E H. by exists r, s'. Qed.

Lemma ends_ret {A} (a : A) s (Q : A -> S -> Prop) : Q a s -> ends (mret a) s Q.
Proof. by apply ends_eq. Qed.

Lemma ends_bind {A B} (o : ST S A) (k : A -> ST S B) s Q Q' :
  ends o s Q -> (forall a s1, Q a s1 -> ends (k a) s1 Q') -> ends (o ≫= k) s Q'.
Proof.
  intros (a & s1 & E1 & H1) Hk. destruct (Hk a s1 H1) as (r & s2 & E2 & H2).
  exists r, s2. by rewrite (bind_some _ _ _ _ _ E1).
Qed.

Lemma ends_step {A B} (o : ST S A) (k : A -> ST S B) s a s1 Q :
  o s = Some (a, s1) -> ends (k a) s1 Q -> ends (o ≫= k) s Q.
Proof. intros E Hk. unfold ends. by rewrite (bind_some _ _ _ _ _ E). Qed.

Lemma ends_run {A} (o : ST S A) s (Q : A -> S -> Prop) r s' : ends o s Q -> o s = Some (r, s') -> Q r s'.
Proof. intros (r1 & s1 & E1 & H) E. rewrite E1 in E. by injection E as -> ->. Qed.

Lemma ends_weaken {A} (o : ST S A) s (Q Q' : A -> S -> Prop) :
  ends o s Q' -> (forall a s', Q' a s' -> Q a s') -> ends o s Q.
Proof. intros (r & s' & E & H) HQ. exists r, s'. auto. Qed.

Lemma triple_ret {A} P (a : A) (Q : A -> S -> Prop) : (forall s, P s -> Q a s) -> triple P (mret a) Q.
Proof. intros H s Hs. by apply ends_ret, H. Qed.

Lemma triple_bind {A B} P (o : ST S A) (k : A -> ST S B) Q Q' :
  triple P o Q -> (forall a, triple (Q a) (k a) Q') -> triple P (o ≫= k) Q'.
Proof. intros Ho Hk s Hs. eapply ends_bind; [by apply Ho|]. intros a. apply Hk. Qed.

Lemma triple_weaken {A} P P' (o : ST S A) (Q Q' : A -> S -> Prop) :
  triple P' o Q' -> (forall s, P s -> P' s) -> (forall a s, Q' a s -> Q a s) -> triple P o Q.
Proof. intros Ho HP HQ s Hs. eapply ends_weaken; [by apply Ho, HP|done]. Qed.

Lemma triple_if {A} P (b : bool) (o o' : ST S A) Q :
  (b = true -> triple P o Q) -> (b = false -> triple P o' Q) -> triple P (if b then o else o') Q.
Proof. destruct b; auto. Qed.
End triples.
