(* ===== verification/CMem.v ===== *)
(** * Memory, procedures and loops of the C code

    Byte-addressed memory, the state/error monad the C procedures are
    translated to, the counted [for] loop, and the Hoare-style calculus the
    functional theorems are proved with. *)

From S2P Require Import Prelude.

(** ** Memory

    A memory maps the mapped addresses to bytes.  Reading or writing an
    unmapped address is a fault, modelled by [None]. *)

Abbreviation mem := (gmap Z Z).

(** Procedures: they read and change the memory, and may fault.  [None] stands
    for undefined behaviour (an access out of the mapped memory, an overlapping
    [memcpy]) and for a loop that does not end within its fuel. *)
Definition M (A : Type) : Type := mem -> option (A * mem).

Definition ret {A} (a : A) : M A := fun m => Some (a, m).
Definition bind {A B} (p : M A) (k : A -> M B) : M B :=
  fun m => match p m with Some (a, m') => k a m' | None => None end.
Definition fault {A} : M A := fun _ => None.

Declare Scope c_scope.
Delimit Scope c_scope with c.
Notation "'let!' x := c 'in' k" := (bind c (fun x => k))
  (at level 10, x pattern, c at level 100, k at level 200) : c_scope.
Notation "c1 ;! c2" := (bind c1 (fun _ => c2))
  (at level 100, c2 at level 200, right associativity) : c_scope.
Global Open Scope c_scope.

Definition when (b : bool) (p : M unit) : M unit := if b then p else ret tt.

(** One byte read and written.  [store8] is an assignment through an
    [unsigned char] pointer, which keeps the low eight bits of the value. *)
Definition load8 (a : Z) : M Z :=
  fun m => match m !! a with Some v => Some (v, m) | None => None end.
Definition poke (a v : Z) : M unit :=
  fun m => match m !! a with Some _ => Some (tt, <[a := v]> m) | None => None end.
Definition store8 (a v : Z) : M unit := poke a (u8 v).

(** A little-endian read of [n] bytes: through an [unsigned short] pointer for
    [n = 2], an [unsigned int] pointer for [n = 4]. *)
Fixpoint load_le (n : nat) (a : Z) : M Z :=
  match n with
  | O => ret 0
  | S n' => let! b := load8 a in let! r := load_le n' (a + 1) in ret (b + 256 * r)
  end.
Definition load16 : Z -> M Z := load_le 2.
Definition load32 : Z -> M Z := load_le 4.

(** [memcpy(d, s, n)]: undefined when the two regions overlap. *)
Fixpoint copy_bytes (n : nat) (d s : Z) : M unit :=
  match n with
  | O => ret tt
  | S n' => let! v := load8 s in poke d v ;! copy_bytes n' (d + 1) (s + 1)
  end.
Definition disjointb (a b n : Z) : bool := (a + n <=? b) || (b + n <=? a).
Definition memcpy (d s n : Z) : M unit :=
  if (n <=? 0) || disjointb d s n then copy_bytes (Z.to_nat n) d s else fault.

(** ** Loops

    [for (i = lo; i < hi; i += step) body], where [body] also updates the local
    variables [s].  The result is the pair of the counter and the locals when the
    loop ends.  [next] is the C increment, at its width.  An iteration moves the
    counter forward by at least one unless it wraps around, so [hi - lo] is
    enough fuel for every loop that ends. *)
Fixpoint for_loop {S} (fuel : nat) (cond : Z -> bool) (next : Z -> Z)
    (body : Z -> S -> M S) (i : Z) (s : S) : M (Z * S) :=
  if cond i then
    match fuel with
    | O => fault
    | Datatypes.S n => let! s' := body i s in for_loop n cond next body (next i) s'
    end
  else ret (i, s).

(** [unsigned int] counters. *)
Definition for_u {S} (lo hi step : Z) (s : S) (body : Z -> S -> M S) : M (Z * S) :=
  for_loop (Z.to_nat (hi - lo)) (fun i => i <? hi) (fun i => i ^+ step) body lo s.

(** The same loop with no local variable but its counter. *)
Definition for_u_ (lo hi step : Z) (body : Z -> M unit) : M Z :=
  let! r := for_u lo hi step tt (fun i _ => body i) in ret (fst r).

(** The same loop as a statement. *)
Definition for_each (lo hi step : Z) (body : Z -> M unit) : M unit :=
  for_u_ lo hi step body ;! ret tt.

(** [for (k = 0; cond; k++) body] with at most [fuel] iterations. *)
Definition for_while (fuel : nat) (cond : Z -> bool) (body : Z -> M unit) : M unit :=
  for_loop fuel cond (fun k => k ^+ 1) (fun k _ => body k) 0 tt ;! ret tt.

(** ** The write calculus

    All procedures of the converters fill a destination from a source that they
    never write.  Fix the memory [m0] in which the outermost procedure starts and
    the relation [V a v], "the byte to be written at address [a] is [v]".  A
    memory is reachable when every byte is the initial one or the one to be
    written; an address is done when it holds the byte to be written. *)

Section calculus.
Context (m0 : mem) (V : Z -> Z -> Prop).

Definition target (a : Z) : Prop := exists v, V a v.

Definition reach (m : mem) : Prop :=
  forall a, m !! a = m0 !! a \/ exists v, V a v /\ m !! a = Some v.

Definition done_at (m : mem) (a : Z) : Prop := exists v, V a v /\ m !! a = Some v.

(** [writes p r C]: from every reachable memory [p] ends with the result [r] in
    a reachable memory, every address of [C] is done then, and no address that
    was done is undone. *)
Definition writes {A} (p : M A) (r : A) (C : Z -> Prop) : Prop :=
  forall m, reach m -> exists m',
    p m = Some (r, m') /\ reach m' /\
    (forall a, C a -> done_at m' a) /\
    (forall a, done_at m a -> done_at m' a).

Lemma reach_refl : reach m0.
Proof. intros a. by left. Qed.

Lemma writes_ret {A} (r : A) : writes (ret r) r (fun _ => False).
Proof. intros m Hm. exists m. repeat split; [done|tauto|tauto]. Qed.

Lemma writes_weaken {A} (p : M A) r (C C' : Z -> Prop) :
  writes p r C -> (forall a, C' a -> C a) -> writes p r C'.
Proof.
  intros Hp HC m Hm. destruct (Hp m Hm) as (m' & ? & ? & ? & ?).
  exists m'. repeat split; auto.
Qed.

Lemma writes_bind {A B} (p : M A) (k : A -> M B) r r' C1 C2 :
  writes p r C1 -> writes (k r) r' C2 ->
  writes (bind p k) r' (fun a => C1 a \/ C2 a).
Proof.
  intros Hp Hk m Hm. destruct (Hp m Hm) as (m1 & E1 & R1 & D1 & K1).
  destruct (Hk m1 R1) as (m2 & E2 & R2 & D2 & K2).
  exists m2. unfold bind. rewrite E1, E2. repeat split; [done| |].
  - intros a [Ha|Ha]; auto.
  - auto.
Qed.

Lemma writes_seq {B} (p : M unit) (q : M B) r C1 C2 :
  writes p tt C1 -> writes q r C2 -> writes (p ;! q) r (fun a => C1 a \/ C2 a).
Proof. intros Hp Hq. by apply (writes_bind p _ tt). Qed.

Lemma writes_when (b : bool) (p : M unit) C :
  (b = true -> writes p tt C) -> writes (when b p) tt (fun a => b = true /\ C a).
Proof.
  intros Hp. destruct b; simpl.
  - eapply writes_weaken; [by apply Hp|]. by intros a [_ ?].
  - eapply writes_weaken; [apply writes_ret|]. by intros a [? _].
Qed.

(** A read outside the target region gives the initial byte. *)
Lemma writes_load8 a v :
  ~ target a -> m0 !! a = Some v -> writes (load8 a) v (fun _ => False).
Proof.
  intros Ha Hv m Hm. exists m. unfold load8.
  destruct (Hm a) as [->|(w & HV & _)]; [|by destruct Ha; exists w].
  rewrite Hv. repeat split; [done|tauto|tauto].
Qed.

(** A write of the right byte to a mapped address. *)
Lemma writes_poke a v :
  is_Some (m0 !! a) -> V a v -> writes (poke a v) tt (fun b => b = a).
Proof.
  intros Ha HV m Hm. exists (<[a := v]> m). unfold poke.
  assert (is_Some (m !! a)) as [w ->].
  { destruct (Hm a) as [->|(w & _ & ->)]; eauto. }
  repeat split.
  - intros b. rewrite lookup_insert. case_decide as Hab; [subst; eauto|apply Hm].
  - intros b ->. exists v. by rewrite lookup_insert_eq.
  - intros b (w' & Hw & Hb). destruct (decide (a = b)) as [->|Hne].
    + exists v. by rewrite lookup_insert_eq.
    + exists w'. by rewrite lookup_insert_ne.
Qed.

Lemma writes_store8 a v :
  is_Some (m0 !! a) -> V a (u8 v) -> writes (store8 a v) tt (fun b => b = a).
Proof. apply writes_poke. Qed.

(** What a copy of [n] bytes from [s] to [d] needs: every source byte is mapped,
    outside the target, and the byte to be written at its destination. *)
Definition copyable (d s n : Z) : Prop :=
  forall k, 0 <= k < n ->
    is_Some (m0 !! (d + k)) /\ ~ target (s + k) /\
    exists v, m0 !! (s + k) = Some v /\ V (d + k) v.

Lemma writes_copy_bytes n d s :
  copyable d s (Z.of_nat n) ->
  writes (copy_bytes n d s) tt (fun a => d <= a < d + Z.of_nat n).
Proof.
  revert d s. induction n as [|n IH]; intros d s Hc; simpl.
  - eapply writes_weaken; [apply writes_ret|]. intros a Ha; lia.
  - destruct (Hc 0) as (Hd & Hs & v & Hv & HV); [lia|].
    rewrite Z.add_0_r in *.
    eapply writes_weaken.
    { apply writes_bind with (r := v); [by apply writes_load8|].
      apply writes_seq; [by apply writes_poke|].
      apply IH. intros k Hk. destruct (Hc (k + 1)) as (H1 & H2 & H3); [lia|].
      by rewrite <- !Z.add_assoc, (Z.add_comm 1 k). }
    intros a Ha. simpl. lia.
Qed.

Lemma copyable_disjoint d s n :
  copyable d s n -> (n <=? 0) || disjointb d s n = true.
Proof.
  intros Hc. destruct (Z.leb_spec n 0) as [|Hn]; [done|]. simpl.
  unfold disjointb. apply orb_true_iff. rewrite !Z.leb_le.
  destruct (Z.le_gt_cases (d + n) s) as [|H1]; [auto|].
  destruct (Z.le_gt_cases (s + n) d) as [|H2]; [auto|]. exfalso.
  destruct (Z.le_gt_cases d s) as [H3|H3].
  - destruct (Hc 0) as (_ & Ht & _); [lia|].
    destruct (Hc (s - d)) as (_ & _ & v & _ & HV); [lia|].
    apply Ht. exists v. by replace (s + 0) with (d + (s - d)) by lia.
  - destruct (Hc (d - s)) as (_ & Ht & _); [lia|].
    destruct (Hc 0) as (_ & _ & v & _ & HV); [lia|].
    apply Ht. exists v. by replace (s + (d - s)) with (d + 0) by lia.
Qed.

Lemma writes_memcpy d s n :
  copyable d s n -> writes (memcpy d s n) tt (fun a => d <= a < d + n).
Proof.
  intros Hc. unfold memcpy. rewrite copyable_disjoint by done.
  eapply writes_weaken.
  { apply writes_copy_bytes. intros k Hk. apply Hc. lia. }
  intros a Ha. destruct (decide (0 <= n)); lia.
Qed.

(** One byte copied from [s] to [d]. *)
Definition copyable1 (d s : Z) : Prop :=
  is_Some (m0 !! d) /\ ~ target s /\ exists v, m0 !! s = Some v /\ V d v.

Lemma writes_copy1 d s :
  copyable1 d s -> writes (let! v := load8 s in poke d v) tt (fun a => a = d).
Proof.
  intros (Hd & Hs & v & Hv & HV). eapply writes_weaken.
  { eapply writes_bind; [by apply writes_load8|]. by apply writes_poke. }
  intros a ->. by right.
Qed.

(** A loop of [n] iterations with counter [lo + step * k] and locals [st k] at
    iteration [k]. *)
Lemma writes_for_loop {S} fuel cond next body (cnt : Z -> Z) (st : Z -> S) (C : Z -> Z -> Prop) n k0 :
  (Z.to_nat (n - k0) <= fuel)%nat -> k0 <= n ->
  (forall k, k0 <= k < n -> cond (cnt k) = true /\ next (cnt k) = cnt (k + 1)) ->
  cond (cnt n) = false ->
  (forall k, k0 <= k < n -> writes (body (cnt k) (st k)) (st (k + 1)) (C k)) ->
  writes (for_loop fuel cond next body (cnt k0) (st k0)) (cnt n, st n)
    (fun a => exists k, k0 <= k < n /\ C k a).
Proof.
  revert k0. induction fuel as [|fuel IH]; intros k0 Hf Hk Hc Hn Hb.
  - assert (k0 = n) as -> by lia. simpl. rewrite Hn.
    eapply writes_weaken; [apply writes_ret|]. intros a (k & ? & _); lia.
  - destruct (decide (k0 = n)) as [->|Hne]; simpl.
    + rewrite Hn. eapply writes_weaken; [apply writes_ret|].
      intros a (k & ? & _); lia.
    + destruct (Hc k0) as [-> ->]; [lia|]. eapply writes_weaken.
      { eapply writes_bind; [apply Hb; lia|].
        apply IH; [lia|lia| |done|]; intros k ?; [apply Hc|apply Hb]; lia. }
      intros a (k & Hk' & HC). simpl. destruct (decide (k = k0)) as [->|]; [by left|].
      right. exists k. split; [lia|done].
Qed.

Lemma writes_for_u {S} lo hi step body (st : Z -> S) (C : Z -> Z -> Prop) n :
  0 < step -> 0 <= n -> 0 <= lo ->
  (0 < n -> lo + step * (n - 1) < hi) -> hi <= lo + step * n -> lo + step * n < 2 ^ 32 ->
  (forall k, 0 <= k < n -> writes (body (lo + step * k) (st k)) (st (k + 1)) (C k)) ->
  writes (for_u lo hi step (st 0) body) (lo + step * n, st n)
    (fun a => exists k, 0 <= k < n /\ C k a).
Proof.
  intros Hs Hn Hlo Hlt Hle Hw Hb. unfold for_u.
  pose proof (writes_for_loop (Z.to_nat (hi - lo)) (fun i => i <? hi)
    (fun i => i ^+ step) body (fun k => lo + step * k) st C n 0) as H.
  simpl in H. rewrite Z.mul_0_r, Z.add_0_r in H. apply H; clear H; [|lia| | |done].
  - destruct (decide (0 < n)); nia.
  - intros k Hk. split; [apply Z.ltb_lt; nia|]. rewrite u32_small; nia.
  - apply Z.ltb_ge. lia.
Qed.

Lemma writes_for_u_ lo hi step body (C : Z -> Z -> Prop) n :
  0 < step -> 0 <= n -> 0 <= lo ->
  (0 < n -> lo + step * (n - 1) < hi) -> hi <= lo + step * n -> lo + step * n < 2 ^ 32 ->
  (forall k, 0 <= k < n -> writes (body (lo + step * k)) tt (C k)) ->
  writes (for_u_ lo hi step body) (lo + step * n) (fun a => exists k, 0 <= k < n /\ C k a).
Proof.
  intros Hs Hn Hlo Hlt Hle Hw Hb. unfold for_u_. eapply writes_weaken.
  { eapply writes_bind.
    - by apply (writes_for_u lo hi step (fun i _ => body i) (fun _ => tt) C n).
    - apply writes_ret. }
  intros a Ha. by left.
Qed.

Lemma writes_for_each lo hi step body (C : Z -> Z -> Prop) n :
  0 < step -> 0 <= n -> 0 <= lo ->
  (0 < n -> lo + step * (n - 1) < hi) -> hi <= lo + step * n -> lo + step * n < 2 ^ 32 ->
  (forall k, 0 <= k < n -> writes (body (lo + step * k)) tt (C k)) ->
  writes (for_each lo hi step body) tt (fun a => exists k, 0 <= k < n /\ C k a).
Proof.
  intros. eapply writes_weaken.
  { apply (writes_bind _ (fun _ => _) (lo + step * n)); [by apply writes_for_u_ with (C := C)|].
    apply writes_ret. }
  intros a Ha. by left.
Qed.

Lemma writes_for_while fuel cond body (C : Z -> Z -> Prop) n :
  0 <= n <= Z.of_nat fuel -> n < 2 ^ 32 ->
  (forall k, 0 <= k < n -> cond k = true) -> cond n = false ->
  (forall k, 0 <= k < n -> writes (body k) tt (C k)) ->
  writes (for_while fuel cond body) tt (fun a => exists k, 0 <= k < n /\ C k a).
Proof.
  intros Hn Hw Hc He Hb. eapply writes_weaken.
  { apply (writes_bind _ (fun _ => _) (n, tt)); [|apply writes_ret].
    apply (writes_for_loop fuel cond (fun k => k ^+ 1) (fun k _ => body k) (fun k => k)
      (fun _ => tt) C n 0); [lia|lia| |done|done].
    intros k Hk. split; [by apply Hc|]. apply u32_small. lia. }
  intros a Ha. by left.
Qed.

(** The calculus run from the initial memory: a procedure that covers all of the
    target ends, every target byte holds its value, and no other byte changes. *)
Lemma writes_run {A} (p : M A) r C :
  writes p r C -> (forall a, target a -> C a) ->
  exists m', p m0 = Some (r, m') /\
    (forall a, target a -> exists v, V a v /\ m' !! a = Some v) /\
    (forall a, ~ target a -> m' !! a = m0 !! a) /\
    (forall a, is_Some (m0 !! a) -> is_Some (m' !! a)).
Proof.
  intros Hp HC. destruct (Hp m0 reach_refl) as (m' & E & R & D & _).
  exists m'. split; [done|]. split; [|split].
  - intros a Ha. by apply D, HC.
  - intros a Ha. destruct (R a) as [|(v & Hv & _)]; [done|]. by destruct Ha; exists v.
  - intros a Ha. destruct (R a) as [->|(v & _ & ->)]; eauto.
Qed.
End calculus.

(** ** Regions and concrete memories *)

(** The [n] addresses from [a] on are mapped. *)
Definition mapped (m : mem) (a n : Z) : Prop := forall k, 0 <= k < n -> is_Some (m !! (a + k)).

(** The two regions share no address. *)
Definition apart (a n b k : Z) : Prop := a + n <= b \/ b + k <= a.

(** [m] extended with the bytes [g 0, ..., g (n - 1)] at [a]. *)
Fixpoint fill (n : nat) (a : Z) (g : Z -> Z) (m : mem) : mem :=
  match n with
  | O => m
  | S n' => <[a + Z.of_nat n' := g (Z.of_nat n')]> (fill n' a g m)
  end.

Lemma lookup_fill n a g m b :
  fill n a g m !! b = if decide (a <= b < a + Z.of_nat n) then Some (g (b - a)) else m !! b.
Proof.
  induction n as [|n IH]; simpl.
  - by rewrite decide_False by lia.
  - rewrite lookup_insert, IH. repeat case_decide; first [lia|done|do 2 f_equal; lia].
Qed.

Lemma mapped_fill n a g m : mapped (fill n a g m) a (Z.of_nat n).
Proof. intros k Hk. rewrite lookup_fill, decide_True by lia. eauto. Qed.

Lemma mapped_fill_other n a g m b k : mapped m b k -> mapped (fill n a g m) b k.
Proof. intros Hm i Hi. rewrite lookup_fill. case_decide; eauto. Qed.

Lemma mapped_sub m a n b k : mapped m a n -> a <= b -> b + k <= a + n -> mapped m b k.
Proof.
  intros Hm H1 H2 i Hi. replace (b + i) with (a + (b - a + i)) by lia. apply Hm. lia.
Qed.

Lemma mapped_at m a n b : mapped m a n -> a <= b < a + n -> is_Some (m !! b).
Proof. intros Hm Hb. replace b with (a + (b - a)) by lia. apply Hm. lia. Qed.

Create HintDb mem.
#[export] Hint Resolve mapped_fill mapped_fill_other : mem.

(** ** Copy plans

    What a converter that only moves bytes promises: the bytes at the
    destinations [D k] are those that were at the sources [S k], for every index
    [k] in [P], and no other byte changes. *)

Definition moved {K} (P : K -> Prop) (D S : K -> Z) (m m' : mem) : Prop :=
  (forall k, P k -> m' !! D k = m !! S k) /\
  (forall a, (forall k, P k -> a <> D k) -> m' !! a = m !! a) /\
  (forall a, is_Some (m !! a) -> is_Some (m' !! a)).

Lemma moved_ext {K} (P : K -> Prop) D S S' m m' :
  (forall k, P k -> S k = S' k) -> moved P D S m m' -> moved P D S' m m'.
Proof. intros He (H1 & H2 & H3). split; [|done]. intros k Hk. rewrite <- He; auto. Qed.

Lemma moved_mapped {K} (P : K -> Prop) D S m m' a n :
  moved P D S m m' -> mapped m a n -> mapped m' a n.
Proof. intros (_ & _ & H) Hm k Hk. auto. Qed.

(** Two plans carried out one after the other. *)
Lemma moved_seq {K1 K2} (P1 : K1 -> Prop) (P2 : K2 -> Prop) D1 D2 S1 S2 m m1 m2 :
  moved P1 D1 S1 m m1 -> moved P2 D2 S2 m1 m2 ->
  (forall k1 k2, P1 k1 -> P2 k2 -> D1 k1 <> D2 k2) ->
  (forall k1 k2, P1 k1 -> P2 k2 -> S2 k2 <> D1 k1) ->
  moved (fun k => match k with inl k => P1 k | inr k => P2 k end)
    (fun k => match k with inl k => D1 k | inr k => D2 k end)
    (fun k => match k with inl k => S1 k | inr k => S2 k end) m m2.
Proof.
  intros (A1 & B1 & C1) (A2 & B2 & C2) HD HS. split; [|split].
  - intros [k|k] Hk.
    + rewrite B2; auto.
    + rewrite A2, B1; auto.
  - intros a Ha. rewrite B2, B1; [done|..].
    + intros k Hk. by apply (Ha (inl k)).
    + intros k Hk. by apply (Ha (inr k)).
  - auto.
Qed.

(** The same plan with other indices. *)
Lemma moved_reindex {K K'} (f : K' -> K) (P : K -> Prop) D S (P' : K' -> Prop) D' S' m m' :
  moved P D S m m' ->
  (forall k, P' k -> P (f k) /\ D' k = D (f k) /\ S' k = S (f k)) ->
  (forall k, P k -> exists k', P' k' /\ D' k' = D k) ->
  moved P' D' S' m m'.
Proof.
  intros (A & B & C) H1 H2. split; [|split; [|done]].
  - intros k Hk. destruct (H1 k Hk) as (Hf & -> & ->). auto.
  - intros a Ha. apply B. intros k Hk ->. destruct (H2 k Hk) as (k' & Hk' & E). by apply (Ha k').
Qed.

(** A plan determines the final memory. *)
Lemma moved_unique {K} (P : K -> Prop) D S m m1 m2 :
  (forall a, (exists k, P k /\ a = D k) \/ (forall k, P k -> a <> D k)) ->
  moved P D S m m1 -> moved P D S m m2 -> m1 = m2.
Proof.
  intros Hd (A1 & B1 & _) (A2 & B2 & _). apply map_eq. intros a.
  destruct (Hd a) as [(k & Hk & ->)|Ha].
  - by rewrite A1, A2.
  - by rewrite B1, B2.
Qed.

Section plan.
Context {K : Type} (m0 : mem) (P : K -> Prop) (D S : K -> Z).
Context (mapped_D : forall k, P k -> is_Some (m0 !! D k)).
Context (mapped_S : forall k, P k -> is_Some (m0 !! S k)).
Context (apart_DS : forall k k', P k -> P k' -> D k <> S k').
Context (det : forall k k', P k -> P k' -> D k = D k' -> S k = S k').

Definition plan (a v : Z) : Prop := exists k, P k /\ a = D k /\ m0 !! S k = Some v.

Lemma plan_source k : P k -> ~ target plan (S k).
Proof using apart_DS. intros Hk (v & k' & Hk' & He & _). by apply (apart_DS k' k). Qed.

Lemma plan_copyable1 k d s : P k -> d = D k -> s = S k -> copyable1 m0 plan d s.
Proof using mapped_D mapped_S apart_DS.
  intros Hk -> ->. destruct (mapped_S k Hk) as [v Hv].
  split; [auto|]. split; [by apply plan_source|]. exists v. split; [done|]. by exists k.
Qed.

Lemma plan_copyable d s n :
  (forall i, 0 <= i < n -> exists k, P k /\ d + i = D k /\ s + i = S k) ->
  copyable m0 plan d s n.
Proof using mapped_D mapped_S apart_DS.
  intros H i Hi. destruct (H i Hi) as (k & Hk & Hd & Hs).
  exact (plan_copyable1 k _ _ Hk Hd Hs).
Qed.

(** A procedure that covers every destination of the plan carries it out. *)
Lemma plan_run {A} (p : M A) r C :
  writes m0 plan p r C -> (forall k, P k -> C (D k)) ->
  exists m', p m0 = Some (r, m') /\ moved P D S m0 m'.
Proof using mapped_S det.
  intros Hp HC. destruct (writes_run m0 plan p r C Hp) as (m' & E & HT & HF & HM).
  { intros a (v & k & Hk & -> & _). auto. }
  exists m'. split; [done|]. split; [|split; [|done]].
  - intros k Hk. destruct (mapped_S k Hk) as [v Hv].
    destruct (HT (D k)) as (w & (k' & Hk' & He & Hw) & ->); [by exists v, k|].
    by rewrite <- Hw, (det k k').
  - intros a Ha. apply HF. intros (v & k & Hk & -> & _). by apply (Ha k).
Qed.
End plan.

(** ** Computed planes

    The same contract for a converter that computes the bytes it writes: the
    destination [D k] receives the value [W k]. *)

Definition stored {K} (P : K -> Prop) (D W : K -> Z) (m m' : mem) : Prop :=
  (forall k, P k -> m' !! D k = Some (W k)) /\
  (forall a, (forall k, P k -> a <> D k) -> m' !! a = m !! a).

Section stored.
Context {K : Type} (m0 : mem) (P : K -> Prop) (D W : K -> Z).
Context (det : forall k k', P k -> P k' -> D k = D k' -> W k = W k').

Definition image (a v : Z) : Prop := exists k, P k /\ a = D k /\ v = W k.

(** A procedure that covers every destination of the image writes it. *)
Lemma stored_run {A} (p : M A) r C :
  writes m0 image p r C -> (forall k, P k -> C (D k)) ->
  exists m', p m0 = Some (r, m') /\ stored P D W m0 m'.
Proof using det.
  intros Hp HC. destruct (writes_run m0 image p r C Hp) as (m' & E & HT & HF & _).
  { intros a (v & k & Hk & -> & _). auto. }
  exists m'. split; [done|]. split.
  - intros k Hk. destruct (HT (D k)) as (w & (k' & Hk' & He & ->) & ->); [by exists (W k), k|].
    by rewrite (det k k').
  - intros a Ha. apply HF. intros (v & k & Hk & -> & _). by apply (Ha k).
Qed.
End stored.

Lemma stored_reindex {K K'} (f : K' -> K) (P : K -> Prop) D W (P' : K' -> Prop) D' W' m m' :
  stored P D W m m' ->
  (forall k, P' k -> P (f k) /\ D' k = D (f k) /\ W' k = W (f k)) ->
  (forall k, P k -> exists k', P' k' /\ D' k' = D k) ->
  stored P' D' W' m m'.
Proof.
  intros (A & B) H1 H2. split.
  - intros k Hk. destruct (H1 k Hk) as (Hf & -> & ->). auto.
  - intros a Ha. apply B. intros k Hk ->. destruct (H2 k Hk) as (k' & Hk' & E). by apply (Ha k').
Qed.

(** A read of [n] bytes outside the target region gives the initial value. *)
Lemma writes_load_le m0 V n a v :
  (forall k, 0 <= k < Z.of_nat n -> ~ target V (a + k)) ->
  load_le n a m0 = Some (v, m0) -> writes m0 V (load_le n a) v (fun _ => False).
Proof.
  revert a v. induction n as [|n IH]; intros a v Ht E; simpl in *.
  - injection E as <-. apply writes_ret.
  - unfold bind, load8 in E. destruct (m0 !! a) as [b|] eqn:Eb; [|done].
    destruct (load_le n (a + 1) m0) as [[r m']|] eqn:Er; [|done]. injection E as <- ->.
    eapply writes_weaken.
    { eapply writes_bind; [apply writes_load8; [|done]|].
      - specialize (Ht 0 ltac:(lia)). by rewrite Z.add_0_r in Ht.
      - eapply writes_bind; [apply IH; [|done]|apply writes_ret].
        intros k Hk. replace (a + 1 + k) with (a + (1 + k)) by lia. apply Ht. lia. }
    intros c Hc. by right; left.
Qed.

(** A read from mapped addresses does not fault and changes nothing. *)
Lemma load_le_mapped n m a : mapped m a (Z.of_nat n) -> exists v, load_le n a m = Some (v, m).
Proof.
  revert a. induction n as [|n IH]; intros a Hm; simpl; [by eexists|].
  destruct (mapped_at m a _ a Hm) as [b Eb]; [lia|].
  destruct (IH (a + 1)) as [v E].
  { apply (mapped_sub m a (Z.of_nat (S n))); [done|lia|lia]. }
  unfold bind, load8. rewrite Eb, E. by eexists.
Qed.
