(* ===== verification/Interleave.v ===== *)
(** * Interleaving and de-interleaving chroma planes

    [csc_deinterleave_memcpy] and [csc_interleave_memcpy] of
    [src/libswconverter/swconvertor.c] (the C code, without [NEON_SUPPORT]). *)

From S2P Require Import Prelude CMem.

(** ** Operations *)

Definition csc_deinterleave_memcpy (dest1 dest2 src src_size : Z) : M unit :=
  for_each 0 (src_size `div` 2) 1 (fun i =>
    (let! v := load8 (src + i ^* 2) in poke (dest1 + i) v) ;!
    (let! v := load8 (src + (i ^* 2 ^+ 1)) in poke (dest2 + i) v)).

Definition csc_interleave_memcpy (dest src1 src2 src_size : Z) : M unit :=
  for_each 0 src_size 1 (fun i =>
    (let! v := load8 (src1 + i) in poke (dest + i ^* 2) v) ;!
    (let! v := load8 (src2 + i) in poke (dest + (i ^* 2 ^+ 1)) v)).

(** ** The two routines in the write calculus *)

Section calculus.
Context (m0 : mem) (V : Z -> Z -> Prop).
Abbreviation writes := (writes m0 V).

Abbreviation copyable1 := (copyable1 m0 V).

Lemma writes_deinterleave d1 d2 s n :
  0 <= n < 2 ^ 31 ->
  (forall k, 0 <= k < n `div` 2 -> copyable1 (d1 + k) (s + 2 * k)) ->
  (forall k, 0 <= k < n `div` 2 -> copyable1 (d2 + k) (s + (2 * k + 1))) ->
  writes (csc_deinterleave_memcpy d1 d2 s n) tt
    (fun a => exists k, 0 <= k < n `div` 2 /\ (a = d1 + k \/ a = d2 + k)).
Proof.
  intros Hn H1 H2. pose proof (Z.div_le_upper_bound n 2 (2 ^ 31)).
  pose proof (Z.div_pos n 2). eapply writes_weaken.
  { apply writes_for_each with (n := n `div` 2) (C := fun k a => a = d1 + k \/ a = d2 + k); try lia.
    intros k Hk. rewrite Z.add_0_l, Z.mul_1_l, !u32_small by (rewrite ?u32_small; lia).
    rewrite (Z.mul_comm k 2). apply writes_seq; apply writes_copy1; auto. }
  intros a (k & Hk & Ha). eauto.
Qed.

Lemma writes_interleave d s1 s2 n :
  0 <= n < 2 ^ 31 ->
  (forall k, 0 <= k < n -> copyable1 (d + 2 * k) (s1 + k)) ->
  (forall k, 0 <= k < n -> copyable1 (d + (2 * k + 1)) (s2 + k)) ->
  writes (csc_interleave_memcpy d s1 s2 n) tt (fun a => d <= a < d + 2 * n).
Proof.
  intros Hn H1 H2. eapply writes_weaken.
  { apply writes_for_each with (n := n) (C := fun k a => a = d + 2 * k \/ a = d + (2 * k + 1)); try lia.
    intros k Hk. rewrite Z.add_0_l, Z.mul_1_l, !u32_small by (rewrite ?u32_small; lia).
    rewrite (Z.mul_comm k 2). apply writes_seq; apply writes_copy1; auto. }
  intros a Ha. destruct (block_of 2 (a - d)) as (k & r & ? & ? & ?); [lia|].
  exists k. lia.
Qed.
End calculus.

(** ** Functional correctness *)

(** The planes of an interleaved buffer: byte [2 k] goes to the first plane,
    byte [2 k + 1] to the second, for [k < n]. *)
Definition pair_dom (n : Z) : bool * Z -> Prop := fun '(_, k) => 0 <= k < n.
Definition plane_at (p1 p2 : Z) : bool * Z -> Z := fun '(b, k) => (if b then p2 else p1) + k.
Definition pair_at (p : Z) : bool * Z -> Z := fun '(b, k) => p + (2 * k + if b then 1 else 0).

Lemma plane_det n p1 p2 (k k' : bool * Z) :
  apart p1 n p2 n -> pair_dom n k -> pair_dom n k' -> plane_at p1 p2 k = plane_at p1 p2 k' -> k = k'.
Proof.
  unfold apart. destruct k as [[] k], k' as [[] k']; simpl; intros; solve [f_equal; lia|lia].
Qed.

Lemma pair_det p (k k' : bool * Z) : pair_at p k = pair_at p k' -> k = k'.
Proof. destruct k as [[] k], k' as [[] k']; simpl; intros; solve [f_equal; lia|lia]. Qed.

Lemma mapped_plane m n p1 p2 k :
  mapped m p1 n -> mapped m p2 n -> pair_dom n k -> is_Some (m !! plane_at p1 p2 k).
Proof. destruct k as [[] k]; simpl; intros H1 H2 Hk; auto. Qed.

Lemma mapped_pair m n p k : mapped m p (2 * n) -> pair_dom n k -> is_Some (m !! pair_at p k).
Proof. destruct k as [[] k]; simpl; intros H Hk; apply H; lia. Qed.

Lemma plane_pair_apart n p1 p2 p k k' :
  apart p1 n p (2 * n) -> apart p2 n p (2 * n) ->
  pair_dom n k -> pair_dom n k' -> plane_at p1 p2 k <> pair_at p k'.
Proof. unfold apart. destruct k as [[] k], k' as [[] k']; simpl; lia. Qed.

Lemma deinterleave_run m d1 d2 s n :
  0 <= n < 2 ^ 31 ->
  mapped m s (2 * (n `div` 2)) -> mapped m d1 (n `div` 2) -> mapped m d2 (n `div` 2) ->
  apart d1 (n `div` 2) d2 (n `div` 2) ->
  apart d1 (n `div` 2) s (2 * (n `div` 2)) -> apart d2 (n `div` 2) s (2 * (n `div` 2)) ->
  exists m', csc_deinterleave_memcpy d1 d2 s n m = Some (tt, m') /\
    moved (pair_dom (n `div` 2)) (plane_at d1 d2) (pair_at s) m m'.
Proof.
  intros Hn Hs H1 H2 A12 A1 A2.
  assert (Hc : forall k, pair_dom (n `div` 2) k ->
    copyable1 m (plan m (pair_dom (n `div` 2)) (plane_at d1 d2) (pair_at s))
      (plane_at d1 d2 k) (pair_at s k)).
  { intros k Hk. eapply plan_copyable1; eauto using mapped_plane, mapped_pair, plane_pair_apart. }
  eapply plan_run; eauto using mapped_plane, mapped_pair.
  - intros k k' Hk Hk' He. f_equal. eauto using plane_det.
  - apply writes_deinterleave; [done| |]; intros k Hk.
    + specialize (Hc (false, k) Hk). simpl in Hc. by rewrite Z.add_0_r in Hc.
    + apply (Hc (true, k) Hk).
  - intros [b k] Hk. exists k. split; [done|]. destruct b; [by right|by left].
Qed.

Lemma interleave_run m d s1 s2 n :
  0 <= n < 2 ^ 31 ->
  mapped m d (2 * n) -> mapped m s1 n -> mapped m s2 n ->
  apart s1 n d (2 * n) -> apart s2 n d (2 * n) ->
  exists m', csc_interleave_memcpy d s1 s2 n m = Some (tt, m') /\
    moved (pair_dom n) (pair_at d) (plane_at s1 s2) m m'.
Proof.
  intros Hn Hd H1 H2 A1 A2.
  assert (Hc : forall k, pair_dom n k ->
    copyable1 m (plan m (pair_dom n) (pair_at d) (plane_at s1 s2)) (pair_at d k) (plane_at s1 s2 k)).
  { intros k Hk. eapply plan_copyable1; eauto using mapped_plane, mapped_pair.
    intros j j' ? ? He. by eapply (plane_pair_apart n s1 s2 d j' j). }
  eapply plan_run; eauto using mapped_plane, mapped_pair.
  - intros k k' _ _ He. f_equal. eauto using pair_det.
  - apply writes_interleave; [done| |]; intros k Hk.
    + specialize (Hc (false, k) Hk). simpl in Hc. by rewrite Z.add_0_r in Hc.
    + apply (Hc (true, k) Hk).
  - intros [[] k] Hk; simpl in *; lia.
Qed.

(** ** Theorems *)

(**  [csc_deinterleave_memcpy] ends without a fault, moves byte [2 k] of the
    source to the first and byte [2 k + 1] to the second destination, for every
    whole pair of the source, and changes nothing else. *)
Theorem csc_deinterleave_memcpy_correct m d1 d2 s n :
  0 <= n < 2 ^ 31 ->
  mapped m s (2 * (n `div` 2)) -> mapped m d1 (n `div` 2) -> mapped m d2 (n `div` 2) ->
  apart d1 (n `div` 2) d2 (n `div` 2) ->
  apart d1 (n `div` 2) s (2 * (n `div` 2)) -> apart d2 (n `div` 2) s (2 * (n `div` 2)) ->
  exists m', csc_deinterleave_memcpy d1 d2 s n m = Some (tt, m') /\
    (forall k, 0 <= k < n `div` 2 ->
       m' !! (d1 + k) = m !! (s + 2 * k) /\ m' !! (d2 + k) = m !! (s + (2 * k + 1))) /\
    (forall a, ~ (d1 <= a < d1 + n `div` 2) -> ~ (d2 <= a < d2 + n `div` 2) -> m' !! a = m !! a).
Proof.
  intros Hn Hs H1 H2 A12 A1 A2.
  destruct (deinterleave_run m d1 d2 s n) as (m' & E & M1 & M2 & _); [done..|].
  exists m'. split; [done|]. split.
  - intros k Hk. split.
    + pose proof (M1 (false, k) Hk) as M. simpl in M. by rewrite Z.add_0_r in M.
    + exact (M1 (true, k) Hk).
  - intros a Ha1 Ha2. apply M2. intros [[] k] Hk ->; simpl in *; lia.
Qed.

Lemma csc_deinterleave_memcpy_correct_witness :
  let m := fill 2 100 (fun _ => 0) (fill 2 200 (fun _ => 0) (fill 4 0 (fun k => k) ∅)) in
  exists m', csc_deinterleave_memcpy 100 200 0 5 m = Some (tt, m') /\
    (forall k, 0 <= k < 5 `div` 2 ->
       m' !! (100 + k) = m !! (0 + 2 * k) /\ m' !! (200 + k) = m !! (0 + (2 * k + 1))) /\
    (forall a, ~ (100 <= a < 100 + 5 `div` 2) -> ~ (200 <= a < 200 + 5 `div` 2) -> m' !! a = m !! a).
Proof.
  apply csc_deinterleave_memcpy_correct; [lia| | | |left|right|right]; try (vm_compute; discriminate).
  - do 2 apply mapped_fill_other. apply (mapped_fill 4).
  - apply (mapped_fill 2).
  - apply mapped_fill_other, (mapped_fill 2).
Defined.

(**  [csc_interleave_memcpy] ends without a fault, fills the destination with
    the bytes of the two sources in alternation, and changes nothing else. *)
Theorem csc_interleave_memcpy_correct m d s1 s2 n :
  0 <= n < 2 ^ 31 ->
  mapped m d (2 * n) -> mapped m s1 n -> mapped m s2 n ->
  apart s1 n d (2 * n) -> apart s2 n d (2 * n) ->
  exists m', csc_interleave_memcpy d s1 s2 n m = Some (tt, m') /\
    (forall k, 0 <= k < n ->
       m' !! (d + 2 * k) = m !! (s1 + k) /\ m' !! (d + (2 * k + 1)) = m !! (s2 + k)) /\
    (forall a, ~ (d <= a < d + 2 * n) -> m' !! a = m !! a).
Proof.
  intros Hn Hd H1 H2 A1 A2.
  destruct (interleave_run m d s1 s2 n) as (m' & E & M1 & M2 & _); [done..|].
  exists m'. split; [done|]. split.
  - intros k Hk. split.
    + pose proof (M1 (false, k) Hk) as M. simpl in M. by rewrite Z.add_0_r in M.
    + exact (M1 (true, k) Hk).
  - intros a Ha. apply M2. intros [[] k] Hk ->; simpl in *; lia.
Qed.

Lemma csc_interleave_memcpy_correct_witness :
  let m := fill 6 100 (fun _ => 0) (fill 3 50 (fun k => k + 7) (fill 3 0 (fun k => k) ∅)) in
  exists m', csc_interleave_memcpy 100 0 50 3 m = Some (tt, m') /\
    (forall k, 0 <= k < 3 ->
       m' !! (100 + 2 * k) = m !! (0 + k) /\ m' !! (100 + (2 * k + 1)) = m !! (50 + k)) /\
    (forall a, ~ (100 <= a < 100 + 2 * 3) -> m' !! a = m !! a).
Proof.
  apply csc_interleave_memcpy_correct; [lia| | | |left; lia|left; lia].
  - apply (mapped_fill 6).
  - do 2 apply mapped_fill_other. apply (mapped_fill 3).
  - apply mapped_fill_other, (mapped_fill 3).
Defined.

(**  De-interleaving what was interleaved gives back the two planes. *)
Theorem interleave_deinterleave_roundtrip m uv u v u' v' n :
  0 <= n < 2 ^ 30 ->
  mapped m uv (2 * n) -> mapped m u n -> mapped m v n -> mapped m u' n -> mapped m v' n ->
  apart u n uv (2 * n) -> apart v n uv (2 * n) ->
  apart u' n uv (2 * n) -> apart v' n uv (2 * n) -> apart u' n v' n ->
  exists m', (csc_interleave_memcpy uv u v n ;! csc_deinterleave_memcpy u' v' uv (2 * n)) m = Some (tt, m') /\
    forall k, 0 <= k < n -> m' !! (u' + k) = m !! (u + k) /\ m' !! (v' + k) = m !! (v + k).
Proof.
  intros Hn Muv Mu Mv Mu' Mv' A1 A2 A3 A4 A5.
  destruct (interleave_run m uv u v n) as (m1 & E1 & H1); [lia|done..|].
  assert (Hhalf : (2 * n) `div` 2 = n) by dlia.
  destruct (deinterleave_run m1 u' v' uv (2 * n)) as (m2 & E2 & H2);
    rewrite ?Hhalf; eauto using moved_mapped; [lia|].
  exists m2. unfold bind. rewrite E1, E2. split; [done|]. rewrite Hhalf in H2.
  destruct H1 as (H1 & _ & _), H2 as (H2 & _ & _). intros k Hk. split.
  - pose proof (H1 (false, k) Hk) as E. rewrite <- (H2 (false, k) Hk) in E. exact E.
  - pose proof (H1 (true, k) Hk) as E. rewrite <- (H2 (true, k) Hk) in E. exact E.
Qed.

Lemma interleave_deinterleave_roundtrip_witness :
  let m := fill 6 100 (fun _ => 0) (fill 3 0 (fun k => k) (fill 3 10 (fun k => k + 7)
             (fill 3 20 (fun _ => 0) (fill 3 30 (fun _ => 0) ∅)))) in
  exists m', (csc_interleave_memcpy 100 0 10 3 ;! csc_deinterleave_memcpy 20 30 100 (2 * 3)) m =
      Some (tt, m') /\
    forall k, 0 <= k < 3 -> m' !! (20 + k) = m !! (0 + k) /\ m' !! (30 + k) = m !! (10 + k).
Proof.
  apply interleave_deinterleave_roundtrip;
    [lia| | | | | |left; lia|left; lia|left; lia|left; lia|left; lia].
  - apply (mapped_fill 6).
  - apply mapped_fill_other, (mapped_fill 3).
  - do 2 apply mapped_fill_other. apply (mapped_fill 3).
  - do 3 apply mapped_fill_other. apply (mapped_fill 3).
  - do 4 apply mapped_fill_other. apply (mapped_fill 3).
Defined.
