(* ===== verification/Tile16.v ===== *)
(** * 16x16 tiled frames: the [NV12T] to linear converters

    [src/libswconverter/swconvertor.c], the configuration the library is built
    in (neither [NEON_SUPPORT] nor [USE_NV12T_128X64]). *)

From S2P Require Import Prelude CMem Interleave.

(** ** Operations *)

(** The linear address of the byte at column [xpos], row [ypos] of a tiled
    plane; [crFlag] is 0 for luma and non-zero for chroma. *)
Definition Tile2D_To_Linear (width height xpos ypos crFlag : Z) : Z :=
  let width := ((width ^+ 15) `div` 16) ^* 16 in
  let height := ((height ^+ 15) `div` 16) ^* 16 in
  let tileNumX := s32 (width `div` 16) in
  if crFlag =? 0 then
    let tileX := s32 (xpos `div` 16) in
    let tileY := s32 (ypos `div` 16) in
    let tileAddr := s32 (tileY * tileNumX + tileX) in
    let offset := s32 ((Z.land ypos 15 ^* 16) ^+ Z.land xpos 15) in
    u32 (Z.lor (s32 (tileAddr ≪ 8)) offset)
  else
    let tileX := s32 (xpos `div` 16) in
    let tileY := s32 (ypos `div` 8) in
    let tileAddr := s32 (tileY * tileNumX + tileX) in
    let offset := s32 ((Z.land ypos 7 ^* 16) ^+ Z.land xpos 15) in
    u32 (Z.lor (s32 (tileAddr ≪ 7)) offset).

(** The inner loops of the converters,
    [for (k = 0; k < n; k += kstep) { row; row }]: two rows per iteration.  The
    row copy [row src_offset dst_offset] is followed by
    [src_offset += 16; dst_offset += dst_step]. *)
Definition row_pairs (row : Z -> Z -> M unit) (dst_step n kstep src_offset dst_offset : Z) : M unit :=
  for_u 0 n kstep (src_offset, dst_offset) (fun _ '(src_offset, dst_offset) =>
    row src_offset dst_offset ;!
    let src_offset := src_offset ^+ 16 in
    let dst_offset := dst_offset ^+ dst_step in
    row src_offset dst_offset ;!
    let src_offset := src_offset ^+ 16 in
    let dst_offset := dst_offset ^+ dst_step in
    ret (src_offset, dst_offset)) ;!
  ret tt.

(** One row per iteration. *)
Definition row_singles (row : Z -> Z -> M unit) (dst_step n src_offset dst_offset : Z) : M unit :=
  for_u 0 n 1 (src_offset, dst_offset) (fun _ '(src_offset, dst_offset) =>
    row src_offset dst_offset ;!
    let src_offset := src_offset ^+ 16 in
    let dst_offset := dst_offset ^+ dst_step in
    ret (src_offset, dst_offset)) ;!
  ret tt.

Definition csc_tiled_to_linear_y (y_dst y_src width height : Z) : M unit :=
  let aligned_height := Z.land height (u32 (Z.lnot 0xF)) in
  let aligned_width := Z.land width (u32 (Z.lnot 0xF)) in
  let tiled_width := ((width ^+ 15) ≫ 4) ^<< 4 in
  let copy n src_offset dst_offset := memcpy (y_dst + dst_offset) (y_src + src_offset) n in
  let! i := for_u_ 0 aligned_height 16 (fun i =>
    let! j := for_u_ 0 aligned_width 16 (fun j =>
      let src_offset := (tiled_width ^* i) ^+ (j ^<< 4) in
      let dst_offset := (width ^* i) ^+ j in
      row_pairs (copy 16) width 8 1 src_offset dst_offset) in
    when (negb (aligned_width =? width))
      (let src_offset := (tiled_width ^* i) ^+ (j ^<< 4) in
       let dst_offset := (width ^* i) ^+ j in
       row_pairs (copy (width ^- j)) width 8 1 src_offset dst_offset)) in
  when (negb (aligned_height =? height))
    (let! j := for_u_ 0 aligned_width 16 (fun j =>
       let src_offset := (tiled_width ^* i) ^+ (j ^<< 4) in
       let dst_offset := (width ^* i) ^+ j in
       row_pairs (copy 16) width (height ^- aligned_height) 2 src_offset dst_offset) in
     when (negb (aligned_width =? width))
       (let src_offset := (tiled_width ^* i) ^+ (j ^<< 4) in
        let dst_offset := (width ^* i) ^+ j in
        row_pairs (copy (width ^- j)) width (height ^- aligned_height) 2 src_offset dst_offset)).

Definition csc_tiled_to_linear_uv (uv_dst uv_src width height : Z) : M unit :=
  let aligned_height := Z.land height (u32 (Z.lnot 0x7)) in
  let aligned_width := Z.land width (u32 (Z.lnot 0xF)) in
  let tiled_width := ((width ^+ 15) ≫ 4) ^<< 4 in
  let copy n src_offset dst_offset := memcpy (uv_dst + dst_offset) (uv_src + src_offset) n in
  let! i := for_u_ 0 aligned_height 8 (fun i =>
    let! j := for_u_ 0 aligned_width 16 (fun j =>
      let src_offset := (tiled_width ^* i) ^+ (j ^<< 3) in
      let dst_offset := (width ^* i) ^+ j in
      row_pairs (copy 16) width 4 1 src_offset dst_offset) in
    when (negb (aligned_width =? width))
      (let src_offset := (tiled_width ^* i) ^+ (j ^<< 3) in
       let dst_offset := (width ^* i) ^+ j in
       row_pairs (copy (width ^- j)) width 4 1 src_offset dst_offset)) in
  when (negb (aligned_height =? height))
    (let! j := for_u_ 0 aligned_width 16 (fun j =>
       let src_offset := (tiled_width ^* i) ^+ (j ^<< 3) in
       let dst_offset := (width ^* i) ^+ j in
       row_singles (copy 16) width (height ^- aligned_height) src_offset dst_offset) in
     when (negb (aligned_width =? width))
       (let src_offset := (tiled_width ^* i) ^+ (j ^<< 3) in
        let dst_offset := (width ^* i) ^+ j in
        row_singles (copy (width ^- j)) width (height ^- aligned_height) src_offset dst_offset)).

Definition csc_tiled_to_linear_uv_deinterleave (u_dst v_dst uv_src width height : Z) : M unit :=
  let aligned_height := Z.land height (u32 (Z.lnot 0x7)) in
  let aligned_width := Z.land width (u32 (Z.lnot 0xF)) in
  let tiled_width := ((width ^+ 15) ≫ 4) ^<< 4 in
  let copy n src_offset dst_offset :=
    csc_deinterleave_memcpy (u_dst + dst_offset) (v_dst + dst_offset) (uv_src + src_offset) n in
  let! i := for_u_ 0 aligned_height 8 (fun i =>
    let! j := for_u_ 0 aligned_width 16 (fun j =>
      let src_offset := (tiled_width ^* i) ^+ (j ^<< 3) in
      let dst_offset := ((width ≫ 1) ^* i) ^+ (j ≫ 1) in
      row_pairs (copy 16) (width ≫ 1) 4 1 src_offset dst_offset) in
    when (negb (aligned_width =? width))
      (let src_offset := (tiled_width ^* i) ^+ (j ^<< 3) in
       let dst_offset := ((width ≫ 1) ^* i) ^+ (j ≫ 1) in
       row_pairs (copy (width ^- j)) (width ≫ 1) 4 1 src_offset dst_offset)) in
  when (negb (aligned_height =? height))
    (let! j := for_u_ 0 aligned_width 16 (fun j =>
       let src_offset := (tiled_width ^* i) ^+ (j ^<< 3) in
       let dst_offset := ((width ≫ 1) ^* i) ^+ (j ≫ 1) in
       row_singles (copy 16) (width ≫ 1) (height ^- aligned_height) src_offset dst_offset) in
     when (negb (aligned_width =? width))
       (let src_offset := (tiled_width ^* i) ^+ (j ^<< 3) in
        let dst_offset := ((width ≫ 1) ^* i) ^+ (j ≫ 1) in
        row_singles (copy (width ^- j)) (width ≫ 1) (height ^- aligned_height) src_offset dst_offset)).

(** ** Tile geometry *)

(** The offset of column [x], row [y] in a plane of [nx] tiles per row, each 16
    columns by [th] rows. *)
Definition tile_off (th nx x y : Z) : Z :=
  (y `div` th * nx + x `div` 16) * (16 * th) + y `mod` th * 16 + x `mod` 16.

(** Tiles per row of a plane of width [w]. *)
Definition tiles_x (w : Z) : Z := (w + 15) `div` 16.

Lemma div_block n k r : 0 <= r < n -> (n * k + r) `div` n = k.
Proof. intros Hr. symmetry. by apply (Z.div_unique_pos _ _ _ r). Qed.
Lemma mod_block n k r : 0 <= r < n -> (n * k + r) `mod` n = r.
Proof. intros Hr. symmetry. by apply (Z.mod_unique_pos _ _ k r). Qed.

Lemma tile_off_block th nx ki kj r c :
  0 <= r < th -> 0 <= c < 16 ->
  tile_off th nx (16 * kj + c) (th * ki + r) = (ki * nx + kj) * (16 * th) + 16 * r + c.
Proof.
  intros Hr Hc. unfold tile_off. rewrite !div_block, !mod_block by lia. lia.
Qed.

Lemma tile_off_bound th w h x y :
  0 < th -> 0 <= x < w -> 0 <= y < h ->
  0 <= tile_off th (tiles_x w) x y < tiles_x w * 16 * roundup h th.
Proof.
  intros Ht Hx Hy.
  destruct (block_of th y Ht) as (ki & r & -> & Hr & Hk).
  destruct (block_of 16 x) as (kj & c & -> & Hc & Hj); [lia|].
  rewrite tile_off_block by lia. unfold tiles_x, roundup.
  assert (kj + 1 <= (w + 15) `div` 16) by (apply Z.div_le_lower_bound; lia).
  assert (ki + 1 <= (h + th - 1) `div` th) by (apply Z.div_le_lower_bound; nia).
  set (nx := (w + 15) `div` 16) in *. set (ny := (h + th - 1) `div` th) in *.
  specialize (Hk ltac:(lia)). specialize (Hj ltac:(lia)).
  assert (ki * nx + kj + 1 <= ny * nx) by nia. nia.
Qed.

(** Distinct pixels of a plane have distinct tiled positions. *)
Lemma tile_off_inj th w x y x' y' :
  0 < th -> 0 <= x < w -> 0 <= x' < w -> 0 <= y -> 0 <= y' ->
  tile_off th (tiles_x w) x y = tile_off th (tiles_x w) x' y' -> x = x' /\ y = y'.
Proof.
  intros Ht Hx Hx' Hy Hy'.
  destruct (block_of th y Ht) as (ki & r & -> & Hr & _).
  destruct (block_of 16 x) as (kj & c & -> & Hc & Hj); [lia|].
  destruct (block_of th y' Ht) as (ki' & r' & -> & Hr' & _).
  destruct (block_of 16 x') as (kj' & c' & -> & Hc' & Hj'); [lia|].
  rewrite !tile_off_block by lia. unfold tiles_x.
  assert (kj + 1 <= (w + 15) `div` 16) by (apply Z.div_le_lower_bound; lia).
  assert (kj' + 1 <= (w + 15) `div` 16) by (apply Z.div_le_lower_bound; lia).
  set (nx := (w + 15) `div` 16) in *. intros He.
  destruct (rect_inj (16 * th) (16 * r + c) (ki * nx + kj) (16 * r' + c') (ki' * nx + kj'))
    as [H1 H2]; [lia..|].
  destruct (rect_inj 16 c r c' r'); [lia..|].
  destruct (rect_inj nx kj ki kj' ki'); [lia..|]. subst. lia.
Qed.

(** The source's own addressing routine, within bounds where no operation of it
    wraps around. *)
Lemma Tile2D_To_Linear_spec w h x y cr :
  0 <= x < w -> 0 <= y < h -> (w + 16) * (h + 16) < 2 ^ 31 ->
  Tile2D_To_Linear w h x y cr = tile_off (if cr =? 0 then 16 else 8) (tiles_x w) x y.
Proof.
  intros Hx Hy Hb.
  pose proof (tile_off_bound 16 w h x y ltac:(lia) Hx Hy) as B16.
  pose proof (tile_off_bound 8 w h x y ltac:(lia) Hx Hy) as B8.
  assert (w < 2 ^ 27 /\ h < 2 ^ 27) as [Hw Hh] by nia.
  unfold Tile2D_To_Linear.
  rewrite (u32_small (w + 15)) by lia. fold (tiles_x w).
  assert (Hn : 0 <= tiles_x w * 16 <= w + 15) by (unfold tiles_x; dlia).
  rewrite (u32_small (tiles_x w * 16)), Z.div_mul by lia.
  rewrite (s32_small (tiles_x w)) by lia.
  pose proof (roundup_bounds h 16 ltac:(lia)). pose proof (roundup_bounds h 8 ltac:(lia)).
  change 15 with 0xf. change 7 with 0x7. bits.
  rewrite !(s32_small (x `div` 16)), !(s32_small (y `div` 16)), !(s32_small (y `div` 8)) by dlia.
  pose proof (Z.mod_pos_bound x 16 ltac:(lia)). pose proof (Z.mod_pos_bound y 16 ltac:(lia)).
  pose proof (Z.mod_pos_bound y 8 ltac:(lia)).
  assert (0 <= x `div` 16 /\ 0 <= y `div` 16 /\ 0 <= y `div` 8) as (? & ? & ?) by dlia.
  unfold tile_off in *. change (16 * 16) with 256 in *. change (16 * 8) with 128 in *.
  destruct (cr =? 0).
  - assert (0 <= (y `div` 16 * tiles_x w + x `div` 16) * 256 < 2 ^ 31) by nia.
    rewrite (u32_small (y `mod` 16 * 16)), (u32_small (_ `mod` _ * 16 + _)) by lia.
    rewrite !(s32_small (y `mod` _ * _ + _)), (s32_small (y `div` 16 * tiles_x w + _)) by lia.
    bits. rewrite (s32_small (_ * 256)) by lia.
    rewrite (lor_add 8) by (first [lia|apply Z.mod_mul; lia]).
    rewrite u32_small; lia.
  - assert (0 <= (y `div` 8 * tiles_x w + x `div` 16) * 128 < 2 ^ 31) by nia.
    rewrite (u32_small (y `mod` 8 * 16)), (u32_small (_ `mod` _ * 16 + _)) by lia.
    rewrite !(s32_small (y `mod` _ * _ + _)), (s32_small (y `div` 8 * tiles_x w + _)) by lia.
    bits. rewrite (s32_small (_ * 128)) by lia.
    rewrite (lor_add 7) by (first [lia|apply Z.mod_mul; lia]).
    rewrite u32_small; lia.
Qed.

(** ** The common loop nest

    The three converters are one loop nest; [detile] is that nest with the tile
    height [th], the shift [sh] of the source offset, the row copy, the output
    offset and the two inner loops as parameters. *)

Definition detile (th sh : Z) (row : Z -> Z -> Z -> M unit) (doff : Z -> Z -> Z)
    (full : (Z -> Z -> M unit) -> Z -> Z -> M unit)
    (tail : (Z -> Z -> M unit) -> Z -> Z -> Z -> M unit) (width height : Z) : M unit :=
  let aligned_height := Z.land height (u32 (Z.lnot (th - 1))) in
  let aligned_width := Z.land width (u32 (Z.lnot 0xF)) in
  let tiled_width := ((width ^+ 15) ≫ 4) ^<< 4 in
  let soff i j := (tiled_width ^* i) ^+ (j ^<< sh) in
  let! i := for_u_ 0 aligned_height th (fun i =>
    let! j := for_u_ 0 aligned_width 16 (fun j => full (row 16) (soff i j) (doff i j)) in
    when (negb (aligned_width =? width)) (full (row (width ^- j)) (soff i j) (doff i j))) in
  when (negb (aligned_height =? height))
    (let! j := for_u_ 0 aligned_width 16 (fun j =>
       tail (row 16) (height ^- aligned_height) (soff i j) (doff i j)) in
     when (negb (aligned_width =? width))
       (tail (row (width ^- j)) (height ^- aligned_height) (soff i j) (doff i j))).

Lemma csc_tiled_to_linear_y_detile d s w h :
  csc_tiled_to_linear_y d s w h =
  detile 16 4 (fun n so dof => memcpy (d + dof) (s + so) n) (fun i j => (w ^* i) ^+ j)
    (fun row => row_pairs row w 8 1) (fun row n => row_pairs row w n 2) w h.
Proof. reflexivity. Qed.

Lemma csc_tiled_to_linear_uv_detile d s w h :
  csc_tiled_to_linear_uv d s w h =
  detile 8 3 (fun n so dof => memcpy (d + dof) (s + so) n) (fun i j => (w ^* i) ^+ j)
    (fun row => row_pairs row w 4 1) (fun row n => row_singles row w n) w h.
Proof. reflexivity. Qed.

Lemma csc_tiled_to_linear_uv_deinterleave_detile u v s w h :
  csc_tiled_to_linear_uv_deinterleave u v s w h =
  detile 8 3 (fun n so dof => csc_deinterleave_memcpy (u + dof) (v + dof) (s + so) n)
    (fun i j => ((w ≫ 1) ^* i) ^+ (j ≫ 1))
    (fun row => row_pairs row (w ≫ 1) 4 1) (fun row n => row_singles row (w ≫ 1) n) w h.
Proof. reflexivity. Qed.

Section rows.
Context (m0 : mem) (V : Z -> Z -> Prop).
Abbreviation writes := (writes m0 V).

Lemma writes_row_pairs row ds n ks so d0 (C : Z -> Z -> Prop) cnt :
  0 < ks -> 0 <= cnt -> (0 < cnt -> ks * (cnt - 1) < n) -> n <= ks * cnt -> ks * cnt < 2 ^ 32 ->
  0 <= so -> 0 <= d0 -> 0 <= ds -> so + 32 * cnt < 2 ^ 32 -> d0 + ds * (2 * cnt) < 2 ^ 32 ->
  (forall r, 0 <= r < 2 * cnt -> writes (row (so + 16 * r) (d0 + ds * r)) tt (C r)) ->
  writes (row_pairs row ds n ks so d0) tt (fun a => exists r, 0 <= r < 2 * cnt /\ C r a).
Proof.
  intros Hks Hc H1 H2 H3 Hs Hd Hds Hsb Hdb Hrow. unfold row_pairs.
  set (st := fun k => (so + 32 * k, d0 + ds * (2 * k))).
  replace (so, d0) with (st 0) by (unfold st; f_equal; lia).
  eapply writes_weaken.
  { apply (writes_bind m0 V _ (fun _ => _) (0 + ks * cnt, st cnt)); [|apply writes_ret].
    apply writes_for_u with (C := fun k a => C (2 * k) a \/ C (2 * k + 1) a); try lia.
    intros k Hk. unfold st at 1.
    assert (ds * (2 * k + 2) <= ds * (2 * cnt)) by nia.
    assert (0 <= ds * (2 * k)) by nia.
    eapply writes_weaken.
    { eapply writes_seq.
      { replace (so + 32 * k) with (so + 16 * (2 * k)) by lia. apply Hrow. lia. }
      cbv zeta. rewrite !u32_small by (rewrite ?u32_small; lia).
      eapply writes_seq.
      { replace (so + 32 * k + 16) with (so + 16 * (2 * k + 1)) by lia.
        replace (d0 + ds * (2 * k) + ds) with (d0 + ds * (2 * k + 1)) by lia.
        apply Hrow. lia. }
      replace (so + 32 * k + 16 + 16, d0 + ds * (2 * k) + ds + ds) with (st (k + 1))
        by (unfold st; f_equal; lia).
      apply writes_ret. }
    intros a [Ha|Ha]; auto. }
  intros a (r & Hr & HC). left.
  destruct (block_of 2 r) as (k & b & -> & Hb & Hk); [lia|]. exists k. split; [lia|].
  assert (b = 0 \/ b = 1) as [-> | ->] by lia; [left|by right]. by rewrite Z.add_0_r in HC.
Qed.

Lemma writes_row_singles row ds n so d0 (C : Z -> Z -> Prop) :
  0 <= n -> 0 <= so -> 0 <= d0 -> 0 <= ds -> so + 16 * n < 2 ^ 32 -> d0 + ds * n < 2 ^ 32 ->
  (forall r, 0 <= r < n -> writes (row (so + 16 * r) (d0 + ds * r)) tt (C r)) ->
  writes (row_singles row ds n so d0) tt (fun a => exists r, 0 <= r < n /\ C r a).
Proof.
  intros Hn Hs Hd Hds Hsb Hdb Hrow. unfold row_singles.
  set (st := fun k => (so + 16 * k, d0 + ds * k)).
  replace (so, d0) with (st 0) by (unfold st; f_equal; lia).
  eapply writes_weaken.
  { apply (writes_bind m0 V _ (fun _ => _) (0 + 1 * n, st n)); [|apply writes_ret].
    apply writes_for_u with (C := C); try lia.
    intros k Hk. unfold st at 1.
    assert (ds * (k + 1) <= ds * n) by nia. assert (0 <= ds * k) by nia.
    eapply writes_weaken.
    { eapply writes_seq; [by apply Hrow|]. cbv zeta. rewrite !u32_small by lia.
      replace (so + 16 * k + 16, d0 + ds * k + ds) with (st (k + 1))
        by (unfold st; f_equal; lia).
      apply writes_ret. }
    intros a Ha. by left. }
  intros a Ha. by left.
Qed.
End rows.

Section detile.
Context (m0 : mem) (V : Z -> Z -> Prop).
Abbreviation writes := (writes m0 V).
Context (w h hh th sh : Z) (row : Z -> Z -> Z -> M unit) (doff : Z -> Z -> Z) (ds : Z) (dx : Z -> Z).
Context (full : (Z -> Z -> M unit) -> Z -> Z -> M unit).
Context (tail : (Z -> Z -> M unit) -> Z -> Z -> Z -> M unit).
Context (cov : Z -> Z -> Z -> Prop).
Context (w_nonneg : 0 <= w) (h_nonneg : 0 <= h) (size : (w + 16) * (h + 16) < 2 ^ 31).
Context (tile_height : th = 16 /\ sh = 4 \/ th = 8 /\ sh = 3).
Context (ds_bound : 0 <= ds <= w) (dx_bound : forall kj, 0 <= kj -> 16 * kj <= w -> 0 <= dx kj <= 16 * kj).
Context (doff_eq : forall ki kj, 0 <= ki -> th * ki <= h -> 0 <= kj -> 16 * kj <= w ->
  doff (th * ki) (16 * kj) = ds * (th * ki) + dx kj).

(** [hh] rows are written: the height, or more when the last inner loop
    overshoots. *)
Context (hh_bound : h <= hh <= th * (h `div` th) + th) (hh_aligned : h `mod` th = 0 -> hh = h).

(** The inner loops visit the rows of a tile in turn. *)
Definition visits (rows : (Z -> Z -> M unit) -> Z -> Z -> M unit) (n : Z) : Prop :=
  forall rw so d0 C, 0 <= so -> 0 <= d0 -> so + 16 * 16 < 2 ^ 32 -> d0 + ds * 16 < 2 ^ 32 ->
    (forall r, 0 <= r < n -> writes (rw (so + 16 * r) (d0 + ds * r)) tt (C r)) ->
    writes (rows rw so d0) tt (fun a => exists r, 0 <= r < n /\ C r a).
Context (full_ok : visits full th) (tail_ok : visits (fun rw => tail rw (h `mod` th)) (hh - th * (h `div` th))).

(** The bytes of tile column [kj] that belong to the plane. *)
Definition row_len (kj : Z) : Z := Z.min 16 (w - 16 * kj).
Context (row_ok : forall kj y, 0 <= kj -> 16 * kj < w -> 0 <= y < hh ->
  writes (row (row_len kj) (tile_off th (tiles_x w) (16 * kj) y) (ds * y + dx kj)) tt (cov kj y)).

Abbreviation tw := (16 * tiles_x w).

Lemma tiled_width_bounds : w <= tw <= w + 15.
Proof. unfold tiles_x. clear. dlia. Qed.

Lemma soff_eq ki kj :
  0 <= ki -> th * ki <= h -> 0 <= kj -> 16 * kj < w ->
  (tw ^* (th * ki)) ^+ ((16 * kj) ^<< sh) = tile_off th (tiles_x w) (16 * kj) (th * ki) /\
  tile_off th (tiles_x w) (16 * kj) (th * ki) + 256 < 2 ^ 31.
Proof.
  intros Hi Hih Hj Hjw. pose proof tiled_width_bounds as Htw.
  assert (Ht : tile_off th (tiles_x w) (16 * kj) (th * ki) = tw * (th * ki) + 16 * th * kj).
  { pose proof (tile_off_block th (tiles_x w) ki kj 0 0) as E.
    rewrite !Z.add_0_r in E. rewrite E by lia. lia. }
  rewrite Ht. assert (0 <= tw * (th * ki)) by nia.
  assert (tw * (th * ki) <= (w + 15) * h) by nia.
  assert (16 * th * kj + 256 <= 16 * w + 256) by (destruct tile_height as [[-> _]|[-> _]]; lia).
  assert ((w + 15) * h + 16 * w + 256 < 2 ^ 31) by nia.
  assert (0 <= 16 * th * kj) by (destruct tile_height as [[-> _]|[-> _]]; lia).
  split; [|lia]. replace ((16 * kj) ≪ sh) with (16 * th * kj).
  { rewrite !u32_small by (rewrite ?u32_small; lia). done. }
  destruct tile_height as [[-> ->]|[-> ->]]; bits; lia.
Qed.

Lemma writes_tile rows n ki kj len :
  visits rows n -> n <= th -> 0 <= ki -> th * ki + n <= hh -> th * ki <= h ->
  0 <= kj -> 16 * kj < w -> len = row_len kj ->
  writes (rows (row len) ((tw ^* (th * ki)) ^+ ((16 * kj) ^<< sh)) (doff (th * ki) (16 * kj))) tt
    (fun a => exists r, 0 <= r < n /\ cov kj (th * ki + r) a).
Proof.
  intros Hv Hn Hi Hin Hih Hj Hjw ->.
  destruct (soff_eq ki kj Hi Hih Hj Hjw) as [-> Hb].
  rewrite doff_eq by lia. specialize (dx_bound kj Hj ltac:(lia)).
  assert (Hs0 : 0 <= tile_off th (tiles_x w) (16 * kj) (th * ki)).
  { pose proof (tile_off_block th (tiles_x w) ki kj 0 0) as E.
    rewrite !Z.add_0_r in E. rewrite E by lia. unfold tiles_x. 
    assert (0 <= (w + 15) `div` 16) by dlia. nia. }
  apply (Hv (row (row_len kj)) _ _ (fun r => cov kj (th * ki + r))); [done|nia|lia|nia|].
  intros r Hr.
  replace (tile_off th (tiles_x w) (16 * kj) (th * ki) + 16 * r)
    with (tile_off th (tiles_x w) (16 * kj) (th * ki + r)).
  2: { pose proof (tile_off_block th (tiles_x w) ki kj 0 0) as E.
       rewrite !Z.add_0_r in E. rewrite E by lia.
       pose proof (tile_off_block th (tiles_x w) ki kj r 0) as E'.
       rewrite !Z.add_0_r in E'. rewrite E'; lia. }
  replace (ds * (th * ki) + dx kj + ds * r) with (ds * (th * ki + r) + dx kj) by lia.
  apply row_ok; lia.
Qed.

Lemma aligned_facts n : 0 <= n < 2 ^ 32 ->
  Z.land n (u32 (Z.lnot 0xF)) = 16 * (n `div` 16) /\ Z.land n (u32 (Z.lnot 0x7)) = 8 * (n `div` 8).
Proof.
  intros Hn. rewrite (land_not_mask 4), (land_not_mask 3) by lia.
  change (2 ^ 4) with 16. change (2 ^ 3) with 8. clear -Hn. dlia.
Qed.

Lemma writes_tile_row rows n ki :
  visits rows n -> n <= th -> 0 <= ki -> th * ki + n <= hh -> th * ki <= h ->
  writes
    (let! j := for_u_ 0 (16 * (w `div` 16)) 16 (fun j =>
       rows (row 16) ((tw ^* (th * ki)) ^+ (j ^<< sh)) (doff (th * ki) j)) in
     when (negb (16 * (w `div` 16) =? w))
       (rows (row (w ^- j)) ((tw ^* (th * ki)) ^+ (j ^<< sh)) (doff (th * ki) j))) tt
    (fun a => exists kj r, 0 <= kj /\ 16 * kj < w /\ 0 <= r < n /\ cov kj (th * ki + r) a).
Proof.
  intros Hv Hn Hi Hin Hih.
  assert (Hw : w < 2 ^ 27) by nia.
  assert (Hq : 16 * (w `div` 16) <= w < 16 * (w `div` 16) + 16 /\ 0 <= w `div` 16)
    by (clear -w_nonneg; dlia).
  set (q := w `div` 16) in *.
  eapply writes_weaken.
  { eapply writes_bind.
    - apply writes_for_u_ with (n := q); [lia..|]. intros kj Hkj. rewrite Z.add_0_l.
      apply (writes_tile rows n ki kj 16); try done; unfold row_len; lia.
    - rewrite Z.add_0_l. apply writes_when. intros Hne.
      apply negb_true_iff, Z.eqb_neq in Hne.
      apply (writes_tile rows n ki q); try done; try lia.
      rewrite u32_small; unfold row_len; lia. }
  intros a (kj & r & Hj & Hjw & Hr & HC). simpl.
  destruct (decide (kj < q)).
  - left. exists kj. split; [lia|]. eauto.
  - right. assert (kj = q) as -> by lia. split; [apply negb_true_iff, Z.eqb_neq; lia|]. eauto.
Qed.

Lemma writes_detile :
  writes (detile th sh row doff full tail w h) tt
    (fun a => exists kj y, 0 <= kj /\ 16 * kj < w /\ 0 <= y < hh /\ cov kj y a).
Proof.
  assert (Hw : w < 2 ^ 27) by nia. assert (Hh : h < 2 ^ 27) by nia.
  assert (Hah : Z.land h (u32 (Z.lnot (th - 1))) = th * (h `div` th)).
  { destruct (aligned_facts h) as [E1 E2]; [lia|].
    destruct tile_height as [[-> _]|[-> _]]; assumption. }
  assert (Hr : 0 <= h `mod` th < th /\ h = th * (h `div` th) + h `mod` th /\ 0 <= h `div` th).
  { destruct tile_height as [[-> _]|[-> _]]; clear -h_nonneg; dlia. }
  unfold detile. rewrite Hah. destruct (aligned_facts w) as [-> _]; [lia|].
  pose proof tiled_width_bounds as Htw.
  replace (((w ^+ 15) ≫ 4) ^<< 4) with tw.
  2: { rewrite (u32_small (w + 15)) by lia. bits. unfold tiles_x in *.
       rewrite (u32_small (_ * 16)); lia. }
  set (qh := h `div` th) in *. set (rh := h `mod` th) in *.
  eapply writes_weaken.
  { eapply writes_bind.
    - apply writes_for_u_ with (n := qh); [lia|lia|lia|lia|lia|nia|]. intros ki Hki.
      rewrite Z.add_0_l. apply (writes_tile_row full th ki); [done|lia|lia|nia|nia].
    - rewrite Z.add_0_l. apply writes_when. intros Hne.
      replace (h ^- (th * qh)) with rh by (rewrite u32_small; lia).
      apply (writes_tile_row (fun rw => tail rw rh) (hh - th * qh) qh); [done|lia..]. }
  intros a (kj & y & Hj & Hjw & Hy & HC). simpl.
  destruct (block_of th y) as (ki & r & -> & Hrr & Hki); [lia|].
  destruct (decide (ki < qh)).
  - left. exists ki. split; [lia|]. exists kj, r. done.
  - right. assert (ki = qh) as -> by nia. split; [apply negb_true_iff, Z.eqb_neq; intros ?; lia|].
    exists kj, r. repeat split; try done; lia.
Qed.
End detile.

(** ** The inner loops visit every row *)

Lemma visits_pairs m0 V ds n ks cnt rows :
  rows = 2 * cnt -> 0 < ks -> 0 <= cnt <= 8 -> (0 < cnt -> ks * (cnt - 1) < n) -> n <= ks * cnt -> ks * cnt < 2 ^ 32 ->
  0 <= ds -> visits m0 V ds (fun rw => row_pairs rw ds n ks) rows.
Proof.
  intros -> Hks Hc H1 H2 H3 Hds rw so d0 C Hs Hd Hsb Hdb Hrow.
  apply writes_row_pairs; try done; try lia. nia.
Qed.

Lemma visits_singles m0 V ds n :
  0 <= n <= 16 -> 0 <= ds -> visits m0 V ds (fun rw => row_singles rw ds n) n.
Proof.
  intros Hn Hds rw so d0 C Hs Hd Hsb Hdb Hrow.
  apply writes_row_singles; try done; try lia. nia.
Qed.

(** ** Planes *)

(** The pixels of a plane of [w] columns and [h] rows. *)
Definition rect (w h : Z) : Z * Z -> Prop := fun '(x, y) => 0 <= x < w /\ 0 <= y < h.
(** Row-major position of a pixel. *)
Definition linear_at (p w : Z) : Z * Z -> Z := fun '(x, y) => p + (w * y + x).
(** Position of a pixel in a tiled plane, by the source's routine. *)
Definition tiled_at (p w h cr : Z) : Z * Z -> Z := fun '(x, y) => p + Tile2D_To_Linear w h x y cr.
(** The routine does not use the height. *)
Lemma tiled_at_height p w h h' cr x y : tiled_at p w h cr (x, y) = tiled_at p w h' cr (x, y).
Proof. simpl. unfold Tile2D_To_Linear. reflexivity. Qed.
(** Size in bytes of a tiled plane with tiles of [th] rows. *)
Definition tiled_size (th w h : Z) : Z := tiles_x w * 16 * roundup h th.

Lemma mapped_linear m p w h k : mapped m p (w * h) -> rect w h k -> is_Some (m !! linear_at p w k).
Proof. destruct k as [x y]. intros Hm [Hx Hy]. apply Hm. by apply rect_lt. Qed.

Lemma linear_det p w h k k' : rect w h k -> rect w h k' -> linear_at p w k = linear_at p w k' -> k = k'.
Proof.
  destruct k as [x y], k' as [x' y']. intros [Hx Hy] [Hx' Hy'] He. simpl in He.
  destruct (rect_inj w x y x' y'); [lia..|]. congruence.
Qed.

Lemma linear_decide p w h a :
  0 <= w -> (exists k, rect w h k /\ a = linear_at p w k) \/ (forall k, rect w h k -> a <> linear_at p w k).
Proof.
  intros Hw. destruct (decide (p <= a < p + w * h)) as [Ha|Ha].
  - left. assert (0 < w) by (destruct (decide (w = 0)) as [->|]; lia). exists ((a - p) `mod` w, (a - p) `div` w). simpl.
    pose proof (Z.div_mod (a - p) w ltac:(lia)). pose proof (Z.mod_pos_bound (a - p) w ltac:(lia)).
    split; [|lia]. split; [done|]. split; [apply Z.div_pos; lia|apply Z.div_lt_upper_bound; lia].
  - right. intros [x y] [Hx Hy] ->. pose proof (rect_lt w h x y Hx Hy). simpl in Ha. lia.
Qed.

(** [moved] for a plane, spelled out. *)
Lemma moved_plane w h d S m m' :
  moved (rect w h) (linear_at d w) S m m' ->
  (forall x y, 0 <= x < w -> 0 <= y < h -> m' !! (d + (w * y + x)) = m !! S (x, y)) /\
  (forall a, ~ (d <= a < d + w * h) -> m' !! a = m !! a).
Proof.
  intros (H1 & H2 & _). split.
  - intros x y Hx Hy. by apply (H1 (x, y)).
  - intros a Ha. apply H2. intros [x y] [Hx Hy] ->. apply Ha. simpl.
    pose proof (rect_lt w h x y Hx Hy). lia.
Qed.

Section linear.
Context (m : mem) (w h cr : Z) (size : (w + 16) * (h + 16) < 2 ^ 31).
Abbreviation th := (if cr =? 0 then 16 else 8).

Lemma tiled_at_range p k : rect w h k -> p <= tiled_at p w h cr k < p + tiled_size th w h.
Proof.
  destruct k as [x y]. intros [Hx Hy]. simpl. rewrite Tile2D_To_Linear_spec by done.
  pose proof (tile_off_bound th w h x y ltac:(destruct (cr =? 0); lia) Hx Hy).
  unfold tiled_size. lia.
Qed.

Context (d s : Z) (mapped_d : mapped m d (w * h)) (mapped_s : mapped m s (tiled_size th w h)).
Context (apart_ds : apart d (w * h) s (tiled_size th w h)).

Lemma linear_tiled_apart k k' : rect w h k -> rect w h k' -> linear_at d w k <> tiled_at s w h cr k'.
Proof.
  intros Hk Hk'. pose proof (tiled_at_range s k' Hk').
  destruct k as [x y]. destruct Hk as [Hx Hy]. simpl.
  pose proof (rect_lt w h x y Hx Hy). unfold apart in *. lia.
Qed.

Abbreviation plan := (plan m (rect w h) (linear_at d w) (tiled_at s w h cr)).

(** One row of one tile copied by [memcpy]. *)
Lemma writes_plane_row kj y :
  0 <= w -> 0 <= kj -> 16 * kj < w -> 0 <= y < h ->
  writes m plan (memcpy (d + (w * y + 16 * kj)) (s + tile_off th (tiles_x w) (16 * kj) y)
                   (row_len w kj)) tt
    (fun a => exists x, 16 * kj <= x < 16 * kj + row_len w kj /\ a = linear_at d w (x, y)).
Proof.
  intros Hw Hj Hjw Hy. eapply writes_weaken.
  { apply writes_memcpy. apply plan_copyable.
    - intros k Hk. by apply (mapped_linear m d w h).
    - intros k Hk. eapply mapped_at; [done|]. by apply tiled_at_range.
    - apply linear_tiled_apart.
    - unfold row_len. intros i Hi. exists (16 * kj + i, y). repeat split; simpl; try lia.
      rewrite Tile2D_To_Linear_spec by (done || lia). rewrite <- !Z.add_assoc. f_equal.
      destruct (block_of th y) as (ki & r & -> & Hr & _); [destruct (cr =? 0); lia|].
      pose proof (tile_off_block th (tiles_x w) ki kj r 0 Hr ltac:(lia)) as E.
      rewrite Z.add_0_r in E. rewrite E, tile_off_block by lia. lia. }
  intros a (x & Hx & ->). simpl. lia.
Qed.

Lemma plane_run (p : M unit) :
  writes m plan p tt (fun a => exists kj y, 0 <= kj /\ 16 * kj < w /\ 0 <= y < h /\
    exists x, 16 * kj <= x < 16 * kj + row_len w kj /\ a = linear_at d w (x, y)) ->
  exists m', p m = Some (tt, m') /\ moved (rect w h) (linear_at d w) (tiled_at s w h cr) m m'.
Proof.
  intros Hp. eapply plan_run; [..|exact Hp|].
  - intros k Hk. eapply mapped_at; [done|]. by apply tiled_at_range.
  - intros k k' Hk Hk' He. f_equal. by apply (linear_det d w h).
  - intros [x y] [Hx Hy]. destruct (block_of 16 x) as (kj & c & -> & Hc & Hj); [lia|].
    exists kj, y. unfold row_len. split; [lia|]. split; [lia|]. split; [done|].
    exists (16 * kj + c). split; [lia|done].
Qed.
End linear.

(** The rows are copied in pairs, so an odd height is rounded up. *)
Lemma tiled_to_linear_y_run m d s w h :
  0 <= w -> 0 <= h -> (w + 16) * (roundup h 2 + 16) < 2 ^ 31 ->
  mapped m d (w * roundup h 2) -> mapped m s (tiled_size 16 w h) ->
  apart d (w * roundup h 2) s (tiled_size 16 w h) ->
  exists m', csc_tiled_to_linear_y d s w h m = Some (tt, m') /\
    moved (rect w (roundup h 2)) (linear_at d w) (tiled_at s w h 0) m m'.
Proof.
  intros Hw Hh Hsz Hd Hs Ha.
  assert (Hsz' : (w + 16) * (h + 16) < 2 ^ 31).
  { pose proof (roundup_bounds h 2 ltac:(lia)). nia. }
  assert (Hhh : h <= roundup h 2 <= 16 * (h `div` 16) + 16) by (unfold roundup; clear; dlia).
  assert (Hts : tiled_size 16 w (roundup h 2) = tiled_size 16 w h)
    by (unfold tiled_size; f_equal; unfold roundup; clear; dlia).
  destruct (plane_run m w (roundup h 2) 0 Hsz d s ltac:(simpl; by rewrite Hts)
    (csc_tiled_to_linear_y d s w h)) as (m' & E & Hm).
  2: { exists m'. split; [done|]. eapply moved_ext; [|done]. intros [x y] _. apply tiled_at_height. }
  rewrite csc_tiled_to_linear_y_detile.
  apply (writes_detile _ _ w h (roundup h 2) 16 4 _ _ w (fun kj => 16 * kj)); try done; try lia.
  - intros ki kj Hi Hih Hj Hjw. assert (w * (16 * ki) <= w * h) by nia.
    assert (w * h <= w * roundup h 2) by nia.
    rewrite !u32_small; try rewrite !u32_small; nia.
  - unfold roundup. clear. intros. dlia.
  - apply (visits_pairs _ _ w 8 1 8); lia.
  - assert (Hm : roundup h 2 - 16 * (h `div` 16) = 2 * ((h `mod` 16 + 1) `div` 2) /\
      0 <= (h `mod` 16 + 1) `div` 2 <= 8 /\ h `mod` 16 <= 2 * ((h `mod` 16 + 1) `div` 2) <= h `mod` 16 + 1)
      by (unfold roundup; clear; dlia).
    destruct Hm as (Hm1 & Hm2 & Hm3).
    apply (visits_pairs _ _ w (h `mod` 16) 2 ((h `mod` 16 + 1) `div` 2)); lia.
  - intros kj y Hj Hjw Hy. apply (writes_plane_row m w (roundup h 2) 0); simpl; rewrite ?Hts; done.
Qed.

Lemma tiled_to_linear_uv_run m d s w h :
  0 <= w -> 0 <= h -> (w + 16) * (h + 16) < 2 ^ 31 ->
  mapped m d (w * h) -> mapped m s (tiled_size 8 w h) -> apart d (w * h) s (tiled_size 8 w h) ->
  exists m', csc_tiled_to_linear_uv d s w h m = Some (tt, m') /\
    moved (rect w h) (linear_at d w) (tiled_at s w h 1) m m'.
Proof.
  intros Hw Hh Hsz Hd Hs Ha. apply plane_run; try done.
  rewrite csc_tiled_to_linear_uv_detile.
  assert (Hhh : h <= h <= 8 * (h `div` 8) + 8) by (clear; dlia).
  assert (Hm : h - 8 * (h `div` 8) = h `mod` 8) by (clear; dlia).
  apply (writes_detile _ _ w h h 8 3 _ _ w (fun kj => 16 * kj)); try done; try lia.
  - intros ki kj Hi Hih Hj Hjw. assert (w * (8 * ki) <= w * h) by nia.
    rewrite !u32_small; try rewrite !u32_small; nia.
  - apply (visits_pairs _ _ w 4 1 4); lia.
  - rewrite Hm. pose proof (Z.mod_pos_bound h 8 ltac:(lia)). apply visits_singles; lia.
  - intros kj y Hj Hjw Hy. by apply (writes_plane_row m w h 1).
Qed.

(** ** De-interleaving a tiled chroma plane *)

(** Index of a de-interleaved chroma byte: the plane, and the pixel in it. *)
Definition uv_rect (w h : Z) : bool * (Z * Z) -> Prop := fun '(_, k) => rect (w `div` 2) h k.
Definition uv_linear_at (u v w : Z) : bool * (Z * Z) -> Z :=
  fun '(b, k) => linear_at (if b then v else u) (w `div` 2) k.
(** Its position in the tiled plane: column [2 x] for Cb, [2 x + 1] for Cr. *)
Definition uv_tiled_at (p w h : Z) : bool * (Z * Z) -> Z :=
  fun '(b, (x, y)) => tiled_at p w h 1 (2 * x + (if b then 1 else 0), y).

Section deinterleave.
Context (m : mem) (w h u v s : Z).
Context (w_nonneg : 0 <= w) (h_nonneg : 0 <= h) (size : (w + 16) * (h + 16) < 2 ^ 31).
Context (mapped_u : mapped m u (w `div` 2 * h)) (mapped_v : mapped m v (w `div` 2 * h)).
Context (mapped_s : mapped m s (tiled_size 8 w h)).
Context (apart_uv : apart u (w `div` 2 * h) v (w `div` 2 * h)).
Context (apart_us : apart u (w `div` 2 * h) s (tiled_size 8 w h)).
Context (apart_vs : apart v (w `div` 2 * h) s (tiled_size 8 w h)).

Abbreviation plan := (plan m (uv_rect w h) (uv_linear_at u v w) (uv_tiled_at s w h)).

Lemma uv_source k : uv_rect w h k -> s <= uv_tiled_at s w h k < s + tiled_size 8 w h.
Proof.
  destruct k as [b [x y]]. intros [Hx Hy]. simpl.
  apply (tiled_at_range w h 1 size s (2 * x + (if b then 1 else 0), y)).
  split; [|done]. clear -Hx. destruct b; dlia.
Qed.

Lemma uv_dest k : uv_rect w h k ->
  (if k.1 then v else u) <= uv_linear_at u v w k < (if k.1 then v else u) + w `div` 2 * h.
Proof.
  destruct k as [b [x y]]. intros [Hx Hy]. simpl.
  pose proof (rect_lt (w `div` 2) h x y Hx Hy). lia.
Qed.

Lemma uv_copyable k d a : uv_rect w h k -> d = uv_linear_at u v w k -> a = uv_tiled_at s w h k ->
  copyable1 m plan d a.
Proof.
  apply plan_copyable1.
  - intros [b k'] Hk. destruct b; simpl; by apply (mapped_linear m _ (w `div` 2) h).
  - intros k' Hk. eapply mapped_at; [done|]. by apply uv_source.
  - intros k1 k2 H1 H2. pose proof (uv_dest k1 H1). pose proof (uv_source k2 H2).
    unfold apart in *. destruct (k1.1); lia.
Qed.

Lemma row_len_half kj : 0 <= kj -> 16 * kj < w ->
  row_len w kj `div` 2 = Z.min 8 (w `div` 2 - 8 * kj) /\ 0 <= row_len w kj <= 16.
Proof. unfold row_len. clear. intros. dlia. Qed.

Lemma writes_uv_row kj y :
  0 <= kj -> 16 * kj < w -> 0 <= y < h ->
  writes m plan (csc_deinterleave_memcpy (u + (w `div` 2 * y + 8 * kj)) (v + (w `div` 2 * y + 8 * kj))
                   (s + tile_off 8 (tiles_x w) (16 * kj) y) (row_len w kj)) tt
    (fun a => exists b x, 8 * kj <= x < Z.min (8 * kj + 8) (w `div` 2) /\
                          a = uv_linear_at u v w (b, (x, y))).
Proof.
  intros Hj Hjw Hy. destruct (row_len_half kj Hj Hjw) as [Hh Hl].
  assert (Hsrc : forall b k, 0 <= k < row_len w kj `div` 2 ->
    uv_rect w h (b, (8 * kj + k, y)) /\
    s + tile_off 8 (tiles_x w) (16 * kj) y + (2 * k + (if b : bool then 1 else 0)) =
    uv_tiled_at s w h (b, (8 * kj + k, y))).
  { intros b k Hk. assert (Hr : uv_rect w h (b, (8 * kj + k, y))).
    { simpl. rewrite Hh in Hk. clear -Hk Hj Hy. lia. }
    split; [done|]. destruct Hr as [Hx _]. simpl.
    rewrite Tile2D_To_Linear_spec; [|clear -Hx; destruct b; dlia|done|done]. simpl.
    destruct (block_of 8 y) as (ki & r & -> & Hrr & _); [lia|].
    pose proof (tile_off_block 8 (tiles_x w) ki kj r 0 Hrr ltac:(lia)) as E.
    rewrite Z.add_0_r in E. rewrite E.
    replace (2 * (8 * kj + k) + (if b then 1 else 0))
      with (16 * kj + (2 * k + (if b then 1 else 0))) by lia.
    rewrite tile_off_block by (destruct b; lia). lia. }
  eapply writes_weaken.
  { apply writes_deinterleave; [lia| |]; intros k Hk.
    - destruct (Hsrc false k Hk) as [H1 H2]. rewrite Z.add_0_r in H2.
      apply (uv_copyable _ _ _ H1); [simpl; lia|done].
    - destruct (Hsrc true k Hk) as [H1 H2].
      apply (uv_copyable _ _ _ H1); [simpl; lia|done]. }
  intros a (b & x & Hx & ->). exists (x - 8 * kj). split; [lia|].
  destruct b; simpl; [right|left]; lia.
Qed.

Lemma tiled_to_linear_uv_deinterleave_run :
  exists m', csc_tiled_to_linear_uv_deinterleave u v s w h m = Some (tt, m') /\
    moved (uv_rect w h) (uv_linear_at u v w) (uv_tiled_at s w h) m m'.
Proof.
  pose proof (Z.div_le_upper_bound w 2 w ltac:(lia) ltac:(lia)).
  pose proof (Z.div_pos w 2 ltac:(lia) ltac:(lia)).
  eapply plan_run with (C := fun a => exists kj y, 0 <= kj /\ 16 * kj < w /\ 0 <= y < h /\
    exists b x, 8 * kj <= x < Z.min (8 * kj + 8) (w `div` 2) /\ a = uv_linear_at u v w (b, (x, y))).
  - intros k Hk. eapply mapped_at; [done|]. by apply uv_source.
  - intros [b [x y]] [b' [x' y']] Hk Hk' He. pose proof (uv_dest _ Hk) as B.
    pose proof (uv_dest _ Hk') as B'. rewrite <- He in B'. f_equal.
    assert (b = b') as -> by (destruct b, b'; simpl in *; unfold apart in *; done || lia).
    f_equal. by apply (linear_det (if b' then v else u) (w `div` 2) h).
  - rewrite csc_tiled_to_linear_uv_deinterleave_detile.
    change (w ≫ 1) with (Z.shiftr w 1) in *. rewrite (shr_div 1 2 w) by done.
    assert (Hhh : h <= h <= 8 * (h `div` 8) + 8) by (clear; dlia).
    assert (Hm : h - 8 * (h `div` 8) = h `mod` 8) by (clear; dlia).
    apply (writes_detile _ _ w h h 8 3 _ _ (w `div` 2) (fun kj => 8 * kj)); try done; try lia.
    + intros ki kj Hi Hih Hj Hjw. assert (w `div` 2 * (8 * ki) <= w * h) by nia.
      rewrite (shr_div 1 2 (16 * kj)), (u32_small (_ * _)) by (done || nia).
      replace ((16 * kj) `div` 2) with (8 * kj) by (clear; dlia). rewrite u32_small; nia.
    + apply (visits_pairs _ _ (w `div` 2) 4 1 4); lia.
    + rewrite Hm. pose proof (Z.mod_pos_bound h 8 ltac:(lia)). apply visits_singles; lia.
    + intros kj y Hj Hjw Hy. by apply writes_uv_row.
  - intros [b [x y]] [Hx Hy]. destruct (block_of 8 x) as (kj & c & -> & Hc & Hj); [lia|].
    assert (16 * kj < w) by (clear -Hx Hc; dlia).
    exists kj, y. repeat split; try lia. exists b, (8 * kj + c). split; [lia|done].
Qed.
End deinterleave.

(** ** Theorems *)

(**  [Tile2D_To_Linear] maps the pixels of a plane one-to-one into the bytes
    of the tiled plane: every address is within the tiled size, and two pixels
    never share one. *)
Theorem Tile2D_To_Linear_injective w h cr x y x' y' :
  (w + 16) * (h + 16) < 2 ^ 31 ->
  0 <= x < w -> 0 <= y < h -> 0 <= x' < w -> 0 <= y' < h ->
  0 <= Tile2D_To_Linear w h x y cr < tiled_size (if cr =? 0 then 16 else 8) w h /\
  (Tile2D_To_Linear w h x y cr = Tile2D_To_Linear w h x' y' cr -> x = x' /\ y = y').
Proof.
  intros Hs Hx Hy Hx' Hy'. rewrite !Tile2D_To_Linear_spec by done. split.
  - apply tile_off_bound; try done. destruct (cr =? 0); lia.
  - apply tile_off_inj; try lia. destruct (cr =? 0); lia.
Qed.

Lemma Tile2D_To_Linear_injective_witness :
  0 <= Tile2D_To_Linear 40 24 39 23 0 < tiled_size 16 40 24 /\
  (Tile2D_To_Linear 40 24 39 23 0 = Tile2D_To_Linear 40 24 3 7 0 -> 39 = 3 /\ 23 = 7).
Proof. apply (Tile2D_To_Linear_injective 40 24 0 39 23 3 7); lia. Defined.

(**  [csc_tiled_to_linear_y] ends without a fault, leaves in every byte of the
    linear plane the byte that [Tile2D_To_Linear] finds in the tiled plane, and
    changes no other byte.  Rows are written in pairs: for an odd height the
    linear plane has one row more than the height, which is why the
    documentation asks for an even one. *)
Theorem csc_tiled_to_linear_y_correct m y_dst y_src w h :
  0 <= w -> 0 <= h -> (w + 16) * (roundup h 2 + 16) < 2 ^ 31 ->
  mapped m y_dst (w * roundup h 2) -> mapped m y_src (tiled_size 16 w h) ->
  apart y_dst (w * roundup h 2) y_src (tiled_size 16 w h) ->
  exists m', csc_tiled_to_linear_y y_dst y_src w h m = Some (tt, m') /\
    (forall x y, 0 <= x < w -> 0 <= y < roundup h 2 ->
       m' !! (y_dst + (w * y + x)) = m !! (y_src + Tile2D_To_Linear w h x y 0)) /\
    (forall a, ~ (y_dst <= a < y_dst + w * roundup h 2) -> m' !! a = m !! a).
Proof.
  intros Hw Hh Hs Md Ms Ha.
  destruct (tiled_to_linear_y_run m y_dst y_src w h) as (m' & E & Hm); [done..|].
  exists m'. split; [done|]. exact (moved_plane _ _ _ _ _ _ Hm).
Qed.

Lemma csc_tiled_to_linear_y_correct_witness :
  let m := fill 4 1000 (fun _ => 0) (fill 256 0 (fun k => k) ∅) in
  exists m', csc_tiled_to_linear_y 1000 0 2 2 m = Some (tt, m') /\
    (forall x y, 0 <= x < 2 -> 0 <= y < roundup 2 2 ->
       m' !! (1000 + (2 * y + x)) = m !! (0 + Tile2D_To_Linear 2 2 x y 0)) /\
    (forall a, ~ (1000 <= a < 1000 + 2 * roundup 2 2) -> m' !! a = m !! a).
Proof.
  apply csc_tiled_to_linear_y_correct; [lia|lia|reflexivity| | |].
  - apply (mapped_fill 4).
  - apply mapped_fill_other, (mapped_fill 256).
  - right. vm_compute. discriminate.
Defined.

(**  The overshoot is real: with an odd height and a linear plane of exactly
    [width * height] bytes, the call writes outside the plane. *)
Theorem csc_tiled_to_linear_y_odd_height :
  let m := fill 6 1000 (fun _ => 0) (fill 256 0 (fun k => k) ∅) in
  mapped m 1000 (2 * 3) /\ mapped m 0 (tiled_size 16 2 3) /\
  csc_tiled_to_linear_y 1000 0 2 3 m = None /\
  exists m', csc_tiled_to_linear_y 1000 0 2 2 m = Some (tt, m').
Proof.
  intros m. split; [apply (mapped_fill 6)|]. split; [apply mapped_fill_other, (mapped_fill 256)|].
  split; [by vm_compute|].
  destruct (tiled_to_linear_y_run m 1000 0 2 2) as (m' & E & _); [lia|lia|reflexivity|..|by exists m'].
  - eapply mapped_sub; [apply (mapped_fill 6)|lia|]. vm_compute. discriminate.
  - apply mapped_fill_other, (mapped_fill 256).
  - right. vm_compute. discriminate.
Qed.

(**  [csc_tiled_to_linear_uv]: the same for the interleaved chroma plane, at
    any height. *)
Theorem csc_tiled_to_linear_uv_correct m uv_dst uv_src w h :
  0 <= w -> 0 <= h -> (w + 16) * (h + 16) < 2 ^ 31 ->
  mapped m uv_dst (w * h) -> mapped m uv_src (tiled_size 8 w h) ->
  apart uv_dst (w * h) uv_src (tiled_size 8 w h) ->
  exists m', csc_tiled_to_linear_uv uv_dst uv_src w h m = Some (tt, m') /\
    (forall x y, 0 <= x < w -> 0 <= y < h ->
       m' !! (uv_dst + (w * y + x)) = m !! (uv_src + Tile2D_To_Linear w h x y 1)) /\
    (forall a, ~ (uv_dst <= a < uv_dst + w * h) -> m' !! a = m !! a).
Proof.
  intros Hw Hh Hs Md Ms Ha.
  destruct (tiled_to_linear_uv_run m uv_dst uv_src w h) as (m' & E & Hm); [done..|].
  exists m'. split; [done|]. exact (moved_plane _ _ _ _ _ _ Hm).
Qed.

Lemma csc_tiled_to_linear_uv_correct_witness :
  let m := fill 6 1000 (fun _ => 0) (fill 128 0 (fun k => k) ∅) in
  exists m', csc_tiled_to_linear_uv 1000 0 2 3 m = Some (tt, m') /\
    (forall x y, 0 <= x < 2 -> 0 <= y < 3 ->
       m' !! (1000 + (2 * y + x)) = m !! (0 + Tile2D_To_Linear 2 3 x y 1)) /\
    (forall a, ~ (1000 <= a < 1000 + 2 * 3) -> m' !! a = m !! a).
Proof.
  apply csc_tiled_to_linear_uv_correct; [lia|lia|reflexivity| | |].
  - apply (mapped_fill 6).
  - apply mapped_fill_other, (mapped_fill 128).
  - right. vm_compute. discriminate.
Defined.

(**  [csc_tiled_to_linear_uv_deinterleave] splits the tiled chroma plane into
    the Cb and the Cr plane of half the width: Cb from the even, Cr from the odd
    columns. *)
Theorem csc_tiled_to_linear_uv_deinterleave_correct m u_dst v_dst uv_src w h :
  0 <= w -> 0 <= h -> (w + 16) * (h + 16) < 2 ^ 31 ->
  mapped m u_dst (w `div` 2 * h) -> mapped m v_dst (w `div` 2 * h) ->
  mapped m uv_src (tiled_size 8 w h) ->
  apart u_dst (w `div` 2 * h) v_dst (w `div` 2 * h) ->
  apart u_dst (w `div` 2 * h) uv_src (tiled_size 8 w h) ->
  apart v_dst (w `div` 2 * h) uv_src (tiled_size 8 w h) ->
  exists m', csc_tiled_to_linear_uv_deinterleave u_dst v_dst uv_src w h m = Some (tt, m') /\
    (forall x y, 0 <= x < w `div` 2 -> 0 <= y < h ->
       m' !! (u_dst + (w `div` 2 * y + x)) = m !! (uv_src + Tile2D_To_Linear w h (2 * x) y 1) /\
       m' !! (v_dst + (w `div` 2 * y + x)) = m !! (uv_src + Tile2D_To_Linear w h (2 * x + 1) y 1)) /\
    (forall a, ~ (u_dst <= a < u_dst + w `div` 2 * h) -> ~ (v_dst <= a < v_dst + w `div` 2 * h) ->
       m' !! a = m !! a).
Proof.
  intros Hw Hh Hs Mu Mv Ms A1 A2 A3.
  destruct (tiled_to_linear_uv_deinterleave_run m w h u_dst v_dst uv_src) as (m' & E & H1 & H2 & _);
    [done..|].
  exists m'. split; [done|]. split.
  - intros x y Hx Hy. split.
    + pose proof (H1 (false, (x, y)) (conj Hx Hy)) as H. simpl in H. by rewrite Z.add_0_r in H.
    + exact (H1 (true, (x, y)) (conj Hx Hy)).
  - intros a Hu Hv. apply H2. intros [b [x y]] [Hx Hy] ->.
    pose proof (rect_lt (w `div` 2) h x y Hx Hy). destruct b; simpl in *; lia.
Qed.

Lemma csc_tiled_to_linear_uv_deinterleave_correct_witness :
  let m := fill 6 1000 (fun _ => 0) (fill 6 2000 (fun _ => 0) (fill 128 0 (fun k => k) ∅)) in
  exists m', csc_tiled_to_linear_uv_deinterleave 1000 2000 0 4 3 m = Some (tt, m') /\
    (forall x y, 0 <= x < 4 `div` 2 -> 0 <= y < 3 ->
       m' !! (1000 + (4 `div` 2 * y + x)) = m !! (0 + Tile2D_To_Linear 4 3 (2 * x) y 1) /\
       m' !! (2000 + (4 `div` 2 * y + x)) = m !! (0 + Tile2D_To_Linear 4 3 (2 * x + 1) y 1)) /\
    (forall a, ~ (1000 <= a < 1000 + 4 `div` 2 * 3) -> ~ (2000 <= a < 2000 + 4 `div` 2 * 3) ->
       m' !! a = m !! a).
Proof.
  apply csc_tiled_to_linear_uv_deinterleave_correct; [lia|lia|reflexivity| | | |left|right|right];
    try (vm_compute; discriminate).
  - apply (mapped_fill 6).
  - apply mapped_fill_other, (mapped_fill 6).
  - do 2 apply mapped_fill_other. apply (mapped_fill 128).
Defined.
