(* ===== verification/Tile16Yuv.v ===== *)
(** * 16x16 tiled frames: the word-wise converter

    [Tile2D_To_YUV420] of [src/libswconverter/swconvertor.c] reads the tiled
    frame four bytes at a time; it is shown to compute the same frame as the
    [memcpy] converters of [Tile16]. *)

From S2P Require Import Prelude CMem Interleave Tile16.

(** ** Operation *)

(** Words per tile row: [out_of_width ? ((width % 4) ? ((width % 16) / 4 + 1)
    : ((width % 16) / 4)) : 4]. *)
Definition actual_width (width out_of_width : Z) : Z :=
  if negb (out_of_width =? 0) then
    if negb (width `mod` 4 =? 0) then (width `mod` 16) `div` 4 ^+ 1 else (width `mod` 16) `div` 4
  else 4.

(** The frame addresses [y_addr] and [c_addr] are [unsigned int]; the sum with
    the tile offset is computed at that width and then widened. *)
Definition Tile2D_To_YUV420 (Y_plane Cb_plane Cr_plane y_addr c_addr width height : Z) : M unit :=
  for_each 0 height 16 (fun y =>
    for_each 0 width 16 (fun x =>
      let out_of_width := if width <? (x ^+ 16) then 1 else 0 in
      let base_addr := y_addr ^+ Tile2D_To_Linear width height x y 0 in
      for_while 16 (fun k => (k <? 16) && (y ^+ k <? height)) (fun k =>
        for_each 0 (actual_width width out_of_width) 1 (fun l =>
          let! data := load32 (base_addr + 16 ^* k + l ^* 4) in
          for_while 4 (fun j => (j <? 4) && (x ^+ (l ^* 4) ^+ j <? width)) (fun j =>
            store8 (Y_plane + ((y ^+ k) ^* width ^+ x ^+ (l ^* 4) ^+ j))
              (Z.land (data ≫ (8 * j)) 0xff)))))) ;!
  for_each 0 (height `div` 2) 8 (fun y =>
    for_each 0 width 16 (fun x =>
      let out_of_width := if width <? (x ^+ 16) then 1 else 0 in
      let base_addr := c_addr ^+ Tile2D_To_Linear width (height `div` 2) x y 1 in
      for_while 8 (fun k => (k <? 8) && (y ^+ k <? height `div` 2)) (fun k =>
        for_each 0 (actual_width width out_of_width) 1 (fun l =>
          let! data := load32 (base_addr + 16 ^* k + l ^* 4) in
          for_while 2 (fun j => (j <? 2) && ((x `div` 2) ^+ (l ^* 2) ^+ j <? width `div` 2)) (fun j =>
            store8 (Cb_plane + (((y ^+ k) ^* width) `div` 2 ^+ x `div` 2 ^+ (l ^* 2) ^+ j))
              (Z.land (data ≫ (8 * 2 * j)) 0xff) ;!
            store8 (Cr_plane + (((y ^+ k) ^* width) `div` 2 ^+ x `div` 2 ^+ (l ^* 2) ^+ j))
              (Z.land (data ≫ (8 * 2 * j + 8)) 0xff)))))).

(** ** Words *)

(** Four bytes read as a word and taken apart again. *)
Lemma word_byte b0 b1 b2 b3 j :
  0 <= b0 < 256 -> 0 <= b1 < 256 -> 0 <= b2 < 256 -> 0 <= b3 < 256 -> 0 <= j < 4 ->
  Z.land ((b0 + 256 * (b1 + 256 * (b2 + 256 * (b3 + 256 * 0)))) ≫ (8 * j)) 0xff =
  match j with 0 => b0 | 1 => b1 | 2 => b2 | _ => b3 end.
Proof.
  intros H0 H1 H2 H3 Hj. rewrite land_0xff.
  assert (j = 0 \/ j = 1 \/ j = 2 \/ j = 3) as [-> | [-> | [-> | ->]]] by lia;
    [rewrite (shr_div _ 1)|rewrite (shr_div _ 256)|rewrite (shr_div _ 65536)|rewrite (shr_div _ 16777216)];
    try done; dlia.
Qed.

Section words.
Context (m0 : mem) (V : Z -> Z -> Prop).
Abbreviation writes := (writes m0 V).

(** The byte [b] at the source address [a]. *)
Definition source_byte (a b : Z) : Prop := m0 !! a = Some b /\ 0 <= b < 256 /\ ~ target V a.

(** A word read at [a], followed by the continuation on its bytes. *)
Lemma writes_load32 {A} a (g : Z -> Z) (k : Z -> M A) r C :
  (forall j, 0 <= j < 4 -> source_byte (a + j) (g j)) ->
  (forall data, (forall j, 0 <= j < 4 -> Z.land (data ≫ (8 * j)) 0xff = g j) -> writes (k data) r C) ->
  writes (let! data := load32 a in k data) r C.
Proof.
  intros Hg Hk.
  destruct (Hg 0) as (L0 & B0 & T0); [lia|]. destruct (Hg 1) as (L1 & B1 & T1); [lia|].
  destruct (Hg 2) as (L2 & B2 & T2); [lia|]. destruct (Hg 3) as (L3 & B3 & T3); [lia|].
  rewrite Z.add_0_r in *.
  set (data := g 0 + 256 * (g 1 + 256 * (g 2 + 256 * (g 3 + 256 * 0)))).
  assert (Hd : forall j, 0 <= j < 4 -> Z.land (data ≫ (8 * j)) 0xff = g j).
  { intros j Hj. unfold data. rewrite word_byte by done.
    by assert (j = 0 \/ j = 1 \/ j = 2 \/ j = 3) as [-> | [-> | [-> | ->]]] by lia. }
  eapply writes_weaken.
  { apply (writes_bind _ _ _ _ data r (fun _ => False) C); [|by apply Hk].
    unfold load32, load_le. replace (a + 1 + 1 + 1) with (a + 3) by lia.
    replace (a + 1 + 1) with (a + 2) by lia. eapply writes_weaken.
    { eapply writes_bind; [by apply writes_load8|].
      eapply writes_bind with (r := g 1 + 256 * (g 2 + 256 * (g 3 + 256 * 0))); [|apply writes_ret].
      eapply writes_bind; [by apply writes_load8|].
      eapply writes_bind with (r := g 2 + 256 * (g 3 + 256 * 0)); [|apply writes_ret].
      eapply writes_bind; [by apply writes_load8|].
      eapply writes_bind with (r := g 3 + 256 * 0); [|apply writes_ret].
      eapply writes_bind; [by apply writes_load8|].
      apply writes_bind with (r := 0) (C1 := fun _ => False); apply writes_ret. }
    done. }
  intros b Hb. by right.
Qed.
End words.

(** The number of words of a tile row covers the columns of the plane. *)
Lemma actual_width_eq w kj :
  0 <= kj -> 16 * kj < w -> w < 2 ^ 31 ->
  actual_width w (if w <? (16 * kj) ^+ 16 then 1 else 0) = (row_len w kj + 3) `div` 4.
Proof.
  intros Hj Hw Hb. rewrite u32_small by lia. unfold actual_width, row_len.
  destruct (Z.ltb_spec w (16 * kj + 16)) as [Hlt|Hge]; simpl.
  - assert (Hm : w `mod` 16 = w - 16 * kj) by (clear -Hj Hw Hlt; dlia).
    destruct (Z.eqb_spec (w `mod` 4) 0) as [H0|H0]; simpl.
    + clear -Hm H0 Hw Hlt. dlia.
    + rewrite u32_small by (clear; dlia). clear -Hm H0 Hw Hlt. dlia.
  - rewrite Z.min_l by lia. done.
Qed.

(** ** The frame *)

(** The [n] bytes from [a] on are mapped and are bytes. *)
Definition bytes (m : mem) (a n : Z) : Prop :=
  forall k, 0 <= k < n -> exists b, m !! (a + k) = Some b /\ 0 <= b < 256.

Lemma bytes_mapped m a n : bytes m a n -> mapped m a n.
Proof. intros H k Hk. destruct (H k Hk) as (b & Hb & _). eauto. Qed.

Lemma bytes_fill n a g m :
  (forall k, 0 <= k < Z.of_nat n -> 0 <= g k < 256) -> bytes (fill n a g m) a (Z.of_nat n).
Proof.
  intros Hg k Hk. exists (g k). rewrite lookup_fill, decide_True by lia.
  replace (a + k - a) with k by lia. auto.
Qed.

Lemma bytes_fill_other n a g m b k :
  apart a (Z.of_nat n) b k -> bytes m b k -> bytes (fill n a g m) b k.
Proof.
  intros Ha Hm i Hi. destruct (Hm i Hi) as (v & Hv & Hr). exists v.
  rewrite lookup_fill, decide_False by (unfold apart in Ha; lia). done.
Qed.

(** Pixels of a frame: luma, or a chroma plane and a pixel of it. *)
Definition yuv_dom (w h : Z) : Z * Z + bool * (Z * Z) -> Prop :=
  fun k => match k with inl k => rect w h k | inr k => uv_rect w (h `div` 2) k end.
(** Positions in the planar and in the tiled frame. *)
Definition yuv_planar_at (yp up vp w : Z) : Z * Z + bool * (Z * Z) -> Z :=
  fun k => match k with inl k => linear_at yp w k | inr k => uv_linear_at up vp w k end.
Definition yuv_tiled_at (ya ca w h : Z) : Z * Z + bool * (Z * Z) -> Z :=
  fun k => match k with inl k => tiled_at ya w h 0 k | inr k => uv_tiled_at ca w (h `div` 2) k end.

Section frame.
Context (m : mem) (w h yp up vp ya ca : Z).
Abbreviation ysize := (w * h).
Abbreviation csize := (w `div` 2 * (h `div` 2)).
Abbreviation ytiled := (tiled_size 16 w h).
Abbreviation ctiled := (tiled_size 8 w (h `div` 2)).
Context (w_nonneg : 0 <= w) (h_nonneg : 0 <= h) (size : (w + 16) * (h + 16) < 2 ^ 31).
Context (w_even : w `mod` 2 = 0).
Context (mapped_y : mapped m yp ysize) (mapped_u : mapped m up csize) (mapped_v : mapped m vp csize).
Context (bytes_y : bytes m ya ytiled) (bytes_c : bytes m ca ctiled).
Context (y_addr_32 : 0 <= ya /\ ya + ytiled < 2 ^ 32) (c_addr_32 : 0 <= ca /\ ca + ctiled < 2 ^ 32).
Context (apart_yu : apart yp ysize up csize) (apart_yv : apart yp ysize vp csize)
        (apart_uv : apart up csize vp csize).
Context (apart_y_ya : apart yp ysize ya ytiled) (apart_y_ca : apart yp ysize ca ctiled)
        (apart_u_ya : apart up csize ya ytiled) (apart_u_ca : apart up csize ca ctiled)
        (apart_v_ya : apart vp csize ya ytiled) (apart_v_ca : apart vp csize ca ctiled).

Abbreviation dom := (yuv_dom w h).
Abbreviation dst := (yuv_planar_at yp up vp w).
Abbreviation src := (yuv_tiled_at ya ca w h).
Abbreviation plan := (plan m dom dst src).

Lemma half_height : 0 <= h `div` 2 <= h /\ (w + 16) * (h `div` 2 + 16) < 2 ^ 31.
Proof.
  assert (0 <= h `div` 2 <= h) by (clear -h_nonneg; dlia). split; [done|]. nia.
Qed.

Lemma half_width : 0 <= w `div` 2 <= w /\ w = 2 * (w `div` 2).
Proof. clear -w_nonneg w_even. dlia. Qed.

Lemma dst_in k : dom k ->
  match k with
  | inl _ => yp <= dst k < yp + ysize
  | inr (b, _) => (if b then vp else up) <= dst k < (if b then vp else up) + csize
  end.
Proof.
  destruct k as [[x y]|[b [x y]]]; intros [Hx Hy]; simpl.
  - pose proof (rect_lt w h x y Hx Hy). lia.
  - pose proof (rect_lt (w `div` 2) (h `div` 2) x y Hx Hy). lia.
Qed.

Lemma src_in k : dom k ->
  match k with
  | inl _ => ya <= src k < ya + ytiled
  | inr _ => ca <= src k < ca + ctiled
  end.
Proof.
  destruct half_height as [_ Hs].
  destruct k as [k|k]; intros Hk; simpl.
  - apply (tiled_at_range w h 0); done.
  - apply uv_source; try done; lia.
Qed.

Lemma dst_mapped k : dom k -> is_Some (m !! dst k).
Proof.
  intros Hk. pose proof (dst_in k Hk) as H. destruct k as [k|[[] k]];
    [apply (mapped_at m yp ysize)|apply (mapped_at m vp csize)|apply (mapped_at m up csize)]; done.
Qed.

Lemma src_mapped k : dom k -> is_Some (m !! src k).
Proof.
  intros Hk. pose proof (src_in k Hk) as H.
  destruct k as [k|k];
    [apply (mapped_at m ya ytiled)|apply (mapped_at m ca ctiled)]; auto using bytes_mapped.
Qed.

(** No byte of the tiled frame is a byte of the planar frame. *)
Lemma tiled_untouched a :
  (ya <= a < ya + ytiled \/ ca <= a < ca + ctiled) -> ~ target plan a.
Proof.
  intros Ha (v & k & Hk & He & _). pose proof (dst_in k Hk) as Hd. rewrite <- He in Hd.
  unfold apart in *. destruct k as [k|[[] k]]; lia.
Qed.

Lemma dst_src_apart k k' : dom k -> dom k' -> dst k <> src k'.
Proof.
  intros Hk Hk' He. apply (tiled_untouched (src k')).
  - pose proof (src_in k' Hk') as H. destruct k'; auto.
  - destruct (src_mapped k Hk) as [v Hv]. exists v, k. done.
Qed.

Lemma dst_det k k' : dom k -> dom k' -> dst k = dst k' -> k = k'.
Proof.
  intros Hk Hk' He. pose proof (dst_in k Hk) as H. pose proof (dst_in k' Hk') as H'.
  rewrite <- He in H'. unfold apart in *.
  destruct k as [k|[b k]], k' as [k'|[b' k']].
  - f_equal. by apply (linear_det yp w h).
  - destruct b'; simpl in *; lia.
  - destruct b; simpl in *; lia.
  - assert (b = b') as -> by (destruct b, b'; simpl in *; done || lia). do 2 f_equal.
    by apply (linear_det (if b' then vp else up) (w `div` 2) (h `div` 2)).
Qed.

(** The bytes of a word of the tiled frame. *)
Definition byte_at (a : Z) : Z := default 0 (m !! a).

Lemma tiled_byte a :
  (ya <= a < ya + ytiled \/ ca <= a < ca + ctiled) -> source_byte m plan a (byte_at a).
Proof.
  intros Ha. unfold byte_at.
  assert (exists b, m !! a = Some b /\ 0 <= b < 256) as (b & Hb & Hr).
  { destruct Ha as [Ha|Ha].
    - destruct (bytes_y (a - ya)) as (b & Hb); [lia|]. exists b.
      by replace (ya + (a - ya)) with a in Hb by lia.
    - destruct (bytes_c (a - ca)) as (b & Hb); [lia|]. exists b.
      by replace (ca + (a - ca)) with a in Hb by lia. }
  unfold source_byte. rewrite Hb. simpl. split; [done|]. split; [done|]. by apply tiled_untouched.
Qed.

Lemma writes_byte k d a v :
  dom k -> d = dst k -> a = src k -> v = byte_at a ->
  writes m plan (store8 d v) tt (fun b => b = d).
Proof.
  intros Hk -> -> ->. destruct (tiled_byte (src k)) as (Hb & Hr & _).
  { pose proof (src_in k Hk). destruct k; auto. }
  apply writes_store8; [by apply dst_mapped|]. exists k.
  rewrite u8_small by done. done.
Qed.

(** Words lie in the padded tile rows of a plane. *)
Lemma tile_word_in th hh ki kj r c :
  0 < th -> 0 <= kj -> 16 * kj < w -> 0 <= th * ki + r < hh -> 0 <= r < th -> 0 <= c < 16 ->
  0 <= tile_off th (tiles_x w) (16 * kj) (th * ki) + 16 * r + c < tiled_size th w hh.
Proof.
  intros Ht Hj Hw Hy Hr Hc.
  pose proof (tile_off_block th (tiles_x w) ki kj r c Hr Hc) as E.
  pose proof (tile_off_block th (tiles_x w) ki kj 0 0 ltac:(lia) ltac:(lia)) as E'.
  rewrite !Z.add_0_r in E'.
  assert (Hp : tiles_x (16 * tiles_x w) = tiles_x w) by (unfold tiles_x; clear; dlia).
  assert (Hq : 16 * kj + c < 16 * tiles_x w) by (unfold tiles_x; clear -Hw Hc; dlia).
  pose proof (tile_off_bound th (16 * tiles_x w) hh (16 * kj + c) (th * ki + r) Ht ltac:(lia) Hy) as B.
  rewrite Hp, E in B. rewrite E'. unfold tiled_size. lia.
Qed.

(** One row of a tile: the words of the row, and the bytes of each word. *)
Lemma writes_words base n aw cond (put : Z -> Z -> Z -> M unit) (C : Z -> Z -> Z -> Prop) (cnt : Z -> Z) fuel :
  0 <= aw <= 4 -> 0 <= n ->
  (forall i, 0 <= i < 4 * aw -> source_byte m plan (base + i) (byte_at (base + i))) ->
  (forall l, 0 <= l < aw -> 0 <= cnt l <= Z.of_nat fuel /\ cnt l < 2 ^ 32 /\
     (forall j, 0 <= j < cnt l -> cond l j = true) /\ cond l (cnt l) = false) ->
  (forall l j data, 0 <= l < aw -> 0 <= j < cnt l ->
     (forall i, 0 <= i < 4 -> Z.land (data ≫ (8 * i)) 0xff = byte_at (base + (4 * l + i))) ->
     writes m plan (put data l j) tt (C l j)) ->
  writes m plan (for_each 0 aw 1 (fun l =>
      let! data := load32 (base + l ^* 4) in
      for_while fuel (cond l) (fun j => put data l j))) tt
    (fun a => exists l j, 0 <= l < aw /\ 0 <= j < cnt l /\ C l j a).
Proof.
  intros Haw Hn Hsrc Hcnt Hput. eapply writes_weaken.
  { apply writes_for_each with (n := aw)
      (C := fun l a => exists j, 0 <= j < cnt l /\ C l j a); try lia.
    intros l Hl. rewrite Z.add_0_l, Z.mul_1_l. rewrite u32_small by lia.
    apply (writes_load32 _ _ _ (fun i => byte_at (base + (4 * l + i)))).
    - intros i Hi. replace (base + l * 4 + i) with (base + (4 * l + i)) by lia. apply Hsrc. lia.
    - intros data Hdata. destruct (Hcnt l Hl) as (H1 & H2 & H3 & H4).
      apply writes_for_while; try done. intros j Hj. by apply Hput. }
  intros a (l & j & Hl & Hj & HC). eauto.
Qed.

Lemma row_len_words kj :
  0 <= kj -> 16 * kj < w -> 1 <= row_len w kj <= 16 /\ 0 <= (row_len w kj + 3) `div` 4 <= 4 /\
  row_len w kj <= 4 * ((row_len w kj + 3) `div` 4) /\
  (forall l, l < (row_len w kj + 3) `div` 4 -> 4 * l < row_len w kj).
Proof.
  unfold row_len. clear. intros Hj Hw. split; [lia|]. split; [dlia|]. split; [dlia|].
  intros l. dlia.
Qed.

Lemma writes_luma_tile ki kj :
  0 <= ki -> 16 * ki < h -> 0 <= kj -> 16 * kj < w ->
  writes m plan
    (let out_of_width := if w <? ((16 * kj) ^+ 16) then 1 else 0 in
     let base_addr := ya ^+ Tile2D_To_Linear w h (16 * kj) (16 * ki) 0 in
     for_while 16 (fun k => (k <? 16) && ((16 * ki) ^+ k <? h)) (fun k =>
       for_each 0 (actual_width w out_of_width) 1 (fun l =>
         let! data := load32 (base_addr + 16 ^* k + l ^* 4) in
         for_while 4 (fun j => (j <? 4) && ((16 * kj) ^+ (l ^* 4) ^+ j <? w)) (fun j =>
           store8 (yp + (((16 * ki) ^+ k) ^* w ^+ (16 * kj) ^+ (l ^* 4) ^+ j))
             (Z.land (data ≫ (8 * j)) 0xff))))) tt
    (fun a => exists r c, 0 <= r < Z.min 16 (h - 16 * ki) /\ 0 <= c < row_len w kj /\
                          a = dst (inl (16 * kj + c, 16 * ki + r))).
Proof.
  intros Hi Hih Hj Hjw. cbv zeta.
  assert (Hb : w < 2 ^ 27 /\ h < 2 ^ 27 /\ (h - 1) * w + w < 2 ^ 31)
    by (clear -size w_nonneg h_nonneg; nia).
  rewrite actual_width_eq by lia. destruct (row_len_words kj Hj Hjw) as (Hl & Haw & Hlw & Hwl).
  set (T := tile_off 16 (tiles_x w) (16 * kj) (16 * ki)).
  assert (HT : forall r c, 0 <= r < Z.min 16 (h - 16 * ki) -> 0 <= c < 16 ->
    0 <= T + 16 * r + c < ytiled).
  { intros r c Hr Hc. apply (tile_word_in 16 h ki kj r c); lia. }
  pose proof (HT 0 0 ltac:(lia) ltac:(lia)) as HT0.
  rewrite Tile2D_To_Linear_spec by lia. simpl (if 0 =? 0 then 16 else 8). fold T.
  rewrite (u32_small (ya + T)) by lia.
  eapply writes_weaken.
  { apply writes_for_while with (n := Z.min 16 (h - 16 * ki))
      (C := fun r a => exists l j, 0 <= l < (row_len w kj + 3) `div` 4 /\
        0 <= j < Z.min 4 (row_len w kj - 4 * l) /\ a = dst (inl (16 * kj + (4 * l + j), 16 * ki + r)));
      [lia|lia| | |].
    - intros k Hk. rewrite u32_small by lia. apply andb_true_iff. rewrite !Z.ltb_lt. lia.
    - rewrite u32_small by lia. apply andb_false_iff. rewrite !Z.ltb_ge. lia.
    - intros r Hr. rewrite (u32_small (16 * r)) by lia. replace (ya + T + 16 * r) with (ya + (T + 16 * r)) by lia.
      apply (writes_words _ 0 _ _ _
        (fun l j a => a = dst (inl (16 * kj + (4 * l + j), 16 * ki + r)))
        (fun l => Z.min 4 (row_len w kj - 4 * l))); [done|lia| | |].
      + intros i Hi'. apply tiled_byte. left. specialize (HT r i Hr ltac:(lia)). lia.
      + intros l Hl'. specialize (Hwl l ltac:(lia)).
        unfold row_len in *. split; [lia|]. split; [lia|]. split.
        * intros j Hj'. rewrite (u32_small (l * 4)), (u32_small (16 * kj + l * 4)), u32_small by lia.
          apply andb_true_iff. rewrite !Z.ltb_lt. lia.
        * rewrite (u32_small (l * 4)), (u32_small (16 * kj + l * 4)), u32_small by lia.
          apply andb_false_iff. rewrite !Z.ltb_ge. lia.
      + intros l j data Hl' Hj' Hd. unfold row_len in *.
        assert (0 <= (16 * ki + r) * w <= (h - 1) * w).
        { split; [apply Z.mul_nonneg_nonneg; lia|apply Z.mul_le_mono_nonneg_r; lia]. }
        rewrite (u32_small (16 * ki + r)), (u32_small (l * 4)) by lia.
        rewrite (u32_small ((16 * ki + r) * w)) by lia.
        rewrite (u32_small ((16 * ki + r) * w + 16 * kj)) by lia.
        rewrite (u32_small ((16 * ki + r) * w + 16 * kj + l * 4)), u32_small by lia.
        assert (Hk : dom (inl (16 * kj + (4 * l + j), 16 * ki + r))) by (simpl; lia).
        replace ((16 * ki + r) * w + 16 * kj + l * 4 + j)
          with (w * (16 * ki + r) + (16 * kj + (4 * l + j))) by lia.
        apply (writes_byte (inl (16 * kj + (4 * l + j), 16 * ki + r)) _
          (ya + (T + 16 * r) + (4 * l + j))); [done|done| |apply Hd; lia].
        simpl. rewrite Tile2D_To_Linear_spec by lia. simpl (if 0 =? 0 then 16 else 8).
        unfold T. pose proof (tile_off_block 16 (tiles_x w) ki kj 0 0 ltac:(lia) ltac:(lia)) as E.
        rewrite !Z.add_0_r in E. rewrite E, tile_off_block by lia. lia. }
  intros a (r & c & Hr & Hc & ->). exists r. split; [done|].
  destruct (block_of 4 c) as (l & j & -> & Hj' & Hl'); [lia|]. exists l, j.
  split; [lia|]. split; [lia|done].
Qed.

Lemma writes_chroma_tile ki kj :
  0 <= ki -> 8 * ki < h `div` 2 -> 0 <= kj -> 16 * kj < w ->
  writes m plan
    (let out_of_width := if w <? ((16 * kj) ^+ 16) then 1 else 0 in
     let base_addr := ca ^+ Tile2D_To_Linear w (h `div` 2) (16 * kj) (8 * ki) 1 in
     for_while 8 (fun k => (k <? 8) && ((8 * ki) ^+ k <? h `div` 2)) (fun k =>
       for_each 0 (actual_width w out_of_width) 1 (fun l =>
         let! data := load32 (base_addr + 16 ^* k + l ^* 4) in
         for_while 2 (fun j => (j <? 2) && (((16 * kj) `div` 2) ^+ (l ^* 2) ^+ j <? w `div` 2)) (fun j =>
           store8 (up + ((((8 * ki) ^+ k) ^* w) `div` 2 ^+ (16 * kj) `div` 2 ^+ (l ^* 2) ^+ j))
             (Z.land (data ≫ (8 * 2 * j)) 0xff) ;!
           store8 (vp + ((((8 * ki) ^+ k) ^* w) `div` 2 ^+ (16 * kj) `div` 2 ^+ (l ^* 2) ^+ j))
             (Z.land (data ≫ (8 * 2 * j + 8)) 0xff))))) tt
    (fun a => exists b r c, 0 <= r < Z.min 8 (h `div` 2 - 8 * ki) /\
       0 <= c < Z.min 8 (w `div` 2 - 8 * kj) /\ a = dst (inr (b, (8 * kj + c, 8 * ki + r)))).
Proof.
  intros Hi Hih Hj Hjw. cbv zeta.
  destruct half_height as [Hhh Hhs]. destruct half_width as [Hw1 Hw2].
  set (h2 := h `div` 2) in *. set (w2 := w `div` 2) in *.
  assert (Hb : w < 2 ^ 27 /\ h < 2 ^ 27 /\ (h2 - 1) * w + w < 2 ^ 31)
    by (clear -size Hhh Hhs w_nonneg h_nonneg; nia).
  rewrite actual_width_eq by lia. destruct (row_len_words kj Hj Hjw) as (Hl & Haw & Hlw & Hwl).
  set (T := tile_off 8 (tiles_x w) (16 * kj) (8 * ki)).
  assert (HT : forall r c, 0 <= r < Z.min 8 (h2 - 8 * ki) -> 0 <= c < 16 ->
    0 <= T + 16 * r + c < tiled_size 8 w h2).
  { intros r c Hr Hc. apply (tile_word_in 8 h2 ki kj r c); lia. }
  pose proof (HT 0 0 ltac:(lia) ltac:(lia)) as HT0.
  rewrite Tile2D_To_Linear_spec by lia. simpl (if 1 =? 0 then 16 else 8). fold T.
  rewrite (u32_small (ca + T)) by lia.
  replace ((16 * kj) `div` 2) with (8 * kj) by (clear; dlia).
  eapply writes_weaken.
  { apply writes_for_while with (n := Z.min 8 (h2 - 8 * ki))
      (C := fun r a => exists l j, 0 <= l < (row_len w kj + 3) `div` 4 /\
        0 <= j < Z.min 2 (w2 - 8 * kj - 2 * l) /\
        exists b, a = dst (inr (b, (8 * kj + (2 * l + j), 8 * ki + r))));
      [lia|lia| | |].
    - intros k Hk. rewrite u32_small by lia. apply andb_true_iff. rewrite !Z.ltb_lt. lia.
    - rewrite u32_small by lia. apply andb_false_iff. rewrite !Z.ltb_ge. lia.
    - intros r Hr. rewrite (u32_small (16 * r)) by lia. replace (ca + T + 16 * r) with (ca + (T + 16 * r)) by lia.
      apply (writes_words _ 0 _ _ _
        (fun l j a => exists b, a = dst (inr (b, (8 * kj + (2 * l + j), 8 * ki + r))))
        (fun l => Z.min 2 (w2 - 8 * kj - 2 * l))); [done|lia| | |].
      + intros i Hi'. apply tiled_byte. right. specialize (HT r i Hr ltac:(lia)). fold h2. lia.
      + intros l Hl'. specialize (Hwl l ltac:(lia)). unfold row_len in Hwl.
        split; [lia|]. split; [lia|]. split.
        * intros j Hj'. rewrite (u32_small (l * 2)), (u32_small (8 * kj + l * 2)), u32_small by lia.
          apply andb_true_iff. rewrite !Z.ltb_lt. lia.
        * rewrite (u32_small (l * 2)), (u32_small (8 * kj + l * 2)), u32_small by lia.
          apply andb_false_iff. rewrite !Z.ltb_ge. lia.
      + intros l j data Hl' Hj' Hd. specialize (Hwl l ltac:(lia)). unfold row_len in Hwl.
        assert (0 <= (8 * ki + r) * w <= (h2 - 1) * w).
        { split; [apply Z.mul_nonneg_nonneg; lia|apply Z.mul_le_mono_nonneg_r; lia]. }
        rewrite (u32_small (8 * ki + r)), (u32_small (l * 2)) by lia.
        rewrite (u32_small ((8 * ki + r) * w)) by lia.
        replace (((8 * ki + r) * w) `div` 2) with (w2 * (8 * ki + r)).
        2: { rewrite Hw2. replace ((8 * ki + r) * (2 * w2)) with (w2 * (8 * ki + r) * 2) by lia.
             by rewrite Z.div_mul. }
        assert (0 <= w2 * (8 * ki + r) <= (h2 - 1) * w) by lia.
        rewrite (u32_small (w2 * (8 * ki + r) + 8 * kj)) by lia.
        rewrite (u32_small (w2 * (8 * ki + r) + 8 * kj + l * 2)), u32_small by lia.
        replace (w2 * (8 * ki + r) + 8 * kj + l * 2 + j)
          with (w2 * (8 * ki + r) + (8 * kj + (2 * l + j))) by lia.
        assert (Hk : forall b, dom (inr (b, (8 * kj + (2 * l + j), 8 * ki + r)))).
        { intros b. simpl. fold h2 w2. lia. }
        assert (Hsrc : forall b, ca + (T + 16 * r) + (4 * l + (2 * j + (if b : bool then 1 else 0))) =
          src (inr (b, (8 * kj + (2 * l + j), 8 * ki + r)))).
        { intros b. simpl. fold h2. rewrite Tile2D_To_Linear_spec by (destruct b; lia).
          simpl (if 1 =? 0 then 16 else 8). unfold T.
          pose proof (tile_off_block 8 (tiles_x w) ki kj 0 0 ltac:(lia) ltac:(lia)) as E.
          rewrite !Z.add_0_r in E. rewrite E.
          replace (2 * (8 * kj + (2 * l + j)) + (if b then 1 else 0))
            with (16 * kj + (4 * l + 2 * j + (if b then 1 else 0))) by lia.
          rewrite tile_off_block by (destruct b; lia). lia. }
        eapply writes_weaken.
        { apply writes_seq.
          - apply (writes_byte _ _ _ _ (Hk false) eq_refl (Hsrc false)).
            rewrite <- Hd by lia. do 2 f_equal. lia.
          - apply (writes_byte _ _ _ _ (Hk true) eq_refl (Hsrc true)).
            rewrite <- Hd by lia. do 2 f_equal. lia. }
        intros a [b ->]. destruct b; [by right|by left]. }
  intros a (b & r & c & Hr & Hc & ->). exists r. split; [done|].
  destruct (block_of 2 c) as (l & j & -> & Hj' & Hl'); [lia|]. exists l, j.
  unfold row_len in *. split; [lia|]. split; [lia|]. by exists b.
Qed.

(** Both loop nests together. *)
Lemma Tile2D_To_YUV420_run :
  exists m', Tile2D_To_YUV420 yp up vp ya ca w h m = Some (tt, m') /\ moved dom dst src m m'.
Proof.
  destruct half_height as [Hhh Hhs]. destruct half_width as [Hw1 Hw2].
  assert (Hb : w < 2 ^ 27 /\ h < 2 ^ 27) by nia.
  set (nk := fun x n => (x + n - 1) `div` n).
  assert (Hnk : forall x n, 0 <= x -> n = 8 \/ n = 16 ->
    0 <= nk x n /\ n * nk x n < x + n /\ x <= n * nk x n).
  { unfold nk. clear. intros x n Hx [-> | ->]; dlia. }
  destruct (Hnk h 16) as (? & ? & ?); [lia|auto|]. destruct (Hnk w 16) as (? & ? & ?); [lia|auto|].
  destruct (Hnk (h `div` 2) 8) as (? & ? & ?); [lia|auto|].
  eapply (plan_run m dom dst src).
  - apply src_mapped.
  - intros k k' Hk Hk' He. f_equal. by apply dst_det.
  - unfold Tile2D_To_YUV420. apply writes_seq.
    + apply writes_for_each with (n := nk h 16); try lia. intros ki Hki.
      apply writes_for_each with (n := nk w 16); try lia. intros kj Hkj.
      rewrite !Z.add_0_l. apply writes_luma_tile; lia.
    + apply writes_for_each with (n := nk (h `div` 2) 8); try lia. intros ki Hki.
      apply writes_for_each with (n := nk w 16); try lia. intros kj Hkj.
      rewrite !Z.add_0_l. apply writes_chroma_tile; lia.
  - intros [[x y]|[b [x y]]] [Hx Hy]; [left|right].
    + destruct (block_of 16 y) as (ki & r & -> & Hr & Hi); [lia|].
      destruct (block_of 16 x) as (kj & c & -> & Hc & Hj); [lia|].
      exists ki. split; [lia|]. exists kj. split; [lia|]. exists r, c. unfold row_len.
      split; [lia|]. split; [lia|done].
    + destruct (block_of 8 y) as (ki & r & -> & Hr & Hi); [lia|].
      destruct (block_of 8 x) as (kj & c & -> & Hc & Hj); [lia|].
      exists ki. split; [lia|]. exists kj. split; [lia|]. exists b, r, c.
      split; [lia|]. split; [lia|done].
Qed.

Lemma yuv_decide a : (exists k, dom k /\ a = dst k) \/ (forall k, dom k -> a <> dst k).
Proof.
  destruct half_width as [Hw _].
  destruct (linear_decide yp w h a) as [(k & Hk & ->)|Hy]; [done|left; by exists (inl k)|].
  destruct (linear_decide up (w `div` 2) (h `div` 2) a) as [(k & Hk & ->)|Hu];
    [lia|left; by exists (inr (false, k))|].
  destruct (linear_decide vp (w `div` 2) (h `div` 2) a) as [(k & Hk & ->)|Hv];
    [lia|left; by exists (inr (true, k))|].
  right. intros [k|[[] k]] Hk; simpl; auto.
Qed.

(** The two [memcpy] converters one after the other carry out the same plan. *)
Lemma memcpy_converters_run :
  h `mod` 2 = 0 ->
  exists m', (csc_tiled_to_linear_y yp ya w h ;!
              csc_tiled_to_linear_uv_deinterleave up vp ca w (h `div` 2)) m = Some (tt, m') /\
    moved dom dst src m m'.
Proof.
  intros He. destruct half_height as [Hhh Hhs].
  assert (Hr : roundup h 2 = h) by (unfold roundup; clear -He; dlia).
  destruct (tiled_to_linear_y_run m yp ya w h) as (m1 & E1 & M1);
    rewrite ?Hr; auto using bytes_mapped.
  rewrite Hr in M1.
  destruct (tiled_to_linear_uv_deinterleave_run m1 w (h `div` 2) up vp ca) as (m2 & E2 & M2);
    eauto using moved_mapped, bytes_mapped; [lia|].
  exists m2. unfold bind. rewrite E1, E2. split; [done|].
  pose proof (moved_seq _ _ _ _ _ _ _ _ _ M1 M2) as M. apply M; clear M.
  - intros k1 k2 H1 H2 Heq. discriminate (dst_det (inl k1) (inr k2) H1 H2 Heq).
  - intros k1 k2 H1 H2 Heq. by apply (dst_src_apart (inl k1) (inr k2)).
Qed.
End frame.


(** ** Theorems *)

(** The buffers of a conversion: a tiled frame of two planes whose addresses fit
    in an [unsigned int], and three output planes, none of them overlapping. *)
Record frame_layout (m : mem) (w h yp up vp ya ca : Z) : Prop := {
  fl_size : 0 <= w /\ 0 <= h /\ (w + 16) * (h + 16) < 2 ^ 31;
  fl_even : w `mod` 2 = 0;
  fl_mapped : mapped m yp (w * h) /\ mapped m up (w `div` 2 * (h `div` 2)) /\
              mapped m vp (w `div` 2 * (h `div` 2));
  fl_bytes : bytes m ya (tiled_size 16 w h) /\ bytes m ca (tiled_size 8 w (h `div` 2));
  fl_addr : (0 <= ya /\ ya + tiled_size 16 w h < 2 ^ 32) /\
            (0 <= ca /\ ca + tiled_size 8 w (h `div` 2) < 2 ^ 32);
  fl_outputs : apart yp (w * h) up (w `div` 2 * (h `div` 2)) /\
               apart yp (w * h) vp (w `div` 2 * (h `div` 2)) /\
               apart up (w `div` 2 * (h `div` 2)) vp (w `div` 2 * (h `div` 2));
  fl_y : apart yp (w * h) ya (tiled_size 16 w h) /\ apart yp (w * h) ca (tiled_size 8 w (h `div` 2));
  fl_u : apart up (w `div` 2 * (h `div` 2)) ya (tiled_size 16 w h) /\
         apart up (w `div` 2 * (h `div` 2)) ca (tiled_size 8 w (h `div` 2));
  fl_v : apart vp (w `div` 2 * (h `div` 2)) ya (tiled_size 16 w h) /\
         apart vp (w `div` 2 * (h `div` 2)) ca (tiled_size 8 w (h `div` 2))
}.

Ltac use_layout H :=
  destruct H as [(? & ? & ?) ? (? & ? & ?) [? ?] [? ?] (? & ? & ?) [? ?] [? ?] [? ?]].

(** C38.  [Tile2D_To_YUV420] ends without a fault (no word read leaves the tiled
    frame, no byte written leaves the planes), every luma byte, every Cb and every
    Cr byte of the planes is the one [Tile2D_To_Linear] locates in the tiled
    frame, and nothing else changes. *)
Theorem Tile2D_To_YUV420_correct m w h yp up vp ya ca :
  frame_layout m w h yp up vp ya ca ->
  exists m', Tile2D_To_YUV420 yp up vp ya ca w h m = Some (tt, m') /\
    (forall x y, 0 <= x < w -> 0 <= y < h ->
       m' !! (yp + (w * y + x)) = m !! (ya + Tile2D_To_Linear w h x y 0)) /\
    (forall x y, 0 <= x < w `div` 2 -> 0 <= y < h `div` 2 ->
       m' !! (up + (w `div` 2 * y + x)) = m !! (ca + Tile2D_To_Linear w (h `div` 2) (2 * x) y 1) /\
       m' !! (vp + (w `div` 2 * y + x)) = m !! (ca + Tile2D_To_Linear w (h `div` 2) (2 * x + 1) y 1)) /\
    (forall a, ~ (yp <= a < yp + w * h) ->
       ~ (up <= a < up + w `div` 2 * (h `div` 2)) -> ~ (vp <= a < vp + w `div` 2 * (h `div` 2)) ->
       m' !! a = m !! a).
Proof.
  intros HL. use_layout HL.
  destruct (Tile2D_To_YUV420_run m w h yp up vp ya ca) as (m' & E & M1 & M2 & _); [done..|].
  exists m'. split; [done|]. split; [|split].
  - intros x y Hx Hy. exact (M1 (inl (x, y)) (conj Hx Hy)).
  - intros x y Hx Hy. split.
    + pose proof (M1 (inr (false, (x, y))) (conj Hx Hy)) as M. simpl in M. by rewrite Z.add_0_r in M.
    + exact (M1 (inr (true, (x, y))) (conj Hx Hy)).
  - intros a Hy Hu Hv. apply M2. intros k Hk ->.
    pose proof (dst_in w h yp up vp k Hk) as Hd. destruct k as [k|[[] k]]; tauto.
Qed.

(** C39.  The word-wise converter and the two [memcpy] converters leave exactly the
    same memory. *)
Theorem Tile2D_To_YUV420_equivalent m w h yp up vp ya ca :
  frame_layout m w h yp up vp ya ca -> h `mod` 2 = 0 ->
  exists m', Tile2D_To_YUV420 yp up vp ya ca w h m = Some (tt, m') /\
    (csc_tiled_to_linear_y yp ya w h ;!
     csc_tiled_to_linear_uv_deinterleave up vp ca w (h `div` 2)) m = Some (tt, m').
Proof.
  intros HL He. use_layout HL.
  destruct (Tile2D_To_YUV420_run m w h yp up vp ya ca) as (m1 & E1 & M1); [done..|].
  destruct (memcpy_converters_run m w h yp up vp ya ca) as (m2 & E2 & M2); [done..|].
  exists m1. split; [done|]. rewrite E2. do 2 f_equal.
  eapply moved_unique; [|exact M2|exact M1]. by apply yuv_decide.
Qed.

(** A 2x2 frame: luma tile at 0, chroma tile at 256, planes from 1000 on. *)
Definition small_frame : mem :=
  fill 4 1000 (fun _ => 0) (fill 1 2000 (fun _ => 0) (fill 1 3000 (fun _ => 0)
    (fill 384 0 (fun k => k `mod` 256) ∅))).

Lemma small_frame_layout : frame_layout small_frame 2 2 1000 2000 3000 0 256.
Proof.
  assert (Hb : bytes small_frame 0 384).
  { unfold small_frame. do 3 (apply bytes_fill_other; [right; lia|]). apply (bytes_fill 384).
    intros k _. apply Z.mod_pos_bound. lia. }
  split.
  - lia.
  - done.
  - split; [apply (mapped_fill 4)|]. split; apply mapped_fill_other; [apply (mapped_fill 1)|].
    apply mapped_fill_other, (mapped_fill 1).
  - split; intros k Hk; [apply (Hb k)|replace (256 + k) with (0 + (256 + k)) by lia; apply Hb].
    + change (tiled_size 16 2 2) with 256 in Hk. lia.
    + change (tiled_size 8 2 (2 `div` 2)) with 128 in Hk. lia.
  - vm_compute. intuition discriminate.
  - split; [|split]; left; vm_compute; discriminate.
  - split; right; vm_compute; discriminate.
  - split; right; vm_compute; discriminate.
  - split; right; vm_compute; discriminate.
Qed.

Lemma Tile2D_To_YUV420_correct_witness :
  exists m', Tile2D_To_YUV420 1000 2000 3000 0 256 2 2 small_frame = Some (tt, m') /\
    (forall x y, 0 <= x < 2 -> 0 <= y < 2 ->
       m' !! (1000 + (2 * y + x)) = small_frame !! (0 + Tile2D_To_Linear 2 2 x y 0)) /\
    (forall x y, 0 <= x < 2 `div` 2 -> 0 <= y < 2 `div` 2 ->
       m' !! (2000 + (2 `div` 2 * y + x)) =
         small_frame !! (256 + Tile2D_To_Linear 2 (2 `div` 2) (2 * x) y 1) /\
       m' !! (3000 + (2 `div` 2 * y + x)) =
         small_frame !! (256 + Tile2D_To_Linear 2 (2 `div` 2) (2 * x + 1) y 1)) /\
    (forall a, ~ (1000 <= a < 1000 + 2 * 2) ->
       ~ (2000 <= a < 2000 + 2 `div` 2 * (2 `div` 2)) -> ~ (3000 <= a < 3000 + 2 `div` 2 * (2 `div` 2)) ->
       m' !! a = small_frame !! a).
Proof. apply (Tile2D_To_YUV420_correct small_frame), small_frame_layout. Defined.

Lemma Tile2D_To_YUV420_equivalent_witness :
  exists m', Tile2D_To_YUV420 1000 2000 3000 0 256 2 2 small_frame = Some (tt, m') /\
    (csc_tiled_to_linear_y 1000 0 2 2 ;!
     csc_tiled_to_linear_uv_deinterleave 2000 3000 256 2 (2 `div` 2)) small_frame = Some (tt, m').
Proof. apply (Tile2D_To_YUV420_equivalent small_frame); [apply small_frame_layout|done]. Defined.
