(* ===== verification/Rgb.v ===== *)
(** * RGB to YUV420 converters

    The six software converters at the end of
    [src/libswconverter/swconvertor.c]: RGB565, BGRA8888 and RGBA8888 frames to
    YUV420P (three planes) and YUV420SP (luma and interleaved chroma), in the C
    code of a build without [NEON_SUPPORT]. *)

From S2P Require Import Prelude CMem.

(** ** Operations *)

(** The colour computation, on [unsigned int]; the negative coefficients make
    the chroma sums wrap around. *)
Definition rgb_Y (R G B : Z) : Z :=
  let Y := (66 ^* R) ^+ (129 ^* G) ^+ (25 ^* B) ^+ 128 in
  let Y := Y ≫ 8 in
  Y ^+ 16.
Definition rgb_U (R G B : Z) : Z :=
  let U := (u32 (-38) ^* R) ^- (74 ^* G) ^+ (112 ^* B) ^+ 128 in
  let U := U ≫ 8 in
  U ^+ 128.
Definition rgb_V (R G B : Z) : Z :=
  let V := (112 ^* R) ^- (94 ^* G) ^- (18 ^* B) ^+ 128 in
  let V := V ≫ 8 in
  V ^+ 128.

(** A result of [int] arithmetic; overflow is undefined behaviour. *)
Definition sint (z : Z) : M Z := if (- 2 ^ 31 <=? z) && (z <? 2 ^ 31) then ret z else fault.

(** [for (int i = 0; i < hi; i++)]. *)
Definition for_int {S} (hi : Z) (s : S) (body : Z -> S -> M S) : M (Z * S) :=
  for_loop (Z.to_nat hi) (fun i => i <? hi) (fun i => i + 1) body 0 s.

Definition csc_RGB565_to_YUV420P (y_dst u_dst v_dst rgb_src width height : Z) : M unit :=
  let! offset1 := sint (width * height) in
  let! offset2 := sint (width ÷ 2 * height) in
  for_int height (0, (0, 0)) (fun j st =>
    let! r := for_int width st (fun i '(yIndex, (uIndex, vIndex)) =>
      let! t := sint (j * width) in
      let! t := sint (t + i) in
      let! tmp := load16 (rgb_src + 2 * t) in
      let R := Z.land tmp 0x0000F800 ≫ 8 in
      let G := Z.land tmp 0x000007E0 ≫ 3 in
      let B := Z.land tmp 0x0000001F in
      let B := B ^<< 3 in
      store8 (y_dst + yIndex) (rgb_Y R G B) ;!
      let yIndex := yIndex ^+ 1 in
      if (j `mod` 2 =? 0) && (i `mod` 2 =? 0) then
        store8 (u_dst + uIndex) (rgb_U R G B) ;!
        store8 (v_dst + vIndex) (rgb_V R G B) ;!
        ret (yIndex, (uIndex ^+ 1, vIndex ^+ 1))
      else ret (yIndex, (uIndex, vIndex))) in
    ret (snd r)) ;!
  ret tt.

Definition csc_RGB565_to_YUV420SP (y_dst uv_dst rgb_src width height : Z) : M unit :=
  let! offset := sint (width * height) in
  for_int height (0, 0) (fun j st =>
    let! r := for_int width st (fun i '(yIndex, uvIndex) =>
      let! t := sint (j * width) in
      let! t := sint (t + i) in
      let! tmp := load16 (rgb_src + 2 * t) in
      let R := Z.land tmp 0x0000F800 ≫ 11 in
      let R := R ^* 8 in
      let G := Z.land tmp 0x000007E0 ≫ 5 in
      let G := G ^* 4 in
      let B := Z.land tmp 0x0000001F in
      let B := B ^* 8 in
      store8 (y_dst + yIndex) (rgb_Y R G B) ;!
      let yIndex := yIndex ^+ 1 in
      if (j `mod` 2 =? 0) && (i `mod` 2 =? 0) then
        store8 (uv_dst + uvIndex) (rgb_U R G B) ;!
        let uvIndex := uvIndex ^+ 1 in
        store8 (uv_dst + uvIndex) (rgb_V R G B) ;!
        ret (yIndex, uvIndex ^+ 1)
      else ret (yIndex, uvIndex)) in
    ret (snd r)) ;!
  ret tt.

Definition csc_BGRA8888_to_YUV420P (y_dst u_dst v_dst rgb_src width height : Z) : M unit :=
  for_u 0 height 1 (0, (0, 0)) (fun j st =>
    let! r := for_u 0 width 1 st (fun i '(yIndex, (uIndex, vIndex)) =>
      let! tmp := load32 (rgb_src + 4 * ((j ^* width) ^+ i)) in
      let R := Z.land tmp 0x00FF0000 ≫ 16 in
      let G := Z.land tmp 0x0000FF00 ≫ 8 in
      let B := Z.land tmp 0x000000FF in
      store8 (y_dst + yIndex) (rgb_Y R G B) ;!
      let yIndex := yIndex ^+ 1 in
      if (j `mod` 2 =? 0) && (i `mod` 2 =? 0) then
        store8 (u_dst + uIndex) (rgb_U R G B) ;!
        store8 (v_dst + vIndex) (rgb_V R G B) ;!
        ret (yIndex, (uIndex ^+ 1, vIndex ^+ 1))
      else ret (yIndex, (uIndex, vIndex))) in
    ret (snd r)) ;!
  ret tt.

Definition csc_RGBA8888_to_YUV420P (y_dst u_dst v_dst rgb_src width height : Z) : M unit :=
  for_u 0 height 1 (0, (0, 0)) (fun j st =>
    let! r := for_u 0 width 1 st (fun i '(yIndex, (uIndex, vIndex)) =>
      let! tmp := load32 (rgb_src + 4 * ((j ^* width) ^+ i)) in
      let B := Z.land tmp 0x00FF0000 ≫ 16 in
      let G := Z.land tmp 0x0000FF00 ≫ 8 in
      let R := Z.land tmp 0x000000FF in
      store8 (y_dst + yIndex) (rgb_Y R G B) ;!
      let yIndex := yIndex ^+ 1 in
      if (j `mod` 2 =? 0) && (i `mod` 2 =? 0) then
        store8 (u_dst + uIndex) (rgb_U R G B) ;!
        store8 (v_dst + vIndex) (rgb_V R G B) ;!
        ret (yIndex, (uIndex ^+ 1, vIndex ^+ 1))
      else ret (yIndex, (uIndex, vIndex))) in
    ret (snd r)) ;!
  ret tt.

Definition csc_BGRA8888_to_YUV420SP (y_dst uv_dst rgb_src width height : Z) : M unit :=
  for_u 0 height 1 (0, 0) (fun j st =>
    let! r := for_u 0 width 1 st (fun i '(yIndex, uvIndex) =>
      let! tmp := load32 (rgb_src + 4 * ((j ^* width) ^+ i)) in
      let R := Z.land tmp 0x00FF0000 ≫ 16 in
      let G := Z.land tmp 0x0000FF00 ≫ 8 in
      let B := Z.land tmp 0x000000FF in
      store8 (y_dst + yIndex) (rgb_Y R G B) ;!
      let yIndex := yIndex ^+ 1 in
      if (j `mod` 2 =? 0) && (i `mod` 2 =? 0) then
        store8 (uv_dst + uvIndex) (rgb_U R G B) ;!
        let uvIndex := uvIndex ^+ 1 in
        store8 (uv_dst + uvIndex) (rgb_V R G B) ;!
        ret (yIndex, uvIndex ^+ 1)
      else ret (yIndex, uvIndex)) in
    ret (snd r)) ;!
  ret tt.

Definition csc_RGBA8888_to_YUV420SP (y_dst uv_dst rgb_src width height : Z) : M unit :=
  for_u 0 height 1 (0, 0) (fun j st =>
    let! r := for_u 0 width 1 st (fun i '(yIndex, uvIndex) =>
      let! tmp := load32 (rgb_src + 4 * ((j ^* width) ^+ i)) in
      let B := Z.land tmp 0x00FF0000 ≫ 16 in
      let G := Z.land tmp 0x0000FF00 ≫ 8 in
      let R := Z.land tmp 0x000000FF in
      store8 (y_dst + yIndex) (rgb_Y R G B) ;!
      let yIndex := yIndex ^+ 1 in
      if (j `mod` 2 =? 0) && (i `mod` 2 =? 0) then
        store8 (uv_dst + uvIndex) (rgb_U R G B) ;!
        let uvIndex := uvIndex ^+ 1 in
        store8 (uv_dst + uvIndex) (rgb_V R G B) ;!
        ret (yIndex, uvIndex ^+ 1)
      else ret (yIndex, uvIndex)) in
    ret (snd r)) ;!
  ret tt.

(** ** Reference: channels and colour matrix *)

Inductive rgb_format := RGB565 | BGRA8888 | RGBA8888.

#[export] Instance rgb_format_eq_dec : EqDecision rgb_format.
Proof. solve_decision. Defined.

(** Bytes per pixel. *)
Definition pixel_size (f : rgb_format) : nat := match f with RGB565 => 2 | _ => 4 end.

(** Red, green and blue of a pixel word, each in [0, 255]. *)
Definition channels (f : rgb_format) (p : Z) : Z * Z * Z :=
  match f with
  | RGB565 => ((p `div` 2048) `mod` 32 * 8, (p `div` 32) `mod` 64 * 4, p `mod` 32 * 8)
  | BGRA8888 => ((p `div` 65536) `mod` 256, (p `div` 256) `mod` 256, p `mod` 256)
  | RGBA8888 => (p `mod` 256, (p `div` 256) `mod` 256, (p `div` 65536) `mod` 256)
  end.

(** The colour matrix over the integers, rounding down. *)
Definition luma : Z * Z * Z -> Z := fun '(R, G, B) => (66 * R + 129 * G + 25 * B + 128) `div` 256 + 16.
Definition cb : Z * Z * Z -> Z := fun '(R, G, B) => (112 * B - 38 * R - 74 * G + 128) `div` 256 + 128.
Definition cr : Z * Z * Z -> Z := fun '(R, G, B) => (112 * R - 94 * G - 18 * B + 128) `div` 256 + 128.

Definition rgb_ok : Z * Z * Z -> Prop :=
  fun '(R, G, B) => (0 <= R < 256 /\ 0 <= G < 256 /\ 0 <= B < 256).

Lemma channels_ok f p : rgb_ok (channels f p).
Proof. destruct f; simpl; repeat split; dlia. Qed.

(** The wrapped-around sums give the bytes of the integer matrix. *)
Lemma rgb_Y_luma c : rgb_ok c -> u8 (let '(R, G, B) := c in rgb_Y R G B) = luma c.
Proof.
  destruct c as [[R G] B]. intros (HR & HG & HB). unfold rgb_Y, luma, u8.
  change (2 ^ 8) with 256. cbv zeta. shifts.
  rewrite (u32_small (66 * R)), (u32_small (129 * G)), (u32_small (25 * B)) by lia.
  rewrite (u32_small (66 * R + 129 * G)) by lia.
  rewrite (u32_small (_ + 25 * B)), (u32_small (_ + 128)) by lia.
  rewrite u32_small by dlia. apply Z.mod_small. dlia.
Qed.

Lemma u32_neg z : - 2 ^ 32 <= z < 0 -> u32 z = z + 2 ^ 32.
Proof. intros Hz. unfold u32. symmetry. apply (Zmod_unique _ _ (-1)); lia. Qed.

Lemma u32_chroma z : - 2 ^ 31 <= z < 2 ^ 31 - 256 * 256 -> u8 ((u32 z `div` 256) ^+ 128) = (z `div` 256 + 128) `mod` 256.
Proof.
  intros Hz. unfold u8. change (2 ^ 8) with 256. destruct (Z.lt_ge_cases z 0).
  - rewrite (u32_neg z) by lia. change (z + 2 ^ 32) with (z + 2 ^ 24 * 256). rewrite Z.div_add by lia.
    assert (- 2 ^ 23 <= z `div` 256 < 0) by (clear -Hz H; dlia).
    rewrite u32_small by lia.
    replace (z `div` 256 + 2 ^ 24 + 128) with (z `div` 256 + 128 + 2 ^ 16 * 256) by lia.
    by rewrite Z.mod_add.
  - rewrite (u32_small z) by lia. by rewrite u32_small by dlia.
Qed.

(** Only the outermost wrap-around of a sum matters. *)
Lemma u32_u32 a : u32 (u32 a) = u32 a.
Proof. apply Zmod_mod. Qed.
Lemma u32_plus a a' b b' : u32 a = u32 a' -> u32 b = u32 b' -> u32 (a + b) = u32 (a' + b').
Proof. unfold u32. intros Ha Hb. by rewrite Zplus_mod, Ha, Hb, <- Zplus_mod. Qed.
Lemma u32_minus a a' b b' : u32 a = u32 a' -> u32 b = u32 b' -> u32 (a - b) = u32 (a' - b').
Proof. unfold u32. intros Ha Hb. by rewrite Zminus_mod, Ha, Hb, <- Zminus_mod. Qed.
Lemma u32_times a a' b b' : u32 a = u32 a' -> u32 b = u32 b' -> u32 (a * b) = u32 (a' * b').
Proof. unfold u32. intros Ha Hb. by rewrite Zmult_mod, Ha, Hb, <- Zmult_mod. Qed.

Ltac unwrap :=
  repeat (rewrite ?u32_u32; try reflexivity;
    match goal with
    | |- u32 (_ + _) = u32 (_ + _) => apply u32_plus
    | |- u32 (_ - _) = u32 (_ - _) => apply u32_minus
    | |- u32 (_ * _) = u32 (_ * _) => apply u32_times
    end).

Lemma rgb_U_cb c : rgb_ok c -> u8 (let '(R, G, B) := c in rgb_U R G B) = cb c.
Proof.
  destruct c as [[R G] B]. intros (HR & HG & HB). unfold rgb_U, cb. cbv zeta. shifts.
  replace (112 * B - 38 * R - 74 * G + 128) with (- 38 * R - 74 * G + 112 * B + 128) by lia.
  transitivity (u8 ((u32 (- 38 * R - 74 * G + 112 * B + 128) `div` 256) ^+ 128)).
  - do 4 f_equal. unwrap.
  - rewrite u32_chroma by lia. apply Z.mod_small. dlia.
Qed.

Lemma rgb_V_cr c : rgb_ok c -> u8 (let '(R, G, B) := c in rgb_V R G B) = cr c.
Proof.
  destruct c as [[R G] B]. intros (HR & HG & HB). unfold rgb_V, cr. cbv zeta. shifts.
  transitivity (u8 ((u32 (112 * R - 94 * G - 18 * B + 128) `div` 256) ^+ 128)).
  - do 4 f_equal. unwrap.
  - rewrite u32_chroma by lia. apply Z.mod_small. dlia.
Qed.

(** ** The common loop nest

    [rgb_nest] is the two loops with the loop construct, the access to the chroma
    indices, the pixel read, the channel extraction and the chroma output as
    parameters. *)

Definition rgb_nest {S} (loop : Z -> Z * S -> (Z -> Z * S -> M (Z * S)) -> M (Z * (Z * S)))
    (open : S -> (S -> M (Z * S)) -> M (Z * S))
    (pixel : Z -> Z -> (Z -> M (Z * S)) -> M (Z * S)) (R G B : Z -> Z) (y_dst : Z)
    (emit : Z -> Z -> Z -> S -> M (Z * S)) (c0 : S) (width height : Z) : M unit :=
  loop height (0, c0) (fun j st =>
    let! r := loop width st (fun i '(yIndex, c) => open c (fun c =>
      pixel j i (fun tmp =>
        let R := R tmp in
        let G := G tmp in
        let B := B tmp in
        store8 (y_dst + yIndex) (rgb_Y R G B) ;!
        let yIndex := yIndex ^+ 1 in
        if (j `mod` 2 =? 0) && (i `mod` 2 =? 0) then emit (rgb_U R G B) (rgb_V R G B) yIndex c
        else ret (yIndex, c)))) in
    ret (snd r)) ;!
  ret tt.

Definition open_planar (c : Z * Z) (k : Z * Z -> M (Z * (Z * Z))) : M (Z * (Z * Z)) :=
  let '(uIndex, vIndex) := c in k (uIndex, vIndex).
Definition open_pairs (c : Z) (k : Z -> M (Z * Z)) : M (Z * Z) := k c.

Definition emit_planar (u_dst v_dst U V yIndex : Z) : Z * Z -> M (Z * (Z * Z)) :=
  fun '(uIndex, vIndex) =>
    store8 (u_dst + uIndex) U ;! store8 (v_dst + vIndex) V ;!
    ret (yIndex, (uIndex ^+ 1, vIndex ^+ 1)).
Definition emit_pairs (uv_dst U V yIndex uvIndex : Z) : M (Z * Z) :=
  store8 (uv_dst + uvIndex) U ;!
  let uvIndex := uvIndex ^+ 1 in
  store8 (uv_dst + uvIndex) V ;! ret (yIndex, uvIndex ^+ 1).

Section nest.
Context (m0 : mem) (V : Z -> Z -> Prop).
Abbreviation writes := (writes m0 V).
Context {S : Type} (loop : Z -> Z * S -> (Z -> Z * S -> M (Z * S)) -> M (Z * (Z * S))).
Context (open : S -> (S -> M (Z * S)) -> M (Z * S)).
Context (pixel : Z -> Z -> (Z -> M (Z * S)) -> M (Z * S)) (R G B : Z -> Z) (y_dst : Z).
Context (emit : Z -> Z -> Z -> S -> M (Z * S)) (cs : Z -> S) (ccov : Z -> Z -> Prop).
Context (w h : Z) (px : Z -> Z) (w_nonneg : 0 <= w) (h_nonneg : 0 <= h) (size : (w + 1) * (h + 1) < 2 ^ 31).

Context (loop_ok : forall n st body C, 0 <= n < 2 ^ 31 ->
  (forall k, 0 <= k < n -> writes (body k (st k)) (st (k + 1)) (C k)) ->
  writes (loop n (st 0) body) (n, st n) (fun a => exists k, 0 <= k < n /\ C k a)).
Context (open_ok : forall n k, open (cs n) k = k (cs n)).
Context (pixel_ok : forall j i k r C, 0 <= j < h -> 0 <= i < w ->
  writes (k (px (w * j + i))) r C -> writes (pixel j i k) r C).

(** Chroma columns, and chroma samples written before pixel [(i, j)]. *)
Definition cw : Z := (w + 1) `div` 2.
Definition ch : Z := (h + 1) `div` 2.
Definition samples (j i : Z) : Z :=
  cw * ((j + 1) `div` 2) + if j `mod` 2 =? 0 then (i + 1) `div` 2 else 0.

Definition word (x y : Z) : Z := px (w * y + x).
Context (luma_ok : forall x y, 0 <= x < w -> 0 <= y < h ->
  is_Some (m0 !! (y_dst + (w * y + x))) /\
  V (y_dst + (w * y + x)) (u8 (rgb_Y (R (word x y)) (G (word x y)) (B (word x y))))).
Context (emit_ok : forall x y yI, 0 <= x < cw -> 0 <= y < ch ->
  let t := word (2 * x) (2 * y) in
  writes (emit (rgb_U (R t) (G t) (B t)) (rgb_V (R t) (G t) (B t)) yI (cs (cw * y + x)))
    (yI, cs (cw * y + x + 1)) (ccov (cw * y + x))).

Lemma samples_row j : 0 <= j -> samples j w = samples (j + 1) 0.
Proof.
  intros Hj. unfold samples, cw.
  destruct (Z.eqb_spec (j `mod` 2) 0) as [E|E]; destruct (Z.eqb_spec ((j + 1) `mod` 2) 0) as [E'|E'];
    try (exfalso; clear -E E'; dlia).
  - replace ((j + 1 + 1) `div` 2) with ((j + 1) `div` 2 + 1) by (clear -E; dlia). 
    change ((0 + 1) `div` 2) with 0. lia.
  - replace ((j + 1 + 1) `div` 2) with ((j + 1) `div` 2) by (clear -E; dlia).
    change ((0 + 1) `div` 2) with 0. lia.
Qed.

Lemma writes_pixel j i : 0 <= j < h -> 0 <= i < w ->
  writes
    (pixel j i (fun tmp =>
      let R := R tmp in
      let G := G tmp in
      let B := B tmp in
      store8 (y_dst + (w * j + i)) (rgb_Y R G B) ;!
      let yIndex := (w * j + i) ^+ 1 in
      if (j `mod` 2 =? 0) && (i `mod` 2 =? 0)
      then emit (rgb_U R G B) (rgb_V R G B) yIndex (cs (samples j i))
      else ret (yIndex, cs (samples j i))))
    (w * j + (i + 1), cs (samples j (i + 1)))
    (fun a => a = y_dst + (w * j + i) \/
       (j `mod` 2 = 0 /\ i `mod` 2 = 0 /\ ccov (cw * (j `div` 2) + i `div` 2) a)).
Proof.
  intros Hj Hi. pose proof (rect_lt w h i j Hi Hj) as Hl.
  apply pixel_ok; [done|done|]. cbv zeta. rewrite u32_small by nia.
  destruct (luma_ok i j Hi Hj) as [Hm HV].
  eapply writes_weaken.
  { eapply (writes_seq _ _ _ _ _ _ (fun a => j `mod` 2 = 0 /\ i `mod` 2 = 0 /\
      ccov (cw * (j `div` 2) + i `div` 2) a)); [by apply writes_store8|].
    replace (w * j + (i + 1)) with (w * j + i + 1) by lia. unfold samples.
    destruct (Z.eqb_spec (j `mod` 2) 0) as [Ej|Ej]; simpl.
    - destruct (Z.eqb_spec (i `mod` 2) 0) as [Ei|Ei].
      + assert (0 <= i `div` 2 < cw /\ 0 <= j `div` 2 < ch) as [Hx Hy].
        { unfold cw, ch. clear -Ei Ej Hi Hj. split; dlia. }
        pose proof (emit_ok (i `div` 2) (j `div` 2) (w * j + i + 1) Hx Hy) as He. cbv zeta in He.
        replace (2 * (i `div` 2)) with i in He by (clear -Ei; dlia).
        replace (2 * (j `div` 2)) with j in He by (clear -Ej; dlia).
        replace ((j + 1) `div` 2) with (j `div` 2) by (clear -Ej; dlia).
        replace ((i + 1) `div` 2) with (i `div` 2) by (clear -Ei; dlia).
        replace ((i + 1 + 1) `div` 2) with (i `div` 2 + 1) by (clear -Ei; dlia).
        rewrite Z.add_assoc. eapply writes_weaken; [exact He|]. tauto.
      + replace ((i + 1 + 1) `div` 2) with ((i + 1) `div` 2) by (clear -Ei; dlia).
        eapply writes_weaken; [apply writes_ret|]. tauto.
    - eapply writes_weaken; [apply writes_ret|]. tauto. }
  done.
Qed.

Lemma writes_rgb_nest :
  writes (rgb_nest loop open pixel R G B y_dst emit (cs 0) w h) tt
    (fun a => (exists x y, 0 <= x < w /\ 0 <= y < h /\ a = y_dst + (w * y + x)) \/
              (exists x y, 0 <= x < cw /\ 0 <= y < ch /\ ccov (cw * y + x) a)).
Proof.
  assert (w < 2 ^ 31 /\ h < 2 ^ 31) as [Hw Hh] by nia.
  unfold rgb_nest. eapply writes_weaken.
  { eapply (writes_bind _ _ _ _ (h, (w * h, cs (samples h 0)))); [|apply writes_ret].
    replace (0, cs 0) with (w * 0, cs (samples 0 0)).
    2: { unfold samples. change ((0 + 1) `div` 2) with 0. change (0 `mod` 2 =? 0) with true.
         f_equal; [|f_equal]; lia. }
    apply (loop_ok h (fun j => (w * j, cs (samples j 0))) _ (fun j a => exists i, 0 <= i < w /\
      (a = y_dst + (w * j + i) \/
       (j `mod` 2 = 0 /\ i `mod` 2 = 0 /\ ccov (cw * (j `div` 2) + i `div` 2) a)))); [lia|].
    intros j Hj. eapply writes_weaken.
    { eapply (writes_bind _ _ _ _ (w, (w * j + w, cs (samples j w)))).
      - pose proof (loop_ok w (fun i => (w * j + i, cs (samples j i)))) as HL. cbv beta in HL.
        rewrite Z.add_0_r in HL. apply HL; [lia|]. intros i Hi.
        rewrite open_ok. by apply writes_pixel.
      - simpl. rewrite samples_row by lia. replace (w * j + w) with (w * (j + 1)) by lia.
        apply writes_ret. }
    intros a Ha. by left. }
  intros a [(x & y & Hx & Hy & ->)|(x & y & Hx & Hy & HC)]; left.
  - exists y. split; [done|]. exists x. auto.
  - unfold cw, ch in *. exists (2 * y). split; [clear -Hy; dlia|]. exists (2 * x).
    split; [clear -Hx; dlia|]. right. rewrite !(Z.mul_comm 2), !Z.mod_mul, !Z.div_mul by done. done.
Qed.
End nest.

(** ** The parameters of the six converters *)

Lemma land_shifted p m k : 0 <= k -> Z.land p (m ≪ k) = Z.land (p ≫ k) m ≪ k.
Proof.
  intros Hk. apply Z.bits_inj'. intros n Hn. rewrite Z.land_spec, !Z.shiftl_spec by done.
  destruct (Z.lt_ge_cases n k).
  - rewrite !(Z.testbit_neg_r _ (n - k)) by lia. apply andb_false_r.
  - rewrite Z.land_spec, Z.shiftr_spec by lia. by replace (n - k + k) with n by lia.
Qed.

(** A field of a pixel word: masked in place, then shifted down. *)
Lemma field_shr p m k : 0 <= k -> Z.land p (m ≪ k) ≫ k = Z.land (p ≫ k) m.
Proof. intros Hk. rewrite land_shifted by done. by rewrite Z.shiftr_shiftl_l, Z.sub_diag, Z.shiftl_0_r. Qed.

Lemma channels_BGRA8888 p :
  (Z.land p 0x00FF0000 ≫ 16, Z.land p 0x0000FF00 ≫ 8, Z.land p 0x000000FF) = channels BGRA8888 p.
Proof.
  change 0x00FF0000 with (0xff ≪ 16). rewrite (field_shr p 0xff 16) by lia.
  change 0x0000FF00 with (0xff ≪ 8). rewrite (field_shr p 0xff 8) by lia. by bits.
Qed.

Lemma channels_RGBA8888 p :
  (Z.land p 0x000000FF, Z.land p 0x0000FF00 ≫ 8, Z.land p 0x00FF0000 ≫ 16) = channels RGBA8888 p.
Proof. pose proof (channels_BGRA8888 p) as E. simpl in *. congruence. Qed.

Lemma channels_RGB565_P p :
  (Z.land p 0x0000F800 ≫ 8, Z.land p 0x000007E0 ≫ 3, Z.land p 0x0000001F ^<< 3) = channels RGB565 p.
Proof.
  change 0x0000F800 with (0x1f ≪ 11). change 0x000007E0 with (0x3f ≪ 5).
  rewrite !land_shifted, !Z.shiftr_shiftl_l by lia. simpl (11 - 8). simpl (5 - 3). bits.
  rewrite u32_small by dlia. done.
Qed.

Lemma channels_RGB565_SP p :
  ((Z.land p 0x0000F800 ≫ 11) ^* 8, (Z.land p 0x000007E0 ≫ 5) ^* 4, Z.land p 0x0000001F ^* 8) =
  channels RGB565 p.
Proof.
  change 0x0000F800 with (0x1f ≪ 11). rewrite (field_shr p 0x1f 11) by lia.
  change 0x000007E0 with (0x3f ≪ 5). rewrite (field_shr p 0x3f 5) by lia. bits.
  rewrite !u32_small by dlia. done.
Qed.

Section parameters.
Context (m0 : mem) (V : Z -> Z -> Prop).
Abbreviation writes := (writes m0 V).

Lemma writes_for_unsigned {S} n (st : Z -> S) body C : 0 <= n < 2 ^ 31 ->
  (forall k, 0 <= k < n -> writes (body k (st k)) (st (k + 1)) (C k)) ->
  writes (for_u 0 n 1 (st 0) body) (n, st n) (fun a => exists k, 0 <= k < n /\ C k a).
Proof.
  intros Hn Hb. pose proof (writes_for_u m0 V 0 n 1 body st C n) as H.
  replace (0 + 1 * n) with n in H by lia. apply H; try lia. intros k Hk.
  replace (0 + 1 * k) with k by lia. by apply Hb.
Qed.

Lemma writes_for_int {S} n (st : Z -> S) body C : 0 <= n < 2 ^ 31 ->
  (forall k, 0 <= k < n -> writes (body k (st k)) (st (k + 1)) (C k)) ->
  writes (for_int n (st 0) body) (n, st n) (fun a => exists k, 0 <= k < n /\ C k a).
Proof.
  intros Hn Hb. apply (writes_for_loop m0 V _ _ _ body (fun k => k) st C n 0); [lia|lia| | |done].
  - intros k Hk. by rewrite (proj2 (Z.ltb_lt k n)) by lia.
  - apply Z.ltb_irrefl.
Qed.

Lemma writes_after {A B} (p : M A) (k : A -> M B) v r C :
  writes p v (fun _ => False) -> writes (k v) r C -> writes (bind p k) r C.
Proof. intros Hp Hk. eapply writes_weaken; [by eapply writes_bind|]. intros a Ha. by right. Qed.

Lemma writes_sint z : - 2 ^ 31 <= z < 2 ^ 31 -> writes (sint z) z (fun _ => False).
Proof.
  intros Hz. unfold sint. rewrite (proj2 (Z.leb_le _ _)), (proj2 (Z.ltb_lt _ _)) by lia.
  apply writes_ret.
Qed.

Lemma writes_emit_planar u v U W y n :
  0 <= n < 2 ^ 31 -> is_Some (m0 !! (u + n)) -> is_Some (m0 !! (v + n)) ->
  V (u + n) (u8 U) -> V (v + n) (u8 W) ->
  writes (emit_planar u v U W y (n, n)) (y, (n + 1, n + 1)) (fun a => a = u + n \/ a = v + n).
Proof.
  intros Hn Hu Hv HU HW. unfold emit_planar. eapply writes_weaken.
  { eapply writes_seq; [by apply writes_store8|]. eapply writes_seq; [by apply writes_store8|].
    rewrite u32_small by lia. apply writes_ret. }
  simpl. tauto.
Qed.

Lemma writes_emit_pairs uv U W y n :
  0 <= n < 2 ^ 31 -> is_Some (m0 !! (uv + 2 * n)) -> is_Some (m0 !! (uv + (2 * n + 1))) ->
  V (uv + 2 * n) (u8 U) -> V (uv + (2 * n + 1)) (u8 W) -> 2 * n + 2 < 2 ^ 32 ->
  writes (emit_pairs uv U W y (2 * n)) (y, 2 * (n + 1)) (fun a => a = uv + 2 * n \/ a = uv + (2 * n + 1)).
Proof.
  intros Hn Hu Hv HU HW Hb. unfold emit_pairs. eapply writes_weaken.
  { eapply writes_seq; [by apply writes_store8|]. cbv zeta. rewrite (u32_small (2 * n + 1)) by lia.
    eapply writes_seq; [by apply writes_store8|].
    rewrite u32_small by lia. replace (2 * n + 1 + 1) with (2 * (n + 1)) by lia. apply writes_ret. }
  simpl. tauto.
Qed.
End parameters.

(** ** Frames *)

(** The value of the [n] bytes at [a], if they are mapped. *)
Definition peek (n : nat) (m : mem) (a : Z) : option Z := fst <$> load_le n a m.

(** It depends on these bytes only. *)
Lemma peek_agree n m m' a :
  (forall k, 0 <= k < Z.of_nat n -> m !! (a + k) = m' !! (a + k)) -> peek n m a = peek n m' a.
Proof.
  unfold peek. revert a. induction n as [|n IH]; intros a Hk; [done|]. simpl. unfold bind, load8.
  pose proof (Hk 0 ltac:(lia)) as H0. rewrite Z.add_0_r in H0. rewrite H0. destruct (m' !! a); [|done].
  assert (E : fst <$> load_le n (a + 1) m = fst <$> load_le n (a + 1) m').
  { apply IH. intros k Hk'. replace (a + 1 + k) with (a + (1 + k)) by lia. apply Hk. lia. }
  destruct (load_le n (a + 1) m) as [[??]|], (load_le n (a + 1) m') as [[??]|]; simpl in *; congruence.
Qed.

(** A luma pixel, or a chroma sample and which of the two. *)
Abbreviation sample := ((Z * Z) + bool * (Z * Z))%type.

Section frame.
Context (m : mem) (f : rgb_format) (w h y_dst rgb_src : Z) (cdst : bool -> Z -> Z).
Abbreviation bpp := (Z.of_nat (pixel_size f)).
Context (w_nonneg : 0 <= w) (h_nonneg : 0 <= h) (size : (w + 1) * (h + 1) < 2 ^ 30).
Context (map_y : mapped m y_dst (w * h)).
Context (map_src : mapped m rgb_src (bpp * (w * h))).
Context (y_src : apart y_dst (w * h) rgb_src (bpp * (w * h))).
Context (c_src : forall b n k, 0 <= n < cw w * ch h -> 0 <= k < bpp * (w * h) -> cdst b n <> rgb_src + k).
Context (y_c : forall b n k, 0 <= n < cw w * ch h -> 0 <= k < w * h -> y_dst + k <> cdst b n).
Context (c_inj : forall b n b' n', 0 <= n < cw w * ch h -> 0 <= n' < cw w * ch h ->
  cdst b n = cdst b' n' -> b = b' /\ n = n').

Definition pixel_at (x y : Z) : Z := default 0 (peek (pixel_size f) m (rgb_src + bpp * (w * y + x))).

Definition sample_dom (k : sample) : Prop :=
  match k with
  | inl (x, y) => 0 <= x < w /\ 0 <= y < h
  | inr (_, (x, y)) => 0 <= x < cw w /\ 0 <= y < ch h
  end.
Definition sample_dst (k : sample) : Z :=
  match k with
  | inl (x, y) => y_dst + (w * y + x)
  | inr (b, (x, y)) => cdst b (cw w * y + x)
  end.
Definition sample_val (k : sample) : Z :=
  match k with
  | inl (x, y) => luma (channels f (pixel_at x y))
  | inr (b, (x, y)) => (if b : bool then cr else cb) (channels f (pixel_at (2 * x) (2 * y)))
  end.

Lemma sample_det k k' : sample_dom k -> sample_dom k' -> sample_dst k = sample_dst k' ->
  sample_val k = sample_val k'.
Proof.
  intros Hk Hk' He. f_equal.
  destruct k as [[x y]|[b [x y]]], k' as [[x' y']|[b' [x' y']]]; simpl in *; destruct Hk as [Hx Hy], Hk' as [Hx' Hy'].
  - destruct (rect_inj w x y x' y'); [lia..|]. congruence.
  - exfalso. eapply y_c; [| |exact He]; by apply rect_lt.
  - exfalso. eapply y_c; [| |by symmetry]; by apply rect_lt.
  - destruct (c_inj _ _ _ _ (rect_lt _ _ _ _ Hx Hy) (rect_lt _ _ _ _ Hx' Hy') He) as [-> He'].
    destruct (rect_inj (cw w) x y x' y'); [lia..|]. congruence.
Qed.

Abbreviation writes := (writes m (image sample_dom sample_dst sample_val)).

Lemma writes_pixel_load x y : 0 <= x < w -> 0 <= y < h ->
  writes (load_le (pixel_size f) (rgb_src + bpp * (w * y + x))) (pixel_at x y) (fun _ => False).
Proof.
  intros Hx Hy. pose proof (rect_lt w h x y Hx Hy) as Hl.
  assert (Hb : 0 < bpp) by (destruct f; simpl; lia).
  assert (Hin : forall k, 0 <= k < bpp -> 0 <= bpp * (w * y + x) + k < bpp * (w * h)) by nia.
  apply writes_load_le.
  - intros k Hk (v & k' & Hk' & He & _). specialize (Hin k Hk).
    destruct k' as [[x' y']|[b [x' y']]]; simpl in *; destruct Hk' as [Hx' Hy'].
    + pose proof (rect_lt w h x' y' Hx' Hy'). destruct y_src; lia.
    + apply (c_src b (cw w * y' + x') (bpp * (w * y + x) + k)); [by apply rect_lt|done|lia].
  - unfold pixel_at, peek. destruct (load_le_mapped (pixel_size f) m (rgb_src + bpp * (w * y + x))) as [v E].
    { apply (mapped_sub m rgb_src (bpp * (w * h))); [done| |]; [specialize (Hin 0)|specialize (Hin (bpp - 1))]; lia. }
    by rewrite E.
Qed.

(** Any converter of the nest's form writes the frame. *)
Lemma rgb_nest_run {S} loop open pixel R G B (emit : Z -> Z -> Z -> S -> M (Z * S)) cs :
  (forall n st body C, 0 <= n < 2 ^ 31 ->
     (forall k, 0 <= k < n -> writes (body k (st k)) (st (k + 1)) (C k)) ->
     writes (loop n (st 0) body) (n, st n) (fun a => exists k, 0 <= k < n /\ C k a)) ->
  (forall n k, open (cs n) k = k (cs n)) ->
  (forall j i k r C, 0 <= j < h -> 0 <= i < w ->
     writes (let! tmp := load_le (pixel_size f) (rgb_src + bpp * (w * j + i)) in k tmp) r C ->
     writes (pixel j i k) r C) ->
  (forall p, (R p, G p, B p) = channels f p) ->
  (forall n U W y, 0 <= n < cw w * ch h ->
     image sample_dom sample_dst sample_val (cdst false n) (u8 U) ->
     image sample_dom sample_dst sample_val (cdst true n) (u8 W) ->
     writes (emit U W y (cs n)) (y, cs (n + 1)) (fun a => a = cdst false n \/ a = cdst true n)) ->
  exists m', rgb_nest loop open pixel R G B y_dst emit (cs 0) w h m = Some (tt, m') /\
    stored sample_dom sample_dst sample_val m m'.
Proof.
  intros Hl Ho Hp Hc He. eapply (stored_run m sample_dom sample_dst sample_val sample_det).
  - apply (writes_rgb_nest m _ loop open pixel R G B y_dst emit cs
      (fun n a => a = cdst false n \/ a = cdst true n) w h
      (fun i => default 0 (peek (pixel_size f) m (rgb_src + bpp * i)))); try done; [lia| | |].
    + intros j i k r C Hj Hi Hk. apply Hp; [done..|]. eapply writes_after; [by apply writes_pixel_load|done].
    + intros x y Hx Hy. split; [apply map_y; by apply rect_lt|].
      exists (inl (x, y)). split; [done|]. split; [done|]. simpl. fold (pixel_at x y).
      pose proof (rgb_Y_luma _ (channels_ok f (pixel_at x y))) as E. rewrite <- Hc in E at 1. exact E.
    + intros x y yI Hx Hy. cbv zeta. unfold word. fold (pixel_at (2 * x) (2 * y)).
      apply He; [by apply rect_lt| |].
      * exists (inr (false, (x, y))). split; [done|]. split; [done|]. simpl.
        pose proof (rgb_U_cb _ (channels_ok f (pixel_at (2 * x) (2 * y)))) as E. rewrite <- Hc in E at 1. exact E.
      * exists (inr (true, (x, y))). split; [done|]. split; [done|]. simpl.
        pose proof (rgb_V_cr _ (channels_ok f (pixel_at (2 * x) (2 * y)))) as E. rewrite <- Hc in E at 1. exact E.
  - intros [[x y]|[b [x y]]] [Hx Hy]; [left|right]; exists x, y; [done|].
    split; [done|]. split; [done|]. destruct b; auto.
Qed.
End frame.

(** ** Theorems *)

(** The converters by format. *)
Definition to_YUV420P (f : rgb_format) : Z -> Z -> Z -> Z -> Z -> Z -> M unit :=
  match f with
  | RGB565 => csc_RGB565_to_YUV420P
  | BGRA8888 => csc_BGRA8888_to_YUV420P
  | RGBA8888 => csc_RGBA8888_to_YUV420P
  end.
Definition to_YUV420SP (f : rgb_format) : Z -> Z -> Z -> Z -> Z -> M unit :=
  match f with
  | RGB565 => csc_RGB565_to_YUV420SP
  | BGRA8888 => csc_BGRA8888_to_YUV420SP
  | RGBA8888 => csc_RGBA8888_to_YUV420SP
  end.

(** The buffers of a conversion to three planes; the chroma planes have
    [cw * ch] bytes, half the luma size rounded up in both directions. *)
Record planar_layout (m : mem) (f : rgb_format) (w h y_dst u_dst v_dst rgb_src : Z) : Prop := {
  pl_size : 0 <= w /\ 0 <= h /\ (w + 1) * (h + 1) < 2 ^ 30;
  pl_mapped : mapped m y_dst (w * h) /\ mapped m u_dst (cw w * ch h) /\ mapped m v_dst (cw w * ch h);
  pl_src : mapped m rgb_src (Z.of_nat (pixel_size f) * (w * h));
  pl_outputs : apart y_dst (w * h) u_dst (cw w * ch h) /\ apart y_dst (w * h) v_dst (cw w * ch h) /\
               apart u_dst (cw w * ch h) v_dst (cw w * ch h);
  pl_apart : apart y_dst (w * h) rgb_src (Z.of_nat (pixel_size f) * (w * h)) /\
             apart u_dst (cw w * ch h) rgb_src (Z.of_nat (pixel_size f) * (w * h)) /\
             apart v_dst (cw w * ch h) rgb_src (Z.of_nat (pixel_size f) * (w * h))
}.

Record pairs_layout (m : mem) (f : rgb_format) (w h y_dst uv_dst rgb_src : Z) : Prop := {
  sl_size : 0 <= w /\ 0 <= h /\ (w + 1) * (h + 1) < 2 ^ 30;
  sl_mapped : mapped m y_dst (w * h) /\ mapped m uv_dst (2 * (cw w * ch h));
  sl_src : mapped m rgb_src (Z.of_nat (pixel_size f) * (w * h));
  sl_outputs : apart y_dst (w * h) uv_dst (2 * (cw w * ch h));
  sl_apart : apart y_dst (w * h) rgb_src (Z.of_nat (pixel_size f) * (w * h)) /\
             apart uv_dst (2 * (cw w * ch h)) rgb_src (Z.of_nat (pixel_size f) * (w * h))
}.

Definition planar_at (u_dst v_dst : Z) (b : bool) (n : Z) : Z := (if b then v_dst else u_dst) + n.
Definition pairs_at (uv_dst : Z) (b : bool) (n : Z) : Z := uv_dst + (2 * n + if b then 1 else 0).

(** [int] products of the signed converters stay in range. *)
Lemma samples_bound w h : 0 <= w -> 0 <= h -> (w + 1) * (h + 1) < 2 ^ 30 ->
  0 <= cw w * ch h < 2 ^ 29 /\ 0 <= w * h < 2 ^ 30 /\ 0 <= w ÷ 2 * h < 2 ^ 30.
Proof.
  intros Hw Hh Hs. unfold cw, ch. rewrite Z.quot_div_nonneg by lia.
  assert (0 <= w `div` 2 <= w) by (clear -Hw; dlia).
  assert (0 <= (w + 1) `div` 2) by (clear -Hw; dlia). assert (2 * ((w + 1) `div` 2) <= w + 1) by (clear -Hw; dlia).
  assert (0 <= (h + 1) `div` 2 <= h + 1) by (clear -Hh; dlia). nia.
Qed.

Section runs.
Context (m : mem) (f : rgb_format) (w h : Z).
Context (w_nonneg : 0 <= w) (h_nonneg : 0 <= h) (size : (w + 1) * (h + 1) < 2 ^ 30).

Lemma pixel_unsigned {A} V src (k : Z -> M A) r C j i : 0 <= j < h -> 0 <= i < w ->
  writes m V (let! tmp := load_le 4 (src + 4 * (w * j + i)) in k tmp) r C ->
  writes m V (let! tmp := load32 (src + 4 * ((j ^* w) ^+ i)) in k tmp) r C.
Proof.
  intros Hj Hi Hk. pose proof (rect_lt w h i j Hi Hj). pose proof (samples_bound w h).
  rewrite (u32_small (j * w)), u32_small, (Z.mul_comm j) by nia. exact Hk.
Qed.

Lemma pixel_int {A} V src (k : Z -> M A) r C j i : 0 <= j < h -> 0 <= i < w ->
  writes m V (let! tmp := load_le 2 (src + 2 * (w * j + i)) in k tmp) r C ->
  writes m V (let! t := sint (j * w) in let! t := sint (t + i) in
              let! tmp := load16 (src + 2 * t) in k tmp) r C.
Proof.
  intros Hj Hi Hk. pose proof (rect_lt w h i j Hi Hj). pose proof (samples_bound w h).
  eapply writes_after; [apply writes_sint; nia|]. eapply writes_after; [apply writes_sint; nia|].
  by rewrite (Z.mul_comm j).
Qed.

Lemma sint_run {A} z (k : Z -> M A) : - 2 ^ 31 <= z < 2 ^ 31 -> bind (sint z) k m = k z m.
Proof.
  intros Hz. unfold sint. by rewrite (proj2 (Z.leb_le _ _)), (proj2 (Z.ltb_lt _ _)) by lia.
Qed.

Lemma to_YUV420P_run y u v src : planar_layout m f w h y u v src ->
  exists m', to_YUV420P f y u v src w h m = Some (tt, m') /\
    stored (sample_dom w h) (sample_dst w y (planar_at u v)) (sample_val m f w src) m m'.
Proof using w_nonneg h_nonneg size.
  intros [_ (My & Mu & Mv) Ms (Yu & Yv & Uv) (As & Bs & Cs)].
  pose proof (samples_bound w h w_nonneg h_nonneg size) as (HN & Hwh & Hq).
  pose proof (fun S : Type => @rgb_nest_run m f w h y src (planar_at u v) w_nonneg h_nonneg size My Ms As
    ltac:(unfold planar_at; intros [] n k Hn Hk; unfold apart in *; lia)
    ltac:(unfold planar_at; intros [] n k Hn Hk; unfold apart in *; lia)
    ltac:(unfold planar_at; intros [] n [] n' Hn Hn' He; unfold apart in *; split; first [done|lia]) S) as H.
  set (V := image (sample_dom w h) (sample_dst w y (planar_at u v)) (sample_val m f w src)) in H.
  assert (He : forall n U W yI, 0 <= n < cw w * ch h -> V (planar_at u v false n) (u8 U) ->
    V (planar_at u v true n) (u8 W) ->
    writes m V (emit_planar u v U W yI (n, n)) (yI, (n + 1, n + 1))
      (fun a => a = planar_at u v false n \/ a = planar_at u v true n)).
  { intros n U W yI Hn HU HW. apply writes_emit_planar; [lia|by apply Mu|by apply Mv|done..]. }
  destruct f.
  - destruct (H _ (fun n => for_int n) open_planar
      (fun j i k => let! t := sint (j * w) in let! t := sint (t + i) in let! tmp := load16 (src + 2 * t) in k tmp)
      (fun p => Z.land p 0x0000F800 ≫ 8) (fun p => Z.land p 0x000007E0 ≫ 3)
      (fun p => Z.land p 0x0000001F ^<< 3) (emit_planar u v) (fun n => (n, n))) as (m' & E & HS);
      [apply writes_for_int|done|intros; by apply pixel_int|apply channels_RGB565_P|exact He|].
    exists m'. split; [|done]. simpl. unfold csc_RGB565_to_YUV420P. rewrite !sint_run by lia. exact E.
  - destruct (H _ (fun n => for_u 0 n 1) open_planar
      (fun j i k => let! tmp := load32 (src + 4 * ((j ^* w) ^+ i)) in k tmp)
      (fun p => Z.land p 0x00FF0000 ≫ 16) (fun p => Z.land p 0x0000FF00 ≫ 8)
      (fun p => Z.land p 0x000000FF) (emit_planar u v) (fun n => (n, n))) as (m' & E & HS);
      [intros; by apply writes_for_unsigned|done|intros; by apply pixel_unsigned|
       apply channels_BGRA8888|exact He|by exists m'].
  - destruct (H _ (fun n => for_u 0 n 1) open_planar
      (fun j i k => let! tmp := load32 (src + 4 * ((j ^* w) ^+ i)) in k tmp)
      (fun p => Z.land p 0x000000FF) (fun p => Z.land p 0x0000FF00 ≫ 8)
      (fun p => Z.land p 0x00FF0000 ≫ 16) (emit_planar u v) (fun n => (n, n))) as (m' & E & HS);
      [intros; by apply writes_for_unsigned|done|intros; by apply pixel_unsigned|
       apply channels_RGBA8888|exact He|by exists m'].
Qed.

Lemma to_YUV420SP_run y uv src : pairs_layout m f w h y uv src ->
  exists m', to_YUV420SP f y uv src w h m = Some (tt, m') /\
    stored (sample_dom w h) (sample_dst w y (pairs_at uv)) (sample_val m f w src) m m'.
Proof using w_nonneg h_nonneg size.
  intros [_ (My & Mc) Ms Yc (As & Bs)].
  pose proof (samples_bound w h w_nonneg h_nonneg size) as (HN & Hwh & Hq).
  pose proof (fun S : Type => @rgb_nest_run m f w h y src (pairs_at uv) w_nonneg h_nonneg size My Ms As
    ltac:(unfold pairs_at; intros [] n k Hn Hk; unfold apart in *; lia)
    ltac:(unfold pairs_at; intros [] n k Hn Hk; unfold apart in *; lia)
    ltac:(unfold pairs_at; intros [] n [] n' Hn Hn' He; split; first [done|lia]) S) as H.
  set (V := image (sample_dom w h) (sample_dst w y (pairs_at uv)) (sample_val m f w src)) in H.
  assert (He : forall n U W yI, 0 <= n < cw w * ch h -> V (pairs_at uv false n) (u8 U) ->
    V (pairs_at uv true n) (u8 W) ->
    writes m V (emit_pairs uv U W yI (2 * n)) (yI, 2 * (n + 1))
      (fun a => a = pairs_at uv false n \/ a = pairs_at uv true n)).
  { intros n U W yI Hn. unfold pairs_at. rewrite Z.add_0_r. intros HU HW.
    apply writes_emit_pairs; [lia|apply Mc; lia|apply Mc; lia|done|done|lia]. }
  destruct f.
  - destruct (H _ (fun n => for_int n) open_pairs
      (fun j i k => let! t := sint (j * w) in let! t := sint (t + i) in let! tmp := load16 (src + 2 * t) in k tmp)
      (fun p => (Z.land p 0x0000F800 ≫ 11) ^* 8) (fun p => (Z.land p 0x000007E0 ≫ 5) ^* 4)
      (fun p => Z.land p 0x0000001F ^* 8) (emit_pairs uv) (fun n => 2 * n)) as (m' & E & HS);
      [apply writes_for_int|done|intros; by apply pixel_int|apply channels_RGB565_SP|exact He|].
    exists m'. split; [|done]. simpl. unfold csc_RGB565_to_YUV420SP. rewrite !sint_run by lia. exact E.
  - destruct (H _ (fun n => for_u 0 n 1) open_pairs
      (fun j i k => let! tmp := load32 (src + 4 * ((j ^* w) ^+ i)) in k tmp)
      (fun p => Z.land p 0x00FF0000 ≫ 16) (fun p => Z.land p 0x0000FF00 ≫ 8)
      (fun p => Z.land p 0x000000FF) (emit_pairs uv) (fun n => 2 * n)) as (m' & E & HS);
      [intros; by apply writes_for_unsigned|done|intros; by apply pixel_unsigned|
       apply channels_BGRA8888|exact He|by exists m'].
  - destruct (H _ (fun n => for_u 0 n 1) open_pairs
      (fun j i k => let! tmp := load32 (src + 4 * ((j ^* w) ^+ i)) in k tmp)
      (fun p => Z.land p 0x000000FF) (fun p => Z.land p 0x0000FF00 ≫ 8)
      (fun p => Z.land p 0x00FF0000 ≫ 16) (emit_pairs uv) (fun n => 2 * n)) as (m' & E & HS);
      [intros; by apply writes_for_unsigned|done|intros; by apply pixel_unsigned|
       apply channels_RGBA8888|exact He|by exists m'].
Qed.
End runs.

(**  The colour computation on [unsigned int], whose chroma sums wrap around,
    stores the bytes of the integer matrix rounded down; they lie in the studio
    range (16 to 235 for luma, 16 to 240 for chroma), and grey has neutral chroma. *)
Theorem rgb_colours_correct R G B :
  0 <= R < 256 -> 0 <= G < 256 -> 0 <= B < 256 ->
  (u8 (rgb_Y R G B) = (66 * R + 129 * G + 25 * B + 128) `div` 256 + 16 /\
   16 <= u8 (rgb_Y R G B) <= 235) /\
  (u8 (rgb_U R G B) = (112 * B - 38 * R - 74 * G + 128) `div` 256 + 128 /\
   16 <= u8 (rgb_U R G B) <= 240) /\
  (u8 (rgb_V R G B) = (112 * R - 94 * G - 18 * B + 128) `div` 256 + 128 /\
   16 <= u8 (rgb_V R G B) <= 240) /\
  (R = G /\ G = B -> u8 (rgb_U R G B) = 128 /\ u8 (rgb_V R G B) = 128).
Proof.
  intros HR HG HB.
  pose proof (rgb_Y_luma (R, G, B) (conj HR (conj HG HB))) as EY.
  pose proof (rgb_U_cb (R, G, B) (conj HR (conj HG HB))) as EU.
  pose proof (rgb_V_cr (R, G, B) (conj HR (conj HG HB))) as EV.
  unfold luma, cb, cr in *. rewrite EY, EU, EV. clear EY EU EV.
  repeat split; try dlia.
Qed.

Lemma rgb_colours_correct_witness :
  (u8 (rgb_Y 255 0 0) = (66 * 255 + 129 * 0 + 25 * 0 + 128) `div` 256 + 16 /\
   16 <= u8 (rgb_Y 255 0 0) <= 235) /\
  (u8 (rgb_U 255 0 0) = (112 * 0 - 38 * 255 - 74 * 0 + 128) `div` 256 + 128 /\
   16 <= u8 (rgb_U 255 0 0) <= 240) /\
  (u8 (rgb_V 255 0 0) = (112 * 255 - 94 * 0 - 18 * 0 + 128) `div` 256 + 128 /\
   16 <= u8 (rgb_V 255 0 0) <= 240) /\
  (255 = 0 /\ 0 = 0 -> u8 (rgb_U 255 0 0) = 128 /\ u8 (rgb_V 255 0 0) = 128).
Proof. apply (rgb_colours_correct 255 0 0); lia. Defined.

(**  The three converters to planes: with correct buffers, and frames of any
    width and height, they end without a fault; every luma byte is the matrix
    applied to its pixel, every chroma byte the matrix applied to the top left
    pixel of its 2x2 square (squares that overhang an odd edge included); nothing
    else changes. *)
Theorem to_YUV420P_correct m f w h y_dst u_dst v_dst rgb_src :
  planar_layout m f w h y_dst u_dst v_dst rgb_src ->
  let pixel x y := peek (pixel_size f) m (rgb_src + Z.of_nat (pixel_size f) * (w * y + x)) in
  exists m', to_YUV420P f y_dst u_dst v_dst rgb_src w h m = Some (tt, m') /\
    (forall x y p, 0 <= x < w -> 0 <= y < h -> pixel x y = Some p ->
       m' !! (y_dst + (w * y + x)) = Some (luma (channels f p))) /\
    (forall x y p, 0 <= x < cw w -> 0 <= y < ch h -> pixel (2 * x) (2 * y) = Some p ->
       m' !! (u_dst + (cw w * y + x)) = Some (cb (channels f p)) /\
       m' !! (v_dst + (cw w * y + x)) = Some (cr (channels f p))) /\
    (forall a, ~ (y_dst <= a < y_dst + w * h) -> ~ (u_dst <= a < u_dst + cw w * ch h) ->
       ~ (v_dst <= a < v_dst + cw w * ch h) -> m' !! a = m !! a).
Proof.
  intros HL pixel. destruct (pl_size _ _ _ _ _ _ _ _ HL) as (Hw & Hh & Hs).
  destruct (to_YUV420P_run m f w h Hw Hh Hs _ _ _ _ HL) as (m' & E & Hst & Hf).
  exists m'. split; [done|]. split; [|split].
  - intros x y p Hx Hy Hp. pose proof (Hst (inl (x, y)) (conj Hx Hy)) as H. simpl in H.
    unfold pixel_at in H. fold (pixel x y) in H. by rewrite Hp in H.
  - intros x y p Hx Hy Hp.
    pose proof (Hst (inr (false, (x, y))) (conj Hx Hy)) as H1.
    pose proof (Hst (inr (true, (x, y))) (conj Hx Hy)) as H2. simpl in H1, H2.
    unfold pixel_at in H1, H2. fold (pixel (2 * x) (2 * y)) in H1, H2. by rewrite Hp in H1, H2.
  - intros a Hy Hu Hv. apply Hf. intros [[x y]|[[] [x y]]] [Hx Hy'] ->; simpl in *.
    + pose proof (rect_lt w h x y Hx Hy'). lia.
    + pose proof (rect_lt (cw w) (ch h) x y Hx Hy'). unfold planar_at in *. lia.
    + pose proof (rect_lt (cw w) (ch h) x y Hx Hy'). unfold planar_at in *. lia.
Qed.

(**  The converters to luma and interleaved chroma write what the converters
    to planes write: the same luma plane, and Cb and Cr alternating in the chroma
    plane. *)
Theorem to_YUV420SP_interleaves m1 m2 f w h y1 u1 v1 y2 uv2 src :
  planar_layout m1 f w h y1 u1 v1 src -> pairs_layout m2 f w h y2 uv2 src ->
  (forall a, src <= a < src + Z.of_nat (pixel_size f) * (w * h) -> m1 !! a = m2 !! a) ->
  exists m1' m2',
    to_YUV420P f y1 u1 v1 src w h m1 = Some (tt, m1') /\
    to_YUV420SP f y2 uv2 src w h m2 = Some (tt, m2') /\
    (forall k, 0 <= k < w * h -> m2' !! (y2 + k) = m1' !! (y1 + k)) /\
    (forall k, 0 <= k < cw w * ch h ->
       m2' !! (uv2 + 2 * k) = m1' !! (u1 + k) /\ m2' !! (uv2 + (2 * k + 1)) = m1' !! (v1 + k)) /\
    (forall a, ~ (y2 <= a < y2 + w * h) -> ~ (uv2 <= a < uv2 + 2 * (cw w * ch h)) ->
       m2' !! a = m2 !! a).
Proof.
  intros H1 H2 Hsrc. destruct (pl_size _ _ _ _ _ _ _ _ H1) as (Hw & Hh & Hs).
  destruct (to_YUV420P_run m1 f w h Hw Hh Hs _ _ _ _ H1) as (m1' & E1 & S1 & F1).
  destruct (to_YUV420SP_run m2 f w h Hw Hh Hs _ _ _ H2) as (m2' & E2 & S2 & F2).
  pose proof (samples_bound w h Hw Hh Hs) as (HN & Hwh & _).
  assert (Hv : forall k, sample_dom w h k -> sample_val m1 f w src k = sample_val m2 f w src k).
  { assert (Hp : forall x y, 0 <= x < w -> 0 <= y < h -> pixel_at m1 f w src x y = pixel_at m2 f w src x y).
    { intros x y Hx Hy. pose proof (rect_lt w h x y Hx Hy). unfold pixel_at. f_equal.
      apply peek_agree. intros k Hk. apply Hsrc. assert (0 < Z.of_nat (pixel_size f)) by (destruct f; simpl; lia). nia. }
    intros [[x y]|[b [x y]]] [Hx Hy]; simpl; rewrite Hp; try done; unfold cw, ch in *.
    - clear -Hx. dlia.
    - clear -Hy. dlia. }
  exists m1', m2'. split; [done|]. split; [done|]. split; [|split].
  - intros k Hk. destruct (rect_pos w h k) as (x & y & Hx & Hy & ->); [done..|].
    pose proof (S1 (inl (x, y)) (conj Hx Hy)) as L1. pose proof (S2 (inl (x, y)) (conj Hx Hy)) as L2.
    rewrite <- Hv in L2 by done. simpl in L1, L2. congruence.
  - intros k Hk. destruct (rect_pos (cw w) (ch h) k) as (x & y & Hx & Hy & ->); [unfold cw; clear -Hw; dlia|done|].
    pose proof (fun b => S1 (inr (b, (x, y))) (conj Hx Hy)) as L1.
    pose proof (fun b => S2 (inr (b, (x, y))) (conj Hx Hy)) as L2. unfold sample_dst, planar_at, pairs_at in L1, L2.
    pose proof (L1 true) as L1t. pose proof (L1 false) as L1f.
    pose proof (L2 true) as L2t. pose proof (L2 false) as L2f.
    rewrite <- Hv in L2t by done. rewrite <- Hv in L2f by done. rewrite Z.add_0_r in L2f.
    split; [by rewrite L2f, L1f|by rewrite L2t, L1t].
  - intros a Hy Hc. apply F2. intros [[x y]|[b [x y]]] [Hx Hy'] ->; simpl in *.
    + pose proof (rect_lt w h x y Hx Hy'). lia.
    + pose proof (rect_lt (cw w) (ch h) x y Hx Hy'). unfold pairs_at in *. destruct b; lia.
Qed.

(** A 3x1 frame: 12 bytes of pixels at 0. *)
Definition pixels (f : rgb_format) : mem :=
  fill 3 1000 (fun _ => 0) (fill 4 2000 (fun _ => 0) (fill 2 3000 (fun _ => 0)
    (fill 12 0 (fun k => 20 * k) ∅))).

Lemma pixels_planar f : planar_layout (pixels f) f 3 1 1000 2000 3000 0.
Proof.
  split.
  - lia.
  - split; [apply (mapped_fill 3)|]. split.
    + apply mapped_fill_other, (mapped_sub _ 2000 4); [apply (mapped_fill 4)|vm_compute; discriminate..].
    + do 2 apply mapped_fill_other. apply (mapped_fill 2).
  - do 3 apply mapped_fill_other. apply (mapped_sub _ 0 12); [apply (mapped_fill 12)|lia|].
    destruct f; vm_compute; discriminate.
  - split; [|split]; left; vm_compute; discriminate.
  - split; [|split]; right; destruct f; vm_compute; discriminate.
Qed.

Lemma pixels_pairs f : pairs_layout (pixels f) f 3 1 1000 2000 0.
Proof.
  destruct (pixels_planar f) as [Hs (My & _ & _) Ms _ (Ay & Au & _)]. split; [done| |done| |].
  - split; [done|]. apply mapped_fill_other, (mapped_fill 4).
  - left. vm_compute. discriminate.
  - split; [done|]. right. destruct f; vm_compute; discriminate.
Qed.

Lemma to_YUV420P_correct_witness :
  exists m', to_YUV420P RGB565 1000 2000 3000 0 3 1 (pixels RGB565) = Some (tt, m') /\
    (forall x y p, 0 <= x < 3 -> 0 <= y < 1 -> peek 2 (pixels RGB565) (0 + 2 * (3 * y + x)) = Some p ->
       m' !! (1000 + (3 * y + x)) = Some (luma (channels RGB565 p))) /\
    (forall x y p, 0 <= x < cw 3 -> 0 <= y < ch 1 ->
       peek 2 (pixels RGB565) (0 + 2 * (3 * (2 * y) + 2 * x)) = Some p ->
       m' !! (2000 + (cw 3 * y + x)) = Some (cb (channels RGB565 p)) /\
       m' !! (3000 + (cw 3 * y + x)) = Some (cr (channels RGB565 p))) /\
    (forall a, ~ (1000 <= a < 1000 + 3 * 1) -> ~ (2000 <= a < 2000 + cw 3 * ch 1) ->
       ~ (3000 <= a < 3000 + cw 3 * ch 1) -> m' !! a = pixels RGB565 !! a).
Proof. apply (to_YUV420P_correct (pixels RGB565)), pixels_planar. Defined.

Lemma to_YUV420SP_interleaves_witness :
  exists m1' m2',
    to_YUV420P BGRA8888 1000 2000 3000 0 3 1 (pixels BGRA8888) = Some (tt, m1') /\
    to_YUV420SP BGRA8888 1000 2000 0 3 1 (pixels BGRA8888) = Some (tt, m2') /\
    (forall k, 0 <= k < 3 * 1 -> m2' !! (1000 + k) = m1' !! (1000 + k)) /\
    (forall k, 0 <= k < cw 3 * ch 1 ->
       m2' !! (2000 + 2 * k) = m1' !! (2000 + k) /\ m2' !! (2000 + (2 * k + 1)) = m1' !! (3000 + k)) /\
    (forall a, ~ (1000 <= a < 1000 + 3 * 1) -> ~ (2000 <= a < 2000 + 2 * (cw 3 * ch 1)) ->
       m2' !! a = pixels BGRA8888 !! a).
Proof.
  apply (to_YUV420SP_interleaves (pixels BGRA8888)); [apply pixels_planar|apply pixels_pairs|done].
Defined.
