(* ===== verification/Tile128.v ===== *)
(** * 128x64 tiled frames: geometry

    The [USE_NV12T_128X64] configuration of [src/libswconverter/swconvertor.c]
    (MFC 5.x).  A plane is cut into blocks of 64 columns by 32 rows, 2048 bytes
    each; two rows of blocks are scanned together in the order of the "Z" and
    flipped "Z" shapes, and a last unpaired row of blocks is scanned linearly.
    Here: the address of a byte, and the source's routine for it. *)

From S2P Require Import Prelude.

(** ** Operation *)

(** The local [roundup_y] of the source, which is computed and not used, is left out. *)
Definition tile_4x2_read (x_size y_size x_pos y_pos : Z) : Z :=
  let pixel_x_m1 := s32 (x_size - 1) in
  let pixel_y_m1 := s32 (y_size - 1) in
  let roundup_x := s32 ((pixel_x_m1 ≫ 7) + 1) in
  let x_addr := x_pos ≫ 2 in
  let '(linear_addr0, linear_addr1, bank_addr) :=
    if (y_size <=? s32 (y_pos + 32)) && (y_pos <? y_size) &&
       (Z.land (pixel_y_m1 ≫ 5) 0x1 =? 0) && (Z.land (y_pos ≫ 5) 0x1 =? 0) then
      (Z.lor (s32 (Z.land y_pos 0x1f ≪ 4)) (Z.land x_addr 0xf),
       s32 (s32 (Z.land (y_pos ≫ 6) 0xff * roundup_x) + Z.land (x_addr ≫ 6) 0x3f),
       if Z.land (x_addr ≫ 5) 0x1 =? Z.land (y_pos ≫ 5) 0x1 then Z.land (x_addr ≫ 4) 0x1
       else Z.lor 0x2 (Z.land (x_addr ≫ 4) 0x1))
    else
      (Z.lor (s32 (Z.land y_pos 0x1f ≪ 4)) (Z.land x_addr 0xf),
       s32 (s32 (Z.land (y_pos ≫ 6) 0xff * roundup_x) + Z.land (x_addr ≫ 5) 0x7f),
       if Z.land (x_addr ≫ 5) 0x1 =? Z.land (y_pos ≫ 5) 0x1 then Z.land (x_addr ≫ 4) 0x1
       else Z.lor 0x2 (Z.land (x_addr ≫ 4) 0x1)) in
  let linear_addr0 := s32 (linear_addr0 ≪ 2) in
  Z.lor (Z.lor (s32 (linear_addr1 ≪ 13)) (s32 (bank_addr ≪ 11))) linear_addr0.

(** ** Geometry *)

(** Blocks per row of blocks: an even number, the width is rounded up to 128. *)
Definition blocks_x (w : Z) : Z := 2 * ((w + 127) `div` 128).

(** The position of block [(bx, by)] in a plane of [nx] blocks per row whose last
    row of blocks is [last]. *)
Definition block (nx last bx by_ : Z) : Z :=
  if by_ `mod` 2 =? 1 then (by_ - 1) * nx + bx + 2 + 4 * (bx `div` 4)
  else if by_ =? last then by_ * nx + bx
  else by_ * nx + bx + 4 * ((bx + 2) `div` 4).

(** The offset of the byte at column [x], row [y] of a plane of [w] by [h]. *)
Definition toff (w h x y : Z) : Z :=
  2048 * block (blocks_x w) ((h - 1) `div` 32) (x `div` 64) (y `div` 32) + 64 * (y `mod` 32) + x `mod` 64.

(** Size in bytes of a tiled plane. *)
Definition size128 (w h : Z) : Z := 2048 * (blocks_x w * ((h + 31) `div` 32)).

Lemma blocks_x_bounds w x : 0 <= x < w -> 0 <= x `div` 64 < blocks_x w /\ blocks_x w `mod` 2 = 0.
Proof. unfold blocks_x. intros Hx. dlia. Qed.

Lemma block_bounds nx last bx b : nx `mod` 2 = 0 -> 0 <= bx < nx -> 0 <= b <= last ->
  0 <= block nx last bx b < nx * (last + 1).
Proof.
  intros Hn Hx Hb. unfold block. destruct (Z.eqb_spec (b `mod` 2) 1) as [E|E].
  - assert (bx + 2 + 4 * (bx `div` 4) < 2 * nx) by (clear -Hn Hx; dlia).
    assert (0 <= bx `div` 4) by (clear -Hx; dlia). assert (1 <= b) by (clear -E Hb; dlia). nia.
  - destruct (Z.eqb_spec b last) as [->|Hne]; [nia|].
    assert (bx + 4 * ((bx + 2) `div` 4) < 2 * nx) by (clear -Hn Hx; dlia).
    assert (0 <= (bx + 2) `div` 4) by (clear -Hx; dlia). nia.
Qed.

(** A row pair of blocks holds each position once. *)
Lemma block_inj nx last bx b bx' b' : nx `mod` 2 = 0 ->
  0 <= bx < nx -> 0 <= bx' < nx -> 0 <= b <= last -> 0 <= b' <= last ->
  block nx last bx b = block nx last bx' b' -> bx = bx' /\ b = b'.
Proof.
  intros Hn Hx Hx' Hb Hb'.
  (* each block is [pair * 2 nx + z], with [z] determining the column and the parity *)
  assert (Hz : forall bx b, 0 <= bx < nx -> 0 <= b <= last ->
    exists z, block nx last bx b = 2 * nx * (b `div` 2) + z /\ 0 <= z < 2 * nx /\
      ((b `mod` 2 = 1 /\ z = bx + 2 + 4 * (bx `div` 4)) \/
       (b `mod` 2 = 0 /\ (b = last /\ z = bx \/ b <> last /\ z = bx + 4 * ((bx + 2) `div` 4))))).
  { clear -Hn. intros bx b Hx Hb. unfold block.
    assert (Hm : b = 2 * (b `div` 2) + b `mod` 2 /\ (b `mod` 2 = 0 \/ b `mod` 2 = 1)) by (clear; dlia).
    destruct Hm as [Hd Hm]. set (p := b `div` 2) in *.
    destruct (Z.eqb_spec (b `mod` 2) 1) as [E|E]; [|destruct (Z.eqb_spec b last) as [El|El]].
    - exists (bx + 2 + 4 * (bx `div` 4)). split; [nia|]. split; [clear -Hn Hx; dlia|auto].
    - exists bx. split; [nia|]. split; [lia|]. right. split; [lia|auto].
    - exists (bx + 4 * ((bx + 2) `div` 4)). split; [nia|]. split; [clear -Hn Hx; dlia|].
      right. split; [lia|auto]. }
  destruct (Hz bx b Hx Hb) as (z & -> & Hzr & Hc). destruct (Hz bx' b' Hx' Hb') as (z' & -> & Hzr' & Hc').
  intros He. destruct (rect_inj (2 * nx) z (b `div` 2) z' (b' `div` 2)) as [-> Hp]; [lia..|].
  clear -Hc Hc' Hp Hb Hb'. destruct Hc as [[? ?]|[? [[? ?]|[? ?]]]], Hc' as [[? ?]|[? [[? ?]|[? ?]]]]; dlia.
Qed.

Section plane.
Context (w h : Z).

Lemma toff_bounds x y : 0 <= x < w -> 0 <= y < h -> 0 <= toff w h x y < size128 w h.
Proof.
  intros Hx Hy. destruct (blocks_x_bounds w x Hx) as [Hb Hn]. unfold toff, size128.
  pose proof (block_bounds (blocks_x w) ((h - 1) `div` 32) (x `div` 64) (y `div` 32) Hn Hb) as H.
  replace ((h + 31) `div` 32) with ((h - 1) `div` 32 + 1) by (clear; dlia).
  assert (0 <= y `div` 32 <= (h - 1) `div` 32) by (clear -Hy; dlia).
  assert (0 <= y `mod` 32 < 32 /\ 0 <= x `mod` 64 < 64) by (clear; dlia). lia.
Qed.

Lemma toff_inj x y x' y' : 0 <= x < w -> 0 <= y < h -> 0 <= x' < w -> 0 <= y' < h ->
  toff w h x y = toff w h x' y' -> x = x' /\ y = y'.
Proof.
  intros Hx Hy Hx' Hy' He. unfold toff in He.
  assert (0 <= y `mod` 32 < 32 /\ 0 <= x `mod` 64 < 64) by (clear; dlia).
  assert (0 <= y' `mod` 32 < 32 /\ 0 <= x' `mod` 64 < 64) by (clear; dlia).
  destruct (rect_inj 2048 (64 * (y `mod` 32) + x `mod` 64) (block (blocks_x w) ((h - 1) `div` 32) (x `div` 64) (y `div` 32))
    (64 * (y' `mod` 32) + x' `mod` 64) (block (blocks_x w) ((h - 1) `div` 32) (x' `div` 64) (y' `div` 32)))
    as [E1 E2]; [lia..|].
  destruct (rect_inj 64 (x `mod` 64) (y `mod` 32) (x' `mod` 64) (y' `mod` 32)) as [E3 E4]; [lia..|].
  destruct (blocks_x_bounds w x Hx) as [Hb Hn]. destruct (blocks_x_bounds w x' Hx') as [Hb' _].
  destruct (block_inj (blocks_x w) ((h - 1) `div` 32) (x `div` 64) (y `div` 32) (x' `div` 64) (y' `div` 32))
    as [E5 E6]; [done|done|done|clear -Hy; dlia|clear -Hy'; dlia|done|].
  clear -E3 E4 E5 E6. dlia.
Qed.

(** Bytes of a row within one block are contiguous, and so are its rows at a
    distance of 64. *)
Lemma toff_step x y t : x `mod` 64 + t < 64 -> 0 <= t -> toff w h (x + t) y = toff w h x y + t.
Proof.
  intros Ht H0. unfold toff. assert ((x + t) `div` 64 = x `div` 64) as -> by (clear -Ht H0; dlia).
  assert ((x + t) `mod` 64 = x `mod` 64 + t) as -> by (clear -Ht H0; dlia). lia.
Qed.

Lemma toff_row x y r : y `mod` 32 + r < 32 -> 0 <= r -> toff w h x (y + r) = toff w h x y + 64 * r.
Proof.
  intros Ht H0. unfold toff. assert ((y + r) `div` 32 = y `div` 32) as -> by (clear -Ht H0; dlia).
  assert ((y + r) `mod` 32 = y `mod` 32 + r) as -> by (clear -Ht H0; dlia). lia.
Qed.
End plane.

(** The routine's four groups of bits. *)
Lemma tile_bits a b c : 0 <= a -> 0 <= b < 4 -> 0 <= c < 2048 ->
  a * 8192 < 2 ^ 31 ->
  Z.lor (Z.lor (s32 (a ≪ 13)) (s32 (b ≪ 11))) c = 2048 * (4 * a + b) + c.
Proof.
  intros Ha Hb Hc Hs. shifts. rewrite !s32_small by lia.
  rewrite (lor_add 13 (a * 8192) (b * 2048)) by (first [lia|apply Z.mod_mul; lia]).
  rewrite (lor_add 11 _ c) by (first [lia|clear; dlia]). lia.
Qed.

Lemma lor_0x2 b : 0 <= b < 2 -> Z.lor 0x2 b = 2 + b.
Proof. intros Hb. by assert (b = 0 \/ b = 1) as [-> | ->] by lia. Qed.

Lemma tile_low_bits x y : 0 <= x ->
  s32 (Z.lor (s32 (Z.land y 0x1f ≪ 4)) (Z.land (x ≫ 2) 0xf) ≪ 2) = 64 * (y `mod` 32) + (x `mod` 64 - x `mod` 4).
Proof.
  intros Hx. rewrite (shr_div 2 4) by (first [lia|done]). autorewrite with bits.
  rewrite (shl_mul 4 16) by (first [lia|done]).
  rewrite (s32_small (y `mod` 32 * 16)) by (clear; dlia).
  rewrite (lor_add 4) by (first [lia|apply Z.mod_mul; lia|clear; dlia]).
  rewrite (shl_mul 2 4) by (first [lia|done]). rewrite s32_small by (clear; dlia). clear. dlia.
Qed.

(** The routine's test for the last, unpaired row of blocks. *)
Lemma last_row_test h y : 0 <= y < h -> h <= 16384 ->
  (h <=? s32 (y + 32)) && (y <? h) && (Z.land (s32 (h - 1) ≫ 5) 0x1 =? 0) && (Z.land (y ≫ 5) 0x1 =? 0) =
  (y `div` 32 =? (h - 1) `div` 32) && negb ((y `div` 32) `mod` 2 =? 1).
Proof.
  intros Hy Hh. rewrite !s32_small by lia. rewrite !(shr_div 5 32) by (first [lia|done]).
  autorewrite with bits. apply eq_true_iff_eq.
  rewrite !andb_true_iff, negb_true_iff, !Z.leb_le, Z.ltb_lt, !Z.eqb_eq, Z.eqb_neq. clear -Hy. dlia.
Qed.

(** Its bank number. *)
Lemma bank_bits x y : 0 <= x -> 0 <= y ->
  (if Z.land ((x ≫ 2) ≫ 5) 0x1 =? Z.land (y ≫ 5) 0x1 then Z.land ((x ≫ 2) ≫ 4) 0x1
   else Z.lor 0x2 (Z.land ((x ≫ 2) ≫ 4) 0x1)) =
  (if (x `div` 128) `mod` 2 =? (y `div` 32) `mod` 2 then 0 else 2) + (x `div` 64) `mod` 2.
Proof.
  intros Hx Hy. rewrite !Z.shiftr_shiftr by lia. change (2 + 5) with 7. change (2 + 4) with 6. bits.
  destruct (_ =? _); [done|]. apply lor_0x2. clear. dlia.
Qed.

(** In a plane of at most 16384 by 16384 the routine gives the address of the
    four bytes the byte belongs to. *)
Lemma tile_4x2_read_spec w h x y :
  0 <= x < w -> 0 <= y < h -> w <= 16384 -> h <= 16384 ->
  tile_4x2_read w h x y = toff w h x y - x `mod` 4.
Proof.
  intros Hx Hy Hw Hh. unfold tile_4x2_read. cbv zeta. rewrite last_row_test by done.
  rewrite bank_bits by lia.
  rewrite (s32_small (w - 1)) by lia. rewrite (shr_div 7 128 (w - 1)) by (first [lia|done]).
  assert (Hrx : 0 <= (w - 1) `div` 128 + 1 <= 128) by (clear -Hx Hw; dlia).
  rewrite (s32_small (_ `div` 128 + 1)) by lia.
  assert (Hnx : blocks_x w = 2 * ((w - 1) `div` 128 + 1)) by (unfold blocks_x; clear; dlia).
  set (rx := (w - 1) `div` 128 + 1) in *.
  assert (Hy6 : Z.land (y ≫ 6) 0xff = y `div` 64 /\ 0 <= y `div` 64 <= 256).
  { bits. clear -Hy Hh. dlia. }
  destruct Hy6 as [-> Hy6]. assert (Hyr : 0 <= y `div` 64 * rx <= 256 * 128) by (clear -Hy6 Hrx; nia).
  rewrite !(s32_small (y `div` 64 * rx)) by lia.
  rewrite !Z.shiftr_shiftr by lia. change (2 + 5) with 7. change (2 + 6) with 8.
  rewrite (shr_div 7 128 x), (shr_div 8 256 x) by (first [lia|done]).
  rewrite (land_0x7f (x `div` 128)), (land_0x3f (x `div` 256)).
  assert (Hx1 : (x `div` 128) `mod` 128 = x `div` 128 /\ 0 <= x `div` 128 <= 128) by (clear -Hx Hw; dlia).
  assert (Hx2 : (x `div` 256) `mod` 64 = x `div` 256 /\ 0 <= x `div` 256 <= 64) by (clear -Hx Hw; dlia).
  destruct Hx1 as [-> Hx1], Hx2 as [-> Hx2].
  rewrite (s32_small (_ + x `div` 128)), (s32_small (_ + x `div` 256)) by lia.
  unfold toff, block. rewrite Hnx.
  assert (Hlow : 0 <= 64 * (y `mod` 32) + (x `mod` 64 - x `mod` 4) < 2048) by (clear; dlia).
  assert (Hbank : 0 <= (if (x `div` 128) `mod` 2 =? (y `div` 32) `mod` 2 then 0 else 2) + (x `div` 64) `mod` 2 < 4).
  { destruct (_ =? _); clear; dlia. }
  assert (Hpair : (y `div` 32) `mod` 2 = 1 /\ (y `div` 32 - 1) * (2 * rx) = 4 * (y `div` 64 * rx) \/
                  (y `div` 32) `mod` 2 = 0 /\ y `div` 32 * (2 * rx) = 4 * (y `div` 64 * rx)).
  { assert (Hd : (y `div` 32) `mod` 2 = 1 /\ y `div` 32 = 2 * (y `div` 64) + 1 \/
                 (y `div` 32) `mod` 2 = 0 /\ y `div` 32 = 2 * (y `div` 64)) by (clear; dlia).
    destruct Hd as [[E1 E2]|[E1 E2]]; [left|right]; (split; [exact E1|rewrite E2; lia]). }
  assert (H128 : x `div` 128 = (x `div` 64) `div` 2) by (clear; dlia).
  assert (H256 : x `div` 256 = (x `div` 64) `div` 4) by (clear; dlia).
  destruct Hpair as [[Eo Hp]|[Ee Hp]].
  - rewrite Eo in *. rewrite andb_false_r. cbv iota. change (1 =? 1) with true. cbv iota.
    rewrite tile_low_bits by lia. rewrite tile_bits by lia. rewrite Hp.
    rewrite H128. clear. set (u := x `div` 64).
    destruct (Z.eqb_spec ((u `div` 2) `mod` 2) 1) as [E|E]; clear -E; dlia.
  - rewrite Ee in *. change (0 =? 1) with false. rewrite andb_true_r. cbv iota. rewrite Hp.
    destruct (y `div` 32 =? (h - 1) `div` 32).
    + rewrite tile_low_bits by lia. rewrite tile_bits by lia.
      rewrite H128, ?H256. clear. set (u := x `div` 64).
      destruct (Z.eqb_spec ((u `div` 2) `mod` 2) 0) as [E|E]; clear -E; dlia.
    + rewrite tile_low_bits by lia. rewrite tile_bits by lia.
      rewrite H128, ?H256. clear. set (u := x `div` 64).
      destruct (Z.eqb_spec ((u `div` 2) `mod` 2) 0) as [E|E]; clear -E; dlia.
Qed.

(** ** Theorems *)

(**  In planes of up to 16384 by 16384 [tile_4x2_read], completed by the column
    within the four-byte group, gives every pixel an address inside the tiled
    plane, and no two pixels the same one; the address is the one of the block
    layout, whichever branch of the routine computes it. *)
Theorem tile_4x2_read_injective w h x y x' y' :
  w <= 16384 -> h <= 16384 -> 0 <= x < w -> 0 <= y < h -> 0 <= x' < w -> 0 <= y' < h ->
  let addr x y := tile_4x2_read w h x y + Z.land x 0x3 in
  addr x y = toff w h x y /\ 0 <= addr x y < size128 w h /\
  (addr x y = addr x' y' -> x = x' /\ y = y').
Proof.
  intros Hw Hh Hx Hy Hx' Hy' addr.
  assert (Ha : forall x y, 0 <= x < w -> 0 <= y < h -> addr x y = toff w h x y).
  { clear -Hw Hh. intros x y Hx Hy. unfold addr. rewrite tile_4x2_read_spec, land_0x3 by lia. lia. }
  rewrite !Ha by lia. split; [done|]. split; [apply toff_bounds; lia|]. apply toff_inj; lia.
Qed.

Lemma tile_4x2_read_injective_witness :
  let addr x y := tile_4x2_read 640 96 x y + Z.land x 0x3 in
  addr 333 40 = toff 640 96 333 40 /\ 0 <= addr 333 40 < size128 640 96 /\
  (addr 333 40 = addr 5 70 -> 333 = 5 /\ 40 = 70).
Proof. apply (tile_4x2_read_injective 640 96 333 40 5 70); lia. Defined.
