(* ===== verification/Crop.v ===== *)
(** * 128x64 tiled frames: tiled to linear with cropping

    [csc_tiled_to_linear_crop] and [csc_tiled_to_linear_deinterleave_crop] of
    [src/libswconverter/swconvertor.c] (configuration [USE_NV12T_128X64]).  Each
    has three ways to go through a row, chosen by the cropped width: 256 columns
    at a time, 64 at a time, two at a time. *)

From S2P Require Import Prelude CMem Interleave Tile16 Tile128.

(** ** Operations *)

(** The offsets of the blocks that hold columns [j] rounded down to 256 and 128
    columns on, in the row of blocks of row [i], and the distance in blocks to
    the next 256 columns: [tiled_offset], [tiled_offset1] and [temp4]. *)
Definition wide_offsets (yuv420_width yuv420_height j i : Z) : Z * Z * Z :=
  let temp3 := (j ≫ 8) ^<< 8 in
  let temp3 := temp3 ≫ 6 in
  let temp4 := i ≫ 5 in
  if negb (Z.land temp4 0x1 =? 0) then
    let tiled_offset := temp4 ^- 1 in
    let temp1 := ((yuv420_width ^+ 127) ≫ 7) ^<< 7 in
    let tiled_offset := tiled_offset ^* (temp1 ≫ 6) in
    let tiled_offset := tiled_offset ^+ temp3 in
    let tiled_offset := tiled_offset ^+ 2 in
    let temp1 := (temp3 ≫ 2) ^<< 2 in
    let tiled_offset := tiled_offset ^+ temp1 in
    let tiled_offset := tiled_offset ^<< 11 in
    (tiled_offset, tiled_offset ^+ (2048 * 2), 8)
  else
    let temp2 := ((yuv420_height ^+ 31) ≫ 5) ^<< 5 in
    if i ^+ 32 <? temp2 then
      let temp1 := temp3 ^+ 2 in
      let temp1 := (temp1 ≫ 2) ^<< 2 in
      let tiled_offset := temp3 ^+ temp1 in
      let temp1 := ((yuv420_width ^+ 127) ≫ 7) ^<< 7 in
      let tiled_offset := tiled_offset ^+ (temp4 ^* (temp1 ≫ 6)) in
      let tiled_offset := tiled_offset ^<< 11 in
      (tiled_offset, tiled_offset ^+ (2048 * 6), 8)
    else
      let temp1 := ((yuv420_width ^+ 127) ≫ 7) ^<< 7 in
      let tiled_offset := temp4 ^* (temp1 ≫ 6) in
      let tiled_offset := tiled_offset ^+ temp3 in
      let tiled_offset := tiled_offset ^<< 11 in
      (tiled_offset, tiled_offset ^+ (2048 * 2), 4).

(** One row of [csc_tiled_to_linear_crop], 256 columns at a time. *)
Definition crop_wide_row (yuv420_dest nv12t_src yuv420_width yuv420_height left top right i : Z) : M unit :=
  let j := left in
  let '(tiled_offset, tiled_offset1, temp4) := wide_offsets yuv420_width yuv420_height j i in
  let temp1 := Z.land i 0x1F in
  let tiled_offset := tiled_offset ^+ (64 ^* temp1) in
  let tiled_offset1 := tiled_offset1 ^+ (64 ^* temp1) in
  let temp2 := yuv420_width ^- left ^- right in
  let linear_offset := temp2 ^* (i ^- top) in
  let temp3 := ((j ^+ 256) ≫ 8) ^<< 8 in
  let temp3 := temp3 ^- j in
  let temp1 := Z.land left 0x3F in
  let! linear_offset :=
    if 192 <? temp3 then
      memcpy (yuv420_dest + linear_offset) (nv12t_src + tiled_offset + temp1) (64 ^- temp1) ;!
      memcpy (yuv420_dest + linear_offset + 64 - temp1) (nv12t_src + tiled_offset + 2048) 64 ;!
      memcpy (yuv420_dest + linear_offset + 128 - temp1) (nv12t_src + tiled_offset1) 64 ;!
      memcpy (yuv420_dest + linear_offset + 192 - temp1) (nv12t_src + tiled_offset1 + 2048) 64 ;!
      ret (linear_offset ^+ 256 ^- temp1)
    else if 128 <? temp3 then
      memcpy (yuv420_dest + linear_offset) (nv12t_src + tiled_offset + 2048 + temp1) (64 ^- temp1) ;!
      memcpy (yuv420_dest + linear_offset + 64 - temp1) (nv12t_src + tiled_offset1) 64 ;!
      memcpy (yuv420_dest + linear_offset + 128 - temp1) (nv12t_src + tiled_offset1 + 2048) 64 ;!
      ret (linear_offset ^+ 192 ^- temp1)
    else if 64 <? temp3 then
      memcpy (yuv420_dest + linear_offset) (nv12t_src + tiled_offset1 + temp1) (64 ^- temp1) ;!
      memcpy (yuv420_dest + linear_offset + 64 - temp1) (nv12t_src + tiled_offset1 + 2048) 64 ;!
      ret (linear_offset ^+ 128 ^- temp1)
    else if 0 <? temp3 then
      memcpy (yuv420_dest + linear_offset) (nv12t_src + tiled_offset1 + 2048 + temp1) (64 ^- temp1) ;!
      ret (linear_offset ^+ 64 ^- temp1)
    else ret linear_offset in
  let tiled_offset := tiled_offset ^+ (temp4 ^* 2048) in
  let j := (left ≫ 8) ^<< 8 in
  let j := j ^+ 256 in
  let temp2 := yuv420_width ^- right ^- 256 in
  let! r := for_loop (Z.to_nat yuv420_width) (fun j => j <=? temp2) (fun j => j ^+ 256)
    (fun j '(linear_offset, tiled_offset, tiled_offset1) =>
       memcpy (yuv420_dest + linear_offset) (nv12t_src + tiled_offset) 64 ;!
       let tiled_offset1 := tiled_offset1 ^+ (temp4 ^* 2048) in
       memcpy (yuv420_dest + linear_offset + 64) (nv12t_src + tiled_offset + 2048) 64 ;!
       memcpy (yuv420_dest + linear_offset + 128) (nv12t_src + tiled_offset1) 64 ;!
       let tiled_offset := tiled_offset ^+ (temp4 ^* 2048) in
       memcpy (yuv420_dest + linear_offset + 192) (nv12t_src + tiled_offset1 + 2048) 64 ;!
       ret (linear_offset ^+ 256, tiled_offset, tiled_offset1)) j (linear_offset, tiled_offset, tiled_offset1) in
  let '(j, (linear_offset, tiled_offset, tiled_offset1)) := r in
  let tiled_offset1 := tiled_offset1 ^+ (temp4 ^* 2048) in
  let temp2 := yuv420_width ^- right ^- j in
  if 192 <? temp2 then
    memcpy (yuv420_dest + linear_offset) (nv12t_src + tiled_offset) 64 ;!
    memcpy (yuv420_dest + linear_offset + 64) (nv12t_src + tiled_offset + 2048) 64 ;!
    memcpy (yuv420_dest + linear_offset + 128) (nv12t_src + tiled_offset1) 64 ;!
    memcpy (yuv420_dest + linear_offset + 192) (nv12t_src + tiled_offset1 + 2048) (temp2 ^- 192)
  else if 128 <? temp2 then
    memcpy (yuv420_dest + linear_offset) (nv12t_src + tiled_offset) 64 ;!
    memcpy (yuv420_dest + linear_offset + 64) (nv12t_src + tiled_offset + 2048) 64 ;!
    memcpy (yuv420_dest + linear_offset + 128) (nv12t_src + tiled_offset1) (temp2 ^- 128)
  else if 64 <? temp2 then
    memcpy (yuv420_dest + linear_offset) (nv12t_src + tiled_offset) 64 ;!
    memcpy (yuv420_dest + linear_offset + 64) (nv12t_src + tiled_offset + 2048) (temp2 ^- 64)
  else memcpy (yuv420_dest + linear_offset) (nv12t_src + tiled_offset) temp2.

(** One row, 64 columns at a time; [temp1] is the cropped width and [temp3] the
    right edge. *)
Definition crop_mid_row (yuv420_dest nv12t_src yuv420_width yuv420_height left top temp1 temp3 i : Z) : M unit :=
  let j := left in
  let tiled_offset := u32 (tile_4x2_read yuv420_width yuv420_height j i) in
  let temp2 := ((j ^+ 64) ≫ 6) ^<< 6 in
  let temp2 := temp2 ^- j in
  let linear_offset := temp1 ^* (i ^- top) in
  let temp4 := Z.land j 0x3 in
  let tiled_offset := tiled_offset ^+ temp4 in
  memcpy (yuv420_dest + linear_offset) (nv12t_src + tiled_offset) temp2 ;!
  let linear_offset := linear_offset ^+ temp2 in
  let j := j ^+ temp2 in
  let full (linear_offset j : Z) : M (Z * Z) :=
    if j ^+ 64 <=? temp3 then
      let tiled_offset := u32 (tile_4x2_read yuv420_width yuv420_height j i) in
      memcpy (yuv420_dest + linear_offset) (nv12t_src + tiled_offset) 64 ;!
      ret (linear_offset ^+ 64, j ^+ 64)
    else ret (linear_offset, j) in
  let! (linear_offset, j) := full linear_offset j in
  let! (linear_offset, j) := full linear_offset j in
  when (j <? temp3)
    (let tiled_offset := u32 (tile_4x2_read yuv420_width yuv420_height j i) in
     let temp2 := temp3 ^- j in
     memcpy (yuv420_dest + linear_offset) (nv12t_src + tiled_offset) temp2).

(** One row, two columns at a time. *)
Definition crop_narrow_row (yuv420_dest nv12t_src yuv420_width yuv420_height left top right temp1 i : Z) : M unit :=
  let linear_offset := temp1 ^* (i ^- top) in
  for_u left (yuv420_width ^- right) 2 linear_offset (fun j linear_offset =>
    let tiled_offset := u32 (tile_4x2_read yuv420_width yuv420_height j i) in
    let temp4 := Z.land j 0x3 in
    let tiled_offset := tiled_offset ^+ temp4 in
    memcpy (yuv420_dest + linear_offset) (nv12t_src + tiled_offset) 2 ;!
    ret (linear_offset ^+ 2)) ;!
  ret tt.

Definition csc_tiled_to_linear_crop
    (yuv420_dest nv12t_src yuv420_width yuv420_height left top right buttom : Z) : M unit :=
  let temp3 := yuv420_width ^- right in
  let temp1 := temp3 ^- left in
  if 256 <=? temp1 then
    for_each top (yuv420_height ^- buttom) 1 (fun i =>
      crop_wide_row yuv420_dest nv12t_src yuv420_width yuv420_height left top right i)
  else if 64 <=? temp1 then
    for_each top (yuv420_height ^- buttom) 1 (fun i =>
      crop_mid_row yuv420_dest nv12t_src yuv420_width yuv420_height left top temp1 temp3 i)
  else
    for_each top (yuv420_height ^- buttom) 1 (fun i =>
      crop_narrow_row yuv420_dest nv12t_src yuv420_width yuv420_height left top right temp1 i).

(** The rows of [csc_tiled_to_linear_deinterleave_crop]. *)
Definition deinterleave_wide_row
    (yuv420_u_dest yuv420_v_dest nv12t_uv_src yuv420_width yuv420_uv_height left top right i : Z) : M unit :=
  let j := left in
  let '(tiled_offset, tiled_offset1, temp4) := wide_offsets yuv420_width yuv420_uv_height j i in
  let temp1 := Z.land i 0x1F in
  let tiled_offset := tiled_offset ^+ (64 ^* temp1) in
  let tiled_offset1 := tiled_offset1 ^+ (64 ^* temp1) in
  let temp2 := yuv420_width ^- left ^- right in
  let linear_offset := (temp2 ^* (i ^- top)) `div` 2 in
  let temp3 := ((j ^+ 256) ≫ 8) ^<< 8 in
  let temp3 := temp3 ^- j in
  let temp1 := Z.land left 0x3F in
  let copy0 linear_offset :=
    csc_deinterleave_memcpy (yuv420_u_dest + linear_offset) (yuv420_v_dest + linear_offset) in
  let copy linear_offset k :=
    csc_deinterleave_memcpy (yuv420_u_dest + linear_offset + k) (yuv420_v_dest + linear_offset + k) in
  let! linear_offset :=
    if 192 <? temp3 then
      copy0 linear_offset (nv12t_uv_src + tiled_offset + temp1) (64 ^- temp1) ;!
      copy linear_offset (32 ^- temp1 `div` 2) (nv12t_uv_src + tiled_offset + 2048) 64 ;!
      copy linear_offset (64 ^- temp1 `div` 2) (nv12t_uv_src + tiled_offset1) 64 ;!
      copy linear_offset (96 ^- temp1 `div` 2) (nv12t_uv_src + tiled_offset1 + 2048) 64 ;!
      ret (linear_offset ^+ 128 ^- temp1 `div` 2)
    else if 128 <? temp3 then
      copy0 linear_offset (nv12t_uv_src + tiled_offset + 2048 + temp1) (64 ^- temp1) ;!
      copy linear_offset (32 ^- temp1 `div` 2) (nv12t_uv_src + tiled_offset1) 64 ;!
      copy linear_offset (64 ^- temp1 `div` 2) (nv12t_uv_src + tiled_offset1 + 2048) 64 ;!
      ret (linear_offset ^+ 96 ^- temp1 `div` 2)
    else if 64 <? temp3 then
      copy0 linear_offset (nv12t_uv_src + tiled_offset1 + temp1) (64 ^- temp1) ;!
      copy linear_offset (32 ^- temp1 `div` 2) (nv12t_uv_src + tiled_offset1 + 2048) 64 ;!
      ret (linear_offset ^+ 64 ^- temp1 `div` 2)
    else if 0 <? temp3 then
      copy0 linear_offset (nv12t_uv_src + tiled_offset1 + 2048 + temp1) (64 ^- temp1) ;!
      ret (linear_offset ^+ 32 ^- temp1 `div` 2)
    else ret linear_offset in
  let tiled_offset := tiled_offset ^+ (temp4 ^* 2048) in
  let j := (left ≫ 8) ^<< 8 in
  let j := j ^+ 256 in
  let temp2 := yuv420_width ^- right ^- 256 in
  let! r := for_loop (Z.to_nat yuv420_width) (fun j => j <=? temp2) (fun j => j ^+ 256)
    (fun j '(linear_offset, tiled_offset, tiled_offset1) =>
       copy0 linear_offset (nv12t_uv_src + tiled_offset) 64 ;!
       let tiled_offset1 := tiled_offset1 ^+ (temp4 ^* 2048) in
       copy linear_offset 32 (nv12t_uv_src + tiled_offset + 2048) 64 ;!
       copy linear_offset 64 (nv12t_uv_src + tiled_offset1) 64 ;!
       let tiled_offset := tiled_offset ^+ (temp4 ^* 2048) in
       copy linear_offset 96 (nv12t_uv_src + tiled_offset1 + 2048) 64 ;!
       ret (linear_offset ^+ 128, tiled_offset, tiled_offset1)) j (linear_offset, tiled_offset, tiled_offset1) in
  let '(j, (linear_offset, tiled_offset, tiled_offset1)) := r in
  let tiled_offset1 := tiled_offset1 ^+ (temp4 ^* 2048) in
  let temp2 := yuv420_width ^- right ^- j in
  if 192 <? temp2 then
    copy0 linear_offset (nv12t_uv_src + tiled_offset) 64 ;!
    copy linear_offset 32 (nv12t_uv_src + tiled_offset + 2048) 64 ;!
    copy linear_offset 64 (nv12t_uv_src + tiled_offset1) 64 ;!
    copy linear_offset 96 (nv12t_uv_src + tiled_offset1 + 2048) (temp2 ^- 192)
  else if 128 <? temp2 then
    copy0 linear_offset (nv12t_uv_src + tiled_offset) 64 ;!
    copy linear_offset 32 (nv12t_uv_src + tiled_offset + 2048) 64 ;!
    copy linear_offset 64 (nv12t_uv_src + tiled_offset1) (temp2 ^- 128)
  else if 64 <? temp2 then
    copy0 linear_offset (nv12t_uv_src + tiled_offset) 64 ;!
    copy linear_offset 32 (nv12t_uv_src + tiled_offset + 2048) (temp2 ^- 64)
  else copy0 linear_offset (nv12t_uv_src + tiled_offset) temp2.

Definition deinterleave_mid_row
    (yuv420_u_dest yuv420_v_dest nv12t_uv_src yuv420_width yuv420_uv_height left top right i : Z) : M unit :=
  let j := left in
  let tiled_offset := u32 (tile_4x2_read yuv420_width yuv420_uv_height j i) in
  let temp2 := ((j ^+ 64) ≫ 6) ^<< 6 in
  let temp2 := temp2 ^- j in
  let temp3 := yuv420_width ^- right in
  let temp4 := temp3 ^- left in
  let linear_offset := (temp4 ^* (i ^- top)) `div` 2 in
  let temp4 := Z.land j 0x3 in
  let tiled_offset := tiled_offset ^+ temp4 in
  let copy linear_offset :=
    csc_deinterleave_memcpy (yuv420_u_dest + linear_offset) (yuv420_v_dest + linear_offset) in
  copy linear_offset (nv12t_uv_src + tiled_offset) temp2 ;!
  let linear_offset := linear_offset ^+ temp2 `div` 2 in
  let j := j ^+ temp2 in
  let full (linear_offset j : Z) : M (Z * Z) :=
    if j ^+ 64 <=? temp3 then
      let tiled_offset := u32 (tile_4x2_read yuv420_width yuv420_uv_height j i) in
      copy linear_offset (nv12t_uv_src + tiled_offset) 64 ;!
      ret (linear_offset ^+ 32, j ^+ 64)
    else ret (linear_offset, j) in
  let! (linear_offset, j) := full linear_offset j in
  let! (linear_offset, j) := full linear_offset j in
  when (j <? temp3)
    (let tiled_offset := u32 (tile_4x2_read yuv420_width yuv420_uv_height j i) in
     let temp1 := temp3 ^- j in
     copy linear_offset (nv12t_uv_src + tiled_offset) temp1).

Definition deinterleave_narrow_row
    (yuv420_u_dest yuv420_v_dest nv12t_uv_src yuv420_width yuv420_uv_height left top right i : Z) : M unit :=
  let temp3 := yuv420_width ^- right in
  let temp4 := temp3 ^- left in
  let linear_offset := (temp4 ^* (i ^- top)) `div` 2 in
  for_u left (yuv420_width ^- right) 2 linear_offset (fun j linear_offset =>
    let tiled_offset := u32 (tile_4x2_read yuv420_width yuv420_uv_height j i) in
    let temp3 := Z.land j 0x3 in
    let tiled_offset := tiled_offset ^+ temp3 in
    csc_deinterleave_memcpy (yuv420_u_dest + linear_offset) (yuv420_v_dest + linear_offset)
      (nv12t_uv_src + tiled_offset) 2 ;!
    ret (linear_offset ^+ 1)) ;!
  ret tt.

Definition csc_tiled_to_linear_deinterleave_crop
    (yuv420_u_dest yuv420_v_dest nv12t_uv_src yuv420_width yuv420_uv_height left top right buttom : Z) : M unit :=
  let temp3 := yuv420_width ^- right in
  let temp1 := temp3 ^- left in
  if 256 <=? temp1 then
    for_each top (yuv420_uv_height ^- buttom) 1 (fun i =>
      deinterleave_wide_row yuv420_u_dest yuv420_v_dest nv12t_uv_src yuv420_width yuv420_uv_height left top right i)
  else if 64 <=? temp1 then
    for_each top (yuv420_uv_height ^- buttom) 1 (fun i =>
      deinterleave_mid_row yuv420_u_dest yuv420_v_dest nv12t_uv_src yuv420_width yuv420_uv_height left top right i)
  else
    for_each top (yuv420_uv_height ^- buttom) 1 (fun i =>
      deinterleave_narrow_row yuv420_u_dest yuv420_v_dest nv12t_uv_src yuv420_width yuv420_uv_height left top right i).

(** ** Groups of four blocks

    In a row of blocks, the address is affine in the group of 256 columns. *)

Section group.
Context (w h i : Z).

(** Offset of the third block of a group, and distance in blocks of two groups. *)
Definition third : Z :=
  if ((i `div` 32) `mod` 2 =? 0) && negb (i `div` 32 =? (h - 1) `div` 32) then 12288 else 4096.
Definition group_step : Z :=
  if ((i `div` 32) `mod` 2 =? 0) && (i `div` 32 =? (h - 1) `div` 32) then 4 else 8.
Definition row_base : Z := 2048 * block (blocks_x w) ((h - 1) `div` 32) 0 (i `div` 32).
Definition in_group (b : Z) : Z := match b with 0 => 0 | 1 => 2048 | 2 => third | _ => third + 2048 end.

Lemma block_group g b : 0 <= b < 4 ->
  2048 * block (blocks_x w) ((h - 1) `div` 32) (4 * g + b) (i `div` 32) =
  row_base + 2048 * group_step * g + in_group b.
Proof.
  intros Hb. unfold row_base, in_group, third, group_step, block. change (0 `div` 4) with 0. change ((0 + 2) `div` 4) with 0.
  assert (b = 0 \/ b = 1 \/ b = 2 \/ b = 3) as Hc by lia.
  assert (E1 : (4 * g + b) `div` 4 = g) by (clear -Hb; dlia).
  assert (E2 : (4 * g + b + 2) `div` 4 = if b <? 2 then g else g + 1).
  { destruct (Z.ltb_spec b 2); clear -Hb H; dlia. }
  rewrite E1, E2. assert (E : (i `div` 32) `mod` 2 = 0 \/ (i `div` 32) `mod` 2 = 1) by (clear; dlia).
  destruct E as [-> | ->]; simpl; [destruct (_ =? _); simpl|];
    (destruct Hc as [-> |[-> |[-> | ->]]]; simpl; lia).
Qed.

Lemma toff_group g b r : 0 <= b < 4 -> 0 <= r < 64 ->
  toff w h (256 * g + 64 * b + r) i =
  row_base + 2048 * group_step * g + in_group b + 64 * (i `mod` 32) + r.
Proof.
  intros Hb Hr. unfold toff. replace (256 * g + 64 * b + r) with (64 * (4 * g + b) + r) by lia.
  rewrite div_block, mod_block by lia. rewrite block_group by lia. lia.
Qed.

Lemma group_step_cases : group_step = 4 \/ group_step = 8.
Proof. unfold group_step. destruct (_ && _); auto. Qed.
Lemma third_cases : third = 4096 \/ third = 12288.
Proof. unfold third. destruct (_ && _); auto. Qed.

Context (w_bound : 0 < w <= 16384) (h_bound : h <= 16384) (i_bound : 0 <= i < h).

Lemma row_base_bounds : 0 <= row_base < 2 ^ 28 + 1.
Proof.
  unfold row_base.
  assert (Hb : 0 <= blocks_x w <= 256) by (unfold blocks_x; clear -w_bound; dlia).
  assert (Hn : blocks_x w `mod` 2 = 0) by (unfold blocks_x; clear; dlia).
  assert (Hx : 0 < blocks_x w) by (unfold blocks_x; clear -w_bound; dlia).
  pose proof (block_bounds (blocks_x w) ((h - 1) `div` 32) 0 (i `div` 32) Hn) as H.
  assert (0 <= i `div` 32 <= (h - 1) `div` 32 /\ (h - 1) `div` 32 < 512) by (clear -i_bound h_bound; dlia). nia.
Qed.

Lemma wide_offsets_spec j : 0 <= j < w ->
  wide_offsets w h j i =
  (row_base + 2048 * group_step * (j `div` 256), row_base + 2048 * group_step * (j `div` 256) + third, group_step).
Proof.
  intros Hj. pose proof (block_group (j `div` 256) 0 ltac:(lia)) as HB.
  change (in_group 0) with 0 in HB. rewrite !Z.add_0_r in HB. rewrite <- HB. clear HB.
  unfold wide_offsets. cbv zeta.
  rewrite (shr_div 8 256 j) by (first [lia|done]).
  rewrite (shl_mul 8 256), (shr_div 5 32 i) by (first [lia|done]). autorewrite with bits.
  assert (Hg : 0 <= j `div` 256 < 64) by (clear -Hj w_bound; dlia). set (g := j `div` 256) in *.
  rewrite (u32_small (g * 256)) by lia. rewrite (shr_div 6 64 (g * 256)) by (first [lia|done]).
  replace ((g * 256) `div` 64) with (4 * g) by (clear; dlia).
  assert (Hnx : (((w ^+ 127) ≫ 7) ^<< 7) ≫ 6 = blocks_x w /\ 0 <= blocks_x w <= 256).
  { rewrite (u32_small (w + 127)) by lia. unfold blocks_x. shifts.
    rewrite u32_small by (clear -w_bound; dlia). clear -w_bound. dlia. }
  destruct Hnx as [-> Hnx]. assert (Hy : 0 <= i `div` 32 < 512) by (clear -i_bound h_bound; dlia).
  replace (((4 * g) ≫ 2) ^<< 2) with (4 * g).
  2: { shifts. rewrite u32_small; clear -Hg; dlia. }
  replace ((((4 * g) ^+ 2) ≫ 2) ^<< 2) with (4 * g).
  2: { rewrite (u32_small (4 * g + 2)) by lia. shifts. rewrite u32_small; clear -Hg; dlia. }
  assert (Hlast : (i ^+ 32 <? ((h ^+ 31) ≫ 5) ^<< 5) = true <-> i `div` 32 < (h - 1) `div` 32).
  { rewrite (u32_small (i + 32)), (u32_small (h + 31)) by lia. shifts.
    rewrite u32_small by (clear -h_bound i_bound; dlia). rewrite Z.ltb_lt. clear -i_bound. dlia. }
  set (nx := blocks_x w) in *. set (by_ := i `div` 32) in *.
  unfold third, group_step, block. fold by_.
  replace ((4 * g) `div` 4) with g by (clear; dlia). replace ((4 * g + 2) `div` 4) with g by (clear; dlia).
  assert (E : by_ `mod` 2 = 0 \/ by_ `mod` 2 = 1) by (clear; dlia).
  assert (Hle : by_ <= (h - 1) `div` 32) by (unfold by_; clear -i_bound; dlia).
  assert (Hprod : 0 <= by_ * nx <= 511 * 256) by (clear -Hy Hnx; nia).
  destruct E as [E|E]; rewrite E; simpl.
  - destruct (i ^+ 32 <? _) eqn:El.
    + assert (Hlt : by_ < (h - 1) `div` 32) by tauto.
      rewrite (proj2 (Z.eqb_neq _ _)) by lia. simpl.
      rewrite (u32_small (4 * g + 4 * g)), (u32_small (by_ * nx)), (u32_small (_ + by_ * nx)) by lia.
      shifts. rewrite (u32_small (_ * 2048)) by lia. rewrite u32_small by lia. repeat apply (f_equal2 pair); lia.
    + assert (by_ = (h - 1) `div` 32) as He by lia. rewrite (proj2 (Z.eqb_eq _ _) He). simpl.
      rewrite (u32_small (by_ * nx)), (u32_small (by_ * nx + _)) by lia.
      shifts. rewrite (u32_small (_ * 2048)) by lia. rewrite u32_small by lia. repeat apply (f_equal2 pair); lia.
  - assert (1 <= by_) by (clear -E Hy; dlia).
    rewrite (u32_small (by_ - 1)) by lia. rewrite (u32_small ((by_ - 1) * nx)) by nia.
    assert (0 <= (by_ - 1) * nx <= 511 * 256) by nia.
    rewrite (u32_small ((by_ - 1) * nx + 4 * g)) by lia. rewrite (u32_small (_ + 2)), (u32_small (_ + 4 * g)) by lia.
    shifts. rewrite (u32_small (_ * 2048)) by lia. rewrite u32_small by lia. repeat apply (f_equal2 pair); lia.
Qed.
End group.

(** ** The common row

    The two wide rows are one program; its parameters are the copy to a linear
    offset, the copies at a distance from it ([cph] in the first, partial group,
    where the distance is short of [temp1]; [cpd] elsewhere), the advances of the
    linear offset and its value at the start of the row. *)

Section nest.
Context (cp0 : Z -> Z -> Z -> M unit) (cph : Z -> Z -> Z -> Z -> Z -> M unit).
Context (cpd : Z -> Z -> Z -> Z -> M unit) (advh : Z -> Z -> Z -> Z) (advd : Z -> Z -> Z).

Definition wide_head (src lo tiled_offset tiled_offset1 temp3 temp1 : Z) : M Z :=
  if 192 <? temp3 then
    cp0 lo (src + tiled_offset + temp1) (64 ^- temp1) ;!
    cph lo 64 temp1 (src + tiled_offset + 2048) 64 ;!
    cph lo 128 temp1 (src + tiled_offset1) 64 ;!
    cph lo 192 temp1 (src + tiled_offset1 + 2048) 64 ;!
    ret (advh lo 256 temp1)
  else if 128 <? temp3 then
    cp0 lo (src + tiled_offset + 2048 + temp1) (64 ^- temp1) ;!
    cph lo 64 temp1 (src + tiled_offset1) 64 ;!
    cph lo 128 temp1 (src + tiled_offset1 + 2048) 64 ;!
    ret (advh lo 192 temp1)
  else if 64 <? temp3 then
    cp0 lo (src + tiled_offset1 + temp1) (64 ^- temp1) ;!
    cph lo 64 temp1 (src + tiled_offset1 + 2048) 64 ;!
    ret (advh lo 128 temp1)
  else if 0 <? temp3 then
    cp0 lo (src + tiled_offset1 + 2048 + temp1) (64 ^- temp1) ;!
    ret (advh lo 64 temp1)
  else ret lo.

Definition wide_group (src temp4 : Z) (_ : Z) : Z * Z * Z -> M (Z * Z * Z) :=
  fun '(lo, tiled_offset, tiled_offset1) =>
    cp0 lo (src + tiled_offset) 64 ;!
    let tiled_offset1 := tiled_offset1 ^+ (temp4 ^* 2048) in
    cpd lo 64 (src + tiled_offset + 2048) 64 ;!
    cpd lo 128 (src + tiled_offset1) 64 ;!
    let tiled_offset := tiled_offset ^+ (temp4 ^* 2048) in
    cpd lo 192 (src + tiled_offset1 + 2048) 64 ;!
    ret (advd lo 256, tiled_offset, tiled_offset1).

Definition wide_tail (src lo tiled_offset tiled_offset1 temp2 : Z) : M unit :=
  if 192 <? temp2 then
    cp0 lo (src + tiled_offset) 64 ;!
    cpd lo 64 (src + tiled_offset + 2048) 64 ;!
    cpd lo 128 (src + tiled_offset1) 64 ;!
    cpd lo 192 (src + tiled_offset1 + 2048) (temp2 ^- 192)
  else if 128 <? temp2 then
    cp0 lo (src + tiled_offset) 64 ;!
    cpd lo 64 (src + tiled_offset + 2048) 64 ;!
    cpd lo 128 (src + tiled_offset1) (temp2 ^- 128)
  else if 64 <? temp2 then
    cp0 lo (src + tiled_offset) 64 ;!
    cpd lo 64 (src + tiled_offset + 2048) (temp2 ^- 64)
  else cp0 lo (src + tiled_offset) temp2.

Definition wide_row (src w h left right start i : Z) : M unit :=
  let '(tiled_offset, tiled_offset1, temp4) := wide_offsets w h left i in
  let temp1 := Z.land i 0x1F in
  let tiled_offset := tiled_offset ^+ (64 ^* temp1) in
  let tiled_offset1 := tiled_offset1 ^+ (64 ^* temp1) in
  let temp3 := (((left ^+ 256) ≫ 8) ^<< 8) ^- left in
  let! lo := wide_head src start tiled_offset tiled_offset1 temp3 (Z.land left 0x3F) in
  let tiled_offset := tiled_offset ^+ (temp4 ^* 2048) in
  let j := ((left ≫ 8) ^<< 8) ^+ 256 in
  let temp2 := w ^- right ^- 256 in
  let! r := for_loop (Z.to_nat w) (fun j => j <=? temp2) (fun j => j ^+ 256)
    (wide_group src temp4) j (lo, tiled_offset, tiled_offset1) in
  let '(j, (lo, tiled_offset, tiled_offset1)) := r in
  wide_tail src lo tiled_offset (tiled_offset1 ^+ (temp4 ^* 2048)) (w ^- right ^- j).
End nest.

Lemma crop_wide_row_nest d s w h left top right i :
  crop_wide_row d s w h left top right i =
  wide_row (fun lo so n => memcpy (d + lo) so n) (fun lo k t so n => memcpy (d + lo + k - t) so n)
    (fun lo k so n => memcpy (d + lo + k) so n) (fun lo k t => lo ^+ k ^- t) (fun lo k => lo ^+ k)
    s w h left right ((w ^- left ^- right) ^* (i ^- top)) i.
Proof. reflexivity. Qed.

Lemma deinterleave_wide_row_nest u v s w h left top right i :
  deinterleave_wide_row u v s w h left top right i =
  wide_row (fun lo so n => csc_deinterleave_memcpy (u + lo) (v + lo) so n)
    (fun lo k t so n => csc_deinterleave_memcpy (u + lo + (k `div` 2 ^- t `div` 2)) (v + lo + (k `div` 2 ^- t `div` 2)) so n)
    (fun lo k so n => csc_deinterleave_memcpy (u + lo + k `div` 2) (v + lo + k `div` 2) so n)
    (fun lo k t => lo ^+ k `div` 2 ^- t `div` 2) (fun lo k => lo ^+ k `div` 2)
    s w h left right (((w ^- left ^- right) ^* (i ^- top)) `div` 2) i.
Proof. reflexivity. Qed.

(** Columns go to the row by bytes ([q = 1]) or by pairs ([q = 2]). *)
Definition even_for (q x : Z) : Prop := q = 1 \/ q = 2 /\ x `mod` 2 = 0.

Lemma even_for_lit q x : x `mod` 2 = 0 -> q = 1 \/ q = 2 -> even_for q x.
Proof. unfold even_for. tauto. Qed.
Lemma even_for_add q x y : even_for q x -> even_for q y -> even_for q (x + y).
Proof. unfold even_for. intros [?|[? ?]] [?|[? ?]]; auto. right. split; [done|]. dlia. Qed.
Lemma even_for_sub q x y : even_for q x -> even_for q y -> even_for q (x - y).
Proof. unfold even_for. intros [?|[? ?]] [?|[? ?]]; auto. right. split; [done|]. dlia. Qed.
Lemma even_for_mul q k x : k `mod` 2 = 0 -> q = 1 \/ q = 2 -> even_for q (k * x).
Proof.
  intros Hk Hq. apply even_for_lit; [|done]. rewrite Z.mul_mod, Hk by lia. done.
Qed.
Lemma even_for_cases q x : even_for q x -> q = 1 \/ q = 2.
Proof. unfold even_for. tauto. Qed.

(** Goals [even_for q e], with [e] a sum of even literals, multiples of them, and
    terms known to be even. *)
Ltac even_for :=
  repeat match goal with
  | H : even_for ?q ?x |- even_for ?q ?x => exact H
  | |- even_for _ (_ + _) => apply even_for_add
  | |- even_for _ (_ - _) => apply even_for_sub
  | |- even_for _ (_ * _) => apply even_for_mul; [reflexivity|]
  | |- even_for _ _ => apply even_for_lit; [reflexivity|]
  | H : even_for ?q _ |- ?q = 1 \/ ?q = 2 => exact (even_for_cases _ _ H)
  end.

Section wide.
Context (m0 : mem) (V : Z -> Z -> Prop).
Abbreviation writes := (writes m0 V).
Context (cp0 : Z -> Z -> Z -> M unit) (cph : Z -> Z -> Z -> Z -> Z -> M unit).
Context (cpd : Z -> Z -> Z -> Z -> M unit) (advh : Z -> Z -> Z -> Z) (advd : Z -> Z -> Z).
Context (src w h left right start i q : Z) (cov : Z -> Z -> Prop).
Abbreviation W := (w - right).

Abbreviation even_if := (even_for q).
Definition line_offset (P : Z) : Z := start + (P - left) `div` q.
Abbreviation LO := line_offset.
Definition cols (P n a : Z) : Prop := exists t, 0 <= t < n /\ cov (P + t) a.

Context (w_bound : 0 < w <= 16384) (h_bound : h <= 16384) (i_bound : 0 <= i < h).
Context (left_nonneg : 0 <= left) (right_nonneg : 0 <= right) (wide : left + 256 <= W).
Context (start_bound : 0 <= start < 2 ^ 31) (left_even : even_if left) (W_even : even_if W).
Context (seg0 : forall P n, left <= P -> 0 <= n -> P + n <= W -> P `mod` 64 + n <= 64 ->
  even_if P -> even_if n -> writes (cp0 (LO P) (src + toff w h P i) n) tt (cols P n)).
Context (cph_eq : forall P k t so n, left <= P <= W -> 0 <= t <= k -> k <= 256 -> even_if P -> even_if k -> even_if t ->
  cph (LO P) k t so n = cp0 (LO (P + k - t)) so n).
Context (cpd_eq : forall P k so n, left <= P <= W -> 0 <= k <= 256 -> even_if P -> even_if k ->
  cpd (LO P) k so n = cp0 (LO (P + k)) so n).
Context (advh_eq : forall P k t, left <= P <= W -> 0 <= t <= k -> k <= 256 -> even_if P -> even_if k -> even_if t ->
  advh (LO P) k t = LO (P + k - t)).
Context (advd_eq : forall P k, left <= P <= W -> 0 <= k <= 256 -> even_if P -> even_if k -> advd (LO P) k = LO (P + k)).

Lemma cols_app P n1 n2 a : 0 <= n1 -> 0 <= n2 -> cols P (n1 + n2) a -> cols P n1 a \/ cols (P + n1) n2 a.
Proof.
  intros H1 H2 (t & Ht & HC). destruct (Z.lt_ge_cases t n1).
  - left. exists t. split; [lia|done].
  - right. exists (t - n1). split; [lia|]. by replace (P + n1 + (t - n1)) with (P + t) by lia.
Qed.

(** Address of the row's part of the first block of group [g]. *)
Definition A (g : Z) : Z := row_base w h i + 2048 * group_step h i * g + 64 * (i `mod` 32).

(** One segment: [n] bytes from column [r] of block [b] of group [g] on. *)
Lemma writes_segment g b r n lo s P :
  P = 256 * g + 64 * b + r -> 0 <= b < 4 -> 0 <= r < 64 -> 0 <= n -> r + n <= 64 ->
  left <= P -> P + n <= W -> even_if P -> even_if n ->
  lo = LO P -> s = src + A g + in_group h i b + r -> writes (cp0 lo s n) tt (cols P n).
Proof.
  intros -> Hb Hr Hn Hrn Hl HW HP Hne -> ->.
  replace (src + A g + in_group h i b + r) with (src + toff w h (256 * g + 64 * b + r) i).
  2: { rewrite toff_group by lia. unfold A. lia. }
  apply seg0; try done. clear -Hb Hr Hrn. dlia.
Qed.

Lemma writes_cols_seq {B} (p : M unit) (k : M B) r P n1 n2 :
  0 <= n1 -> 0 <= n2 -> writes p tt (cols P n1) -> writes k r (cols (P + n1) n2) ->
  writes (p ;! k) r (cols P (n1 + n2)).
Proof.
  intros H1 H2 Hp Hk. eapply writes_weaken; [by eapply writes_seq|].
  intros a Ha. by apply cols_app.
Qed.

Lemma writes_cols_ret {B} (r : B) P : writes (ret r) r (cols P 0).
Proof. eapply writes_weaken; [apply writes_ret|]. intros a (t & Ht & _). lia. Qed.


(** The position of the left edge. *)
Context (g b r : Z) (left_eq : left = 256 * g + 64 * b + r) (b_bound : 0 <= b < 4) (r_bound : 0 <= r < 64).

Lemma r_even : even_if r.
Proof.
  replace r with (left - 256 * g - 64 * b) by lia. even_for.
Qed.

Lemma A_bounds k : 0 <= k <= 66 -> 0 <= A k < 2 ^ 30 /\ A (k + 1) = A k + 2048 * group_step h i.
Proof.
  intros Hk. pose proof (row_base_bounds w h i w_bound h_bound i_bound).
  assert (0 <= 64 * (i `mod` 32) < 2048) by (clear; dlia). unfold A.
  destruct (group_step_cases h i) as [-> | ->]; lia.
Qed.

Ltac segment g b r :=
  apply (writes_segment g b r);
    [lia|lia|lia|lia|lia|lia|lia|even_for|even_for|f_equal; lia|unfold in_group; lia].
Ltac first_segment g r := first [segment g 0 r|segment g 1 r|segment g 2 r|segment g 3 r].
Ltac segments g r :=
  repeat (apply writes_cols_seq; [lia|lia|first [first_segment g r|first_segment g 0]|]).

Lemma writes_wide_head :
  writes (wide_head cp0 cph advh src (LO left) (A g) (A g + third h i) (256 - 64 * b - r) r)
    (LO (256 * (g + 1))) (cols left (256 * (g + 1) - left)).
Proof.
  pose proof r_even as Hr.
  unfold wide_head. rewrite (u32_small (64 - r)) by lia.
  rewrite !cph_eq, !advh_eq by (try lia; even_for).
  assert (b = 0 \/ b = 1 \/ b = 2 \/ b = 3) as [E|[E|[E|E]]] by lia.
  - rewrite (proj2 (Z.ltb_lt 192 _)) by lia.
    replace (256 * (g + 1) - left) with (64 - r + (64 + (64 + (64 + 0)))) by lia.
    replace (left + 256 - r) with (256 * (g + 1)) by lia.
    segments g r. apply writes_cols_ret.
  - rewrite (proj2 (Z.ltb_ge 192 _)), (proj2 (Z.ltb_lt 128 _)) by lia.
    replace (256 * (g + 1) - left) with (64 - r + (64 + (64 + 0))) by lia.
    replace (left + 192 - r) with (256 * (g + 1)) by lia.
    segments g r. apply writes_cols_ret.
  - rewrite (proj2 (Z.ltb_ge 192 _)), (proj2 (Z.ltb_ge 128 _)), (proj2 (Z.ltb_lt 64 _)) by lia.
    replace (256 * (g + 1) - left) with (64 - r + (64 + 0)) by lia.
    replace (left + 128 - r) with (256 * (g + 1)) by lia.
    segments g r. apply writes_cols_ret.
  - rewrite (proj2 (Z.ltb_ge 192 _)), (proj2 (Z.ltb_ge 128 _)), (proj2 (Z.ltb_ge 64 _)), (proj2 (Z.ltb_lt 0 _)) by lia.
    replace (256 * (g + 1) - left) with (64 - r + 0) by lia.
    replace (left + 64 - r) with (256 * (g + 1)) by lia.
    segments g r. apply writes_cols_ret.
Qed.

Lemma writes_wide_group k j : 0 <= k -> 256 * (g + 1 + k) + 256 <= W ->
  writes (wide_group cp0 cpd advd src (group_step h i) j (LO (256 * (g + 1 + k)), A (g + 1 + k), A (g + k) + third h i))
    (LO (256 * (g + 1 + (k + 1))), A (g + 1 + (k + 1)), A (g + (k + 1)) + third h i)
    (cols (256 * (g + 1 + k)) 256).
Proof.
  intros Hk HW. pose proof (A_bounds (g + 1 + k)) as HA. pose proof (A_bounds (g + k)) as HA'.
  pose proof (third_cases h i) as Ht. pose proof (group_step_cases h i) as Hs.
  unfold wide_group. rewrite (u32_small (_ * 2048)) by lia.
  rewrite !(u32_small (_ + group_step h i * 2048)) by lia.
  replace (A (g + k) + third h i + group_step h i * 2048) with (A (g + 1 + k) + third h i)
    by (replace (g + 1 + k) with (g + k + 1) by lia; lia).
  rewrite !cpd_eq, !advd_eq by (try lia; even_for).
  set (g' := g + 1 + k) in *.
  replace (A g' + group_step h i * 2048) with (A (g + 1 + (k + 1)))
    by (replace (g + 1 + (k + 1)) with (g' + 1) by lia; lia).
  replace (g + (k + 1)) with g' by lia. replace (256 * g' + 256) with (256 * (g + 1 + (k + 1))) by lia.
  change (cols (256 * g') 256) with (cols (256 * g') (64 + (64 + (64 + (64 + 0))))).
  segments g' 0. apply writes_cols_ret.
Qed.

Lemma writes_wide_tail g' : g < g' -> 256 * g' <= W < 256 * g' + 256 ->
  writes (wide_tail cp0 cpd src (LO (256 * g')) (A g') (A g' + third h i) (W - 256 * g')) tt
    (cols (256 * g') (W - 256 * g')).
Proof.
  intros Hg HW. unfold wide_tail. set (n := W - 256 * g').
  assert (Hn : even_if n) by (unfold n; even_for).
  rewrite !cpd_eq by (try lia; even_for).
  destruct (Z.ltb_spec 192 n); [|destruct (Z.ltb_spec 128 n); [|destruct (Z.ltb_spec 64 n)]].
  - rewrite u32_small by lia. replace (cols (256 * g') n) with (cols (256 * g') (64 + (64 + (64 + (n - 192))))) by (f_equal; lia).
    segments g' 0. segment g' 3 0.
  - rewrite u32_small by lia. replace (cols (256 * g') n) with (cols (256 * g') (64 + (64 + (n - 128)))) by (f_equal; lia).
    segments g' 0. segment g' 2 0.
  - rewrite u32_small by lia. replace (cols (256 * g') n) with (cols (256 * g') (64 + (n - 64))) by (f_equal; lia).
    segments g' 0. segment g' 1 0.
  - segment g' 0 0.
Qed.

(** The whole row. *)
Lemma writes_wide_row :
  writes (wide_row cp0 cph cpd advh advd src w h left right start i) tt (cols left (W - left)).
Proof.
  assert (Hg : left `div` 256 = g /\ Z.land left 0x3F = r).
  { rewrite land_0x3f. clear -left_eq b_bound r_bound. dlia. }
  destruct Hg as [Hg Hr]. pose proof (A_bounds g) as HA. pose proof (third_cases h i) as Ht.
  pose proof (group_step_cases h i) as Hs.
  unfold wide_row. rewrite wide_offsets_spec by lia. rewrite Hr, Hg, land_0x1f.
  assert (Hi : 0 <= i `mod` 32 < 32) by (clear; dlia).
  pose proof (row_base_bounds w h i w_bound h_bound i_bound) as HB.
  rewrite (u32_small (64 * _)) by lia.
  rewrite (u32_small (_ + 64 * (i `mod` 32))), (u32_small (_ + 64 * (i `mod` 32))) by (destruct Hs as [-> | ->]; lia).
  fold (A g).
  replace (row_base w h i + 2048 * group_step h i * g + third h i + 64 * (i `mod` 32)) with (A g + third h i)
    by (unfold A; lia).
  rewrite (u32_small (group_step h i * 2048)) by lia.
  rewrite (u32_small (A g + _ * 2048)) by lia.
  replace (A g + group_step h i * 2048) with (A (g + 1)) by lia.
  replace ((((left ^+ 256) ≫ 8) ^<< 8) ^- left) with (256 - 64 * b - r).
  2: { rewrite (u32_small (left + 256)) by lia. shifts.
       replace ((left + 256) `div` 256 * 256) with (256 * g + 256) by (clear -Hg; dlia).
       rewrite (u32_small (256 * g + 256)), u32_small; lia. }
  replace (((left ≫ 8) ^<< 8) ^+ 256) with (256 * (g + 1 + 0)).
  2: { shifts. rewrite Hg, (u32_small (g * 256)), u32_small; lia. }
  rewrite (u32_small W), (u32_small (W - 256)) by lia.
  replace start with (LO left) by (unfold line_offset; pose proof (even_for_cases _ _ left_even); rewrite Z.sub_diag, Z.div_0_l; lia).
  set (n := (W - 256 * (g + 1)) `div` 256).
  assert (Hn : 0 <= n /\ 256 * (g + 1 + n) <= W < 256 * (g + 1 + n) + 256)
    by (unfold n; clear -left_eq wide b_bound r_bound; dlia).
  replace (W - left) with ((256 * (g + 1) - left) + (256 * n + (W - 256 * (g + 1 + n)))) by lia.
  eapply writes_weaken.
  { eapply writes_bind; [apply writes_wide_head|]. cbv beta.
    eapply (writes_bind _ _ _ _ (256 * (g + 1 + n), (LO (256 * (g + 1 + n)), A (g + 1 + n), A (g + n) + third h i))).
    - replace (A g + third h i) with (A (g + 0) + third h i) by (do 2 f_equal; lia).
      replace (A (g + 1)) with (A (g + 1 + 0)) by (f_equal; lia).
      replace (LO (256 * (g + 1))) with (LO (256 * (g + 1 + 0))) by (do 2 f_equal; lia).
      apply (writes_for_loop m0 V _ _ _ _ (fun k => 256 * (g + 1 + k))
        (fun k => (LO (256 * (g + 1 + k)), A (g + 1 + k), A (g + k) + third h i))
        (fun k => cols (256 * (g + 1 + k)) 256) n 0); [lia|lia| | |].
      + intros k Hk. split; [apply Z.leb_le; lia|]. rewrite u32_small; lia.
      + apply Z.leb_gt. lia.
      + intros k Hk. apply writes_wide_group; lia.
    - cbv beta iota. pose proof (A_bounds (g + n)) as HAn.
      replace (A (g + n) + third h i ^+ group_step h i * 2048) with (A (g + 1 + n) + third h i).
      2: { replace (g + 1 + n) with (g + n + 1) by lia. rewrite u32_small; lia. }
      replace (W ^- (256 * (g + 1 + n))) with (W - 256 * (g + 1 + n)) by (rewrite u32_small; lia).
      apply writes_wide_tail; lia. }
  intros a Ha. apply cols_app in Ha as [Ha|Ha]; [by left|right|lia|lia].
  replace (left + (256 * (g + 1) - left)) with (256 * (g + 1)) in Ha by lia.
  apply cols_app in Ha as [(t & Ht' & HC)|Ha]; [left|right|lia|lia].
  - exists (t `div` 256). split; [clear -Ht'; dlia|]. exists (t `mod` 256). split; [clear; dlia|].
    replace (256 * (g + 1 + t `div` 256) + t `mod` 256) with (256 * (g + 1) + t) by (clear; dlia). done.
  - by replace (256 * (g + 1) + 256 * n) with (256 * (g + 1 + n)) in Ha by lia.
Qed.
End wide.

(** ** The other two rows, in the same form *)

Section narrow_nest.
Context (cp0 : Z -> Z -> Z -> M unit) (advd : Z -> Z -> Z).

(** A whole block, when it is left of the right edge. *)
Definition mid_full (src w h temp3 i lo j : Z) : M (Z * Z) :=
  if j ^+ 64 <=? temp3 then
    let tiled_offset := u32 (tile_4x2_read w h j i) in
    cp0 lo (src + tiled_offset) 64 ;! ret (advd lo 64, j ^+ 64)
  else ret (lo, j).

Definition mid_row (src w h left temp3 start i : Z) : M unit :=
  let tiled_offset := u32 (tile_4x2_read w h left i) in
  let temp2 := (((left ^+ 64) ≫ 6) ^<< 6) ^- left in
  let tiled_offset := tiled_offset ^+ Z.land left 0x3 in
  cp0 start (src + tiled_offset) temp2 ;!
  let! (lo, j) := mid_full src w h temp3 i (advd start temp2) (left ^+ temp2) in
  let! (lo, j) := mid_full src w h temp3 i lo j in
  when (j <? temp3)
    (let tiled_offset := u32 (tile_4x2_read w h j i) in
     cp0 lo (src + tiled_offset) (temp3 ^- j)).

Definition narrow_row (src w h left temp3 start i : Z) : M unit :=
  for_u left temp3 2 start (fun j lo =>
    let tiled_offset := u32 (tile_4x2_read w h j i) in
    let tiled_offset := tiled_offset ^+ Z.land j 0x3 in
    cp0 lo (src + tiled_offset) 2 ;! ret (advd lo 2)) ;!
  ret tt.
End narrow_nest.

Lemma crop_mid_row_nest d s w h left top temp1 temp3 i :
  crop_mid_row d s w h left top temp1 temp3 i =
  mid_row (fun lo so n => memcpy (d + lo) so n) (fun lo k => lo ^+ k)
    s w h left temp3 (temp1 ^* (i ^- top)) i.
Proof. reflexivity. Qed.

Lemma crop_narrow_row_nest d s w h left top right temp1 i :
  crop_narrow_row d s w h left top right temp1 i =
  narrow_row (fun lo so n => memcpy (d + lo) so n) (fun lo k => lo ^+ k)
    s w h left (w ^- right) (temp1 ^* (i ^- top)) i.
Proof. reflexivity. Qed.

Lemma deinterleave_mid_row_nest u v s w h left top right i :
  deinterleave_mid_row u v s w h left top right i =
  mid_row (fun lo so n => csc_deinterleave_memcpy (u + lo) (v + lo) so n) (fun lo k => lo ^+ k `div` 2)
    s w h left (w ^- right) (((w ^- right ^- left) ^* (i ^- top)) `div` 2) i.
Proof. reflexivity. Qed.

Lemma deinterleave_narrow_row_nest u v s w h left top right i :
  deinterleave_narrow_row u v s w h left top right i =
  narrow_row (fun lo so n => csc_deinterleave_memcpy (u + lo) (v + lo) so n) (fun lo k => lo ^+ k `div` 2)
    s w h left (w ^- right) (((w ^- right ^- left) ^* (i ^- top)) `div` 2) i.
Proof. reflexivity. Qed.

Section narrow.
Context (m0 : mem) (V : Z -> Z -> Prop).
Abbreviation writes := (writes m0 V).
Context (cp0 : Z -> Z -> Z -> M unit) (advd : Z -> Z -> Z).
Context (src w h left W start i q : Z) (cov : Z -> Z -> Prop).
Abbreviation even_if := (even_for q).
Abbreviation LO := (line_offset left start q).
Abbreviation cols := (cols cov).
Context (w_bound : 0 < w <= 16384) (h_bound : h <= 16384) (i_bound : 0 <= i < h).
Context (left_nonneg : 0 <= left) (W_bound : left < W <= w).
Context (left_even : even_if left) (W_even : even_if W).
Context (seg0 : forall P n, left <= P -> 0 <= n -> P + n <= W -> P `mod` 64 + n <= 64 ->
  even_if P -> even_if n -> writes (cp0 (LO P) (src + toff w h P i) n) tt (cols P n)).
Context (advd_eq : forall P k, left <= P <= W -> 0 <= k <= 256 -> even_if P -> even_if k -> advd (LO P) k = LO (P + k)).

Lemma toff_range P : 0 <= P < w -> 0 <= toff w h P i < 2 ^ 30.
Proof using w_bound h_bound i_bound.
  intros HP. pose proof (toff_bounds w h P i HP i_bound) as H. unfold size128 in H.
  assert (0 <= blocks_x w <= 256) by (unfold blocks_x; clear -w_bound; dlia).
  assert (0 <= (h + 31) `div` 32 <= 512) by (clear -h_bound i_bound; dlia). nia.
Qed.

Lemma LO_left : LO left = start.
Proof using left_even.
  clear -left_even. unfold line_offset. pose proof (even_for_cases _ _ left_even).
  rewrite Z.sub_diag, Z.div_0_l; lia.
Qed.

Lemma read_at P : left <= P < W -> u32 (tile_4x2_read w h P i) ^+ Z.land P 0x3 = toff w h P i.
Proof using w_bound h_bound i_bound left_nonneg W_bound.
  intros HP. pose proof (toff_range P ltac:(lia)).
  assert (P `mod` 4 <= toff w h P i).
  { pose proof (toff_step w h (P - P `mod` 4) i (P `mod` 4)) as E.
    replace (P - P `mod` 4 + P `mod` 4) with P in E by lia. rewrite E by (clear; dlia).
    pose proof (toff_range (P - P `mod` 4)) as H'. assert (0 <= P - P `mod` 4 <= P) by (clear -HP left_nonneg; dlia). lia. }
  assert (0 <= P `mod` 4 < 4) by (clear; dlia).
  rewrite tile_4x2_read_spec, land_0x3 by lia. rewrite (u32_small (_ - _)), u32_small; lia.
Qed.

Lemma read_aligned P : left <= P < W -> P `mod` 64 = 0 -> u32 (tile_4x2_read w h P i) = toff w h P i.
Proof using w_bound h_bound i_bound left_nonneg W_bound.
  intros HP H0. pose proof (toff_range P ltac:(lia)).
  rewrite tile_4x2_read_spec by lia. assert (P `mod` 4 = 0) as -> by (clear -H0; dlia).
  rewrite u32_small; lia.
Qed.

Lemma writes_mid_full j : left <= j <= W -> j `mod` 64 = 0 -> even_if j ->
  let j' := if j + 64 <=? W then j + 64 else j in
  writes (mid_full cp0 advd src w h W i (LO j) j) (LO j', j') (cols j (j' - j)).
Proof.
  intros Hj H0 He j'. unfold mid_full, j'. rewrite (u32_small (j + 64)) by lia.
  destruct (Z.leb_spec (j + 64) W).
  - rewrite read_aligned by lia. rewrite advd_eq by (try lia; even_for).
    replace (j + 64 - j) with (64 + 0) by lia.
    apply writes_cols_seq; [lia|lia| |apply writes_cols_ret]. apply seg0; try lia; even_for.
  - rewrite Z.sub_diag. apply writes_cols_ret.
Qed.

(** At most four blocks wide, the first and the last partly. *)
Lemma writes_mid_row : 64 <= W - left -> left `mod` 64 + (W - left) <= 256 ->
  writes (mid_row cp0 advd src w h left W start i) tt (cols left (W - left)).
Proof.
  intros Hw Hm. unfold mid_row. rewrite read_at by lia.
  assert (Hr : 0 <= left `mod` 64 < 64) by (clear; dlia).
  assert (Hn : (((left ^+ 64) ≫ 6) ^<< 6) ^- left = 64 - left `mod` 64).
  { rewrite (u32_small (left + 64)) by lia. shifts.
    replace ((left + 64) `div` 64 * 64) with (left + 64 - left `mod` 64) by (clear; dlia).
    rewrite (u32_small (left + 64 - _)), u32_small; lia. }
  rewrite Hn. set (n := 64 - left `mod` 64) in *.
  assert (Hne : even_if n).
  { unfold n. replace (left `mod` 64) with (left - 64 * (left `div` 64)) by (clear; dlia). even_for. }
  assert (Ha : (left + n) `mod` 64 = 0) by (unfold n; clear; dlia).
  replace (cp0 start) with (cp0 (LO left)) by (by rewrite LO_left).
  replace (advd start) with (advd (LO left)) by (by rewrite LO_left). rewrite advd_eq by (try lia; even_for). rewrite (u32_small (left + n)) by lia.
  set (j1 := left + n) in *. assert (He1 : even_if j1) by (unfold j1; even_for).
  pose proof (writes_mid_full j1 ltac:(lia) Ha He1) as F1. cbv zeta in F1.
  set (j2 := if j1 + 64 <=? W then j1 + 64 else j1) in *.
  assert (H2 : j1 <= j2 <= W /\ j2 `mod` 64 = 0 /\ even_if j2 /\ (W < j1 + 64 \/ j2 = j1 + 64)).
  { unfold j2. destruct (Z.leb_spec (j1 + 64) W); (split; [lia|]); (split; [clear -Ha; dlia|]); (split; [even_for|lia]). }
  destruct H2 as (H2 & Ha2 & He2 & Hc2).
  pose proof (writes_mid_full j2 ltac:(lia) Ha2 He2) as F2. cbv zeta in F2.
  set (j3 := if j2 + 64 <=? W then j2 + 64 else j2) in *.
  assert (H3 : j2 <= j3 <= W /\ j3 `mod` 64 = 0 /\ even_if j3 /\ (W < j2 + 64 \/ j3 = j2 + 64)).
  { unfold j3. destruct (Z.leb_spec (j2 + 64) W); (split; [lia|]); (split; [clear -Ha2; dlia|]); (split; [even_for|lia]). }
  destruct H3 as (H3 & Ha3 & He3 & Hc3).
  replace (W - left) with (n + ((j2 - j1) + ((j3 - j2) + (W - j3)))) by lia.
  apply writes_cols_seq; [lia|lia|apply seg0; try done; lia|]. fold j1.
  eapply writes_weaken.
  { eapply writes_bind; [exact F1|]. cbv beta iota. eapply writes_bind; [exact F2|]. cbv beta iota.
    apply writes_when with (C := cols j3 (W - j3)). intros Hlt. apply Z.ltb_lt in Hlt.
    rewrite read_aligned by lia. rewrite u32_small by lia. apply seg0; try lia; even_for. }
  intros a Ha'. apply cols_app in Ha' as [Ha'|Ha']; [by left|right|lia|lia].
  replace (j1 + (j2 - j1)) with j2 in Ha' by lia.
  apply cols_app in Ha' as [Ha'|Ha']; [by left|right|lia|lia].
  replace (j2 + (j3 - j2)) with j3 in Ha' by lia. split; [|done].
  destruct Ha' as (t & Ht & _). apply Z.ltb_lt. lia.
Qed.

(** Any width, when the columns are even. *)
Lemma writes_narrow_row : left `mod` 2 = 0 -> W `mod` 2 = 0 ->
  writes (narrow_row cp0 advd src w h left W start i) tt (cols left (W - left)).
Proof.
  intros He HeW. unfold narrow_row.
  assert (Hn : W = left + 2 * ((W - left) `div` 2)) by (clear -He HeW; dlia).
  set (n := (W - left) `div` 2) in *. replace (W - left) with (2 * n) by lia.
  rewrite <- LO_left. eapply writes_weaken.
  { eapply writes_bind; [|apply writes_ret]. 
    pose proof (writes_for_u m0 V left W 2
      (fun j lo => let tiled_offset := u32 (tile_4x2_read w h j i) in
        let tiled_offset := tiled_offset ^+ Z.land j 0x3 in
        cp0 lo (src + tiled_offset) 2 ;! ret (advd lo 2)) (fun k => LO (left + 2 * k))
      (fun k => cols (left + 2 * k) 2) n) as HF. cbv beta in HF. rewrite Z.mul_0_r, Z.add_0_r in HF.
    apply HF; try lia. intros k Hk. cbv zeta. rewrite read_at by lia.
    assert (Hek : even_if (left + 2 * k)) by even_for.
    rewrite advd_eq by (try lia; even_for). replace (left + 2 * (k + 1)) with (left + 2 * k + 2) by lia.
    change (cols (left + 2 * k) 2) with (cols (left + 2 * k) (2 + 0)). apply writes_cols_seq; [lia|lia| |apply writes_cols_ret].
    apply seg0; try lia; [clear -He; dlia|done|even_for]. }
  intros a (t & Ht & HC). left. exists (t `div` 2). split; [clear -Ht; dlia|].
  exists (t `mod` 2). split; [clear; dlia|].
  by replace (left + 2 * (t `div` 2) + t `mod` 2) with (left + t) by (clear; dlia).
Qed.
End narrow.

(** ** Whole planes *)

(** A crop rectangle of a plane of at most 16384 by 16384; [cw] and [ch] are the
    columns and rows that are left.  Between 64 and 255 columns the rectangle
    must lie in four blocks; below that, it has even edges. *)
Record crop_ok (w h left top right buttom cw ch : Z) : Prop := {
  crop_size : 0 < w <= 16384 /\ 0 < h <= 16384;
  crop_edges : 0 <= left /\ 0 <= top /\ 0 <= right /\ 0 <= buttom;
  crop_cols : cw = w - left - right /\ 0 < cw;
  crop_rows : ch = h - top - buttom /\ 0 <= ch;
  crop_blocks : 64 <= cw < 256 -> left `mod` 64 + cw <= 256;
  crop_even : cw < 64 -> left `mod` 2 = 0 /\ (w - right) `mod` 2 = 0
}.

Section planes.
Context (m : mem) (s w h left top right buttom cw ch : Z).
Context (ok : crop_ok w h left top right buttom cw ch).

Lemma crop_facts : 0 < w <= 16384 /\ 0 < h <= 16384 /\ 0 <= left /\ 0 <= top /\ 0 <= right /\ 0 <= buttom /\
  0 < cw <= 16384 /\ 0 <= ch <= 16384 /\ left + cw = w - right /\ top + ch = h - buttom.
Proof. destruct ok as [[? ?] (? & ? & ? & ?) [? ?] [? ?] _ _]. lia. Qed.

Lemma crop_product y : 0 <= y < ch -> 0 <= cw * y < 2 ^ 28 + 1.
Proof. pose proof crop_facts. nia. Qed.

(** The rows, each through [row], fill the plane. *)
Lemma writes_rows V row (C : Z -> Z -> Prop) :
  (forall y, 0 <= y < ch -> writes m V (row (top + y)) tt (C y)) ->
  writes m V (for_each top (h ^- buttom) 1 row) tt (fun a => exists y, 0 <= y < ch /\ C y a).
Proof.
  intros Hr. pose proof crop_facts. rewrite u32_small by lia.
  apply writes_for_each with (n := ch); try lia.
  intros y Hy. rewrite Z.mul_1_l. by apply Hr.
Qed.

(** What the three rows need of the copies, and what they do. *)
Section row.
Context (V : Z -> Z -> Prop) (cp0 : Z -> Z -> Z -> M unit) (q start y : Z) (cov : Z -> Z -> Prop).
Context (y_bound : 0 <= y < ch) (start_bound : 0 <= start < 2 ^ 31).
Context (left_even : even_for q left) (W_even : even_for q (w - right)).
Context (seg0 : forall P n, left <= P -> 0 <= n -> P + n <= w - right -> P `mod` 64 + n <= 64 ->
  even_for q P -> even_for q n ->
  writes m V (cp0 (line_offset left start q P) (s + toff w h P (top + y)) n) tt (cols cov P n)).

Lemma writes_any_row cph cpd advh advd :
  (forall P k t so n, left <= P <= w - right -> 0 <= t <= k -> k <= 256 ->
    even_for q P -> even_for q k -> even_for q t ->
    cph (line_offset left start q P) k t so n = cp0 (line_offset left start q (P + k - t)) so n) ->
  (forall P k so n, left <= P <= w - right -> 0 <= k <= 256 -> even_for q P -> even_for q k ->
    cpd (line_offset left start q P) k so n = cp0 (line_offset left start q (P + k)) so n) ->
  (forall P k t, left <= P <= w - right -> 0 <= t <= k -> k <= 256 ->
    even_for q P -> even_for q k -> even_for q t ->
    advh (line_offset left start q P) k t = line_offset left start q (P + k - t)) ->
  (forall P k, left <= P <= w - right -> 0 <= k <= 256 -> even_for q P -> even_for q k ->
    advd (line_offset left start q P) k = line_offset left start q (P + k)) ->
  writes m V
    (if 256 <=? cw then wide_row cp0 cph cpd advh advd s w h left right start (top + y)
     else if 64 <=? cw then mid_row cp0 advd s w h left (w - right) start (top + y)
     else narrow_row cp0 advd s w h left (w - right) start (top + y)) tt (cols cov left cw).
Proof.
  intros H1 H2 H3 H4. pose proof crop_facts.
  replace (cols cov left cw) with (cols cov left (w - right - left)) by (f_equal; lia).
  destruct (Z.leb_spec 256 cw).
  - apply (writes_wide_row m V cp0 cph cpd advh advd s w h left right start (top + y) q cov) with
      (g := left `div` 256) (b := (left `mod` 256) `div` 64) (r := left `mod` 64);
      try done; try lia; clear; dlia.
  - destruct (Z.leb_spec 64 cw).
    + apply (writes_mid_row m V cp0 advd s w h left (w - right) start (top + y) q cov); try done; try lia.
      pose proof (crop_blocks _ _ _ _ _ _ _ _ ok). lia.
    + destruct (crop_even _ _ _ _ _ _ _ _ ok) as [He HW]; [done|].
      apply (writes_narrow_row m V cp0 advd s w h left (w - right) start (top + y) q cov); try done; lia.
Qed.
End row.
End planes.

(** ** Byte planes *)

(** The source byte of a pixel of the crop rectangle. *)
Definition crop_at (s w h left top : Z) : Z * Z -> Z := fun '(x, y) => s + toff w h (left + x) (top + y).

Lemma crop_rows_eq d s w h left top right buttom :
  csc_tiled_to_linear_crop d s w h left top right buttom =
  for_each top (h ^- buttom) 1 (fun i =>
    if 256 <=? w ^- right ^- left then crop_wide_row d s w h left top right i
    else if 64 <=? w ^- right ^- left then
      crop_mid_row d s w h left top (w ^- right ^- left) (w ^- right) i
    else crop_narrow_row d s w h left top right (w ^- right ^- left) i).
Proof. unfold csc_tiled_to_linear_crop. destruct (256 <=? _); [done|]. by destruct (64 <=? _). Qed.

Lemma deinterleave_rows_eq u v s w h left top right buttom :
  csc_tiled_to_linear_deinterleave_crop u v s w h left top right buttom =
  for_each top (h ^- buttom) 1 (fun i =>
    if 256 <=? w ^- right ^- left then deinterleave_wide_row u v s w h left top right i
    else if 64 <=? w ^- right ^- left then deinterleave_mid_row u v s w h left top right i
    else deinterleave_narrow_row u v s w h left top right i).
Proof. unfold csc_tiled_to_linear_deinterleave_crop. destruct (256 <=? _); [done|]. by destruct (64 <=? _). Qed.

Lemma crop_source_mapped m s w h left top right buttom cw ch x y :
  crop_ok w h left top right buttom cw ch -> mapped m s (size128 w h) ->
  0 <= x < cw -> 0 <= y < ch -> is_Some (m !! (s + toff w h (left + x) (top + y))).
Proof.
  intros Hok Hs Hx Hy. pose proof (crop_facts _ _ _ _ _ _ _ _ Hok). apply Hs, toff_bounds; lia.
Qed.

Lemma crop_source_in w h left top right buttom cw ch x y :
  crop_ok w h left top right buttom cw ch -> 0 <= x < cw -> 0 <= y < ch ->
  0 <= toff w h (left + x) (top + y) < size128 w h.
Proof. intros Hok Hx Hy. pose proof (crop_facts _ _ _ _ _ _ _ _ Hok). apply toff_bounds; lia. Qed.

Lemma tiled_to_linear_crop_run m d s w h left top right buttom cw ch :
  crop_ok w h left top right buttom cw ch ->
  mapped m d (cw * ch) -> mapped m s (size128 w h) -> apart d (cw * ch) s (size128 w h) ->
  exists m', csc_tiled_to_linear_crop d s w h left top right buttom m = Some (tt, m') /\
    moved (rect cw ch) (linear_at d cw) (crop_at s w h left top) m m'.
Proof.
  intros Hok Hd Hs Ha. pose proof (crop_facts _ _ _ _ _ _ _ _ Hok) as F.
  eapply (plan_run m (rect cw ch) (linear_at d cw) (crop_at s w h left top)).
  - intros [x y] [Hx Hy]. by eapply crop_source_mapped.
  - intros k k' Hk Hk' He. f_equal. by apply (linear_det d cw ch).
  - rewrite crop_rows_eq.
    apply (writes_rows m w h left top right buttom cw ch Hok _ _
      (fun y => cols (fun P a => a = d + (cw * y + (P - left))) left cw)). intros y Hy.
    pose proof (crop_product w h left top right buttom cw ch Hok y Hy) as Hp.
    rewrite crop_wide_row_nest, crop_mid_row_nest, crop_narrow_row_nest.
    rewrite (u32_small (w - right)), (u32_small (w - right - left)), (u32_small (w - left)),
      (u32_small (w - left - right)), (u32_small (top + y - top)) by lia.
    replace (w - right - left) with cw by lia. replace (w - left - right) with cw by lia.
    replace (top + y - top) with y by lia. rewrite (u32_small (cw * y)) by lia.
    apply (writes_any_row m s w h left top right buttom cw ch Hok _ _ 1 (cw * y) y).
    + lia.
    + by left.
    + by left.
    + intros P n HP Hn HPn H64 _ _. unfold line_offset. rewrite Z.div_1_r. eapply writes_weaken.
      { apply writes_memcpy. eapply plan_copyable.
        - intros [x' y'] [Hx' Hy']. apply Hd. by apply rect_lt.
        - intros [x' y'] [Hx' Hy']. by eapply crop_source_mapped.
        - intros [x1 y1] [x2 y2] [Hx1 Hy1] [Hx2 Hy2]. simpl.
          pose proof (rect_lt cw ch x1 y1 Hx1 Hy1).
          pose proof (crop_source_in w h left top right buttom cw ch x2 y2 Hok Hx2 Hy2). destruct Ha; lia.
        - intros t Ht. exists (P + t - left, y). split; [split; [lia|done]|]. split; [simpl; lia|].
          simpl. replace (left + (P + t - left)) with (P + t) by lia. rewrite toff_step by lia. lia. }
      intros a (t & Ht & ->). lia.
    + intros P k t so n HP Hk Hk' _ _ _. f_equal. unfold line_offset. rewrite !Z.div_1_r. lia.
    + intros P k so n HP Hk _ _. f_equal. unfold line_offset. rewrite !Z.div_1_r. lia.
    + intros P k t HP Hk Hk' _ _ _. unfold line_offset. rewrite !Z.div_1_r.
      rewrite (u32_small (_ + k)) by lia. rewrite u32_small; lia.
    + intros P k HP Hk _ _. unfold line_offset. rewrite !Z.div_1_r. rewrite u32_small; lia.
  - intros [x y] [Hx Hy]. exists y. split; [done|]. exists x. split; [done|]. simpl. lia.
Qed.

(** ** Interleaved planes *)

(** A sample of one of the two output planes, of [n] by [ch] samples. *)
Definition chroma_dom (n ch : Z) : bool * (Z * Z) -> Prop := fun '(_, (x, y)) => 0 <= x < n /\ 0 <= y < ch.
Definition chroma_dst (u v n : Z) : bool * (Z * Z) -> Z := fun '(b, (x, y)) => (if b then v else u) + (n * y + x).
Definition chroma_src (s w h left top : Z) : bool * (Z * Z) -> Z :=
  fun '(b, (x, y)) => s + toff w h (left + (2 * x + if b then 1 else 0)) (top + y).

Lemma chroma_det u v n ch k k' : apart u (n * ch) v (n * ch) -> chroma_dom n ch k -> chroma_dom n ch k' ->
  chroma_dst u v n k = chroma_dst u v n k' -> k = k'.
Proof.
  intros Ha. destruct k as [b [x y]], k' as [b' [x' y']]. intros [Hx Hy] [Hx' Hy'] He. simpl in He.
  pose proof (rect_lt n ch x y Hx Hy). pose proof (rect_lt n ch x' y' Hx' Hy').
  assert (b = b') as <- by (destruct b, b'; try done; destruct Ha; lia).
  destruct (rect_inj n x y x' y'); [lia..|]. congruence.
Qed.

Lemma tiled_to_linear_deinterleave_crop_run m u v s w h left top right buttom cw ch :
  crop_ok w h left top right buttom cw ch -> left `mod` 2 = 0 -> cw `mod` 2 = 0 ->
  mapped m u (cw `div` 2 * ch) -> mapped m v (cw `div` 2 * ch) -> mapped m s (size128 w h) ->
  apart u (cw `div` 2 * ch) v (cw `div` 2 * ch) ->
  apart u (cw `div` 2 * ch) s (size128 w h) -> apart v (cw `div` 2 * ch) s (size128 w h) ->
  exists m', csc_tiled_to_linear_deinterleave_crop u v s w h left top right buttom m = Some (tt, m') /\
    moved (chroma_dom (cw `div` 2) ch) (chroma_dst u v (cw `div` 2)) (chroma_src s w h left top) m m'.
Proof.
  intros Hok Hle Hce Hu Hv Hs Huv Hau Hav. pose proof (crop_facts _ _ _ _ _ _ _ _ Hok) as F.
  set (n2 := cw `div` 2) in *. assert (Hn2 : cw = 2 * n2) by (unfold n2; clear -Hce; dlia).
  assert (Hc : forall k, chroma_dom n2 ch k -> copyable1 m
    (plan m (chroma_dom n2 ch) (chroma_dst u v n2) (chroma_src s w h left top))
    (chroma_dst u v n2 k) (chroma_src s w h left top k)).
  { intros k Hk. eapply plan_copyable1; [..|done|done|done].
    - intros [b [x y]] [Hx Hy]. destruct b; [apply Hv|apply Hu]; by apply rect_lt.
    - intros [b [x y]] [Hx Hy]. eapply crop_source_mapped; try done. destruct b; lia.
    - intros [b1 [x1 y1]] [b2 [x2 y2]] [Hx1 Hy1] [Hx2 Hy2]. simpl.
      pose proof (rect_lt n2 ch x1 y1 Hx1 Hy1).
      pose proof (crop_source_in w h left top right buttom cw ch (2 * x2 + if b2 then 1 else 0) y2 Hok
        ltac:(destruct b2; lia) Hy2). destruct b1; [destruct Hav|destruct Hau]; lia. }
  eapply (plan_run m (chroma_dom n2 ch) (chroma_dst u v n2) (chroma_src s w h left top)).
  - intros [b [x y]] [Hx Hy]. eapply crop_source_mapped; try done. destruct b; lia.
  - intros k k' Hk Hk' He. f_equal. by apply (chroma_det u v n2 ch).
  - rewrite deinterleave_rows_eq.
    apply (writes_rows m w h left top right buttom cw ch Hok _ _
      (fun y => cols (fun P a => exists x b, P - left = 2 * x + (if b : bool then 1 else 0) /\
        a = chroma_dst u v n2 (b, (x, y))) left cw)). intros y Hy.
    pose proof (crop_product w h left top right buttom cw ch Hok y Hy) as Hp.
    rewrite deinterleave_wide_row_nest, deinterleave_mid_row_nest, deinterleave_narrow_row_nest.
    rewrite (u32_small (w - right)), (u32_small (w - right - left)), (u32_small (w - left)),
      (u32_small (w - left - right)), (u32_small (top + y - top)) by lia.
    replace (w - right - left) with cw by lia. replace (w - left - right) with cw by lia.
    replace (top + y - top) with y by lia. rewrite (u32_small (cw * y)) by lia.
    replace ((cw * y) `div` 2) with (n2 * y) by (replace (cw * y) with (n2 * y * 2) by lia; by rewrite Z.div_mul).
    assert (Hp2 : 0 <= n2 * y < 2 ^ 28) by (replace (cw * y) with (n2 * y * 2) in Hp by lia; lia).
    apply (writes_any_row m s w h left top right buttom cw ch Hok _ _ 2 (n2 * y) y).
    + lia.
    + right. done.
    + right. split; [done|]. replace (w - right) with (left + cw) by lia. clear -Hle Hce. dlia.
    + intros P n HP Hn HPn H64 [|[_ HPe]] [|[_ Hne]]; try done. unfold line_offset.
      set (x0 := (P - left) `div` 2). assert (HP0 : P = left + 2 * x0) by (unfold x0; clear -HPe Hle; dlia).
      assert (Hn0 : n = 2 * (n `div` 2)) by (clear -Hne; dlia).
      eapply writes_weaken.
      { apply writes_deinterleave; [lia| |]; intros k Hk.
        - pose proof (Hc (false, (x0 + k, y)) ltac:(split; lia)) as H. simpl in H.
          replace (u + (n2 * y + x0) + k) with (u + (n2 * y + (x0 + k))) by lia.
          replace (s + toff w h P (top + y) + 2 * k) with (s + toff w h (left + (2 * (x0 + k) + 0)) (top + y)); [done|].
          replace (left + (2 * (x0 + k) + 0)) with (P + 2 * k) by lia. rewrite toff_step by lia. lia.
        - pose proof (Hc (true, (x0 + k, y)) ltac:(split; lia)) as H. simpl in H.
          replace (v + (n2 * y + x0) + k) with (v + (n2 * y + (x0 + k))) by lia.
          replace (s + toff w h P (top + y) + (2 * k + 1)) with (s + toff w h (left + (2 * (x0 + k) + 1)) (top + y)); [done|].
          replace (left + (2 * (x0 + k) + 1)) with (P + (2 * k + 1)) by lia. rewrite toff_step by lia. lia. }
      intros a (t & Ht & x & b & Hx & ->). exists (x - x0).
      split; [destruct b; lia|]. destruct b; [right|left]; simpl; lia.
    + intros P k t so n HP Hk Hk' [|[_ HPe]] [|[_ Hke]] [|[_ Hte]]; try done. unfold line_offset.
      assert (E : k `div` 2 - t `div` 2 = (P + k - t - left) `div` 2 - (P - left) `div` 2 /\
        0 <= k `div` 2 - t `div` 2 <= 128) by (clear -Hk Hk' Hke Hte; dlia).
      rewrite (u32_small (_ - _)) by lia. f_equal; lia.
    + intros P k so n HP Hk [|[_ HPe]] [|[_ Hke]]; try done. unfold line_offset.
      assert (E : k `div` 2 = (P + k - left) `div` 2 - (P - left) `div` 2) by (clear -Hke; dlia).
      f_equal; lia.
    + intros P k t HP Hk Hk' [|[_ HPe]] [|[_ Hke]] [|[_ Hte]]; try done. unfold line_offset.
      assert (E : k `div` 2 - t `div` 2 = (P + k - t - left) `div` 2 - (P - left) `div` 2 /\
        0 <= k `div` 2 - t `div` 2 <= 128 /\ 0 <= k `div` 2 <= 128) by (clear -Hk Hk' Hke Hte; dlia).
      assert (0 <= (P - left) `div` 2 <= P) by (clear -HP F; dlia).
      rewrite (u32_small (_ + k `div` 2)) by lia. rewrite u32_small; lia.
    + intros P k HP Hk [|[_ HPe]] [|[_ Hke]]; try done. unfold line_offset.
      assert (E : k `div` 2 = (P + k - left) `div` 2 - (P - left) `div` 2 /\ 0 <= k `div` 2 <= 128) by (clear -Hk Hke; dlia).
      assert (0 <= (P - left) `div` 2 <= P) by (clear -HP F; dlia). rewrite u32_small; lia.
  - intros [b [x y]] [Hx Hy]. exists y. split; [done|]. exists (2 * x + if b then 1 else 0).
    split; [destruct b; lia|]. exists x, b. split; [lia|done].
Qed.

(** ** Theorems *)

(** C40. [csc_tiled_to_linear_crop] ends without a fault on the crop rectangles of
    [crop_ok], fills the output plane with the bytes of the rectangle, each taken from
    its place in the block layout, and changes nothing else; the three ways through a
    row agree on that.  [crop_ok] leaves out two kinds of rectangles, on which the code
    goes wrong: those of 64 to 255 columns that reach into a fifth block
    ([csc_tiled_to_linear_crop_overrun]), and those of less than 64 columns with an odd
    edge, since rows are copied two bytes at a time there. *)
Theorem csc_tiled_to_linear_crop_correct m d s w h left top right buttom cw ch :
  crop_ok w h left top right buttom cw ch ->
  mapped m d (cw * ch) -> mapped m s (size128 w h) -> apart d (cw * ch) s (size128 w h) ->
  exists m', csc_tiled_to_linear_crop d s w h left top right buttom m = Some (tt, m') /\
    (forall x y, 0 <= x < cw -> 0 <= y < ch ->
       m' !! (d + (cw * y + x)) = m !! (s + toff w h (left + x) (top + y))) /\
    (forall a, ~ (d <= a < d + cw * ch) -> m' !! a = m !! a).
Proof.
  intros Hok Hd Hs Ha.
  destruct (tiled_to_linear_crop_run m d s w h left top right buttom cw ch) as (m' & E & HM); [done..|].
  exists m'. split; [done|]. exact (moved_plane cw ch d _ m m' HM).
Qed.

(**  [csc_tiled_to_linear_deinterleave_crop] fills the two chroma planes with
    the even and the odd columns of the rectangle, in half the columns, and
    changes nothing else. *)
Theorem csc_tiled_to_linear_deinterleave_crop_correct m u v s w h left top right buttom cw ch :
  crop_ok w h left top right buttom cw ch -> left `mod` 2 = 0 -> cw `mod` 2 = 0 ->
  mapped m u (cw `div` 2 * ch) -> mapped m v (cw `div` 2 * ch) -> mapped m s (size128 w h) ->
  apart u (cw `div` 2 * ch) v (cw `div` 2 * ch) ->
  apart u (cw `div` 2 * ch) s (size128 w h) -> apart v (cw `div` 2 * ch) s (size128 w h) ->
  exists m', csc_tiled_to_linear_deinterleave_crop u v s w h left top right buttom m = Some (tt, m') /\
    (forall x y, 0 <= x < cw `div` 2 -> 0 <= y < ch ->
       m' !! (u + (cw `div` 2 * y + x)) = m !! (s + toff w h (left + 2 * x) (top + y)) /\
       m' !! (v + (cw `div` 2 * y + x)) = m !! (s + toff w h (left + 2 * x + 1) (top + y))) /\
    (forall a, ~ (u <= a < u + cw `div` 2 * ch) -> ~ (v <= a < v + cw `div` 2 * ch) -> m' !! a = m !! a).
Proof.
  intros Hok Hl Hc Hu Hv Hs Huv Hus Hvs.
  destruct (tiled_to_linear_deinterleave_crop_run m u v s w h left top right buttom cw ch)
    as (m' & E & M1 & M2 & _); [done..|].
  exists m'. split; [done|]. split.
  - intros x y Hx Hy. split.
    + pose proof (M1 (false, (x, y)) (conj Hx Hy)) as M. simpl in M. by rewrite Z.add_0_r in M.
    + pose proof (M1 (true, (x, y)) (conj Hx Hy)) as M. rewrite <- (Z.add_assoc left). exact M.
  - intros a Hu' Hv'. apply M2. intros [b [x y]] [Hx Hy] ->. simpl in *.
    pose proof (rect_lt _ _ x y Hx Hy). destruct b; lia.
Qed.

(** A rectangle of 196 columns from column 62 of a 258x1 plane: the bytes of the
    blocks that are read, those of the fifth block, and the output row. *)
Definition overrun_memory : mem :=
  fill 196 20000 (fun _ => 0) (fill 2 62 (fun _ => 0) (fill 64 2048 (fun _ => 0) (fill 64 4096 (fun _ => 0)
    (fill 64 6144 (fun _ => 0) (fill 2 6208 (fun _ => 1) (fill 2 8192 (fun _ => 2) ∅)))))).

(**  Outside the bound [crop_blocks] the 64-column path is wrong: it ends its
    row with a copy of more than 64 bytes from one block.  The last two columns of
    the rectangle come from the next row of the fourth block instead of the fifth
    block. *)
Theorem csc_tiled_to_linear_crop_overrun :
  ~ (62 `mod` 64 + 196 <= 256) /\
  toff 258 1 (62 + 194) 0 = 8192 /\ overrun_memory !! 8192 = Some 2 /\
  exists m', csc_tiled_to_linear_crop 20000 0 258 1 62 0 0 0 overrun_memory = Some (tt, m') /\
    m' !! (20000 + 194) = overrun_memory !! 6208 /\ m' !! (20000 + 194) = Some 1.
Proof.
  assert (Hrun : match csc_tiled_to_linear_crop 20000 0 258 1 62 0 0 0 overrun_memory with
    | Some (_, m') => m' !! (20000 + 194) | None => None end = Some 1) by (vm_compute; reflexivity).
  split; [vm_compute; auto|]. split; [vm_compute; reflexivity|]. split; [vm_compute; reflexivity|].
  destruct (csc_tiled_to_linear_crop 20000 0 258 1 62 0 0 0 overrun_memory) as [[[] m']|]; [|done].
  exists m'. split; [done|]. split; [|done]. rewrite Hrun. vm_compute. reflexivity.
Qed.

(** A 300x34 rectangle of a 400x40 plane at 0, output at 100000 (and 200000). *)
Definition crop_memory : mem :=
  fill (Z.to_nat (300 * 34)) 100000 (fun _ => 0) (fill (Z.to_nat (150 * 34)) 200000 (fun _ => 0)
    (fill (Z.to_nat (size128 400 40)) 0 (fun k => k `mod` 251) ∅)).

Lemma crop_memory_ok : crop_ok 400 40 70 2 30 4 300 34.
Proof. split; lia. Qed.

Lemma crop_memory_mapped :
  mapped crop_memory 100000 (300 * 34) /\ mapped crop_memory 200000 (150 * 34) /\
  mapped crop_memory 0 (size128 400 40).
Proof.
  unfold crop_memory. split; [exact (mapped_fill (Z.to_nat (300 * 34)) _ _ _)|]. split.
  - apply mapped_fill_other. exact (mapped_fill (Z.to_nat (150 * 34)) _ _ _).
  - do 2 apply mapped_fill_other. exact (mapped_fill (Z.to_nat (size128 400 40)) _ _ _).
Qed.

Lemma csc_tiled_to_linear_crop_correct_witness :
  exists m', csc_tiled_to_linear_crop 100000 0 400 40 70 2 30 4 crop_memory = Some (tt, m') /\
    (forall x y, 0 <= x < 300 -> 0 <= y < 34 ->
       m' !! (100000 + (300 * y + x)) = crop_memory !! (0 + toff 400 40 (70 + x) (2 + y))) /\
    (forall a, ~ (100000 <= a < 100000 + 300 * 34) -> m' !! a = crop_memory !! a).
Proof.
  apply (csc_tiled_to_linear_crop_correct crop_memory);
    [apply crop_memory_ok|apply crop_memory_mapped|apply crop_memory_mapped|].
  right. vm_compute. discriminate.
Defined.

Lemma csc_tiled_to_linear_deinterleave_crop_correct_witness :
  exists m', csc_tiled_to_linear_deinterleave_crop 100000 200000 0 400 40 70 2 30 4 crop_memory = Some (tt, m') /\
    (forall x y, 0 <= x < 300 `div` 2 -> 0 <= y < 34 ->
       m' !! (100000 + (300 `div` 2 * y + x)) = crop_memory !! (0 + toff 400 40 (70 + 2 * x) (2 + y)) /\
       m' !! (200000 + (300 `div` 2 * y + x)) = crop_memory !! (0 + toff 400 40 (70 + 2 * x + 1) (2 + y))) /\
    (forall a, ~ (100000 <= a < 100000 + 300 `div` 2 * 34) ->
       ~ (200000 <= a < 200000 + 300 `div` 2 * 34) -> m' !! a = crop_memory !! a).
Proof.
  apply (csc_tiled_to_linear_deinterleave_crop_correct crop_memory);
    [apply crop_memory_ok|done|done| |apply crop_memory_mapped|apply crop_memory_mapped| | |].
  - apply (mapped_sub _ 100000 (300 * 34)); [apply crop_memory_mapped|lia|vm_compute; discriminate].
  - left. vm_compute. discriminate.
  - right. vm_compute. discriminate.
  - right. vm_compute. discriminate.
Defined.
