(* ===== verification/Retile.v ===== *)
(** * 128x64 tiled frames: linear to tiled

    [csc_linear_to_tiled_crop] and [csc_linear_to_tiled_interleave_crop] of
    [src/libswconverter/swconvertor.c], the public [csc_linear_to_tiled_y] and
    [csc_linear_to_tiled_uv] of the [USE_NV12T_128X64] configuration, and the
    round trip with the converters of [Crop]. *)

From S2P Require Import Prelude CMem Interleave Tile16 Tile128 Crop.

(** ** Operations *)

(** [tiled_offset], the offset of the block of column [j], row [i] of the cropped
    plane; the source repeats this computation in each loop. *)
Definition block_offset (yuv420_width yuv420_height left top right buttom i j : Z) : Z :=
  let tiled_x_index := j ≫ 6 in
  let tiled_y_index := i ≫ 5 in
  if negb (Z.land tiled_y_index 0x1 =? 0) then
    let tiled_offset := tiled_y_index ^- 1 in
    let temp1 := (((yuv420_width ^- left ^- right) ^+ 127) ≫ 7) ^<< 7 in
    let tiled_offset := tiled_offset ^* (temp1 ≫ 6) in
    let tiled_offset := tiled_offset ^+ tiled_x_index in
    let tiled_offset := tiled_offset ^+ 2 in
    let temp1 := (tiled_x_index ≫ 2) ^<< 2 in
    let tiled_offset := tiled_offset ^+ temp1 in
    tiled_offset ^<< 11
  else
    let temp2 := (((yuv420_height ^- top ^- buttom) ^+ 31) ≫ 5) ^<< 5 in
    if i ^+ 32 <? temp2 then
      let temp1 := tiled_x_index ^+ 2 in
      let temp1 := (temp1 ≫ 2) ^<< 2 in
      let tiled_offset := tiled_x_index ^+ temp1 in
      let temp1 := (((yuv420_width ^- left ^- right) ^+ 127) ≫ 7) ^<< 7 in
      let tiled_offset := tiled_offset ^+ (tiled_y_index ^* (temp1 ≫ 6)) in
      tiled_offset ^<< 11
    else
      let temp1 := (((yuv420_width ^- left ^- right) ^+ 127) ≫ 7) ^<< 7 in
      let tiled_offset := tiled_y_index ^* (temp1 ≫ 6) in
      let tiled_offset := tiled_offset ^+ tiled_x_index in
      tiled_offset ^<< 11.

(** [n] consecutive statements that differ in a counter from [k] on. *)
Fixpoint unrolled (n : nat) (k : Z) (stmt : Z -> M unit) : M unit :=
  match n with O => ret tt | S n' => stmt k ;! unrolled n' (k + 1) stmt end.

Definition csc_linear_to_tiled_crop
    (nv12t_dest yuv420_src yuv420_width yuv420_height left top right buttom : Z) : M unit :=
  let aligned_y_size := ((yuv420_height ^- top ^- buttom) ≫ 5) ^<< 5 in
  let aligned_x_size := ((yuv420_width ^- left ^- right) ≫ 6) ^<< 6 in
  let offset := block_offset yuv420_width yuv420_height left top right buttom in
  for_each 0 aligned_y_size 32 (fun i =>
    for_each 0 aligned_x_size 64 (fun j =>
      let tiled_offset := offset i j in
      unrolled 32 0 (fun k =>
        memcpy (nv12t_dest + tiled_offset + 64 * k)
          (yuv420_src + left + j + (yuv420_width ^* (i ^+ top ^+ k))) 64))) ;!
  for_each aligned_y_size (yuv420_height ^- top ^- buttom) 2 (fun i =>
    for_each 0 aligned_x_size 64 (fun j =>
      let tiled_offset := offset i j in
      let temp1 := Z.land i 0x1F in
      memcpy (nv12t_dest + tiled_offset + 64 ^* temp1)
        (yuv420_src + left + j + (yuv420_width ^* (i ^+ top))) 64 ;!
      memcpy (nv12t_dest + tiled_offset + 64 ^* (temp1 ^+ 1))
        (yuv420_src + left + j + (yuv420_width ^* (i ^+ top ^+ 1))) 64)) ;!
  for_each 0 (yuv420_height ^- top ^- buttom) 2 (fun i =>
    for_each aligned_x_size (yuv420_width ^- left ^- right) 2 (fun j =>
      let tiled_offset := offset i j in
      let temp1 := Z.land i 0x1F in
      let temp2 := Z.land j 0x3F in
      memcpy (nv12t_dest + tiled_offset + temp2 + 64 ^* temp1)
        (yuv420_src + left + j + (yuv420_width ^* (i ^+ top))) 2 ;!
      memcpy (nv12t_dest + tiled_offset + temp2 + 64 ^* (temp1 ^+ 1))
        (yuv420_src + left + j + (yuv420_width ^* (i ^+ top ^+ 1))) 2)).

Definition csc_linear_to_tiled_interleave_crop
    (nv12t_uv_dest yuv420_u_src yuv420_v_src yuv420_width yuv420_height left top right buttom : Z) : M unit :=
  let aligned_y_size := ((yuv420_height ^- top ^- buttom) ≫ 5) ^<< 5 in
  let aligned_x_size := ((yuv420_width ^- left ^- right) ≫ 6) ^<< 6 in
  let offset := block_offset yuv420_width yuv420_height left top right buttom in
  let source src j y := src + left `div` 2 + j `div` 2 + (yuv420_width `div` 2 ^* y) in
  for_each 0 aligned_y_size 32 (fun i =>
    for_each 0 aligned_x_size 64 (fun j =>
      let tiled_offset := offset i j in
      unrolled 32 0 (fun k =>
        csc_interleave_memcpy (nv12t_uv_dest + tiled_offset + 64 * k)
          (source yuv420_u_src j (i ^+ top ^+ k)) (source yuv420_v_src j (i ^+ top ^+ k)) 32))) ;!
  for_each aligned_y_size (yuv420_height ^- top ^- buttom) 1 (fun i =>
    for_each 0 aligned_x_size 64 (fun j =>
      let tiled_offset := offset i j in
      let temp1 := Z.land i 0x1F in
      csc_interleave_memcpy (nv12t_uv_dest + tiled_offset + 64 ^* temp1)
        (source yuv420_u_src j (i ^+ top)) (source yuv420_v_src j (i ^+ top)) 32)) ;!
  for_each 0 (yuv420_height ^- top ^- buttom) 1 (fun i =>
    for_each aligned_x_size (yuv420_width ^- left ^- right) 2 (fun j =>
      let tiled_offset := offset i j in
      let temp1 := Z.land i 0x1F in
      let temp2 := Z.land j 0x3F in
      csc_interleave_memcpy (nv12t_uv_dest + tiled_offset + temp2 + 64 ^* temp1)
        (source yuv420_u_src j (i ^+ top)) (source yuv420_v_src j (i ^+ top)) 1)).

(** The public converters of the [USE_NV12T_128X64] configuration. *)
Definition csc_linear_to_tiled_y (y_dst y_src width height : Z) : M unit :=
  csc_linear_to_tiled_crop y_dst y_src width height 0 0 0 0.
Definition csc_linear_to_tiled_uv (uv_dst u_src v_src width height : Z) : M unit :=
  csc_linear_to_tiled_interleave_crop uv_dst u_src v_src width height 0 0 0 0.

(** ** The block offset *)

(** A rectangle of [cw] by [ch] at [(left, top)] of a plane of at most 16384 by
    16384. *)
Record window (w h left top right buttom cw ch : Z) : Prop := {
  win_size : 0 < w <= 16384 /\ 0 < h <= 16384;
  win_edges : 0 <= left /\ 0 <= top /\ 0 <= right /\ 0 <= buttom;
  win_cols : cw = w - left - right /\ 0 <= cw;
  win_rows : ch = h - top - buttom /\ 0 <= ch
}.

Section window.
Context (w h left top right buttom cw ch : Z) (win : window w h left top right buttom cw ch).

Lemma window_facts : 0 < w <= 16384 /\ 0 < h <= 16384 /\ 0 <= left /\ 0 <= top /\
  0 <= cw <= 16384 /\ 0 <= ch <= 16384 /\ left + cw <= w /\ top + ch <= h /\
  w ^- left ^- right = cw /\ h ^- top ^- buttom = ch.
Proof.
  destruct win as [[? ?] (? & ? & ? & ?) [? ?] [? ?]].
  rewrite (u32_small (w - left)), (u32_small (h - top)) by lia. rewrite !u32_small; lia.
Qed.

Lemma block_offset_spec i j : 0 <= i < ch -> 0 <= j < cw ->
  block_offset w h left top right buttom i j =
  2048 * block (blocks_x cw) ((ch - 1) `div` 32) (j `div` 64) (i `div` 32).
Proof.
  intros Hi Hj. destruct window_facts as (Hw & Hh & _ & _ & Hcw & Hch & _ & _ & Ew & Eh).
  unfold block_offset. rewrite Ew, Eh. cbv zeta. rewrite (shr_div 6 64 j), (shr_div 5 32 i) by (first [lia|done]).
  autorewrite with bits. set (bx := j `div` 64). set (by_ := i `div` 32).
  assert (Hbx : 0 <= bx < 256) by (unfold bx; clear -Hj Hcw; dlia).
  assert (Hby : 0 <= by_ < 512) by (unfold by_; clear -Hi Hch; dlia).
  assert (Hnx : (((cw ^+ 127) ≫ 7) ^<< 7) ≫ 6 = blocks_x cw /\ 0 <= blocks_x cw <= 256).
  { rewrite (u32_small (cw + 127)) by lia. unfold blocks_x. shifts.
    rewrite u32_small by (clear -Hcw; dlia). clear -Hcw. dlia. }
  destruct Hnx as [-> Hnx]. set (nx := blocks_x cw) in *.
  assert (H4 : (bx ≫ 2) ^<< 2 = 4 * (bx `div` 4) /\ 0 <= 4 * (bx `div` 4) <= bx).
  { shifts. rewrite u32_small; clear -Hbx; dlia. }
  assert (H6 : ((bx ^+ 2) ≫ 2) ^<< 2 = 4 * ((bx + 2) `div` 4) /\ 0 <= 4 * ((bx + 2) `div` 4) <= bx + 2).
  { rewrite (u32_small (bx + 2)) by lia. shifts. rewrite u32_small; clear -Hbx; dlia. }
  destruct H4 as [-> H4], H6 as [-> H6].
  assert (Hlast : (i ^+ 32 <? ((ch ^+ 31) ≫ 5) ^<< 5) = true <-> by_ < (ch - 1) `div` 32).
  { rewrite (u32_small (i + 32)), (u32_small (ch + 31)) by lia. shifts.
    rewrite u32_small by (clear -Hch; dlia). rewrite Z.ltb_lt. unfold by_. clear -Hi. dlia. }
  assert (Hle : by_ <= (ch - 1) `div` 32) by (unfold by_; clear -Hi; dlia).
  unfold block. assert (E : by_ `mod` 2 = 0 \/ by_ `mod` 2 = 1) by (clear; dlia).
  assert (Hprod : 0 <= by_ * nx <= 511 * 256) by (clear -Hby Hnx; nia).
  destruct E as [E|E]; rewrite E; simpl.
  - destruct (i ^+ 32 <? _) eqn:El.
    + assert (Hlt : by_ < (ch - 1) `div` 32) by tauto. rewrite (proj2 (Z.eqb_neq _ _)) by lia.
      rewrite (u32_small (bx + _)), (u32_small (by_ * nx)) by lia.
      rewrite (u32_small (_ + by_ * nx)) by lia. shifts. rewrite u32_small; lia.
    + assert (by_ = (ch - 1) `div` 32) as He by lia. rewrite (proj2 (Z.eqb_eq _ _) He).
      rewrite (u32_small (by_ * nx)), (u32_small (by_ * nx + _)) by lia. shifts. rewrite u32_small; lia.
  - assert (1 <= by_) by (clear -E Hby; dlia).
    rewrite (u32_small (by_ - 1)) by lia. rewrite (u32_small ((by_ - 1) * nx)) by nia.
    assert (0 <= (by_ - 1) * nx <= 511 * 256) by nia.
    rewrite (u32_small ((by_ - 1) * nx + bx)) by lia. rewrite (u32_small (_ + 2)), (u32_small (_ + 4 * _)) by lia.
    shifts. rewrite u32_small; lia.
Qed.
End window.

(** ** The three loops *)

Lemma writes_for_each2 m V lo1 hi1 step1 n1 lo2 hi2 step2 n2 body (C : Z -> Z -> Z -> Prop) :
  0 < step1 -> 0 <= n1 -> 0 <= lo1 -> (0 < n1 -> lo1 + step1 * (n1 - 1) < hi1) -> hi1 <= lo1 + step1 * n1 ->
  lo1 + step1 * n1 < 2 ^ 32 ->
  0 < step2 -> 0 <= n2 -> 0 <= lo2 -> (0 < n2 -> lo2 + step2 * (n2 - 1) < hi2) -> hi2 <= lo2 + step2 * n2 ->
  lo2 + step2 * n2 < 2 ^ 32 ->
  (forall k l, 0 <= k < n1 -> 0 <= l < n2 ->
     writes m V (body (lo1 + step1 * k) (lo2 + step2 * l)) tt (C k l)) ->
  writes m V (for_each lo1 hi1 step1 (fun i => for_each lo2 hi2 step2 (fun j => body i j))) tt
    (fun a => exists k l, 0 <= k < n1 /\ 0 <= l < n2 /\ C k l a).
Proof.
  intros. eapply writes_weaken.
  { apply writes_for_each with (n := n1); [done..|]. intros k Hk.
    apply writes_for_each with (n := n2) (C := C k); [done..|]. auto. }
  intros a (k & l & Hk & Hl & HC). exists k. split; [done|]. by exists l.
Qed.

Lemma writes_unrolled m V n k stmt (C : Z -> Z -> Prop) :
  (forall i, k <= i < k + Z.of_nat n -> writes m V (stmt i) tt (C i)) ->
  writes m V (unrolled n k stmt) tt (fun a => exists i, k <= i < k + Z.of_nat n /\ C i a).
Proof.
  revert k. induction n as [|n IH]; intros k Hs; simpl.
  - eapply writes_weaken; [apply writes_ret|]. intros a (i & Hi & _). lia.
  - eapply writes_weaken.
    { eapply writes_seq; [apply Hs; lia|]. apply IH. intros i Hi. apply Hs. lia. }
    intros a (i & Hi & HC). destruct (decide (i = k)) as [->|Hne]; [by left|right].
    exists i. split; [lia|done].
Qed.

Section retile.
Context (m : mem) (d w h left top right buttom cw ch : Z) (win : window w h left top right buttom cw ch).
Context (S : Z * Z -> Z) (map_d : mapped m d (size128 cw ch)).
Context (map_s : forall k, rect cw ch k -> is_Some (m !! S k)).
Context (apart_ds : forall k o, rect cw ch k -> 0 <= o < size128 cw ch -> d + o <> S k).

(** Destination of a pixel of the window: its place in the tiled plane. *)
Definition tile_dst : Z * Z -> Z := fun '(x, y) => d + toff cw ch x y.
Abbreviation V := (plan m (rect cw ch) tile_dst S).
(** [n] bytes of row [y] from column [x] on. *)
Definition span (x y n a : Z) : Prop := exists t, 0 <= t < n /\ a = tile_dst (x + t, y).

Lemma tile_dst_inj k k' : rect cw ch k -> rect cw ch k' -> tile_dst k = tile_dst k' -> k = k'.
Proof.
  destruct k as [x y], k' as [x' y']. intros [Hx Hy] [Hx' Hy'] He. simpl in He.
  destruct (toff_inj cw ch x y x' y'); try done; [lia|congruence].
Qed.

Lemma tile_copyable k : rect cw ch k -> copyable1 m V (tile_dst k) (S k).
Proof.
  intros Hk. eapply plan_copyable1; [..|exact Hk|done|done].
  - intros [x y] [Hx Hy]. by apply map_d, toff_bounds.
  - exact map_s.
  - intros [x y] k' [Hx Hy] Hk'. apply apart_ds; [done|]. by apply toff_bounds.
Qed.

(** The address of a span of a block, from the offset of the block. *)
Lemma span_address i j c r : 0 <= i + r < ch -> 0 <= j + c < cw -> 0 <= i -> 0 <= j -> 0 <= r -> 0 <= c ->
  i < ch -> j < cw -> i `mod` 32 + r < 32 -> j `mod` 64 + c < 64 ->
  d + block_offset w h left top right buttom i j + (j `mod` 64 + c) + 64 * (i `mod` 32 + r) =
  tile_dst (j + c, i + r).
Proof using win.
  intros. rewrite block_offset_spec with (cw := cw) (ch := ch) by (first [exact win|lia]).
  simpl. rewrite toff_step, toff_row by lia. unfold toff. lia.
Qed.

(** Any converter that covers every span of the window, run to its end. *)
Lemma retile_run {A} (p : M A) r C :
  writes m V p r C -> (forall x y, 0 <= x < cw -> 0 <= y < ch -> C (tile_dst (x, y))) ->
  exists m', p m = Some (r, m') /\ moved (rect cw ch) tile_dst S m m'.
Proof using map_s.
  intros Hp HC. eapply (plan_run m (rect cw ch) tile_dst S); [exact map_s| |exact Hp|].
  - intros k k' Hk Hk' He. f_equal. by apply tile_dst_inj.
  - intros [x y] [Hx Hy]. by apply HC.
Qed.
End retile.

(** The loop bounds. *)
Lemma aligned_sizes cw ch : 0 <= cw <= 16384 -> 0 <= ch <= 16384 ->
  (ch ≫ 5) ^<< 5 = 32 * (ch `div` 32) /\ (cw ≫ 6) ^<< 6 = 64 * (cw `div` 64).
Proof.
  intros Hw Hh. shifts. rewrite !u32_small; [lia| |]; (clear -Hw Hh; dlia).
Qed.

(** ** Byte planes *)

(** Position of a pixel of the window in the linear plane. *)
Definition window_at (s w left top : Z) : Z * Z -> Z := fun '(x, y) => s + (w * (top + y) + (left + x)).

Section crop.
Context (m : mem) (d s w h left top right buttom cw ch : Z) (win : window w h left top right buttom cw ch).
Context (cw_even : cw `mod` 2 = 0) (ch_even : ch `mod` 2 = 0).
Context (map_d : mapped m d (size128 cw ch)) (map_s : mapped m s (w * h)).
Context (apart_ds : apart d (size128 cw ch) s (w * h)).
Abbreviation dst := (tile_dst d cw ch).
Abbreviation src := (window_at s w left top).
Abbreviation V := (plan m (rect cw ch) dst src).

Lemma window_in k : rect cw ch k -> exists o, src k = s + o /\ 0 <= o < w * h.
Proof using win.
  destruct k as [x y]. intros [Hx Hy].
  destruct (window_facts _ _ _ _ _ _ _ _ win) as (Hw & Hh & Hl & Ht & _ & _ & Hlw & Hth & _).
  exists (w * (top + y) + (left + x)). split; [done|]. apply rect_lt; lia.
Qed.

Lemma window_mapped k : rect cw ch k -> is_Some (m !! src k).
Proof using win map_s. intros Hk. destruct (window_in k Hk) as (o & -> & Ho). by apply map_s. Qed.

Lemma window_apart k o : rect cw ch k -> 0 <= o < size128 cw ch -> d + o <> src k.
Proof using win apart_ds. intros Hk Ho. destruct (window_in k Hk) as (o' & -> & Ho'). destruct apart_ds; lia. Qed.

(** A [memcpy] of a span. *)
Lemma writes_span x y n dp sp : 0 <= x -> x + n <= cw -> 0 <= y < ch -> 0 <= n -> x `mod` 64 + n <= 64 ->
  dp = dst (x, y) -> sp = src (x, y) -> writes m V (memcpy dp sp n) tt (span d cw ch x y n).
Proof using win map_d map_s apart_ds.
  intros Hx Hn Hy H0 H64 -> ->. eapply writes_weaken.
  { apply writes_memcpy. intros t Ht.
    pose proof (tile_copyable m d cw ch src map_d window_mapped window_apart (x + t, y)) as Hc.
    simpl in *. rewrite toff_step in Hc by lia.
    replace (d + toff cw ch x y + t) with (d + (toff cw ch x y + t)) by lia.
    replace (s + (w * (top + y) + (left + x)) + t) with (s + (w * (top + y) + (left + (x + t)))) by lia.
    apply Hc. split; lia. }
  intros a (t & Ht & ->). simpl. rewrite toff_step by lia. lia.
Qed.

Lemma source_row x y : 0 <= x < cw -> 0 <= y < ch ->
  s + left + x + (w ^* (top + y)) = src (x, y).
Proof using win.
  intros Hx Hy. destruct (window_facts _ _ _ _ _ _ _ _ win) as (Hw & Hh & Hl & Ht & _ & _ & Hlw & Hth & _).
  rewrite u32_small by nia. simpl. lia.
Qed.

Lemma linear_to_tiled_crop_run :
  exists m', csc_linear_to_tiled_crop d s w h left top right buttom m = Some (tt, m') /\
    moved (rect cw ch) dst src m m'.
Proof using win cw_even ch_even map_d map_s apart_ds.
  destruct (window_facts _ _ _ _ _ _ _ _ win) as (Hw & Hh & Hl & Ht & Hcw & Hch & Hlw & Hth & Ew & Eh).
  eapply (retile_run m d cw ch src window_mapped).
  - unfold csc_linear_to_tiled_crop. rewrite Ew, Eh. destruct (aligned_sizes cw ch Hcw Hch) as [-> ->]. cbv zeta.
    set (qy := ch `div` 32). set (qx := cw `div` 64).
    assert (Hqy : 0 <= qy /\ 32 * qy <= ch < 32 * qy + 32) by (unfold qy; clear -Hch; dlia).
    assert (Hqx : 0 <= qx /\ 64 * qx <= cw < 64 * qx + 64) by (unfold qx; clear -Hcw; dlia).
    assert (Hey : ch = 2 * (ch `div` 2)) by (clear -ch_even; dlia).
    assert (Hex : cw = 2 * (cw `div` 2)) by (clear -cw_even; dlia).
    set (hy := ch `div` 2) in *. set (hx := cw `div` 2) in *.
    apply writes_seq; [|apply writes_seq].
    + apply (writes_for_each2 _ _ 0 _ 32 qy 0 _ 64 qx _ (fun ki kj a => exists r, 0 <= r < 0 + Z.of_nat 32 /\
        span d cw ch (64 * kj) (32 * ki + r) 64 a)); try lia.
      intros ki kj Hi Hj. rewrite !Z.add_0_l. apply writes_unrolled. intros r Hr. change (Z.of_nat 32) with 32 in Hr.
      rewrite (u32_small (32 * ki + top)), (u32_small (_ + r)) by lia.
      apply writes_span; try lia; [clear; dlia| |].
      * rewrite <- (Z.add_0_r (64 * kj)) at 2.
        rewrite <- (span_address d w h left top right buttom cw ch win (32 * ki) (64 * kj) 0 r); (clear -Hi Hj Hr Hqx Hqy; try lia; dlia) .
      * rewrite <- source_row by lia. do 2 f_equal. lia.
    + apply (writes_for_each2 _ _ _ _ 2 (hy - 16 * qy) 0 _ 64 qx _ (fun k kj a =>
        span d cw ch (64 * kj) (32 * qy + 2 * k) 64 a \/ span d cw ch (64 * kj) (32 * qy + 2 * k + 1) 64 a)); try lia.
      intros k kj Hk Hj. rewrite !Z.add_0_l, land_0x1f. set (i := 32 * qy + 2 * k) in *.
      assert (Hi : 0 <= i /\ i + 1 < ch /\ i `mod` 32 + 1 < 32) by (unfold i; clear -Hk Hey Hqy; dlia).
      destruct Hi as (Hi0 & Hi1 & Hi32). assert (0 <= i `mod` 32) by (clear; dlia).
      rewrite (u32_small (i + top)), (u32_small (_ + 1)), (u32_small (_ + 1)), (u32_small (64 * _)), (u32_small (64 * _)) by lia.
      apply writes_seq; apply writes_span; try lia; try (clear; dlia).
      * rewrite <- (Z.add_0_r (64 * kj)) at 2. rewrite <- (Z.add_0_r i) at 3.
        rewrite <- (span_address d w h left top right buttom cw ch win i (64 * kj) 0 0); (clear -Hi1 Hi0 Hj Hqx; try lia; dlia).
      * rewrite <- source_row by lia. do 2 f_equal. lia.
      * rewrite <- (Z.add_0_r (64 * kj)) at 2.
        rewrite <- (span_address d w h left top right buttom cw ch win i (64 * kj) 0 1); (clear -Hi1 Hi0 Hi32 Hj Hqx; try lia; dlia).
      * rewrite <- source_row by lia. do 2 f_equal. lia.
    + apply (writes_for_each2 _ _ 0 _ 2 hy _ _ 2 (hx - 32 * qx) _ (fun k l a =>
        span d cw ch (64 * qx + 2 * l) (2 * k) 2 a \/ span d cw ch (64 * qx + 2 * l) (2 * k + 1) 2 a)); try lia.
      intros k l Hk Hl'. rewrite !Z.add_0_l, land_0x1f, land_0x3f. set (i := 2 * k) in *. set (j := 64 * qx + 2 * l) in *.
      assert (Hi : 0 <= i /\ i + 1 < ch /\ i `mod` 32 + 1 < 32) by (unfold i; clear -Hk Hey; dlia).
      assert (Hj : 0 <= j /\ j + 1 < cw /\ j `mod` 64 + 1 < 64) by (unfold j; clear -Hl' Hex Hqx; dlia).
      destruct Hi as (Hi0 & Hi1 & Hi32), Hj as (Hj0 & Hj1 & Hj64). assert (0 <= i `mod` 32) by (clear; dlia).
      rewrite (u32_small (i + top)), (u32_small (_ + 1)), (u32_small (_ + 1)), (u32_small (64 * _)), (u32_small (64 * _)) by lia.
      apply writes_seq; apply writes_span; try lia.
      * rewrite <- (Z.add_0_r j) at 3. rewrite <- (Z.add_0_r i) at 3.
        rewrite <- (span_address d w h left top right buttom cw ch win i j 0 0); (clear -Hi1 Hi0 Hj0 Hj1; try lia; dlia).
      * rewrite <- source_row by lia. do 2 f_equal. lia.
      * rewrite <- (Z.add_0_r j) at 3.
        rewrite <- (span_address d w h left top right buttom cw ch win i j 0 1); (clear -Hi1 Hi0 Hi32 Hj0 Hj1; try lia; dlia).
      * rewrite <- source_row by lia. do 2 f_equal. lia.
  - intros x y Hx Hy. cbv beta. unfold span.
    destruct (Z.lt_ge_cases x (64 * (cw `div` 64))) as [Hxl|Hxr].
    + assert (Hxk : 0 <= x `div` 64 < cw `div` 64 /\ x = 64 * (x `div` 64) + x `mod` 64 /\ 0 <= x `mod` 64 < 64) by (clear -Hx Hxl; dlia).
      destruct Hxk as (Hxk & Hxe & Hxm). destruct (Z.lt_ge_cases y (32 * (ch `div` 32))) as [Hyl|Hyr]; [left|right; left].
      * exists (y `div` 32), (x `div` 64). split; [clear -Hy Hyl; dlia|]. split; [done|].
        exists (y `mod` 32). split; [clear; dlia|]. exists (x `mod` 64). split; [done|].
        rewrite <- Hxe. do 2 f_equal. clear. dlia.
      * exists ((y - 32 * (ch `div` 32)) `div` 2), (x `div` 64). split; [clear -Hy Hyr ch_even; dlia|]. split; [done|].
        assert (Hp : (y - 32 * (ch `div` 32)) `mod` 2 = 0 \/ (y - 32 * (ch `div` 32)) `mod` 2 = 1) by (clear; dlia).
        destruct Hp as [Hp|Hp]; [left|right]; (exists (x `mod` 64); split; [done|]; rewrite <- Hxe; do 2 f_equal; clear -Hp; dlia).
    + right. right. exists (y `div` 2), ((x - 64 * (cw `div` 64)) `div` 2).
      split; [clear -Hy ch_even; dlia|]. split; [clear -Hx Hxr cw_even; dlia|].
      assert (Hp : y `mod` 2 = 0 \/ y `mod` 2 = 1) by (clear; dlia).
      destruct Hp as [Hp|Hp]; [left|right]; (exists ((x - 64 * (cw `div` 64)) `mod` 2); split; [clear; dlia|];
        do 2 f_equal; clear -Hp; dlia).
Qed.
End crop.

(** ** Interleaved planes *)

(** Where the byte of an interleaved pixel comes from: even columns from the
    first, odd columns from the second plane. *)
Definition chroma_at (u v w left top : Z) : Z * Z -> Z :=
  fun '(x, y) => (if x `mod` 2 =? 0 then u else v) + (w `div` 2 * (top + y) + (left `div` 2 + x `div` 2)).

Section interleave.
Context (m : mem) (d u v w h left top right buttom cw ch : Z) (win : window w h left top right buttom cw ch).
Context (cw_even : cw `mod` 2 = 0).
Context (map_d : mapped m d (size128 cw ch)) (map_u : mapped m u (w `div` 2 * h)) (map_v : mapped m v (w `div` 2 * h)).
Context (apart_du : apart d (size128 cw ch) u (w `div` 2 * h)) (apart_dv : apart d (size128 cw ch) v (w `div` 2 * h)).
Abbreviation dst := (tile_dst d cw ch).
Abbreviation src := (chroma_at u v w left top).
Abbreviation V := (plan m (rect cw ch) dst src).

Lemma chroma_in k : rect cw ch k -> exists o, (src k = u + o \/ src k = v + o) /\ 0 <= o < w `div` 2 * h.
Proof using win cw_even.
  destruct k as [x y]. intros [Hx Hy].
  destruct (window_facts _ _ _ _ _ _ _ _ win) as (Hw & Hh & Hl & Ht & _ & _ & Hlw & Hth & _).
  exists (w `div` 2 * (top + y) + (left `div` 2 + x `div` 2)).
  split; [simpl; destruct (_ =? _); auto|]. apply rect_lt; [|lia]. clear -Hx Hl Hlw cw_even. dlia.
Qed.

Lemma chroma_mapped k : rect cw ch k -> is_Some (m !! src k).
Proof using win cw_even map_u map_v.
  intros Hk. destruct (chroma_in k Hk) as (o & [-> | ->] & Ho); auto.
Qed.

Lemma chroma_apart k o : rect cw ch k -> 0 <= o < size128 cw ch -> d + o <> src k.
Proof using win cw_even apart_du apart_dv.
  intros Hk Ho. destruct (chroma_in k Hk) as (o' & [-> | ->] & Ho'); [destruct apart_du|destruct apart_dv]; lia.
Qed.

(** A [csc_interleave_memcpy] of [n] pairs. *)
Lemma writes_pairs x y n dp up vp : 0 <= x -> x `mod` 2 = 0 -> x + 2 * n <= cw -> 0 <= y < ch -> 0 <= n < 2 ^ 31 ->
  x `mod` 64 + 2 * n <= 64 -> dp = dst (x, y) ->
  up = u + (w `div` 2 * (top + y) + (left `div` 2 + x `div` 2)) ->
  vp = v + (w `div` 2 * (top + y) + (left `div` 2 + x `div` 2)) ->
  writes m V (csc_interleave_memcpy dp up vp n) tt (span d cw ch x y (2 * n)).
Proof using win cw_even map_d map_u map_v apart_du apart_dv.
  intros Hx Hx2 Hn Hy H0 H64 -> -> ->.
  assert (Hc : forall t, 0 <= t < 2 * n -> copyable1 m V (dst (x, y) + t) (src (x + t, y))).
  { intros t Ht. pose proof (tile_copyable m d cw ch src map_d chroma_mapped chroma_apart (x + t, y)) as Hc.
    simpl in *. rewrite toff_step in Hc by lia. rewrite <- Z.add_assoc. apply Hc. split; lia. }
  eapply writes_weaken.
  { apply writes_interleave; [done| |]; intros k Hk.
    - specialize (Hc (2 * k) ltac:(lia)). simpl in Hc.
      rewrite (proj2 (Z.eqb_eq _ _)) in Hc by (clear -Hx2; dlia).
      replace ((x + 2 * k) `div` 2) with (x `div` 2 + k) in Hc by (clear; dlia).
      simpl. replace (u + (w `div` 2 * (top + y) + (left `div` 2 + x `div` 2)) + k)
        with (u + (w `div` 2 * (top + y) + (left `div` 2 + (x `div` 2 + k)))) by lia. exact Hc.
    - specialize (Hc (2 * k + 1) ltac:(lia)). simpl in Hc.
      rewrite (proj2 (Z.eqb_neq _ _)) in Hc by (clear -Hx2; dlia).
      replace ((x + (2 * k + 1)) `div` 2) with (x `div` 2 + k) in Hc by (clear -Hx2; dlia).
      simpl. replace (v + (w `div` 2 * (top + y) + (left `div` 2 + x `div` 2)) + k)
        with (v + (w `div` 2 * (top + y) + (left `div` 2 + (x `div` 2 + k)))) by lia. exact Hc. }
  intros a (t & Ht & ->). simpl. rewrite toff_step by lia. lia.
Qed.

Lemma linear_to_tiled_interleave_crop_run :
  exists m', csc_linear_to_tiled_interleave_crop d u v w h left top right buttom m = Some (tt, m') /\
    moved (rect cw ch) dst src m m'.
Proof using win cw_even map_d map_u map_v apart_du apart_dv.
  destruct (window_facts _ _ _ _ _ _ _ _ win) as (Hw & Hh & Hl & Ht & Hcw & Hch & Hlw & Hth & Ew & Eh).
  assert (Hrow : forall p j y, 0 <= y < ch ->
    p + left `div` 2 + j `div` 2 + (w `div` 2 ^* (top + y)) = p + (w `div` 2 * (top + y) + (left `div` 2 + j `div` 2))).
  { intros p j y Hy. rewrite u32_small; [lia|]. assert (0 <= w `div` 2 <= 8192) by (clear -Hw; dlia). nia. }
  eapply (retile_run m d cw ch src chroma_mapped).
  - unfold csc_linear_to_tiled_interleave_crop. rewrite Ew, Eh. destruct (aligned_sizes cw ch Hcw Hch) as [-> ->]. cbv zeta.
    set (qy := ch `div` 32). set (qx := cw `div` 64).
    assert (Hqy : 0 <= qy /\ 32 * qy <= ch < 32 * qy + 32) by (unfold qy; clear -Hch; dlia).
    assert (Hqx : 0 <= qx /\ 64 * qx <= cw < 64 * qx + 64) by (unfold qx; clear -Hcw; dlia).
    assert (Hex : cw = 2 * (cw `div` 2)) by (clear -cw_even; dlia). set (hx := cw `div` 2) in *.
    apply writes_seq; [|apply writes_seq].
    + apply (writes_for_each2 _ _ 0 _ 32 qy 0 _ 64 qx _ (fun ki kj a => exists r, 0 <= r < 0 + Z.of_nat 32 /\
        span d cw ch (64 * kj) (32 * ki + r) (2 * 32) a)); try lia.
      intros ki kj Hi Hj. rewrite !Z.add_0_l. apply writes_unrolled. intros r Hr. change (Z.of_nat 32) with 32 in Hr.
      rewrite (u32_small (32 * ki + top)), (u32_small (_ + r)) by lia.
      replace (32 * ki + top + r) with (top + (32 * ki + r)) by lia. rewrite !Hrow by lia.
      apply writes_pairs; try lia; [clear; dlia|clear; dlia|].
      rewrite <- (Z.add_0_r (64 * kj)) at 2.
      rewrite <- (span_address d w h left top right buttom cw ch win (32 * ki) (64 * kj) 0 r); (clear -Hi Hj Hr Hqx Hqy; try lia; dlia).
    + apply (writes_for_each2 _ _ _ _ 1 (ch - 32 * qy) 0 _ 64 qx _ (fun k kj => span d cw ch (64 * kj) (32 * qy + k) (2 * 32))); try lia.
      intros k kj Hk Hj. rewrite !Z.add_0_l, land_0x1f, Z.mul_1_l. set (i := 32 * qy + k) in *.
      assert (Hi0 : 0 <= i < ch) by lia. assert (0 <= i `mod` 32 < 32) by (clear; dlia).
      rewrite (u32_small (i + top)), (u32_small (64 * _)), (Z.add_comm i) by lia. rewrite !Hrow by lia.
      apply writes_pairs; try lia; [clear; dlia|clear; dlia|].
      rewrite <- (Z.add_0_r (64 * kj)) at 2. rewrite <- (Z.add_0_r i) at 3.
      rewrite <- (span_address d w h left top right buttom cw ch win i (64 * kj) 0 0); (clear -Hi0 Hj Hqx; try lia; dlia).
    + apply (writes_for_each2 _ _ 0 _ 1 ch _ _ 2 (hx - 32 * qx) _ (fun i l => span d cw ch (64 * qx + 2 * l) i (2 * 1))); try lia.
      intros i l Hi Hl'. rewrite !Z.add_0_l, land_0x1f, land_0x3f, Z.mul_1_l. set (j := 64 * qx + 2 * l) in *.
      assert (Hj : 0 <= j /\ j + 1 < cw /\ j `mod` 64 + 1 < 64 /\ j `mod` 2 = 0) by (unfold j; clear -Hl' Hex Hqx; dlia).
      destruct Hj as (Hj0 & Hj1 & Hj64 & Hj2). assert (0 <= i `mod` 32 < 32) by (clear; dlia).
      rewrite (u32_small (i + top)), (u32_small (64 * _)), (Z.add_comm i) by lia. rewrite !Hrow by lia.
      apply writes_pairs; try lia.
      rewrite <- (Z.add_0_r j) at 3. rewrite <- (Z.add_0_r i) at 3.
      rewrite <- (span_address d w h left top right buttom cw ch win i j 0 0); (clear -Hi Hj0 Hj1; try lia; dlia).
  - intros x y Hx Hy. cbv beta. unfold span.
    destruct (Z.lt_ge_cases x (64 * (cw `div` 64))) as [Hxl|Hxr].
    + assert (Hxk : 0 <= x `div` 64 < cw `div` 64 /\ x = 64 * (x `div` 64) + x `mod` 64 /\ 0 <= x `mod` 64 < 2 * 32) by (clear -Hx Hxl; dlia).
      destruct Hxk as (Hxk & Hxe & Hxm). destruct (Z.lt_ge_cases y (32 * (ch `div` 32))) as [Hyl|Hyr]; [left|right; left].
      * exists (y `div` 32), (x `div` 64). split; [clear -Hy Hyl; dlia|]. split; [done|].
        exists (y `mod` 32). split; [clear; dlia|]. exists (x `mod` 64). split; [done|].
        rewrite <- Hxe. do 2 f_equal. clear. dlia.
      * exists (y - 32 * (ch `div` 32)), (x `div` 64). split; [lia|]. split; [done|].
        exists (x `mod` 64). split; [done|]. rewrite <- Hxe. do 2 f_equal. lia.
    + right. right. exists y, ((x - 64 * (cw `div` 64)) `div` 2). split; [lia|].
      split; [clear -Hx Hxr cw_even; dlia|]. exists ((x - 64 * (cw `div` 64)) `mod` 2). split; [clear; dlia|].
      do 2 f_equal. clear. dlia.
Qed.
End interleave.

(** ** Theorems *)

(**  [csc_linear_to_tiled_crop] ends without a fault on every window of even
    width and height, puts every byte of the window at its place in the block
    layout of the window, and changes nothing else. *)
Theorem csc_linear_to_tiled_crop_correct m d s w h left top right buttom cw ch :
  window w h left top right buttom cw ch -> cw `mod` 2 = 0 -> ch `mod` 2 = 0 ->
  mapped m d (size128 cw ch) -> mapped m s (w * h) -> apart d (size128 cw ch) s (w * h) ->
  exists m', csc_linear_to_tiled_crop d s w h left top right buttom m = Some (tt, m') /\
    (forall x y, 0 <= x < cw -> 0 <= y < ch ->
       m' !! (d + toff cw ch x y) = m !! (s + (w * (top + y) + (left + x)))) /\
    (forall a, (forall x y, 0 <= x < cw -> 0 <= y < ch -> a <> d + toff cw ch x y) -> m' !! a = m !! a).
Proof.
  intros Hwin Hc Hr Hd Hs Ha.
  destruct (linear_to_tiled_crop_run m d s w h left top right buttom cw ch) as (m' & E & M1 & M2 & _); [done..|].
  exists m'. split; [done|]. split.
  - intros x y Hx Hy. exact (M1 (x, y) (conj Hx Hy)).
  - intros a Hout. apply M2. intros [x y] [Hx Hy]. by apply Hout.
Qed.

(**  [csc_linear_to_tiled_interleave_crop] interleaves the window of the two
    chroma planes into the block layout, for any height, and changes nothing
    else. *)
Theorem csc_linear_to_tiled_interleave_crop_correct m d u v w h left top right buttom cw ch :
  window w h left top right buttom cw ch -> cw `mod` 2 = 0 ->
  mapped m d (size128 cw ch) -> mapped m u (w `div` 2 * h) -> mapped m v (w `div` 2 * h) ->
  apart d (size128 cw ch) u (w `div` 2 * h) -> apart d (size128 cw ch) v (w `div` 2 * h) ->
  exists m', csc_linear_to_tiled_interleave_crop d u v w h left top right buttom m = Some (tt, m') /\
    (forall x y, 0 <= x < cw `div` 2 -> 0 <= y < ch ->
       m' !! (d + toff cw ch (2 * x) y) = m !! (u + (w `div` 2 * (top + y) + (left `div` 2 + x))) /\
       m' !! (d + toff cw ch (2 * x + 1) y) = m !! (v + (w `div` 2 * (top + y) + (left `div` 2 + x)))) /\
    (forall a, (forall x y, 0 <= x < cw -> 0 <= y < ch -> a <> d + toff cw ch x y) -> m' !! a = m !! a).
Proof.
  intros Hwin Hc Hd Hu Hv Hdu Hdv.
  destruct (linear_to_tiled_interleave_crop_run m d u v w h left top right buttom cw ch) as (m' & E & M1 & M2 & _); [done..|].
  exists m'. split; [done|]. split.
  - intros x y Hx Hy. split.
    + pose proof (M1 (2 * x, y) ltac:(split; [clear -Hx Hc; dlia|done])) as M. simpl in M.
      rewrite (proj2 (Z.eqb_eq _ _)) in M by (clear; dlia). by replace ((2 * x) `div` 2) with x in M by (clear; dlia).
    + pose proof (M1 (2 * x + 1, y) ltac:(split; [clear -Hx Hc; dlia|done])) as M. simpl in M.
      rewrite (proj2 (Z.eqb_neq _ _)) in M by (clear; dlia). by replace ((2 * x + 1) `div` 2) with x in M by (clear; dlia).
  - intros a Hout. apply M2. intros [x y] [Hx Hy]. by apply Hout.
Qed.

Lemma whole_crop w h : 0 < w <= 16384 -> 0 < h <= 16384 -> w `mod` 2 = 0 -> crop_ok w h 0 0 0 0 w h.
Proof. intros Hw Hh He. split; try lia. - change (0 `mod` 64) with 0. lia. - by rewrite Z.sub_0_r. Qed.
Lemma whole_window w h : 0 < w <= 16384 -> 0 < h <= 16384 -> window w h 0 0 0 0 w h.
Proof. split; lia. Qed.

(**  Tiling a luma plane of even width and height with
    [csc_linear_to_tiled_y] and converting the result back to linear gives the
    plane back, also in place. *)
Theorem luma_roundtrip m s t o w h :
  0 < w <= 16384 -> 0 < h <= 16384 -> w `mod` 2 = 0 -> h `mod` 2 = 0 ->
  mapped m s (w * h) -> mapped m t (size128 w h) -> mapped m o (w * h) ->
  apart t (size128 w h) s (w * h) -> apart o (w * h) t (size128 w h) ->
  exists m', (csc_linear_to_tiled_y t s w h ;! csc_tiled_to_linear_crop o t w h 0 0 0 0) m = Some (tt, m') /\
    (forall k, 0 <= k < w * h -> m' !! (o + k) = m !! (s + k)).
Proof.
  intros Hw Hh Hwe Hhe Hs Ht Ho Hts Hot.
  destruct (linear_to_tiled_crop_run m t s w h 0 0 0 0 w h (whole_window w h Hw Hh)) as (m1 & E1 & M1); [done..|].
  destruct (tiled_to_linear_crop_run m1 o t w h 0 0 0 0 w h (whole_crop w h Hw Hh Hwe)) as (m2 & E2 & M2);
    [by eapply moved_mapped|by eapply moved_mapped|done|].
  exists m2. unfold bind, csc_linear_to_tiled_y. rewrite E1, E2. split; [done|].
  intros k Hk. destruct (rect_pos w h k) as (x & y & Hx & Hy & ->); [lia|done|].
  destruct M1 as [M1 _], M2 as [M2 _].
  transitivity (m1 !! (t + toff w h (0 + x) (0 + y))); [exact (M2 (x, y) (conj Hx Hy))|].
  exact (M1 (x, y) (conj Hx Hy)).
Qed.

(**  Tiling two chroma planes with [csc_linear_to_tiled_uv] and converting the
    result back to two planes gives both planes back. *)
Theorem chroma_roundtrip m u v t ou ov w h :
  0 < w <= 16384 -> 0 < h <= 16384 -> w `mod` 2 = 0 ->
  mapped m u (w `div` 2 * h) -> mapped m v (w `div` 2 * h) -> mapped m t (size128 w h) ->
  mapped m ou (w `div` 2 * h) -> mapped m ov (w `div` 2 * h) ->
  apart t (size128 w h) u (w `div` 2 * h) -> apart t (size128 w h) v (w `div` 2 * h) ->
  apart ou (w `div` 2 * h) ov (w `div` 2 * h) ->
  apart ou (w `div` 2 * h) t (size128 w h) -> apart ov (w `div` 2 * h) t (size128 w h) ->
  exists m', (csc_linear_to_tiled_uv t u v w h ;!
              csc_tiled_to_linear_deinterleave_crop ou ov t w h 0 0 0 0) m = Some (tt, m') /\
    (forall k, 0 <= k < w `div` 2 * h -> m' !! (ou + k) = m !! (u + k) /\ m' !! (ov + k) = m !! (v + k)).
Proof.
  intros Hw Hh Hwe Hu Hv Ht Hou Hov Htu Htv Ho Hut Hvt.
  destruct (linear_to_tiled_interleave_crop_run m t u v w h 0 0 0 0 w h (whole_window w h Hw Hh)) as (m1 & E1 & M1); [done..|].
  destruct (tiled_to_linear_deinterleave_crop_run m1 ou ov t w h 0 0 0 0 w h (whole_crop w h Hw Hh Hwe)) as (m2 & E2 & M2);
    eauto using moved_mapped.
  exists m2. unfold bind, csc_linear_to_tiled_uv. rewrite E1, E2. split; [done|].
  intros k Hk. destruct (rect_pos (w `div` 2) h k) as (x & y & Hx & Hy & ->); [clear -Hw; dlia|done|].
  destruct M1 as [M1 _], M2 as [M2 _].
  assert (Hin : forall b : bool, 0 <= 2 * x + (if b then 1 else 0) < w) by (intros []; clear -Hx Hwe; dlia).
  assert (Hb : forall b : bool, m2 !! ((if b then ov else ou) + (w `div` 2 * y + x)) =
    m !! ((if b then v else u) + (w `div` 2 * y + x))).
  { intros b. transitivity (m1 !! (t + toff w h (0 + (2 * x + if b then 1 else 0)) (0 + y))).
    - exact (M2 (b, (x, y)) (conj Hx Hy)).
    - transitivity (m !! chroma_at u v w 0 0 (2 * x + (if b : bool then 1 else 0), y)).
      + exact (M1 (2 * x + (if b : bool then 1 else 0), y) (conj (Hin b) Hy)).
      + simpl. change (0 `div` 2) with 0. f_equal. destruct b.
        * rewrite (proj2 (Z.eqb_neq _ _)) by (clear; dlia).
          replace ((2 * x + 1) `div` 2) with x by (clear; dlia). lia.
        * rewrite (proj2 (Z.eqb_eq _ _)) by (clear; dlia).
          replace ((2 * x + 0) `div` 2) with x by (clear; dlia). lia. }
  split; [exact (Hb false)|exact (Hb true)].
Qed.

(** A 100x40 plane (or two of 50x40) at 0 and 10000, its tiled form at 100000,
    output at 200000 and 210000. *)
Definition retile_memory : mem :=
  fill (Z.to_nat (size128 100 40)) 100000 (fun _ => 0) (fill 4000 200000 (fun _ => 0) (fill 4000 210000 (fun _ => 0)
    (fill 4000 10000 (fun k => k `mod` 255) (fill 4000 0 (fun k => k `mod` 251) ∅)))).

Lemma retile_memory_mapped :
  mapped retile_memory 0 4000 /\ mapped retile_memory 10000 4000 /\ mapped retile_memory 100000 (size128 100 40) /\
  mapped retile_memory 200000 4000 /\ mapped retile_memory 210000 4000.
Proof.
  unfold retile_memory. split; [|split; [|split; [|split]]].
  - do 4 apply mapped_fill_other. exact (mapped_fill 4000 _ _ _).
  - do 3 apply mapped_fill_other. exact (mapped_fill 4000 _ _ _).
  - exact (mapped_fill (Z.to_nat (size128 100 40)) _ _ _).
  - do 1 apply mapped_fill_other. exact (mapped_fill 4000 _ _ _).
  - do 2 apply mapped_fill_other. exact (mapped_fill 4000 _ _ _).
Qed.

Lemma retile_memory_half a : mapped retile_memory a 4000 -> mapped retile_memory a (100 `div` 2 * 40).
Proof. intros Hm. apply (mapped_sub _ a 4000); [done|lia|]. change (100 `div` 2 * 40) with 2000. lia. Qed.

Ltac retile_mapped :=
  let A := fresh in let B := fresh in let C := fresh in let D := fresh in let E := fresh in
  destruct retile_memory_mapped as (A & B & C & D & E);
  lazymatch goal with
  | |- mapped _ 0 _ => exact A
  | |- mapped _ 10000 _ => exact B
  | |- mapped _ 100000 _ => exact C
  | |- mapped _ 200000 _ => exact D
  | |- mapped _ 210000 _ => exact E
  end.
Ltac retile_apart := unfold apart; change (size128 100 40) with 8192; change (100 `div` 2 * 40) with 2000; lia.

Lemma csc_linear_to_tiled_crop_correct_witness :
  exists m', csc_linear_to_tiled_crop 100000 0 100 40 0 0 0 0 retile_memory = Some (tt, m') /\
    (forall x y, 0 <= x < 100 -> 0 <= y < 40 ->
       m' !! (100000 + toff 100 40 x y) = retile_memory !! (0 + (100 * (0 + y) + (0 + x)))) /\
    (forall a, (forall x y, 0 <= x < 100 -> 0 <= y < 40 -> a <> 100000 + toff 100 40 x y) ->
       m' !! a = retile_memory !! a).
Proof.
  apply (csc_linear_to_tiled_crop_correct retile_memory); [|done|done| | |].
  - apply whole_window; lia.
  - retile_mapped.
  - retile_mapped.
  - retile_apart.
Defined.

Lemma csc_linear_to_tiled_interleave_crop_correct_witness :
  exists m', csc_linear_to_tiled_interleave_crop 100000 0 10000 100 40 0 0 0 0 retile_memory = Some (tt, m') /\
    (forall x y, 0 <= x < 100 `div` 2 -> 0 <= y < 40 ->
       m' !! (100000 + toff 100 40 (2 * x) y) = retile_memory !! (0 + (100 `div` 2 * (0 + y) + (0 `div` 2 + x))) /\
       m' !! (100000 + toff 100 40 (2 * x + 1) y) =
         retile_memory !! (10000 + (100 `div` 2 * (0 + y) + (0 `div` 2 + x)))) /\
    (forall a, (forall x y, 0 <= x < 100 -> 0 <= y < 40 -> a <> 100000 + toff 100 40 x y) ->
       m' !! a = retile_memory !! a).
Proof.
  apply (csc_linear_to_tiled_interleave_crop_correct retile_memory 100000 0 10000 100 40 0 0 0 0); [|done| | | | |].
  - apply whole_window; lia.
  - retile_mapped.
  - apply retile_memory_half; retile_mapped.
  - apply retile_memory_half; retile_mapped.
  - retile_apart.
  - retile_apart.
Defined.

Lemma luma_roundtrip_witness :
  exists m', (csc_linear_to_tiled_y 100000 0 100 40 ;!
              csc_tiled_to_linear_crop 200000 100000 100 40 0 0 0 0) retile_memory = Some (tt, m') /\
    (forall k, 0 <= k < 100 * 40 -> m' !! (200000 + k) = retile_memory !! (0 + k)).
Proof.
  apply (luma_roundtrip retile_memory); [lia|lia|done|done|retile_mapped|retile_mapped|retile_mapped| |]; retile_apart.
Defined.

Lemma chroma_roundtrip_witness :
  exists m', (csc_linear_to_tiled_uv 100000 0 10000 100 40 ;!
              csc_tiled_to_linear_deinterleave_crop 200000 210000 100000 100 40 0 0 0 0) retile_memory = Some (tt, m') /\
    (forall k, 0 <= k < 100 `div` 2 * 40 ->
       m' !! (200000 + k) = retile_memory !! (0 + k) /\ m' !! (210000 + k) = retile_memory !! (10000 + k)).
Proof.
  apply (chroma_roundtrip retile_memory);
    [lia|lia|done| | |retile_mapped| | | | | | |];
    first [apply retile_memory_half; retile_mapped|retile_apart].
Defined.
