(* ===== verification/PixelFormats.v ===== *)
(** * Pixel format numbers

    The colour formats of the HAL ([src/include/exynos_format.h] and the Android
    formats of [system/graphics.h], which is not part of the repository) and of
    V4L2 ([videodev2.h] and [videodev2_exynos_media.h] of the kernel headers). *)

From Stdlib Require Export Ascii.
From S2P Require Import Prelude.

(** ** HAL formats of the repository *)

Definition HAL_PIXEL_FORMAT_EXYNOS_YCbCr_420_P_M : Z := 0x101.
Definition HAL_PIXEL_FORMAT_EXYNOS_CbYCrY_422_I : Z := 0x103.
Definition HAL_PIXEL_FORMAT_EXYNOS_YCbCr_420_SP_M : Z := 0x105.
Definition HAL_PIXEL_FORMAT_EXYNOS_YCrCb_422_SP : Z := 0x106.
Definition HAL_PIXEL_FORMAT_EXYNOS_YCbCr_420_SP_M_TILED : Z := 0x107.
Definition HAL_PIXEL_FORMAT_EXYNOS_ARGB_8888 : Z := 0x108.
Definition HAL_PIXEL_FORMAT_EXYNOS_YCrCb_422_I : Z := 0x116.
Definition HAL_PIXEL_FORMAT_EXYNOS_CrYCbY_422_I : Z := 0x118.
Definition HAL_PIXEL_FORMAT_EXYNOS_YV12_M : Z := 0x11C.
Definition HAL_PIXEL_FORMAT_EXYNOS_YCrCb_420_SP_M : Z := 0x11D.
Definition HAL_PIXEL_FORMAT_EXYNOS_YCrCb_420_SP_M_FULL : Z := 0x11E.
Definition HAL_PIXEL_FORMAT_EXYNOS_YCbCr_420_P : Z := 0x11F.
Definition HAL_PIXEL_FORMAT_EXYNOS_YCbCr_420_SP : Z := 0x120.
Definition HAL_PIXEL_FORMAT_EXYNOS_YCbCr_420_SP_M_PRIV : Z := 0x121.
Definition HAL_PIXEL_FORMAT_EXYNOS_YCbCr_420_PN : Z := 0x122.
Definition HAL_PIXEL_FORMAT_EXYNOS_YCbCr_420_SPN : Z := 0x123.
Definition HAL_PIXEL_FORMAT_EXYNOS_YCbCr_420_SPN_TILED : Z := 0x124.
Definition HAL_PIXEL_FORMAT_EXYNOS_YCbCr_420_SP_M_S10B : Z := 0x125.
Definition HAL_PIXEL_FORMAT_EXYNOS_YCbCr_420_SPN_S10B : Z := 0x126.
Definition HAL_PIXEL_FORMAT_EXYNOS_YCbCr_P010_M : Z := 0x127.
Definition HAL_PIXEL_FORMAT_EXYNOS_YCbCr_422_P : Z := 0x128.
Definition HAL_PIXEL_FORMAT_EXYNOS_420_SPN_SBWC_DECOMP : Z := 0x129.
Definition HAL_PIXEL_FORMAT_EXYNOS_P010_N_SBWC_DECOMP : Z := 0x12A.
Definition HAL_PIXEL_FORMAT_EXYNOS_YCbCr_420_SP_M_SBWC : Z := 0x130.
Definition HAL_PIXEL_FORMAT_EXYNOS_YCbCr_420_SPN_SBWC : Z := 0x131.
Definition HAL_PIXEL_FORMAT_EXYNOS_YCbCr_420_SP_M_10B_SBWC : Z := 0x132.
Definition HAL_PIXEL_FORMAT_EXYNOS_YCbCr_420_SPN_10B_SBWC : Z := 0x133.
Definition HAL_PIXEL_FORMAT_EXYNOS_YCrCb_420_SP_M_SBWC : Z := 0x134.
Definition HAL_PIXEL_FORMAT_EXYNOS_YCrCb_420_SP_M_10B_SBWC : Z := 0x135.
Definition HAL_PIXEL_FORMAT_EXYNOS_YCbCr_420_SPN_256_SBWC : Z := 0x136.
Definition HAL_PIXEL_FORMAT_EXYNOS_YCbCr_420_SPN_10B_256_SBWC : Z := 0x137.
Definition HAL_PIXEL_FORMAT_EXYNOS_YCbCr_420_SP_M_SBWC_L50 : Z := 0x140.
Definition HAL_PIXEL_FORMAT_EXYNOS_YCbCr_420_SP_M_SBWC_L75 : Z := 0x141.
Definition HAL_PIXEL_FORMAT_EXYNOS_YCbCr_420_SPN_SBWC_L50 : Z := 0x150.
Definition HAL_PIXEL_FORMAT_EXYNOS_YCbCr_420_SPN_SBWC_L75 : Z := 0x151.
Definition HAL_PIXEL_FORMAT_EXYNOS_YCbCr_420_SP_M_10B_SBWC_L40 : Z := 0x160.
Definition HAL_PIXEL_FORMAT_EXYNOS_YCbCr_420_SP_M_10B_SBWC_L60 : Z := 0x161.
Definition HAL_PIXEL_FORMAT_EXYNOS_YCbCr_420_SP_M_10B_SBWC_L80 : Z := 0x162.
Definition HAL_PIXEL_FORMAT_EXYNOS_YCbCr_420_SPN_10B_SBWC_L40 : Z := 0x170.
Definition HAL_PIXEL_FORMAT_EXYNOS_YCbCr_420_SPN_10B_SBWC_L60 : Z := 0x171.
Definition HAL_PIXEL_FORMAT_EXYNOS_YCbCr_420_SPN_10B_SBWC_L80 : Z := 0x172.
Definition HAL_PIXEL_FORMAT_EXYNOS_420_SP_M_32_SBWC_L : Z := 0x180.
Definition HAL_PIXEL_FORMAT_EXYNOS_420_SP_M_64_SBWC_L : Z := 0x181.
Definition HAL_PIXEL_FORMAT_EXYNOS_420_SPN_32_SBWC_L : Z := 0x182.
Definition HAL_PIXEL_FORMAT_EXYNOS_420_SPN_64_SBWC_L : Z := 0x183.
Definition HAL_PIXEL_FORMAT_EXYNOS_420_SP_M_10B_32_SBWC_L : Z := 0x184.
Definition HAL_PIXEL_FORMAT_EXYNOS_420_SP_M_10B_64_SBWC_L : Z := 0x185.
Definition HAL_PIXEL_FORMAT_EXYNOS_420_SPN_10B_32_SBWC_L : Z := 0x186.
Definition HAL_PIXEL_FORMAT_EXYNOS_420_SPN_10B_64_SBWC_L : Z := 0x187.

(** The [enum]. *)
Definition exynos_formats : list Z :=
  [HAL_PIXEL_FORMAT_EXYNOS_YCbCr_420_P_M;
   HAL_PIXEL_FORMAT_EXYNOS_CbYCrY_422_I;
   HAL_PIXEL_FORMAT_EXYNOS_YCbCr_420_SP_M;
   HAL_PIXEL_FORMAT_EXYNOS_YCrCb_422_SP;
   HAL_PIXEL_FORMAT_EXYNOS_YCbCr_420_SP_M_TILED;
   HAL_PIXEL_FORMAT_EXYNOS_ARGB_8888;
   HAL_PIXEL_FORMAT_EXYNOS_YCrCb_422_I;
   HAL_PIXEL_FORMAT_EXYNOS_CrYCbY_422_I;
   HAL_PIXEL_FORMAT_EXYNOS_YV12_M;
   HAL_PIXEL_FORMAT_EXYNOS_YCrCb_420_SP_M;
   HAL_PIXEL_FORMAT_EXYNOS_YCrCb_420_SP_M_FULL;
   HAL_PIXEL_FORMAT_EXYNOS_YCbCr_420_P;
   HAL_PIXEL_FORMAT_EXYNOS_YCbCr_420_SP;
   HAL_PIXEL_FORMAT_EXYNOS_YCbCr_420_SP_M_PRIV;
   HAL_PIXEL_FORMAT_EXYNOS_YCbCr_420_PN;
   HAL_PIXEL_FORMAT_EXYNOS_YCbCr_420_SPN;
   HAL_PIXEL_FORMAT_EXYNOS_YCbCr_420_SPN_TILED;
   HAL_PIXEL_FORMAT_EXYNOS_YCbCr_420_SP_M_S10B;
   HAL_PIXEL_FORMAT_EXYNOS_YCbCr_420_SPN_S10B;
   HAL_PIXEL_FORMAT_EXYNOS_YCbCr_P010_M;
   HAL_PIXEL_FORMAT_EXYNOS_YCbCr_422_P;
   HAL_PIXEL_FORMAT_EXYNOS_420_SPN_SBWC_DECOMP;
   HAL_PIXEL_FORMAT_EXYNOS_P010_N_SBWC_DECOMP;
   HAL_PIXEL_FORMAT_EXYNOS_YCbCr_420_SP_M_SBWC;
   HAL_PIXEL_FORMAT_EXYNOS_YCbCr_420_SPN_SBWC;
   HAL_PIXEL_FORMAT_EXYNOS_YCbCr_420_SP_M_10B_SBWC;
   HAL_PIXEL_FORMAT_EXYNOS_YCbCr_420_SPN_10B_SBWC;
   HAL_PIXEL_FORMAT_EXYNOS_YCrCb_420_SP_M_SBWC;
   HAL_PIXEL_FORMAT_EXYNOS_YCrCb_420_SP_M_10B_SBWC;
   HAL_PIXEL_FORMAT_EXYNOS_YCbCr_420_SPN_256_SBWC;
   HAL_PIXEL_FORMAT_EXYNOS_YCbCr_420_SPN_10B_256_SBWC;
   HAL_PIXEL_FORMAT_EXYNOS_YCbCr_420_SP_M_SBWC_L50;
   HAL_PIXEL_FORMAT_EXYNOS_YCbCr_420_SP_M_SBWC_L75;
   HAL_PIXEL_FORMAT_EXYNOS_YCbCr_420_SPN_SBWC_L50;
   HAL_PIXEL_FORMAT_EXYNOS_YCbCr_420_SPN_SBWC_L75;
   HAL_PIXEL_FORMAT_EXYNOS_YCbCr_420_SP_M_10B_SBWC_L40;
   HAL_PIXEL_FORMAT_EXYNOS_YCbCr_420_SP_M_10B_SBWC_L60;
   HAL_PIXEL_FORMAT_EXYNOS_YCbCr_420_SP_M_10B_SBWC_L80;
   HAL_PIXEL_FORMAT_EXYNOS_YCbCr_420_SPN_10B_SBWC_L40;
   HAL_PIXEL_FORMAT_EXYNOS_YCbCr_420_SPN_10B_SBWC_L60;
   HAL_PIXEL_FORMAT_EXYNOS_YCbCr_420_SPN_10B_SBWC_L80;
   HAL_PIXEL_FORMAT_EXYNOS_420_SP_M_32_SBWC_L;
   HAL_PIXEL_FORMAT_EXYNOS_420_SP_M_64_SBWC_L;
   HAL_PIXEL_FORMAT_EXYNOS_420_SPN_32_SBWC_L;
   HAL_PIXEL_FORMAT_EXYNOS_420_SPN_64_SBWC_L;
   HAL_PIXEL_FORMAT_EXYNOS_420_SP_M_10B_32_SBWC_L;
   HAL_PIXEL_FORMAT_EXYNOS_420_SP_M_10B_64_SBWC_L;
   HAL_PIXEL_FORMAT_EXYNOS_420_SPN_10B_32_SBWC_L;
   HAL_PIXEL_FORMAT_EXYNOS_420_SPN_10B_64_SBWC_L].

(** ** HAL formats of Android

    Their numbers are not in the repository; all that the [switch] statements of
    the code rely on is that they are distinct, from each other and from the
    Exynos formats. *)

Class AndroidFormats := {
  HAL_PIXEL_FORMAT_RGBA_8888 : Z;
  HAL_PIXEL_FORMAT_RGBX_8888 : Z;
  HAL_PIXEL_FORMAT_RGB_888 : Z;
  HAL_PIXEL_FORMAT_RGB_565 : Z;
  HAL_PIXEL_FORMAT_BGRA_8888 : Z;
  HAL_PIXEL_FORMAT_YCbCr_422_SP : Z;
  HAL_PIXEL_FORMAT_YCrCb_420_SP : Z;
  HAL_PIXEL_FORMAT_YCbCr_422_I : Z;
  HAL_PIXEL_FORMAT_YV12 : Z;
  HAL_PIXEL_FORMAT_YCBCR_P010 : Z
}.

Definition android_formats `{AndroidFormats} : list Z :=
  [HAL_PIXEL_FORMAT_RGBA_8888; HAL_PIXEL_FORMAT_RGBX_8888; HAL_PIXEL_FORMAT_RGB_888;
   HAL_PIXEL_FORMAT_RGB_565; HAL_PIXEL_FORMAT_BGRA_8888; HAL_PIXEL_FORMAT_YCbCr_422_SP;
   HAL_PIXEL_FORMAT_YCrCb_420_SP; HAL_PIXEL_FORMAT_YCbCr_422_I; HAL_PIXEL_FORMAT_YV12;
   HAL_PIXEL_FORMAT_YCBCR_P010].

Class AndroidFormatsLaws `{AndroidFormats} : Prop :=
  formats_distinct : NoDup (android_formats ++ exynos_formats).

(** The numbers of [system/graphics.h]. *)
Definition aosp_formats : AndroidFormats := {|
  HAL_PIXEL_FORMAT_RGBA_8888 := 1;
  HAL_PIXEL_FORMAT_RGBX_8888 := 2;
  HAL_PIXEL_FORMAT_RGB_888 := 3;
  HAL_PIXEL_FORMAT_RGB_565 := 4;
  HAL_PIXEL_FORMAT_BGRA_8888 := 5;
  HAL_PIXEL_FORMAT_YCbCr_422_SP := 0x10;
  HAL_PIXEL_FORMAT_YCrCb_420_SP := 0x11;
  HAL_PIXEL_FORMAT_YCbCr_422_I := 0x14;
  HAL_PIXEL_FORMAT_YV12 := 0x32315659;
  HAL_PIXEL_FORMAT_YCBCR_P010 := 0x36
|}.

Lemma aosp_formats_laws : @AndroidFormatsLaws aosp_formats.
Proof. unfold AndroidFormatsLaws. apply (bool_decide_unpack _). vm_compute. exact I. Qed.

(** ** Switching on a HAL format

    With the ten numbers of Android unknown, a [switch] on a HAL format is decided
    on the positions of the formats in [all_formats]. *)

Section positions.
Context `{AndroidFormats}.

Definition all_formats : list Z := android_formats ++ exynos_formats.
Definition fmt (i : nat) : Z := nth i all_formats 0.

(** [switch] on positions. *)
Definition pswitch {A} (i : nat) (cases : list (list nat * A)) (default : A) : A :=
  match List.find (fun c => existsb (Nat.eqb i) (fst c)) cases with
  | Some c => snd c
  | None => default
  end.

Definition in_range {A} (cases : list (list nat * A)) : bool :=
  forallb (fun c => forallb (fun j => j <? length all_formats)%nat (fst c)) cases.

Definition as_fmt {A} (cases : list (list nat * A)) : list (list Z * A) :=
  map (fun c => (map fmt (fst c), snd c)) cases.

Lemma fmt_eqb `{!AndroidFormatsLaws} i j :
  (i < length all_formats)%nat -> (j < length all_formats)%nat -> (fmt i =? fmt j) = (i =? j)%nat.
Proof.
  intros Hi Hj. destruct (Nat.eqb_spec i j) as [->|Hn]; [apply Z.eqb_refl|].
  apply Z.eqb_neq. intros He. apply Hn.
  assert (L : forall k, (k < length all_formats)%nat -> all_formats !! k = Some (fmt k)).
  { intros k Hk. unfold fmt. rewrite nth_lookup. by destruct (lookup_lt_is_Some_2 all_formats k Hk) as [x ->]. }
  apply (NoDup_lookup all_formats i j (fmt i)); [exact formats_distinct|auto|].
  rewrite He. auto.
Qed.

Lemma switch_fmt `{!AndroidFormatsLaws} {A} i (cases : list (list nat * A)) d :
  (i < length all_formats)%nat -> in_range cases = true ->
  switch (fmt i) (as_fmt cases) d = pswitch i cases d.
Proof.
  intros Hi. unfold switch, pswitch, as_fmt, in_range.
  induction cases as [|[ls a] cs IH]; intros Hr; [done|]. simpl in Hr |- *.
  apply andb_prop in Hr as [H1 H2].
  assert (E : existsb (Z.eqb (fmt i)) (map fmt ls) = existsb (Nat.eqb i) ls).
  { clear IH H2. induction ls as [|j ls IH]; [done|]. simpl in H1 |- *.
    apply andb_prop in H1 as [Hj Hl]. apply Nat.ltb_lt in Hj. by rewrite fmt_eqb, IH. }
  rewrite E. destruct (existsb (Nat.eqb i) ls); [done|]. by apply IH.
Qed.

Lemma labels_as_fmt {A} (cases : list (list nat * A)) x :
  in_range cases = true -> x ∈ labels (as_fmt cases) -> x ∈ all_formats.
Proof.
  unfold labels, as_fmt, in_range. induction cases as [|[ls a] cs IH]; simpl; intros Hr Hx.
  { by apply elem_of_nil in Hx. }
  apply andb_prop in Hr as [H1 H2]. apply elem_of_app in Hx as [Hx|Hx]; [|by apply IH].
  clear IH H2. induction ls as [|j ls IH]; simpl in *; [by apply elem_of_nil in Hx|].
  apply andb_prop in H1 as [Hj Hl]. apply Nat.ltb_lt in Hj.
  apply elem_of_cons in Hx as [->|Hx]; [|by apply IH].
  unfold fmt. apply list_elem_of_In, nth_In, Hj.
Qed.

(** A number is one of the formats, or a label of no switch on formats. *)
Lemma hal_cases `{!AndroidFormatsLaws} h :
  (exists i, (i < length all_formats)%nat /\ h = fmt i) \/
  (forall A (cases : list (list nat * A)) d, in_range cases = true -> switch h (as_fmt cases) d = d).
Proof.
  destruct (decide (h ∈ all_formats)) as [Hh|Hh]; [left|right].
  - apply list_elem_of_In in Hh. destruct (In_nth _ _ 0 Hh) as (i & Hi & E). by exists i.
  - intros A cases d Hr. apply switch_default. intros Hl. by apply Hh, (labels_as_fmt cases).
Qed.

(** The labels of a switch are distinct when their positions are. *)
Lemma labels_NoDup `{!AndroidFormatsLaws} {A} (cases : list (list nat * A)) :
  in_range cases = true -> bool_decide (NoDup (concat (map fst cases))) = true ->
  NoDup (labels (as_fmt cases)).
Proof.
  intros Hr Hn. apply bool_decide_eq_true in Hn.
  replace (labels (as_fmt cases)) with (fmt <$> concat (map fst cases)).
  2: { unfold labels, as_fmt. rewrite map_map. simpl. induction cases as [|[ls a] cs IH]; [done|].
       simpl in *. rewrite fmap_app. f_equal. apply IH.
       - by apply andb_prop in Hr as [_ ?].
       - by apply NoDup_app in Hn as (_ & _ & ?). }
  assert (Hb : forall i, i ∈ concat (map fst cases) -> (i < length all_formats)%nat).
  { clear Hn. unfold in_range in Hr. induction cases as [|[ls a] cs IH]; simpl in *; intros i Hi.
    { by apply elem_of_nil in Hi. }
    apply andb_prop in Hr as [H1 H2]. apply elem_of_app in Hi as [Hi|Hi]; [|by apply IH].
    rewrite forallb_forall in H1. by apply Nat.ltb_lt, H1, list_elem_of_In. }
  induction (concat (map fst cases)) as [|i l IH]; [constructor|].
  apply NoDup_cons in Hn as [Hi Hn]. simpl. constructor.
  - intros Hin. apply list_elem_of_fmap in Hin as (j & E & Hj).
    assert (i = j) as ->; [|done]. apply Nat.eqb_eq. rewrite <- fmt_eqb.
    + by apply Z.eqb_eq.
    + apply Hb. by left.
    + apply Hb. by right.
  - apply IH; [done|]. intros j Hj. apply Hb. by right.
Qed.

End positions.

(** The positions of the labels of a switch on HAL formats. *)
Ltac fmt_pos x l :=
  match l with
  | @cons _ x _ => constr:(O)
  | @cons _ _ ?r => let n := fmt_pos x r in constr:(S n)
  end.
Ltac fmt_poss ls l :=
  match ls with
  | @nil _ => constr:(@nil nat)
  | @cons _ ?x ?r => let n := fmt_pos x l in let ns := fmt_poss r l in constr:(n :: ns)
  end.
Ltac fmt_cases cs l :=
  match cs with
  | @nil (prod _ ?A) => constr:(@nil (list nat * A))
  | @cons _ (?ls, ?a) ?r =>
      let ns := fmt_poss ls l in let r' := fmt_cases r l in constr:((ns, a) :: r')
  end.
(** Rewrites a switch on HAL formats of the goal to one on positions. *)
Ltac to_positions :=
  match goal with
  | |- context [switch ?x ?cs ?d] =>
      let l := eval cbv [all_formats android_formats exynos_formats app] in all_formats in
      let c := fmt_cases cs l in change (switch x cs d) with (switch x (as_fmt c) d)
  end.

Ltac labels_distinct :=
  match goal with
  | |- NoDup (labels ?cs) =>
      let l := eval cbv [all_formats android_formats exynos_formats app] in all_formats in
      let c := fmt_cases cs l in
      change cs with (as_fmt c); apply (labels_NoDup c); vm_compute; reflexivity
  end.
Ltac find_case := first [apply list_elem_of_here | apply list_elem_of_further; find_case].
(** The value of a switch on a format of the label list [ls]. *)
Ltac by_switch ls Hx :=
  match goal with
  | |- switch ?x ?cs ?d = ?a => apply (switch_case x ls a cs d); [labels_distinct | find_case | exact Hx]
  end.

(** Evaluates a switch of the goal on a given format. *)
Ltac at_position :=
  to_positions;
  match goal with
  | |- context [switch ?x (as_fmt ?c) ?d] =>
      let l := eval cbv [all_formats android_formats exynos_formats app] in all_formats in
      let n := fmt_pos x l in
      change (switch x (as_fmt c) d) with (switch (fmt n) (as_fmt c) d);
      rewrite (switch_fmt n c d) by (first [apply Nat.ltb_lt; vm_compute; reflexivity | vm_compute; reflexivity])
  end.

(** Rewrites every switch of the goal on the format [fmt i] to positions. *)
Ltac positions Hi :=
  repeat (to_positions; rewrite switch_fmt by (first [exact Hi | vm_compute; reflexivity])).

(** ** V4L2 formats *)

(** [v4l2_fourcc(a, b, c, d)], on [__u32]. *)
Definition v4l2_fourcc (a b c d : ascii) : Z :=
  let n x := Z.of_N (N_of_ascii x) in
  Z.lor (Z.lor (Z.lor (n a) (n b ^<< 8)) (n c ^<< 16)) (n d ^<< 24).

Definition V4L2_PIX_FMT_YVU420M : Z := v4l2_fourcc "Y" "M" "2" "1".
Definition V4L2_PIX_FMT_RGB32 : Z := v4l2_fourcc "R" "G" "B" "4".
Definition V4L2_PIX_FMT_RGB24 : Z := v4l2_fourcc "R" "G" "B" "3".
Definition V4L2_PIX_FMT_RGB565 : Z := v4l2_fourcc "R" "G" "B" "P".
Definition V4L2_PIX_FMT_BGR32 : Z := v4l2_fourcc "B" "G" "R" "4".
Definition V4L2_PIX_FMT_YUV420M : Z := v4l2_fourcc "Y" "M" "1" "2".
Definition V4L2_PIX_FMT_YVU420 : Z := v4l2_fourcc "Y" "V" "1" "2".
Definition V4L2_PIX_FMT_YUV420 : Z := v4l2_fourcc "Y" "U" "1" "2".
Definition V4L2_PIX_FMT_YUV420N : Z := v4l2_fourcc "Y" "N" "1" "2".
Definition V4L2_PIX_FMT_NV16 : Z := v4l2_fourcc "N" "V" "1" "6".
Definition V4L2_PIX_FMT_NV12 : Z := v4l2_fourcc "N" "V" "1" "2".
Definition V4L2_PIX_FMT_NV12N : Z := v4l2_fourcc "N" "N" "1" "2".
Definition V4L2_PIX_FMT_NV12M : Z := v4l2_fourcc "N" "M" "1" "2".
Definition V4L2_PIX_FMT_NV12N_10B : Z := v4l2_fourcc "B" "N" "1" "2".
Definition V4L2_PIX_FMT_YUYV : Z := v4l2_fourcc "Y" "U" "Y" "V".
Definition V4L2_PIX_FMT_UYVY : Z := v4l2_fourcc "U" "Y" "V" "Y".
Definition V4L2_PIX_FMT_NV61 : Z := v4l2_fourcc "N" "V" "6" "1".
Definition V4L2_PIX_FMT_NV21M : Z := v4l2_fourcc "N" "M" "2" "1".
Definition V4L2_PIX_FMT_NV21 : Z := v4l2_fourcc "N" "V" "2" "1".
Definition V4L2_PIX_FMT_NV12MT : Z := v4l2_fourcc "T" "M" "1" "2".
Definition V4L2_PIX_FMT_NV12MT_16X16 : Z := v4l2_fourcc "V" "M" "1" "2".
Definition V4L2_PIX_FMT_NV12NT : Z := v4l2_fourcc "T" "N" "1" "2".
Definition V4L2_PIX_FMT_YVYU : Z := v4l2_fourcc "Y" "V" "Y" "U".
Definition V4L2_PIX_FMT_VYUY : Z := v4l2_fourcc "V" "Y" "U" "Y".
Definition V4L2_PIX_FMT_NV12M_P010 : Z := v4l2_fourcc "P" "M" "1" "2".
Definition V4L2_PIX_FMT_YUV422P : Z := v4l2_fourcc "4" "2" "2" "P".
Definition V4L2_PIX_FMT_NV21M_SBWC_8B : Z := v4l2_fourcc "M" "2" "S" "8".
Definition V4L2_PIX_FMT_NV21M_SBWC_10B : Z := v4l2_fourcc "M" "2" "S" "1".
Definition V4L2_PIX_FMT_NV12M_SBWC_8B : Z := v4l2_fourcc "M" "1" "S" "8".
Definition V4L2_PIX_FMT_NV12M_SBWC_10B : Z := v4l2_fourcc "M" "1" "S" "1".
Definition V4L2_PIX_FMT_NV12M_SBWCL_8B : Z := v4l2_fourcc "M" "1" "L" "8".
Definition V4L2_PIX_FMT_NV12M_SBWCL_10B : Z := v4l2_fourcc "M" "1" "L" "1".
