(* ===== verification/Formats.v ===== *)
(** * HAL and V4L2 pixel formats

    [src/libexynosutils/exynos_format_v4l2.c]: the two translations between HAL
    and V4L2 format numbers, the number of memory planes, the size of a frame and
    the bits per pixel of a format.  Built without [USES_FIMC]. *)

From S2P Require Import Prelude PixelFormats.

(** ** Translations *)

Section translation.
Context `{AndroidFormats}.

Definition HAL_PIXEL_FORMAT_2_V4L2_PIX (hal_pixel_format : Z) : Z :=
  switch hal_pixel_format
  [([HAL_PIXEL_FORMAT_RGBA_8888; HAL_PIXEL_FORMAT_RGBX_8888], V4L2_PIX_FMT_RGB32);
   ([HAL_PIXEL_FORMAT_RGB_888], V4L2_PIX_FMT_RGB24);
   ([HAL_PIXEL_FORMAT_RGB_565], V4L2_PIX_FMT_RGB565);
   ([HAL_PIXEL_FORMAT_BGRA_8888], V4L2_PIX_FMT_BGR32);
   ([HAL_PIXEL_FORMAT_EXYNOS_YV12_M], V4L2_PIX_FMT_YVU420M);
   ([HAL_PIXEL_FORMAT_EXYNOS_YCbCr_420_P_M], V4L2_PIX_FMT_YUV420M);
   ([HAL_PIXEL_FORMAT_YV12], V4L2_PIX_FMT_YVU420);
   ([HAL_PIXEL_FORMAT_EXYNOS_YCbCr_420_P], V4L2_PIX_FMT_YUV420);
   ([HAL_PIXEL_FORMAT_EXYNOS_YCbCr_420_PN], V4L2_PIX_FMT_YUV420N);
   ([HAL_PIXEL_FORMAT_YCbCr_422_SP], V4L2_PIX_FMT_NV16);
   ([HAL_PIXEL_FORMAT_EXYNOS_YCbCr_420_SP], V4L2_PIX_FMT_NV12);
   ([HAL_PIXEL_FORMAT_EXYNOS_YCbCr_420_SPN], V4L2_PIX_FMT_NV12N);
   ([HAL_PIXEL_FORMAT_EXYNOS_YCbCr_420_SP_M; HAL_PIXEL_FORMAT_EXYNOS_YCbCr_420_SP_M_PRIV; HAL_PIXEL_FORMAT_EXYNOS_YCbCr_420_SP_M_S10B], V4L2_PIX_FMT_NV12M);
   ([HAL_PIXEL_FORMAT_EXYNOS_YCbCr_420_SPN_S10B], V4L2_PIX_FMT_NV12N_10B);
   ([HAL_PIXEL_FORMAT_YCbCr_422_I], V4L2_PIX_FMT_YUYV);
   ([HAL_PIXEL_FORMAT_EXYNOS_CbYCrY_422_I], V4L2_PIX_FMT_UYVY);
   ([HAL_PIXEL_FORMAT_EXYNOS_YCrCb_422_SP], V4L2_PIX_FMT_NV61);
   ([HAL_PIXEL_FORMAT_EXYNOS_YCrCb_420_SP_M; HAL_PIXEL_FORMAT_EXYNOS_YCrCb_420_SP_M_FULL], V4L2_PIX_FMT_NV21M);
   ([HAL_PIXEL_FORMAT_YCrCb_420_SP], V4L2_PIX_FMT_NV21);
   ([HAL_PIXEL_FORMAT_EXYNOS_YCbCr_420_SP_M_TILED], V4L2_PIX_FMT_NV12MT_16X16);
   ([HAL_PIXEL_FORMAT_EXYNOS_YCbCr_420_SPN_TILED], V4L2_PIX_FMT_NV12NT);
   ([HAL_PIXEL_FORMAT_EXYNOS_YCrCb_422_I], V4L2_PIX_FMT_YVYU);
   ([HAL_PIXEL_FORMAT_EXYNOS_CrYCbY_422_I], V4L2_PIX_FMT_VYUY);
   ([HAL_PIXEL_FORMAT_EXYNOS_YCbCr_P010_M], V4L2_PIX_FMT_NV12M_P010);
   ([HAL_PIXEL_FORMAT_EXYNOS_YCbCr_422_P], V4L2_PIX_FMT_YUV422P);
   ([HAL_PIXEL_FORMAT_EXYNOS_YCrCb_420_SP_M_SBWC], V4L2_PIX_FMT_NV21M_SBWC_8B);
   ([HAL_PIXEL_FORMAT_EXYNOS_YCrCb_420_SP_M_10B_SBWC], V4L2_PIX_FMT_NV21M_SBWC_10B);
   ([HAL_PIXEL_FORMAT_EXYNOS_YCbCr_420_SP_M_SBWC], V4L2_PIX_FMT_NV12M_SBWC_8B);
   ([HAL_PIXEL_FORMAT_EXYNOS_YCbCr_420_SP_M_10B_SBWC], V4L2_PIX_FMT_NV12M_SBWC_10B);
   ([HAL_PIXEL_FORMAT_EXYNOS_YCbCr_420_SP_M_SBWC_L50], V4L2_PIX_FMT_NV12M_SBWCL_8B);
   ([HAL_PIXEL_FORMAT_EXYNOS_YCbCr_420_SP_M_10B_SBWC_L40], V4L2_PIX_FMT_NV12M_SBWCL_10B)]
  (-1).

(** The cases of [V4L2_PIX_2_HAL_PIXEL_FORMAT]. *)
Definition v4l2_hal_table : list (list Z * Z) :=
  [([V4L2_PIX_FMT_RGB32], HAL_PIXEL_FORMAT_RGBA_8888);
   ([V4L2_PIX_FMT_RGB24], HAL_PIXEL_FORMAT_RGB_888);
   ([V4L2_PIX_FMT_RGB565], HAL_PIXEL_FORMAT_RGB_565);
   ([V4L2_PIX_FMT_BGR32], HAL_PIXEL_FORMAT_BGRA_8888);
   ([V4L2_PIX_FMT_YUV420], HAL_PIXEL_FORMAT_EXYNOS_YCbCr_420_P);
   ([V4L2_PIX_FMT_YUV420N], HAL_PIXEL_FORMAT_EXYNOS_YCbCr_420_PN);
   ([V4L2_PIX_FMT_YUV420M], HAL_PIXEL_FORMAT_EXYNOS_YCbCr_420_P_M);
   ([V4L2_PIX_FMT_YVU420], HAL_PIXEL_FORMAT_YV12);
   ([V4L2_PIX_FMT_YVU420M], HAL_PIXEL_FORMAT_EXYNOS_YV12_M);
   ([V4L2_PIX_FMT_NV16], HAL_PIXEL_FORMAT_YCbCr_422_SP);
   ([V4L2_PIX_FMT_NV12], HAL_PIXEL_FORMAT_EXYNOS_YCbCr_420_SP);
   ([V4L2_PIX_FMT_NV12N], HAL_PIXEL_FORMAT_EXYNOS_YCbCr_420_SPN);
   ([V4L2_PIX_FMT_NV12M], HAL_PIXEL_FORMAT_EXYNOS_YCbCr_420_SP_M);
   ([V4L2_PIX_FMT_NV21M], HAL_PIXEL_FORMAT_EXYNOS_YCrCb_420_SP_M);
   ([V4L2_PIX_FMT_YUYV], HAL_PIXEL_FORMAT_YCbCr_422_I);
   ([V4L2_PIX_FMT_UYVY], HAL_PIXEL_FORMAT_EXYNOS_CbYCrY_422_I);
   ([V4L2_PIX_FMT_NV21], HAL_PIXEL_FORMAT_YCrCb_420_SP);
   ([V4L2_PIX_FMT_NV12MT; V4L2_PIX_FMT_NV12MT_16X16], HAL_PIXEL_FORMAT_EXYNOS_YCbCr_420_SP_M_TILED);
   ([V4L2_PIX_FMT_NV12NT], HAL_PIXEL_FORMAT_EXYNOS_YCbCr_420_SPN_TILED);
   ([V4L2_PIX_FMT_NV61], HAL_PIXEL_FORMAT_EXYNOS_YCrCb_422_SP);
   ([V4L2_PIX_FMT_YVYU], HAL_PIXEL_FORMAT_EXYNOS_YCrCb_422_I);
   ([V4L2_PIX_FMT_VYUY], HAL_PIXEL_FORMAT_EXYNOS_CrYCbY_422_I);
   ([V4L2_PIX_FMT_NV12N_10B], HAL_PIXEL_FORMAT_EXYNOS_YCbCr_420_SPN_S10B);
   ([V4L2_PIX_FMT_NV12M_P010], HAL_PIXEL_FORMAT_EXYNOS_YCbCr_P010_M);
   ([V4L2_PIX_FMT_YUV422P], HAL_PIXEL_FORMAT_EXYNOS_YCbCr_422_P);
   ([V4L2_PIX_FMT_NV21M_SBWC_8B], HAL_PIXEL_FORMAT_EXYNOS_YCrCb_420_SP_M_SBWC);
   ([V4L2_PIX_FMT_NV21M_SBWC_10B], HAL_PIXEL_FORMAT_EXYNOS_YCrCb_420_SP_M_10B_SBWC);
   ([V4L2_PIX_FMT_NV12M_SBWC_8B], HAL_PIXEL_FORMAT_EXYNOS_YCbCr_420_SP_M_SBWC);
   ([V4L2_PIX_FMT_NV12M_SBWC_10B], HAL_PIXEL_FORMAT_EXYNOS_YCbCr_420_SP_M_10B_SBWC);
   ([V4L2_PIX_FMT_NV12M_SBWCL_8B], HAL_PIXEL_FORMAT_EXYNOS_YCbCr_420_SP_M_SBWC_L50);
   ([V4L2_PIX_FMT_NV12M_SBWCL_10B], HAL_PIXEL_FORMAT_EXYNOS_YCbCr_420_SP_M_10B_SBWC_L40)].

Definition V4L2_PIX_2_HAL_PIXEL_FORMAT (v4l2_pixel_format : Z) : Z :=
  switch v4l2_pixel_format v4l2_hal_table (-1).

Definition NUM_PLANES (hal_pixel_format : Z) : Z :=
  switch hal_pixel_format
    [([HAL_PIXEL_FORMAT_EXYNOS_YV12_M; HAL_PIXEL_FORMAT_EXYNOS_YCbCr_420_P_M], 3);
     ([HAL_PIXEL_FORMAT_EXYNOS_YCbCr_420_SP_M; HAL_PIXEL_FORMAT_EXYNOS_YCbCr_420_SP_M_PRIV;
       HAL_PIXEL_FORMAT_EXYNOS_YCbCr_420_SP_M_S10B; HAL_PIXEL_FORMAT_EXYNOS_YCbCr_420_SPN_S10B;
       HAL_PIXEL_FORMAT_EXYNOS_YCbCr_P010_M; HAL_PIXEL_FORMAT_EXYNOS_YCrCb_420_SP_M;
       HAL_PIXEL_FORMAT_EXYNOS_YCrCb_420_SP_M_FULL; HAL_PIXEL_FORMAT_EXYNOS_YCbCr_420_SP_M_TILED], 2);
     ([HAL_PIXEL_FORMAT_YV12; HAL_PIXEL_FORMAT_YCrCb_420_SP; HAL_PIXEL_FORMAT_YCbCr_422_I;
       HAL_PIXEL_FORMAT_YCbCr_422_SP; HAL_PIXEL_FORMAT_EXYNOS_YCbCr_420_SP;
       HAL_PIXEL_FORMAT_EXYNOS_YCbCr_420_P; HAL_PIXEL_FORMAT_EXYNOS_YCrCb_422_I;
       HAL_PIXEL_FORMAT_EXYNOS_CbYCrY_422_I; HAL_PIXEL_FORMAT_EXYNOS_CrYCbY_422_I;
       HAL_PIXEL_FORMAT_EXYNOS_YCrCb_422_SP; HAL_PIXEL_FORMAT_EXYNOS_YCbCr_422_P;
       HAL_PIXEL_FORMAT_EXYNOS_YCbCr_420_SPN_TILED; HAL_PIXEL_FORMAT_EXYNOS_YCbCr_420_SPN;
       HAL_PIXEL_FORMAT_EXYNOS_YCbCr_420_PN], 1)]
    1.

End translation.

(** [V4L2_PIX_2_YUV_INFO]: the result and the values of [*bpp] and [*planes]
    when it returns, which are those of the call when the format is unknown. *)
Definition V4L2_PIX_2_YUV_INFO (v4l2_pixel_format bpp planes : Z) : Z * Z * Z :=
  switch v4l2_pixel_format
    [([V4L2_PIX_FMT_NV12; V4L2_PIX_FMT_NV21; V4L2_PIX_FMT_NV12N; V4L2_PIX_FMT_NV12NT;
       V4L2_PIX_FMT_YUV420; V4L2_PIX_FMT_YVU420; V4L2_PIX_FMT_YUV420N], (0, 12, 1));
     ([V4L2_PIX_FMT_NV12M; V4L2_PIX_FMT_NV21M; V4L2_PIX_FMT_NV12MT; V4L2_PIX_FMT_NV12MT_16X16;
       V4L2_PIX_FMT_NV12M_SBWC_8B], (0, 12, 2));
     ([V4L2_PIX_FMT_YUV420M; V4L2_PIX_FMT_YVU420M], (0, 12, 3));
     ([V4L2_PIX_FMT_YUYV; V4L2_PIX_FMT_YVYU; V4L2_PIX_FMT_UYVY; V4L2_PIX_FMT_VYUY;
       V4L2_PIX_FMT_NV16; V4L2_PIX_FMT_NV61], (0, 16, 1))]
    (-1, bpp, planes).

(** [bpp0] and [planes0] are the values of the uninitialised locals. *)
Definition get_yuv_bpp (bpp0 planes0 : Z) (v4l2_pixel_format : Z) : Z :=
  let '(r, bpp, planes) := V4L2_PIX_2_YUV_INFO v4l2_pixel_format bpp0 planes0 in
  let bpp := if r <? 0 then u32 (-1) else bpp in
  s32 bpp.

Definition get_yuv_planes (bpp0 planes0 : Z) (v4l2_pixel_format : Z) : Z :=
  let '(r, bpp, planes) := V4L2_PIX_2_YUV_INFO v4l2_pixel_format bpp0 planes0 in
  let planes := if r <? 0 then u32 (-1) else planes in
  s32 planes.

(** ** [int] expressions

    An operand is [None] when its evaluation overflows, which C leaves
    undefined. *)

Definition int_ok (z : Z) : bool := (- 2 ^ 31 <=? z) && (z <? 2 ^ 31).
Definition int_op (f : Z -> Z -> Z) (a b : option Z) : option Z :=
  match a, b with
  | Some x, Some y => if int_ok (f x y) then Some (f x y) else None
  | _, _ => None
  end.

Declare Scope int_scope.
Delimit Scope int_scope with int.
Notation "a +i b" := (int_op Z.add a b) (at level 50, left associativity) : int_scope.
Notation "a -i b" := (int_op Z.sub a b) (at level 50, left associativity) : int_scope.
Notation "a *i b" := (int_op Z.mul a b) (at level 40, left associativity) : int_scope.
Notation "a /i b" := (int_op Z.quot a b) (at level 40, left associativity) : int_scope.
Notation "a <<i b" := (int_op Z.shiftl a b) (at level 35) : int_scope.
Notation "a &i b" := (int_op Z.land a b) (at level 52, left associativity) : int_scope.
Notation "'#' z" := (Some z) (at level 1) : int_scope.
Open Scope int_scope.

Definition ALIGN_UP (x a : option Z) : option Z :=
  (x +i a -i #1) &i option_map Z.lnot (a -i #1).
Definition GET_32BPP_FRAME_SIZE (w h : option Z) : option Z := (w *i h) <<i #2.
Definition GET_24BPP_FRAME_SIZE (w h : option Z) : option Z := (w *i h) *i #3.
Definition GET_16BPP_FRAME_SIZE (w h : option Z) : option Z := (w *i h) <<i #1.

(** [FRAME_SIZE]; [ALIGN] is [ALIGN_UP].  The value of an [int] expression is
    converted to [unsigned int] when it is assigned to [size] or [frame_size] and
    when it is added to [size]. *)
Definition FRAME_SIZE `{AndroidFormats} (hal_pixel_format width height : Z) : option Z :=
  let w := #width in
  let h := #height in
  switch hal_pixel_format
    [([HAL_PIXEL_FORMAT_RGB_565], option_map u32 (GET_16BPP_FRAME_SIZE w h));
     ([HAL_PIXEL_FORMAT_RGB_888], option_map u32 (GET_24BPP_FRAME_SIZE w h));
     ([HAL_PIXEL_FORMAT_RGBA_8888; HAL_PIXEL_FORMAT_BGRA_8888; HAL_PIXEL_FORMAT_RGBX_8888],
      option_map u32 (GET_32BPP_FRAME_SIZE w h));
     ([HAL_PIXEL_FORMAT_EXYNOS_YCbCr_420_P; HAL_PIXEL_FORMAT_YV12],
      match option_map u32 (ALIGN_UP w #16 *i h), ALIGN_UP (w /i #2) #16 *i h with
      | Some size, Some c => Some (size ^+ u32 c)
      | _, _ => None
      end);
     ([HAL_PIXEL_FORMAT_YCrCb_420_SP; HAL_PIXEL_FORMAT_EXYNOS_YCbCr_420_SP],
      option_map u32 (w *i h *i #3 /i #2));
     ([HAL_PIXEL_FORMAT_EXYNOS_YCbCr_420_SPN; HAL_PIXEL_FORMAT_EXYNOS_YCbCr_420_SPN_TILED],
      option_map u32
        ((ALIGN_UP w #16 *i ALIGN_UP h #16 +i #256) +i
         ALIGN_UP (ALIGN_UP w #16 *i (ALIGN_UP h #16 /i #2) +i #256) #16));
     ([HAL_PIXEL_FORMAT_EXYNOS_YCbCr_420_PN],
      option_map u32
        ((ALIGN_UP w #16 *i ALIGN_UP h #16 +i #256) +i
         #2 *i ALIGN_UP (ALIGN_UP (w /i #2) #16 *i (ALIGN_UP h #16 /i #2) +i #256) #16));
     ([HAL_PIXEL_FORMAT_YCbCr_422_SP; HAL_PIXEL_FORMAT_YCbCr_422_I;
       HAL_PIXEL_FORMAT_EXYNOS_CbYCrY_422_I; HAL_PIXEL_FORMAT_EXYNOS_YCrCb_422_SP;
       HAL_PIXEL_FORMAT_EXYNOS_YCrCb_422_I; HAL_PIXEL_FORMAT_EXYNOS_CrYCbY_422_I],
      option_map u32 (GET_16BPP_FRAME_SIZE w h))]
    (Some 0).

(** ** Reduction of the switches *)

(** Case analysis on the 59 formats, with the switches on positions. *)
Ltac each_format i Hi tac :=
  change (length all_formats) with 59%nat in Hi;
  do 59 (destruct i as [|i]; [tac|]); exfalso; clear -Hi; lia.

Section laws.
Context `{AndroidFormatsLaws}.

(** The format with which the two translations agree. *)
Definition canonical (h : Z) : Z :=
  switch h
    [([HAL_PIXEL_FORMAT_RGBX_8888], HAL_PIXEL_FORMAT_RGBA_8888);
     ([HAL_PIXEL_FORMAT_EXYNOS_YCbCr_420_SP_M_PRIV; HAL_PIXEL_FORMAT_EXYNOS_YCbCr_420_SP_M_S10B],
      HAL_PIXEL_FORMAT_EXYNOS_YCbCr_420_SP_M);
     ([HAL_PIXEL_FORMAT_EXYNOS_YCrCb_420_SP_M_FULL], HAL_PIXEL_FORMAT_EXYNOS_YCrCb_420_SP_M)]
    h.

(** Every HAL format that has a V4L2 format is translated back to itself,
    except RGBX, the private and the 10-bit variant of NV12M and the full-range
    variant of NV21M, which come back as the plain format they share a V4L2 format
    with. *)
Theorem hal_v4l2_canonical h :
  HAL_PIXEL_FORMAT_2_V4L2_PIX h <> -1 ->
  V4L2_PIX_2_HAL_PIXEL_FORMAT (HAL_PIXEL_FORMAT_2_V4L2_PIX h) = canonical h.
Proof.
  unfold canonical, HAL_PIXEL_FORMAT_2_V4L2_PIX. destruct (hal_cases h) as [(i & Hi & ->)|D].
  2: { to_positions. by rewrite D. }
  positions Hi. each_format i Hi ltac:(vm_compute; first [reflexivity | intros E; by destruct E]).
Qed.

(** Every V4L2 format that has a HAL format is translated back to itself,
    except the 64x32-tiled NV12MT, which shares its HAL format with the 16x16-tiled
    one and comes back as that. *)
Theorem v4l2_hal_roundtrip v :
  V4L2_PIX_2_HAL_PIXEL_FORMAT v <> -1 ->
  HAL_PIXEL_FORMAT_2_V4L2_PIX (V4L2_PIX_2_HAL_PIXEL_FORMAT v) =
    if v =? V4L2_PIX_FMT_NV12MT then V4L2_PIX_FMT_NV12MT_16X16 else v.
Proof.
  intros Hv. destruct (switch_cases v v4l2_hal_table (-1)) as [(ls & a & Hin & Hx & E)|E]; [|done].
  change (switch v _ _) with (V4L2_PIX_2_HAL_PIXEL_FORMAT v) in E. rewrite E.
  unfold v4l2_hal_table in Hin. clear Hv E.
  repeat (apply elem_of_cons in Hin as [[= -> ->]|Hin]); [..|by apply elem_of_nil in Hin];
    repeat (apply elem_of_cons in Hx as [->|Hx]); try (by apply elem_of_nil in Hx);
    unfold HAL_PIXEL_FORMAT_2_V4L2_PIX; at_position; vm_compute; reflexivity.
Qed.

(** [NUM_PLANES] of a HAL format is the number of planes of its V4L2 format
    wherever [get_yuv_planes] knows that format, except for the 8-bit SBWC format,
    whose two planes [NUM_PLANES] counts as one. *)
Theorem num_planes_agrees bpp0 planes0 h :
  get_yuv_planes bpp0 planes0 (HAL_PIXEL_FORMAT_2_V4L2_PIX h) <> -1 ->
  get_yuv_planes bpp0 planes0 (HAL_PIXEL_FORMAT_2_V4L2_PIX h) =
    if h =? HAL_PIXEL_FORMAT_EXYNOS_YCbCr_420_SP_M_SBWC then NUM_PLANES h + 1 else NUM_PLANES h.
Proof.
  destruct (hal_cases h) as [(i & Hi & ->)|D].
  - change HAL_PIXEL_FORMAT_EXYNOS_YCbCr_420_SP_M_SBWC with (fmt 33).
    rewrite fmt_eqb by (first [exact Hi | apply Nat.ltb_lt; vm_compute; reflexivity]).
    unfold HAL_PIXEL_FORMAT_2_V4L2_PIX, NUM_PLANES. positions Hi.
    each_format i Hi ltac:(vm_compute; first [reflexivity | intros N; by destruct N]).
  - unfold HAL_PIXEL_FORMAT_2_V4L2_PIX. to_positions. rewrite D by done. intros N. by destruct N.
Qed.

End laws.

(** [get_yuv_bpp] and [get_yuv_planes] do not depend on what their
    uninitialised locals hold; they fail with -1 on the same formats, and answer 12
    or 16 bits and one to three planes on the others. *)
Theorem yuv_info_total v bpp0 planes0 bpp1 planes1 :
  get_yuv_bpp bpp0 planes0 v = get_yuv_bpp bpp1 planes1 v /\
  get_yuv_planes bpp0 planes0 v = get_yuv_planes bpp1 planes1 v /\
  (get_yuv_bpp bpp0 planes0 v = -1 /\ get_yuv_planes bpp0 planes0 v = -1 \/
   (get_yuv_bpp bpp0 planes0 v = 12 \/ get_yuv_bpp bpp0 planes0 v = 16) /\
   1 <= get_yuv_planes bpp0 planes0 v <= 3).
Proof.
  assert (C : (exists b p, (b = 12 \/ b = 16) /\ 1 <= p <= 3 /\
      forall x y, V4L2_PIX_2_YUV_INFO v x y = (0, b, p)) \/
    forall x y, V4L2_PIX_2_YUV_INFO v x y = (-1, x, y)).
  { unfold V4L2_PIX_2_YUV_INFO, switch. destruct (List.find _ _) as [[ls r]|] eqn:E; [left|by right].
    apply List.find_some in E as [Hin _]. simpl in Hin.
    repeat (destruct Hin as [[= <- <-]|Hin]; [do 2 eexists; split; [|split; [|reflexivity]]; lia|]).
    destruct Hin. }
  unfold get_yuv_bpp, get_yuv_planes.
  destruct C as [(b & p & Hb & Hp & E)|E]; rewrite !E; simpl; [|by auto].
  rewrite !s32_small by lia. auto.
Qed.

(** ** The size of a frame *)

Lemma int_op_ok f a b : - 2 ^ 31 <= f a b < 2 ^ 31 -> int_op f #a #b = #(f a b).
Proof.
  intros Hr. unfold int_op, int_ok.
  by rewrite (proj2 (Z.leb_le _ _) (proj1 Hr)), (proj2 (Z.ltb_lt _ _) (proj2 Hr)).
Qed.

Lemma ALIGN_UP_16 x : 0 <= x < 2 ^ 31 - 16 -> ALIGN_UP #x #16 = #(roundup x 16).
Proof.
  intros Hx. unfold ALIGN_UP. rewrite (int_op_ok Z.add x), (int_op_ok Z.sub (x + 16)), (int_op_ok Z.sub 16) by lia.
  simpl option_map.
  assert (E : Z.land (x + 16 - 1) (Z.lnot (16 - 1)) = roundup x 16).
  { change (16 - 1) with (Z.ones 4). rewrite <- Z.ldiff_land, Z.ldiff_ones_r by lia.
    rewrite Z.shiftl_mul_pow2, Z.shiftr_div_pow2 by lia. done. }
  rewrite int_op_ok; rewrite E; [done|]. pose proof (roundup_bounds x 16 ltac:(lia)). lia.
Qed.

(** How the bytes of a frame are laid out: packed pixels; three planes with
    16-byte aligned rows; a luma plane and a half-size interleaved chroma plane
    without padding; the same with both dimensions aligned to 16 and 256 bytes after
    each plane; and three such planes. *)
Inductive layout := Packed (bytes : Z) | Planar | Semi | SemiPadded | PlanarPadded | NoSize.

(** The size of a padded chroma plane of half the height, with rows of [w] bytes. *)
Definition padded_chroma (w h : Z) : Z :=
  roundup (roundup w 16 * (roundup h 16 `div` 2) + 256) 16.

Definition layout_size (l : layout) (w h : Z) : Z :=
  match l with
  | Packed b => b * (w * h)
  | Planar => roundup w 16 * h + roundup (w `div` 2) 16 * h
  | Semi => (3 * (w * h)) `div` 2
  | SemiPadded => (roundup w 16 * roundup h 16 + 256) + padded_chroma w h
  | PlanarPadded => (roundup w 16 * roundup h 16 + 256) + 2 * padded_chroma (w `div` 2) h
  | NoSize => 0
  end.

Definition layout_of `{AndroidFormats} (h : Z) : layout :=
  switch h
    [([HAL_PIXEL_FORMAT_RGBA_8888; HAL_PIXEL_FORMAT_RGBX_8888; HAL_PIXEL_FORMAT_BGRA_8888], Packed 4);
     ([HAL_PIXEL_FORMAT_RGB_888], Packed 3);
     ([HAL_PIXEL_FORMAT_RGB_565; HAL_PIXEL_FORMAT_YCbCr_422_SP; HAL_PIXEL_FORMAT_YCbCr_422_I;
       HAL_PIXEL_FORMAT_EXYNOS_CbYCrY_422_I; HAL_PIXEL_FORMAT_EXYNOS_YCrCb_422_SP;
       HAL_PIXEL_FORMAT_EXYNOS_YCrCb_422_I; HAL_PIXEL_FORMAT_EXYNOS_CrYCbY_422_I], Packed 2);
     ([HAL_PIXEL_FORMAT_EXYNOS_YCbCr_420_P; HAL_PIXEL_FORMAT_YV12], Planar);
     ([HAL_PIXEL_FORMAT_YCrCb_420_SP; HAL_PIXEL_FORMAT_EXYNOS_YCbCr_420_SP], Semi);
     ([HAL_PIXEL_FORMAT_EXYNOS_YCbCr_420_SPN; HAL_PIXEL_FORMAT_EXYNOS_YCbCr_420_SPN_TILED], SemiPadded);
     ([HAL_PIXEL_FORMAT_EXYNOS_YCbCr_420_PN], PlanarPadded)]
    NoSize.

(** The [int] expressions of the branches of [FRAME_SIZE]. *)
Section expressions.
Context (w h : Z) (Hw : 0 <= w <= 16384) (Hh : 0 <= h <= 16384).

Lemma area : int_op Z.mul #w #h = #(w * h).
Proof. apply int_op_ok. nia. Qed.

Lemma size_16bpp : option_map u32 (GET_16BPP_FRAME_SIZE #w #h) = #(layout_size (Packed 2) w h).
Proof.
  unfold GET_16BPP_FRAME_SIZE. rewrite area, int_op_ok; rewrite Z.shiftl_mul_pow2 by lia; [|nia].
  simpl. f_equal. rewrite u32_small; [lia|nia].
Qed.

Lemma size_24bpp : option_map u32 (GET_24BPP_FRAME_SIZE #w #h) = #(layout_size (Packed 3) w h).
Proof.
  unfold GET_24BPP_FRAME_SIZE. rewrite area, int_op_ok by nia. simpl. f_equal. rewrite u32_small; [lia|nia].
Qed.

Lemma size_32bpp : option_map u32 (GET_32BPP_FRAME_SIZE #w #h) = #(layout_size (Packed 4) w h).
Proof.
  unfold GET_32BPP_FRAME_SIZE. rewrite area, int_op_ok; rewrite Z.shiftl_mul_pow2 by lia; [|nia].
  simpl. f_equal. rewrite u32_small; [lia|nia].
Qed.

Lemma half x : 0 <= x < 2 ^ 31 -> #x /i #2 = #(x `div` 2).
Proof. intros Hx. rewrite int_op_ok; rewrite Z.quot_div_nonneg by lia; [done|dlia]. Qed.

Lemma size_planar :
  match option_map u32 (ALIGN_UP #w #16 *i #h), ALIGN_UP (#w /i #2) #16 *i #h with
  | Some size, Some c => Some (size ^+ u32 c)
  | _, _ => None
  end = #(layout_size Planar w h).
Proof.
  assert (0 <= w `div` 2 <= 8192) by dlia.
  pose proof (roundup_bounds w 16 ltac:(lia)). pose proof (roundup_bounds (w `div` 2) 16 ltac:(lia)).
  rewrite half, (ALIGN_UP_16 w), ALIGN_UP_16 by lia.
  assert (0 <= roundup w 16 * h <= 2 ^ 29) by nia.
  assert (0 <= roundup (w `div` 2) 16 * h <= 2 ^ 29) by nia.
  rewrite (int_op_ok Z.mul (roundup w 16)), int_op_ok by lia. simpl. f_equal.
  rewrite !(u32_small (_ * _)) by lia. apply u32_small. lia.
Qed.

Lemma size_semi : option_map u32 (#w *i #h *i #3 /i #2) = #(layout_size Semi w h).
Proof.
  assert (0 <= w * h <= 2 ^ 28) by nia.
  rewrite area, int_op_ok, half by lia. unfold layout_size. cbn [option_map].
  rewrite u32_small by dlia. by rewrite (Z.mul_comm 3).
Qed.

(** The bounds of the padded planes. *)
Lemma padded_bounds : 0 <= roundup w 16 * roundup h 16 <= 2 ^ 29 /\
  0 <= roundup w 16 * (roundup h 16 `div` 2) <= 2 ^ 28 /\
  0 <= roundup (w `div` 2) 16 * (roundup h 16 `div` 2) <= 2 ^ 28.
Proof.
  assert (0 <= w `div` 2 <= 8192) by dlia.
  pose proof (roundup_bounds w 16 ltac:(lia)). pose proof (roundup_bounds h 16 ltac:(lia)).
  pose proof (roundup_bounds (w `div` 2) 16 ltac:(lia)).
  assert (0 <= roundup h 16 `div` 2 <= 8200) by dlia. nia.
Qed.

Lemma size_semi_padded :
  option_map u32 ((ALIGN_UP #w #16 *i ALIGN_UP #h #16 +i #256) +i
    ALIGN_UP (ALIGN_UP #w #16 *i (ALIGN_UP #h #16 /i #2) +i #256) #16) = #(layout_size SemiPadded w h).
Proof.
  pose proof padded_bounds as (B1 & B2 & B3). pose proof (roundup_bounds h 16 ltac:(lia)).
  set (c := roundup w 16 * (roundup h 16 `div` 2)) in *.
  pose proof (roundup_bounds (c + 256) 16 ltac:(lia)).
  rewrite (ALIGN_UP_16 w), (ALIGN_UP_16 h), half by lia.
  rewrite (int_op_ok Z.mul (roundup w 16) (roundup h 16)), (int_op_ok Z.mul (roundup w 16) (roundup h 16 `div` 2)) by (fold c; lia).
  rewrite (int_op_ok Z.add (roundup w 16 * (roundup h 16 `div` 2))), ALIGN_UP_16 by (fold c; lia).
  fold c. rewrite (int_op_ok Z.add _ 256), int_op_ok by lia. simpl. f_equal. unfold padded_chroma. fold c.
  apply u32_small. lia.
Qed.

Lemma size_planar_padded :
  option_map u32 ((ALIGN_UP #w #16 *i ALIGN_UP #h #16 +i #256) +i
    #2 *i ALIGN_UP (ALIGN_UP (#w /i #2) #16 *i (ALIGN_UP #h #16 /i #2) +i #256) #16) =
  #(layout_size PlanarPadded w h).
Proof.
  pose proof padded_bounds as (B1 & B2 & B3). pose proof (roundup_bounds h 16 ltac:(lia)).
  assert (0 <= w `div` 2 <= 8192) by (clear -Hw; dlia).
  set (c := roundup (w `div` 2) 16 * (roundup h 16 `div` 2)) in *.
  pose proof (roundup_bounds (c + 256) 16 ltac:(lia)).
  rewrite (half w), (ALIGN_UP_16 w), (ALIGN_UP_16 h), (ALIGN_UP_16 (w `div` 2)), half by lia.
  rewrite (int_op_ok Z.mul (roundup w 16) (roundup h 16)), (int_op_ok Z.mul (roundup (w `div` 2) 16)) by (fold c; lia).
  rewrite (int_op_ok Z.add (roundup (w `div` 2) 16 * (roundup h 16 `div` 2))), ALIGN_UP_16 by (fold c; lia).
  fold c. rewrite (int_op_ok Z.add _ 256), (int_op_ok Z.mul 2), int_op_ok by lia. simpl. f_equal. unfold padded_chroma. fold c.
  apply u32_small. lia.
Qed.

End expressions.

(** The bytes of the pixels fit in the layout. *)
Lemma layout_covers_16 w h : 0 <= w -> 0 <= h -> (w * h * 16) `div` 8 <= layout_size (Packed 2) w h.
Proof. intros Hw Hh. unfold layout_size. dlia. Qed.

Lemma layout_covers_12 l w h : 0 <= w <= 16384 -> 0 <= h <= 16384 ->
  match l with Packed _ | NoSize => False | _ => True end ->
  (w * h * 12) `div` 8 <= layout_size l w h.
Proof.
  intros Hw Hh. pose proof (roundup_bounds w 16 ltac:(lia)). pose proof (roundup_bounds h 16 ltac:(lia)).
  assert (Ew : exists k, roundup w 16 = 2 * k) by (exists ((w + 16 - 1) `div` 16 * 8); unfold roundup; lia).
  assert (Eh : 2 * (roundup h 16 `div` 2) = roundup h 16).
  { unfold roundup. replace ((h + 16 - 1) `div` 16 * 16) with ((h + 16 - 1) `div` 16 * 8 * 2) by lia.
    rewrite Z.div_mul; lia. }
  destruct Ew as [k Ew].
  assert (Hq : 3 * w <= 2 * roundup w 16 + 2 * (w `div` 2)) by (rewrite Ew in *; clear Eh; dlia).
  assert (Hc : forall v, 0 <= v -> v * h <= 2 * padded_chroma v h).
  { intros v Hv. unfold padded_chroma. pose proof (roundup_bounds v 16 ltac:(lia)).
    pose proof (roundup_bounds (roundup v 16 * (roundup h 16 `div` 2) + 256) 16 ltac:(lia)). nia. }
  assert (Hd : forall s, 3 * (w * h) <= 2 * s -> (w * h * 12) `div` 8 <= s) by (intros; dlia).
  assert (0 <= w `div` 2) by dlia. pose proof (roundup_bounds (w `div` 2) 16 ltac:(lia)).
  specialize (Hc (w `div` 2) ltac:(lia)) as Hc2. specialize (Hc w ltac:(lia)).
  destruct l; try done; intros _; unfold layout_size.
  - apply Hd. nia.
  - dlia.
  - apply Hd. nia.
  - apply Hd. nia.
Qed.

Section frame_size.
Context `{AndroidFormatsLaws}.

Lemma frame_size_eq h w y : 0 <= w <= 16384 -> 0 <= y <= 16384 ->
  FRAME_SIZE h w y = Some (layout_size (layout_of h) w y).
Proof.
  intros Hw Hy. unfold FRAME_SIZE. cbv zeta.
  rewrite size_16bpp, size_24bpp, size_32bpp, size_planar, size_semi, size_semi_padded, size_planar_padded by done.
  destruct (hal_cases h) as [(i & Hi & ->)|D]; unfold layout_of.
  - positions Hi. each_format i Hi ltac:(reflexivity).
  - to_positions. rewrite D by done. to_positions. by rewrite D.
Qed.
(** For frames of at most 16384 by 16384 pixels no [int] expression of
    [FRAME_SIZE] overflows, and the result is the sum of the sizes of the planes of
    the format's layout; the other formats have size 0. *)
Theorem frame_size_layout h w y :
  0 <= w <= 16384 -> 0 <= y <= 16384 -> FRAME_SIZE h w y = Some (layout_size (layout_of h) w y).
Proof. apply frame_size_eq. Qed.

(** The buffer [FRAME_SIZE] asks for holds the pixels: for every HAL format of
    which both the frame size and the bits per pixel are known, the size is at least
    the [w * h * bpp / 8] bytes (rounded down) of the picture. *)
Theorem frame_size_covers bpp0 planes0 h w y s bpp :
  0 <= w <= 16384 -> 0 <= y <= 16384 ->
  FRAME_SIZE h w y = Some s -> layout_of h <> NoSize ->
  get_yuv_bpp bpp0 planes0 (HAL_PIXEL_FORMAT_2_V4L2_PIX h) = bpp -> bpp <> -1 ->
  (w * y * bpp) `div` 8 <= s.
Proof.
  intros Hw Hy. rewrite frame_size_eq by done. intros [= <-].
  unfold layout_of, HAL_PIXEL_FORMAT_2_V4L2_PIX.
  destruct (hal_cases h) as [(i & Hi & ->)|D]; [|to_positions; by rewrite D].
  positions Hi. intros Hl Hb Hn. revert Hl Hb.
  each_format i Hi ltac:(vm_compute pswitch; intros Hl Hb; vm_compute in Hb; subst bpp; first [by destruct Hl | by destruct Hn | apply layout_covers_16; lia | by apply layout_covers_12]).
Qed.

End frame_size.

(** A 1080p picture in YV12. *)
Lemma frame_size_layout_witness :
  @FRAME_SIZE aosp_formats 0x32315659 1920 1080 = Some 3110400.
Proof.
  rewrite (@frame_size_layout aosp_formats aosp_formats_laws 0x32315659 1920 1080); [reflexivity|lia..].
Defined.

(** The padded 1080p picture of the decoder. *)
Lemma frame_size_covers_witness :
  exists s, @FRAME_SIZE aosp_formats HAL_PIXEL_FORMAT_EXYNOS_YCbCr_420_SPN 1920 1080 = Some s /\
    (1920 * 1080 * 12) `div` 8 <= s.
Proof.
  exists 3133952. split; [reflexivity|].
  apply (@frame_size_covers aosp_formats aosp_formats_laws 0 0 HAL_PIXEL_FORMAT_EXYNOS_YCbCr_420_SPN 1920 1080 3133952 12);
    first [lia | reflexivity | discriminate].
Defined.

(** ** Instances of the translations *)

Lemma hal_v4l2_canonical_witness :
  @V4L2_PIX_2_HAL_PIXEL_FORMAT aosp_formats (@HAL_PIXEL_FORMAT_2_V4L2_PIX aosp_formats 2) = 1.
Proof.
  rewrite (@hal_v4l2_canonical aosp_formats aosp_formats_laws 2); [reflexivity|discriminate].
Defined.

Lemma v4l2_hal_roundtrip_witness :
  @HAL_PIXEL_FORMAT_2_V4L2_PIX aosp_formats (@V4L2_PIX_2_HAL_PIXEL_FORMAT aosp_formats V4L2_PIX_FMT_NV12MT) =
  V4L2_PIX_FMT_NV12MT_16X16.
Proof.
  rewrite (@v4l2_hal_roundtrip aosp_formats aosp_formats_laws V4L2_PIX_FMT_NV12MT); [reflexivity|discriminate].
Defined.

Lemma num_planes_agrees_witness :
  @NUM_PLANES aosp_formats HAL_PIXEL_FORMAT_EXYNOS_YCbCr_420_SP_M = 2.
Proof.
  pose proof (@num_planes_agrees aosp_formats aosp_formats_laws 0 0 HAL_PIXEL_FORMAT_EXYNOS_YCbCr_420_SP_M) as H.
  symmetry. apply H. discriminate.
Defined.

