(* ===== verification/CscData.v ===== *)
(** * Colour space converter: data

    The enumerations and structures of [src/include/csc.h].  Enumerations whose
    variables are checked against unknown values by the code are integers. *)

From S2P Require Import Prelude.

Definition CSC_MAX_PLANES : Z := 3.

Inductive CSC_ERRORCODE :=
  | CSC_ErrorNone
  | CSC_Error
  | CSC_ErrorNotInit
  | CSC_ErrorInvalidAddress
  | CSC_ErrorUnsupportFormat
  | CSC_ErrorNotImplemented.

#[export] Instance CSC_ERRORCODE_eq_dec : EqDecision CSC_ERRORCODE.
Proof. solve_decision. Defined.

(** [CSC_METHOD] *)
Definition CSC_METHOD_SW : Z := 0.
Definition CSC_METHOD_HW : Z := 1.

(** [CSC_HW_PROPERTY_TYPE] *)
Definition CSC_HW_PROPERTY_FIXED_NODE : Z := 0.
Definition CSC_HW_PROPERTY_MODE_DRM : Z := 1.

(** [CSC_MEMTYPE] *)
Definition CSC_MEMORY_MMAP : Z := 1.
Definition CSC_MEMORY_USERPTR : Z := 2.
Definition CSC_MEMORY_OVERLAY : Z := 3.
Definition CSC_MEMORY_DMABUF : Z := 4.
Definition CSC_MEMORY_MFC : Z := 5.

(** [CSC_HW_ID] *)
Definition CSC_HW_GSC0 : Z := 0.
Definition CSC_HW_GSC1 : Z := 1.
Definition CSC_HW_GSC2 : Z := 2.
Definition CSC_HW_GSC3 : Z := 3.
Definition CSC_HW_SC0 : Z := 4.
Definition CSC_HW_SC1 : Z := 5.
Definition CSC_HW_SC2 : Z := 6.
Definition CSC_HW_MAX : Z := 7.

(** [CSC_PLANE] *)
Definition CSC_Y_PLANE : Z := 0.
Definition CSC_RGB_PLANE : Z := 0.
Definition CSC_U_PLANE : Z := 1.
Definition CSC_UV_PLANE : Z := 1.
Definition CSC_V_PLANE : Z := 2.

(** [CSC_HW_TYPE] *)
Definition CSC_HW_TYPE_FIMC : Z := 0.
Definition CSC_HW_TYPE_GSCALER : Z := 1.

(** [CSC_HW_FILTER] *)
Definition CSC_FT_NONE : Z := 0.
Definition CSC_FT_BLUR : Z := 1.
Definition CSC_FT_240 : Z := 2.
Definition CSC_FT_480 : Z := 3.
Definition CSC_FT_720 : Z := 4.
Definition CSC_FT_960 : Z := 5.
Definition CSC_FT_1080 : Z := 6.
Definition CSC_FT_MAX : Z := 7.

(** The fields [crop_left], [crop_top], ... of a format are [unsigned int]. *)
Record CSC_FORMAT := {
  width : Z;
  height : Z;
  crop_left : Z;
  crop_top : Z;
  crop_width : Z;
  crop_height : Z;
  color_format : Z;
  cacheable : Z;
  format_mode_drm : Z
}.

(** [planes] is the array of the plane addresses. *)
Record CSC_BUFFER := {
  planes : Z * Z * Z;
  mem_type : Z
}.

(** [planes[i]]. *)
Definition plane (b : CSC_BUFFER) (i : Z) : Z :=
  let '(p0, p1, p2) := planes b in
  if i =? 0 then p0 else if i =? 1 then p1 else p2.

Record CSC_HW_PROPERTY := {
  fixed_node : Z;
  mode_drm : Z
}.

Record CSC_HANDLE := {
  dst_format : CSC_FORMAT;
  src_format : CSC_FORMAT;
  dst_buffer : CSC_BUFFER;
  src_buffer : CSC_BUFFER;
  csc_method : Z;
  csc_hw_type : Z;
  csc_hw_handle : Z;
  hw_property : CSC_HW_PROPERTY;
  csc_mode : Z;
  csc_range : Z;
  colorspace : Z;
  filter : Z;
  frame_rate : Z
}.

#[export] Instance CSC_HANDLE_fields : Fields CSC_HANDLE := fun h => {|
  dst_format := dst_format h;
  src_format := src_format h;
  dst_buffer := dst_buffer h;
  src_buffer := src_buffer h;
  csc_method := csc_method h;
  csc_hw_type := csc_hw_type h;
  csc_hw_handle := csc_hw_handle h;
  hw_property := hw_property h;
  csc_mode := csc_mode h;
  csc_range := csc_range h;
  colorspace := colorspace h;
  filter := filter h;
  frame_rate := frame_rate h
|}.
