(* ===== verification/CscSw.v ===== *)
(** * Colour space converter: software conversions

    The software path of [src/libcsc/csc.c]: [copy_mfc_data], which removes or adds
    the row padding of the video codec's buffers, one function per source format,
    and the dispatch [conv_sw]. *)

From S2P Require Import Prelude CMem Interleave Tile16 Rgb PixelFormats CscData.

(** [ALIGN(x, MFC_IMG_ALIGN_WIDTH)] on [unsigned int]. *)
Definition MFC_IMG_ALIGN_WIDTH : Z := 16.
Definition ALIGN (x a : Z) : Z := Z.land ((x ^+ a) ^- 1) (u32 (Z.lnot (a - 1))).

(** The loop
    [for (i = 0; i < (int)rows; i++) memcpy(pDst + ds * i, pSrc + ss * i, n)]. *)
Definition copy_rows (rows pDst ds pSrc ss n : Z) : M unit :=
  for_each 0 (s32 rows) 1 (fun i => memcpy (pDst + (ds ^* i)) (pSrc + (ss ^* i)) n).

Section conversions.
Context `{AndroidFormats} (handle : CSC_HANDLE).

Abbreviation src_plane := (plane (src_buffer handle)).
Abbreviation dst_plane := (plane (dst_buffer handle)).
Abbreviation src := (src_format handle).
Abbreviation dst := (dst_format handle).

(** [src.width == dst.width && src.crop_width == dst.crop_width] *)
Definition same_widths : bool :=
  (width src =? width dst) && (crop_width src =? crop_width dst).

Definition copy_mfc_data : M CSC_ERRORCODE :=
  switch (color_format src)
    [([HAL_PIXEL_FORMAT_EXYNOS_YCbCr_420_P_M; HAL_PIXEL_FORMAT_EXYNOS_YCbCr_420_PN;
       HAL_PIXEL_FORMAT_EXYNOS_YV12_M],
      copy_rows (crop_height src) (dst_plane CSC_Y_PLANE) (crop_width src)
        (src_plane CSC_Y_PLANE) (width src) (crop_width src) ;!
      copy_rows (crop_height src ≫ 1) (dst_plane CSC_U_PLANE) (crop_width src ≫ 1)
        (src_plane CSC_U_PLANE) (ALIGN (crop_width src ≫ 1) MFC_IMG_ALIGN_WIDTH) (crop_width src ≫ 1) ;!
      copy_rows (crop_height src ≫ 1) (dst_plane CSC_V_PLANE) (crop_width src ≫ 1)
        (src_plane CSC_V_PLANE) (ALIGN (crop_width src ≫ 1) MFC_IMG_ALIGN_WIDTH) (crop_width src ≫ 1) ;!
      ret CSC_ErrorNone);
     ([HAL_PIXEL_FORMAT_EXYNOS_YCbCr_420_SP_M; HAL_PIXEL_FORMAT_EXYNOS_YCbCr_420_SP_M_PRIV;
       HAL_PIXEL_FORMAT_EXYNOS_YCbCr_420_SP_M_S10B; HAL_PIXEL_FORMAT_EXYNOS_YCbCr_420_SPN;
       HAL_PIXEL_FORMAT_EXYNOS_YCrCb_420_SP_M],
      copy_rows (crop_height src) (dst_plane CSC_Y_PLANE) (crop_width src)
        (src_plane CSC_Y_PLANE) (width src) (crop_width src) ;!
      copy_rows (crop_height src ≫ 1) (dst_plane CSC_UV_PLANE) (crop_width src)
        (src_plane CSC_UV_PLANE) (width src) (crop_width src) ;!
      ret CSC_ErrorNone);
     ([HAL_PIXEL_FORMAT_EXYNOS_YCbCr_P010_M],
      copy_rows (crop_height src) (dst_plane CSC_Y_PLANE) (crop_width src ^* 2)
        (src_plane CSC_Y_PLANE) (width src ^* 2) (crop_width src ^* 2) ;!
      copy_rows (crop_height src ≫ 1) (dst_plane CSC_UV_PLANE) (crop_width src ^* 2)
        (src_plane CSC_UV_PLANE) (width src ^* 2) (crop_width src ^* 2) ;!
      ret CSC_ErrorNone);
     ([HAL_PIXEL_FORMAT_EXYNOS_YCbCr_420_P; HAL_PIXEL_FORMAT_YV12],
      (if same_widths then
         memcpy (dst_plane CSC_Y_PLANE) (src_plane CSC_Y_PLANE) (width src ^* height src)
       else
         copy_rows (height src) (dst_plane CSC_Y_PLANE) (width dst)
           (src_plane CSC_Y_PLANE) (crop_width src) (crop_width src)) ;!
      copy_rows (height src ≫ 1) (dst_plane CSC_U_PLANE) (ALIGN (width dst ≫ 1) MFC_IMG_ALIGN_WIDTH)
        (src_plane CSC_U_PLANE) (crop_width src ≫ 1) (crop_width src ≫ 1) ;!
      copy_rows (height src ≫ 1) (dst_plane CSC_V_PLANE) (ALIGN (width dst ≫ 1) MFC_IMG_ALIGN_WIDTH)
        (src_plane CSC_V_PLANE) (crop_width src ≫ 1) (crop_width src ≫ 1) ;!
      ret CSC_ErrorNone);
     ([HAL_PIXEL_FORMAT_EXYNOS_YCbCr_420_SP; HAL_PIXEL_FORMAT_YCrCb_420_SP],
      (if same_widths then
         memcpy (dst_plane CSC_Y_PLANE) (src_plane CSC_Y_PLANE) (width src ^* height src) ;!
         memcpy (dst_plane CSC_UV_PLANE) (src_plane CSC_UV_PLANE) (width src ^* (height src ≫ 1))
       else
         copy_rows (height src) (dst_plane CSC_Y_PLANE) (width dst)
           (src_plane CSC_Y_PLANE) (crop_width src) (crop_width src) ;!
         copy_rows (height src ≫ 1) (dst_plane CSC_UV_PLANE) (width dst)
           (src_plane CSC_UV_PLANE) (crop_width src) (crop_width src)) ;!
      ret CSC_ErrorNone);
     ([HAL_PIXEL_FORMAT_YCBCR_P010],
      (if same_widths then
         memcpy (dst_plane CSC_Y_PLANE) (src_plane CSC_Y_PLANE) ((width src ^* 2) ^* height src) ;!
         memcpy (dst_plane CSC_UV_PLANE) (src_plane CSC_UV_PLANE) ((width src ^* 2) ^* (height src ≫ 1))
       else
         copy_rows (height src) (dst_plane CSC_Y_PLANE) (width dst ^* 2)
           (src_plane CSC_Y_PLANE) (crop_width src ^* 2) (crop_width src ^* 2) ;!
         copy_rows (height src ≫ 1) (dst_plane CSC_UV_PLANE) (width dst ^* 2)
           (src_plane CSC_UV_PLANE) (crop_width src ^* 2) (crop_width src ^* 2)) ;!
      ret CSC_ErrorNone);
     ([HAL_PIXEL_FORMAT_BGRA_8888; HAL_PIXEL_FORMAT_RGBA_8888; HAL_PIXEL_FORMAT_EXYNOS_ARGB_8888],
      memcpy (dst_plane CSC_Y_PLANE) (src_plane CSC_Y_PLANE) ((width src ^* height src) ^* 4) ;!
      ret CSC_ErrorNone)]
    (ret CSC_ErrorUnsupportFormat).

Definition conv_sw_src_argb888 : M CSC_ERRORCODE :=
  switch (color_format dst)
    [([HAL_PIXEL_FORMAT_BGRA_8888],
      if mem_type (src_buffer handle) =? CSC_MEMORY_MFC then copy_mfc_data
      else ret CSC_ErrorUnsupportFormat);
     ([HAL_PIXEL_FORMAT_EXYNOS_YCbCr_420_P; HAL_PIXEL_FORMAT_EXYNOS_YCbCr_420_P_M;
       HAL_PIXEL_FORMAT_EXYNOS_YCbCr_420_PN],
      csc_BGRA8888_to_YUV420P (dst_plane CSC_Y_PLANE) (dst_plane CSC_U_PLANE) (dst_plane CSC_V_PLANE)
        (src_plane CSC_RGB_PLANE) (width src) (height src) ;!
      ret CSC_ErrorNone);
     ([HAL_PIXEL_FORMAT_EXYNOS_YCbCr_420_SP; HAL_PIXEL_FORMAT_EXYNOS_YCbCr_420_SP_M;
       HAL_PIXEL_FORMAT_EXYNOS_YCbCr_420_SP_M_PRIV; HAL_PIXEL_FORMAT_EXYNOS_YCbCr_420_SPN],
      csc_BGRA8888_to_YUV420SP (dst_plane CSC_Y_PLANE) (dst_plane CSC_UV_PLANE)
        (src_plane CSC_RGB_PLANE) (width src) (height src) ;!
      ret CSC_ErrorNone);
     ([HAL_PIXEL_FORMAT_YV12; HAL_PIXEL_FORMAT_EXYNOS_YV12_M],
      csc_BGRA8888_to_YUV420P (dst_plane CSC_Y_PLANE) (dst_plane CSC_V_PLANE) (dst_plane CSC_U_PLANE)
        (src_plane CSC_RGB_PLANE) (width src) (height src) ;!
      ret CSC_ErrorNone)]
    (ret CSC_ErrorUnsupportFormat).

Definition conv_sw_src_rgba888 : M CSC_ERRORCODE :=
  switch (color_format dst)
    [([HAL_PIXEL_FORMAT_RGBA_8888],
      if mem_type (src_buffer handle) =? CSC_MEMORY_MFC then copy_mfc_data
      else ret CSC_ErrorUnsupportFormat);
     ([HAL_PIXEL_FORMAT_EXYNOS_YCbCr_420_P; HAL_PIXEL_FORMAT_EXYNOS_YCbCr_420_P_M;
       HAL_PIXEL_FORMAT_EXYNOS_YCbCr_420_PN],
      csc_RGBA8888_to_YUV420P (dst_plane CSC_Y_PLANE) (dst_plane CSC_U_PLANE) (dst_plane CSC_V_PLANE)
        (src_plane CSC_RGB_PLANE) (width src) (height src) ;!
      ret CSC_ErrorNone);
     ([HAL_PIXEL_FORMAT_EXYNOS_YCbCr_420_SP; HAL_PIXEL_FORMAT_EXYNOS_YCbCr_420_SP_M;
       HAL_PIXEL_FORMAT_EXYNOS_YCbCr_420_SP_M_PRIV; HAL_PIXEL_FORMAT_EXYNOS_YCbCr_420_SPN],
      csc_RGBA8888_to_YUV420SP (dst_plane CSC_Y_PLANE) (dst_plane CSC_UV_PLANE)
        (src_plane CSC_RGB_PLANE) (width src) (height src) ;!
      ret CSC_ErrorNone);
     ([HAL_PIXEL_FORMAT_YV12; HAL_PIXEL_FORMAT_EXYNOS_YV12_M],
      csc_RGBA8888_to_YUV420P (dst_plane CSC_Y_PLANE) (dst_plane CSC_V_PLANE) (dst_plane CSC_U_PLANE)
        (src_plane CSC_RGB_PLANE) (width src) (height src) ;!
      ret CSC_ErrorNone)]
    (ret CSC_ErrorUnsupportFormat).

Definition conv_sw_src_nv12t : M CSC_ERRORCODE :=
  switch (color_format dst)
    [([HAL_PIXEL_FORMAT_EXYNOS_YCbCr_420_P; HAL_PIXEL_FORMAT_EXYNOS_YCbCr_420_P_M;
       HAL_PIXEL_FORMAT_EXYNOS_YCbCr_420_PN],
      csc_tiled_to_linear_y (dst_plane CSC_Y_PLANE) (src_plane CSC_Y_PLANE)
        (crop_width src) (crop_height src) ;!
      csc_tiled_to_linear_uv_deinterleave (dst_plane CSC_U_PLANE) (dst_plane CSC_V_PLANE)
        (src_plane CSC_UV_PLANE) (crop_width src) (crop_height src `div` 2) ;!
      ret CSC_ErrorNone);
     ([HAL_PIXEL_FORMAT_EXYNOS_YCbCr_420_SP; HAL_PIXEL_FORMAT_EXYNOS_YCbCr_420_SP_M;
       HAL_PIXEL_FORMAT_EXYNOS_YCbCr_420_SP_M_PRIV; HAL_PIXEL_FORMAT_EXYNOS_YCbCr_420_SPN],
      csc_tiled_to_linear_y (dst_plane CSC_Y_PLANE) (src_plane CSC_Y_PLANE)
        (crop_width src) (crop_height src) ;!
      csc_tiled_to_linear_uv (dst_plane CSC_UV_PLANE) (src_plane CSC_UV_PLANE)
        (crop_width src) (crop_height src `div` 2) ;!
      ret CSC_ErrorNone)]
    (ret CSC_ErrorUnsupportFormat).

(** The copy of three planes of [conv_sw_src_yuv420p] and [conv_sw_src_yvu420p]. *)
Definition copy_planar : M unit :=
  memcpy (dst_plane CSC_Y_PLANE) (src_plane CSC_Y_PLANE) (width src ^* height src) ;!
  memcpy (dst_plane CSC_U_PLANE) (src_plane CSC_U_PLANE) ((width src ^* height src) ≫ 2) ;!
  memcpy (dst_plane CSC_V_PLANE) (src_plane CSC_V_PLANE) ((width src ^* height src) ≫ 2).

Definition conv_sw_src_yuv420p : M CSC_ERRORCODE :=
  switch (color_format dst)
    [([HAL_PIXEL_FORMAT_EXYNOS_YCbCr_420_P; HAL_PIXEL_FORMAT_EXYNOS_YCbCr_420_P_M;
       HAL_PIXEL_FORMAT_EXYNOS_YCbCr_420_PN],
      if mem_type (src_buffer handle) =? CSC_MEMORY_MFC then copy_mfc_data
      else copy_planar ;! ret CSC_ErrorNone);
     ([HAL_PIXEL_FORMAT_EXYNOS_YCbCr_420_SP; HAL_PIXEL_FORMAT_EXYNOS_YCbCr_420_SP_M;
       HAL_PIXEL_FORMAT_EXYNOS_YCbCr_420_SP_M_PRIV; HAL_PIXEL_FORMAT_EXYNOS_YCbCr_420_SPN],
      memcpy (dst_plane CSC_Y_PLANE) (src_plane CSC_Y_PLANE) (width src ^* height src) ;!
      csc_interleave_memcpy (dst_plane CSC_UV_PLANE) (src_plane CSC_U_PLANE) (src_plane CSC_V_PLANE)
        ((width src ^* height src) ≫ 2) ;!
      ret CSC_ErrorNone)]
    (ret CSC_ErrorUnsupportFormat).

Definition conv_sw_src_yvu420p : M CSC_ERRORCODE :=
  switch (color_format dst)
    [([HAL_PIXEL_FORMAT_YV12; HAL_PIXEL_FORMAT_EXYNOS_YV12_M],
      if mem_type (src_buffer handle) =? CSC_MEMORY_MFC then copy_mfc_data
      else copy_planar ;! ret CSC_ErrorNone);
     ([HAL_PIXEL_FORMAT_EXYNOS_YCbCr_420_SP; HAL_PIXEL_FORMAT_EXYNOS_YCbCr_420_SP_M;
       HAL_PIXEL_FORMAT_EXYNOS_YCbCr_420_SP_M_PRIV; HAL_PIXEL_FORMAT_EXYNOS_YCbCr_420_SPN],
      memcpy (dst_plane CSC_Y_PLANE) (src_plane CSC_Y_PLANE) (width src ^* height src) ;!
      csc_interleave_memcpy (dst_plane CSC_UV_PLANE) (src_plane CSC_V_PLANE) (src_plane CSC_U_PLANE)
        ((width src ^* height src) ≫ 2) ;!
      ret CSC_ErrorNone)]
    (ret CSC_ErrorUnsupportFormat).

(** The copy of two planes of [conv_sw_src_yuv420sp] and [conv_sw_src_yvu420sp]. *)
Definition copy_semi : M unit :=
  memcpy (dst_plane CSC_Y_PLANE) (src_plane CSC_Y_PLANE) (width src ^* height src) ;!
  memcpy (dst_plane CSC_UV_PLANE) (src_plane CSC_UV_PLANE) ((width src ^* height src) ≫ 1).

(** The loops that split the rows of an interleaved plane.  [iu] and [iv] are the
    positions of the byte of [pDstU] and of the byte of [pDstV] in a pair. *)
Definition split_rows (iu iv : Z) : M unit :=
  copy_rows (crop_height src) (dst_plane CSC_Y_PLANE) (crop_width src)
    (src_plane CSC_Y_PLANE) (width src) (crop_width src) ;!
  let pSrc := src_plane CSC_UV_PLANE in
  let pDstU := dst_plane CSC_U_PLANE in
  let pDstV := dst_plane CSC_V_PLANE in
  for_each 0 (s32 (crop_height src ≫ 1)) 1 (fun i =>
    for_each 0 (s32 (crop_width src ≫ 1)) 1 (fun j =>
      let! j2 := sint (j * 2) in
      let srcOffset := s32 ((i ^* width src) ^+ j2) in
      let dstOffset := s32 (i ^* (crop_width src ≫ 1)) in
      let! du := sint (dstOffset + j) in
      let! su := sint (srcOffset + iu) in
      (let! v := load8 (pSrc + su) in poke (pDstU + du) v) ;!
      let! dv := sint (dstOffset + j) in
      let! sv := sint (srcOffset + iv) in
      (let! v := load8 (pSrc + sv) in poke (pDstV + dv) v))).

Definition conv_sw_src_yuv420sp : M CSC_ERRORCODE :=
  switch (color_format dst)
    [([HAL_PIXEL_FORMAT_EXYNOS_YCbCr_420_SP; HAL_PIXEL_FORMAT_EXYNOS_YCbCr_420_SP_M;
       HAL_PIXEL_FORMAT_EXYNOS_YCbCr_420_SP_M_PRIV; HAL_PIXEL_FORMAT_EXYNOS_YCbCr_420_SPN],
      if mem_type (src_buffer handle) =? CSC_MEMORY_MFC then copy_mfc_data
      else copy_semi ;! ret CSC_ErrorNone);
     ([HAL_PIXEL_FORMAT_EXYNOS_YCbCr_420_P; HAL_PIXEL_FORMAT_EXYNOS_YCbCr_420_P_M;
       HAL_PIXEL_FORMAT_EXYNOS_YCbCr_420_PN],
      split_rows 0 1 ;! ret CSC_ErrorNone);
     ([HAL_PIXEL_FORMAT_YV12; HAL_PIXEL_FORMAT_EXYNOS_YV12_M],
      split_rows 1 0 ;! ret CSC_ErrorNone)]
    (ret CSC_ErrorUnsupportFormat).

Definition conv_sw_src_yvu420sp : M CSC_ERRORCODE :=
  switch (color_format dst)
    [([HAL_PIXEL_FORMAT_YCrCb_420_SP; HAL_PIXEL_FORMAT_EXYNOS_YCrCb_420_SP_M;
       HAL_PIXEL_FORMAT_EXYNOS_YCbCr_420_SP_M_PRIV],
      if mem_type (src_buffer handle) =? CSC_MEMORY_MFC then copy_mfc_data
      else copy_semi ;! ret CSC_ErrorNone);
     ([HAL_PIXEL_FORMAT_EXYNOS_YCbCr_420_P; HAL_PIXEL_FORMAT_EXYNOS_YCbCr_420_P_M;
       HAL_PIXEL_FORMAT_EXYNOS_YCbCr_420_PN],
      split_rows 1 0 ;! ret CSC_ErrorNone);
     ([HAL_PIXEL_FORMAT_YV12; HAL_PIXEL_FORMAT_EXYNOS_YV12_M],
      split_rows 0 1 ;! ret CSC_ErrorNone)]
    (ret CSC_ErrorUnsupportFormat).

Definition conv_sw_src_yuvP010 : M CSC_ERRORCODE :=
  switch (color_format dst)
    [([HAL_PIXEL_FORMAT_YCBCR_P010; HAL_PIXEL_FORMAT_EXYNOS_YCbCr_P010_M],
      if mem_type (src_buffer handle) =? CSC_MEMORY_MFC then copy_mfc_data
      else
        memcpy (dst_plane CSC_Y_PLANE) (src_plane CSC_Y_PLANE) ((width src ^* 2) ^* height src) ;!
        memcpy (dst_plane CSC_UV_PLANE) (src_plane CSC_UV_PLANE) (((width src ^* 2) ^* height src) ≫ 1) ;!
        ret CSC_ErrorNone)]
    (ret CSC_ErrorUnsupportFormat).

Definition conv_sw : M CSC_ERRORCODE :=
  switch (color_format src)
    [([HAL_PIXEL_FORMAT_EXYNOS_YCbCr_420_SP_M_TILED; HAL_PIXEL_FORMAT_EXYNOS_YCbCr_420_SPN_TILED],
      conv_sw_src_nv12t);
     ([HAL_PIXEL_FORMAT_EXYNOS_YCbCr_420_P; HAL_PIXEL_FORMAT_EXYNOS_YCbCr_420_P_M;
       HAL_PIXEL_FORMAT_EXYNOS_YCbCr_420_PN],
      conv_sw_src_yuv420p);
     ([HAL_PIXEL_FORMAT_YV12; HAL_PIXEL_FORMAT_EXYNOS_YV12_M],
      conv_sw_src_yvu420p);
     ([HAL_PIXEL_FORMAT_EXYNOS_YCbCr_420_SP; HAL_PIXEL_FORMAT_EXYNOS_YCbCr_420_SP_M;
       HAL_PIXEL_FORMAT_EXYNOS_YCbCr_420_SP_M_PRIV; HAL_PIXEL_FORMAT_EXYNOS_YCbCr_420_SP_M_S10B;
       HAL_PIXEL_FORMAT_EXYNOS_YCbCr_420_SPN],
      conv_sw_src_yuv420sp);
     ([HAL_PIXEL_FORMAT_YCBCR_P010; HAL_PIXEL_FORMAT_EXYNOS_YCbCr_P010_M],
      conv_sw_src_yuvP010);
     ([HAL_PIXEL_FORMAT_YCrCb_420_SP; HAL_PIXEL_FORMAT_EXYNOS_YCrCb_420_SP_M],
      conv_sw_src_yvu420sp);
     ([HAL_PIXEL_FORMAT_BGRA_8888], conv_sw_src_argb888);
     ([HAL_PIXEL_FORMAT_RGBA_8888], conv_sw_src_rgba888);
     ([HAL_PIXEL_FORMAT_EXYNOS_ARGB_8888], copy_mfc_data)]
    (ret CSC_ErrorUnsupportFormat).

End conversions.
