(* ===== verification/CscPicture.v ===== *)
(** * Colour space converter: pictures

    What the software conversions between YUV formats mean.  A [view] says where a
    buffer keeps the samples of a picture; the conversions of [CscSw] copy every
    sample of the source view to the destination view, whatever the arrangement of
    the chroma samples and the strides of the two. *)

From S2P Require Import Prelude CMem Interleave Tile16 Rgb PixelFormats CscData CscSw.

(** ** Views *)

Inductive component := Luma | Cb | Cr.

#[export] Instance component_eq_dec : EqDecision component.
Proof. solve_decision. Defined.

(** Three planes, or a luma plane and a plane of pairs; [true] when Cr comes before
    Cb. *)
Inductive chroma := Planar (cr_first : bool) | Pairs (cr_first : bool).

#[export] Instance chroma_eq_dec : EqDecision chroma.
Proof. solve_decision. Defined.

(** [depth] is the number of bytes of a sample; the strides are in bytes. *)
Record view := { arrangement : chroma; depth : Z; luma_stride : Z; chroma_stride : Z }.

(** Byte [b] of the sample at column [x] and row [y] of a component. *)
Abbreviation sample := (component * Z * Z * Z)%type.

Definition is_second (cr_first : bool) (c : component) : bool :=
  match c with Cr => negb cr_first | _ => cr_first end.

Definition view_at (v : view) (p : Z -> Z) : sample -> Z := fun '(c, x, y, b) =>
  match c, arrangement v with
  | Luma, _ => p 0 + (luma_stride v * y + (depth v * x + b))
  | _, Planar f => p (if is_second f c then 2 else 1) + (chroma_stride v * y + (depth v * x + b))
  | _, Pairs f =>
      p 1 + (chroma_stride v * y + (2 * depth v * x + ((if is_second f c then depth v else 0) + b)))
  end.

(** The samples of a 4:2:0 picture of [w] by [h] pixels. *)
Definition picture (w h d : Z) : sample -> Prop := fun '(c, x, y, b) =>
  0 <= b < d /\
  match c with
  | Luma => 0 <= x < w /\ 0 <= y < h
  | _ => 0 <= x < w `div` 2 /\ 0 <= y < h `div` 2
  end.

(** ** Rows and samples *)

Section samples.
Context (w h d : Z) (d_pos : 0 < d).

Lemma split_byte n t : 0 <= t < d * n -> 0 <= t `div` d < n /\ 0 <= t `mod` d < d /\ d * (t `div` d) + t `mod` d = t.
Proof using d_pos.
  intros Ht. pose proof (Z.div_mod t d ltac:(lia)). pose proof (Z.mod_pos_bound t d d_pos).
  pose proof (Z.div_pos t d). pose proof (Z.div_lt_upper_bound t d n). lia.
Qed.

Lemma luma_byte y t : 0 <= y < h -> 0 <= t < d * w ->
  exists k, picture w h d k /\
    forall v p, depth v = d -> view_at v p k = p 0 + (luma_stride v * y + t).
Proof using d_pos.
  intros Hy Ht. destruct (split_byte w t Ht) as (Hx & Hb & E).
  exists (Luma, t `div` d, y, t `mod` d). split; [simpl; lia|].
  intros v p Hv. simpl. rewrite Hv. lia.
Qed.

Lemma planar_byte i f y t : i = 1 \/ i = 2 -> 0 <= y < h `div` 2 -> 0 <= t < d * (w `div` 2) ->
  exists k, picture w h d k /\
    forall v p, depth v = d -> arrangement v = Planar f ->
      view_at v p k = p i + (chroma_stride v * y + t).
Proof using d_pos.
  intros Hi Hy Ht. destruct (split_byte (w `div` 2) t Ht) as (Hx & Hb & E).
  exists (if xorb f (i =? 1) then Cb else Cr, t `div` d, y, t `mod` d). split.
  - destruct (xorb _ _); simpl; lia.
  - intros v p Hv Ha. destruct Hi as [-> | ->], f; simpl; rewrite Hv, Ha; simpl; lia.
Qed.

Lemma pairs_byte f y t : 0 <= y < h `div` 2 -> 0 <= t < 2 * d * (w `div` 2) ->
  exists k, picture w h d k /\
    forall v p, depth v = d -> arrangement v = Pairs f ->
      view_at v p k = p 1 + (chroma_stride v * y + t).
Proof using d_pos.
  intros Hy Ht.
  pose proof (Z.div_mod t (2 * d) ltac:(lia)). pose proof (Z.mod_pos_bound t (2 * d) ltac:(lia)).
  assert (0 <= t `div` (2 * d) < w `div` 2).
  { split; [apply Z.div_pos; lia|apply Z.div_lt_upper_bound; lia]. }
  set (r := t `mod` (2 * d)) in *. set (q := t `div` (2 * d)) in *.
  destruct (decide (r < d)) as [Hr|Hr].
  - exists (if f then Cr else Cb, q, y, r). split; [destruct f; simpl; lia|].
    intros v p Hv Ha. destruct f; simpl; rewrite Hv, Ha; simpl; lia.
  - exists (if f then Cb else Cr, q, y, r - d). split; [destruct f; simpl; lia|].
    intros v p Hv Ha. destruct f; simpl; rewrite Hv, Ha; simpl; lia.
Qed.

(** The position of a sample in its plane. *)
Definition row_byte (v : view) (p : Z -> Z) (i stride rows len a : Z) : Prop :=
  exists y t, 0 <= y < rows /\ 0 <= t < len /\ a = p i + (stride * y + t).

Lemma picture_luma v p x y b : depth v = d -> picture w h d (Luma, x, y, b) ->
  row_byte v p 0 (luma_stride v) h (d * w) (view_at v p (Luma, x, y, b)).
Proof using d_pos.
  simpl. intros Hv (Hb & Hx & Hy). exists y, (d * x + b). rewrite Hv. split; [lia|]. split; [nia|done].
Qed.

Lemma picture_planar v p f c x y b : depth v = d -> arrangement v = Planar f -> c <> Luma ->
  picture w h d (c, x, y, b) ->
  row_byte v p 1 (chroma_stride v) (h `div` 2) (d * (w `div` 2)) (view_at v p (c, x, y, b)) \/
  row_byte v p 2 (chroma_stride v) (h `div` 2) (d * (w `div` 2)) (view_at v p (c, x, y, b)).
Proof using d_pos.
  intros Hv Ha Hc Hp. assert (Hp' : 0 <= b < d /\ 0 <= x < w `div` 2 /\ 0 <= y < h `div` 2) by (destruct c; done).
  assert (R : forall i, view_at v p (c, x, y, b) = p i + (chroma_stride v * y + (d * x + b)) ->
    row_byte v p i (chroma_stride v) (h `div` 2) (d * (w `div` 2)) (view_at v p (c, x, y, b))).
  { intros i E. exists y, (d * x + b). split; [lia|]. split; [nia|done]. }
  destruct c; [done| |]; destruct f; simpl in R |- *; rewrite Ha, Hv in *; simpl in *; auto.
Qed.

Lemma picture_pairs v p f c x y b : depth v = d -> arrangement v = Pairs f -> c <> Luma ->
  picture w h d (c, x, y, b) ->
  row_byte v p 1 (chroma_stride v) (h `div` 2) (2 * d * (w `div` 2)) (view_at v p (c, x, y, b)).
Proof using d_pos.
  intros Hv Ha Hc Hp. assert (Hp' : 0 <= b < d /\ 0 <= x < w `div` 2 /\ 0 <= y < h `div` 2) by (destruct c; done).
  assert (R : forall e, e = 0 \/ e = d -> row_byte v p 1 (chroma_stride v) (h `div` 2) (2 * d * (w `div` 2))
    (p 1 + (chroma_stride v * y + (2 * d * x + (e + b))))).
  { intros e He. exists y, (2 * d * x + (e + b)). split; [lia|]. split; [nia|done]. }
  destruct c; [done| |]; destruct f; simpl; rewrite Ha, Hv; simpl; auto.
Qed.
End samples.

(** ** The copying steps in the write calculus *)

(** The addresses of [rows] rows of [n] bytes, a stride apart. *)
Definition row_set (d stride n rows a : Z) : Prop :=
  exists y t, 0 <= y < rows /\ 0 <= t < n /\ a = d + (stride * y + t).

Section steps.
Context (m : mem) (P : sample -> Prop) (D S : sample -> Z).
Context (mapped_D : forall k, P k -> is_Some (m !! D k)).
Context (mapped_S : forall k, P k -> is_Some (m !! S k)).
Context (apart_DS : forall k k', P k -> P k' -> D k <> S k').
Abbreviation writes := (writes m (plan m P D S)).

(** The rows at [d] are to receive those at [s]. *)
Definition rows_to (d ds s ss n rows : Z) : Prop :=
  forall y t, 0 <= y < rows -> 0 <= t < n ->
    exists k, P k /\ D k = d + (ds * y + t) /\ S k = s + (ss * y + t).

Lemma rows_copyable1 d ds s ss n rows y t : rows_to d ds s ss n rows -> 0 <= y < rows -> 0 <= t < n ->
  copyable1 m (plan m P D S) (d + (ds * y + t)) (s + (ss * y + t)).
Proof using mapped_D mapped_S apart_DS.
  intros H Hy Ht. destruct (H y t Hy Ht) as (k & Hk & E1 & E2). by apply (plan_copyable1 m P D S) with k.
Qed.

Lemma writes_copy_rows d ds s ss n rows :
  rows_to d ds s ss n rows -> 0 <= rows <= 2 ^ 15 -> 0 <= ds <= 2 ^ 16 -> 0 <= ss <= 2 ^ 16 ->
  writes (copy_rows rows d ds s ss n) tt (row_set d ds n rows).
Proof using mapped_D mapped_S apart_DS.
  intros H Hr Hd Hs. unfold copy_rows. rewrite s32_small by lia. eapply writes_weaken.
  { apply writes_for_each with (n := rows) (C := fun i a => d + ds * i <= a < d + ds * i + n); try lia.
    intros i Hi. rewrite Z.add_0_l, Z.mul_1_l, !u32_small by nia.
    apply writes_memcpy. intros t Ht. rewrite <- !Z.add_assoc.
    by apply (rows_copyable1 d ds s ss n rows). }
  intros a (y & t & Hy & Ht & ->). exists y. lia.
Qed.

Lemma writes_block d s n rows len :
  rows_to d n s n n rows -> len = n * rows -> 0 <= n -> writes (memcpy d s len) tt (row_set d n n rows).
Proof using mapped_D mapped_S apart_DS.
  intros H -> Hn. eapply writes_weaken.
  { apply writes_memcpy. intros k Hk. destruct (rect_pos n rows k Hn Hk) as (t & y & Ht & Hy & ->).
    by apply (rows_copyable1 d n s n n rows). }
  intros a (y & t & Hy & Ht & ->). nia.
Qed.

(** Two planes merged into one of pairs. *)
Lemma writes_merge d s1 s2 n rows :
  (forall x y, 0 <= x < n -> 0 <= y < rows ->
    (exists k, P k /\ D k = d + (2 * n * y + 2 * x) /\ S k = s1 + (n * y + x)) /\
    (exists k, P k /\ D k = d + (2 * n * y + (2 * x + 1)) /\ S k = s2 + (n * y + x))) ->
  0 <= n -> 0 <= n * rows < 2 ^ 31 ->
  writes (csc_interleave_memcpy d s1 s2 (n * rows)) tt (row_set d (2 * n) (2 * n) rows).
Proof using mapped_D mapped_S apart_DS.
  intros H Hn Hb. eapply writes_weaken.
  { apply writes_interleave; [done| |]; intros i Hi;
      destruct (rect_pos n rows i Hn Hi) as (x & y & Hx & Hy & ->); destruct (H x y Hx Hy) as [(k & Hk & E1 & E2) (k' & Hk' & E1' & E2')].
    - apply (plan_copyable1 m P D S) with k; [done..|lia|lia].
    - apply (plan_copyable1 m P D S) with k'; [done..|lia|lia]. }
  intros a (y & t & Hy & Ht & ->). nia.
Qed.

(** A plane of pairs split into two. *)
Lemma writes_split iu iv s w sw u v n rows :
  0 <= iu <= 1 -> 0 <= iv <= 1 -> n = w `div` 2 -> 0 <= w <= 2 ^ 15 -> 0 <= sw <= 2 ^ 15 ->
  0 <= rows <= 2 ^ 14 ->
  (forall x y, 0 <= x < n -> 0 <= y < rows ->
    (exists k, P k /\ D k = u + (n * y + x) /\ S k = s + (sw * y + (2 * x + iu))) /\
    (exists k, P k /\ D k = v + (n * y + x) /\ S k = s + (sw * y + (2 * x + iv)))) ->
  writes
    (for_each 0 (s32 rows) 1 (fun i =>
      for_each 0 (s32 (w ≫ 1)) 1 (fun j =>
        let! j2 := sint (j * 2) in
        let srcOffset := s32 ((i ^* sw) ^+ j2) in
        let dstOffset := s32 (i ^* (w ≫ 1)) in
        let! du := sint (dstOffset + j) in
        let! su := sint (srcOffset + iu) in
        (let! b := load8 (s + su) in poke (u + du) b) ;!
        let! dv := sint (dstOffset + j) in
        let! sv := sint (srcOffset + iv) in
        (let! b := load8 (s + sv) in poke (v + dv) b)))) tt
    (fun a => row_set u n n rows a \/ row_set v n n rows a).
Proof using mapped_D mapped_S apart_DS.
  intros Hiu Hiv Hn Hw Hsw Hrows H. shifts. rewrite <- Hn.
  assert (0 <= n <= 2 ^ 14) by (subst n; dlia).
  rewrite !s32_small by lia. eapply writes_weaken.
  { apply writes_for_each with (n := rows)
      (C := fun y a => exists x, 0 <= x < n /\ (a = u + (n * y + x) \/ a = v + (n * y + x))); try lia.
    intros y Hy. rewrite Z.add_0_l, Z.mul_1_l.
    apply writes_for_each with (n := n) (C := fun x a => a = u + (n * y + x) \/ a = v + (n * y + x)); try lia.
    intros x Hx. rewrite Z.add_0_l, Z.mul_1_l.
    assert (0 <= y * sw < 2 ^ 29) by nia. assert (0 <= y * n < 2 ^ 28) by nia.
    rewrite (u32_small (y * sw)), (u32_small (y * n)) by lia.
    rewrite (s32_small (y * n)) by lia.
    destruct (H x y Hx Hy) as [(k & Hk & E1 & E2) (k' & Hk' & E1' & E2')].
    eapply writes_weaken.
    { eapply writes_after; [apply writes_sint; lia|].
      rewrite u32_small, (s32_small (y * sw + _)) by lia.
      eapply writes_after; [apply writes_sint; lia|]. eapply writes_after; [apply writes_sint; lia|].
      eapply writes_seq; [apply writes_copy1, (plan_copyable1 m P D S) with k; [done..|lia|lia]|].
      eapply writes_after; [apply writes_sint; lia|]. eapply writes_after; [apply writes_sint; lia|].
      apply writes_copy1, (plan_copyable1 m P D S) with k'; [done..|lia|lia]. }
    intros a [-> | ->]; simpl; lia. }
  intros a [(y & t & Hy & Ht & ->)|(y & t & Hy & Ht & ->)]; exists y; split; try done; eauto.
Qed.
End steps.

(** ** What a conversion is to do *)

(** Without padding. *)
Definition plain_view (c : chroma) (d w : Z) : view := {|
  arrangement := c; depth := d; luma_stride := d * w;
  chroma_stride := match c with Planar _ => d * (w `div` 2) | Pairs _ => d * w end
|}.

(** In the buffers of the video codec: luma rows of [w] samples, and the chroma
    rows of a planar format, for [v] luma samples, aligned to 16. *)
Definition codec_view (c : chroma) (d w v : Z) : view := {|
  arrangement := c; depth := d; luma_stride := d * w;
  chroma_stride := match c with Planar _ => roundup (v `div` 2) 16 | Pairs _ => d * w end
|}.

(** The picture that is copied and the two views of it. *)
Record conversion := { cv_width : Z; cv_height : Z; cv_src : view; cv_dst : view }.

Section conversion_of.
Context `{AndroidFormats}.

Definition P_formats : list Z :=
  [HAL_PIXEL_FORMAT_EXYNOS_YCbCr_420_P; HAL_PIXEL_FORMAT_EXYNOS_YCbCr_420_P_M; HAL_PIXEL_FORMAT_EXYNOS_YCbCr_420_PN].
Definition YV12_formats : list Z := [HAL_PIXEL_FORMAT_YV12; HAL_PIXEL_FORMAT_EXYNOS_YV12_M].
Definition SP_formats : list Z :=
  [HAL_PIXEL_FORMAT_EXYNOS_YCbCr_420_SP; HAL_PIXEL_FORMAT_EXYNOS_YCbCr_420_SP_M;
   HAL_PIXEL_FORMAT_EXYNOS_YCbCr_420_SP_M_PRIV; HAL_PIXEL_FORMAT_EXYNOS_YCbCr_420_SPN].
Definition VSP_formats : list Z := [HAL_PIXEL_FORMAT_YCrCb_420_SP; HAL_PIXEL_FORMAT_EXYNOS_YCrCb_420_SP_M].
Definition P010_formats : list Z := [HAL_PIXEL_FORMAT_YCBCR_P010; HAL_PIXEL_FORMAT_EXYNOS_YCbCr_P010_M].

(** The formats of an application, without padding; the codec pads the others. *)
Definition packed_formats : list Z :=
  [HAL_PIXEL_FORMAT_EXYNOS_YCbCr_420_P; HAL_PIXEL_FORMAT_YV12; HAL_PIXEL_FORMAT_EXYNOS_YCbCr_420_SP;
   HAL_PIXEL_FORMAT_YCrCb_420_SP; HAL_PIXEL_FORMAT_YCBCR_P010].

(** Arrangement and bytes per sample of a destination format. *)
Definition dst_class (f : Z) : option (chroma * Z) :=
  if decide (f ∈ P_formats) then Some (Planar false, 1)
  else if decide (f ∈ YV12_formats) then Some (Planar true, 1)
  else if decide (f ∈ SP_formats) then Some (Pairs false, 1)
  else if decide (f ∈ VSP_formats) then Some (Pairs true, 1)
  else if decide (f ∈ P010_formats) then Some (Pairs false, 2)
  else None.

(** A source may also be the luma and chroma part of a separated 10-bit format. *)
Definition src_class (f : Z) : option (chroma * Z) :=
  if decide (f = HAL_PIXEL_FORMAT_EXYNOS_YCbCr_420_SP_M_S10B) then Some (Pairs false, 1)
  else dst_class f.

(** A copy in the arrangement of the source, with codec padding added or removed when the
    source is a codec buffer. *)
Definition same_arrangement (handle : CSC_HANDLE) (c : chroma) (d : Z) : conversion :=
  let s := src_format handle in
  let cw := crop_width s in
  if mem_type (src_buffer handle) =? CSC_MEMORY_MFC then
    if decide (color_format s ∈ packed_formats) then
      let dw := width (dst_format handle) in
      {| cv_width := cw; cv_height := height s;
         cv_src := plain_view c d cw; cv_dst := codec_view c d dw dw |}
    else
      {| cv_width := cw; cv_height := crop_height s;
         cv_src := codec_view c d (width s) cw; cv_dst := plain_view c d cw |}
  else
    {| cv_width := width s; cv_height := height s;
       cv_src := plain_view c d (width s); cv_dst := plain_view c d (width s) |}.

(** The same arrangement is copied as it is; planes are merged to pairs in the order
    Cb, Cr, and pairs of either order are split to planes of either order. *)
Definition sw_conversion (handle : CSC_HANDLE) : option conversion :=
  let s := src_format handle in
  let sw := width s in
  let cw := crop_width s in
  match src_class (color_format s), dst_class (color_format (dst_format handle)) with
  | Some (c, d), Some (c', d') =>
      if decide (d <> d') then None
      else if decide (c = c') then
        Some (same_arrangement handle c d)
      else match c, c' with
      | Planar _, Pairs false =>
          Some {| cv_width := sw; cv_height := height s;
                  cv_src := plain_view c d sw; cv_dst := plain_view c' d sw |}
      | Pairs _, Planar _ =>
          Some {| cv_width := cw; cv_height := crop_height s;
                  cv_src := plain_view c d sw; cv_dst := plain_view c' d cw |}
      | _, _ => None
      end
  | _, _ => None
  end.

(** Pairs Cr-Cb are also copied to the private variant of the format with pairs Cb-Cr, in
    the order that they have: a conversion that exchanges Cb and Cr. *)
Definition exchanges_chroma (handle : CSC_HANDLE) : Prop :=
  color_format (src_format handle) ∈ VSP_formats /\
  color_format (dst_format handle) = HAL_PIXEL_FORMAT_EXYNOS_YCbCr_420_SP_M_PRIV.
End conversion_of.

(** The frames considered: at most 16384 samples wide and high, with even
    dimensions; a codec source of the same widths as its destination has no
    cropped columns. *)
Record frame_ok (handle : CSC_HANDLE) : Prop := {
  ok_width : 0 <= width (src_format handle) <= 16384;
  ok_height : 0 <= height (src_format handle) <= 16384;
  ok_crop_width : 0 <= crop_width (src_format handle) <= 16384;
  ok_crop_height : 0 <= crop_height (src_format handle) <= 16384;
  ok_dst_width : 0 <= width (dst_format handle) <= 16384;
  ok_even_width : width (src_format handle) `mod` 2 = 0;
  ok_even_height : height (src_format handle) `mod` 2 = 0;
  ok_even_crop : crop_width (src_format handle) `mod` 2 = 0;
  ok_same_widths : same_widths handle = true -> width (src_format handle) = crop_width (src_format handle)
}.

(** The samples of both views are mapped, and no two samples of the destination
    and no sample of the source share an address. *)
Record views_ok (m : mem) (P : sample -> Prop) (D S : sample -> Z) : Prop := {
  ok_mapped_dst : forall k, P k -> is_Some (m !! D k);
  ok_mapped_src : forall k, P k -> is_Some (m !! S k);
  ok_apart : forall k k', P k -> P k' -> D k <> S k';
  ok_distinct : forall k k', P k -> P k' -> D k = D k' -> k = k'
}.

Definition cv_picture (cv : conversion) : sample -> Prop :=
  picture (cv_width cv) (cv_height cv) (depth (cv_src cv)).
Definition cv_from (handle : CSC_HANDLE) (cv : conversion) : sample -> Z :=
  view_at (cv_src cv) (plane (src_buffer handle)).
Definition cv_to (handle : CSC_HANDLE) (cv : conversion) : sample -> Z :=
  view_at (cv_dst cv) (plane (dst_buffer handle)).

(** [p] copies the picture of the conversion and nothing else. *)
Definition carries_out (handle : CSC_HANDLE) (cv : conversion) (p : M CSC_ERRORCODE) : Prop :=
  forall m, views_ok m (cv_picture cv) (cv_to handle cv) (cv_from handle cv) ->
  exists m', p m = Some (CSC_ErrorNone, m') /\
    moved (cv_picture cv) (cv_to handle cv) (cv_from handle cv) m m'.

(** ** The steps of a conversion *)

Lemma row_set_eq d s n r s' n' r' a : row_set d s n r a -> s = s' -> n = n' -> r = r' -> row_set d s' n' r' a.
Proof. by intros H <- <- <-. Qed.

Lemma ALIGN_16 x : 0 <= x < 2 ^ 31 -> ALIGN x MFC_IMG_ALIGN_WIDTH = roundup x 16.
Proof.
  intros Hx. unfold ALIGN, MFC_IMG_ALIGN_WIDTH. rewrite (u32_small (x + 16)), (u32_small (x + 16 - 1)) by lia.
  change (16 - 1) with (Z.ones 4). rewrite land_not_mask by lia.
  unfold roundup. change (2 ^ 4) with 16. pose proof (Z.div_mod (x + 16 - 1) 16 ltac:(lia)). lia.
Qed.

Section one_conversion.
Context (handle : CSC_HANDLE) (cv : conversion) (m : mem).
Context (vok : views_ok m (cv_picture cv) (cv_to handle cv) (cv_from handle cv)).
Abbreviation w := (cv_width cv).
Abbreviation h := (cv_height cv).
Abbreviation d := (depth (cv_src cv)).
Abbreviation src_plane := (plane (src_buffer handle)).
Abbreviation dst_plane := (plane (dst_buffer handle)).
Abbreviation writes := (writes m (plan m (cv_picture cv) (cv_to handle cv) (cv_from handle cv))).
Context (d_pos : 0 < d) (same_depth : depth (cv_dst cv) = d).

(** The rows of the three planes that the conversion copies. *)
Abbreviation to := (rows_to (cv_picture cv) (cv_to handle cv) (cv_from handle cv)).

Lemma luma_rows ds ss n rows : ds = luma_stride (cv_dst cv) -> ss = luma_stride (cv_src cv) ->
  n = d * w -> rows = h -> to (dst_plane 0) ds (src_plane 0) ss n rows.
Proof using d_pos same_depth.
  intros -> -> -> -> y t Hy Ht. destruct (luma_byte w h d d_pos y t Hy Ht) as (k & Hk & E).
  exists k. split; [done|]. split; by apply E.
Qed.

Lemma planar_rows i f ds ss n rows : i = 1 \/ i = 2 ->
  arrangement (cv_src cv) = Planar f -> arrangement (cv_dst cv) = Planar f ->
  ds = chroma_stride (cv_dst cv) -> ss = chroma_stride (cv_src cv) ->
  n = d * (w `div` 2) -> rows = h `div` 2 -> to (dst_plane i) ds (src_plane i) ss n rows.
Proof using d_pos same_depth.
  intros Hi Hs Hd -> -> -> -> y t Hy Ht.
  destruct (planar_byte w h d d_pos i f y t Hi Hy Ht) as (k & Hk & E).
  exists k. split; [done|]. split; by apply E.
Qed.

Lemma pairs_rows f ds ss n rows :
  arrangement (cv_src cv) = Pairs f -> arrangement (cv_dst cv) = Pairs f ->
  ds = chroma_stride (cv_dst cv) -> ss = chroma_stride (cv_src cv) ->
  n = 2 * d * (w `div` 2) -> rows = h `div` 2 -> to (dst_plane 1) ds (src_plane 1) ss n rows.
Proof using d_pos same_depth.
  intros Hs Hd -> -> -> -> y t Hy Ht.
  destruct (pairs_byte w h d d_pos f y t Hy Ht) as (k & Hk & E).
  exists k. split; [done|]. split; by apply E.
Qed.

(** A program that writes every plane of the destination carries out the
    conversion. *)
Lemma carried_out p C : writes p CSC_ErrorNone C ->
  (forall k, cv_picture cv k -> C (cv_to handle cv k)) ->
  exists m', p m = Some (CSC_ErrorNone, m') /\
    moved (cv_picture cv) (cv_to handle cv) (cv_from handle cv) m m'.
Proof using vok.
  destruct vok as [V1 V2 V3 V4]. intros Hp HC. eapply plan_run; eauto.
  intros k k' Hk Hk' E. by rewrite (V4 k k').
Qed.

Lemma planar_covered f C : arrangement (cv_dst cv) = Planar f ->
  (forall a, row_set (dst_plane 0) (luma_stride (cv_dst cv)) (d * w) h a \/
     row_set (dst_plane 1) (chroma_stride (cv_dst cv)) (d * (w `div` 2)) (h `div` 2) a \/
     row_set (dst_plane 2) (chroma_stride (cv_dst cv)) (d * (w `div` 2)) (h `div` 2) a -> C a) ->
  forall k, cv_picture cv k -> C (cv_to handle cv k).
Proof using d_pos same_depth.
  intros Ha HC [[[c x] y] b] Hk. apply HC. destruct (decide (c = Luma)) as [->|Hc].
  - left. by apply (picture_luma w h d d_pos).
  - right. by apply (picture_planar w h d d_pos _ _ f).
Qed.

Lemma pairs_covered f C : arrangement (cv_dst cv) = Pairs f ->
  (forall a, row_set (dst_plane 0) (luma_stride (cv_dst cv)) (d * w) h a \/
     row_set (dst_plane 1) (chroma_stride (cv_dst cv)) (2 * d * (w `div` 2)) (h `div` 2) a -> C a) ->
  forall k, cv_picture cv k -> C (cv_to handle cv k).
Proof using d_pos same_depth.
  intros Ha HC [[[c x] y] b] Hk. apply HC. destruct (decide (c = Luma)) as [->|Hc].
  - left. by apply (picture_luma w h d d_pos).
  - right. by apply (picture_pairs w h d d_pos _ _ f).
Qed.
End one_conversion.

(** ** The programs of the branches *)

(** A whole frame of [w] by [h] pixels, or one cropped. *)
Definition same_size (w h : Z) (vs vd : view) : conversion :=
  {| cv_width := w; cv_height := h; cv_src := vs; cv_dst := vd |}.

(** Side conditions of the steps: equalities of strides and lengths. *)
Ltac strides := cbn [cv_dst cv_src cv_width cv_height plain_view codec_view same_size depth
  luma_stride chroma_stride arrangement]; first [reflexivity | lia].

(** The covered addresses are those of the steps. *)
Ltac pick Ha :=
  match goal with
  | |- _ \/ _ => first [left; pick Ha | right; pick Ha]
  | |- row_set _ _ _ _ _ => eapply row_set_eq; [exact Ha | first [reflexivity | lia]..]
  end.
Ltac covered :=
  cbn [cv_dst cv_src cv_width cv_height plain_view codec_view same_size depth
    luma_stride chroma_stride arrangement];
  intros a Ha; cbn beta; destruct_or? Ha; pick Ha.

Section programs.
Context `{AndroidFormats} (handle : CSC_HANDLE) (fok : frame_ok handle).
Abbreviation src := (src_format handle).
Abbreviation dst := (dst_format handle).
Abbreviation src_plane := (plane (src_buffer handle)).
Abbreviation dst_plane := (plane (dst_buffer handle)).

Lemma even_area w h : 0 <= w <= 16384 -> 0 <= h <= 16384 -> w `mod` 2 = 0 -> h `mod` 2 = 0 ->
  0 <= w * h <= 2 ^ 28 /\ w = 2 * (w `div` 2) /\ h = 2 * (h `div` 2) /\
  (w * h) `div` 4 = w `div` 2 * (h `div` 2) /\ (w * h) `div` 2 = w * (h `div` 2).
Proof.
  intros Hw Hh Ew Eh.
  assert (W : w = 2 * (w `div` 2)) by dlia. assert (E : h = 2 * (h `div` 2)) by dlia.
  set (a := w `div` 2) in *. set (b := h `div` 2) in *. split; [nia|]. do 2 (split; [done|]).
  rewrite W, E. split.
  - replace (2 * a * (2 * b)) with (a * b * 4) by lia. apply Z.div_mul. lia.
  - replace (2 * a * (2 * b)) with (2 * a * b * 2) by lia. apply Z.div_mul. lia.
Qed.

Lemma copy_planar_ok f :
  let v := plain_view (Planar f) 1 (width src) in
  carries_out handle (same_size (width src) (height src) v v) (copy_planar handle ;! ret CSC_ErrorNone).
Proof.
  destruct fok. intros v m vok; subst v.
  destruct (even_area (width src) (height src)) as (A & W & E & A4 & A2); try done.
  unfold copy_planar. shifts. rewrite u32_small, A4 by lia.
  destruct (vok) as [V1 V2 V3 V4].
  eapply carried_out; [done| |].
  - apply writes_seq; [|apply writes_ret].
    apply writes_seq; [|apply writes_seq].
    + apply writes_block with (n := width src) (rows := height src); try done; [|lia].
      eapply luma_rows; try done; strides.
    + apply writes_block with (n := width src `div` 2) (rows := height src `div` 2); try done; [|lia].
      eapply planar_rows with (i := 1) (f := f); try done; first [by left | strides].
    + apply writes_block with (n := width src `div` 2) (rows := height src `div` 2); try done; [|lia].
      eapply planar_rows with (i := 2) (f := f); try done; first [by right | strides].
  - eapply planar_covered with (f := f); [done..|]. covered.
Qed.

Lemma copy_semi_ok f :
  let v := plain_view (Pairs f) 1 (width src) in
  carries_out handle (same_size (width src) (height src) v v) (copy_semi handle ;! ret CSC_ErrorNone).
Proof.
  destruct fok. intros v m vok; subst v.
  destruct (even_area (width src) (height src)) as (A & W & E & A4 & A2); try done.
  unfold copy_semi. shifts. rewrite u32_small, A2 by lia.
  destruct (vok) as [V1 V2 V3 V4].
  eapply carried_out; [done| |].
  - apply writes_seq; [|apply writes_ret]. apply writes_seq.
    + apply writes_block with (n := width src) (rows := height src); try done; [|lia].
      eapply luma_rows; try done; strides.
    + apply writes_block with (n := width src) (rows := height src `div` 2); try done; [|lia].
      eapply pairs_rows with (f := f); try done; strides.
  - eapply pairs_covered with (f := f); [done..|]. covered.
Qed.

Lemma copy_P010_ok f :
  let v := plain_view (Pairs f) 2 (width src) in
  carries_out handle (same_size (width src) (height src) v v)
    (memcpy (dst_plane CSC_Y_PLANE) (src_plane CSC_Y_PLANE) ((width src ^* 2) ^* height src) ;!
     memcpy (dst_plane CSC_UV_PLANE) (src_plane CSC_UV_PLANE) (((width src ^* 2) ^* height src) ≫ 1) ;!
     ret CSC_ErrorNone).
Proof.
  destruct fok. intros v m vok; subst v.
  destruct (even_area (width src) (height src)) as (A & W & E & A4 & A2); try done.
  shifts. rewrite (u32_small (width src * 2)), u32_small by nia.
  replace ((width src * 2 * height src) `div` 2) with (2 * width src * (height src `div` 2)) 
    by (rewrite <- (Z.div_mul (2 * width src * (height src `div` 2)) 2) by lia; f_equal; lia).
  destruct (vok) as [V1 V2 V3 V4].
  eapply carried_out; [done| |].
  - apply writes_seq; [|apply writes_seq; [|apply writes_ret]].
    + apply writes_block with (n := 2 * width src) (rows := height src); try done; [|lia..].
      eapply luma_rows; try done; strides.
    + apply writes_block with (n := 2 * width src) (rows := height src `div` 2); try done; [|lia].
      eapply pairs_rows with (f := f); try done; strides.
  - eapply pairs_covered with (f := f); [done..|]. covered.
Qed.

(** Removing the padding of the codec. *)
Abbreviation decode c d :=
  (same_size (crop_width src) (crop_height src)
     (codec_view c d (width src) (crop_width src)) (plain_view c d (crop_width src))).

(** Adding it. *)
Abbreviation encode c d :=
  (same_size (crop_width src) (height src)
     (plain_view c d (crop_width src)) (codec_view c d (width dst) (width dst))).

Lemma decode_planar_ok f :
  carries_out handle (decode (Planar f) 1)
    (copy_rows (crop_height src) (dst_plane CSC_Y_PLANE) (crop_width src)
       (src_plane CSC_Y_PLANE) (width src) (crop_width src) ;!
     copy_rows (crop_height src ≫ 1) (dst_plane CSC_U_PLANE) (crop_width src ≫ 1)
       (src_plane CSC_U_PLANE) (ALIGN (crop_width src ≫ 1) MFC_IMG_ALIGN_WIDTH) (crop_width src ≫ 1) ;!
     copy_rows (crop_height src ≫ 1) (dst_plane CSC_V_PLANE) (crop_width src ≫ 1)
       (src_plane CSC_V_PLANE) (ALIGN (crop_width src ≫ 1) MFC_IMG_ALIGN_WIDTH) (crop_width src ≫ 1) ;!
     ret CSC_ErrorNone).
Proof.
  destruct fok. intros m vok. shifts.
  assert (B : 0 <= crop_width src `div` 2 <= 8192 /\ 0 <= crop_height src `div` 2 <= 8192) by dlia.
  pose proof (roundup_bounds (crop_width src `div` 2) 16 ltac:(lia)).
  rewrite ALIGN_16 by lia. destruct (vok) as [V1 V2 V3 V4].
  eapply carried_out; [done| |].
  - apply writes_seq; [|apply writes_seq; [|apply writes_seq; [|apply writes_ret]]].
    + apply writes_copy_rows; try done; [|lia..]. eapply luma_rows; try done; strides.
    + apply writes_copy_rows; try done; [|lia..].
      eapply planar_rows with (i := 1) (f := f); try done; first [by left | strides].
    + apply writes_copy_rows; try done; [|lia..].
      eapply planar_rows with (i := 2) (f := f); try done; first [by right | strides].
  - eapply planar_covered with (f := f); [done..|]. covered.
Qed.

Lemma decode_pairs_ok f d n sn : n = d * crop_width src -> sn = d * width src -> d = 1 \/ d = 2 ->
  carries_out handle (decode (Pairs f) d)
    (copy_rows (crop_height src) (dst_plane CSC_Y_PLANE) n (src_plane CSC_Y_PLANE) sn n ;!
     copy_rows (crop_height src ≫ 1) (dst_plane CSC_UV_PLANE) n (src_plane CSC_UV_PLANE) sn n ;!
     ret CSC_ErrorNone).
Proof.
  destruct fok. intros -> -> Hd m vok. shifts.
  assert (B : 0 <= crop_height src `div` 2 <= 8192) by dlia.
  assert (W : d * crop_width src = 2 * d * (crop_width src `div` 2)) by (clear -ok_even_crop0; dnia).
  destruct (vok) as [V1 V2 V3 V4].
  eapply carried_out; [done| |].
  - apply writes_seq; [|apply writes_seq; [|apply writes_ret]].
    + apply writes_copy_rows; try done; [|lia..]. eapply luma_rows; try done; strides.
    + apply writes_copy_rows; try done; [|lia..]. eapply pairs_rows with (f := f); try done; strides.
  - eapply pairs_covered with (f := f); [strides|done|done|]. covered.
Qed.

(** The luma plane of an encoded frame, in one block when no padding is added. *)
Lemma encode_luma c d m len n dn : d = 1 \/ d = 2 ->
  views_ok m (cv_picture (encode c d)) (cv_to handle (encode c d)) (cv_from handle (encode c d)) ->
  len = d * width src * height src -> n = d * crop_width src -> dn = d * width dst ->
  writes m (plan m (cv_picture (encode c d)) (cv_to handle (encode c d)) (cv_from handle (encode c d)))
    (if same_widths handle then memcpy (dst_plane CSC_Y_PLANE) (src_plane CSC_Y_PLANE) len
     else copy_rows (height src) (dst_plane CSC_Y_PLANE) dn (src_plane CSC_Y_PLANE) n n) tt
    (row_set (dst_plane 0) (d * width dst) (d * crop_width src) (height src)).
Proof.
  destruct fok. intros Hd [V1 V2 V3 V4] -> -> ->. destruct (same_widths handle) eqn:E.
  - specialize (ok_same_widths0 eq_refl). unfold same_widths in E.
    apply andb_prop in E as [E%Z.eqb_eq _].
    assert (Ew : d * crop_width src = d * width dst) by congruence.
    eapply writes_weaken.
    + apply writes_block with (n := d * crop_width src) (rows := height src); try done; [| |lia].
      * eapply luma_rows; try done; strides.
      * by rewrite ok_same_widths0.
    + intros a Ha. by rewrite Ew in Ha |- *.
  - apply writes_copy_rows; try done; [|lia..]. eapply luma_rows; try done; strides.
Qed.

Lemma encode_planar_ok f :
  carries_out handle (encode (Planar f) 1)
    ((if same_widths handle then
        memcpy (dst_plane CSC_Y_PLANE) (src_plane CSC_Y_PLANE) (width src ^* height src)
      else
        copy_rows (height src) (dst_plane CSC_Y_PLANE) (width dst)
          (src_plane CSC_Y_PLANE) (crop_width src) (crop_width src)) ;!
     copy_rows (height src ≫ 1) (dst_plane CSC_U_PLANE) (ALIGN (width dst ≫ 1) MFC_IMG_ALIGN_WIDTH)
       (src_plane CSC_U_PLANE) (crop_width src ≫ 1) (crop_width src ≫ 1) ;!
     copy_rows (height src ≫ 1) (dst_plane CSC_V_PLANE) (ALIGN (width dst ≫ 1) MFC_IMG_ALIGN_WIDTH)
       (src_plane CSC_V_PLANE) (crop_width src ≫ 1) (crop_width src ≫ 1) ;!
     ret CSC_ErrorNone).
Proof.
  intros m vok. pose proof (fun n => encode_luma (Planar f) 1 m _ n (1 * width dst) (or_introl eq_refl) vok eq_refl) as L.
  destruct fok. shifts.
  destruct (even_area (width src) (height src)) as (A & _); try done.
  assert (B : 0 <= width dst `div` 2 <= 8192 /\ 0 <= height src `div` 2 <= 8192 /\
    0 <= crop_width src `div` 2 <= 8192) by dlia.
  pose proof (roundup_bounds (width dst `div` 2) 16 ltac:(lia)).
  rewrite ALIGN_16, u32_small by lia. destruct (vok) as [V1 V2 V3 V4].
  eapply carried_out; [done| |].
  - apply writes_seq; [|apply writes_seq; [|apply writes_seq; [|apply writes_ret]]].
    + specialize (L _ eq_refl eq_refl). rewrite !Z.mul_1_l in L. exact L.
    + apply writes_copy_rows; try done; [|lia..].
      eapply planar_rows with (i := 1) (f := f); try done; first [by left | strides].
    + apply writes_copy_rows; try done; [|lia..].
      eapply planar_rows with (i := 2) (f := f); try done; first [by right | strides].
  - eapply planar_covered with (f := f); [done..|]. covered.
Qed.

Lemma encode_pairs_ok f d len clen n dn : d = 1 \/ d = 2 ->
  len = d * width src * height src -> clen = d * width src * (height src `div` 2) ->
  n = d * crop_width src -> dn = d * width dst ->
  carries_out handle (encode (Pairs f) d)
    ((if same_widths handle then
        memcpy (dst_plane CSC_Y_PLANE) (src_plane CSC_Y_PLANE) len ;!
        memcpy (dst_plane CSC_UV_PLANE) (src_plane CSC_UV_PLANE) clen
      else
        copy_rows (height src) (dst_plane CSC_Y_PLANE) dn (src_plane CSC_Y_PLANE) n n ;!
        copy_rows (height src ≫ 1) (dst_plane CSC_UV_PLANE) dn (src_plane CSC_UV_PLANE) n n) ;!
     ret CSC_ErrorNone).
Proof.
  intros Hd -> -> -> -> m vok.
  pose proof (encode_luma (Pairs f) d m _ _ _ Hd vok eq_refl eq_refl eq_refl) as L.
  destruct fok. shifts.
  assert (B : 0 <= height src `div` 2 <= 8192) by dlia.
  assert (W : d * crop_width src = 2 * d * (crop_width src `div` 2)) by (clear -ok_even_crop0; dnia).
  destruct (vok) as [V1 V2 V3 V4].
  set (C := fun a =>
    (row_set (dst_plane 0) (d * width dst) (d * crop_width src) (height src) a \/
     row_set (dst_plane 1) (d * width dst) (d * crop_width src) (height src `div` 2) a) \/ False).
  eapply carried_out with (C := C); [done| |].
  - apply writes_seq; [|apply writes_ret]. destruct (same_widths handle) eqn:E.
    + apply writes_seq; [done|].
      specialize (ok_same_widths0 eq_refl). unfold same_widths in E.
      apply andb_prop in E as [E%Z.eqb_eq _].
      assert (Ew : d * crop_width src = d * width dst) by congruence.
      eapply writes_weaken.
      * apply writes_block with (n := d * crop_width src) (rows := height src `div` 2); try done; [| |lia].
        -- eapply pairs_rows with (f := f); try done; strides.
        -- by rewrite ok_same_widths0.
      * intros a Ha. by rewrite Ew in Ha |- *.
    + apply writes_seq; [done|]. apply writes_copy_rows; try done; [|lia..].
      eapply pairs_rows with (f := f); try done; strides.
  - eapply pairs_covered with (f := f) (C := C); [strides|done|done|]. unfold C. covered.
Qed.
End programs.

(** ** Changes of arrangement *)

Section rearranging.
Context `{AndroidFormats} (handle : CSC_HANDLE) (fok : frame_ok handle).
Abbreviation src := (src_format handle).
Abbreviation dst := (dst_format handle).
Abbreviation src_plane := (plane (src_buffer handle)).
Abbreviation dst_plane := (plane (dst_buffer handle)).

Lemma merge_ok (f : bool) s1 s2 : s1 = (if f then 2 else 1) -> s2 = (if f then 1 else 2) ->
  carries_out handle
    (same_size (width src) (height src) (plain_view (Planar f) 1 (width src)) (plain_view (Pairs false) 1 (width src)))
    (memcpy (dst_plane CSC_Y_PLANE) (src_plane CSC_Y_PLANE) (width src ^* height src) ;!
     csc_interleave_memcpy (dst_plane CSC_UV_PLANE) (src_plane s1) (src_plane s2)
       ((width src ^* height src) ≫ 2) ;!
     ret CSC_ErrorNone).
Proof.
  destruct fok. intros E1 E2 m vok.
  destruct (even_area (width src) (height src)) as (A & W & E & A4 & A2); try done.
  shifts. rewrite u32_small, A4 by lia.
  assert (B : 0 <= width src `div` 2 <= 8192 /\ 0 <= height src `div` 2 <= 8192) by lia.
  destruct (vok) as [V1 V2 V3 V4].
  eapply carried_out; [done| |].
  - apply writes_seq; [|apply writes_seq; [|apply writes_ret]].
    + apply writes_block with (n := width src) (rows := height src); try done; [|lia].
      eapply luma_rows; try done; strides.
    + apply writes_merge; try done; [|lia|nia]. intros x y Hx Hy. split.
      * exists (Cb, x, y, 0). split; [simpl; lia|]. subst s1.
        destruct f; unfold cv_to, cv_from, CSC_UV_PLANE; simpl; split; lia.
      * exists (Cr, x, y, 0). split; [simpl; lia|]. subst s2.
        destruct f; unfold cv_to, cv_from, CSC_UV_PLANE; simpl; split; lia.
  - eapply pairs_covered with (f := false); [done..|]. covered.
Qed.

Lemma split_ok (f f' : bool) iu iv : iu = (if xorb f f' then 1 else 0) -> iv = 1 - iu ->
  carries_out handle
    (same_size (crop_width src) (crop_height src)
       (plain_view (Pairs f) 1 (width src)) (plain_view (Planar f') 1 (crop_width src)))
    (split_rows handle iu iv ;! ret CSC_ErrorNone).
Proof.
  destruct fok. intros Eu Ev m vok.
  assert (B : 0 <= crop_height src `div` 2 <= 8192 /\ 0 <= crop_width src `div` 2 <= 8192) by dlia.
  destruct (vok) as [V1 V2 V3 V4]. unfold split_rows. cbv zeta.
  eapply carried_out; [done| |].
  - apply writes_seq; [|apply writes_ret]. apply writes_seq.
    + apply writes_copy_rows; try done; [|lia..]. eapply luma_rows; try done; strides.
    + rewrite (shr_div 1 2 (crop_height src)) by (first [lia | reflexivity]).
      apply writes_split with (n := crop_width src `div` 2); try done; try lia; [destruct (xorb f f'); lia..|].
      intros x y Hx Hy. split.
      * exists (if f' then Cr else Cb, x, y, 0). split; [destruct f'; simpl; lia|]. subst iu.
        destruct f, f'; unfold cv_to, cv_from, CSC_UV_PLANE, CSC_U_PLANE; simpl; split; lia.
      * exists (if f' then Cb else Cr, x, y, 0). split; [destruct f'; simpl; lia|]. subst iv iu.
        destruct f, f'; unfold cv_to, cv_from, CSC_UV_PLANE, CSC_V_PLANE; simpl; split; lia.
  - eapply planar_covered with (f := f'); [done..|]. covered.
Qed.
End rearranging.
