(* ===== verification/CscDispatch.v ===== *)
(** * Colour space converter: the software path as a whole

    Which conversion [conv_sw] performs for each pair of formats. *)

From S2P Require Import Prelude CMem Interleave Tile16 Tile16Yuv Rgb PixelFormats CscData CscSw CscPicture.

(** ** The branches taken *)

#[local] Set Warnings "-clear-no-such-hyp".

Section branches.
Context `{AndroidFormatsLaws} (handle : CSC_HANDLE).
Abbreviation s := (color_format (src_format handle)).
Abbreviation t := (color_format (dst_format handle)).

Lemma conv_sw_P : s ∈ P_formats -> conv_sw handle = conv_sw_src_yuv420p handle.
Proof. intros Hs. unfold conv_sw. by_switch P_formats Hs. Qed.
Lemma conv_sw_YV12 : s ∈ YV12_formats -> conv_sw handle = conv_sw_src_yvu420p handle.
Proof. intros Hs. unfold conv_sw. by_switch YV12_formats Hs. Qed.
Lemma conv_sw_VSP : s ∈ VSP_formats -> conv_sw handle = conv_sw_src_yvu420sp handle.
Proof. intros Hs. unfold conv_sw. by_switch VSP_formats Hs. Qed.
Lemma conv_sw_P010 : s ∈ P010_formats -> conv_sw handle = conv_sw_src_yuvP010 handle.
Proof. intros Hs. unfold conv_sw. by_switch P010_formats Hs. Qed.
Lemma conv_sw_SP : s ∈ SP_formats \/ s = HAL_PIXEL_FORMAT_EXYNOS_YCbCr_420_SP_M_S10B ->
  conv_sw handle = conv_sw_src_yuv420sp handle.
Proof.
  intros Hs. unfold conv_sw.
  assert (Hs' : s ∈ [HAL_PIXEL_FORMAT_EXYNOS_YCbCr_420_SP; HAL_PIXEL_FORMAT_EXYNOS_YCbCr_420_SP_M;
       HAL_PIXEL_FORMAT_EXYNOS_YCbCr_420_SP_M_PRIV; HAL_PIXEL_FORMAT_EXYNOS_YCbCr_420_SP_M_S10B;
       HAL_PIXEL_FORMAT_EXYNOS_YCbCr_420_SPN]) by (unfold SP_formats in Hs; set_solver).
  match type of Hs' with _ ∈ ?ls => by_switch ls Hs' end.
Qed.

Abbreviation by_mfc p q := (if mem_type (src_buffer handle) =? CSC_MEMORY_MFC then p else q).

Lemma yuv420p_P : t ∈ P_formats -> conv_sw_src_yuv420p handle =
  by_mfc (copy_mfc_data handle) (copy_planar handle ;! ret CSC_ErrorNone).
Proof. intros Ht. unfold conv_sw_src_yuv420p. by_switch P_formats Ht. Qed.
Lemma yvu420p_YV12 : t ∈ YV12_formats -> conv_sw_src_yvu420p handle =
  by_mfc (copy_mfc_data handle) (copy_planar handle ;! ret CSC_ErrorNone).
Proof. intros Ht. unfold conv_sw_src_yvu420p. by_switch YV12_formats Ht. Qed.
Lemma yuv420sp_SP : t ∈ SP_formats -> conv_sw_src_yuv420sp handle =
  by_mfc (copy_mfc_data handle) (copy_semi handle ;! ret CSC_ErrorNone).
Proof. intros Ht. unfold conv_sw_src_yuv420sp. by_switch SP_formats Ht. Qed.
Lemma yvu420sp_VSP : t ∈ VSP_formats \/ t = HAL_PIXEL_FORMAT_EXYNOS_YCbCr_420_SP_M_PRIV ->
  conv_sw_src_yvu420sp handle = by_mfc (copy_mfc_data handle) (copy_semi handle ;! ret CSC_ErrorNone).
Proof.
  intros Ht. unfold conv_sw_src_yvu420sp.
  assert (Ht' : t ∈ [HAL_PIXEL_FORMAT_YCrCb_420_SP; HAL_PIXEL_FORMAT_EXYNOS_YCrCb_420_SP_M;
       HAL_PIXEL_FORMAT_EXYNOS_YCbCr_420_SP_M_PRIV]) by (unfold VSP_formats in Ht; set_solver).
  match type of Ht' with _ ∈ ?ls => by_switch ls Ht' end.
Qed.
Lemma yuv420sp_P : t ∈ P_formats -> conv_sw_src_yuv420sp handle = (split_rows handle 0 1 ;! ret CSC_ErrorNone).
Proof. intros Ht. unfold conv_sw_src_yuv420sp. by_switch P_formats Ht. Qed.
Lemma yuv420sp_YV12 : t ∈ YV12_formats -> conv_sw_src_yuv420sp handle = (split_rows handle 1 0 ;! ret CSC_ErrorNone).
Proof. intros Ht. unfold conv_sw_src_yuv420sp. by_switch YV12_formats Ht. Qed.
Lemma yvu420sp_P : t ∈ P_formats -> conv_sw_src_yvu420sp handle = (split_rows handle 1 0 ;! ret CSC_ErrorNone).
Proof. intros Ht. unfold conv_sw_src_yvu420sp. by_switch P_formats Ht. Qed.
Lemma yvu420sp_YV12 : t ∈ YV12_formats -> conv_sw_src_yvu420sp handle = (split_rows handle 0 1 ;! ret CSC_ErrorNone).
Proof. intros Ht. unfold conv_sw_src_yvu420sp. by_switch YV12_formats Ht. Qed.
Lemma P010_P010 : t ∈ P010_formats -> conv_sw_src_yuvP010 handle =
  by_mfc (copy_mfc_data handle)
    (memcpy (plane (dst_buffer handle) CSC_Y_PLANE) (plane (src_buffer handle) CSC_Y_PLANE)
       ((width (src_format handle) ^* 2) ^* height (src_format handle)) ;!
     memcpy (plane (dst_buffer handle) CSC_UV_PLANE) (plane (src_buffer handle) CSC_UV_PLANE)
       (((width (src_format handle) ^* 2) ^* height (src_format handle)) ≫ 1) ;!
     ret CSC_ErrorNone).
Proof. intros Ht. unfold conv_sw_src_yuvP010. by_switch P010_formats Ht. Qed.
Lemma yuv420p_SP : t ∈ SP_formats -> conv_sw_src_yuv420p handle =
  (memcpy (plane (dst_buffer handle) CSC_Y_PLANE) (plane (src_buffer handle) CSC_Y_PLANE)
     (width (src_format handle) ^* height (src_format handle)) ;!
   csc_interleave_memcpy (plane (dst_buffer handle) CSC_UV_PLANE)
     (plane (src_buffer handle) 1) (plane (src_buffer handle) 2)
     ((width (src_format handle) ^* height (src_format handle)) ≫ 2) ;!
   ret CSC_ErrorNone).
Proof. intros Ht. unfold conv_sw_src_yuv420p. by_switch SP_formats Ht. Qed.
Lemma yvu420p_SP : t ∈ SP_formats -> conv_sw_src_yvu420p handle =
  (memcpy (plane (dst_buffer handle) CSC_Y_PLANE) (plane (src_buffer handle) CSC_Y_PLANE)
     (width (src_format handle) ^* height (src_format handle)) ;!
   csc_interleave_memcpy (plane (dst_buffer handle) CSC_UV_PLANE)
     (plane (src_buffer handle) 2) (plane (src_buffer handle) 1)
     ((width (src_format handle) ^* height (src_format handle)) ≫ 2) ;!
   ret CSC_ErrorNone).
Proof. intros Ht. unfold conv_sw_src_yvu420p. by_switch SP_formats Ht. Qed.
End branches.

(** Formats of two disjoint lists. *)
Lemma disjoint_labels (x : Z) (l1 l2 : list Z) : NoDup (labels [(l1, tt); (l2, tt)]) -> x ∈ l1 -> x ∉ l2.
Proof.
  unfold labels. simpl. rewrite app_nil_r. intros (_ & Hd & _)%NoDup_app. apply Hd.
Qed.

(** ** The copy of a codec buffer *)

Section codec.
Context `{AndroidFormatsLaws} (handle : CSC_HANDLE) (fok : frame_ok handle).
Abbreviation src := (src_format handle).
Abbreviation s := (color_format src).
Abbreviation cv_of c d := (
  if decide (s ∈ packed_formats) then
    {| cv_width := crop_width src; cv_height := height src;
       cv_src := plain_view c d (crop_width src);
       cv_dst := codec_view c d (width (dst_format handle)) (width (dst_format handle)) |}
  else
    {| cv_width := crop_width src; cv_height := crop_height src;
       cv_src := codec_view c d (width src) (crop_width src); cv_dst := plain_view c d (crop_width src) |}).

Lemma not_packed : s ∈ [HAL_PIXEL_FORMAT_EXYNOS_YCbCr_420_P_M; HAL_PIXEL_FORMAT_EXYNOS_YCbCr_420_PN;
    HAL_PIXEL_FORMAT_EXYNOS_YV12_M; HAL_PIXEL_FORMAT_EXYNOS_YCbCr_420_SP_M;
    HAL_PIXEL_FORMAT_EXYNOS_YCbCr_420_SP_M_PRIV; HAL_PIXEL_FORMAT_EXYNOS_YCbCr_420_SP_M_S10B;
    HAL_PIXEL_FORMAT_EXYNOS_YCbCr_420_SPN; HAL_PIXEL_FORMAT_EXYNOS_YCrCb_420_SP_M;
    HAL_PIXEL_FORMAT_EXYNOS_YCbCr_P010_M] -> s ∉ packed_formats.
Proof. intros Hs. eapply disjoint_labels; [|exact Hs]. unfold packed_formats. labels_distinct. Qed.

Lemma carries_case cv ls p (cases : list (list Z * M CSC_ERRORCODE)) d : NoDup (labels cases) -> (ls, p) ∈ cases -> s ∈ ls ->
  carries_out handle cv p -> carries_out handle cv (switch s cases d).
Proof. intros Hn Hc Hs Hp. by rewrite (switch_case s ls p cases d). Qed.

Lemma mfc_planar (f : bool) : s ∈ (if f then YV12_formats else P_formats) ->
  carries_out handle (cv_of (Planar f) 1) (copy_mfc_data handle).
Proof.
  intros Hs. unfold copy_mfc_data. destruct (decide (s ∈ packed_formats)) as [Hp|Hp].
  - eapply carries_case with (ls := [HAL_PIXEL_FORMAT_EXYNOS_YCbCr_420_P; HAL_PIXEL_FORMAT_YV12]);
      [labels_distinct|find_case| |by apply encode_planar_ok].
    pose proof not_packed. destruct f; unfold YV12_formats, P_formats in Hs; set_solver.
  - eapply carries_case with (ls := [HAL_PIXEL_FORMAT_EXYNOS_YCbCr_420_P_M;
      HAL_PIXEL_FORMAT_EXYNOS_YCbCr_420_PN; HAL_PIXEL_FORMAT_EXYNOS_YV12_M]);
      [labels_distinct|find_case| |by apply decode_planar_ok].
    unfold packed_formats in Hp. destruct f; unfold YV12_formats, P_formats in Hs; set_solver.
Qed.

Lemma mfc_pairs (f : bool) : s ∈ (if f then VSP_formats else SP_formats) \/
    f = false /\ s = HAL_PIXEL_FORMAT_EXYNOS_YCbCr_420_SP_M_S10B ->
  carries_out handle (cv_of (Pairs f) 1) (copy_mfc_data handle).
Proof.
  intros Hs. unfold copy_mfc_data. destruct fok.
  destruct (even_area (width src) (height src)) as (A & W & E & _); try done.
  destruct (decide (s ∈ packed_formats)) as [Hp|Hp].
  - eapply carries_case with (ls := [HAL_PIXEL_FORMAT_EXYNOS_YCbCr_420_SP; HAL_PIXEL_FORMAT_YCrCb_420_SP]);
      [labels_distinct|find_case| |].
    + pose proof not_packed. destruct f; unfold VSP_formats, SP_formats in Hs; set_solver.
    + assert (0 <= height src `div` 2 <= height src) by lia.
      apply encode_pairs_ok; try done; try lia; rewrite ?(shr_div 1 2 (height src)), u32_small by (done || nia); lia.
  - eapply carries_case with (ls := [HAL_PIXEL_FORMAT_EXYNOS_YCbCr_420_SP_M; HAL_PIXEL_FORMAT_EXYNOS_YCbCr_420_SP_M_PRIV;
       HAL_PIXEL_FORMAT_EXYNOS_YCbCr_420_SP_M_S10B; HAL_PIXEL_FORMAT_EXYNOS_YCbCr_420_SPN;
       HAL_PIXEL_FORMAT_EXYNOS_YCrCb_420_SP_M]); [labels_distinct|find_case| |].
    + unfold packed_formats in Hp. destruct f; unfold VSP_formats, SP_formats in Hs; set_solver.
    + apply decode_pairs_ok; try done; lia.
Qed.

Lemma mfc_P010 : s ∈ P010_formats -> carries_out handle (cv_of (Pairs false) 2) (copy_mfc_data handle).
Proof.
  intros Hs. unfold copy_mfc_data. destruct fok.
  destruct (even_area (width src) (height src)) as (A & W & E & _); try done.
  destruct (decide (s ∈ packed_formats)) as [Hp|Hp].
  - eapply carries_case with (ls := [HAL_PIXEL_FORMAT_YCBCR_P010]); [labels_distinct|find_case| |].
    + pose proof not_packed. unfold P010_formats in Hs; set_solver.
    + assert (0 <= height src `div` 2 <= height src) by lia.
      rewrite (u32_small (width src * 2)), (u32_small (crop_width src * 2)), (u32_small (width (dst_format handle) * 2)) by lia.
      apply encode_pairs_ok; try done; try lia; rewrite ?(shr_div 1 2 (height src)), u32_small by (done || nia); lia.
  - eapply carries_case with (ls := [HAL_PIXEL_FORMAT_EXYNOS_YCbCr_P010_M]); [labels_distinct|find_case| |].
    + unfold packed_formats in Hp. unfold P010_formats in Hs; set_solver.
    + rewrite (u32_small (width src * 2)), (u32_small (crop_width src * 2)) by lia.
      apply decode_pairs_ok; try done; lia.
Qed.
End codec.

(** ** Conversions between YUV formats *)

Section yuv.
Context `{AndroidFormatsLaws} (handle : CSC_HANDLE) (fok : frame_ok handle).
Abbreviation s := (color_format (src_format handle)).
Abbreviation t := (color_format (dst_format handle)).

(** The formats of a class. *)
Lemma dst_class_formats f c d : dst_class f = Some (c, d) ->
  match c, d with
  | Planar b, 1 => f ∈ (if b then YV12_formats else P_formats)
  | Pairs b, 1 => f ∈ (if b then VSP_formats else SP_formats)
  | Pairs false, 2 => f ∈ P010_formats
  | _, _ => False
  end.
Proof. unfold dst_class. repeat case_decide; intros [= <- <-]; done. Qed.

Lemma src_class_formats f c d : src_class f = Some (c, d) ->
  match c, d with
  | Planar b, 1 => f ∈ (if b then YV12_formats else P_formats)
  | Pairs b, 1 => f ∈ (if b then VSP_formats else SP_formats) \/
                  b = false /\ f = HAL_PIXEL_FORMAT_EXYNOS_YCbCr_420_SP_M_S10B
  | Pairs false, 2 => f ∈ P010_formats
  | _, _ => False
  end.
Proof.
  unfold src_class. case_decide; [by intros [= <- <-]; auto|].
  intros Hd%dst_class_formats. destruct c as [[]|[]], d as [|[p|[q|q|]|]|]; try done; auto.
Qed.

Lemma conv_sw_run cv : sw_conversion handle = Some cv -> carries_out handle cv (conv_sw handle).
Proof.
  unfold sw_conversion. intros E. destruct (src_class s) as [[c d]|] eqn:Es; [|done].
  destruct (dst_class t) as [[c' d']|] eqn:Et; [|done].
  case_decide as Hd; [done|]. subst d'.
  apply src_class_formats in Es. apply dst_class_formats in Et. revert E.
  case_decide as Hc.
  - subst c'. intros [= <-]. unfold same_arrangement.
    destruct c as [[]|[]], d as [|[p|[q|q|]|]|]; try done.
    + rewrite conv_sw_YV12, yvu420p_YV12 by done. destruct (_ =? _); [by apply (mfc_planar handle fok true)|by apply copy_planar_ok].
    + rewrite conv_sw_P, yuv420p_P by done. destruct (_ =? _); [by apply (mfc_planar handle fok false)|by apply copy_planar_ok].
    + destruct Es as [Es|[? _]]; [|done].
      rewrite conv_sw_VSP, yvu420sp_VSP by auto. destruct (_ =? _); [apply (mfc_pairs handle fok true); auto|by apply copy_semi_ok].
    + rewrite conv_sw_P010, P010_P010 by done. destruct (_ =? _); [by apply mfc_P010|by apply copy_P010_ok].
    + rewrite conv_sw_SP, yuv420sp_SP by (done || tauto). destruct (_ =? _); [apply (mfc_pairs handle fok false); tauto|by apply copy_semi_ok].
  - intros E. destruct c as [[]|[]], c' as [[]|[]], d as [|[p|[q|q|]|]|]; try done; injection E as <-.
    + rewrite conv_sw_YV12, yvu420p_SP by done. by apply (merge_ok handle fok true).
    + rewrite conv_sw_P, yuv420p_SP by done. by apply (merge_ok handle fok false).
    + rewrite conv_sw_VSP, yvu420sp_YV12 by naive_solver. by apply (split_ok handle fok true true).
    + rewrite conv_sw_VSP, yvu420sp_P by naive_solver. by apply (split_ok handle fok true false).
    + rewrite conv_sw_SP, yuv420sp_YV12 by naive_solver. by apply (split_ok handle fok false true).
    + rewrite conv_sw_SP, yuv420sp_P by naive_solver. by apply (split_ok handle fok false false).
Qed.
End yuv.

(** The exception: the arrangement of the source is kept. *)
Section exchange.
Context `{AndroidFormatsLaws} (handle : CSC_HANDLE) (fok : frame_ok handle).

Lemma conv_sw_exchange : exchanges_chroma handle -> carries_out handle (same_arrangement handle (Pairs true) 1) (conv_sw handle).
Proof using All.
  intros [Hs Ht]. rewrite conv_sw_VSP, yvu420sp_VSP by auto. unfold same_arrangement.
  destruct (_ =? _); [apply (mfc_pairs handle fok true); auto|by apply copy_semi_ok].
Qed.
End exchange.

(** ** Refused pairs of formats *)

Section refused.
Context `{AndroidFormatsLaws} (handle : CSC_HANDLE).
Abbreviation s := (color_format (src_format handle)).
Abbreviation t := (color_format (dst_format handle)).

Definition tiled_formats : list Z :=
  [HAL_PIXEL_FORMAT_EXYNOS_YCbCr_420_SP_M_TILED; HAL_PIXEL_FORMAT_EXYNOS_YCbCr_420_SPN_TILED].

(** [SP_formats] and the luma and chroma part of the separated 10-bit format. *)
Definition sp_sources : list Z :=
  [HAL_PIXEL_FORMAT_EXYNOS_YCbCr_420_SP; HAL_PIXEL_FORMAT_EXYNOS_YCbCr_420_SP_M;
   HAL_PIXEL_FORMAT_EXYNOS_YCbCr_420_SP_M_PRIV; HAL_PIXEL_FORMAT_EXYNOS_YCbCr_420_SP_M_S10B;
   HAL_PIXEL_FORMAT_EXYNOS_YCbCr_420_SPN].

(** The destinations that the software path has for a source format. *)
Definition sw_targets (f : Z) : list Z :=
  switch f
    [(P_formats, P_formats ++ SP_formats);
     (YV12_formats, YV12_formats ++ SP_formats);
     (sp_sources, SP_formats ++ P_formats ++ YV12_formats);
     (VSP_formats, HAL_PIXEL_FORMAT_EXYNOS_YCbCr_420_SP_M_PRIV :: VSP_formats ++ P_formats ++ YV12_formats);
     (P010_formats, P010_formats);
     (tiled_formats, P_formats ++ SP_formats);
     ([HAL_PIXEL_FORMAT_BGRA_8888], HAL_PIXEL_FORMAT_BGRA_8888 :: P_formats ++ SP_formats ++ YV12_formats);
     ([HAL_PIXEL_FORMAT_RGBA_8888], HAL_PIXEL_FORMAT_RGBA_8888 :: P_formats ++ SP_formats ++ YV12_formats)]
    [].

Lemma refused_case (cases : list (list Z * M CSC_ERRORCODE)) m :
  t ∉ labels cases -> switch t cases (ret CSC_ErrorUnsupportFormat) m = Some (CSC_ErrorUnsupportFormat, m).
Proof. intros Ht. by rewrite switch_default. Qed.

(** The targets [Ht] of a source format in the list of [Hx]. *)
Ltac targets Ht Hx :=
  match type of Ht with _ ∉ switch ?x ?cs ?d =>
    match type of Hx with _ ∈ ?ls =>
      let l := fresh in let E := fresh in
      evar (l : list Z); assert (E : switch x cs d = l) by
        (subst l; eapply (switch_case x ls); [labels_distinct | find_case | exact Hx]);
      rewrite E in Ht; subst l; clear E
    end
  end.

Lemma sw_refused m : s <> HAL_PIXEL_FORMAT_EXYNOS_ARGB_8888 -> t ∉ sw_targets s ->
  conv_sw handle m = Some (CSC_ErrorUnsupportFormat, m).
Proof.
  intros Ha Ht. unfold conv_sw.
  match goal with |- switch s ?cs ?d m = _ => destruct (switch_cases s cs d) as [(ls & p & Hin & Hx & E)|E]; rewrite E; [|done] end.
  clear E. unfold sw_targets, P_formats, YV12_formats, SP_formats, VSP_formats, P010_formats, tiled_formats, sp_sources in Ht.
  repeat (apply elem_of_cons in Hin as [[= -> ->]|Hin]); [..|by apply elem_of_nil in Hin].
  9: { by apply elem_of_cons in Hx as [Hx|Hx%elem_of_nil]. }
  all: targets Ht Hx.
  all: apply refused_case; intros Hl; apply Ht; clear -Hl; unfold labels in Hl; simpl in Hl; set_solver.
Qed.

(** The class of a format in the list. *)
Ltac listed Hf := repeat first
  [ rewrite decide_True by exact Hf
  | rewrite decide_False by (eapply disjoint_labels; [|exact Hf]; unfold P_formats, YV12_formats, SP_formats, VSP_formats, P010_formats; labels_distinct) ];
  done.

Lemma class_P f : f ∈ P_formats -> dst_class f = Some (Planar false, 1).
Proof. intros Hf. unfold dst_class. listed Hf. Qed.
Lemma class_YV12 f : f ∈ YV12_formats -> dst_class f = Some (Planar true, 1).
Proof. intros Hf. unfold dst_class. listed Hf. Qed.
Lemma class_SP f : f ∈ SP_formats -> dst_class f = Some (Pairs false, 1).
Proof. intros Hf. unfold dst_class. listed Hf. Qed.
Lemma class_VSP f : f ∈ VSP_formats -> dst_class f = Some (Pairs true, 1).
Proof. intros Hf. unfold dst_class. listed Hf. Qed.
Lemma class_P010 f : f ∈ P010_formats -> dst_class f = Some (Pairs false, 2).
Proof. intros Hf. unfold dst_class. listed Hf. Qed.

(** The targets of each class of sources. *)
Ltac targets_of Hs :=
  unfold sw_targets, P_formats, YV12_formats, SP_formats, VSP_formats, P010_formats, tiled_formats, sp_sources in *;
  match type of Hs with _ ∈ ?ls => by_switch ls Hs end.

Lemma targets_P : s ∈ P_formats -> sw_targets s = P_formats ++ SP_formats.
Proof. intros Hs. targets_of Hs. Qed.
Lemma targets_YV12 : s ∈ YV12_formats -> sw_targets s = YV12_formats ++ SP_formats.
Proof. intros Hs. targets_of Hs. Qed.
Lemma targets_SP : s ∈ sp_sources -> sw_targets s = SP_formats ++ P_formats ++ YV12_formats.
Proof. intros Hs. targets_of Hs. Qed.
Lemma targets_VSP : s ∈ VSP_formats ->
  sw_targets s = HAL_PIXEL_FORMAT_EXYNOS_YCbCr_420_SP_M_PRIV :: VSP_formats ++ P_formats ++ YV12_formats.
Proof. intros Hs. targets_of Hs. Qed.
Lemma targets_P010 : s ∈ P010_formats -> sw_targets s = P010_formats.
Proof. intros Hs. targets_of Hs. Qed.

Lemma src_sources f : f ∈ SP_formats \/ f = HAL_PIXEL_FORMAT_EXYNOS_YCbCr_420_SP_M_S10B -> f ∈ sp_sources.
Proof. unfold sp_sources, SP_formats. set_solver. Qed.

(** They are those of a conversion, and the exception. *)
Ltac convertible Hl :=
  left; first [rewrite (class_P _ Hl)|rewrite (class_YV12 _ Hl)|rewrite (class_SP _ Hl)|rewrite (class_VSP _ Hl)|rewrite (class_P010 _ Hl)]; by eexists.

Lemma yuv_targets : is_Some (src_class s) -> t ∈ sw_targets s -> is_Some (sw_conversion handle) \/ exchanges_chroma handle.
Proof.
  intros [[c d] Ec] Ht. pose proof (src_class_formats _ _ _ Ec) as Hs. unfold sw_conversion. rewrite Ec.
  destruct c as [[]|[]], d as [|[p|[q|q|]|]|]; try done.
  - rewrite targets_YV12 in Ht by done. apply elem_of_app in Ht as [Hl|Hl]; convertible Hl.
  - rewrite targets_P in Ht by done. apply elem_of_app in Ht as [Hl|Hl]; convertible Hl.
  - assert (Hv : s ∈ VSP_formats) by naive_solver. rewrite targets_VSP in Ht by done.
    apply elem_of_cons in Ht as [Hl|Ht]; [by right|]. rewrite !elem_of_app in Ht. destruct Ht as [Hl|[Hl|Hl]]; convertible Hl.
  - rewrite targets_P010 in Ht by done. convertible Ht.
  - rewrite targets_SP in Ht by (apply src_sources; tauto).
    rewrite !elem_of_app in Ht. destruct Ht as [Hl|[Hl|Hl]]; convertible Hl.
Qed.

Lemma yuv_refused m : is_Some (src_class s) -> sw_conversion handle = None -> ~ exchanges_chroma handle ->
  conv_sw handle m = Some (CSC_ErrorUnsupportFormat, m).
Proof.
  intros Hs Hn He. apply sw_refused.
  - intros E. rewrite E in Hs. destruct Hs as [[c d] Ec%src_class_formats].
    assert (Ha : HAL_PIXEL_FORMAT_EXYNOS_ARGB_8888 ∈ P_formats ++ YV12_formats ++ VSP_formats ++ sp_sources ++ P010_formats).
    { rewrite !elem_of_app. unfold sp_sources, SP_formats in *. destruct c as [[]|[]], d as [|[p|[q|q|]|]|]; try done; set_solver. }
    revert Ha. apply (disjoint_labels _ [HAL_PIXEL_FORMAT_EXYNOS_ARGB_8888]); [|by left].
    unfold P_formats, YV12_formats, VSP_formats, sp_sources, P010_formats. cbn [app]. labels_distinct.
  - intros Ht. destruct (yuv_targets Hs Ht) as [[cv E]|E]; [by rewrite E in Hn|done].
Qed.
End refused.
