(* ===== verification/CscConvert.v ===== *)
(** * Colour space converter: theorems on the software path

    The contract of [conv_sw]: which picture it copies or computes for each pair of
    formats, the round trip through the buffers of the video codec, and the pairs
    it refuses. *)

From S2P Require Import Prelude CMem Interleave Tile16 Tile16Yuv Rgb PixelFormats CscData CscSw CscPicture CscDispatch.

(** ** Pictures computed from RGB *)

Section rgb.
Context `{AndroidFormatsLaws} (handle : CSC_HANDLE).
Abbreviation src := (src_format handle).
Abbreviation s := (color_format src).
Abbreviation t := (color_format (dst_format handle)).
Abbreviation src_plane := (plane (src_buffer handle)).
Abbreviation dst_plane := (plane (dst_buffer handle)).

(** The HAL format of a pixel layout; [conv_sw] has no 16-bit source. *)
Definition rgb_hal (f : rgb_format) : Z :=
  match f with
  | RGB565 => -1
  | BGRA8888 => HAL_PIXEL_FORMAT_BGRA_8888
  | RGBA8888 => HAL_PIXEL_FORMAT_RGBA_8888
  end.

(** The buffers of a conversion from RGB to the arrangement [c]. *)
Definition rgb_layout (m : mem) (f : rgb_format) (c : chroma) : Prop :=
  match c with
  | Planar b => planar_layout m f (width src) (height src) (dst_plane 0)
      (dst_plane (if b then 2 else 1)) (dst_plane (if b then 1 else 2)) (src_plane 0)
  | Pairs _ => pairs_layout m f (width src) (height src) (dst_plane 0) (dst_plane 1) (src_plane 0)
  end.

(** The sample computed from the pixels: luma of its pixel, chroma of the top left
    pixel of its square. *)
Definition rgb_sample (m : mem) (f : rgb_format) : sample -> Z := fun '(c, x, y, _) =>
  let pixel x y := default 0 (peek 4 m (src_plane 0 + 4 * (width src * y + x))) in
  match c with
  | Luma => luma (channels f (pixel x y))
  | Cb => cb (channels f (pixel (2 * x) (2 * y)))
  | Cr => cr (channels f (pixel (2 * x) (2 * y)))
  end.

(** The indices of [Rgb] for those of a picture. *)
Definition rgb_index : sample -> (Z * Z) + bool * (Z * Z) := fun '(c, x, y, _) =>
  match c with Luma => inl (x, y) | Cb => inr (false, (x, y)) | Cr => inr (true, (x, y)) end.

Lemma rgb_reindex m m' f c (cdst : bool -> Z -> Z) : f <> RGB565 ->
  width src `mod` 2 = 0 -> height src `mod` 2 = 0 ->
  (forall b x y, view_at (plain_view c 1 (width src)) dst_plane (if b : bool then Cr else Cb, x, y, 0) =
     cdst b (width src `div` 2 * y + x)) ->
  stored (sample_dom (width src) (height src)) (sample_dst (width src) (dst_plane 0) cdst)
    (sample_val m f (width src) (src_plane 0)) m m' ->
  stored (picture (width src) (height src) 1) (view_at (plain_view c 1 (width src)) dst_plane)
    (rgb_sample m f) m m'.
Proof.
  intros Hf Ew Eh Hc Hs.
  assert (Cw : cw (width src) = width src `div` 2) by (unfold cw; clear -Ew; dlia).
  assert (Ch : ch (height src) = height src `div` 2) by (unfold ch; clear -Eh; dlia).
  eapply (stored_reindex rgb_index); [exact Hs| |].
  - intros [[[k x] y] b] [Hb Hk]. assert (b = 0) as -> by lia.
    destruct k; (split; [simpl; rewrite ?Cw, ?Ch; lia|]); split.
    + simpl. lia.
    + simpl. unfold pixel_at. by destruct f.
    + rewrite (Hc false). simpl. by rewrite Cw.
    + simpl. unfold pixel_at. by destruct f.
    + rewrite (Hc true). simpl. by rewrite Cw.
    + simpl. unfold pixel_at. by destruct f.
  - intros [[x y]|[b [x y]]] Hk; simpl in Hk.
    + exists (Luma, x, y, 0). split; [simpl; lia|]. simpl. lia.
    + rewrite Cw, Ch in Hk. exists (if b then Cr else Cb, x, y, 0).
      split; [destruct b; simpl; lia|]. rewrite Hc. simpl. by rewrite Cw.
Qed.

Lemma rgb_run m f c :
  f <> RGB565 -> s = rgb_hal f -> dst_class t = Some (c, 1) -> c <> Pairs true ->
  width src `mod` 2 = 0 -> height src `mod` 2 = 0 -> rgb_layout m f c ->
  exists m', conv_sw handle m = Some (CSC_ErrorNone, m') /\
    stored (picture (width src) (height src) 1) (view_at (plain_view c 1 (width src)) dst_plane)
      (rgb_sample m f) m m'.
Proof.
  intros Hf Hs Ht Hc Ew Eh HL. apply dst_class_formats in Ht.
  assert (E : conv_sw handle = (if decide (f = BGRA8888) then conv_sw_src_argb888 else conv_sw_src_rgba888) handle).
  { unfold conv_sw. destruct f; [done| |]; simpl in *.
    - assert (Hx : s ∈ [HAL_PIXEL_FORMAT_BGRA_8888]) by (rewrite Hs; by left).
      match type of Hx with _ ∈ ?ls => by_switch ls Hx end.
    - assert (Hx : s ∈ [HAL_PIXEL_FORMAT_RGBA_8888]) by (rewrite Hs; by left).
      match type of Hx with _ ∈ ?ls => by_switch ls Hx end. }
  rewrite E. clear E Hs.
  destruct c as [b|[]]; [|done|].
  - simpl in HL. destruct (pl_size _ _ _ _ _ _ _ _ HL) as (Hw & Hh & Hz).
    destruct (to_YUV420P_run m f _ _ Hw Hh Hz _ _ _ _ HL) as (m' & E & Hst).
    exists m'. split.
    + assert (P : (if decide (f = BGRA8888) then conv_sw_src_argb888 else conv_sw_src_rgba888) handle =
        (to_YUV420P f (dst_plane 0) (dst_plane (if b then 2 else 1)) (dst_plane (if b then 1 else 2)) (src_plane 0)
          (width src) (height src) ;! ret CSC_ErrorNone)).
      { destruct f; [done| |]; simpl;
          unfold conv_sw_src_argb888, conv_sw_src_rgba888, to_YUV420P; destruct b;
          first [by_switch YV12_formats Ht | by_switch P_formats Ht]. }
      rewrite P. unfold bind at 1. by rewrite E.
    + eapply rgb_reindex; [done..| |exact Hst].
      intros b' x y. unfold planar_at. destruct b, b'; simpl; lia.
  - simpl in HL. destruct (sl_size _ _ _ _ _ _ _ HL) as (Hw & Hh & Hz).
    destruct (to_YUV420SP_run m f _ _ Hw Hh Hz _ _ _ HL) as (m' & E & Hst).
    exists m'. split.
    + assert (P : (if decide (f = BGRA8888) then conv_sw_src_argb888 else conv_sw_src_rgba888) handle =
        (to_YUV420SP f (dst_plane 0) (dst_plane 1) (src_plane 0) (width src) (height src) ;! ret CSC_ErrorNone)).
      { destruct f; [done| |]; simpl;
          unfold conv_sw_src_argb888, conv_sw_src_rgba888, to_YUV420SP; by_switch SP_formats Ht. }
      rewrite P. unfold bind at 1. by rewrite E.
    + eapply rgb_reindex; [done..| |exact Hst].
      intros b' x y. unfold pairs_at. assert (width src = 2 * (width src `div` 2)) by (clear -Ew; dlia).
      destruct b'; simpl; lia.
Qed.
End rgb.

(** ** Pictures from tiled frames *)

(** Regions that are mapped, and outputs that overlap neither each other nor the
    inputs. *)
Fixpoint all_mapped (m : mem) (rs : list (Z * Z)) : Prop :=
  match rs with [] => True | (a, n) :: rs => mapped m a n /\ all_mapped m rs end.
Fixpoint all_apart (a n : Z) (rs : list (Z * Z)) : Prop :=
  match rs with [] => True | (b, k) :: rs => apart a n b k /\ all_apart a n rs end.
Fixpoint outputs_apart (outs ins : list (Z * Z)) : Prop :=
  match outs with [] => True | (a, n) :: outs => all_apart a n (outs ++ ins) /\ outputs_apart outs ins end.

Section tiled.
Context `{AndroidFormatsLaws} (handle : CSC_HANDLE).
Abbreviation src := (src_format handle).
Abbreviation s := (color_format src).
Abbreviation t := (color_format (dst_format handle)).
Abbreviation src_plane := (plane (src_buffer handle)).
Abbreviation dst_plane := (plane (dst_buffer handle)).
Abbreviation w := (crop_width src).
Abbreviation h := (crop_height src).

(** A sample of a frame of 16x16 luma and 16x8 chroma tiles. *)
Definition tiled_sample_at : sample -> Z := fun '(c, x, y, _) =>
  match c with
  | Luma => src_plane 0 + Tile2D_To_Linear w h x y 0
  | Cb => src_plane 1 + Tile2D_To_Linear w (h `div` 2) (2 * x) y 1
  | Cr => src_plane 1 + Tile2D_To_Linear w (h `div` 2) (2 * x + 1) y 1
  end.

Definition tiled_layout (m : mem) (c : chroma) : Prop :=
  let ins := [(src_plane 0, tiled_size 16 w h); (src_plane 1, tiled_size 8 w (h `div` 2))] in
  let outs := match c with
    | Planar _ => [(dst_plane 0, w * h); (dst_plane 1, w `div` 2 * (h `div` 2)); (dst_plane 2, w `div` 2 * (h `div` 2))]
    | Pairs _ => [(dst_plane 0, w * h); (dst_plane 1, w * (h `div` 2))]
    end in
  0 <= w /\ 0 <= h /\ w `mod` 2 = 0 /\ h `mod` 2 = 0 /\ (w + 16) * (h + 16) < 2 ^ 31 /\
  all_mapped m (outs ++ ins) /\ outputs_apart outs ins.

(** The luma half of the two conversions, followed by a chroma plan. *)
Lemma tiled_then {K} m n (p : M unit) (P : K -> Prop) D S :
  0 <= w -> 0 <= h -> h `mod` 2 = 0 -> (w + 16) * (h + 16) < 2 ^ 31 ->
  mapped m (dst_plane 0) (w * h) -> mapped m (src_plane 0) (tiled_size 16 w h) ->
  apart (dst_plane 0) (w * h) (src_plane 0) (tiled_size 16 w h) ->
  (forall m1, (forall a k, mapped m a k -> mapped m1 a k) -> exists m2, p m1 = Some (tt, m2) /\ moved P D S m1 m2) ->
  (forall k, P k -> src_plane 1 <= S k < src_plane 1 + n) ->
  (forall k a, P k -> dst_plane 0 <= a < dst_plane 0 + w * h -> a <> D k) ->
  apart (dst_plane 0) (w * h) (src_plane 1) n ->
  exists m2,
    (csc_tiled_to_linear_y (dst_plane 0) (src_plane 0) w h ;! p ;! ret CSC_ErrorNone) m = Some (CSC_ErrorNone, m2) /\
    moved (fun k => match k with inl k => rect w h k | inr k => P k end)
      (fun k => match k with inl k => linear_at (dst_plane 0) w k | inr k => D k end)
      (fun k => match k with inl k => tiled_at (src_plane 0) w h 0 k | inr k => S k end) m m2.
Proof.
  intros Hw Hh Eh Hz My Ms A0 Hp HS HD A1.
  assert (Hr : roundup h 2 = h) by (unfold roundup; clear -Eh; dlia).
  destruct (tiled_to_linear_y_run m (dst_plane 0) (src_plane 0) w h) as (m1 & E1 & M1); rewrite ?Hr; auto.
  rewrite Hr in M1. destruct (Hp m1) as (m2 & E2 & M2); [by eauto using moved_mapped|].
  exists m2. unfold bind. rewrite E1, E2. split; [done|].
  assert (R : forall k, rect w h k -> dst_plane 0 <= linear_at (dst_plane 0) w k < dst_plane 0 + w * h).
  { intros [x y] [Hx Hy]. pose proof (rect_lt w h x y Hx Hy). simpl. lia. }
  apply (moved_seq _ _ _ _ _ _ _ _ _ M1 M2).
  - intros k1 k2 H1 H2. apply HD; auto.
  - intros k1 k2 H1 H2. specialize (R k1 H1). specialize (HS k2 H2). unfold apart in A1. lia.
Qed.

Lemma tiled_run m c : s ∈ tiled_formats -> dst_class t = Some (c, 1) ->
  c = Planar false \/ c = Pairs false -> tiled_layout m c ->
  exists m', conv_sw handle m = Some (CSC_ErrorNone, m') /\
    moved (picture w h 1) (view_at (plain_view c 1 w) dst_plane) tiled_sample_at m m'.
Proof.
  intros Hs Ht Hc (Hw & Hh & Ew & Eh & Hz & HM & HA). apply dst_class_formats in Ht.
  assert (E : conv_sw handle = conv_sw_src_nv12t handle) by (unfold conv_sw; by_switch tiled_formats Hs).
  rewrite E. clear E. unfold conv_sw_src_nv12t.
  assert (W : w = 2 * (w `div` 2)) by (clear -Ew; dlia).
  assert (Hhh : 0 <= h `div` 2 <= h) by (clear -Hh; dlia).
  assert (Hzh : (w + 16) * (h `div` 2 + 16) < 2 ^ 31) by nia.
  destruct Hc as [-> | ->]; simpl in HM, HA, Ht.
  - destruct HM as (M0 & M1 & M2 & N0 & N1 & _), HA as ((A01 & A02 & B00 & B01 & _) & (A12 & B10 & B11 & _) & (B20 & B21 & _) & _).
    match goal with |- context [switch t ?cs ?d] =>
      erewrite (switch_case t P_formats _ cs d); [|labels_distinct|find_case|exact Ht] end.
    edestruct (tiled_then m (tiled_size 8 w (h `div` 2))
      (csc_tiled_to_linear_uv_deinterleave (dst_plane 1) (dst_plane 2) (src_plane 1) w (h `div` 2))
      (uv_rect w (h `div` 2)) (uv_linear_at (dst_plane 1) (dst_plane 2) w) (uv_tiled_at (src_plane 1) w (h `div` 2)))
      as (m2 & E2 & Mv); try done.
    + intros m1 Hm1. apply tiled_to_linear_uv_deinterleave_run; auto; lia.
    + intros k Hk. by apply (uv_source w (h `div` 2) (src_plane 1)).
    + intros k a Hk Ha. pose proof (uv_dest w (h `div` 2) (dst_plane 1) (dst_plane 2) k Hk) as Hd.
      unfold apart in *. destruct k as [[] k]; simpl in Hd |- *; lia.
    + exists m2. split; [exact E2|].
      eapply (moved_reindex (fun '(c, x, y, _) => match c with
        Luma => inl (x, y) | Cb => inr (false, (x, y)) | Cr => inr (true, (x, y)) end)); [exact Mv| |].
      * intros [[[k x] y] b] [Hb Hk]. destruct k; simpl; rewrite ?Z.add_0_r; repeat split; first [done | lia].
      * intros [[x y]|[b [x y]]] Hk; simpl in Hk.
        -- exists (Luma, x, y, 0). simpl. lia.
        -- exists (if b then Cr else Cb, x, y, 0). destruct b; simpl; lia.
  - destruct HM as (M0 & M1 & N0 & N1 & _), HA as ((A01 & B00 & B01 & _) & (B10 & B11 & _) & _).
    match goal with |- context [switch t ?cs ?d] =>
      erewrite (switch_case t SP_formats _ cs d); [|labels_distinct|find_case|exact Ht] end.
    edestruct (tiled_then m (tiled_size 8 w (h `div` 2))
      (csc_tiled_to_linear_uv (dst_plane 1) (src_plane 1) w (h `div` 2))
      (rect w (h `div` 2)) (linear_at (dst_plane 1) w) (tiled_at (src_plane 1) w (h `div` 2) 1)) as (m2 & E2 & Mv); try done.
    + intros m1 Hm1. apply tiled_to_linear_uv_run; auto; lia.
    + intros k Hk. by apply (tiled_at_range w (h `div` 2) 1).
    + intros [x y] a [Hx Hy] Ha. pose proof (rect_lt w (h `div` 2) x y Hx Hy). unfold apart in *. simpl. lia.
    + exists m2. split; [exact E2|].
      eapply (moved_reindex (fun '(c, x, y, _) => match c with
        Luma => inl (x, y) | Cb => inr (2 * x, y) | Cr => inr (2 * x + 1, y) end)); [exact Mv| |].
      * intros [[[k x] y] b] [Hb Hk]. destruct k; simpl; rewrite ?Z.add_0_r; repeat split; first [done | lia].
      * intros [[x y]|[x y]] Hk; simpl in Hk.
        -- exists (Luma, x, y, 0). simpl. lia.
        -- exists (if decide (x `mod` 2 = 0) then Cb else Cr, x `div` 2, y, 0).
           assert (x = 2 * (x `div` 2) + x `mod` 2 /\ 0 <= x `mod` 2 < 2 /\ 0 <= x `div` 2) by (destruct Hk; dlia).
           case_decide; simpl; lia.
Qed.
End tiled.

(** ** The round trip through the codec's buffers *)

Section roundtrip.
Context `{AndroidFormatsLaws} (h1 h2 : CSC_HANDLE) (fok1 : frame_ok h1) (fok2 : frame_ok h2) (c : chroma) (d : Z).

(** [h1] copies an application's frame to a codec buffer, [h2] that buffer to an
    application's frame of the same size. *)
Record codec_pair : Prop := {
  cp_mfc : mem_type (src_buffer h1) = CSC_MEMORY_MFC /\ mem_type (src_buffer h2) = CSC_MEMORY_MFC;
  cp_class : src_class (color_format (src_format h1)) = Some (c, d) /\
             dst_class (color_format (dst_format h1)) = Some (c, d) /\
             src_class (color_format (src_format h2)) = Some (c, d) /\
             dst_class (color_format (dst_format h2)) = Some (c, d);
  cp_packed : color_format (src_format h1) ∈ packed_formats;
  cp_padded : color_format (src_format h2) ∉ packed_formats;
  cp_size : crop_width (src_format h2) = crop_width (src_format h1) /\
            crop_height (src_format h2) = height (src_format h1);
  cp_stride : width (dst_format h1) = roundup (crop_width (src_format h1)) 16 /\
              width (src_format h2) = width (dst_format h1);
  cp_buffer : src_buffer h2 = dst_buffer h1
}.

Abbreviation cw := (crop_width (src_format h1)).
Abbreviation P := (picture cw (height (src_format h1)) d).
Abbreviation from := (view_at (plain_view c d cw) (plane (src_buffer h1))).
Abbreviation via := (view_at (codec_view c d (roundup cw 16) (roundup cw 16)) (plane (dst_buffer h1))).
Abbreviation to := (view_at (plain_view c d cw) (plane (dst_buffer h2))).

(** Half of a width rounded up to 16 has the chroma stride of half the width. *)
Lemma half_roundup w : 0 <= w -> roundup (w `div` 2) 16 = roundup (roundup w 16 `div` 2) 16 \/ w `mod` 2 = 1.
Proof. intros Hw. unfold roundup. dlia. Qed.

Lemma codec_run m : codec_pair -> views_ok m P via from -> views_ok m P to via ->
  exists m1 m2, conv_sw h1 m = Some (CSC_ErrorNone, m1) /\ conv_sw h2 m1 = Some (CSC_ErrorNone, m2) /\
    moved P via from m m1 /\ moved P to via m1 m2.
Proof using All.
  intros [[E1 E2] (C1 & C2 & C3 & C4) Hp Hq [S1 S2] [W1 W2] B] V1 V2.
  pose proof (conv_sw_run h1 fok1) as R1. pose proof (conv_sw_run h2 fok2) as R2.
  unfold sw_conversion, same_arrangement in R1, R2. rewrite C1, C2, E1, Z.eqb_refl in R1. rewrite C3, C4, E2, Z.eqb_refl in R2.
  rewrite decide_False in R1, R2 by (by intros []). rewrite !decide_True in R1 by done.
  rewrite decide_True, decide_False in R2 by done.
  specialize (R1 _ eq_refl m). specialize (R2 _ eq_refl). unfold carries_out in R2.
  unfold cv_picture, cv_to, cv_from in R1, R2. cbn [cv_width cv_height cv_src cv_dst] in R1, R2.
  assert (Ev : codec_view c d (width (src_format h2)) (crop_width (src_format h2)) =
    codec_view c d (roundup cw 16) (roundup cw 16)).
  { unfold codec_view. rewrite W2, W1, S1. destruct c; [|done]. f_equal.
    destruct fok1, (half_roundup cw); lia. }
  rewrite W1 in R1. rewrite Ev, S1, S2, B in R2. change (depth (plain_view c d cw)) with d in R1.
  change (depth (codec_view c d (roundup cw 16) (roundup cw 16))) with d in R2.
  destruct (R1 V1) as (m1 & X1 & M1). destruct (R2 m1) as (m2 & X2 & M2).
  { destruct V2 as [A1 A2 A3 A4], M1 as (_ & _ & K). split; auto. }
  exists m1, m2. auto.
Qed.
End roundtrip.

(** ** Theorems *)

Section theorems.
Context `{AndroidFormatsLaws}.

(** C1. The contract of the software conversions between YUV formats, for frames of even
    sizes up to 16384.  For every pair of formats that [sw_conversion] knows, [conv_sw] ends
    with [CSC_ErrorNone] and no fault; every luma, Cb and Cr sample of the destination
    picture, wherever the arrangement and the strides of its format put it, is the sample at
    the same position of the source picture; and no other byte changes.  There is one more
    pair of formats, from pairs Cr-Cb to the private format with pairs Cb-Cr: it is copied
    in the arrangement of the source, so that Cb and Cr are exchanged for a reader of the
    destination.  All other destinations of a YUV source are refused, and no byte changes. *)
Theorem conv_sw_copies_picture handle m :
  frame_ok handle ->
  (forall cv, sw_conversion handle = Some cv \/ exchanges_chroma handle /\ cv = same_arrangement handle (Pairs true) 1 ->
    views_ok m (cv_picture cv) (cv_to handle cv) (cv_from handle cv) ->
    exists m', conv_sw handle m = Some (CSC_ErrorNone, m') /\
      (forall k, cv_picture cv k -> m' !! cv_to handle cv k = m !! cv_from handle cv k) /\
      (forall a, (forall k, cv_picture cv k -> a <> cv_to handle cv k) -> m' !! a = m !! a)) /\
  (is_Some (src_class (color_format (src_format handle))) -> sw_conversion handle = None -> ~ exchanges_chroma handle ->
    conv_sw handle m = Some (CSC_ErrorUnsupportFormat, m)).
Proof.
  intros Hf. split; [|by apply yuv_refused]. intros cv Hc Hv.
  assert (R : carries_out handle cv (conv_sw handle)) by (destruct Hc as [Hc|[He ->]]; [by apply conv_sw_run|by apply conv_sw_exchange]).
  destruct (R m Hv) as (m' & E & M1 & M2 & _). by exists m'.
Qed.

(** C37. From 32-bit RGB: every luma sample of the destination is the colour matrix
    applied to its pixel, every chroma sample the matrix applied to the top left
    pixel of its square, in planes of either chroma order or in Cb-Cr pairs; no
    other byte changes. *)
Theorem conv_sw_rgb_picture handle m f c :
  f <> RGB565 -> color_format (src_format handle) = rgb_hal f ->
  dst_class (color_format (dst_format handle)) = Some (c, 1) -> c <> Pairs true ->
  width (src_format handle) `mod` 2 = 0 -> height (src_format handle) `mod` 2 = 0 ->
  rgb_layout handle m f c ->
  let P := picture (width (src_format handle)) (height (src_format handle)) 1 in
  let to := view_at (plain_view c 1 (width (src_format handle))) (plane (dst_buffer handle)) in
  exists m', conv_sw handle m = Some (CSC_ErrorNone, m') /\
    (forall k, P k -> m' !! to k = Some (rgb_sample handle m f k)) /\
    (forall a, (forall k, P k -> a <> to k) -> m' !! a = m !! a).
Proof. intros. by apply rgb_run. Qed.

(** From the 16x16-tiled buffer of the video decoder to planes or pairs of the
    cropped size: every sample is the one [Tile2D_To_Linear] locates; no other byte
    changes. *)
Theorem conv_sw_tiled_picture handle m c :
  color_format (src_format handle) ∈ tiled_formats ->
  dst_class (color_format (dst_format handle)) = Some (c, 1) ->
  c = Planar false \/ c = Pairs false -> tiled_layout handle m c ->
  let P := picture (crop_width (src_format handle)) (crop_height (src_format handle)) 1 in
  let to := view_at (plain_view c 1 (crop_width (src_format handle))) (plane (dst_buffer handle)) in
  exists m', conv_sw handle m = Some (CSC_ErrorNone, m') /\
    (forall k, P k -> m' !! to k = m !! tiled_sample_at handle k) /\
    (forall a, (forall k, P k -> a <> to k) -> m' !! a = m !! a).
Proof.
  intros Hs Ht Hc HL P to. destruct (tiled_run handle m c Hs Ht Hc HL) as (m' & E & M1 & M2 & _).
  by exists m'.
Qed.

(** Every other pair of formats is refused with [CSC_ErrorUnsupportFormat] and
    no byte is touched. *)
Theorem conv_sw_refuses handle m :
  color_format (src_format handle) <> HAL_PIXEL_FORMAT_EXYNOS_ARGB_8888 ->
  color_format (dst_format handle) ∉ sw_targets (color_format (src_format handle)) ->
  conv_sw handle m = Some (CSC_ErrorUnsupportFormat, m).
Proof. apply sw_refused. Qed.

(** A frame that is copied to a buffer of the video codec, whose rows are
    padded, and from there to another frame arrives unchanged. *)
Theorem codec_roundtrip h1 h2 c d m :
  frame_ok h1 -> frame_ok h2 -> codec_pair h1 h2 c d ->
  let w := crop_width (src_format h1) in
  let P := picture w (height (src_format h1)) d in
  let from := view_at (plain_view c d w) (plane (src_buffer h1)) in
  let via := view_at (codec_view c d (roundup w 16) (roundup w 16)) (plane (dst_buffer h1)) in
  let to := view_at (plain_view c d w) (plane (dst_buffer h2)) in
  views_ok m P via from -> views_ok m P to via ->
  exists m1 m2,
    conv_sw h1 m = Some (CSC_ErrorNone, m1) /\ conv_sw h2 m1 = Some (CSC_ErrorNone, m2) /\
    forall k, P k -> m2 !! to k = m !! from k.
Proof.
  intros F1 F2 Hp w P from via to V1 V2.
  destruct (codec_run h1 h2 F1 F2 c d m Hp V1 V2) as (m1 & m2 & E1 & E2 & (A1 & _) & (A2 & _)).
  exists m1, m2. split; [done|]. split; [done|]. intros k Hk. by rewrite A2, A1.
Qed.

(** A source of Cr-Cb pairs is accepted for the private variant of the Cb-Cr
    format and its chroma plane is copied as it is: read in the order of the
    destination format, Cb and Cr have changed places. *)
Theorem yvu420sp_to_priv_swaps_chroma handle m :
  frame_ok handle -> mem_type (src_buffer handle) <> CSC_MEMORY_MFC ->
  color_format (src_format handle) ∈ VSP_formats ->
  color_format (dst_format handle) = HAL_PIXEL_FORMAT_EXYNOS_YCbCr_420_SP_M_PRIV ->
  let w := width (src_format handle) in
  let P := picture w (height (src_format handle)) 1 in
  let from := view_at (plain_view (Pairs true) 1 w) (plane (src_buffer handle)) in
  let to := view_at (plain_view (Pairs false) 1 w) (plane (dst_buffer handle)) in
  views_ok m P to from ->
  exists m', conv_sw handle m = Some (CSC_ErrorNone, m') /\
    forall x y, P (Cb, x, y, 0) ->
      m' !! to (Cb, x, y, 0) = m !! from (Cr, x, y, 0) /\
      m' !! to (Cr, x, y, 0) = m !! from (Cb, x, y, 0).
Proof.
  intros Hf Hm Hs Ht w P from to [V1 V2 V3 V4].
  set (to' := view_at (plain_view (Pairs true) 1 w) (plane (dst_buffer handle))).
  assert (Sw : forall k, P k -> exists k', P k' /\ to' k = to k').
  { intros [[[k x] y] b] Hk. exists (match k with Luma => Luma | Cb => Cr | Cr => Cb end, x, y, b).
    split; [by destruct k|]. by destruct k. }
  assert (Hv : views_ok m P to' from).
  { split; [|done| |].
    - intros k Hk. destruct (Sw k Hk) as (k' & Hk' & ->). auto.
    - intros k k1 Hk Hk1. destruct (Sw k Hk) as (k' & Hk' & ->). auto.
    - intros [[[k x] y] b] [[[k1 x1] y1] b1] Hk Hk1 E.
      pose proof (V4 (match k with Luma => Luma | Cb => Cr | Cr => Cb end, x, y, b)
        (match k1 with Luma => Luma | Cb => Cr | Cr => Cb end, x1, y1, b1)) as V.
      destruct k, k1; specialize (V Hk Hk1 E); congruence. }
  destruct (copy_semi_ok handle Hf true m Hv) as (m' & E & M & _).
  exists m'. split.
  - rewrite conv_sw_VSP, yvu420sp_VSP by auto. by rewrite (proj2 (Z.eqb_neq _ _) Hm).
  - intros x y Hk. split.
    + apply (M (Cr, x, y, 0)). exact Hk.
    + apply (M (Cb, x, y, 0)). exact Hk.
Qed.
End theorems.

(** ** Instances: frames of a few pixels *)

#[local] Existing Instance aosp_formats.
#[local] Existing Instance aosp_formats_laws.

Definition small_format (f w h cw ch : Z) : CSC_FORMAT := {|
  width := w; height := h; crop_left := 0; crop_top := 0; crop_width := cw; crop_height := ch;
  color_format := f; cacheable := 0; format_mode_drm := 0 |}.

Definition small_handle (src dst : CSC_FORMAT) (sp dp : Z * Z * Z) (mt : Z) : CSC_HANDLE := {|
  dst_format := dst; src_format := src;
  dst_buffer := {| planes := dp; mem_type := mt |}; src_buffer := {| planes := sp; mem_type := mt |};
  csc_method := CSC_METHOD_SW; csc_hw_type := 0; csc_hw_handle := 0;
  hw_property := {| fixed_node := 5; mode_drm := 0 |};
  csc_mode := 0; csc_range := 0; colorspace := 0; filter := 0; frame_rate := 0 |}.

(** 64 bytes at each of the addresses 0, 1000, ..., 8000. *)
Definition small_mem : mem :=
  fill 64 8000 (fun _ => 0) (fill 64 7000 (fun _ => 0) (fill 64 6000 (fun _ => 0)
    (fill 64 5000 (fun _ => 0) (fill 64 4000 (fun _ => 0) (fill 64 3000 (fun _ => 0)
      (fill 64 2000 (fun k => 2 * k) (fill 64 1000 (fun k => 100 + k) (fill 64 0 (fun k => k) ∅)))))))).

Lemma small_mapped a : (exists i, 0 <= i <= 8 /\ 1000 * i <= a < 1000 * i + 64) -> is_Some (small_mem !! a).
Proof.
  intros (i & Hi & Ha). unfold small_mem. rewrite !lookup_fill.
  repeat (case_decide; [by eexists|]). exfalso. simpl in *.
  assert (i = 0 \/ i = 1 \/ i = 2 \/ i = 3 \/ i = 4 \/ i = 5 \/ i = 6 \/ i = 7 \/ i = 8) by lia. lia.
Qed.

(** The conditions on two views whose planes are among these regions. *)
Ltac halves := change (roundup (16 `div` 2) 16) with 16 in *; change (8 `div` 2) with 4 in *; change (4 `div` 2) with 2 in *; change (2 `div` 2) with 1 in *.
Ltac in_region := apply small_mapped; first
  [ exists 0; lia | exists 1; lia | exists 2; lia | exists 3; lia | exists 4; lia
  | exists 5; lia | exists 6; lia | exists 7; lia | exists 8; lia ].
Ltac small_views :=
  unfold cv_picture, cv_to, cv_from;
  split;
  [ intros [[[[] x] y] b] Hk; simpl in Hk |- *; unfold plane; simpl; halves; in_region
  | intros [[[[] x] y] b] Hk; simpl in Hk |- *; unfold plane; simpl; halves; in_region
  | intros [[[[] x] y] b] [[[[] x'] y'] b'] Hk Hk'; simpl in Hk, Hk' |- *; unfold plane; simpl; halves; lia
  | intros [[[[] x] y] b] [[[[] x'] y'] b'] Hk Hk' He; simpl in Hk, Hk', He; unfold plane in He; simpl in He; halves;
    first [exfalso; lia | assert (x = x' /\ y = y' /\ b = b') as (-> & -> & ->) by lia; done] ].

Ltac small_frame := split; simpl; try lia; try reflexivity; vm_compute; intros; discriminate.

(** NV12 to YV12: the pairs are split and the planes are in the order Cr, Cb. *)
Definition nv12_to_yv12 : CSC_HANDLE :=
  small_handle (small_format HAL_PIXEL_FORMAT_EXYNOS_YCbCr_420_SP 4 2 4 2)
    (small_format HAL_PIXEL_FORMAT_YV12 4 2 4 2) (0, 1000, 2000) (3000, 4000, 5000) CSC_MEMORY_USERPTR.

Lemma conv_sw_copies_picture_witness :
  exists m', conv_sw nv12_to_yv12 small_mem = Some (CSC_ErrorNone, m') /\
    m' !! 4001 = small_mem !! 1003 /\ m' !! 5001 = small_mem !! 1002.
Proof.
  destruct (proj1 (conv_sw_copies_picture nv12_to_yv12 small_mem ltac:(small_frame))
    (same_size 4 2 (plain_view (Pairs false) 1 4) (plain_view (Planar true) 1 4))) as (m' & E & K & _).
  - left. reflexivity.
  - small_views.
  - exists m'. split; [exact E|]. split.
    + apply (K (Cr, 1, 0, 0)). vm_compute. intuition discriminate.
    + apply (K (Cb, 1, 0, 0)). vm_compute. intuition discriminate.
Defined.

(** A 4x2 frame to a codec buffer with rows of 16 bytes, and from there to a third
    frame. *)
Definition to_codec : CSC_HANDLE :=
  small_handle (small_format HAL_PIXEL_FORMAT_EXYNOS_YCbCr_420_P 4 2 4 2)
    (small_format HAL_PIXEL_FORMAT_EXYNOS_YCbCr_420_P_M 16 2 4 2) (0, 1000, 2000) (3000, 4000, 5000) CSC_MEMORY_MFC.
Definition from_codec : CSC_HANDLE :=
  small_handle (small_format HAL_PIXEL_FORMAT_EXYNOS_YCbCr_420_P_M 16 2 4 2)
    (small_format HAL_PIXEL_FORMAT_EXYNOS_YCbCr_420_P 4 2 4 2) (3000, 4000, 5000) (6000, 7000, 8000) CSC_MEMORY_MFC.

Lemma codec_roundtrip_witness :
  exists m1 m2, conv_sw to_codec small_mem = Some (CSC_ErrorNone, m1) /\
    conv_sw from_codec m1 = Some (CSC_ErrorNone, m2) /\ m2 !! 6006 = small_mem !! 6.
Proof.
  destruct (codec_roundtrip to_codec from_codec (Planar false) 1 small_mem) as (m1 & m2 & E1 & E2 & K).
  - small_frame.
  - small_frame.
  - split; try done; apply (bool_decide_unpack _); vm_compute; exact I.
  - change (roundup (crop_width (src_format to_codec)) 16) with 16. small_views.
  - change (roundup (crop_width (src_format to_codec)) 16) with 16. small_views.
  - exists m1, m2. split; [exact E1|]. split; [exact E2|].
    apply (K (Luma, 2, 1, 0)). vm_compute. intuition discriminate.
Defined.

(** NV21 to the private variant of NV12. *)
Definition nv21_to_priv : CSC_HANDLE :=
  small_handle (small_format HAL_PIXEL_FORMAT_YCrCb_420_SP 4 2 4 2)
    (small_format HAL_PIXEL_FORMAT_EXYNOS_YCbCr_420_SP_M_PRIV 4 2 4 2) (0, 1000, 2000) (3000, 4000, 5000) CSC_MEMORY_USERPTR.

Lemma yvu420sp_to_priv_swaps_chroma_witness :
  exists m', conv_sw nv21_to_priv small_mem = Some (CSC_ErrorNone, m') /\ m' !! 4000 = small_mem !! 1000.
Proof.
  destruct (yvu420sp_to_priv_swaps_chroma nv21_to_priv small_mem) as (m' & E & K).
  - small_frame.
  - discriminate.
  - apply (bool_decide_unpack _). vm_compute. exact I.
  - reflexivity.
  - small_views.
  - exists m'. split; [exact E|]. apply (K 0 0). vm_compute. intuition discriminate.
Defined.

(** P010 has no 8-bit destination. *)
Lemma conv_sw_refuses_witness :
  conv_sw (small_handle (small_format HAL_PIXEL_FORMAT_YCBCR_P010 4 2 4 2)
    (small_format HAL_PIXEL_FORMAT_EXYNOS_YCbCr_420_SP 4 2 4 2) (0, 1000, 2000) (3000, 4000, 5000) 0) small_mem =
  Some (CSC_ErrorUnsupportFormat, small_mem).
Proof. apply conv_sw_refuses; [discriminate|]. apply (bool_decide_unpack _). vm_compute. exact I. Defined.

(** A 2x2 picture of BGRA pixels to NV12. *)
Definition bgra_to_nv12 : CSC_HANDLE :=
  small_handle (small_format HAL_PIXEL_FORMAT_BGRA_8888 2 2 2 2)
    (small_format HAL_PIXEL_FORMAT_EXYNOS_YCbCr_420_SP 2 2 2 2) (0, 1000, 2000) (3000, 4000, 5000) 0.

Lemma small_region a n : (exists i, 0 <= i <= 8 /\ 1000 * i <= a /\ a + n <= 1000 * i + 64) -> mapped small_mem a n.
Proof. intros (i & Hi & Ha) k Hk. apply small_mapped. exists i. lia. Qed.

Lemma conv_sw_rgb_picture_witness :
  exists m', conv_sw bgra_to_nv12 small_mem = Some (CSC_ErrorNone, m') /\ m' !! 3003 = Some 27.
Proof.
  destruct (conv_sw_rgb_picture bgra_to_nv12 small_mem BGRA8888 (Pairs false)) as (m' & E & K & _).
  - discriminate.
  - reflexivity.
  - vm_compute. reflexivity.
  - discriminate.
  - reflexivity.
  - reflexivity.
  - unfold rgb_layout. split.
    + vm_compute. intuition discriminate.
    + split; apply small_region; [exists 3|exists 4]; vm_compute; intuition discriminate.
    + apply small_region. exists 0. vm_compute. intuition discriminate.
    + vm_compute. intuition discriminate.
    + vm_compute. intuition discriminate.
  - exists m'. split; [exact E|]. apply (K (Luma, 1, 1, 0)). vm_compute. intuition discriminate.
Defined.

(** A 2x2 tiled frame to NV12. *)
Definition tiled_to_nv12 : CSC_HANDLE :=
  small_handle (small_format HAL_PIXEL_FORMAT_EXYNOS_YCbCr_420_SP_M_TILED 16 16 2 2)
    (small_format HAL_PIXEL_FORMAT_EXYNOS_YCbCr_420_SP_M 2 2 2 2) (0, 1000, 0) (3000, 4000, 0) 0.
Definition tiled_mem : mem :=
  fill 2 4000 (fun _ => 0) (fill 4 3000 (fun _ => 0) (fill 128 1000 (fun k => k) (fill 256 0 (fun k => k) ∅))).

Lemma conv_sw_tiled_picture_witness :
  exists m', conv_sw tiled_to_nv12 tiled_mem = Some (CSC_ErrorNone, m') /\ m' !! 3002 = tiled_mem !! 16.
Proof.
  destruct (conv_sw_tiled_picture tiled_to_nv12 tiled_mem (Pairs false)) as (m' & E & K & _).
  - apply (bool_decide_unpack _). vm_compute. exact I.
  - vm_compute. reflexivity.
  - by right.
  - unfold tiled_layout. cbn [app all_mapped all_apart outputs_apart].
    change (tiled_size 16 _ _) with 256. change (tiled_size 8 _ _) with 128.
    change (crop_width (src_format tiled_to_nv12)) with 2. change (crop_height (src_format tiled_to_nv12)) with 2.
    change (plane (src_buffer tiled_to_nv12) 0) with 0. change (plane (src_buffer tiled_to_nv12) 1) with 1000.
    change (plane (dst_buffer tiled_to_nv12) 0) with 3000. change (plane (dst_buffer tiled_to_nv12) 1) with 4000.
    change (2 `div` 2) with 1. change (2 * 2) with 4. change (2 * 1) with 2.
    split; [lia|]. split; [lia|]. split; [done|]. split; [done|]. split; [lia|]. split.
    + unfold tiled_mem. repeat split.
      * apply mapped_fill_other, (mapped_fill 4).
      * apply (mapped_fill 2).
      * do 3 apply mapped_fill_other. apply (mapped_fill 256).
      * do 2 apply mapped_fill_other. apply (mapped_fill 128).
    + unfold apart. repeat split; lia.
  - exists m'. split; [exact E|]. apply (K (Luma, 0, 1, 0)). vm_compute. intuition discriminate.
Defined.
