(* ===== verification/CscHandle.v ===== *)
(** * Colour space converter: the converter object

    The public operations of [src/libcsc/csc.c] on the objects that [csc_init]
    allocates, built with [USES_GSCALER] and [DEFAULT_CSC_HW] 5.  The scaler driver
    [libexynosscaler] and the allocator are the environment. *)

From S2P Require Import Prelude Effects CMem PixelFormats CscData CscSw.

Definition DEFAULT_CSC_HW : Z := 5.

(** ** The environment *)

(** The calls of [libexynosscaler], with their arguments; the first one but in
    [exynos_sc_create] is the scaler handle. *)
Inductive sc_call :=
  | exynos_sc_create (dev_num : Z)
  | exynos_sc_destroy (sc : Z)
  | exynos_sc_set_csc_property (sc range colorspace filter : Z)
  | exynos_sc_set_src_format (sc width height crop_left crop_top crop_width crop_height
                              v4l2_colorformat cacheable mode_drm premultiplied : Z)
  | exynos_sc_set_dst_format (sc width height crop_left crop_top crop_width crop_height
                              v4l2_colorformat cacheable mode_drm premultiplied : Z)
  | exynos_sc_set_src_addr (sc : Z) (addr : Z * Z * Z) (mem_type acquireFenceFd : Z)
  | exynos_sc_set_dst_addr (sc : Z) (addr : Z * Z * Z) (mem_type acquireFenceFd : Z)
  | exynos_sc_set_framerate (sc framerate : Z)
  | exynos_sc_set_rotation (sc rotation flip_horizontal flip_vertical : Z)
  | exynos_sc_convert (sc : Z).

(** The calls made so far, latest first, each with its result. *)
Definition sc_log := list (sc_call * Z).

(** How the driver answers a call, what a conversion does to the memory, the
    format translation of the driver library, and the addresses [malloc] gives. *)
Class Environment := {
  sc_answer : sc_log -> sc_call -> Z;
  sc_effect : sc_log -> sc_call -> mem -> mem;
  hal_pixfmt_to_v4l2 : Z -> Z;
  malloc : gmap Z CSC_HANDLE -> Z
}.

(** ** State

    The allocated converter objects by address, the memory and the log of the
    driver. *)
Record world := {
  handles : gmap Z CSC_HANDLE;
  memory : mem;
  log : sc_log
}.

(** Operations; [None] is undefined behaviour, such as an access to an object that
    was freed. *)
Abbreviation W := (ST world).

(** [*handle], assignments to its fields, and [free(handle)]. *)
Definition deref (p : Z) : W CSC_HANDLE := fun w =>
  match handles w !! p with Some h => Some (h, w) | None => None end.
Definition assign (p : Z) (f : CSC_HANDLE -> CSC_HANDLE) : W unit := fun w =>
  match handles w !! p with
  | Some h => Some (tt, {| handles := <[p := f h]> (handles w); memory := memory w; log := log w |})
  | None => None
  end.
Definition free (p : Z) : W unit := fun w =>
  match handles w !! p with
  | Some _ => Some (tt, {| handles := delete p (handles w); memory := memory w; log := log w |})
  | None => None
  end.

(** A call of the driver. *)
Definition call `{Environment} (c : sc_call) : W Z := fun w =>
  let r := sc_answer (log w) c in
  Some (r, {| handles := handles w; memory := sc_effect (log w) c (memory w); log := (c, r) :: log w |}).

(** A computation on the memory only. *)
Definition on_memory {A} (p : M A) : W A := fun w =>
  match p (memory w) with
  | Some (a, m) => Some (a, {| handles := handles w; memory := m; log := log w |})
  | None => None
  end.

(** ** Field updates *)

Definition set_dst_fmt (f : CSC_FORMAT) (h : CSC_HANDLE) : CSC_HANDLE := h <| dst_format := f |>.
Definition set_src_fmt (f : CSC_FORMAT) (h : CSC_HANDLE) : CSC_HANDLE := h <| src_format := f |>.
Definition set_buffers (d s : CSC_BUFFER) (h : CSC_HANDLE) : CSC_HANDLE :=
  h <| dst_buffer := d |> <| src_buffer := s |>.
Definition set_method (m : Z) (h : CSC_HANDLE) : CSC_HANDLE := h <| csc_method := m |>.
Definition set_hw (ty sc : Z) (h : CSC_HANDLE) : CSC_HANDLE := h <| csc_hw_type := ty |> <| csc_hw_handle := sc |>.
Definition set_property (q : CSC_HW_PROPERTY) (h : CSC_HANDLE) : CSC_HANDLE := h <| hw_property := q |>.
Definition set_eq (mode range space : Z) (h : CSC_HANDLE) : CSC_HANDLE :=
  h <| csc_mode := mode |> <| csc_range := range |> <| colorspace := space |>.
Definition set_filter (f : Z) (h : CSC_HANDLE) : CSC_HANDLE := h <| filter := f |>.
Definition set_rate (r : Z) (h : CSC_HANDLE) : CSC_HANDLE := h <| frame_rate := r |>.

(** ** The operations *)

Section operations.
Context `{AndroidFormats, Environment}.

(** The memory after [memset(csc_handle, 0, sizeof(CSC_HANDLE))]. *)
Definition zero_format : CSC_FORMAT := {|
  width := 0; height := 0; crop_left := 0; crop_top := 0; crop_width := 0; crop_height := 0;
  color_format := 0; cacheable := 0; format_mode_drm := 0 |}.
Definition zero_buffer : CSC_BUFFER := {| planes := (0, 0, 0); mem_type := 0 |}.
Definition zero_handle : CSC_HANDLE := {|
  dst_format := zero_format; src_format := zero_format; dst_buffer := zero_buffer; src_buffer := zero_buffer;
  csc_method := 0; csc_hw_type := 0; csc_hw_handle := 0; hw_property := {| fixed_node := 0; mode_drm := 0 |};
  csc_mode := 0; csc_range := 0; colorspace := 0; filter := 0; frame_rate := 0 |}.

Definition csc_init (method : Z) : W Z := fun w =>
  let p := malloc (handles w) in
  if p =? 0 then Some (0, w) else
  let h := set_method method (set_property {| fixed_node := DEFAULT_CSC_HW; mode_drm := 0 |} zero_handle) in
  Some (p, {| handles := <[p := h]> (handles w); memory := memory w; log := log w |}).

Definition conv_hw (p : Z) : W CSC_ERRORCODE :=
  h ← deref p;
  if csc_hw_type h =? CSC_HW_TYPE_GSCALER then
    if CSC_HW_SC0 <=? fixed_node (hw_property h) then
      r ← call (exynos_sc_convert (csc_hw_handle h));
      mret (if r =? 0 then CSC_ErrorNone else CSC_Error)
    else mret CSC_Error
  else mret CSC_ErrorNotImplemented.

(** Without the [ALOGV] at its end, which is compiled out unless verbose logs are on; it
    would read [csc_method] through the pointer that has just been freed and set to
    [NULL]. *)
Definition csc_init_hw (p : Z) : W CSC_ERRORCODE :=
  h ← deref p;
  (if csc_method h =? CSC_METHOD_HW then
     let node := fixed_node (hw_property h) in
     if (CSC_HW_SC0 <=? node) && (node <? CSC_HW_MAX) then
       sc ← call (exynos_sc_create (node - CSC_HW_SC0));
       assign p (set_hw CSC_HW_TYPE_GSCALER sc)
     else assign p (set_hw CSC_HW_TYPE_GSCALER 0)
   else mret tt) ;;
  h ← deref p;
  if csc_method h =? CSC_METHOD_HW then
    if csc_hw_handle h =? 0 then free p ;; mret CSC_ErrorNotInit
    else mret CSC_ErrorNone
  else mret CSC_ErrorNone.

Definition csc_set_format (p : Z) : W CSC_ERRORCODE :=
  if p =? 0 then mret CSC_ErrorNotInit else
  h ← deref p;
  (if csc_method h =? CSC_METHOD_HW then
     if csc_hw_type h =? CSC_HW_TYPE_GSCALER then
       if CSC_HW_SC0 <=? fixed_node (hw_property h) then
         call (exynos_sc_set_csc_property (csc_hw_handle h) (csc_range h) (colorspace h) (filter h)) ;;
         let s := src_format h in
         call (exynos_sc_set_src_format (csc_hw_handle h) (width s) (height s) (crop_left s) (crop_top s)
                 (crop_width s) (crop_height s) (hal_pixfmt_to_v4l2 (color_format s)) (cacheable s)
                 (mode_drm (hw_property h)) 1) ;;
         let d := dst_format h in
         call (exynos_sc_set_dst_format (csc_hw_handle h) (width d) (height d) (crop_left d) (crop_top d)
                 (crop_width d) (crop_height d) (hal_pixfmt_to_v4l2 (color_format d)) (cacheable d)
                 (mode_drm (hw_property h)) 1) ;;
         mret tt
       else mret tt
     else mret tt
   else mret tt) ;;
  mret CSC_ErrorNone.

Definition csc_set_buffer (p : Z) : W CSC_ERRORCODE :=
  if p =? 0 then mret CSC_ErrorNotInit else
  h ← deref p;
  (if csc_method h =? CSC_METHOD_HW then
     if csc_hw_type h =? CSC_HW_TYPE_GSCALER then
       if CSC_HW_SC0 <=? fixed_node (hw_property h) then
         call (exynos_sc_set_src_addr (csc_hw_handle h) (planes (src_buffer h)) (mem_type (src_buffer h)) (-1)) ;;
         call (exynos_sc_set_dst_addr (csc_hw_handle h) (planes (dst_buffer h)) (mem_type (dst_buffer h)) (-1)) ;;
         mret tt
       else mret tt
     else mret tt
   else mret tt) ;;
  mret CSC_ErrorNone.

Definition csc_deinit (p : Z) : W CSC_ERRORCODE :=
  if p =? 0 then mret CSC_ErrorNone else
  h ← deref p;
  (if csc_method h =? CSC_METHOD_HW then
     if csc_hw_type h =? CSC_HW_TYPE_GSCALER then
       if CSC_HW_SC0 <=? fixed_node (hw_property h) then
         call (exynos_sc_destroy (csc_hw_handle h)) ;; mret tt
       else mret tt
     else mret tt
   else mret tt) ;;
  free p ;;
  mret CSC_ErrorNone.

(** The getters return the error code and what they store through their pointer
    arguments. *)
Definition csc_get_method (p : Z) : W (CSC_ERRORCODE * option Z) :=
  if p =? 0 then mret (CSC_ErrorNotInit, None) else
  h ← deref p; mret (CSC_ErrorNone, Some (csc_method h)).

Definition csc_set_method (p method : Z) : W CSC_ERRORCODE :=
  if p =? 0 then mret CSC_ErrorNotInit else
  if (method =? CSC_METHOD_SW) || (method =? CSC_METHOD_HW) then
    assign p (set_method method) ;; mret CSC_ErrorNone
  else mret CSC_Error.

Definition csc_set_hw_property (p property value : Z) : W CSC_ERRORCODE :=
  if p =? 0 then mret CSC_ErrorNotInit else
  if property =? CSC_HW_PROPERTY_FIXED_NODE then
    assign p (fun h => set_property {| fixed_node := value; mode_drm := mode_drm (hw_property h) |} h) ;;
    mret CSC_ErrorNone
  else if property =? CSC_HW_PROPERTY_MODE_DRM then
    assign p (fun h => set_property {| fixed_node := fixed_node (hw_property h); mode_drm := value |} h) ;;
    mret CSC_ErrorNone
  else mret CSC_ErrorUnsupportFormat.

Definition csc_get_eq_property (p : Z) : W (CSC_ERRORCODE * option (Z * Z * Z)) :=
  if p =? 0 then mret (CSC_ErrorNotInit, None) else
  h ← deref p; mret (CSC_ErrorNone, Some (csc_mode h, csc_range h, colorspace h)).

Definition csc_set_eq_property (p mode range space : Z) : W CSC_ERRORCODE :=
  if p =? 0 then mret CSC_Error else
  assign p (set_eq mode range space) ;; mret CSC_ErrorNone.

(** [CSC_HW_FILTER] has no negative value: it is compared as an [unsigned int]. *)
Definition csc_set_filter_property (p f : Z) : W CSC_ERRORCODE :=
  if p =? 0 then mret CSC_Error else
  if CSC_FT_MAX <=? u32 f then mret CSC_Error else
  assign p (set_filter f) ;;
  assign p (fun h => set_property {| fixed_node := DEFAULT_CSC_HW; mode_drm := mode_drm (hw_property h) |} h) ;;
  mret CSC_ErrorNone.

Definition csc_set_framerate (p rate : Z) : W CSC_ERRORCODE :=
  if p =? 0 then mret CSC_ErrorNotInit else
  assign p (set_rate rate) ;; mret CSC_ErrorNone.

(** The eight values of a format that the interface passes. *)
Definition format_args (f : CSC_FORMAT) : Z * Z * Z * Z * Z * Z * Z * Z :=
  (width f, height f, crop_left f, crop_top f, crop_width f, crop_height f, color_format f, cacheable f).
Definition with_args (a : Z * Z * Z * Z * Z * Z * Z * Z) (f : CSC_FORMAT) : CSC_FORMAT :=
  let '(w, h, l, t, cw, ch, c, k) := a in
  {| width := w; height := h; crop_left := l; crop_top := t; crop_width := cw; crop_height := ch;
     color_format := c; cacheable := k; format_mode_drm := format_mode_drm f |}.

Definition csc_get_src_format (p : Z) : W (CSC_ERRORCODE * option (Z * Z * Z * Z * Z * Z * Z * Z)) :=
  if p =? 0 then mret (CSC_ErrorNotInit, None) else
  h ← deref p; mret (CSC_ErrorNone, Some (format_args (src_format h))).

Definition csc_set_src_format (p : Z) (a : Z * Z * Z * Z * Z * Z * Z * Z) : W CSC_ERRORCODE :=
  if p =? 0 then mret CSC_ErrorNotInit else
  assign p (fun h => set_src_fmt (with_args a (src_format h)) h) ;; mret CSC_ErrorNone.

Definition csc_get_dst_format (p : Z) : W (CSC_ERRORCODE * option (Z * Z * Z * Z * Z * Z * Z * Z)) :=
  if p =? 0 then mret (CSC_ErrorNotInit, None) else
  h ← deref p; mret (CSC_ErrorNone, Some (format_args (dst_format h))).

Definition csc_set_dst_format (p : Z) (a : Z * Z * Z * Z * Z * Z * Z * Z) : W CSC_ERRORCODE :=
  if p =? 0 then mret CSC_ErrorNotInit else
  assign p (fun h => set_dst_fmt (with_args a (dst_format h)) h) ;; mret CSC_ErrorNone.

Definition csc_set_src_buffer (p : Z) (addr : Z * Z * Z) (mt : Z) : W CSC_ERRORCODE :=
  if p =? 0 then mret CSC_ErrorNotInit else
  assign p (fun h => set_buffers (dst_buffer h) {| planes := addr; mem_type := mt |} h) ;; mret CSC_ErrorNone.

Definition csc_set_dst_buffer (p : Z) (addr : Z * Z * Z) (mt : Z) : W CSC_ERRORCODE :=
  if p =? 0 then mret CSC_ErrorNotInit else
  assign p (fun h => set_buffers {| planes := addr; mem_type := mt |} (src_buffer h) h) ;; mret CSC_ErrorNone.

(** The part of the two conversions before the driver is opened or not. *)
Definition open_scaler (p : Z) : W CSC_ERRORCODE :=
  h ← deref p;
  if (csc_method h =? CSC_METHOD_HW) && (csc_hw_handle h =? 0) then csc_init_hw p else mret CSC_ErrorNone.

(** The part after the parameters are set. *)
Definition run_conversion (p : Z) : W CSC_ERRORCODE :=
  h ← deref p;
  if csc_method h =? CSC_METHOD_HW then conv_hw p else on_memory (conv_sw h).

Definition csc_convert (p : Z) : W CSC_ERRORCODE :=
  if p =? 0 then mret CSC_ErrorNotInit else
  r ← open_scaler p;
  if decide (r <> CSC_ErrorNone) then mret r else
  csc_set_format p ;;
  csc_set_buffer p ;;
  h ← deref p;
  (if CSC_HW_SC0 <=? fixed_node (hw_property h) then
     call (exynos_sc_set_framerate (csc_hw_handle h) (frame_rate h)) ;; mret tt
   else mret tt) ;;
  run_conversion p.

Definition csc_convert_with_rotation (p rotation flip_horizontal flip_vertical : Z) : W CSC_ERRORCODE :=
  if p =? 0 then mret CSC_ErrorNotInit else
  r ← open_scaler p;
  if decide (r <> CSC_ErrorNone) then mret r else
  csc_set_format p ;;
  csc_set_buffer p ;;
  h ← deref p;
  (if CSC_HW_SC0 <=? fixed_node (hw_property h) then
     call (exynos_sc_set_rotation (csc_hw_handle h) rotation flip_horizontal flip_vertical) ;;
     call (exynos_sc_set_framerate (csc_hw_handle h) (frame_rate h)) ;; mret tt
   else mret tt) ;;
  run_conversion p.
End operations.
