(* ===== verification/CscLife.v ===== *)
(** * Colour space converter: life cycle of the converter objects

    What the public operations do to the objects and to the scaler driver: the
    invariant that ties every object to its scaler handle, the calls that a
    conversion makes, and the settings that the operations read back. *)

From S2P Require Import Prelude Effects CMem PixelFormats CscData CscSw CscHandle.

(** ** Calls of the driver *)

(** The scaler handles that were created and not destroyed. *)
Fixpoint live (l : sc_log) : gset Z :=
  match l with
  | [] => ∅
  | (exynos_sc_create _, r) :: l' => if r =? 0 then live l' else {[r]} ∪ live l'
  | (exynos_sc_destroy s, _) :: l' => live l' ∖ {[s]}
  | _ :: l' => live l'
  end.

(** A call is legal when the handle it uses is live; the two calls that
    [csc_convert] makes in software mode too may have the null handle. *)
Definition legal (alive : gset Z) (c : sc_call) : Prop :=
  match c with
  | exynos_sc_create _ => True
  | exynos_sc_destroy s | exynos_sc_convert s
  | exynos_sc_set_csc_property s _ _ _
  | exynos_sc_set_src_format s _ _ _ _ _ _ _ _ _ _
  | exynos_sc_set_dst_format s _ _ _ _ _ _ _ _ _ _
  | exynos_sc_set_src_addr s _ _ _ | exynos_sc_set_dst_addr s _ _ _ => s ∈ alive
  | exynos_sc_set_framerate s _ | exynos_sc_set_rotation s _ _ _ => s = 0 \/ s ∈ alive
  end.

Fixpoint all_legal (l : sc_log) : Prop :=
  match l with [] => True | (c, _) :: l' => legal (live l') c /\ all_legal l' end.

(** A driver that gives out no live handle twice, and an allocator that gives out
    no address in use. *)
Class EnvironmentLaws `{Environment} : Prop := {
  fresh_scaler l n : sc_answer l (exynos_sc_create n) ∉ live l;
  fresh_address hs : malloc hs = 0 \/ hs !! malloc hs = None
}.

(** ** The invariant *)

(** An object has no scaler yet, or a live one. *)
Definition object_ok (alive : gset Z) (h : CSC_HANDLE) : Prop :=
  csc_hw_type h <> CSC_HW_TYPE_GSCALER /\ csc_hw_handle h = 0 \/
  csc_hw_type h = CSC_HW_TYPE_GSCALER /\ csc_hw_handle h <> 0 /\ csc_hw_handle h ∈ alive.

Record wf (w : world) : Prop := {
  wf_null : handles w !! 0 = None;
  wf_object p h : handles w !! p = Some h -> object_ok (live (log w)) h;
  wf_unshared p q h k : handles w !! p = Some h -> handles w !! q = Some k -> p <> q ->
    csc_hw_handle h <> 0 -> csc_hw_handle h <> csc_hw_handle k;
  wf_legal : all_legal (log w)
}.

Section execution.
Context `{AndroidFormats, Environment}.

(** The state after a call, and after several. *)
Definition after (w : world) (c : sc_call) : world :=
  {| handles := handles w; memory := sc_effect (log w) c (memory w); log := (c, sc_answer (log w) c) :: log w |}.
Definition issue (w : world) (cs : list sc_call) : world := fold_left after cs w.

Lemma handles_issue w cs : handles (issue w cs) = handles w.
Proof. revert w. induction cs as [|c cs IH]; intros w; [done|]. simpl. by rewrite IH. Qed.

Lemma deref_some p w h : handles w !! p = Some h -> deref p w = Some (h, w).
Proof. intros E. unfold deref. by rewrite E. Qed.

Lemma call_some c w : call c w = Some (sc_answer (log w) c, after w c).
Proof. done. Qed.

Definition with_object (p : Z) (h : CSC_HANDLE) (w : world) : world :=
  {| handles := <[p := h]> (handles w); memory := memory w; log := log w |}.
Definition without_object (p : Z) (w : world) : world :=
  {| handles := delete p (handles w); memory := memory w; log := log w |}.

Lemma assign_some p f w h : handles w !! p = Some h -> assign p f w = Some (tt, with_object p (f h) w).
Proof. intros E. unfold assign. by rewrite E. Qed.

Lemma free_some p w h : handles w !! p = Some h -> free p w = Some (tt, without_object p w).
Proof. intros E. unfold free. by rewrite E. Qed.

(** ** What the internal steps do *)

(** In hardware mode with a node that has a scaler. *)
Definition hw_ready (h : CSC_HANDLE) : bool :=
  (csc_method h =? CSC_METHOD_HW) && (csc_hw_type h =? CSC_HW_TYPE_GSCALER) &&
  (CSC_HW_SC0 <=? fixed_node (hw_property h)).

Definition format_calls (h : CSC_HANDLE) : list sc_call :=
  let sc := csc_hw_handle h in
  let s := src_format h in
  let d := dst_format h in
  let drm := mode_drm (hw_property h) in
  [exynos_sc_set_csc_property sc (csc_range h) (colorspace h) (filter h);
   exynos_sc_set_src_format sc (width s) (height s) (crop_left s) (crop_top s) (crop_width s) (crop_height s)
     (hal_pixfmt_to_v4l2 (color_format s)) (cacheable s) drm 1;
   exynos_sc_set_dst_format sc (width d) (height d) (crop_left d) (crop_top d) (crop_width d) (crop_height d)
     (hal_pixfmt_to_v4l2 (color_format d)) (cacheable d) drm 1].

Definition buffer_calls (h : CSC_HANDLE) : list sc_call :=
  let sc := csc_hw_handle h in
  [exynos_sc_set_src_addr sc (planes (src_buffer h)) (mem_type (src_buffer h)) (-1);
   exynos_sc_set_dst_addr sc (planes (dst_buffer h)) (mem_type (dst_buffer h)) (-1)].

Definition rotation_calls (h : CSC_HANDLE) (rotation : option (Z * Z * Z)) : list sc_call :=
  match rotation with
  | Some (r, fh, fv) => [exynos_sc_set_rotation (csc_hw_handle h) r fh fv]
  | None => []
  end.

(** The calls before the conversion proper. *)
Definition setup_calls (h : CSC_HANDLE) (rotation : option (Z * Z * Z)) : list sc_call :=
  (if hw_ready h then format_calls h ++ buffer_calls h else []) ++
  (if CSC_HW_SC0 <=? fixed_node (hw_property h) then
     rotation_calls h rotation ++ [exynos_sc_set_framerate (csc_hw_handle h) (frame_rate h)]
   else []).

Lemma csc_set_format_eq p w h : p <> 0 -> handles w !! p = Some h ->
  csc_set_format p w = Some (CSC_ErrorNone, issue w (if hw_ready h then format_calls h else [])).
Proof.
  intros Hp Hh. unfold csc_set_format, hw_ready. rewrite (proj2 (Z.eqb_neq p 0) Hp).
  erewrite bind_some by by apply deref_some. destruct (_ =? CSC_METHOD_HW); [|done]. simpl.
  destruct (_ =? CSC_HW_TYPE_GSCALER); [|done]. by destruct (_ <=? _).
Qed.

Lemma csc_set_buffer_eq p w h : p <> 0 -> handles w !! p = Some h ->
  csc_set_buffer p w = Some (CSC_ErrorNone, issue w (if hw_ready h then buffer_calls h else [])).
Proof.
  intros Hp Hh. unfold csc_set_buffer, hw_ready. rewrite (proj2 (Z.eqb_neq p 0) Hp).
  erewrite bind_some by by apply deref_some. destruct (_ =? CSC_METHOD_HW); [|done]. simpl.
  destruct (_ =? CSC_HW_TYPE_GSCALER); [|done]. by destruct (_ <=? _).
Qed.

Lemma issue_app w cs ds : issue w (cs ++ ds) = issue (issue w cs) ds.
Proof. apply fold_left_app. Qed.

(** Both conversions once the scaler is open or not needed. *)
Definition convert_body (p : Z) (rotation : option (Z * Z * Z)) : W CSC_ERRORCODE :=
  match rotation with
  | None =>
      csc_set_format p ;;
      csc_set_buffer p ;;
      h ← deref p;
      (if CSC_HW_SC0 <=? fixed_node (hw_property h) then
         call (exynos_sc_set_framerate (csc_hw_handle h) (frame_rate h)) ;; mret tt
       else mret tt) ;;
      run_conversion p
  | Some (r, fh, fv) =>
      csc_set_format p ;;
      csc_set_buffer p ;;
      h ← deref p;
      (if CSC_HW_SC0 <=? fixed_node (hw_property h) then
         call (exynos_sc_set_rotation (csc_hw_handle h) r fh fv) ;;
         call (exynos_sc_set_framerate (csc_hw_handle h) (frame_rate h)) ;; mret tt
       else mret tt) ;;
      run_conversion p
  end.

Lemma convert_body_eq p rotation w h : p <> 0 -> handles w !! p = Some h ->
  convert_body p rotation w = run_conversion p (issue w (setup_calls h rotation)).
Proof.
  intros Hp Hh. unfold setup_calls.
  assert (E : (csc_set_format p ;; csc_set_buffer p) w =
    Some (CSC_ErrorNone, issue w (if hw_ready h then format_calls h ++ buffer_calls h else []))).
  { erewrite bind_some by by apply csc_set_format_eq.
    rewrite (csc_set_buffer_eq p _ h); [|done|by rewrite handles_issue].
    rewrite <- issue_app. by destruct (hw_ready h). }
  rewrite issue_app. set (w1 := issue w (if hw_ready h then _ else _)) in *.
  assert (Hh1 : handles w1 !! p = Some h) by (unfold w1; by rewrite handles_issue).
  assert (A : forall B (k : W B), (csc_set_format p ;; csc_set_buffer p ;; k) w = k w1).
  { intros B k. revert E. unfold mbind, ST_bind. destruct (csc_set_format p w) as [[? w0]|]; [|done].
    by intros ->. }
  destruct rotation as [[[r fh] fv]|]; unfold convert_body; rewrite A;
    rewrite (bind_some (deref p) _ w1 h w1) by (by apply deref_some); by destruct (_ <=? _).
Qed.

Lemma csc_convert_eq p : csc_convert p =
  (if p =? 0 then mret CSC_ErrorNotInit else
   r ← open_scaler p; if decide (r <> CSC_ErrorNone) then mret r else convert_body p None).
Proof. done. Qed.

Lemma csc_convert_with_rotation_eq p r fh fv : csc_convert_with_rotation p r fh fv =
  (if p =? 0 then mret CSC_ErrorNotInit else
   e ← open_scaler p; if decide (e <> CSC_ErrorNone) then mret e else convert_body p (Some (r, fh, fv))).
Proof. done. Qed.
End execution.

(** ** Preservation of the invariant *)

Section preservation.
Context `{AndroidFormats, EnvironmentLaws}.

Definition plain (c : sc_call) : bool :=
  match c with exynos_sc_create _ | exynos_sc_destroy _ => false | _ => true end.

Lemma live_after w c : plain c = true -> live (log (after w c)) = live (log w).
Proof. by destruct c. Qed.

Lemma object_ok_mono a a' h : object_ok a h -> a ⊆ a' -> object_ok a' h.
Proof. unfold object_ok. intros [?|(? & ? & ?)] Ha; [by left|right]. auto. Qed.

Lemma wf_live w w' : wf w -> handles w' = handles w -> live (log w) ⊆ live (log w') ->
  all_legal (log w') -> wf w'.
Proof.
  intros [N O U L] Hh Hl HL. split; rewrite ?Hh; [done| |done|done].
  intros p h Hp. by eapply object_ok_mono; [apply (O p)|].
Qed.

Lemma wf_after w c : wf w -> plain c = true -> legal (live (log w)) c -> wf (after w c).
Proof.
  intros Hw Hc Hl. apply (wf_live w); [done|done|by rewrite live_after|].
  split; [done|apply wf_legal, Hw].
Qed.

Lemma wf_issue w cs : wf w -> Forall (fun c => plain c = true /\ legal (live (log w)) c) cs ->
  wf (issue w cs) /\ live (log (issue w cs)) = live (log w).
Proof.
  revert w. induction cs as [|c cs IH]; intros w Hw Hc; [done|]. simpl.
  apply Forall_cons in Hc as [[Hp Hl] Hc]. rewrite <- (live_after w c Hp).
  apply IH; [by apply wf_after|]. by rewrite live_after.
Qed.

Lemma wf_create w n : wf w -> wf (after w (exynos_sc_create n)).
Proof.
  intros Hw. apply (wf_live w); [done|done| |split; [done|apply wf_legal, Hw]].
  simpl. destruct (_ =? 0); set_solver.
Qed.

Lemma wf_with_object w p h : wf w -> p <> 0 -> object_ok (live (log w)) h ->
  (forall q k, handles w !! q = Some k -> q <> p -> csc_hw_handle h <> 0 -> csc_hw_handle k <> csc_hw_handle h) ->
  wf (with_object p h w).
Proof.
  intros [N O U L] Hp Ho Hu. split; simpl.
  - by rewrite lookup_insert_ne.
  - intros q k. rewrite lookup_insert. case_decide; [by intros [= <-]|apply O].
  - intros q r k j. rewrite !lookup_insert. repeat case_decide; subst.
    + congruence.
    + intros [= <-] Hj Hn Hz. specialize (Hu r j Hj ltac:(congruence) Hz). congruence.
    + intros Hk [= <-] Hn Hz E. apply (Hu q k Hk ltac:(congruence)); congruence.
    + apply U.
  - done.
Qed.

(** An update of a field that is not about the scaler. *)
Definition scaler_untouched (f : CSC_HANDLE -> CSC_HANDLE) : Prop :=
  forall h, csc_hw_type (f h) = csc_hw_type h /\ csc_hw_handle (f h) = csc_hw_handle h.

Lemma wf_update w p h f : wf w -> handles w !! p = Some h -> scaler_untouched f ->
  wf (with_object p (f h) w).
Proof.
  intros Hw Hp Hf. destruct (Hf h) as [E1 E2]. apply wf_with_object; [done| | |].
  - intros ->. by rewrite (wf_null w Hw) in Hp.
  - unfold object_ok. rewrite E1, E2. by apply (wf_object w Hw p).
  - rewrite E2. intros q k Hq Hn Hz E. by apply (wf_unshared w Hw p q h k).
Qed.

Lemma wf_without w p : wf w -> wf (without_object p w).
Proof.
  intros [N O U L]. split; simpl.
  - rewrite lookup_delete. by case_decide.
  - intros q k. rewrite lookup_delete. case_decide; [done|apply O].
  - intros q r k j. rewrite !lookup_delete. repeat case_decide; try done. apply U.
  - done.
Qed.

(** The scaler of an object is destroyed together with it. *)
Lemma wf_destroy w p h : wf w -> handles w !! p = Some h -> csc_hw_type h = CSC_HW_TYPE_GSCALER ->
  wf (without_object p (after w (exynos_sc_destroy (csc_hw_handle h)))).
Proof.
  intros Hw Hp Ht. destruct (wf_object w Hw p h Hp) as [[? _]|(_ & Hz & Hl)]; [done|].
  split; simpl.
  - rewrite lookup_delete. by case_decide; [|apply Hw].
  - intros q k. rewrite lookup_delete. case_decide as Hq; [done|]. intros Hk.
    destruct (wf_object w Hw q k Hk) as [?|(? & ? & ?)]; [by left|right].
    pose proof (wf_unshared w Hw p q h k Hp Hk Hq Hz). set_solver.
  - intros q r k j. rewrite !lookup_delete. repeat case_decide; try done. apply Hw.
  - split; [done|apply Hw].
Qed.

(** An object that gets its scaler. *)
Lemma wf_open w p h n : wf w -> handles w !! p = Some h ->
  let r := sc_answer (log w) (exynos_sc_create n) in r <> 0 ->
  wf (with_object p (set_hw CSC_HW_TYPE_GSCALER r h) (after w (exynos_sc_create n))).
Proof.
  intros Hw Hp r Hr. apply wf_with_object; [by apply wf_create| | |].
  - intros ->. by rewrite (wf_null w Hw) in Hp.
  - right. split; [done|]. split; [done|]. simpl. fold r. rewrite (proj2 (Z.eqb_neq r 0) Hr). set_solver.
  - intros q k Hk Hn _ E. simpl in E. destruct (wf_object w Hw q k Hk) as [[_ E0]|(_ & _ & Hl)].
    + congruence.
    + rewrite E in Hl. by apply (fresh_scaler (log w) n).
Qed.

(** ** The operations in closed form *)

(** The attempt to open the driver for an object. *)
Definition opened (p : Z) (h : CSC_HANDLE) (w : world) : Z * world :=
  let node := fixed_node (hw_property h) in
  if (CSC_HW_SC0 <=? node) && (node <? CSC_HW_MAX) then
    let c := exynos_sc_create (node - CSC_HW_SC0) in (sc_answer (log w) c, after w c)
  else (0, w).

Lemma open_scaler_eq p w h : handles w !! p = Some h ->
  open_scaler p w =
    if (csc_method h =? CSC_METHOD_HW) && (csc_hw_handle h =? 0) then
      let '(sc, w1) := opened p h w in
      if sc =? 0 then Some (CSC_ErrorNotInit, without_object p w1)
      else Some (CSC_ErrorNone, with_object p (set_hw CSC_HW_TYPE_GSCALER sc h) w1)
    else Some (CSC_ErrorNone, w).
Proof.
  intros Hp. unfold open_scaler. rewrite (bind_some _ _ w h w) by (by apply deref_some).
  destruct (_ && _) eqn:E; [|done]. apply andb_prop in E as [Em%Z.eqb_eq _].
  assert (F : forall sc w1, handles w1 = handles w ->
    (h1 ← deref p;
     if csc_method h1 =? CSC_METHOD_HW then
       if csc_hw_handle h1 =? 0 then free p ;; mret CSC_ErrorNotInit else mret CSC_ErrorNone
     else mret CSC_ErrorNone) (with_object p (set_hw CSC_HW_TYPE_GSCALER sc h) w1) =
    if sc =? 0 then Some (CSC_ErrorNotInit, without_object p w1)
    else Some (CSC_ErrorNone, with_object p (set_hw CSC_HW_TYPE_GSCALER sc h) w1)).
  { intros sc w1 Hw1.
    assert (Hl : handles (with_object p (set_hw CSC_HW_TYPE_GSCALER sc h) w1) !! p =
      Some (set_hw CSC_HW_TYPE_GSCALER sc h)) by apply lookup_insert_eq.
    rewrite (bind_some _ _ _ _ _ (deref_some _ _ _ Hl)). simpl. rewrite Em. simpl.
    destruct (sc =? 0); [|done]. rewrite (bind_some _ _ _ _ _ (free_some _ _ _ Hl)).
    unfold without_object. simpl. by rewrite delete_insert_eq. }
  unfold csc_init_hw, opened. rewrite (bind_some _ _ w h w) by (by apply deref_some). rewrite Em. simpl.
  destruct (_ && _).
  - erewrite bind_some; [apply F|]. 2: { erewrite bind_some by by apply call_some. by apply assign_some. }
    done.
  - erewrite bind_some; [by apply F|by apply assign_some].
Qed.

(** The conversion proper. *)
Lemma run_conversion_eq p w h : handles w !! p = Some h ->
  run_conversion p w =
    if csc_method h =? CSC_METHOD_HW then
      if csc_hw_type h =? CSC_HW_TYPE_GSCALER then
        if CSC_HW_SC0 <=? fixed_node (hw_property h) then
          let c := exynos_sc_convert (csc_hw_handle h) in
          Some (if sc_answer (log w) c =? 0 then CSC_ErrorNone else CSC_Error, after w c)
        else Some (CSC_Error, w)
      else Some (CSC_ErrorNotImplemented, w)
    else on_memory (conv_sw h) w.
Proof.
  intros Hp. unfold run_conversion. rewrite (bind_some _ _ w h w) by (by apply deref_some).
  destruct (_ =? CSC_METHOD_HW); [|done]. unfold conv_hw.
  rewrite (bind_some _ _ w h w) by (by apply deref_some).
  destruct (_ =? CSC_HW_TYPE_GSCALER); [|done]. by destruct (_ <=? _).
Qed.
End preservation.

(** ** Clients *)

(** The public operations with their arguments. *)
Inductive api :=
  | Init (method : Z)
  | Deinit (p : Z)
  | Get_method (p : Z)
  | Set_method (p method : Z)
  | Set_hw_property (p property value : Z)
  | Get_eq_property (p : Z)
  | Set_eq_property (p mode range space : Z)
  | Set_filter_property (p f : Z)
  | Set_framerate (p rate : Z)
  | Get_src_format (p : Z)
  | Set_src_format (p : Z) (a : Z * Z * Z * Z * Z * Z * Z * Z)
  | Get_dst_format (p : Z)
  | Set_dst_format (p : Z) (a : Z * Z * Z * Z * Z * Z * Z * Z)
  | Set_src_buffer (p : Z) (addr : Z * Z * Z) (mt : Z)
  | Set_dst_buffer (p : Z) (addr : Z * Z * Z) (mt : Z)
  | Convert (p : Z)
  | Convert_with_rotation (p rotation flip_horizontal flip_vertical : Z).

Section clients.
Context `{AndroidFormats, EnvironmentLaws}.

Definition perform (a : api) : W unit :=
  match a with
  | Init m => csc_init m ;; mret tt
  | Deinit p => csc_deinit p ;; mret tt
  | Get_method p => csc_get_method p ;; mret tt
  | Set_method p m => csc_set_method p m ;; mret tt
  | Set_hw_property p q v => csc_set_hw_property p q v ;; mret tt
  | Get_eq_property p => csc_get_eq_property p ;; mret tt
  | Set_eq_property p m r s => csc_set_eq_property p m r s ;; mret tt
  | Set_filter_property p f => csc_set_filter_property p f ;; mret tt
  | Set_framerate p r => csc_set_framerate p r ;; mret tt
  | Get_src_format p => csc_get_src_format p ;; mret tt
  | Set_src_format p a => csc_set_src_format p a ;; mret tt
  | Get_dst_format p => csc_get_dst_format p ;; mret tt
  | Set_dst_format p a => csc_set_dst_format p a ;; mret tt
  | Set_src_buffer p a m => csc_set_src_buffer p a m ;; mret tt
  | Set_dst_buffer p a m => csc_set_dst_buffer p a m ;; mret tt
  | Convert p => csc_convert p ;; mret tt
  | Convert_with_rotation p r fh fv => csc_convert_with_rotation p r fh fv ;; mret tt
  end.

(** One operation of a client, and the states that clients can reach. *)
Inductive step (w : world) : world -> Prop :=
  | step_api a w' : perform a w = Some (tt, w') -> step w w'.

Definition start (m : mem) : world := {| handles := ∅; memory := m; log := [] |}.
Definition reachable (w : world) : Prop := exists m, rtc step (start m) w.

(** An operation that keeps the invariant. *)
Abbreviation keeps_wf := (keeps wf).

Lemma keeps_deref p : keeps_wf (deref p).
Proof. intros w r w' Hw. unfold deref. destruct (_ !! _); [|done]. by intros [= _ <-]. Qed.

Lemma keeps_assign p f : scaler_untouched f -> keeps_wf (assign p f).
Proof.
  intros Hf w r w' Hw E. unfold assign in E. destruct (handles w !! p) as [h|] eqn:Hp; [|done].
  injection E as _ <-. by apply wf_update.
Qed.

Lemma keeps_init m : keeps_wf (csc_init m).
Proof.
  intros w r w' Hw. unfold csc_init. destruct (Z.eqb_spec (malloc (handles w)) 0) as [|Hp]; intros [= _ <-]; [done|].
  apply (wf_with_object w _ _ Hw Hp); [by left|done].
Qed.

Lemma keeps_deinit p : keeps_wf (csc_deinit p).
Proof.
  intros w r w' Hw. unfold csc_deinit. destruct (Z.eqb_spec p 0) as [|Hp]; [by intros [= _ <-]|].
  destruct (handles w !! p) as [h|] eqn:Hh; [|unfold mbind, ST_bind, deref; by rewrite Hh].
  rewrite (bind_some _ _ w h w) by (by apply deref_some).
  assert (F : (free p ;; mret CSC_ErrorNone) w = Some (CSC_ErrorNone, without_object p w)).
  { by rewrite (bind_some _ _ _ _ _ (free_some _ _ _ Hh)). }
  destruct (_ =? CSC_METHOD_HW); [|intros E; injection (eq_trans (eq_sym E) F) as -> ->; by apply wf_without].
  destruct (Z.eqb_spec (csc_hw_type h) CSC_HW_TYPE_GSCALER) as [Et|];
    [|intros E; injection (eq_trans (eq_sym E) F) as -> ->; by apply wf_without].
  destruct (_ <=? _); [|intros E; injection (eq_trans (eq_sym E) F) as -> ->; by apply wf_without].
  intros E.
  assert (F' : (free p ;; mret CSC_ErrorNone) (after w (exynos_sc_destroy (csc_hw_handle h))) =
    Some (CSC_ErrorNone, without_object p (after w (exynos_sc_destroy (csc_hw_handle h))))).
  { by rewrite (bind_some _ _ _ _ _ (free_some _ (after w _) _ Hh)). }
  injection (eq_trans (eq_sym E) F') as -> ->. by apply wf_destroy.
Qed.

(** The calls that set a conversion up are legal. *)
Lemma setup_legal a h rotation : object_ok a h ->
  Forall (fun c => plain c = true /\ legal a c) (setup_calls h rotation).
Proof.
  intros Ho. unfold setup_calls. apply Forall_app. split.
  - destruct (hw_ready h) eqn:E; [|done]. unfold hw_ready in E.
    apply andb_prop in E as [[_ E%Z.eqb_eq]%andb_prop _].
    destruct Ho as [[? _]|(_ & _ & Hl)]; [done|]. simpl.
    repeat (apply Forall_cons; split; [by split|]). by apply Forall_nil.
  - assert (Hl : csc_hw_handle h = 0 \/ csc_hw_handle h ∈ a) by (destruct Ho as [[_ ?]|(_ & _ & ?)]; auto).
    destruct (_ <=? _); [|done]. destruct rotation as [[[r fh] fv]|]; simpl;
      repeat (apply Forall_cons; split; [by split|]); apply Forall_nil; done.
Qed.

Lemma wf_run p h w r w' : wf w -> handles w !! p = Some h -> run_conversion p w = Some (r, w') -> wf w'.
Proof.
  intros Hw Hp. rewrite (run_conversion_eq p w h Hp). destruct (_ =? CSC_METHOD_HW).
  - destruct (Z.eqb_spec (csc_hw_type h) CSC_HW_TYPE_GSCALER) as [Et|]; [|by intros [= _ <-]].
    destruct (_ <=? _); intros [= _ <-]; [|done]. apply wf_after; [done|done|].
    destruct (wf_object w Hw p h Hp) as [[? _]|(_ & _ & ?)]; done.
  - unfold on_memory. destruct (conv_sw h (memory w)) as [[a m]|]; [|done]. intros [= _ <-].
    by apply (wf_live w); [| | |apply Hw].
Qed.

Lemma keeps_convert p rotation :
  keeps_wf (if p =? 0 then mret CSC_ErrorNotInit else
    r ← open_scaler p; if decide (r <> CSC_ErrorNone) then mret r else convert_body p rotation).
Proof.
  intros w r w' Hw. destruct (Z.eqb_spec p 0) as [|Hp]; [by intros [= _ <-]|].
  destruct (handles w !! p) as [h|] eqn:Hh; [|unfold open_scaler, mbind, ST_bind, deref; by rewrite Hh].
  assert (C : forall w1 h1, wf w1 -> handles w1 !! p = Some h1 ->
    convert_body p rotation w1 = Some (r, w') -> wf w').
  { intros w1 h1 Hw1 Hh1. rewrite (convert_body_eq p rotation w1 h1) by done.
    destruct (wf_issue w1 (setup_calls h1 rotation)) as [Hi _]; [done|by apply setup_legal, (wf_object w1 Hw1 p)|].
    apply (wf_run p h1); [done|by rewrite handles_issue]. }
  pose proof (open_scaler_eq p w h Hh) as E. unfold opened in E.
  destruct (_ && (csc_hw_handle h =? 0)).
  - destruct ((_ <=? _) && _).
    + destruct (Z.eqb_spec (sc_answer (log w) (exynos_sc_create (fixed_node (hw_property h) - CSC_HW_SC0))) 0) as [E0|E0].
      * rewrite (bind_some _ _ _ _ _ E). intros [= _ <-]. by apply wf_without, wf_create.
      * rewrite (bind_some _ _ _ _ _ E). eapply C; [by apply wf_open|apply lookup_insert_eq].
    + rewrite (bind_some _ _ _ _ _ E). intros [= _ <-]. by apply wf_without.
  - rewrite (bind_some _ _ _ _ _ E). by apply (C w h).
Qed.

(** The proof of [keeps] for an operation that only reads or writes settings. *)
Ltac keeps_settings :=
  repeat first
    [ apply keeps_if | apply keeps_ret | apply keeps_deref
    | apply keeps_bind; [|intros ?]
    | apply keeps_assign; intros ?; split; reflexivity ].

Lemma perform_keeps a : keeps_wf (perform a).
Proof.
  destruct a; (apply keeps_bind; [|intros ?; apply keeps_ret]).
  1: apply keeps_init.
  1: apply keeps_deinit.
  14: rewrite csc_convert_eq; apply keeps_convert.
  14: rewrite csc_convert_with_rotation_eq; apply keeps_convert.
  1: unfold csc_get_method. 2: unfold csc_set_method. 3: unfold csc_set_hw_property.
  4: unfold csc_get_eq_property. 5: unfold csc_set_eq_property. 6: unfold csc_set_filter_property.
  7: unfold csc_set_framerate. 8: unfold csc_get_src_format. 9: unfold csc_set_src_format.
  10: unfold csc_get_dst_format. 11: unfold csc_set_dst_format. 12: unfold csc_set_src_buffer.
  13: unfold csc_set_dst_buffer.
  all: keeps_settings.
Qed.

Lemma reachable_wf w : reachable w -> wf w.
Proof.
  intros [m Hr]. apply (keeps_closure wf step (start m)); [|by split|done].
  intros x y Hx [a y' E]. by apply (perform_keeps a x tt).
Qed.
End clients.

(** ** Sessions *)

Section sessions.
Context `{AndroidFormats, EnvironmentLaws}.

(** Operations one after the other. *)
Fixpoint run (rs : list api) : W unit :=
  match rs with [] => mret tt | a :: rs => perform a ;; run rs end.

Lemma run_steps rs w w' : run rs w = Some (tt, w') -> rtc step w w'.
Proof.
  revert w. induction rs as [|a rs IH]; intros w; simpl; [intros [= <-]; apply rtc_refl|].
  unfold mbind, ST_bind. destruct (perform a w) as [[[] w1]|] eqn:E; [|done].
  intros R. eapply rtc_l; [by apply (step_api w a)|by apply IH].
Qed.

Lemma run_reachable rs m w : run rs (start m) = Some (tt, w) -> reachable w.
Proof. intros R. exists m. by apply (run_steps rs). Qed.

(** The object that an operation is about. *)
Definition target (a : api) : option Z :=
  match a with
  | Init _ => None
  | Deinit p | Get_method p | Set_method p _ | Set_hw_property p _ _ | Get_eq_property p
  | Set_eq_property p _ _ _ | Set_filter_property p _ | Set_framerate p _ | Get_src_format p
  | Set_src_format p _ | Get_dst_format p | Set_dst_format p _ | Set_src_buffer p _ _
  | Set_dst_buffer p _ _ | Convert p | Convert_with_rotation p _ _ _ => Some p
  end.

(** The two conversions. *)
Definition convert (p : Z) (rotation : option (Z * Z * Z)) : W CSC_ERRORCODE :=
  match rotation with
  | None => csc_convert p
  | Some (r, fh, fv) => csc_convert_with_rotation p r fh fv
  end.

Lemma convert_eq p rotation : convert p rotation =
  (if p =? 0 then mret CSC_ErrorNotInit else
   e ← open_scaler p; if decide (e <> CSC_ErrorNone) then mret e else convert_body p rotation).
Proof. by destruct rotation as [[[r fh] fv]|]. Qed.

(** A conversion whose scaler is open or not needed. *)
Lemma convert_run p rotation w h : p <> 0 -> handles w !! p = Some h ->
  csc_method h <> CSC_METHOD_HW \/ csc_hw_handle h <> 0 ->
  convert p rotation w = run_conversion p (issue w (setup_calls h rotation)).
Proof.
  intros Hp Hh Ho. rewrite convert_eq, (proj2 (Z.eqb_neq p 0) Hp).
  assert (E : open_scaler p w = Some (CSC_ErrorNone, w)).
  { rewrite (open_scaler_eq p w h Hh). destruct (Z.eqb_spec (csc_method h) CSC_METHOD_HW); [|done].
    destruct (Z.eqb_spec (csc_hw_handle h) 0); [|done]. by destruct Ho. }
  rewrite (bind_some _ _ _ _ _ E). simpl. by apply convert_body_eq.
Qed.

(** A conversion that opens the scaler first. *)
Lemma convert_open p rotation w h : p <> 0 -> handles w !! p = Some h ->
  csc_method h = CSC_METHOD_HW -> csc_hw_handle h = 0 ->
  let '(sc, w1) := opened p h w in
  convert p rotation w =
    if sc =? 0 then Some (CSC_ErrorNotInit, without_object p w1)
    else let h1 := set_hw CSC_HW_TYPE_GSCALER sc h in
         run_conversion p (issue (with_object p h1 w1) (setup_calls h1 rotation)).
Proof.
  intros Hp Hh Em Eh. destruct (opened p h w) as [sc w1] eqn:Eo.
  rewrite convert_eq, (proj2 (Z.eqb_neq p 0) Hp).
  pose proof (open_scaler_eq p w h Hh) as E. rewrite Em, Eh, Eo in E. simpl in E.
  destruct (sc =? 0); rewrite (bind_some _ _ _ _ _ E); [done|]. simpl.
  apply convert_body_eq; [done|apply lookup_insert_eq].
Qed.
End sessions.
