(* ===== verification/CscApi.v ===== *)
(** * Colour space converter: theorems on the converter objects

    What a client of [src/libcsc/csc.c] may rely on: no call of the scaler driver
    uses a handle that is not open, no operation on an allocated object faults, a
    conversion makes the calls of its settings in order or computes the picture in
    software, and the settings read back are the last ones written.  Also what it
    may not rely on: a conversion that cannot open the scaler frees the object, and
    [csc_deinit] destroys the scaler under two conditions only. *)

From S2P Require Import Prelude Effects CMem PixelFormats CscData CscSw CscPicture CscDispatch CscConvert CscHandle CscLife.

#[local] Set Warnings "-clear-no-such-hyp".

(** ** Operations without faults *)

Section frames.
Context `{AndroidFormats, EnvironmentLaws}.

(** An operation that ends and leaves all objects but [p] alone. *)
Definition confined {A} (p : Z) (w : world) (o : W A) : Prop :=
  exists r w', o w = Some (r, w') /\ forall q, q <> p -> handles w' !! q = handles w !! q.

(** The same for an operation that is defined wherever [p] is allocated, and keeps
    it so. *)
Definition setting {A} (p : Z) (o : W A) : Prop := forall w, is_Some (handles w !! p) ->
  exists r w', o w = Some (r, w') /\ (forall q, q <> p -> handles w' !! q = handles w !! q) /\
    is_Some (handles w' !! p).

Lemma setting_confined {A} p (o : W A) w : setting p o -> is_Some (handles w !! p) -> confined p w o.
Proof. intros Ho Hp. destruct (Ho w Hp) as (r & w' & E & F & _). by exists r, w'. Qed.

Lemma setting_ret {A} p (a : A) : setting p (mret a).
Proof. intros w Hp. by exists a, w. Qed.

Lemma setting_bind {A B} p (o : W A) (k : A -> W B) : setting p o -> (forall a, setting p (k a)) -> setting p (o ≫= k).
Proof.
  intros Ho Hk w Hp. destruct (Ho w Hp) as (a & w1 & E & F & Hp1). destruct (Hk a w1 Hp1) as (r & w2 & E2 & F2 & Hp2).
  exists r, w2. rewrite (bind_some _ _ _ _ _ E). split; [done|]. split; [|done].
  intros q Hq. by rewrite F2, F.
Qed.

Lemma setting_if {A} p (b : bool) (o o' : W A) : setting p o -> setting p o' -> setting p (if b then o else o').
Proof. by destruct b. Qed.

Lemma setting_deref p : setting p (deref p).
Proof. intros w [h Hh]. exists h, w. by rewrite (deref_some p w h). Qed.

Lemma setting_assign p f : setting p (assign p f).
Proof.
  intros w [h Hh]. exists tt, (with_object p (f h) w). rewrite (assign_some p f w h Hh). split; [done|].
  split; [intros q Hq; by apply lookup_insert_ne|]. exists (f h). apply lookup_insert_eq.
Qed.

Lemma confined_then {A} p w (o : W A) : confined p w o -> confined p w (o ;; mret tt).
Proof. intros (r & w' & E & F). exists tt, w'. by rewrite (bind_some _ _ _ _ _ E). Qed.

Lemma confined_deinit p w : is_Some (handles w !! p) -> confined p w (csc_deinit p).
Proof.
  intros [h Hh]. unfold csc_deinit. destruct (p =? 0); [by eexists _, _|].
  unfold confined. setoid_rewrite (bind_some (deref p) _ w h w); [|by apply deref_some].
  assert (R : forall w1, handles w1 = handles w ->
    (free p ;; mret CSC_ErrorNone) w1 = Some (CSC_ErrorNone, without_object p w1) /\
    forall q, q <> p -> handles (without_object p w1) !! q = handles w !! q).
  { intros w1 E1. split; [rewrite (bind_some _ _ _ _ _ (free_some p w1 h ltac:(by rewrite E1))); done|].
    intros q Hq. simpl. rewrite E1. by apply lookup_delete_ne. }
  exists CSC_ErrorNone. destruct (_ =? CSC_METHOD_HW); [destruct (_ =? CSC_HW_TYPE_GSCALER); [destruct (_ <=? _)|]|];
    first [exists (without_object p w); by apply (R w) | idtac].
  exists (without_object p (after w (exynos_sc_destroy (csc_hw_handle h)))). by apply (R (after w _)).
Qed.

(** The memory that a software conversion finds suits it. *)
Definition software_ok (w : world) (p : Z) (rotation : option (Z * Z * Z)) : Prop :=
  forall h, handles w !! p = Some h -> csc_method h <> CSC_METHOD_HW ->
    is_Some (conv_sw h (memory (issue w (setup_calls h rotation)))).

Lemma confined_run p w h cs w0 : handles w !! p = Some h ->
  (forall q, q <> p -> handles w !! q = handles w0 !! q) ->
  (csc_method h <> CSC_METHOD_HW -> is_Some (conv_sw h (memory (issue w cs)))) ->
  exists r w', run_conversion p (issue w cs) = Some (r, w') /\ forall q, q <> p -> handles w' !! q = handles w0 !! q.
Proof.
  intros Hh F S. rewrite (run_conversion_eq p _ h) by (by rewrite handles_issue).
  destruct (Z.eqb_spec (csc_method h) CSC_METHOD_HW) as [|Hm].
  - destruct (_ =? CSC_HW_TYPE_GSCALER); [destruct (_ <=? _)|]; eexists _, _; (split; [done|]);
      intros q Hq; simpl; rewrite ?handles_issue; auto.
  - destruct (S Hm) as [[r m] E]. unfold on_memory. rewrite E. eexists _, _. split; [done|].
    intros q Hq. simpl. rewrite handles_issue. auto.
Qed.

Lemma confined_convert p rotation w : is_Some (handles w !! p) -> software_ok w p rotation ->
  confined p w (convert p rotation).
Proof.
  intros [h Hh] S. destruct (Z.eq_dec p 0) as [->|Hp].
  { exists CSC_ErrorNotInit, w. by rewrite convert_eq. }
  destruct (decide (csc_method h = CSC_METHOD_HW /\ csc_hw_handle h = 0)) as [[Em E0]|Hn].
  - pose proof (convert_open p rotation w h Hp Hh Em E0) as E. unfold opened in E.
    unfold confined. destruct ((_ <=? _) && _).
    + revert E. set (c := exynos_sc_create _). intros ->.
      destruct (sc_answer (log w) c =? 0).
      * eexists _, _. split; [done|]. intros q Hq. by apply lookup_delete_ne.
      * simpl. eapply confined_run; [apply lookup_insert_eq| |by intros []].
        intros q Hq. by apply lookup_insert_ne.
    + rewrite E. eexists _, _. split; [done|]. intros q Hq. by apply lookup_delete_ne.
  - unfold confined. rewrite (convert_run p rotation w h) by (done || (apply not_and_l in Hn; tauto)).
    apply (confined_run p w h); auto.
Qed.

(** C4. No operation faults on an object that is allocated, or on NULL, whatever the
    settings of the object and whatever the driver answers; only a conversion in
    software mode needs buffers that [conv_sw] accepts.  And no operation changes or
    frees another object than its own. *)
Theorem operations_confined w a :
  match target a with Some p => p = 0 \/ is_Some (handles w !! p) | None => True end ->
  match a with
  | Convert p => software_ok w p None
  | Convert_with_rotation p r fh fv => software_ok w p (Some (r, fh, fv))
  | _ => True
  end ->
  exists w', perform a w = Some (tt, w') /\
    forall q h, handles w !! q = Some h -> target a <> Some q -> handles w' !! q = Some h.
Proof.
  intros Ht Hs. destruct (target a) as [p|] eqn:Ea.
  - destruct (decide (p = 0)) as [->|Hp].
    { exists w. split; [|done]. by destruct a; simplify_eq/=. }
    destruct Ht as [|Ht]; [done|].
    assert (C : confined p w (perform a)).
    { destruct a; simplify_eq/=; apply confined_then.
      1: by apply confined_deinit.
      14: by apply (confined_convert p None).
      14: by apply (confined_convert p (Some (rotation, flip_horizontal, flip_vertical))).
      all: apply setting_confined; [|done].
      1: unfold csc_get_method. 2: unfold csc_set_method. 3: unfold csc_set_hw_property.
      4: unfold csc_get_eq_property. 5: unfold csc_set_eq_property. 6: unfold csc_set_filter_property.
      7: unfold csc_set_framerate. 8: unfold csc_get_src_format. 9: unfold csc_set_src_format.
      10: unfold csc_get_dst_format. 11: unfold csc_set_dst_format. 12: unfold csc_set_src_buffer.
      13: unfold csc_set_dst_buffer.
      all: repeat first [apply setting_if | apply setting_ret | apply setting_deref | apply setting_assign
                        | apply setting_bind; [|intros ?]]. }
    destruct C as ([] & w' & E & F). exists w'. split; [done|]. intros q h Hq Hn. rewrite F; congruence.
  - destruct a; try done. simpl. unfold csc_init, mbind, ST_bind.
    destruct (Z.eqb_spec (malloc (handles w)) 0); (eexists; split; [done|]); [done|].
    intros q h Hq _. simpl. rewrite lookup_insert_ne; [done|]. intros Hq'.
    destruct (fresh_address (handles w)) as [|Hf]; congruence.
Qed.
End frames.

(** ** The scaler *)

Section scaler.
Context `{AndroidFormats, EnvironmentLaws}.







(** C7. A conversion in hardware mode whose scaler cannot be opened, because the node
    has no scaler or the driver fails, answers [CSC_ErrorNotInit] and frees the
    object of the caller: any later conversion, reading of the method and even
    [csc_deinit] on it is a use of freed memory. *)
Theorem failed_open_frees_object p rotation w h :
  p <> 0 -> handles w !! p = Some h -> csc_method h = CSC_METHOD_HW -> csc_hw_handle h = 0 ->
  let node := fixed_node (hw_property h) in
  ~ (CSC_HW_SC0 <= node < CSC_HW_MAX) \/ sc_answer (log w) (exynos_sc_create (node - CSC_HW_SC0)) = 0 ->
  exists w', convert p rotation w = Some (CSC_ErrorNotInit, w') /\ handles w' = delete p (handles w) /\
    csc_deinit p w' = None /\ csc_get_method p w' = None /\ forall r, convert p r w' = None.
Proof.
  intros Hp Hh Em E0 node Hf.
  assert (F : exists w', convert p rotation w = Some (CSC_ErrorNotInit, w') /\ handles w' = delete p (handles w)).
  { pose proof (convert_open p rotation w h Hp Hh Em E0) as E. unfold opened in E. fold node in E.
    destruct (Z.leb_spec CSC_HW_SC0 node), (Z.ltb_spec node CSC_HW_MAX); simpl in E;
      first [by eexists; rewrite E | idtac].
    destruct Hf as [Hf|Hf]; [lia|]. rewrite Hf in E. simpl in E. by eexists; rewrite E. }
  destruct F as (w' & E & Ew). exists w'.
  assert (D : deref p w' = None) by (unfold deref; by rewrite Ew, lookup_delete_eq).
  split; [done|]. split; [done|].
  pose proof (proj2 (Z.eqb_neq p 0) Hp) as Np.
  split; [|split; [|intros r; rewrite convert_eq]].
  - unfold csc_deinit, mbind, ST_bind. by rewrite Np, D.
  - unfold csc_get_method, mbind, ST_bind. by rewrite Np, D.
  - unfold open_scaler, mbind, ST_bind. by rewrite Np, D.
Qed.

(** [csc_deinit] frees the object; it destroys the scaler of the object exactly
    when the object is in hardware mode with a node from [CSC_HW_SC0] on.  Otherwise
    the scaler stays open and no object has it any more, so that nothing can ever
    destroy it. *)
Theorem deinit_releases_scaler p w h : reachable w -> handles w !! p = Some h -> csc_hw_handle h <> 0 ->
  exists w', csc_deinit p w = Some (CSC_ErrorNone, w') /\ handles w' = delete p (handles w) /\
    (csc_hw_handle h ∉ live (log w') <->
      csc_method h = CSC_METHOD_HW /\ CSC_HW_SC0 <= fixed_node (hw_property h)) /\
    forall q k, handles w' !! q = Some k -> csc_hw_handle k <> csc_hw_handle h.
Proof.
  intros Hw%reachable_wf Hh E0. destruct (wf_object w Hw p h Hh) as [[_ ?]|(Et & _ & Hl)]; [done|].
  assert (Hp : p <> 0) by (intros ->; by rewrite (wf_null w Hw) in Hh).
  assert (U : forall q k, delete p (handles w) !! q = Some k -> csc_hw_handle k <> csc_hw_handle h).
  { intros q k Hk. apply lookup_delete_Some in Hk as [Hq Hk]. apply not_eq_sym.
    by apply (wf_unshared w Hw p q). }
  unfold csc_deinit. rewrite (proj2 (Z.eqb_neq p 0) Hp), (bind_some _ _ w h w) by (by apply deref_some).
  destruct (Z.eqb_spec (csc_method h) CSC_METHOD_HW) as [Em|Em].
  - rewrite Et. simpl. destruct (Z.leb_spec CSC_HW_SC0 (fixed_node (hw_property h))).
    + exists (without_object p (after w (exynos_sc_destroy (csc_hw_handle h)))).
      split; [exact (bind_some _ _ _ _ _ (free_some p (after w _) h Hh))|]. split; [done|]. split; [|done].
      simpl. set_solver.
    + exists (without_object p w). split; [exact (bind_some _ _ _ _ _ (free_some p w h Hh))|].
      split; [done|]. split; [|done]. simpl. split; [done|lia].
  - exists (without_object p w). split; [exact (bind_some _ _ _ _ _ (free_some p w h Hh))|].
    split; [done|]. split; [|done]. simpl. naive_solver.
Qed.
End scaler.

(** ** Settings *)

Section settings.
Context `{AndroidFormats, EnvironmentLaws}.

(** A request that writes settings of the object [p]. *)
Definition sets (p : Z) (r : api) : Prop :=
  match r with
  | Set_method q _ | Set_hw_property q _ _ | Set_eq_property q _ _ _ | Set_filter_property q _
  | Set_framerate q _ | Set_src_format q _ | Set_dst_format q _ | Set_src_buffer q _ _
  | Set_dst_buffer q _ _ => q = p
  | _ => False
  end.

(** What each request writes to each setting, if it does. *)
Definition method_of (r : api) : option Z :=
  match r with
  | Set_method _ m => if (m =? CSC_METHOD_SW) || (m =? CSC_METHOD_HW) then Some m else None
  | _ => None
  end.
Definition filter_of (r : api) : option Z :=
  match r with Set_filter_property _ f => if u32 f <? CSC_FT_MAX then Some f else None | _ => None end.
Definition node_of (r : api) : option Z :=
  match r with
  | Set_hw_property _ q v => if q =? CSC_HW_PROPERTY_FIXED_NODE then Some v else None
  | _ => match filter_of r with Some _ => Some DEFAULT_CSC_HW | None => None end
  end.
Definition drm_of (r : api) : option Z :=
  match r with Set_hw_property _ q v => if q =? CSC_HW_PROPERTY_MODE_DRM then Some v else None | _ => None end.
Definition eq_of (r : api) : option (Z * Z * Z) :=
  match r with Set_eq_property _ m r s => Some (m, r, s) | _ => None end.
Definition rate_of (r : api) : option Z := match r with Set_framerate _ v => Some v | _ => None end.
Definition src_of (r : api) : option (Z * Z * Z * Z * Z * Z * Z * Z) :=
  match r with Set_src_format _ a => Some a | _ => None end.
Definition dst_of (r : api) : option (Z * Z * Z * Z * Z * Z * Z * Z) :=
  match r with Set_dst_format _ a => Some a | _ => None end.
Definition src_buffer_of (r : api) : option CSC_BUFFER :=
  match r with Set_src_buffer _ a m => Some {| planes := a; mem_type := m |} | _ => None end.
Definition dst_buffer_of (r : api) : option CSC_BUFFER :=
  match r with Set_dst_buffer _ a m => Some {| planes := a; mem_type := m |} | _ => None end.

(** The last value written, or the initial one. *)
Definition latest {A} (f : api -> option A) (initial : A) (rs : list api) : A :=
  fold_left (fun v r => default v (f r)) rs initial.

(** The object after a request. *)
Definition write (h : CSC_HANDLE) (r : api) : CSC_HANDLE :=
  match r with
  | Set_method _ m => if (m =? CSC_METHOD_SW) || (m =? CSC_METHOD_HW) then set_method m h else h
  | Set_hw_property _ q v =>
      if q =? CSC_HW_PROPERTY_FIXED_NODE then set_property {| fixed_node := v; mode_drm := mode_drm (hw_property h) |} h
      else if q =? CSC_HW_PROPERTY_MODE_DRM then
        set_property {| fixed_node := fixed_node (hw_property h); mode_drm := v |} h
      else h
  | Set_eq_property _ m r s => set_eq m r s h
  | Set_filter_property _ f =>
      if CSC_FT_MAX <=? u32 f then h
      else set_property {| fixed_node := DEFAULT_CSC_HW; mode_drm := mode_drm (hw_property h) |} (set_filter f h)
  | Set_framerate _ v => set_rate v h
  | Set_src_format _ a => set_src_fmt (with_args a (src_format h)) h
  | Set_dst_format _ a => set_dst_fmt (with_args a (dst_format h)) h
  | Set_src_buffer _ a m => set_buffers (dst_buffer h) {| planes := a; mem_type := m |} h
  | Set_dst_buffer _ a m => set_buffers {| planes := a; mem_type := m |} (src_buffer h) h
  | _ => h
  end.

Lemma with_object_id p w h : handles w !! p = Some h -> with_object p h w = w.
Proof. intros Hh. unfold with_object. rewrite insert_id by done. by destruct w. Qed.

Lemma with_object_twice p w h h' : with_object p h' (with_object p h w) = with_object p h' w.
Proof. unfold with_object. simpl. by rewrite insert_insert_eq. Qed.

Lemma perform_set p r w h : p <> 0 -> sets p r -> handles w !! p = Some h ->
  perform r w = Some (tt, with_object p (write h r) w).
Proof.
  intros Hp Hs Hh. pose proof (proj2 (Z.eqb_neq p 0) Hp) as Np.
  assert (A : forall f, (assign p f ;; mret CSC_ErrorNone) w = Some (CSC_ErrorNone, with_object p (f h) w)).
  { intros f. by rewrite (bind_some _ _ _ _ _ (assign_some p f w h Hh)). }
  pose proof (with_object_id p w h Hh) as I.
  destruct r; simpl in Hs; try done; subst; unfold perform;
    unfold csc_set_method, csc_set_hw_property, csc_set_eq_property, csc_set_filter_property, csc_set_framerate,
      csc_set_src_format, csc_set_dst_format, csc_set_src_buffer, csc_set_dst_buffer; rewrite Np;
    clear Np; try (by rewrite (bind_some _ _ _ _ _ (A _))); unfold write.
  - destruct (_ || _); [by rewrite (bind_some _ _ _ _ _ (A _))|]. by rewrite I.
  - destruct (_ =? _); [by rewrite (bind_some _ _ _ _ _ (A _))|].
    destruct (_ =? _); [by rewrite (bind_some _ _ _ _ _ (A _))|]. by rewrite I.
  - destruct (_ <=? _); [by rewrite I|].
    set (k := fun x : CSC_HANDLE => _). set (g := set_filter f).
    assert (E : (assign p g ;; assign p k ;; mret CSC_ErrorNone) w = Some (CSC_ErrorNone, with_object p (k (g h)) w)).
    { rewrite (bind_some _ _ _ _ _ (assign_some p g w h Hh)).
      assert (Hl : handles (with_object p (g h) w) !! p = Some (g h)) by apply lookup_insert_eq.
      rewrite (bind_some _ _ _ _ _ (assign_some p k _ _ Hl)). by rewrite with_object_twice. }
    by rewrite (bind_some _ _ _ _ _ E).
Qed.

Lemma run_sets p rs w h : p <> 0 -> Forall (sets p) rs -> handles w !! p = Some h ->
  run rs w = Some (tt, with_object p (fold_left write rs h) w).
Proof.
  intros Hp. revert w h. induction rs as [|r rs IH]; intros w h Hs Hh; simpl.
  - by rewrite with_object_id.
  - apply Forall_cons in Hs as [Hr Hs]. rewrite (bind_some _ _ _ _ _ (perform_set p r w h Hp Hr Hh)).
    erewrite IH; [|done|apply lookup_insert_eq]. by rewrite with_object_twice.
Qed.

Lemma latest_written {A} (g : CSC_HANDLE -> A) f rs h : (forall r h, g (write h r) = default (g h) (f r)) ->
  g (fold_left write rs h) = latest f (g h) rs.
Proof. intros Hg. revert h. induction rs as [|r rs IH]; intros h; [done|]. simpl. by rewrite IH, Hg. Qed.

(** The object that [csc_init] makes. *)
Definition fresh_object (m : Z) : CSC_HANDLE :=
  set_method m (set_property {| fixed_node := DEFAULT_CSC_HW; mode_drm := 0 |} zero_handle).

Lemma csc_init_eq m w : malloc (handles w) <> 0 ->
  csc_init m w = Some (malloc (handles w), with_object (malloc (handles w)) (fresh_object m) w).
Proof. intros Hp. unfold csc_init. by rewrite (proj2 (Z.eqb_neq _ 0) Hp). Qed.

(** C5. The settings of an object refine a record of last writes: after [csc_init]
    and any requests, valid or not, in any order, the getters store the last valid
    values written or the initial ones, and the fields that conversions use hold the
    same; neither the other objects nor the memory nor the driver are touched.  A
    valid filter request is a request for the default node too. *)
Theorem settings_are_last_writes m rs w : let p := malloc (handles w) in
  p <> 0 -> Forall (sets p) rs ->
  exists w1 w2 h, csc_init m w = Some (p, w1) /\ run rs w1 = Some (tt, w2) /\
    csc_get_method p w2 = Some ((CSC_ErrorNone, Some (latest method_of m rs)), w2) /\
    csc_get_eq_property p w2 = Some ((CSC_ErrorNone, Some (latest eq_of (0, 0, 0) rs)), w2) /\
    csc_get_src_format p w2 = Some ((CSC_ErrorNone, Some (latest src_of (0, 0, 0, 0, 0, 0, 0, 0) rs)), w2) /\
    csc_get_dst_format p w2 = Some ((CSC_ErrorNone, Some (latest dst_of (0, 0, 0, 0, 0, 0, 0, 0) rs)), w2) /\
    handles w2 = <[p := h]> (handles w) /\ memory w2 = memory w /\ log w2 = log w /\
    fixed_node (hw_property h) = latest node_of DEFAULT_CSC_HW rs /\
    mode_drm (hw_property h) = latest drm_of 0 rs /\
    filter h = latest filter_of 0 rs /\ frame_rate h = latest rate_of 0 rs /\
    src_buffer h = latest src_buffer_of zero_buffer rs /\ dst_buffer h = latest dst_buffer_of zero_buffer rs.
Proof.
  intros p Hp Hs. set (h := fold_left write rs (fresh_object m)).
  assert (L : forall A (g : CSC_HANDLE -> A) f, (forall r h, g (write h r) = default (g h) (f r)) ->
    g h = latest f (g (fresh_object m)) rs) by (intros; by apply latest_written).
  exists (with_object p (fresh_object m) w), (with_object p h w), h.
  split; [by apply csc_init_eq|].
  split. { erewrite run_sets; [|done..|apply lookup_insert_eq]. by rewrite with_object_twice. }
  assert (Hh : handles (with_object p h w) !! p = Some h) by apply lookup_insert_eq.
  assert (G : forall A (g : CSC_HANDLE -> A),
    (if p =? 0 then mret (CSC_ErrorNotInit, None) else h ← deref p; mret (CSC_ErrorNone, Some (g h)))
      (with_object p h w) = Some ((CSC_ErrorNone, Some (g h)), with_object p h w)).
  { intros A g. rewrite (proj2 (Z.eqb_neq p 0) Hp). by rewrite (bind_some _ _ _ _ _ (deref_some _ _ _ Hh)). }
  assert (F : forall a f, format_args (with_args a f) = a) by (intros [[[[[[[] ] ] ] ] ] ]; done).
  split. { etransitivity; [apply G|]. rewrite (L _ csc_method method_of); [done|].
    intros [] k; try done; simpl; repeat case_match; done. }
  split. { etransitivity; [apply (G _ (fun h => (csc_mode h, csc_range h, colorspace h)))|].
    rewrite (L _ (fun h => (csc_mode h, csc_range h, colorspace h)) eq_of); [done|].
    intros [] k; try done; simpl; repeat case_match; done. }
  split. { etransitivity; [apply (G _ (fun h => format_args (src_format h)))|].
    rewrite (L _ (fun h => format_args (src_format h)) src_of); [done|].
    intros [] k; try done; simpl; repeat case_match; rewrite ?F; done. }
  split. { etransitivity; [apply (G _ (fun h => format_args (dst_format h)))|].
    rewrite (L _ (fun h => format_args (dst_format h)) dst_of); [done|].
    intros [] k; try done; simpl; repeat case_match; rewrite ?F; done. }
  do 3 (split; [done|]).
  assert (N : forall f, (CSC_FT_MAX <=? f) = negb (f <? CSC_FT_MAX)) by (intros f; by rewrite Z.ltb_antisym, negb_involutive).
  split; [apply (L _ (fun h => fixed_node (hw_property h)) node_of)|].
  { intros [] k; try done; simpl; rewrite ?N; repeat (case_match; simplify_eq/=); done. }
  split; [apply (L _ (fun h => mode_drm (hw_property h)) drm_of)|].
  { intros [] k; try done; simpl; repeat (case_match; simplify_eq/=); try done.
    all: unfold CSC_HW_PROPERTY_FIXED_NODE, CSC_HW_PROPERTY_MODE_DRM in *; lia. }
  split; [apply (L _ filter filter_of)|].
  { intros [] k; try done; simpl; rewrite ?N; repeat (case_match; simplify_eq/=); done. }
  split; [apply (L _ frame_rate rate_of)|split; [apply (L _ src_buffer src_buffer_of)|apply (L _ dst_buffer dst_buffer_of)]].
  all: intros [] k; try done; simpl; repeat case_match; done.
Qed.
End settings.

(** ** A software conversion from [csc_init] to [csc_deinit] *)

Section session.
Context `{AndroidFormatsLaws, EnvironmentLaws}.

(** The settings of a conversion: formats and buffers. *)
Record job := {
  job_src : Z * Z * Z * Z * Z * Z * Z * Z;
  job_dst : Z * Z * Z * Z * Z * Z * Z * Z;
  job_from : Z * Z * Z;
  job_from_type : Z;
  job_to : Z * Z * Z;
  job_to_type : Z
}.

Definition requests (p : Z) (j : job) : list api :=
  [Set_src_format p (job_src j); Set_dst_format p (job_dst j);
   Set_src_buffer p (job_from j) (job_from_type j); Set_dst_buffer p (job_to j) (job_to_type j)].

(** The object they make out of a fresh one. *)
Definition object_of (p : Z) (j : job) : CSC_HANDLE := fold_left write (requests p j) (fresh_object CSC_METHOD_SW).

Definition session (p : Z) (j : job) : list api := Init CSC_METHOD_SW :: requests p j ++ [Convert p; Deinit p].

Lemma run_app rs rs' w w1 : run rs w = Some (tt, w1) -> run (rs ++ rs') w = run rs' w1.
Proof.
  revert w. induction rs as [|r rs IH]; intros w; simpl; [by intros [= ->]|].
  unfold mbind, ST_bind. destruct (perform r w) as [[[] w0]|]; [|done]. apply IH.
Qed.

(** C2. From [csc_init] to [csc_deinit] in software mode: for every pair of formats
    that has a conversion, the client ends up with the source picture in the
    destination buffer and no other byte changed, and with the object freed.  The
    only call of the driver is the frame rate of the null handle, assumed to leave
    the memory alone. *)
Theorem software_session w j cv : let p := malloc (handles w) in let h := object_of p j in
  p <> 0 -> frame_ok h -> sw_conversion h = Some cv ->
  (forall m, sc_effect (log w) (exynos_sc_set_framerate 0 0) m = m) ->
  views_ok (memory w) (cv_picture cv) (cv_to h cv) (cv_from h cv) ->
  exists w' r, run (session p j) w = Some (tt, w') /\ handles w' = handles w /\
    log w' = (exynos_sc_set_framerate 0 0, r) :: log w /\
    (forall k, cv_picture cv k -> memory w' !! cv_to h cv k = memory w !! cv_from h cv k) /\
    (forall a, (forall k, cv_picture cv k -> a <> cv_to h cv k) -> memory w' !! a = memory w !! a).
Proof.
  intros p h Hp Hf Hc He Hv. destruct (conv_sw_run h Hf cv Hc (memory w) Hv) as (m' & E & M1 & M2 & _).
  set (c := exynos_sc_set_framerate 0 0).
  set (w2 := with_object p h w).
  set (w3 := {| handles := handles w2; memory := m'; log := (c, sc_answer (log w) c) :: log w |}).
  assert (Hh : handles w2 !! p = Some h) by apply lookup_insert_eq.
  assert (R1 : run (Init CSC_METHOD_SW :: requests p j) w = Some (tt, w2)).
  { simpl run. assert (I : perform (Init CSC_METHOD_SW) w = Some (tt, with_object p (fresh_object CSC_METHOD_SW) w)).
    { unfold perform. by rewrite (bind_some _ _ _ _ _ (csc_init_eq CSC_METHOD_SW w Hp)). }
    rewrite (bind_some _ _ _ _ _ I). etransitivity; [eapply (run_sets p (requests p j)); [done| |apply lookup_insert_eq]|].
    - repeat (apply Forall_cons; split; [done|]). by apply Forall_nil.
    - by rewrite with_object_twice. }
  assert (R2 : csc_convert p w2 = Some (CSC_ErrorNone, w3)).
  { etransitivity; [apply (convert_run p None w2 h Hp Hh); by left|].
    rewrite (run_conversion_eq p _ h) by (by rewrite handles_issue).
    change (csc_method h =? CSC_METHOD_HW) with false.
    assert (I : memory (issue w2 (setup_calls h None)) = memory w) by apply He.
    unfold on_memory. by rewrite I, E. }
  assert (R3 : csc_deinit p w3 = Some (CSC_ErrorNone, without_object p w3)).
  { unfold csc_deinit. rewrite (proj2 (Z.eqb_neq p 0) Hp), (bind_some _ _ w3 h w3) by (by apply deref_some).
    change (csc_method h =? CSC_METHOD_HW) with false. exact (bind_some _ _ _ _ _ (free_some p w3 h Hh)). }
  exists (without_object p w3), (sc_answer (log w) c). split.
  - unfold session. rewrite app_comm_cons, (run_app _ _ _ _ R1). simpl run. unfold perform.
    rewrite (bind_some _ _ w2 tt w3) by exact (bind_some _ _ _ _ _ R2).
    by rewrite (bind_some _ _ w3 tt (without_object p w3)) by exact (bind_some _ _ _ _ _ R3).
  - split; [|by split]. simpl. apply delete_insert_id. by destruct (fresh_address (handles w)).
Qed.
End session.

(** ** Instances: a driver with one scaler node, and small sessions *)

#[local] Existing Instance aosp_formats.
#[local] Existing Instance aosp_formats_laws.

(** The driver opens node 1, [CSC_HW_SC1], and answers every other call with 0; the
    allocator takes the next address. *)
#[local] Instance one_scaler : Environment := {|
  sc_answer l c := match c with exynos_sc_create n => if n =? 1 then 1 + foldr Z.max 0 l.*2 else 0 | _ => 0 end;
  sc_effect _ _ m := m;
  hal_pixfmt_to_v4l2 f := f;
  malloc hs := 1 + foldr Z.max 0 (map_to_list hs).*1
|}.

Lemma foldr_max l x : x ∈ l -> x <= foldr Z.max 0 l.
Proof. induction 1 as [|x y l Hx IH]; simpl; lia. Qed.

Lemma foldr_max_nonneg l : 0 <= foldr Z.max 0 l.
Proof. induction l; simpl; lia. Qed.

Lemma live_answered l s : s ∈ live l -> s <> 0 /\ s ∈ l.*2.
Proof.
  induction l as [|[c r] l IH]; simpl; [set_solver|].
  destruct c; simpl; try (destruct (Z.eqb_spec r 0)); set_solver.
Qed.

#[local] Instance one_scaler_laws : EnvironmentLaws.
Proof.
  split.
  - intros l n Hs%live_answered. simpl in Hs. destruct (n =? 1); [|by destruct Hs].
    destruct Hs as [_ Hs%foldr_max]. lia.
  - intros hs. right. apply eq_None_not_Some. intros [h Hh]. simpl in Hh.
    assert (Hm : 1 + foldr Z.max 0 (map_to_list hs).*1 ∈ (map_to_list hs).*1).
    { apply list_elem_of_fmap. exists (1 + foldr Z.max 0 (map_to_list hs).*1, h). split; [done|].
      by apply elem_of_map_to_list. }
    apply foldr_max in Hm. lia.
Qed.

(** The state after a session from the start. *)
Definition after_session (rs : list api) : world :=
  match run rs (start small_mem) with Some (_, w) => w | None => start small_mem end.

Definition defined (rs : list api) : bool :=
  match run rs (start small_mem) with Some _ => true | None => false end.

Lemma after_session_reachable rs : defined rs = true -> reachable (after_session rs).
Proof.
  unfold defined, after_session. destruct (run rs (start small_mem)) as [[[] w]|] eqn:E; [|done].
  intros _. by apply (run_reachable rs small_mem).
Qed.

Lemma operations_confined_witness :
  let w := after_session [Init CSC_METHOD_HW; Init CSC_METHOD_SW] in
  exists w', perform (Convert 1) w = Some (tt, w') /\ handles w' !! 2 = Some (fresh_object CSC_METHOD_SW).
Proof.
  intros w. destruct (operations_confined w (Convert 1)) as (w' & E & F).
  - right. by eexists.
  - intros h [= <-] []. done.
  - exists w'. split; [exact E|]. by apply F.
Defined.



Lemma failed_open_frees_object_witness :
  exists w', convert 1 None (after_session [Init CSC_METHOD_HW; Set_hw_property 1 CSC_HW_PROPERTY_FIXED_NODE 2]) =
    Some (CSC_ErrorNotInit, w') /\ csc_deinit 1 w' = None.
Proof.
  set (w := after_session _).
  destruct (failed_open_frees_object 1 None w
    (set_property {| fixed_node := 2; mode_drm := 0 |} (fresh_object CSC_METHOD_HW))) as (w' & E & _ & D & _).
  - discriminate.
  - vm_compute. reflexivity.
  - reflexivity.
  - reflexivity.
  - left. vm_compute. intuition discriminate.
  - by exists w'.
Defined.

(** The client switches to software mode before it frees the object. *)
Lemma deinit_releases_scaler_witness :
  exists w', csc_deinit 1 (after_session [Init CSC_METHOD_HW; Convert 1; Set_method 1 CSC_METHOD_SW]) =
    Some (CSC_ErrorNone, w') /\ handles w' = ∅ /\ 1 ∈ live (log w').
Proof.
  set (w := after_session _).
  destruct (deinit_releases_scaler 1 w (set_method CSC_METHOD_SW (set_hw CSC_HW_TYPE_GSCALER 1 (fresh_object CSC_METHOD_HW))))
    as (w' & E & F & R & _).
  - apply after_session_reachable. vm_compute. reflexivity.
  - vm_compute. reflexivity.
  - discriminate.
  - exists w'. split; [exact E|]. split; [rewrite F; vm_compute; reflexivity|].
    destruct (decide (1 ∈ live (log w'))) as [Hl|Hl]; [exact Hl|]. by apply R in Hl as [? _].
Defined.

Lemma settings_are_last_writes_witness :
  let rs := [Set_hw_property 1 CSC_HW_PROPERTY_FIXED_NODE 6; Set_filter_property 1 CSC_FT_720;
             Set_filter_property 1 9; Set_method 1 5; Set_src_format 1 (4, 2, 0, 0, 4, 2, 0x105, 0)] in
  exists w1 w2 h, csc_init CSC_METHOD_HW (start small_mem) = Some (1, w1) /\ run rs w1 = Some (tt, w2) /\
    csc_get_method 1 w2 = Some ((CSC_ErrorNone, Some CSC_METHOD_HW), w2) /\
    handles w2 !! 1 = Some h /\ fixed_node (hw_property h) = DEFAULT_CSC_HW /\ filter h = CSC_FT_720.
Proof.
  intros rs. destruct (settings_are_last_writes CSC_METHOD_HW rs (start small_mem))
    as (w1 & w2 & h & E1 & E2 & G & _ & _ & _ & Hh & _ & _ & N & _ & F & _).
  - discriminate.
  - repeat (apply Forall_cons; split; [reflexivity|]). by apply Forall_nil.
  - exists w1, w2, h. repeat (split; [first [exact E1 | exact E2 | exact G | exact N]|]).
    split; [rewrite Hh; apply lookup_insert_eq|]. split; [exact N|exact F].
Defined.

(** NV12 to YV12, as in [CscConvert]. *)
Definition small_job : job := {|
  job_src := (4, 2, 0, 0, 4, 2, HAL_PIXEL_FORMAT_EXYNOS_YCbCr_420_SP, 0);
  job_dst := (4, 2, 0, 0, 4, 2, HAL_PIXEL_FORMAT_YV12, 0);
  job_from := (0, 1000, 2000); job_from_type := CSC_MEMORY_USERPTR;
  job_to := (3000, 4000, 5000); job_to_type := CSC_MEMORY_USERPTR |}.

Lemma software_session_witness :
  exists w', run (session 1 small_job) (start small_mem) = Some (tt, w') /\ handles w' = ∅ /\
    memory w' !! 4001 = small_mem !! 1003.
Proof.
  destruct (software_session (start small_mem) small_job
    (same_size 4 2 (plain_view (Pairs false) 1 4) (plain_view (Planar true) 1 4))) as (w' & r & E & Hh & _ & K & _).
  - discriminate.
  - small_frame.
  - reflexivity.
  - reflexivity.
  - change (memory (start small_mem)) with small_mem. small_views.
  - exists w'. split; [exact E|]. split; [exact Hh|].
    apply (K (Cr, 1, 0, 0)). vm_compute. intuition discriminate.
Defined.
