(* ===== verification/Ril.v ===== *)
(** * Voice calls: the client of the modem

    [src/libaudio/audiohal/audioril-sec/secril_interface.c]: the single connection
    of the audio HAL to the radio daemon.  The client library of the modem
    ([libsecril-client.so], loaded at run time) is the environment. *)

From S2P Require Import Prelude Effects.

(** ** Data *)

(** The devices of [system/audio.h], and its mode of a call. *)
Class AudioDevices := {
  AUDIO_MODE_IN_CALL : Z;
  AUDIO_DEVICE_NONE : Z;
  AUDIO_DEVICE_OUT_EARPIECE : Z;
  AUDIO_DEVICE_OUT_SPEAKER : Z;
  AUDIO_DEVICE_OUT_WIRED_HEADSET : Z;
  AUDIO_DEVICE_OUT_WIRED_HEADPHONE : Z;
  AUDIO_DEVICE_OUT_BLUETOOTH_SCO : Z;
  AUDIO_DEVICE_OUT_BLUETOOTH_SCO_HEADSET : Z;
  AUDIO_DEVICE_OUT_BLUETOOTH_SCO_CARKIT : Z;
  AUDIO_DEVICE_OUT_LINE : Z;
  AUDIO_DEVICE_OUT_ALL_SCO : Z
}.

(** [SoundType] *)
Inductive SoundType :=
  | SOUND_TYPE_NONE
  | SOUND_TYPE_VOICE
  | SOUND_TYPE_SPEAKER
  | SOUND_TYPE_HEADSET
  | SOUND_TYPE_BTVOICE.

(** [AudioPath] *)
Definition SOUND_AUDIO_PATH_NONE : Z := 0.
Definition SOUND_AUDIO_PATH_HANDSET : Z := 1.
Definition SOUND_AUDIO_PATH_HEADSET : Z := 2.
Definition SOUND_AUDIO_PATH_BLUETOOTH : Z := 4.
Definition SOUND_AUDIO_PATH_SPEAKRERPHONE : Z := 6.
Definition SOUND_AUDIO_PATH_35PI_HEADSET : Z := 7.
Definition SOUND_AUDIO_PATH_BT_NS_EC_OFF : Z := 8.
Definition SOUND_AUDIO_PATH_WB_BLUETOOTH : Z := 9.
Definition SOUND_AUDIO_PATH_WB_BT_NS_EC_OFF : Z := 10.
Definition SOUND_AUDIO_PATH_HANDSET_HAC : Z := 11.
Definition SOUND_AUDIO_PATH_LINEOUT : Z := 12.
Definition SOUND_AUDIO_PATH_VOLTE_HANDSET : Z := 65.
Definition SOUND_AUDIO_PATH_VOLTE_HEADSET : Z := 66.
Definition SOUND_AUDIO_PATH_VOLTE_BLUETOOTH : Z := 68.
Definition SOUND_AUDIO_PATH_VOLTE_SPEAKRERPHONE : Z := 70.
Definition SOUND_AUDIO_PATH_VOLTE_35PI_HEADSET : Z := 71.
Definition SOUND_AUDIO_PATH_VOLTE_BT_NS_EC_OFF : Z := 72.
Definition SOUND_AUDIO_PATH_VOLTE_WB_BLUETOOTH : Z := 73.
Definition SOUND_AUDIO_PATH_VOLTE_WB_BT_NS_EC_OFF : Z := 74.
Definition SOUND_AUDIO_PATH_VOLTE_HANDSET_HAC : Z := 75.
Definition SOUND_AUDIO_PATH_VOLTE_LINEOUT : Z := 76.

(** [ExtraVolume], [ril_audio_clockmode] *)
Definition ORIGINAL_PATH : Z := 0.
Definition VOICE_AUDIO_TURN_OFF_I2S : Z := 0.
Definition VOICE_AUDIO_TURN_ON_I2S : Z := 1.

(** The states of Voice over LTE, and the values of [voice_definition.h] that the
    client compares with. *)
Definition VOLTE_OFF : Z := 0.
Definition VOLTE_VOICE : Z := 1.
Definition VOLTE_VIDEO : Z := 2.
Definition CP1 : Z := 0.
Definition BT_NREC_INITIALIZED : Z := -1.
Definition BT_NREC_ON : Z := 0.
Definition BT_NREC_OFF : Z := 1.
Definition WB_SAMPLING_RATE : Z := 16000.
Definition NB_SAMPLING_RATE : Z := 8000.

Definition MAX_RETRY : nat := 10.
Definition SLEEP_RETRY : Z := 10000.

(** [struct rilclient_intf].  A function pointer is whether it is not [NULL]: it is
    what [dlsym] finds, and what it points to is the function of that name. *)
Record rilclient_intf := {
  handle : Z;
  client : Z;
  sound_type : SoundType;
  extraVolume : bool;
  wbAmr : bool;
  emergencyMode : bool;
  btsco_ec : bool;
  btsco_sr : Z;
  audio_mode : Z;
  audio_state : bool;
  tx_mute : bool;
  rx_mute : bool;
  dualmic : bool;
  current_modem : Z;
  realcall : bool;
  volte_status : Z;
  call_forward : bool;
  usbmic_state : bool;
  hac_mode : bool;
  ril_open_client : bool;
  ril_close_client : bool;
  ril_connect : bool;
  ril_is_connected : bool;
  ril_disconnect : bool;
  ril_set_audio_volume : bool;
  ril_set_audio_path : bool;
  ril_set_multi_mic : bool;
  ril_set_mute : bool;
  ril_set_audio_clock : bool;
  ril_set_tty_mode : bool
}.

#[export] Instance rilclient_intf_fields : Fields rilclient_intf := fun r => {|
  handle := handle r; client := client r; sound_type := sound_type r; extraVolume := extraVolume r;
  wbAmr := wbAmr r; emergencyMode := emergencyMode r; btsco_ec := btsco_ec r; btsco_sr := btsco_sr r;
  audio_mode := audio_mode r; audio_state := audio_state r; tx_mute := tx_mute r; rx_mute := rx_mute r;
  dualmic := dualmic r; current_modem := current_modem r; realcall := realcall r; volte_status := volte_status r;
  call_forward := call_forward r; usbmic_state := usbmic_state r; hac_mode := hac_mode r;
  ril_open_client := ril_open_client r; ril_close_client := ril_close_client r; ril_connect := ril_connect r;
  ril_is_connected := ril_is_connected r; ril_disconnect := ril_disconnect r;
  ril_set_audio_volume := ril_set_audio_volume r; ril_set_audio_path := ril_set_audio_path r;
  ril_set_multi_mic := ril_set_multi_mic r; ril_set_mute := ril_set_mute r;
  ril_set_audio_clock := ril_set_audio_clock r; ril_set_tty_mode := ril_set_tty_mode r |}.

(** What [calloc] gives. *)
Definition zero_intf : rilclient_intf := {|
  handle := 0; client := 0; sound_type := SOUND_TYPE_NONE; extraVolume := false; wbAmr := false;
  emergencyMode := false; btsco_ec := false; btsco_sr := 0; audio_mode := 0; audio_state := false;
  tx_mute := false; rx_mute := false; dualmic := false; current_modem := 0; realcall := false;
  volte_status := 0; call_forward := false; usbmic_state := false; hac_mode := false;
  ril_open_client := false; ril_close_client := false; ril_connect := false; ril_is_connected := false;
  ril_disconnect := false; ril_set_audio_volume := false; ril_set_audio_path := false;
  ril_set_multi_mic := false; ril_set_mute := false; ril_set_audio_clock := false; ril_set_tty_mode := false |}.

(** ** The environment *)

(** The functions that the client library exports. *)
Inductive ril_symbol :=
  | OpenClient | CloseClient | Connect | Disconnect | isConnected
  | SetCallVolume | SetCallAudioPath | SetTwoMicControl | SetMute | SetCallClockSync.

(** Calls of the system and of the library, with their arguments. *)
Inductive ril_call :=
  | calloc
  | dlopen
  | dlclose (handle : Z)
  | usleep (us : Z)
  | OpenClient_RILD
  | CloseClient_RILD (client : Z)
  | Connect_RILD (client : Z)
  | isConnected_RILD (client : Z)
  | call_SetCallVolume (client : Z) (type : SoundType) (volume : Z)
  | call_SetCallAudioPath (client path extra : Z)
  | call_SetMute (client mute : Z)
  | call_SetCallClockSync (client mode : Z)
  | call_callback (event : Z).

(** The calls made so far, latest first, each with its result; 0 is [NULL]. *)
Definition ril_log := list (ril_call * Z).

(** Which functions [dlsym] finds, and how a call is answered. *)
Class RilLibrary := {
  dlsym : ril_symbol -> bool;
  ril_answer : ril_log -> ril_call -> Z
}.

(** ** State: the singleton, and the log *)

Record ril_world := {
  instance : option rilclient_intf;
  rlog : ril_log
}.
#[export] Instance ril_world_fields : Fields ril_world := fun w => {| instance := instance w; rlog := rlog w |}.

Abbreviation R := (ST ril_world).

Definition ril `{RilLibrary} (c : ril_call) : R Z := fun w =>
  let r := ril_answer (rlog w) c in Some (r, w <| rlog := (c, r) :: rlog w |>).

(** A call through a function pointer. *)
Definition via `{RilLibrary} (pointer : bool) (c : ril_call) : R Z := if pointer then ril c else undefined.

(** [*rilc], and an assignment to its fields. *)
Definition rilc : R rilclient_intf := fun w =>
  match instance w with Some i => Some (i, w) | None => None end.
Definition rilc_set (f : rilclient_intf -> rilclient_intf) : R unit := fun w =>
  match instance w with Some i => Some (tt, w <| instance := Some (f i) |>) | None => None end.

Section operations.
Context `{AudioDevices, RilLibrary}.

(** Whether the result is not [NULL]. *)
Definition getInstance : R bool := fun w =>
  match instance w with
  | Some _ => Some (true, w)
  | None =>
      match ril calloc w with
      | Some (r, w) => if r =? 0 then Some (false, w) else Some (true, w <| instance := Some zero_intf |>)
      | None => None
      end
  end.

Definition destroyInstance : R unit := fun w => Some (tt, w <| instance := None |>).

Definition map_incall_device (voice : rilclient_intf) (devices : Z) : Z :=
  let off := volte_status voice =? VOLTE_OFF in
  switch devices
    [([AUDIO_DEVICE_OUT_EARPIECE],
      if off then
        if hac_mode voice then SOUND_AUDIO_PATH_HANDSET_HAC else SOUND_AUDIO_PATH_HANDSET
      else
        if hac_mode voice then SOUND_AUDIO_PATH_VOLTE_HANDSET_HAC else SOUND_AUDIO_PATH_VOLTE_HANDSET);
     ([AUDIO_DEVICE_OUT_SPEAKER],
      if off then SOUND_AUDIO_PATH_SPEAKRERPHONE else SOUND_AUDIO_PATH_VOLTE_SPEAKRERPHONE);
     ([AUDIO_DEVICE_OUT_WIRED_HEADSET],
      if off then SOUND_AUDIO_PATH_HEADSET else SOUND_AUDIO_PATH_VOLTE_HEADSET);
     ([AUDIO_DEVICE_OUT_WIRED_HEADPHONE],
      if off then SOUND_AUDIO_PATH_35PI_HEADSET else SOUND_AUDIO_PATH_VOLTE_35PI_HEADSET);
     ([AUDIO_DEVICE_OUT_BLUETOOTH_SCO; AUDIO_DEVICE_OUT_BLUETOOTH_SCO_HEADSET;
       AUDIO_DEVICE_OUT_BLUETOOTH_SCO_CARKIT],
      let nrec_off := Z.b2z (btsco_ec voice) =? BT_NREC_OFF in
      let narrow := btsco_sr voice =? NB_SAMPLING_RATE in
      if off then
        if nrec_off then
          if narrow then SOUND_AUDIO_PATH_BT_NS_EC_OFF else SOUND_AUDIO_PATH_WB_BT_NS_EC_OFF
        else
          if narrow then SOUND_AUDIO_PATH_BLUETOOTH else SOUND_AUDIO_PATH_WB_BLUETOOTH
      else
        if nrec_off then
          if narrow then SOUND_AUDIO_PATH_VOLTE_BT_NS_EC_OFF else SOUND_AUDIO_PATH_VOLTE_WB_BT_NS_EC_OFF
        else
          if narrow then SOUND_AUDIO_PATH_VOLTE_BLUETOOTH else SOUND_AUDIO_PATH_VOLTE_WB_BLUETOOTH);
     ([AUDIO_DEVICE_OUT_LINE],
      if off then SOUND_AUDIO_PATH_LINEOUT else SOUND_AUDIO_PATH_VOLTE_LINEOUT)]
    (if off then SOUND_AUDIO_PATH_HANDSET else SOUND_AUDIO_PATH_VOLTE_HANDSET).

Definition map_sound_from_device (path : Z) : SoundType :=
  if path =? SOUND_AUDIO_PATH_SPEAKRERPHONE then SOUND_TYPE_SPEAKER
  else if path =? SOUND_AUDIO_PATH_HEADSET then SOUND_TYPE_HEADSET
  else SOUND_TYPE_VOICE.

(** ** Opening and closing *)

(** The loop on [retry], with the iterations that are left. *)
Fixpoint open_client (retries : nat) : R unit :=
  match retries with
  | O => mret tt
  | S retries =>
      c ← ril OpenClient_RILD;
      rilc_set (fun i => i <| client := c |>) ;;
      if c =? 0 then ril (usleep SLEEP_RETRY) ;; open_client retries
      else
        i ← rilc;
        connected ← via (ril_is_connected i) (isConnected_RILD c);
        if negb (connected =? 0) then mret tt
        else
          r ← via (ril_connect i) (Connect_RILD c);
          if negb (r =? 0) then
            via (ril_close_client i) (CloseClient_RILD c) ;;
            rilc_set (fun i => i <| client := 0 |>) ;;
            open_client retries
          else mret tt
  end.

(** The assignments before the library is loaded. *)
Definition initial_intf (i : rilclient_intf) : rilclient_intf :=
  i <| handle := 0 |> <| extraVolume := false |> <| wbAmr := false |> <| emergencyMode := false |>
    <| btsco_ec := false |> <| btsco_sr := 8000 |> <| audio_mode := 0 |> <| audio_state := false |>
    <| tx_mute := false |> <| rx_mute := false |> <| dualmic := false |> <| current_modem := CP1 |>
    <| realcall := false |> <| volte_status := VOLTE_OFF |> <| call_forward := false |>
    <| usbmic_state := false |> <| hac_mode := false |>.

(** The assignments of the function pointers. *)
Definition load_symbols (i : rilclient_intf) : rilclient_intf :=
  i <| ril_open_client := dlsym OpenClient |> <| ril_close_client := dlsym CloseClient |>
    <| ril_connect := dlsym Connect |> <| ril_is_connected := dlsym isConnected |>
    <| ril_disconnect := dlsym Disconnect |> <| ril_set_audio_volume := dlsym SetCallVolume |>
    <| ril_set_audio_path := dlsym SetCallAudioPath |> <| ril_set_multi_mic := dlsym SetTwoMicControl |>
    <| ril_set_mute := dlsym SetMute |> <| ril_set_audio_clock := dlsym SetCallClockSync |>.

(** [open_err]. *)
Definition open_err : R Z :=
  i ← rilc;
  (if negb (handle i =? 0) then
     ril (dlclose (handle i)) ;; rilc_set (fun i => i <| handle := 0 |>)
   else mret tt) ;;
  destroyInstance ;; mret (-1).

Definition SecRilOpen : R Z :=
  ok ← getInstance;
  if negb ok then mret (-1) else
  rilc_set initial_intf ;;
  h ← ril dlopen;
  rilc_set (fun i => i <| handle := h |>) ;;
  if h =? 0 then destroyInstance ;; mret (-1) else
  rilc_set load_symbols ;;
  i ← rilc;
  if ril_open_client i then
    open_client MAX_RETRY ;;
    i ← rilc;
    if client i =? 0 then open_err
    else
      connected ← via (ril_is_connected i) (isConnected_RILD (client i));
      if connected =? 0 then open_err else mret 0
  else open_err.

Definition SecRilClose : R Z :=
  ok ← getInstance;
  (if ok : bool then
     i ← rilc;
     (if negb (client i =? 0) && ril_close_client i then
        ril (CloseClient_RILD (client i)) ;; mret tt
      else mret tt) ;;
     (if negb (handle i =? 0) then
        ril (dlclose (handle i)) ;; rilc_set (fun i => i <| handle := 0 |>)
      else mret tt) ;;
     destroyInstance
   else mret tt) ;;
  mret 0.

Definition SecRilDuosInit : R Z := mret 0.

Definition SecRilCheckConnection : R Z :=
  ok ← getInstance;
  if ok : bool then
    i ← rilc;
    if negb (client i =? 0) then
      connected ← via (ril_is_connected i) (isConnected_RILD (client i));
      mret (if negb (connected =? 0) then 1 else 0)
    else mret 0
  else mret 0.

Definition SecRilSetVoiceSolution : R Z := mret 0.

(** ** Settings *)

(** [if(rilc) { ... }] for assignments only. *)
Definition if_rilc (f : rilclient_intf -> rilclient_intf) : R unit :=
  ok ← getInstance; if ok : bool then rilc_set f else mret tt.

Definition SecRilSetExtraVolume (on : bool) : R Z := if_rilc (fun i => i <| extraVolume := on |>) ;; mret 0.
Definition SecRilSetWbamr (on : Z) : R Z := if_rilc (fun i => i <| wbAmr := negb (on =? 0) |>) ;; mret 0.
Definition SecRilsetEmergencyMode (on : bool) : R Z := if_rilc (fun i => i <| emergencyMode := on |>) ;; mret 0.
Definition SecRilSetScoSolution (echoCancle : bool) (sampleRate : Z) : R Z :=
  if_rilc (fun i => i <| btsco_ec := echoCancle |> <| btsco_sr := sampleRate |>) ;; mret 0.

Definition SecRilSetVoiceVolume (device volume : Z) : R Z :=
  ok ← getInstance;
  (if ok : bool then
     i ← rilc;
     if ril_set_audio_volume i && negb (client i =? 0) then
       ril (call_SetCallVolume (client i) (sound_type i) volume) ;; mret tt
     else mret tt
   else mret tt) ;;
  mret 0.

Definition SecRilSetVoicePath (mode device : Z) : R Z :=
  ok ← getInstance;
  if ok : bool then
    i ← rilc;
    let path := map_incall_device i device in
    rilc_set (fun i => i <| sound_type := map_sound_from_device path |>) ;;
    if ril_set_audio_path i && negb (client i =? 0) then
      ril (call_SetCallAudioPath (client i) path ORIGINAL_PATH)
    else mret 0
  else mret 0.

Definition SecRilSetAudioMode (mode : Z) (state : bool) : R Z :=
  if_rilc (fun i => i <| audio_mode := mode |> <| audio_state := state |>) ;; mret 0.

Definition SecRilSetTxMute (state : bool) : R Z :=
  ok ← getInstance;
  (if ok : bool then
     i ← rilc;
     (if ril_set_mute i && negb (client i =? 0) then
        ril (call_SetMute (client i) (Z.b2z state)) ;; mret tt
      else mret tt) ;;
     rilc_set (fun i => i <| tx_mute := state |>)
   else mret tt) ;;
  mret 0.

Definition SecRilSetRxMute (state : bool) : R Z := if_rilc (fun i => i <| rx_mute := state |>) ;; mret 0.
Definition SecRilSetDualMic (state : bool) : R Z := if_rilc (fun i => i <| dualmic := state |>) ;; mret 0.
Definition SecRilSetLoopback (loopbackMode rx_device tx_device : Z) : R Z := mret 0.
Definition SecRilSetCurrentModem (curModem : Z) : R Z := if_rilc (fun i => i <| current_modem := curModem |>) ;; mret 0.
Definition SecRilRegisterCallback (rilState callback : Z) : R Z := mret 0.
Definition SecRilSetRealCallStatus (on : bool) : R Z := if_rilc (fun i => i <| realcall := on |>) ;; mret 0.
Definition SecRilSetVoLTEState (state : Z) : R Z := if_rilc (fun i => i <| volte_status := state |>) ;; mret 0.
Definition SecRilSetHACMode (state : bool) : R Z := if_rilc (fun i => i <| hac_mode := state |>) ;; mret 0.
Definition SecRilSetCallFowardingMode (callFwd : bool) : R unit := if_rilc (fun i => i <| call_forward := callFwd |>).
Definition SecRilDump (fd : Z) : R unit := mret tt.
Definition SecRilCheckMultiSim : R unit := mret tt.

(** The clock call does not look at the client. *)
Definition SecRilSetSoundClkMode (mode : Z) : R Z :=
  ok ← getInstance;
  (if ok : bool then
     i ← rilc;
     if ril_set_audio_clock i then
       ril (call_SetCallClockSync (client i)
              (if negb (mode =? 0) then VOICE_AUDIO_TURN_ON_I2S else VOICE_AUDIO_TURN_OFF_I2S)) ;; mret tt
     else mret tt
   else mret tt) ;;
  mret 0.

Definition SecRilSetUSBMicState (state : bool) : R unit := if_rilc (fun i => i <| usbmic_state := state |>).
Definition SecRilSetTTYmode (ttymode : Z) : R Z := mret 0.
End operations.
