(* ===== verification/Float32.v ===== *)
(** * Volumes: [float] arithmetic and its conversion to [int]

    The [float] of C is the binary32 format of the Standard Library's
    specification of floating-point numbers.  The call volume is the only place where
    the audio HAL computes with it. *)

From Stdlib Require Import Floats.SpecFloat.
From S2P Require Import Prelude.

Abbreviation float := spec_float.
Definition prec32 : Z := 24.
Definition emax32 : Z := 128.

(** Conversion of an [int] to [float], and the product. *)
Definition float_of_int (n : Z) : float := binary_normalize prec32 emax32 n 0 false.
Definition float_mul (x y : float) : float := SFmul prec32 emax32 x y.

(** Conversion to [int], toward zero; undefined out of range. *)
Definition truncate (m e : Z) : Z := if 0 <=? e then m * 2 ^ e else m `div` 2 ^ (- e).
Definition int_of_float (x : float) : option Z :=
  match x with
  | S754_zero _ => Some 0
  | S754_finite s m e =>
      let n := truncate (Zpos m) e in
      let n := if s then - n else n in
      if (- 2 ^ 31 <=? n) && (n <? 2 ^ 31) then Some n else None
  | _ => None
  end.

(** ** Values

    [at_most m e n]: the number [m * 2^e] is at most the integer [n]. *)

Definition at_most (m e n : Z) : Prop := forall k, 0 <= k -> 0 <= e + k -> m * 2 ^ (e + k) <= n * 2 ^ k.

Lemma at_most_one m e n k : 0 <= k -> 0 <= e + k -> m * 2 ^ (e + k) <= n * 2 ^ k -> at_most m e n.
Proof.
  intros Hk He H k' Hk' He'. destruct (Z.le_ge_cases k k').
  - replace (e + k') with (e + k + (k' - k)) by lia. replace k' with (k + (k' - k)) at 2 by lia.
    assert (0 < 2 ^ (k' - k)) by (apply Z.pow_pos_nonneg; lia).
    rewrite (Z.pow_add_r 2 (e + k)), (Z.pow_add_r 2 k) by lia. nia.
  - assert (P : 0 < 2 ^ (k - k')) by (apply Z.pow_pos_nonneg; lia).
    replace (e + k) with (e + k' + (k - k')) in H by lia. replace (2 ^ k) with (2 ^ k' * 2 ^ (k - k')) in H
      by (rewrite <- Z.pow_add_r by lia; f_equal; lia).
    rewrite Z.pow_add_r in H by lia. apply (Z.mul_le_mono_pos_r _ _ (2 ^ (k - k'))); lia.
Qed.

Lemma truncate_at_most m e n : 0 <= m -> 0 <= n -> at_most m e n -> 0 <= truncate m e <= n.
Proof.
  intros Hm Hn H. unfold truncate. destruct (Z.leb_spec 0 e).
  - specialize (H 0 ltac:(lia) ltac:(lia)). rewrite Z.add_0_r in H. simpl in H.
    assert (0 < 2 ^ e) by (apply Z.pow_pos_nonneg; lia). nia.
  - specialize (H (- e) ltac:(lia) ltac:(lia)). replace (e + - e) with 0 in H by lia.
    assert (0 < 2 ^ (- e)) by (apply Z.pow_pos_nonneg; lia).
    split; [apply Z.div_pos; lia|]. apply Z.div_le_upper_bound; [lia|]. nia.
Qed.

(** A shift to the right keeps the quotient, and the record of the lost bits is
    empty exactly when there are none. *)
Definition shifted (m k : Z) (r : shr_record) : Prop :=
  exists rest, m = shr_m r * 2 ^ k + rest /\ 0 <= rest < 2 ^ k /\ 0 <= shr_m r /\
    (rest = 0 <-> shr_r r = false /\ shr_s r = false).

Lemma shr_1_spec r : 0 <= shr_m r ->
  shr_m r = 2 * shr_m (shr_1 r) + Z.b2z (shr_r (shr_1 r)) /\ 0 <= shr_m (shr_1 r) /\
  shr_s (shr_1 r) = orb (shr_r r) (shr_s r).
Proof. destruct r as [[|[p|p|]|p] r s]; simpl; intros Hr; repeat split; lia || done. Qed.

Lemma shifted_1 m k r : 0 <= k -> shifted m k r -> shifted m (k + 1) (shr_1 r).
Proof.
  intros Hk (rest & E & Hb & Hm & Hx). destruct (shr_1_spec r Hm) as (E1 & Hp & Es).
  exists (Z.b2z (shr_r (shr_1 r)) * 2 ^ k + rest). rewrite Z.pow_add_r by lia.
  split; [rewrite E, E1; ring|]. split; [destruct (shr_r (shr_1 r)); simpl; lia|].
  split; [done|]. rewrite Es, orb_false_iff, <- Hx. destruct (shr_r (shr_1 r)); simpl; [|tauto].
  split; [lia|by intros []].
Qed.

Lemma shifted_iter m p r : shifted m 0 r -> shifted m (Zpos p) (SpecFloat.iter_pos shr_1 p r).
Proof.
  assert (G : forall p k r, 0 <= k -> shifted m k r -> shifted m (k + Zpos p) (SpecFloat.iter_pos shr_1 p r)).
  { clear p r. induction p as [p IH|p IH|]; intros k r Hk Hr; simpl.
    - replace (k + Zpos p~1) with (k + 1 + Zpos p + Zpos p) by lia.
      apply IH; [lia|]. apply IH; [lia|]. by apply shifted_1.
    - replace (k + Zpos p~0) with (k + Zpos p + Zpos p) by lia. apply IH; [lia|]. by apply IH.
    - by apply shifted_1. }
  intros Hr. by apply (G p 0 r).
Qed.

Lemma digits_bounds p : 2 ^ (Zdigits2 (Zpos p) - 1) <= Zpos p < 2 ^ Zdigits2 (Zpos p) /\ 1 <= Zdigits2 (Zpos p).
Proof.
  simpl. induction p as [p IH|p IH|]; simpl.
  - rewrite Pos2Z.inj_succ. replace (Z.succ (Zpos (digits2_pos p)) - 1) with (Zpos (digits2_pos p) - 1 + 1) by lia.
    unfold Z.succ. rewrite !Z.pow_add_r by lia. lia.
  - rewrite Pos2Z.inj_succ. replace (Z.succ (Zpos (digits2_pos p)) - 1) with (Zpos (digits2_pos p) - 1 + 1) by lia.
    unfold Z.succ. rewrite !Z.pow_add_r by lia. lia.
  - lia.
Qed.

Lemma digits_of m d : 0 < m -> 0 <= d -> m < 2 ^ d -> Zdigits2 m <= d.
Proof.
  intros Hm Hd Hl. destruct m as [|p|p]; try lia. destruct (digits_bounds p) as [[Hb _] Hp].
  destruct (Z.le_gt_cases (Zdigits2 (Zpos p)) d) as [|Hg]; [done|].
  pose proof (Z.pow_le_mono_r 2 d (Zdigits2 (Zpos p) - 1) ltac:(lia) ltac:(lia)). lia.
Qed.

(** A mantissa of at most 24 bits is not shifted. *)
Lemma shr_fexp_small m e : 0 <= m < 2 ^ 24 -> -149 <= e ->
  shr_fexp prec32 emax32 m e loc_Exact = (shr_record_of_loc m loc_Exact, e).
Proof.
  intros Hm He. unfold shr_fexp, shr. destruct (fexp _ _ _ - e) as [|p|p] eqn:E; [done| |done]. exfalso.
  assert (D : Zdigits2 m <= 24).
  { destruct m as [|p'|p']; [simpl; lia| |lia]. apply digits_of; lia. }
  unfold fexp, emin, prec32, emax32 in E. lia.
Qed.

(** The first step of the rounding of a positive number below [2^24]. *)
Lemma shr_fexp_first m e n : 0 < m -> 0 <= n < 2 ^ 24 -> at_most m e n ->
  exists r e', shr_fexp prec32 emax32 m e loc_Exact = (r, e') /\ 0 <= shr_m r < 2 ^ 24 /\ -149 <= e' /\
    at_most (shr_m r) e' n /\ (shr_r r = true \/ shr_s r = true -> at_most (shr_m r + 1) e' n).
Proof.
  intros Hm Hn H. destruct m as [|p|p]; [lia| |lia]. destruct (digits_bounds p) as [[Hd1 Hd2] Hd].
  set (d := Zdigits2 (Zpos p)) in *. set (M := Zpos p) in *.
  unfold shr_fexp. fold d. set (f := fexp prec32 emax32 (d + e)).
  assert (Hf : d + e - 24 <= f /\ -149 <= f /\ (f = d + e - 24 \/ f = -149)) by (unfold f, fexp, emin, prec32, emax32; lia).
  destruct (Z.le_gt_cases (f - e) 0) as [Hk|Hk].
  - exists (shr_record_of_loc M loc_Exact), e.
    assert (E : shr (shr_record_of_loc M loc_Exact) e (f - e) = (shr_record_of_loc M loc_Exact, e))
      by (unfold shr; destruct (f - e); [done|lia|done]).
    split; [done|]. simpl. split; [|split; [lia|split; [done|by intros []]]].
    pose proof (Z.pow_le_mono_r 2 d 24 ltac:(lia) ltac:(lia)). lia.
  - destruct (f - e) as [|k|k] eqn:Ek; [lia| |lia]. unfold shr.
    set (r := SpecFloat.iter_pos shr_1 k (shr_record_of_loc M loc_Exact)).
    assert (HS : shifted M (Zpos k) r).
    { apply shifted_iter. exists 0. simpl. lia. }
    destruct HS as (rest & EM & Hr & Hq & Hx). exists r, (e + Zpos k). split; [done|].
    assert (P : 0 < 2 ^ Zpos k) by (apply Z.pow_pos_nonneg; lia).
    assert (Q : shr_m r < 2 ^ 24).
    { apply (Z.mul_lt_mono_pos_r (2 ^ Zpos k)); [lia|].
      rewrite <- Z.pow_add_r by lia. pose proof (Z.pow_le_mono_r 2 d (24 + Zpos k) ltac:(lia) ltac:(lia)). lia. }
    split; [lia|]. split; [lia|]. split.
    + apply at_most_one with (k := Z.max 0 (- e)); [lia..|].
      specialize (H (Z.max 0 (- e)) ltac:(lia) ltac:(lia)).
      replace (e + Zpos k + Z.max 0 (- e)) with (Zpos k + (e + Z.max 0 (- e))) by lia.
      rewrite Z.pow_add_r by lia.
      assert (0 < 2 ^ (e + Z.max 0 (- e))) by (apply Z.pow_pos_nonneg; lia). nia.
    + intros Hi. assert (Hrest : 0 < rest).
      { destruct (Z.eq_dec rest 0) as [E0|]; [|lia]. apply Hx in E0 as [E1 E2]. rewrite E1, E2 in Hi. by destruct Hi. }
      destruct (Z.le_gt_cases (e + Zpos k) 0) as [Hs|Hs].
      * apply at_most_one with (k := - (e + Zpos k)); [lia..|].
        specialize (H (- e) ltac:(lia) ltac:(lia)). replace (e + - e) with 0 in H by lia.
        replace (e + Zpos k + - (e + Zpos k)) with 0 by lia.
        replace (- e) with (- (e + Zpos k) + Zpos k) in H by lia. rewrite Z.pow_add_r in H by lia.
        assert (shr_m r < n * 2 ^ (- (e + Zpos k))); [|lia].
        apply (Z.mul_lt_mono_pos_r (2 ^ Zpos k)); lia.
      * exfalso. specialize (H (Z.max 0 (- e)) ltac:(lia) ltac:(lia)).
        assert (2 ^ 24 * 2 ^ Z.max 0 (- e) <= M * 2 ^ (e + Z.max 0 (- e))).
        { rewrite <- Z.pow_add_r by lia.
          pose proof (Z.pow_le_mono_r 2 (24 + Z.max 0 (- e)) (d - 1 + (e + Z.max 0 (- e))) ltac:(lia) ltac:(lia)) as L.
          rewrite (Z.pow_add_r 2 (d - 1)) in L by lia.
          assert (0 < 2 ^ (e + Z.max 0 (- e))) by (apply Z.pow_pos_nonneg; lia). nia. }
        assert (0 < 2 ^ Z.max 0 (- e)) by (apply Z.pow_pos_nonneg; lia). nia.
Qed.

(** A positive number below [2^24] is rounded to one that is at most any integer
    that it is at most. *)
Lemma round_at_most m e n : 0 < m -> 0 <= n < 2 ^ 24 -> at_most m e n ->
  let x := binary_round_aux prec32 emax32 false m e loc_Exact in
  x = S754_zero false \/ exists p e', x = S754_finite false p e' /\ at_most (Zpos p) e' n.
Proof.
  intros Hm Hn H x. destruct (shr_fexp_first m e n Hm Hn H) as (r & e' & E & Hq & He & H1 & H2).
  subst x. unfold binary_round_aux. rewrite E.
  set (q := round_nearest_even (shr_m r) (loc_of_shr_record r)).
  assert (Hr : 0 <= q <= 2 ^ 24 /\ at_most q e' n).
  { unfold q, round_nearest_even, loc_of_shr_record. destruct r as [rm [] []]; simpl in *;
      try (split; [lia|by auto]). case_match; (split; [lia|by auto]). }
  destruct Hr as [Hr H3].
  assert (F : exists r2 e2, shr_fexp prec32 emax32 q e' loc_Exact = (r2, e2) /\ 0 <= shr_m r2 /\ at_most (shr_m r2) e2 n).
  { destruct (Z.eq_dec q (2 ^ 24)) as [Eq|Nq].
    - exists {| shr_m := 2 ^ 23; shr_r := false; shr_s := false |}, (e' + 1). split.
      + rewrite Eq. unfold shr_fexp. change (Zdigits2 (2 ^ 24)) with 25.
        replace (fexp prec32 emax32 (25 + e') - e') with 1 by (unfold fexp, emin, prec32, emax32; lia). reflexivity.
      + simpl. split; [lia|]. intros k Hk1 Hk2. destruct (Z.le_gt_cases 0 (e' + k)).
        * specialize (H3 k Hk1 ltac:(lia)). rewrite Eq in H3.
          replace (e' + 1 + k) with (e' + k + 1) by lia. rewrite Z.pow_add_r by lia. lia.
        * specialize (H3 (k + 1) ltac:(lia) ltac:(lia)). rewrite Eq in H3.
          replace (e' + (k + 1)) with 0 in H3 by lia. replace (e' + 1 + k) with 0 by lia.
          rewrite Z.pow_add_r in H3 by lia. lia.
    - exists (shr_record_of_loc q loc_Exact), e'. rewrite shr_fexp_small by lia. split; [done|]. simpl. split; [lia|done]. }
  destruct F as (r2 & e2 & E2 & Hr2 & H4). rewrite E2. destruct (shr_m r2) as [|p|p] eqn:Ep; [by left| |lia]. right.
  destruct (Z.leb_spec e2 (emax32 - prec32)) as [Hle|Hgt]; [by exists p, e2|]. exfalso.
  specialize (H4 0 ltac:(lia) ltac:(unfold emax32, prec32 in Hgt; lia)). rewrite Z.add_0_r in H4. simpl in H4.
  pose proof (Z.pow_le_mono_r 2 24 e2 ltac:(lia) ltac:(unfold emax32, prec32 in Hgt; lia)). nia.
Qed.

(** ** Volumes *)

(** A value from 0 to 1. *)
Definition in_unit (x : float) : Prop :=
  match x with
  | S754_zero _ => True
  | S754_finite false m e => at_most (Zpos m) e 1
  | _ => False
  end.

Lemma doubled p d : Zpos (Pos.iter xO p d) = Zpos p * 2 ^ Zpos d.
Proof.
  revert p. induction d as [|d IH] using Pos.peano_ind; intros p; simpl; [lia|].
  rewrite Pos.iter_succ, Pos2Z.inj_succ, Z.pow_succ_r by lia. change (Zpos (Pos.iter xO p d)~0) with (2 * Zpos (Pos.iter xO p d)).
  rewrite IH. ring.
Qed.

Lemma float_of_int_at_most n : 0 < n < 2 ^ 24 ->
  float_of_int n = S754_zero false \/ exists p e, float_of_int n = S754_finite false p e /\ at_most (Zpos p) e n.
Proof.
  intros Hn. destruct n as [|p|p]; [lia| |lia]. unfold float_of_int, binary_normalize, binary_round.
  set (f := fexp _ _ _). destruct (shl_align p 0 f) as [mz ez] eqn:E. apply round_at_most; [lia..|].
  unfold shl_align in E. destruct (f - 0) as [|d|d] eqn:Ed; injection E as <- <-.
  - intros k Hk _. rewrite Z.add_0_l. lia.
  - intros k Hk _. rewrite Z.add_0_l. lia.
  - apply at_most_one with (k := Zpos d); [lia..|].
    replace (f + Zpos d) with 0 by lia. rewrite doubled. lia.
Qed.

(** The product of a value from 0 to 1 and an integer from 1 to 2^24. *)
Lemma volume_steps_bounds x n : in_unit x -> 0 < n < 2 ^ 24 ->
  exists i, int_of_float (float_mul x (float_of_int n)) = Some i /\ 0 <= i <= n.
Proof.
  intros Hx Hn. destruct (float_of_int_at_most n Hn) as [E|(p & e & E & Hp)]; rewrite E.
  { exists 0. split; [by destruct x as [| | |[]]|lia]. }
  destruct x as [b|b| |[] m f]; try done. { exists 0. split; [by destruct b|lia]. }
  simpl in Hx. unfold float_mul, SFmul, xorb.
  assert (H : at_most (Zpos (m * p)) (f + e) n).
  { apply at_most_one with (k := Z.max 0 (- f) + Z.max 0 (- e)); [lia..|].
    specialize (Hx (Z.max 0 (- f)) ltac:(lia) ltac:(lia)). specialize (Hp (Z.max 0 (- e)) ltac:(lia) ltac:(lia)).
    replace (f + e + (Z.max 0 (- f) + Z.max 0 (- e))) with ((f + Z.max 0 (- f)) + (e + Z.max 0 (- e))) by lia.
    rewrite (Z.pow_add_r 2 (f + _)), (Z.pow_add_r 2 (Z.max 0 (- f))), Pos2Z.inj_mul by lia.
    assert (0 < 2 ^ (f + Z.max 0 (- f))) by (apply Z.pow_pos_nonneg; lia).
    assert (0 < 2 ^ (e + Z.max 0 (- e))) by (apply Z.pow_pos_nonneg; lia).
    replace (Zpos m * Zpos p * (2 ^ (f + Z.max 0 (- f)) * 2 ^ (e + Z.max 0 (- e)))) with
      (Zpos m * 2 ^ (f + Z.max 0 (- f)) * (Zpos p * 2 ^ (e + Z.max 0 (- e)))) by ring.
    replace (n * (2 ^ Z.max 0 (- f) * 2 ^ Z.max 0 (- e))) with (1 * 2 ^ Z.max 0 (- f) * (n * 2 ^ Z.max 0 (- e))) by ring.
    apply Z.mul_le_mono_nonneg; [nia|done|nia|done]. }
  destruct (round_at_most (Zpos (m * p)) (f + e) n ltac:(lia) ltac:(lia) H) as [E2|(q & e2 & E2 & Hq)]; rewrite E2.
  - exists 0. split; [done|lia].
  - exists (truncate (Zpos q) e2). pose proof (truncate_at_most (Zpos q) e2 n ltac:(lia) ltac:(lia) Hq).
    split; [|done]. unfold int_of_float.
    set (i := truncate _ _) in *.
    by rewrite (proj2 (Z.leb_le (- 2 ^ 31) i)), (proj2 (Z.ltb_lt i (2 ^ 31))) by lia.
Qed.
