(* ===== verification/RilLife.v ===== *)
(** * Voice calls: the life cycle of the client of the modem

    The invariant of [Ril]: which clients are open, which calls are legal, and the
    state of the sound clock, with the specifications of the operations as total
    correctness triples. *)

From S2P Require Import Prelude Effects Ril.

#[local] Set Warnings "-clear-no-such-hyp".

(** ** The log *)

(** The clients that were opened and not closed. *)
Fixpoint clients (l : ril_log) : gset Z :=
  match l with
  | [] => ∅
  | (OpenClient_RILD, r) :: l' => if r =? 0 then clients l' else {[r]} ∪ clients l'
  | (CloseClient_RILD c, _) :: l' => clients l' ∖ {[c]}
  | _ :: l' => clients l'
  end.

(** How often the library is loaded more than unloaded. *)
Fixpoint loads (l : ril_log) : Z :=
  match l with
  | [] => 0
  | (dlopen, r) :: l' => if r =? 0 then loads l' else loads l' + 1
  | (dlclose _, _) :: l' => loads l' - 1
  | _ :: l' => loads l'
  end.

(** Whether the sound clock of a client is on: what the last clock call since it was
    opened says. *)
Fixpoint clock (l : ril_log) (c : Z) : bool :=
  match l with
  | [] => false
  | (OpenClient_RILD, r) :: l' => if r =? c then false else clock l' c
  | (call_SetCallClockSync c' mode, _) :: l' =>
      if c' =? c then mode =? VOICE_AUDIO_TURN_ON_I2S else clock l' c
  | _ :: l' => clock l' c
  end.

(** How often a client was asked for. *)
Fixpoint attempts (l : ril_log) : nat :=
  match l with [] => 0 | (OpenClient_RILD, _) :: l' => Datatypes.S (attempts l') | _ :: l' => attempts l' end.

(** A call of the library is legal while it is loaded, with a client that is open;
    only a library that is loaded is unloaded. *)
Definition ril_legal (l : ril_log) (c : ril_call) : Prop :=
  match c with
  | calloc | dlopen | usleep _ => True
  | dlclose h => h <> 0 /\ 0 < loads l
  | OpenClient_RILD => 0 < loads l
  | CloseClient_RILD c | Connect_RILD c | isConnected_RILD c
  | call_SetCallVolume c _ _ | call_SetCallAudioPath c _ _ | call_SetMute c _
  | call_SetCallClockSync c _ => 0 < loads l /\ c ∈ clients l
  | call_callback _ => False
  end.

Fixpoint ril_all_legal (l : ril_log) : Prop :=
  match l with [] => True | (c, _) :: l' => ril_legal l' c /\ ril_all_legal l' end.

(** A library that exports what [SecRilOpen] calls without looking. *)
Class RilLibraryLaws `{RilLibrary} : Prop := {
  exports_client : dlsym OpenClient = true ->
    dlsym CloseClient = true /\ dlsym Connect = true /\ dlsym isConnected = true
}.

(** ** The invariant *)

(** No client yet and no function, or an open client of a loaded library. *)
Definition no_functions (i : rilclient_intf) : Prop :=
  ril_open_client i = false /\ ril_close_client i = false /\ ril_connect i = false /\
  ril_is_connected i = false /\ ril_set_audio_volume i = false /\ ril_set_audio_path i = false /\
  ril_set_mute i = false /\ ril_set_audio_clock i = false.

Definition connected (l : ril_log) (i : rilclient_intf) : Prop :=
  handle i <> 0 /\ 0 < loads l /\ client i ∈ clients l.

Definition intf_ok (l : ril_log) (i : rilclient_intf) : Prop :=
  client i = 0 /\ handle i = 0 /\ no_functions i \/
  connected l i /\ ril_is_connected i = true.

Record modem_ok (w : ril_world) : Prop := {
  modem_intf i : instance w = Some i -> intf_ok (rlog w) i;
  modem_loads : 0 <= loads (rlog w);
  modem_legal : ril_all_legal (rlog w)
}.

Lemma zero_not_client l : 0 ∉ clients l.
Proof.
  induction l as [|[c r] l IH]; simpl; [set_solver|].
  destruct c; try done; [|set_solver]. destruct (Z.eqb_spec r 0); set_solver.
Qed.

Section operations.
Context `{AudioDevices, RilLibraryLaws}.

Definition logged (w : ril_world) (c : ril_call) : ril_world :=
  w <| rlog := (c, ril_answer (rlog w) c) :: rlog w |>.

Lemma ril_some c w : ril c w = Some (ril_answer (rlog w) c, logged w c).
Proof. done. Qed.

Lemma via_some b c w : b = true -> via b c w = Some (ril_answer (rlog w) c, logged w c).
Proof. by intros ->. Qed.

Lemma rilc_some w i : instance w = Some i -> rilc w = Some (i, w).
Proof. intros E. unfold rilc. by rewrite E. Qed.

Lemma rilc_set_some f w i : instance w = Some i -> rilc_set f w = Some (tt, w <| instance := Some (f i) |>).
Proof. intros E. unfold rilc_set. by rewrite E. Qed.

Lemma getInstance_some w i : instance w = Some i -> getInstance w = Some (true, w).
Proof. intros E. unfold getInstance. by rewrite E. Qed.

(** ** [SecRilOpen] *)

(** While the connection is opened: the library is loaded; there is no client or an
    open one, with its clock off when it is [fresh]. *)
Record opening (fresh : bool) (w : ril_world) (i : rilclient_intf) : Prop := {
  opening_instance : instance w = Some i;
  opening_loaded : handle i <> 0 /\ 0 < loads (rlog w);
  opening_client : client i = 0 \/ client i ∈ clients (rlog w) /\ (fresh = true -> clock (rlog w) (client i) = false);
  opening_symbols : ril_close_client i = true /\ ril_connect i = true /\ ril_is_connected i = true;
  opening_legal : ril_all_legal (rlog w)
}.

(** Calls that open, close and switch nothing. *)
Definition neutral (c : ril_call) : bool :=
  match c with
  | calloc | usleep _ | Connect_RILD _ | isConnected_RILD _
  | call_SetCallVolume _ _ _ | call_SetCallAudioPath _ _ _ | call_SetMute _ _ => true
  | _ => false
  end.

Lemma neutral_logged w c : neutral c = true ->
  clients (rlog (logged w c)) = clients (rlog w) /\ loads (rlog (logged w c)) = loads (rlog w) /\
  forall k, clock (rlog (logged w c)) k = clock (rlog w) k.
Proof. by destruct c. Qed.

Lemma opening_logged fresh w i c : opening fresh w i -> neutral c = true -> ril_legal (rlog w) c ->
  opening fresh (logged w c) i.
Proof.
  intros [Ei Hl Hc HS HL] Hn Hlc. destruct (neutral_logged w c Hn) as (E1 & E2 & E3).
  split; [done|by rewrite E2| |done|by split]. by rewrite E1, E3.
Qed.

Lemma opening_closed w i c : opening true w i -> c = client i -> c <> 0 ->
  opening true ((logged w (CloseClient_RILD c)) <| instance := Some (i <| client := 0 |>) |>) (i <| client := 0 |>).
Proof.
  intros [Ei Hl Hc HS HL] -> Hz. destruct Hc as [?|[Hc _]]; [done|].
  split; [done|done|by left|done|]. simpl. split; [split; [apply Hl|done]|done].
Qed.

(** What the loop leaves as it is, and how often it tries. *)
Definition retried (n : nat) (w : ril_world) (i : rilclient_intf) (w' : ril_world) (i' : rilclient_intf) : Prop :=
  i' <| client := 0 |> = i <| client := 0 |> /\ loads (rlog w') = loads (rlog w) /\
  (attempts (rlog w') <= attempts (rlog w) + n)%nat.

Lemma open_client_spec n fresh w i : opening fresh w i ->
  ends (open_client n) w (fun _ w' => exists i',
    opening (fresh || negb (Nat.eqb n 0)) w' i' /\ retried n w i w' i').
Proof.
  revert fresh w i. induction n as [|n IH]; intros fresh w i Ho; simpl.
  { apply ends_ret. exists i. rewrite orb_false_r. split; [done|]. split; [done|]. split; [done|lia]. }
  rewrite orb_true_r.
  assert (R : forall w1 i1, opening true w1 i1 -> retried 1 w i w1 i1 ->
    ends (open_client n) w1 (fun _ w' => exists i', opening true w' i' /\ retried (Datatypes.S n) w i w' i')).
  { intros w1 i1 Ho1 (C1 & C2 & C3). eapply ends_weaken; [by apply (IH true)|].
    intros _ w' (i' & Hi' & D1 & D2 & D3). exists i'. split; [done|]. split; [congruence|]. split; [congruence|lia]. }
  clear IH. destruct Ho as [Ei [Hh Hl] _ (S1 & S2 & S3) HL].
  eapply ends_step; [apply ril_some|]. set (c := ril_answer _ _). set (w1 := logged w OpenClient_RILD).
  eapply ends_step; [by apply rilc_set_some|].
  set (i2 := i <| client := c |>). set (w2 := w1 <| instance := Some i2 |>).
  assert (O2 : opening true w2 i2).
  { split; [done|done| |done|by split]. simpl. fold c. destruct (Z.eqb_spec c 0); [by left|right].
    rewrite Z.eqb_refl. split; [set_solver|done]. }
  assert (T : forall w' i', attempts (rlog w') = attempts (rlog w2) -> loads (rlog w') = loads (rlog w2) ->
    i' <| client := 0 |> = i2 <| client := 0 |> -> retried 1 w i w' i').
  { intros w' i' E1 E2 E3. split; [done|]. split; [done|]. rewrite E1. simpl. lia. }
  destruct (Z.eqb_spec c 0) as [Ec|Ec].
  { eapply ends_step; [apply ril_some|]. apply (R _ i2); [by apply opening_logged|by apply T]. }
  assert (L : forall w, opening true w i2 -> 0 < loads (rlog w) /\ c ∈ clients (rlog w)).
  { intros w3 [_ [_ ?] [?|[? _]] _ _]; done. }
  assert (D : forall w', opening true w' i2 -> attempts (rlog w') = attempts (rlog w2) -> loads (rlog w') = loads (rlog w2) ->
    ends (mret tt) w' (fun _ w' => exists i', opening true w' i' /\ retried (Datatypes.S n) w i w' i')).
  { intros w' H' E1 E2. apply ends_ret. exists i2. split; [done|]. destruct (T w' i2) as (A & B & C); [done..|].
    split; [done|]. split; [done|lia]. }
  eapply ends_step; [by apply rilc_some|].
  eapply ends_step; [by apply via_some|]. set (w3 := logged w2 (isConnected_RILD c)).
  assert (O3 : opening true w3 i2) by (apply opening_logged; [done|done|by apply L]).
  destruct (negb _); [by apply D|].
  eapply ends_step; [by apply via_some|]. set (w4 := logged w3 (Connect_RILD c)).
  assert (O4 : opening true w4 i2) by (apply opening_logged; [done|done|by apply L]).
  destruct (negb _); [|by apply D].
  eapply ends_step; [by apply via_some|]. eapply ends_step; [by apply rilc_set_some|].
  eapply R; [by apply (opening_closed w4 i2 c)|by apply T].
Qed.

(** ** The states between operations *)

(** With [line = Some b] there is a connection, whose sound clock is [b]. *)
Definition line_ok (line : option bool) (w : ril_world) : Prop :=
  match line with
  | None => True
  | Some b => exists i, instance w = Some i /\ connected (rlog w) i /\
      (ril_set_audio_clock i = true -> clock (rlog w) (client i) = b)
  end.

Definition modem_inv (line : option bool) (w : ril_world) : Prop := modem_ok w /\ line_ok line w.

(** The settings after [SecRilOpen]. *)
Definition default_settings (i : rilclient_intf) : Prop :=
  volte_status i = VOLTE_OFF /\ hac_mode i = false /\ btsco_ec i = false /\ btsco_sr i = NB_SAMPLING_RATE /\
  tx_mute i = false /\ rx_mute i = false.

(** How [SecRilOpen] ends. *)
Definition open_outcome (w : ril_world) (r : Z) (w' : ril_world) : Prop :=
  modem_ok w' /\ (attempts (rlog w') <= attempts (rlog w) + MAX_RETRY)%nat /\
  (r = 0 /\ line_ok (Some false) w' /\
     (exists i a l, instance w' = Some i /\ default_settings i /\ rlog w' = (isConnected_RILD (client i), a) :: l /\ a <> 0) \/
   r = -1 /\ instance w' = None /\ loads (rlog w') = loads (rlog w)).

Lemma open_err_spec w i : instance w = Some i -> handle i <> 0 -> 0 < loads (rlog w) -> ril_all_legal (rlog w) ->
  exists w', open_err w = Some (-1, w') /\ instance w' = None /\
  modem_ok w' /\ loads (rlog w') = loads (rlog w) - 1 /\ attempts (rlog w') = attempts (rlog w).
Proof.
  intros Ei Hh Hl HL. unfold open_err. rewrite (bind_some _ _ _ _ _ (rilc_some w i Ei)).
  rewrite (proj2 (Z.eqb_neq _ _) Hh). cbn [negb].
  exists ((logged w (dlclose (handle i))) <| instance := None |>). split.
  - unfold mbind, ST_bind, ril, rilc_set. simpl. by rewrite Ei.
  - split; [done|]. split; [|done]. split; [done|simpl; lia|by split].
Qed.

Lemma getInstance_spec w : modem_ok w ->
  (exists w', getInstance w = Some (false, w') /\ instance w' = None /\ modem_ok w' /\
     loads (rlog w') = loads (rlog w) /\ attempts (rlog w') = attempts (rlog w)) \/
  (exists w' i, getInstance w = Some (true, w') /\ instance w' = Some i /\ modem_ok w' /\
     loads (rlog w') = loads (rlog w) /\ attempts (rlog w') = attempts (rlog w)).
Proof.
  intros [Hi Hl HL]. unfold getInstance. destruct (instance w) as [i|] eqn:Ei.
  - right. exists w, i. split; [done|]. split; [done|]. split; [|done]. by split; [rewrite Ei|..].
  - simpl. destruct (_ =? 0).
    + left. exists (logged w calloc). split; [done|]. split; [done|]. split; [|done].
      split; [simpl; by rewrite Ei|done|by split].
    + right. exists ((logged w calloc) <| instance := Some zero_intf |>), zero_intf.
      split; [done|]. split; [done|]. split; [|done].
      split; [|done|by split]. intros i [= <-]. left. by repeat split.
Qed.

(** Once the library is loaded. *)
Lemma connect_spec w i : opening false w i -> default_settings i -> handle i <> 0 ->
  forall base, loads (rlog w) = loads base + 1 -> attempts (rlog w) = attempts base ->
  ends (open_client MAX_RETRY ;;
        i ← rilc;
        if client i =? 0 then open_err
        else
          connected ← via (ril_is_connected i) (isConnected_RILD (client i));
          if connected =? 0 then open_err else mret 0) w
    (fun r w' => modem_ok w' /\ (attempts (rlog w') <= attempts base + MAX_RETRY)%nat /\
      (r = 0 /\ line_ok (Some false) w' /\
         (exists i a l, instance w' = Some i /\ default_settings i /\
            rlog w' = (isConnected_RILD (client i), a) :: l /\ a <> 0) \/
       r = -1 /\ instance w' = None /\ loads (rlog w') = loads base)).
Proof.
  intros Ho Hd Hh base El Ea.
  eapply ends_bind; [by apply (open_client_spec MAX_RETRY false w i)|].
  intros _ w1 (i1 & O1 & E1 & L1 & A1). simpl in O1.
  assert (Er : forall w2, opening true w2 i1 -> loads (rlog w2) = loads (rlog w1) -> attempts (rlog w2) = attempts (rlog w1) ->
    ends open_err w2 (fun r w' => modem_ok w' /\ (attempts (rlog w') <= attempts base + MAX_RETRY)%nat /\
      (r = 0 /\ line_ok (Some false) w' /\
         (exists i a l, instance w' = Some i /\ default_settings i /\
            rlog w' = (isConnected_RILD (client i), a) :: l /\ a <> 0) \/
       r = -1 /\ instance w' = None /\ loads (rlog w') = loads base))).
  { intros w2 [I2 [Hh2 Hl2] _ _ HL2] L2 A2. destruct (open_err_spec w2 i1) as (w' & E & Ei & Hm & L & A); [done..|].
    eapply ends_eq; [exact E|]. split; [done|]. split; [lia|]. right. split; [done|]. split; [done|lia]. }
  eapply ends_step; [apply rilc_some, O1|].
  destruct (Z.eqb_spec (client i1) 0) as [|Ec]; [by apply Er|].
  destruct (opening_client _ _ _ O1) as [|[Hc Hk]]; [done|].
  destruct (opening_loaded _ _ _ O1) as [Hh1 Hl1]. destruct (opening_symbols _ _ _ O1) as (_ & _ & S3).
  eapply ends_step; [by apply via_some|]. set (a := ril_answer _ _). set (w2 := logged w1 (isConnected_RILD (client i1))).
  assert (O2 : opening true w2 i1) by (by apply opening_logged).
  destruct (Z.eqb_spec a 0) as [|Na]; [by apply Er|].
  apply ends_ret. destruct O2 as [I2 Hl2 Hc2 _ HL2].
  split.
  { split; [|lia|done]. intros i2 Ei2. rewrite I2 in Ei2. injection Ei2 as <-. right. by split. }
  split; [change (attempts (rlog w2)) with (attempts (rlog w1)); lia|]. left. split; [done|].
  split; [exists i1; split; [done|]; split; [done|]; intros _; by apply Hk|].
  exists i1, a, (rlog w1). split; [done|]. split; [|done].
  assert (F : forall T (f : rilclient_intf -> T), f i1 = f (i1 <| client := 0 |>) -> f i = f (i <| client := 0 |>) -> f i1 = f i)
    by (intros T f F1 F2; by rewrite F1, E1, <- F2).
  destruct Hd as (D1 & D2 & D3 & D4 & D5 & D6). unfold default_settings.
  rewrite (F _ volte_status), (F _ hac_mode), (F _ btsco_ec), (F _ btsco_sr), (F _ tx_mute), (F _ rx_mute) by done. done.
Qed.

Lemma SecRilOpen_spec w : modem_ok w -> ends SecRilOpen w (open_outcome w).
Proof.
  intros Hw. unfold SecRilOpen, open_outcome.
  destruct (getInstance_spec w Hw) as [(w1 & E & Ei & M1 & L1 & A1)|(w1 & i & E & Ei & M1 & L1 & A1)].
  { eapply ends_step; [exact E|]. apply ends_ret. split; [done|]. split; [lia|]. right. by rewrite L1. }
  eapply ends_step; [exact E|]. cbn [negb].
  eapply ends_step; [by apply rilc_set_some|]. eapply ends_step; [apply ril_some|].
  set (h := ril_answer _ _). eapply ends_step; [by apply rilc_set_some|].
  set (i2 := (initial_intf i) <| handle := h |>).
  set (w2 := (logged (w1 <| instance := Some (initial_intf i) |>) dlopen) <| instance := Some i2 |>).
  assert (B : forall o, rlog (w2 <| instance := o |>) = (dlopen, h) :: rlog w1) by done.
  clearbody h. destruct M1 as [Hi1 Hl1 HL1].
  destruct (Z.eqb_spec h 0) as [Eh|Eh].
  { eapply ends_step; [reflexivity|]. apply ends_ret. split; [|split].
    - split; [done|rewrite B; simpl; by rewrite Eh|rewrite B; by split].
    - rewrite B. simpl. lia.
    - right. split; [done|]. split; [done|]. rewrite B. simpl. by rewrite Eh. }
  eapply ends_step; [by apply rilc_set_some|]. set (i3 := load_symbols i2). set (w3 := w2 <| instance := Some i3 |>).
  eapply ends_step; [by apply rilc_some|].
  assert (El : loads (rlog w3) = loads (rlog w) + 1).
  { unfold w3. rewrite B. simpl. rewrite (proj2 (Z.eqb_neq h 0)) by done. lia. }
  assert (HL3 : ril_all_legal (rlog w3)) by (unfold w3; rewrite B; by split).
  assert (A3 : attempts (rlog w3) = attempts (rlog w)) by (unfold w3; by rewrite B).
  assert (C3 : clients (rlog w3) = clients (rlog w1)) by (unfold w3; by rewrite B).
  match goal with |- ends (if ?b then _ else _) _ _ => change b with (dlsym OpenClient) end.
  destruct (dlsym OpenClient) eqn:Es.
  - destruct (exports_client Es) as (S1 & S2 & S3).
    refine (connect_spec w3 i3 _ _ Eh (rlog w) El A3); [|done].
    split; [done|split; [done|lia]| |done|done]. rewrite C3.
    destruct (Hi1 i Ei) as [(Hc & _)|[(_ & _ & Hc) _]]; [by left|by right].
  - destruct (open_err_spec w3 i3) as (w' & E' & Ei' & Hm & L & A); [done|done|lia|done|].
    eapply ends_eq; [exact E'|]. split; [done|]. split; [lia|]. right. split; [done|]. split; [done|lia].
Qed.

(** ** The other operations *)

(** An assignment that leaves the connection alone. *)
Definition link_kept (f : rilclient_intf -> rilclient_intf) : Prop := forall i,
  client (f i) = client i /\ handle (f i) = handle i /\ ril_is_connected (f i) = ril_is_connected i /\
  ril_set_audio_clock (f i) = ril_set_audio_clock i /\ (no_functions i -> no_functions (f i)).

Lemma modem_inv_set line f w i : link_kept f -> modem_inv line w -> instance w = Some i ->
  modem_inv line (w <| instance := Some (f i) |>).
Proof.
  intros Hf [[Hi Hl HL] Hline] Ei. destruct (Hf i) as (C & Hd & Is & Ck & Nf). split; [split|].
  - intros i' [= <-]. unfold intf_ok, connected. rewrite C, Hd, Is. destruct (Hi i Ei) as [(? & ? & ?)|?]; [left; auto|by right].
  - done.
  - done.
  - destruct line as [b|]; [|done]. destruct Hline as (i' & Ei' & Hc & Hk). rewrite Ei in Ei'. injection Ei' as <-.
    exists (f i). split; [done|]. unfold connected. rewrite C, Hd, Ck. done.
Qed.

Lemma modem_inv_logged line c w : modem_inv line w -> neutral c = true -> ril_legal (rlog w) c ->
  modem_inv line (logged w c).
Proof.
  intros [[Hi Hl HL] Hline] Hn Hlc. destruct (neutral_logged w c Hn) as (E1 & E2 & E3). split; [split|].
  - intros i Ei. unfold intf_ok, connected. rewrite E1, E2. by apply Hi.
  - by rewrite E2.
  - by split.
  - destruct line as [b|]; [|done]. destruct Hline as (i & Ei & Hc & Hk). exists i. split; [done|].
    unfold connected. rewrite E1, E2, E3. done.
Qed.

(** What [getInstance] gives, with the connection as it was. *)
Lemma getInstance_inv line w : modem_inv line w ->
  (exists w', getInstance w = Some (false, w') /\ modem_inv line w') \/
  (exists w' i, getInstance w = Some (true, w') /\ instance w' = Some i /\ modem_inv line w').
Proof.
  intros Hw. destruct (instance w) as [i|] eqn:Ei.
  - right. exists w, i. by rewrite (getInstance_some w i Ei).
  - destruct (getInstance_spec w (proj1 Hw)) as [(w1 & E & Ei1 & M1 & _)|(w1 & i & E & Ei1 & M1 & _)].
    + left. exists w1. split; [done|]. split; [done|]. destruct line; [|done].
      destruct Hw as [_ (i & E' & _)]. congruence.
    + right. exists w1, i. split; [done|]. split; [done|]. split; [done|]. destruct line; [|done].
      destruct Hw as [_ (i' & E' & _)]. congruence.
Qed.

Lemma if_rilc_spec line f : link_kept f -> triple (modem_inv line) (if_rilc f) (fun _ => modem_inv line).
Proof.
  intros Hf w Hw. unfold if_rilc. destruct (getInstance_inv line w Hw) as [(w1 & E & I1)|(w1 & i & E & Ei & I1)].
  - eapply ends_step; [exact E|]. by apply ends_ret.
  - eapply ends_step; [exact E|]. eapply ends_eq; [by apply rilc_set_some|]. by apply modem_inv_set.
Qed.

(** An instance with a client or a function has a connection. *)
Lemma client_connected w i : modem_ok w -> instance w = Some i -> client i <> 0 ->
  connected (rlog w) i /\ ril_is_connected i = true.
Proof. intros Hw Ei Hc. destruct (modem_intf w Hw i Ei) as [(? & _)|?]; done. Qed.

(** A step of an operation that starts with [getInstance]. *)
Lemma ends_getInstance {A} line w (k : bool -> R A) Q : modem_inv line w ->
  (forall w', modem_inv line w' -> ends (k false) w' Q) ->
  (forall w' i, modem_inv line w' -> instance w' = Some i -> ends (k true) w' Q) ->
  ends (getInstance ≫= k) w Q.
Proof.
  intros Hw Hf Ht. destruct (getInstance_inv line w Hw) as [(w1 & E & I1)|(w1 & i & E & Ei & I1)];
    (eapply ends_step; [exact E|]); eauto.
Qed.

Lemma SecRilClose_spec line : triple (modem_inv line) SecRilClose (fun _ => modem_ok).
Proof.
  intros w Hw. unfold SecRilClose. apply (ends_getInstance line); [done| |].
  { intros w1 I1. apply ends_ret, I1. }
  intros w1 i [[Hi Hl HL] _] Ei. eapply ends_bind with (Q := fun _ => modem_ok); [|by intros; apply ends_ret].
  eapply ends_step; [by apply rilc_some|].
  assert (C : exists w2, (if negb (client i =? 0) && ril_close_client i then
      ril (CloseClient_RILD (client i)) ;; mret tt else mret tt) w1 = Some (tt, w2) /\ instance w2 = Some i /\
      loads (rlog w2) = loads (rlog w1) /\ ril_all_legal (rlog w2)).
  { destruct (Z.eqb_spec (client i) 0) as [|Hc]; [by exists w1|].
    destruct (ril_close_client i); [|by exists w1].
    destruct (Hi i Ei) as [(? & _)|[(_ & ? & ?) _]]; [done|].
    exists (logged w1 (CloseClient_RILD (client i))). by repeat split. }
  destruct C as (w2 & E2 & Ei2 & L2 & A2). eapply ends_step; [exact E2|].
  destruct (Z.eqb_spec (handle i) 0) as [Eh|Hh].
  - eapply ends_step; [reflexivity|]. eapply ends_eq; [reflexivity|]. split; [done|simpl; lia|done].
  - destruct (Hi i Ei) as [(_ & ? & _)|[(_ & Hl1 & _) _]]; [done|].
    set (w3 := (logged w2 (dlclose (handle i))) <| instance := Some (i <| handle := 0 |>) |>).
    assert (E3 : (ril (dlclose (handle i)) ;; rilc_set (fun i => i <| handle := 0 |>)) w2 = Some (tt, w3)).
    { rewrite (bind_some _ _ _ _ _ (ril_some _ w2)). by apply rilc_set_some. }
    eapply ends_step; [exact E3|]. eapply ends_eq; [reflexivity|].
    split; [done|simpl; lia|split; [|done]; split; [done|lia]].
Qed.

Lemma SecRilSetVoiceVolume_spec line device volume :
  triple (modem_inv line) (SecRilSetVoiceVolume device volume) (fun _ => modem_inv line).
Proof.
  intros w Hw. unfold SecRilSetVoiceVolume. apply (ends_getInstance line); [done| |].
  { intros w1 I1. by apply ends_ret. }
  intros w1 i I1 Ei. eapply ends_bind with (Q := fun _ => modem_inv line); [|by intros; apply ends_ret].
  eapply ends_step; [by apply rilc_some|]. destruct (ril_set_audio_volume i); [|by apply ends_ret].
  destruct (Z.eqb_spec (client i) 0) as [|Hc]; [by apply ends_ret|].
  eapply ends_step; [apply ril_some|]. apply ends_ret. apply modem_inv_logged; [done|done|].
  by destruct (client_connected w1 i (proj1 I1) Ei Hc) as [(_ & ? & ?) _].
Qed.

Lemma SecRilSetVoicePath_spec line mode device :
  triple (modem_inv line) (SecRilSetVoicePath mode device) (fun _ => modem_inv line).
Proof.
  intros w Hw. unfold SecRilSetVoicePath. apply (ends_getInstance line); [done| |].
  { intros w1 I1. by apply ends_ret. }
  intros w1 i I1 Ei. eapply ends_step; [by apply rilc_some|]. eapply ends_step; [by apply rilc_set_some|].
  set (t := map_sound_from_device _).
  assert (I2 : modem_inv line (w1 <| instance := Some (i <| sound_type := t |>) |>))
    by (by apply (modem_inv_set line (fun i => i <| sound_type := t |>))).
  destruct (ril_set_audio_path i); [|by apply ends_ret].
  destruct (Z.eqb_spec (client i) 0) as [|Hc]; [by apply ends_ret|].
  eapply ends_eq; [apply ril_some|]. apply modem_inv_logged; [done|done|].
  by destruct (client_connected w1 i (proj1 I1) Ei Hc) as [(_ & ? & ?) _].
Qed.

Lemma SecRilSetTxMute_spec line state : triple (modem_inv line) (SecRilSetTxMute state) (fun _ => modem_inv line).
Proof.
  intros w Hw. unfold SecRilSetTxMute. apply (ends_getInstance line); [done| |].
  { intros w1 I1. by apply ends_ret. }
  intros w1 i I1 Ei. eapply ends_bind with (Q := fun _ => modem_inv line); [|by intros; apply ends_ret].
  eapply ends_step; [by apply rilc_some|].
  eapply ends_bind with (Q := fun _ w2 => modem_inv line w2 /\ instance w2 = Some i).
  - destruct (ril_set_mute i); [|by apply ends_ret].
    destruct (Z.eqb_spec (client i) 0) as [|Hc]; [by apply ends_ret|].
    eapply ends_step; [apply ril_some|]. apply ends_ret. split; [|done]. apply modem_inv_logged; [done|done|].
    by destruct (client_connected w1 i (proj1 I1) Ei Hc) as [(_ & ? & ?) _].
  - intros _ w2 [I2 Ei2]. eapply ends_eq; [by apply rilc_set_some|].
    by apply (modem_inv_set line (fun i => i <| tx_mute := state |>)).
Qed.

(** The clock of a connection follows the last request. *)
Lemma SecRilSetSoundClkMode_spec b mode :
  triple (modem_inv (Some b)) (SecRilSetSoundClkMode mode) (fun _ => modem_inv (Some (negb (mode =? 0)))).
Proof.
  intros w Hw. unfold SecRilSetSoundClkMode. destruct Hw as [[Hi Hl HL] (i & Ei & Hc & Hk)].
  eapply ends_step; [by eapply getInstance_some|].
  eapply ends_bind with (Q := fun _ => modem_inv (Some (negb (mode =? 0)))); [|by intros; apply ends_ret].
  eapply ends_step; [by apply rilc_some|].
  destruct (ril_set_audio_clock i) eqn:Es.
  - eapply ends_step; [apply ril_some|]. apply ends_ret. set (c := call_SetCallClockSync _ _).
    split; [split|].
    + intros i' Ei'. destruct (Hi i' Ei') as [?|[? ?]]; [by left|by right].
    + done.
    + split; [by destruct Hc as (_ & ? & ?)|done].
    + exists i. split; [done|]. split; [done|]. intros _. simpl. rewrite Z.eqb_refl. by destruct (mode =? 0).
  - apply ends_ret. split; [by split|]. exists i. split; [done|]. split; [done|]. by rewrite Es.
Qed.
End operations.
