(* ===== verification/Voice.v ===== *)
(** * Voice calls: the voice manager

    [src/libaudio/audiohal/voice_manager_sec.c]: the state of the voice call of the
    audio HAL, on top of the client of the modem ([Ril]).  The state is the voice
    manager of the device, [adev->voice], and the state of the client. *)

From Stdlib Require Import String.
From S2P Require Import Prelude Effects Ril Float32.

(** ** Data *)

Inductive call_status_t :=
  | CALL_STATUS_INVALID
  | CALL_STATUS_CONNECTED
  | CALL_STATUS_INCALLMODE
  | CALL_STATUS_ACTIVE.

#[export] Instance call_status_eq_dec : EqDecision call_status_t.
Proof. solve_decision. Defined.

(** The value of the enumerator. *)
Definition call_status_value (s : call_status_t) : Z :=
  match s with
  | CALL_STATUS_INVALID => 0 | CALL_STATUS_CONNECTED => 1 | CALL_STATUS_INCALLMODE => 2 | CALL_STATUS_ACTIVE => 3
  end.

(** Constants of [voice_manager.h], [voice_definition.h], [factory_manager.h]. *)
Definition VOICE_SR_NB : Z := 0.
Definition WB : Z := 1.
Definition DEVICE_INVALID : Z := -1.
Definition TTY_MODE_OFF : Z := 0x10.
Definition TTY_MODE_FULL : Z := 0x20.
Definition TTY_MODE_VCO : Z := 0x40.
Definition TTY_MODE_HCO : Z := 0x80.
Definition TTY_MODE_OFF_RIL : Z := 0.
Definition TTY_MODE_FULL_RIL : Z := 1.
Definition TTY_MODE_HCO_RIL : Z := 2.
Definition TTY_MODE_VCO_RIL : Z := 3.
Definition HAC_MODE_OFF : Z := 0x100.
Definition HAC_MODE_ON : Z := 0x200.
Definition FACTORY_LOOPBACK_OFF : Z := 0.
Definition VOLUME_STEPS_DEFAULT : Z := 5.
Definition AUDIO_PARAMETER_VOLTE_STATUS : string := "VoLTEstate".

(** [struct voice_manager]; the callback is its address. *)
Record voice_manager := {
  call_status : call_status_t;
  vm_realcall : bool;
  csvtcall : bool;
  keep_call_mode : bool;
  out_device : Z;
  in_device_id : Z;
  bluetooth_nrec : Z;
  bluetooth_samplerate : Z;
  tty_mode : Z;
  vm_hac_mode : Z;
  call_forwarding : bool;
  mute_voice : bool;
  cur_modem : Z;
  extra_volume : bool;
  voice_samplingrate : Z;
  loopback_mode : Z;
  vowifi_band : Z;
  voip_rx_active : bool;
  voip_wificalling : bool;
  vm_volte_status : Z;
  previous_volte_status : Z;
  volume_steps_max : Z;
  callback : Z
}.

#[export] Instance voice_manager_fields : Fields voice_manager := fun v => {|
  call_status := call_status v; vm_realcall := vm_realcall v; csvtcall := csvtcall v;
  keep_call_mode := keep_call_mode v; out_device := out_device v; in_device_id := in_device_id v;
  bluetooth_nrec := bluetooth_nrec v; bluetooth_samplerate := bluetooth_samplerate v; tty_mode := tty_mode v;
  vm_hac_mode := vm_hac_mode v; call_forwarding := call_forwarding v; mute_voice := mute_voice v;
  cur_modem := cur_modem v; extra_volume := extra_volume v; voice_samplingrate := voice_samplingrate v;
  loopback_mode := loopback_mode v; vowifi_band := vowifi_band v; voip_rx_active := voip_rx_active v;
  voip_wificalling := voip_wificalling v; vm_volte_status := vm_volte_status v;
  previous_volte_status := previous_volte_status v; volume_steps_max := volume_steps_max v; callback := callback v |}.

(** ** The environment *)

(** The parameter strings of [libcutils] with the names of [system/audio.h], and the
    number of volume steps that the system property gives.  [str_parms_get_str] gives
    what it stores in a buffer of 40 bytes, or nothing for a missing key. *)
Class AudioPlatform := {
  str_parms : Type;
  str_parms_get_str : str_parms -> string -> option string;
  str_parms_del : str_parms -> string -> str_parms;
  AUDIO_PARAMETER_KEY_BT_NREC : string;
  AUDIO_PARAMETER_KEY_BT_SCO_WB : string;
  AUDIO_PARAMETER_KEY_TTY_MODE : string;
  AUDIO_PARAMETER_KEY_HAC : string;
  AUDIO_PARAMETER_VALUE_ON : string;
  AUDIO_PARAMETER_VALUE_OFF : string;
  AUDIO_PARAMETER_VALUE_TTY_OFF : string;
  AUDIO_PARAMETER_VALUE_TTY_VCO : string;
  AUDIO_PARAMETER_VALUE_TTY_HCO : string;
  AUDIO_PARAMETER_VALUE_TTY_FULL : string;
  AUDIO_PARAMETER_VALUE_HAC_ON : string;
  AUDIO_PARAMETER_VALUE_HAC_OFF : string;
  atoi_vol_steps : Z
}.

(** ** State *)

Record vworld := {
  voice : option voice_manager;
  modem : ril_world
}.
#[export] Instance vworld_fields : Fields vworld := fun w => {| voice := voice w; modem := modem w |}.

Abbreviation V := (ST vworld).

(** An operation of the client. *)
Definition client_op {A} (o : R A) : V A := fun w =>
  match o (modem w) with Some (a, m) => Some (a, w <| modem := m |>) | None => None end.

(** [*voice], and an assignment to its fields. *)
Definition vm : V voice_manager := fun w => match voice w with Some v => Some (v, w) | None => None end.
Definition vm_set (f : voice_manager -> voice_manager) : V unit := fun w =>
  match voice w with Some v => Some (tt, w <| voice := Some (f v) |>) | None => None end.

(** [if (voice) { ... }] *)
Definition if_voice (o : V unit) : V unit := fun w => match voice w with Some _ => o w | None => Some (tt, w) end.

(** An assignment to [adev->voice]. *)
Definition set_voice (v : option voice_manager) : V unit := fun w => Some (tt, w <| voice := v |>).

(** A call of the client whose result is ignored. *)
Definition ignore {A} (o : R A) : V unit := client_op o ;; mret tt.

Section operations.
Context `{AudioDevices, RilLibrary, AudioPlatform}.

(** ** Local functions *)

Definition voice_set_sco_solution (echo_cancel : bool) (sample_rate : Z) : V Z :=
  if_voice (ignore (SecRilSetScoSolution echo_cancel sample_rate)) ;; mret 0.
Definition voice_set_volte_status (status : Z) : V Z := if_voice (ignore (SecRilSetVoLTEState status)) ;; mret 0.
Definition voice_set_hac_mode (status : bool) : V Z := if_voice (ignore (SecRilSetHACMode status)) ;; mret 0.

(** ** Status *)

Definition voice_is_call_mode : V bool :=
  v ← vm; mret (call_status_value CALL_STATUS_INCALLMODE <=? call_status_value (call_status v)).
Definition voice_is_call_active : V bool :=
  v ← vm; mret (bool_decide (call_status v = CALL_STATUS_ACTIVE)).

(** ** Set functions *)

Definition voice_set_call_mode (on : bool) : V Z :=
  v ← vm;
  ret ← (if bool_decide (call_status v = CALL_STATUS_INVALID) && on then
           ret ← client_op SecRilOpen;
           vm_set (fun v => v <| call_status :=
             if ret =? 0 then CALL_STATUS_CONNECTED else CALL_STATUS_INVALID |>) ;;
           mret ret
         else mret 0);
  v ← vm;
  (if bool_decide (call_status v = CALL_STATUS_CONNECTED) && on then
     vm_set (fun v => v <| call_status := CALL_STATUS_INCALLMODE |>)
   else if bool_decide (call_status v = CALL_STATUS_INCALLMODE) && negb on then
     vm_set (fun v => v <| call_status := CALL_STATUS_CONNECTED |>)
   else mret tt) ;;
  mret ret.

Definition voice_set_call_active (on : bool) : V Z :=
  v ← vm;
  (if bool_decide (call_status v = CALL_STATUS_INCALLMODE) && on then
     vm_set (fun v => v <| call_status := CALL_STATUS_ACTIVE |>) ;;
     ignore (SecRilSetSoundClkMode 1)
   else if bool_decide (call_status v = CALL_STATUS_ACTIVE) && negb on then
     vm_set (fun v => v <| call_status := CALL_STATUS_INCALLMODE |>) ;;
     ignore (SecRilSetSoundClkMode 0)
   else mret tt) ;;
  mret 0.

Definition voice_set_audio_mode (mode : Z) (status : bool) : V Z :=
  if_voice (ignore (SecRilSetAudioMode mode status)) ;; mret 0.

(** [(int)(volume * voice->volume_steps_max)] *)
Definition volume_index (volume : float) (steps : Z) : V Z := fun w =>
  match int_of_float (float_mul volume (float_of_int steps)) with Some i => Some (i, w) | None => None end.

Definition voice_set_volume (volume : float) : V Z :=
  v ← vm;
  if bool_decide (call_status v = CALL_STATUS_ACTIVE) then
    i ← volume_index volume (volume_steps_max v);
    ignore (SecRilSetVoiceVolume (out_device v) i) ;; mret 0
  else mret (-1).

Definition voice_set_extra_volume (on : bool) : V Z := if_voice (ignore (SecRilSetExtraVolume on)) ;; mret 0.

Definition voice_set_path (devices : Z) : V Z :=
  b ← voice_is_call_mode;
  if b : bool then
    vm_set (fun v => v <| out_device := devices |>) ;;
    ignore (SecRilSetVoicePath AUDIO_MODE_IN_CALL devices) ;; mret 0
  else mret (-1).

Definition voice_set_mic_mute (status : bool) : V Z :=
  b ← voice_is_call_mode;
  v ← vm;
  (if b || negb (loopback_mode v =? FACTORY_LOOPBACK_OFF) then ignore (SecRilSetTxMute status) else mret tt) ;;
  mret 0.

Definition voice_set_rx_mute (status : bool) : V Z := if_voice (ignore (SecRilSetRxMute status)) ;; mret 0.
Definition voice_set_usb_mic (status : bool) : V Z := if_voice (ignore (SecRilSetUSBMicState status)) ;; mret 0.
Definition voice_set_call_forwarding (callfwd : bool) : V unit := if_voice (ignore (SecRilSetCallFowardingMode callfwd)).
Definition voice_set_cur_indevice_id (device : Z) : V unit := vm_set (fun v => v <| in_device_id := device |>).
Definition voice_set_tty_mode (ttymode : Z) : V Z := if_voice (ignore (SecRilSetTTYmode ttymode)) ;; mret 0.

(** ** Parameters

    The blocks of [voice_set_parameters], one per key.  [primary_output] is
    [adev->primary_output->common.requested_devices], if there is an output. *)

Definition parameter_volte (parms : str_parms) : V unit :=
  match str_parms_get_str parms AUDIO_PARAMETER_VOLTE_STATUS with
  | Some value =>
      (if String.eqb value "voice" then vm_set (fun v => v <| vm_volte_status := VOLTE_VOICE |>)
       else if String.eqb value "end" then vm_set (fun v => v <| vm_volte_status := VOLTE_OFF |>)
       else mret tt) ;;
      v ← vm;
      voice_set_volte_status (vm_volte_status v) ;; mret tt
  | None => mret tt
  end.

Definition parameter_nrec (parms : str_parms) : V str_parms :=
  match str_parms_get_str parms AUDIO_PARAMETER_KEY_BT_NREC with
  | Some value =>
      (if String.eqb value AUDIO_PARAMETER_VALUE_ON then vm_set (fun v => v <| bluetooth_nrec := BT_NREC_ON |>)
       else if String.eqb value AUDIO_PARAMETER_VALUE_OFF then vm_set (fun v => v <| bluetooth_nrec := BT_NREC_OFF |>)
       else mret tt) ;;
      mret (str_parms_del parms AUDIO_PARAMETER_KEY_BT_NREC)
  | None => mret parms
  end.

Definition parameter_sco_wb (primary_output : option Z) (parms : str_parms) : V str_parms :=
  match str_parms_get_str parms AUDIO_PARAMETER_KEY_BT_SCO_WB with
  | Some value =>
      (if String.eqb value AUDIO_PARAMETER_VALUE_ON then
         vm_set (fun v => v <| bluetooth_samplerate := WB_SAMPLING_RATE |>)
       else if String.eqb value AUDIO_PARAMETER_VALUE_OFF then
         vm_set (fun v => v <| bluetooth_samplerate := NB_SAMPLING_RATE |>)
       else mret tt) ;;
      let device :=
        match primary_output with Some devices => Z.land devices AUDIO_DEVICE_OUT_ALL_SCO | None => 0 end in
      v ← vm;
      voice_set_sco_solution (negb (bluetooth_nrec v =? 0)) (bluetooth_samplerate v) ;;
      active ← voice_is_call_active;
      (if active && negb (device =? 0) then
         match primary_output with
         | Some devices => voice_set_path devices ;; mret tt
         | None => undefined
         end
       else mret tt) ;;
      mret (str_parms_del parms AUDIO_PARAMETER_KEY_BT_SCO_WB)
  | None => mret parms
  end.

Definition tty_case (mode mode_ril : Z) : V unit :=
  vm_set (fun v => v <| tty_mode := mode |>) ;; voice_set_tty_mode mode_ril ;; mret tt.

Definition parameter_tty (parms : str_parms) : V str_parms :=
  match str_parms_get_str parms AUDIO_PARAMETER_KEY_TTY_MODE with
  | Some value =>
      (if String.eqb value AUDIO_PARAMETER_VALUE_TTY_OFF then tty_case TTY_MODE_OFF TTY_MODE_OFF_RIL
       else if String.eqb value AUDIO_PARAMETER_VALUE_TTY_VCO then tty_case TTY_MODE_VCO TTY_MODE_VCO_RIL
       else if String.eqb value AUDIO_PARAMETER_VALUE_TTY_HCO then tty_case TTY_MODE_HCO TTY_MODE_HCO_RIL
       else if String.eqb value AUDIO_PARAMETER_VALUE_TTY_FULL then tty_case TTY_MODE_FULL TTY_MODE_FULL_RIL
       else mret tt) ;;
      mret (str_parms_del parms AUDIO_PARAMETER_KEY_TTY_MODE)
  | None => mret parms
  end.

Definition parameter_hac (primary_output : option Z) (parms : str_parms) : V str_parms :=
  match str_parms_get_str parms AUDIO_PARAMETER_KEY_HAC with
  | Some value =>
      (if String.eqb value AUDIO_PARAMETER_VALUE_HAC_ON then
         vm_set (fun v => v <| vm_hac_mode := HAC_MODE_ON |>) ;; voice_set_hac_mode true ;; mret tt
       else if String.eqb value AUDIO_PARAMETER_VALUE_HAC_OFF then
         vm_set (fun v => v <| vm_hac_mode := HAC_MODE_OFF |>) ;; voice_set_hac_mode false ;; mret tt
       else mret tt) ;;
      active ← voice_is_call_active;
      (if (active : bool) then
         match primary_output with
         | Some devices => if negb (devices =? 0) then voice_set_path devices ;; mret tt else mret tt
         | None => mret tt
         end
       else mret tt) ;;
      mret (str_parms_del parms AUDIO_PARAMETER_KEY_HAC)
  | None => mret parms
  end.

(** The result is what is left of the parameters. *)
Definition voice_set_parameters (primary_output : option Z) (parms : str_parms) : V str_parms :=
  parameter_volte parms ;;
  parms ← parameter_nrec parms;
  parms ← parameter_sco_wb primary_output parms;
  parms ← parameter_tty parms;
  parameter_hac primary_output parms.

Definition voice_set_callback (callback_func : Z) : V Z := ignore (SecRilRegisterCallback 0 callback_func) ;; mret 0.

(** ** Get functions *)

Definition voice_get_volte_status : V Z := v ← vm; mret (vm_volte_status v).
Definition voice_get_samplingrate : V Z := v ← vm; mret (voice_samplingrate v).
Definition voice_get_vowifi_band : V Z := v ← vm; mret (vowifi_band v).
Definition voice_get_cur_indevice_id : V Z := v ← vm; mret (in_device_id v).
Definition voice_get_volume_index (volume : float) : V Z := v ← vm; volume_index volume (volume_steps_max v).

(** ** Other functions *)

Definition voice_set_loopback_device (mode rx_dev tx_dev : Z) : V Z :=
  if_voice (
    vm_set (fun v => v <| loopback_mode := mode |>) ;;
    let rx_dev :=
      if rx_dev =? Z.lor AUDIO_DEVICE_OUT_EARPIECE AUDIO_DEVICE_OUT_SPEAKER then AUDIO_DEVICE_OUT_EARPIECE
      else rx_dev in
    ignore (SecRilSetLoopback mode rx_dev tx_dev)) ;;
  mret 0.

Definition voice_ril_dump (fd : Z) : V unit := client_op (SecRilDump fd).

Definition voice_callback (event : Z) : V Z :=
  if_voice (
    v ← vm;
    ignore (via (negb (callback v =? 0)) (call_callback event))) ;;
  mret 0.

(** With the assignment [adev->voice = NULL] that the caller makes. *)
Definition voice_deinit : V unit :=
  if_voice (ignore SecRilClose ;; set_voice None).

(** The fields after [calloc] and the assignments of [voice_init]. *)
Definition initial_voice (status : call_status_t) : voice_manager := {|
  call_status := status; vm_realcall := false; csvtcall := false; keep_call_mode := false;
  out_device := AUDIO_DEVICE_NONE; in_device_id := DEVICE_INVALID; bluetooth_nrec := BT_NREC_INITIALIZED;
  bluetooth_samplerate := NB_SAMPLING_RATE; tty_mode := TTY_MODE_OFF; vm_hac_mode := 0;
  call_forwarding := false; mute_voice := false; cur_modem := CP1; extra_volume := false;
  voice_samplingrate := VOICE_SR_NB; loopback_mode := FACTORY_LOOPBACK_OFF; vowifi_band := WB;
  voip_rx_active := false; voip_wificalling := false; vm_volte_status := VOLTE_OFF;
  previous_volte_status := VOLTE_OFF;
  volume_steps_max := if atoi_vol_steps =? 0 then VOLUME_STEPS_DEFAULT else atoi_vol_steps;
  callback := 0 |}.

(** The new voice manager, which the caller stores in [adev->voice]. *)
Definition voice_init : V unit :=
  r ← client_op (ril calloc);
  if r =? 0 then set_voice None
  else
    ret ← client_op SecRilOpen;
    set_voice (Some (initial_voice (if ret =? 0 then CALL_STATUS_CONNECTED else CALL_STATUS_INVALID))).
End operations.
