(* ===== verification/VoiceLife.v ===== *)
(** * Voice calls: the life cycle of the voice manager

    The invariant of [Voice] on top of the one of [RilLife], the specifications of the
    operations, and the audio HAL as a client that calls them in any order. *)

From Stdlib Require Import String.
From S2P Require Import Prelude Effects Ril Float32 RilLife Voice.

#[local] Set Warnings "-clear-no-such-hyp".

(** ** The invariant *)

(** From [CALL_STATUS_CONNECTED] on there is a connection; its sound clock is on
    exactly in [CALL_STATUS_ACTIVE]. *)
Definition line_of (s : call_status_t) : option bool :=
  match s with
  | CALL_STATUS_INVALID => None
  | CALL_STATUS_CONNECTED | CALL_STATUS_INCALLMODE => Some false
  | CALL_STATUS_ACTIVE => Some true
  end.

Definition steps_ok (n : Z) : Prop := 0 < n < 2 ^ 24.

Definition in_status (s : call_status_t) (w : vworld) : Prop :=
  exists v, voice w = Some v /\ call_status v = s /\ callback v = 0 /\ steps_ok (volume_steps_max v) /\
    modem_inv (line_of s) (modem w).

Definition voice_inv (w : vworld) : Prop :=
  voice w = None /\ modem_ok (modem w) \/ exists s, in_status s w.

(** A platform whose number of volume steps is an exact [float]. *)
Class AudioPlatformLaws `{AudioPlatform} : Prop := {
  vol_steps_range : 0 <= atoi_vol_steps < 2 ^ 24
}.

(** ** Operations that leave the status alone *)

Section steady.
Context `{AudioDevices, RilLibraryLaws, AudioPlatformLaws}.

Definition steady {A} (o : V A) : Prop := forall s, triple (in_status s) o (fun _ => in_status s).

Lemma steady_ret {A} (a : A) : steady (mret a).
Proof. intros s. by apply triple_ret. Qed.

Lemma steady_bind {A B} (o : V A) (k : A -> V B) : steady o -> (forall a, steady (k a)) -> steady (o ≫= k).
Proof. intros Ho Hk s. eapply triple_bind; [apply Ho|intros a; apply Hk]. Qed.

Lemma steady_if {A} (b : bool) (o o' : V A) : steady o -> steady o' -> steady (if b then o else o').
Proof. by destruct b. Qed.

Lemma steady_vm : steady vm.
Proof.
  intros s w Hw. destruct Hw as (v & Ev & Hv). eapply ends_eq; [unfold vm; by rewrite Ev|]. by exists v.
Qed.

(** An assignment to other fields than those of the invariant. *)
Definition status_kept (f : voice_manager -> voice_manager) : Prop := forall v,
  call_status (f v) = call_status v /\ callback (f v) = callback v /\ volume_steps_max (f v) = volume_steps_max v.

Lemma steady_set f : status_kept f -> steady (vm_set f).
Proof.
  intros Hf s w (v & Ev & Es & Ec & Hst & Hm). destruct (Hf v) as (F1 & F2 & F3).
  eapply ends_eq; [unfold vm_set; by rewrite Ev|]. exists (f v). by rewrite F1, F2, F3.
Qed.

Lemma steady_client {A} (o : R A) : (forall line, triple (modem_inv line) o (fun _ => modem_inv line)) -> steady (client_op o).
Proof.
  intros Ho s w (v & Ev & Es & Ec & Hst & Hm). destruct (Ho _ _ Hm) as (r & m & E & Hm').
  eapply ends_eq; [unfold client_op; by rewrite E|]. by exists v.
Qed.

Lemma steady_ignore {A} (o : R A) : (forall line, triple (modem_inv line) o (fun _ => modem_inv line)) -> steady (ignore o).
Proof. intros Ho. apply steady_bind; [by apply steady_client|]. intros _. apply steady_ret. Qed.

Lemma steady_if_voice o : steady o -> steady (if_voice o).
Proof.
  intros Ho s w Hw. destruct (Hw) as (v & Ev & _).
  assert (E : if_voice o w = o w) by (unfold if_voice; by rewrite Ev). unfold ends. rewrite E. by apply Ho.
Qed.

Lemma setting_spec line f : link_kept f -> triple (modem_inv line) (if_rilc f ;; mret 0) (fun _ => modem_inv line).
Proof. intros Hf. eapply triple_bind; [by apply if_rilc_spec|]. intros []. by apply triple_ret. Qed.

Lemma pure_spec {A} line (a : A) : triple (modem_inv line) (mret a) (fun _ => modem_inv line).
Proof. by apply triple_ret. Qed.

(** [link_kept] of an assignment to a setting. *)
Ltac link := intros ?; refine (conj eq_refl (conj eq_refl (conj eq_refl (conj eq_refl (fun Hn => Hn))))).

(** The specifications of the operations of the client, by their names. *)
Ltac client_spec :=
  intros ?;
  first
    [ apply SecRilSetVoiceVolume_spec | apply SecRilSetVoicePath_spec | apply SecRilSetTxMute_spec
    | unfold SecRilSetExtraVolume, SecRilSetScoSolution, SecRilSetAudioMode, SecRilSetRxMute, SecRilSetVoLTEState,
        SecRilSetHACMode; apply setting_spec; link
    | unfold SecRilSetCallFowardingMode, SecRilSetUSBMicState; apply if_rilc_spec; link
    | apply pure_spec ].

Ltac steady :=
  repeat first
    [ apply steady_ret | apply steady_vm | rewrite andb_false_r | apply steady_if | apply steady_if_voice
    | apply steady_set; intros ?; repeat split; reflexivity
    | apply steady_ignore; client_spec
    | apply steady_bind; [|intros ?]
    | progress cbv beta iota zeta ].

Lemma steady_is_call_mode : steady voice_is_call_mode.
Proof. unfold voice_is_call_mode. steady. Qed.

Lemma steady_is_call_active : steady voice_is_call_active.
Proof. unfold voice_is_call_active. steady. Qed.

Lemma steady_set_path devices : steady (voice_set_path devices).
Proof. unfold voice_set_path. apply steady_bind; [apply steady_is_call_mode|]. intros b. steady. Qed.

Lemma steady_mic_mute status : steady (voice_set_mic_mute status).
Proof. unfold voice_set_mic_mute. apply steady_bind; [apply steady_is_call_mode|]. intros b. steady. Qed.

Lemma steady_parameters output parms : steady (voice_set_parameters output parms).
Proof.
  pose proof steady_is_call_active. pose proof steady_set_path.
  unfold voice_set_parameters. apply steady_bind; [|intros ?; apply steady_bind; [|intros ?;
    apply steady_bind; [|intros ?; apply steady_bind; [|intros ?]]]].
  - unfold parameter_volte, voice_set_volte_status. destruct (str_parms_get_str _ _); steady.
  - unfold parameter_nrec. destruct (str_parms_get_str _ _); steady.
  - unfold parameter_sco_wb, voice_set_sco_solution. destruct (str_parms_get_str _ _); [|steady].
    destruct output as [d|].
    + steady; auto.
    + change (negb (0 =? 0)) with false. steady; auto.
  - unfold parameter_tty, tty_case, voice_set_tty_mode. destruct (str_parms_get_str _ _); steady.
  - unfold parameter_hac, voice_set_hac_mode. destruct (str_parms_get_str _ _); [|steady].
    destruct output as [d|]; steady; auto.
Qed.

(** ** Operations that change the status *)

(** A change of the status field. *)
Lemma status_set s s' w : in_status s w -> modem_inv (line_of s') (modem w) ->
  ends (vm_set (fun v => v <| call_status := s' |>)) w (fun _ => in_status s').
Proof.
  intros (v & Ev & Es & Ec & Hst & Hm) Hl. eapply ends_eq; [unfold vm_set; by rewrite Ev|].
  by exists (v <| call_status := s' |>).
Qed.

Lemma vm_some w v : voice w = Some v -> vm w = Some (v, w).
Proof. intros E. unfold vm. by rewrite E. Qed.

Lemma vm_set_some f w v : voice w = Some v -> vm_set f w = Some (tt, w <| voice := Some (f v) |>).
Proof. intros E. unfold vm_set. by rewrite E. Qed.

Lemma ignore_some {A} (o : R A) w r m : o (modem w) = Some (r, m) -> ignore o w = Some (tt, w <| modem := m |>).
Proof. intros E. unfold ignore, client_op, mbind, ST_bind. by rewrite E. Qed.

(** [voice_set_call_mode]: a failed connection is tried again. *)
Lemma call_mode_spec on s w : in_status s w ->
  ends (voice_set_call_mode on) w (fun r w' =>
    in_status (match s, on with
               | CALL_STATUS_INVALID, true => if r =? 0 then CALL_STATUS_INCALLMODE else CALL_STATUS_INVALID
               | CALL_STATUS_CONNECTED, true => CALL_STATUS_INCALLMODE
               | CALL_STATUS_INCALLMODE, false => CALL_STATUS_CONNECTED
               | _, _ => s
               end) w' /\ (r = 0 \/ s = CALL_STATUS_INVALID /\ on = true /\ r = -1)).
Proof.
  intros Hw. unfold voice_set_call_mode. destruct (Hw) as (v & Ev & Es & Ec & Hst & Hm).
  eapply ends_step; [by apply vm_some|]. rewrite Es.
  assert (C : forall w1 s1 s2 (r : Z), in_status s1 w1 -> (s1 <> s2 -> line_of s2 = line_of s1) ->
    s2 = (if bool_decide (s1 = CALL_STATUS_CONNECTED) && on then CALL_STATUS_INCALLMODE
          else if bool_decide (s1 = CALL_STATUS_INCALLMODE) && negb on then CALL_STATUS_CONNECTED else s1) ->
    ends (v ← vm;
      (if bool_decide (call_status v = CALL_STATUS_CONNECTED) && on then
         vm_set (fun v => v <| call_status := CALL_STATUS_INCALLMODE |>)
       else if bool_decide (call_status v = CALL_STATUS_INCALLMODE) && negb on then
         vm_set (fun v => v <| call_status := CALL_STATUS_CONNECTED |>)
       else mret tt) ;;
      mret r) w1 (fun r' w' => r' = r /\ in_status s2 w')).
  { intros w1 s1 s2 r K1 Hl Hs. destruct (K1) as (v1 & Ev1 & Es1 & _ & _ & Hm1).
    eapply ends_step; [by apply vm_some|]. rewrite Es1.
    assert (M : forall t, line_of t = line_of s1 -> modem_inv (line_of t) (modem w1)) by (intros t ->; done).
    eapply ends_bind with (Q := fun _ => in_status s2); [|intros _ w2 K2; by apply ends_ret].
    destruct s1, on; simpl in *; subst s2; try (by apply ends_ret); (eapply status_set; [exact K1|by apply M]). }
  destruct (bool_decide (s = CALL_STATUS_INVALID) && on) eqn:Eb.
  - apply andb_prop in Eb as [->%bool_decide_eq_true ->].
    eapply ends_bind with (Q := fun r w' => (r = 0 \/ r = -1) /\
      in_status (if r =? 0 then CALL_STATUS_CONNECTED else CALL_STATUS_INVALID) w').
    + destruct (SecRilOpen_spec (modem w) (proj1 Hm)) as (r & m & Eo & M & _ & D).
      eapply ends_step; [unfold client_op; by rewrite Eo|].
      eapply ends_step; [unfold vm_set; simpl; by rewrite Ev|]. apply ends_ret.
      destruct D as [(-> & Hl & _)|(-> & _)]; (split; [auto|]);
        (eexists; split; [done|]); (split; [done|]); (split; [done|]); split; done.
    + intros r w1 [Hr K1].
      eapply ends_weaken; [apply (C w1 _ (if r =? 0 then CALL_STATUS_INCALLMODE else CALL_STATUS_INVALID) r K1)|].
      * by destruct Hr as [->| ->].
      * by destruct Hr as [->| ->].
      * intros r' w' [-> H']. destruct Hr as [->| ->]; simpl in *; auto.
  - eapply ends_step; [reflexivity|]. eapply ends_weaken; [eapply C with (s1 := s); [exact Hw| |reflexivity]|].
    + by destruct s, on.
    + intros r' w' [-> H']. split; [|by left]. by destruct s, on.
Qed.

Lemma call_active_spec on s w : in_status s w ->
  ends (voice_set_call_active on) w (fun r w' => r = 0 /\
    in_status (match s, on with
               | CALL_STATUS_INCALLMODE, true => CALL_STATUS_ACTIVE
               | CALL_STATUS_ACTIVE, false => CALL_STATUS_INCALLMODE
               | _, _ => s
               end) w').
Proof.
  intros Hw. unfold voice_set_call_active. destruct (Hw) as (v & Ev & Es & Ec & Hst & Hm).
  eapply ends_step; [by apply vm_some|]. rewrite Es.
  assert (K : forall s' b mode, line_of s = Some b -> line_of s' = Some (negb (mode =? 0)) ->
    ends (vm_set (fun v => v <| call_status := s' |>) ;; ignore (SecRilSetSoundClkMode mode)) w (fun _ => in_status s')).
  { intros s' b mode Hb Hs'. rewrite Hb in Hm. destruct (SecRilSetSoundClkMode_spec b mode (modem w) Hm) as (r & m & E & Hm').
    eapply ends_step; [unfold vm_set; by rewrite Ev|].
    eapply ends_step; [unfold client_op; simpl; by rewrite E|]. apply ends_ret.
    exists (v <| call_status := s' |>). rewrite <- Hs' in Hm'. done. }
  eapply ends_bind with (Q := fun _ => in_status (match s, on with
    | CALL_STATUS_INCALLMODE, true => CALL_STATUS_ACTIVE
    | CALL_STATUS_ACTIVE, false => CALL_STATUS_INCALLMODE | _, _ => s end)).
  - destruct s, on; try (by apply ends_ret); simpl; by eapply K.
  - intros _ w' H'. by apply ends_ret.
Qed.

(** A volume from 0 to 1 in a call. *)
Lemma volume_spec volume s w : in_unit volume -> in_status s w ->
  ends (voice_set_volume volume) w (fun _ => in_status s).
Proof.
  intros Hv Hw. unfold voice_set_volume. destruct (Hw) as (v & Ev & Es & Ec & Hst & Hm).
  eapply ends_step; [by apply vm_some|]. destruct (bool_decide _); [|by apply ends_ret].
  destruct (volume_steps_bounds volume (volume_steps_max v) Hv Hst) as (i & Ei & _).
  eapply ends_step; [unfold volume_index; by rewrite Ei|].
  eapply ends_bind with (Q := fun _ => in_status s); [|by intros; apply ends_ret].
  apply steady_ignore; [client_spec|done].
Qed.

(** Any volume: it may be undefined, but it keeps the status. *)
Lemma volume_keeps volume s w r w' : in_status s w -> voice_set_volume volume w = Some (r, w') -> in_status s w'.
Proof.
  intros Hw E. unfold voice_set_volume in E. apply bind_inv in E as (v & w1 & Ev & E).
  assert (K1 : in_status s w1) by (by apply (ends_run _ _ _ _ _ (steady_vm s w Hw) Ev)).
  destruct (bool_decide _); [|by injection E as _ <-].
  apply bind_inv in E as (i & w2 & Ei & E). unfold volume_index in Ei.
  destruct (int_of_float _); [|done]. injection Ei as _ <-.
  eapply (ends_run _ w1 (fun _ => in_status s)); [|exact E].
  eapply ends_bind; [apply steady_ignore; [client_spec|exact K1]|]. intros [] w3 K3. by apply ends_ret.
Qed.

(** ** Creation and destruction *)

Lemma init_spec w : modem_ok (modem w) ->
  ends voice_init w (fun _ w' => voice_inv w' /\ forall v, voice w' = Some v ->
    call_status v = CALL_STATUS_CONNECTED \/ call_status v = CALL_STATUS_INVALID).
Proof.
  intros Hw. unfold voice_init.
  assert (M : modem_ok (logged (modem w) calloc)).
  { destruct Hw as [Hi Hl HL]. split; [exact Hi|exact Hl|by split]. }
  eapply ends_step; [reflexivity|].
  destruct (_ =? 0); [eapply ends_eq; [reflexivity|]; split; [by left|done]|].
  destruct (SecRilOpen_spec _ M) as (r & m & Eo & Mo & _ & D).
  eapply ends_step; [unfold client_op; simpl; unfold logged in Eo; by rewrite Eo|].
  eapply ends_eq; [reflexivity|].
  assert (St : steps_ok (volume_steps_max (initial_voice CALL_STATUS_INVALID))).
  { unfold steps_ok. simpl. pose proof vol_steps_range. unfold VOLUME_STEPS_DEFAULT.
    destruct (Z.eqb_spec atoi_vol_steps 0); lia. }
  split.
  - right. destruct D as [(-> & Hl & _)|(-> & _)].
    + exists CALL_STATUS_CONNECTED. eexists. split; [done|]. split; [done|]. split; [done|]. split; [done|]. by split.
    + exists CALL_STATUS_INVALID. eexists. split; [done|]. split; [done|]. split; [done|]. split; [done|]. by split.
  - intros v [= <-]. destruct D as [(-> & _)|(-> & _)]; auto.
Qed.

Lemma deinit_spec w : voice_inv w ->
  ends voice_deinit w (fun _ w' => voice w' = None /\ modem_ok (modem w')).
Proof.
  intros [[Ev Hm]|(s & v & Ev & Es & Ec & Hst & Hm)]; unfold voice_deinit.
  - eapply ends_eq; [unfold if_voice; by rewrite Ev|done].
  - destruct (SecRilClose_spec _ _ Hm) as (r & m & E & Hm').
    apply (ends_eq _ _ tt {| voice := None; modem := m |}); [|done].
    unfold if_voice. rewrite Ev. unfold ignore, client_op, mbind, ST_bind. by rewrite E.
Qed.

(** ** The audio HAL as a client *)

(** The operations that the audio HAL calls, with their arguments. *)
Inductive voice_api :=
  | Voice_init
  | Voice_deinit
  | Call_mode (on : bool)
  | Call_active (on : bool)
  | Audio_mode (mode : Z) (status : bool)
  | Volume (volume : float)
  | Extra_volume (on : bool)
  | Path (devices : Z)
  | Mic_mute (status : bool)
  | Rx_mute (status : bool)
  | Usb_mic (status : bool)
  | Call_forwarding (callfwd : bool)
  | Cur_indevice_id (device : Z)
  | Tty_mode (ttymode : Z)
  | Parameters (primary_output : option Z) (parms : str_parms)
  | Register_callback (callback_func : Z)
  | Loopback_device (mode rx_dev tx_dev : Z)
  | Ril_dump (fd : Z)
  | Ril_event (event : Z).

Definition voice_perform (a : voice_api) : V unit :=
  match a with
  | Voice_init => voice_init
  | Voice_deinit => voice_deinit
  | Call_mode on => voice_set_call_mode on ;; mret tt
  | Call_active on => voice_set_call_active on ;; mret tt
  | Audio_mode mode status => voice_set_audio_mode mode status ;; mret tt
  | Volume volume => voice_set_volume volume ;; mret tt
  | Extra_volume on => voice_set_extra_volume on ;; mret tt
  | Path devices => voice_set_path devices ;; mret tt
  | Mic_mute status => voice_set_mic_mute status ;; mret tt
  | Rx_mute status => voice_set_rx_mute status ;; mret tt
  | Usb_mic status => voice_set_usb_mic status ;; mret tt
  | Call_forwarding callfwd => voice_set_call_forwarding callfwd
  | Cur_indevice_id device => voice_set_cur_indevice_id device
  | Tty_mode ttymode => voice_set_tty_mode ttymode ;; mret tt
  | Parameters output parms => voice_set_parameters output parms ;; mret tt
  | Register_callback f => voice_set_callback f ;; mret tt
  | Loopback_device mode rx tx => voice_set_loopback_device mode rx tx ;; mret tt
  | Ril_dump fd => voice_ril_dump fd
  | Ril_event event => voice_callback event ;; mret tt
  end.

(** The status after an operation, if a connection that is tried is [connected]. *)
Definition next_status (a : voice_api) (connected : bool) (s : call_status_t) : call_status_t :=
  match a, s with
  | Call_mode true, CALL_STATUS_INVALID => if connected then CALL_STATUS_INCALLMODE else CALL_STATUS_INVALID
  | Call_mode true, CALL_STATUS_CONNECTED => CALL_STATUS_INCALLMODE
  | Call_mode false, CALL_STATUS_INCALLMODE => CALL_STATUS_CONNECTED
  | Call_active true, CALL_STATUS_INCALLMODE => CALL_STATUS_ACTIVE
  | Call_active false, CALL_STATUS_ACTIVE => CALL_STATUS_INCALLMODE
  | _, _ => s
  end.

Definition voice_step (w w' : vworld) : Prop := exists a, voice_perform a w = Some (tt, w').
Definition voice_start : vworld := {| voice := None; modem := {| instance := None; rlog := [] |} |}.
Definition voice_reachable (w : vworld) : Prop := rtc voice_step voice_start w.

(** The operations other than those on the status. *)
Definition plain_api (a : voice_api) : bool :=
  match a with Voice_init | Voice_deinit | Call_mode _ | Call_active _ | Volume _ | Ril_event _ => false | _ => true end.

Lemma plain_steady a : plain_api a = true -> steady (voice_perform a).
Proof.
  destruct a; intros Ha; try done; unfold voice_perform;
    try (apply steady_bind; [|intros ?; apply steady_ret]).
  all: first [apply steady_set_path | apply steady_mic_mute | apply steady_parameters | idtac].
  1: unfold voice_set_audio_mode. 2: unfold voice_set_extra_volume. 3: unfold voice_set_rx_mute.
  4: unfold voice_set_usb_mic. 5: unfold voice_set_call_forwarding. 6: unfold voice_set_cur_indevice_id.
  7: unfold voice_set_tty_mode. 8: unfold voice_set_callback. 9: unfold voice_set_loopback_device.
  10: unfold voice_ril_dump; apply steady_client; client_spec.
  all: steady.
Qed.

(** ** Without a voice manager *)

Definition no_voice (w : vworld) : Prop := voice w = None /\ modem_ok (modem w).

Lemma no_voice_vm {A} (k : voice_manager -> V A) : keeps no_voice (vm ≫= k).
Proof. intros w r w' [Ev _]. unfold mbind, ST_bind, vm. by rewrite Ev. Qed.

Lemma no_voice_set f : keeps no_voice (vm_set f).
Proof. intros w r w' [Ev _]. unfold vm_set. by rewrite Ev. Qed.

Lemma no_voice_set_bind {A} f (k : unit -> V A) : keeps no_voice (vm_set f ≫= k).
Proof. intros w r w' [Ev _]. unfold mbind, ST_bind, vm_set. by rewrite Ev. Qed.

Lemma no_voice_if o : keeps no_voice (if_voice o).
Proof. intros w r w' [Ev Hm]. unfold if_voice. rewrite Ev. by intros [= _ <-]. Qed.

Lemma no_voice_pure {A} (a : A) : keeps no_voice (client_op (mret a)).
Proof. intros w r w' [Ev Hm]. unfold client_op. simpl. by intros [= _ <-]. Qed.

Lemma no_voice_keeps a : a <> Voice_init -> keeps no_voice (voice_perform a).
Proof.
  intros Ha. destruct a; try done; unfold voice_perform.
  all: unfold voice_deinit, voice_set_call_mode, voice_set_call_active, voice_set_audio_mode, voice_set_volume,
    voice_set_extra_volume, voice_set_path, voice_set_mic_mute, voice_set_rx_mute, voice_set_usb_mic,
    voice_set_call_forwarding, voice_set_cur_indevice_id, voice_set_tty_mode, voice_set_parameters,
    voice_set_callback, voice_set_loopback_device, voice_ril_dump, voice_callback, parameter_volte, parameter_nrec,
    parameter_sco_wb, parameter_tty, parameter_hac, tty_case, voice_set_volte_status, voice_set_sco_solution,
    voice_set_tty_mode, voice_set_hac_mode, voice_set_path, voice_is_call_mode, voice_is_call_active,
    SecRilRegisterCallback, SecRilDump, ignore.
  all: repeat first
    [ apply no_voice_vm | apply no_voice_set_bind | apply no_voice_set | apply no_voice_if | apply no_voice_pure
    | apply keeps_ret | apply keeps_undefined | apply keeps_if
    | apply keeps_bind; [|intros ?]
    | match goal with |- keeps _ (match ?o with _ => _ end) => destruct o end
    | progress cbv zeta ].
Qed.

(** ** Reachable states *)

Lemma status_inv s w : in_status s w -> voice_inv w.
Proof. right. by exists s. Qed.

(** The callback pointer is never set. *)
Lemma callback_faults event w v : voice w = Some v -> callback v = 0 -> voice_callback event w = None.
Proof.
  intros Ev Ec. assert (E : if_voice (v ← vm; ignore (via (negb (callback v =? 0)) (call_callback event))) w = None).
  { unfold if_voice. rewrite Ev. rewrite (bind_some _ _ _ _ _ (vm_some w v Ev)). by rewrite Ec. }
  unfold voice_callback, mbind at 1, ST_bind at 1. by rewrite E.
Qed.

Lemma voice_perform_keeps a : keeps voice_inv (voice_perform a).
Proof.
  intros w r w' Hw E. assert (a = Voice_init \/ a <> Voice_init) as [->|Ha] by (destruct a; (by left) || by right).
  { eapply (ends_run _ w) in E; [|apply init_spec]; [by apply E|].
    destruct Hw as [[_ ?]|(s & v & _ & _ & _ & _ & [? _])]; done. }
  destruct Hw as [Hn|[s Hs]]; [left; by apply (no_voice_keeps a Ha w r w')|].
  destruct (plain_api a) eqn:Ep.
  { eapply (ends_run _ w) in E; [|by apply (plain_steady a Ep s)]. by apply status_inv with s. }
  destruct a; try done; unfold voice_perform in E.
  - eapply (ends_run _ w) in E; [|apply deinit_spec; by apply status_inv with s]. by left.
  - apply bind_inv in E as (x & w1 & E & [= _ <-]).
    eapply (ends_run _ w) in E; [|by apply call_mode_spec]. eapply status_inv, E.
  - apply bind_inv in E as (x & w1 & E & [= _ <-]).
    eapply (ends_run _ w) in E; [|by apply call_active_spec]. eapply status_inv, E.
  - apply bind_inv in E as (x & w1 & E & [= _ <-]). eapply status_inv, volume_keeps; done.
  - destruct Hs as (v & Ev & _ & Ec & _). apply bind_inv in E as (x & w1 & E & _).
    by rewrite (callback_faults event w v Ev Ec) in E.
Qed.

Lemma voice_reachable_inv w : voice_reachable w -> voice_inv w.
Proof.
  apply (keeps_closure voice_inv voice_step).
  - intros x y Hx [a E]. by apply (voice_perform_keeps a x tt).
  - left. split; [done|]. by split.
Qed.

(** Operations one after the other. *)
Fixpoint voice_run (rs : list voice_api) : V unit :=
  match rs with [] => mret tt | a :: rs => voice_perform a ;; voice_run rs end.

Lemma voice_run_reachable rs w : voice_run rs voice_start = Some (tt, w) -> voice_reachable w.
Proof.
  assert (G : forall rs w0, voice_run rs w0 = Some (tt, w) -> rtc voice_step w0 w).
  { clear rs. induction rs as [|a rs IH]; intros w0; simpl; [intros [= <-]; apply rtc_refl|].
    intros ([] & w1 & E1 & E2)%bind_inv. eapply rtc_l; [by exists a|by apply IH]. }
  apply G.
Qed.
End steady.
