(* ===== verification/VoiceApi.v ===== *)
(** * Voice calls: theorems

    What the audio HAL and the modem may rely on: clients are used while they are
    open, the sound clock follows the call, operations do not fault, a route and a
    volume reach the modem as the device asks.  Also what they may not rely on: the
    settings of a call that is set up again, and the callback. *)

From Stdlib Require Import String.
From S2P Require Import Prelude Effects Ril Float32 RilLife Voice VoiceLife.

(** ** The modem's view of a device *)

(** What a path stands for. *)
Inductive terminal :=
  | Handset (hearing_aid : bool)
  | Speaker
  | Headset
  | Headphone
  | Bluetooth (nrec_off narrow : bool)
  | Lineout.

Section terminals.
Context `{AudioDevices}.

(** What the HAL asks for with a device and the settings of the client. *)
Definition terminal_of (i : rilclient_intf) (device : Z) : terminal :=
  if device =? AUDIO_DEVICE_OUT_EARPIECE then Handset (hac_mode i)
  else if device =? AUDIO_DEVICE_OUT_SPEAKER then Speaker
  else if device =? AUDIO_DEVICE_OUT_WIRED_HEADSET then Headset
  else if device =? AUDIO_DEVICE_OUT_WIRED_HEADPHONE then Headphone
  else if bool_decide (device ∈ [AUDIO_DEVICE_OUT_BLUETOOTH_SCO; AUDIO_DEVICE_OUT_BLUETOOTH_SCO_HEADSET;
                                 AUDIO_DEVICE_OUT_BLUETOOTH_SCO_CARKIT]) then
    Bluetooth (btsco_ec i) (btsco_sr i =? NB_SAMPLING_RATE)
  else if device =? AUDIO_DEVICE_OUT_LINE then Lineout
  else Handset false.

(** The paths of the modem, for a call over the circuit-switched network ([false])
    and over LTE. *)
Definition modem_paths : list (Z * (terminal * bool)) :=
  [(1, (Handset false, false)); (11, (Handset true, false)); (6, (Speaker, false)); (2, (Headset, false));
   (7, (Headphone, false)); (4, (Bluetooth false true, false)); (9, (Bluetooth false false, false));
   (8, (Bluetooth true true, false)); (10, (Bluetooth true false, false)); (12, (Lineout, false));
   (65, (Handset false, true)); (75, (Handset true, true)); (70, (Speaker, true)); (66, (Headset, true));
   (71, (Headphone, true)); (68, (Bluetooth false true, true)); (73, (Bluetooth false false, true));
   (72, (Bluetooth true true, true)); (74, (Bluetooth true false, true)); (76, (Lineout, true))].

Definition modem_reads (path : Z) : option (terminal * bool) :=
  snd <$> List.find (fun p => fst p =? path) modem_paths.

(** The proof of the next theorem, for the others. *)
Lemma path_reads i device :
  modem_reads (map_incall_device i device) = Some (terminal_of i device, negb (volte_status i =? VOLTE_OFF)).
Proof.
  unfold map_incall_device, terminal_of, switch. cbn [List.find existsb fst snd]. rewrite !orb_false_r.
  destruct (device =? AUDIO_DEVICE_OUT_EARPIECE).
  { cbn [snd]. by destruct (volte_status i =? VOLTE_OFF), (hac_mode i). }
  destruct (device =? AUDIO_DEVICE_OUT_SPEAKER); [by destruct (volte_status i =? VOLTE_OFF)|].
  destruct (device =? AUDIO_DEVICE_OUT_WIRED_HEADSET); [by destruct (volte_status i =? VOLTE_OFF)|].
  destruct (device =? AUDIO_DEVICE_OUT_WIRED_HEADPHONE); [by destruct (volte_status i =? VOLTE_OFF)|].
  assert (E : bool_decide (device ∈ [AUDIO_DEVICE_OUT_BLUETOOTH_SCO; AUDIO_DEVICE_OUT_BLUETOOTH_SCO_HEADSET;
      AUDIO_DEVICE_OUT_BLUETOOTH_SCO_CARKIT]) =
    (device =? AUDIO_DEVICE_OUT_BLUETOOTH_SCO) || ((device =? AUDIO_DEVICE_OUT_BLUETOOTH_SCO_HEADSET) ||
      (device =? AUDIO_DEVICE_OUT_BLUETOOTH_SCO_CARKIT))).
  { apply Bool.eq_iff_eq_true. rewrite bool_decide_eq_true, !orb_true_iff, !Z.eqb_eq, !elem_of_cons, elem_of_nil. tauto. }
  rewrite E. destruct (_ || _).
  { cbn [snd]. by destruct (volte_status i =? VOLTE_OFF), (btsco_ec i), (btsco_sr i =? NB_SAMPLING_RATE). }
  by destruct (device =? AUDIO_DEVICE_OUT_LINE), (volte_status i =? VOLTE_OFF).
Qed.

(** The modem can read from the path which terminal was asked for and whether
    the call is over LTE: [map_incall_device] is inverted by the table of paths, for
    every device and every setting; an unknown device is the handset. *)
Theorem path_tells_terminal i device :
  modem_reads (map_incall_device i device) = Some (terminal_of i device, negb (volte_status i =? VOLTE_OFF)).
Proof.
  apply path_reads.
Qed.
End terminals.

Section theorems.
Context `{AudioDevices, RilLibraryLaws, AudioPlatformLaws}.

Lemma ril_legal_call new c r old : ril_all_legal (new ++ (c, r) :: old) -> ril_legal old c.
Proof. induction new as [|[] new IH]; simpl; [by intros []|]. intros []. auto. Qed.

(** C27. Whatever the HAL calls in any order, and whatever the library answers: the
    library is called while it is loaded, with a client that was opened and not
    closed, and it is unloaded only while it is loaded. *)
Theorem modem_clients_open w : voice_reachable w ->
  forall new c r old, rlog (modem w) = new ++ (c, r) :: old -> ril_legal old c.
Proof.
  intros Hw%voice_reachable_inv new c r old E. apply (ril_legal_call new c r). rewrite <- E.
  destruct Hw as [[_ [_ _ HL]]|(s & v & _ & _ & _ & _ & [[_ _ HL] _])]; done.
Qed.

(** C28. The call status is a state machine: an operation moves it along [next_status]
    and no other way.  From [CALL_STATUS_CONNECTED] on there is a connection with an
    open client, whose sound clock, as far as the library has that function, is on
    exactly while the status is [CALL_STATUS_ACTIVE]. *)
Theorem call_status_machine w v : voice_reachable w -> voice w = Some v ->
  (call_status v <> CALL_STATUS_INVALID -> exists i, instance (modem w) = Some i /\
     connected (rlog (modem w)) i /\
     (ril_set_audio_clock i = true ->
        clock (rlog (modem w)) (client i) = bool_decide (call_status v = CALL_STATUS_ACTIVE))) /\
  (forall a w', a <> Voice_init -> a <> Voice_deinit -> voice_perform a w = Some (tt, w') ->
     exists v' b, voice w' = Some v' /\ call_status v' = next_status a b (call_status v)).
Proof.
  intros Hw%voice_reachable_inv Ev.
  destruct Hw as [[E _]|(s & v' & E & Es & Ec & Hst & Hm)]; [by rewrite Ev in E|].
  rewrite Ev in E. injection E as <-.
  split.
  - intros Hs. rewrite Es in *. destruct Hm as [_ Hl]. destruct s; [done|..]; simpl in Hl; destruct Hl as (i & Ei & Hc & Hk); by exists i.
  - intros a w' Hi Hd E. rewrite Es. assert (Hs : in_status s w) by by exists v.
    assert (K : forall b, in_status (next_status a b s) w' ->
      exists v' b, voice w' = Some v' /\ call_status v' = next_status a b s) by (intros b (v' & ? & ? & _); eauto).
    destruct (plain_api a) eqn:Ep.
    { apply (K true). eapply (ends_run _ w) in E; [|by apply (plain_steady a Ep s)]. by destruct a, s. }
    destruct a; try done; unfold voice_perform in E; apply bind_inv in E as (x & w1 & E & [= <-]).
    + eapply (ends_run _ w) in E; [|by apply call_mode_spec]. apply (K (x =? 0)).
      destruct E as [E _]. by destruct s, on.
    + eapply (ends_run _ w) in E; [|by apply call_active_spec]. apply (K true). destruct E as [_ E]. by destruct s, on.
    + apply (K true). replace (next_status _ _ _) with s by by destruct s. by eapply volume_keeps.
    + by rewrite (callback_faults event w v Ev Ec) in E.
Qed.

(** While there is a voice manager no operation faults, with volumes from 0 to
    1; except the handler of the modem's events, which always calls through a null
    pointer, since nothing ever sets the callback. *)
Theorem voice_operations_defined w v a : voice_reachable w -> voice w = Some v ->
  match a with
  | Ril_event _ => voice_perform a w = None
  | Volume x => in_unit x -> exists w', voice_perform a w = Some (tt, w')
  | _ => exists w', voice_perform a w = Some (tt, w')
  end.
Proof.
  intros Hw%voice_reachable_inv Ev.
  destruct (Hw) as [[E _]|(s & Hs)]; [by rewrite Ev in E|].
  assert (P : forall o, (exists Q, ends o w Q) -> exists w', o w = Some (tt, w')) by (intros o (Q & [] & w' & E & _); eauto).
  assert (B : forall A (o : V A), (exists Q, ends o w Q) -> exists w', (o ;; mret tt) w = Some (tt, w')).
  { intros A o (Q & r & w' & E & _). exists w'. by rewrite (bind_some _ _ _ _ _ E). }
  destruct (plain_api a) eqn:Ep.
  { assert (X : exists w', voice_perform a w = Some (tt, w')) by (apply P; eexists; by apply (plain_steady a Ep s)).
    by destruct a. }
  destruct a; try done; unfold voice_perform.
  - apply P. eexists. apply init_spec. destruct Hs as (? & _ & _ & _ & _ & [? _]). done.
  - apply P. eexists. by apply deinit_spec.
  - apply B. eexists. by apply call_mode_spec.
  - apply B. eexists. by apply call_active_spec.
  - intros Hx. apply B. eexists. by apply volume_spec.
  - destruct Hs as (v' & Ev' & _ & Ec & _). unfold mbind, ST_bind. by rewrite (callback_faults event w v').
Qed.

(** C29. [SecRilOpen] ends after at most ten clients.  With 0 there is a connection:
    the library is loaded, the client is open and answered last that it is connected,
    and the settings are the initial ones.  With -1 there is no instance and the
    library is unloaded again. *)
Theorem SecRilOpen_outcome w : modem_ok w ->
  exists r w', SecRilOpen w = Some (r, w') /\
    (attempts (rlog w') <= attempts (rlog w) + 10)%nat /\
    (r = 0 /\ (exists i a l, instance w' = Some i /\ connected (rlog w') i /\ default_settings i /\
       rlog w' = (isConnected_RILD (client i), a) :: l /\ a <> 0) \/
     r = -1 /\ instance w' = None /\ loads (rlog w') = loads (rlog w)).
Proof.
  intros Hw. destruct (SecRilOpen_spec w Hw) as (r & w' & E & _ & A & D). exists r, w'. split; [done|]. split; [done|].
  destruct D as [(-> & (i & Ei & Hc & _) & (j & a & l & Ej & Hd & Hr & Ha))|?]; [left|by right].
  rewrite Ei in Ej. injection Ej as <-. split; [done|]. exists i, a, l. done.
Qed.

(** The two steps of [voice_set_call_mode] that matter for a new connection. *)
Lemma reconnection w v w' : modem_ok (modem w) -> voice w = Some v -> call_status v = CALL_STATUS_INVALID ->
  voice_set_call_mode true w = Some (0, w') ->
  exists i, voice w' = Some (v <| call_status := CALL_STATUS_INCALLMODE |>) /\
    instance (modem w') = Some i /\ default_settings i.
Proof.
  intros Hm Ev Es E. unfold voice_set_call_mode in E. rewrite (bind_some _ _ _ _ _ (vm_some w v Ev)), Es in E.
  cbn [bool_decide decide_rel andb] in E.
  destruct (SecRilOpen_spec (modem w) Hm) as (r & m & Eo & _ & _ & D).
  set (w1 := w <| modem := m |>) in *.
  assert (E1 : client_op SecRilOpen w = Some (r, w1)) by (unfold client_op; by rewrite Eo).
  set (s := if r =? 0 then CALL_STATUS_CONNECTED else CALL_STATUS_INVALID).
  set (v1 := v <| call_status := s |>). set (w2 := w1 <| voice := Some v1 |>).
  assert (E2 : (client_op SecRilOpen ≫= fun ret =>
      vm_set (fun v => v <| call_status := if ret =? 0 then CALL_STATUS_CONNECTED else CALL_STATUS_INVALID |>) ;;
      mret ret) w = Some (r, w2)).
  { rewrite (bind_some _ _ _ _ _ E1). unfold mbind, ST_bind, vm_set. simpl. by rewrite Ev. }
  rewrite (bind_some _ _ _ _ _ E2) in E. assert (Ev2 : voice w2 = Some v1) by done.
  rewrite (bind_some _ _ _ _ _ (vm_some w2 v1 Ev2)) in E.
  destruct D as [(-> & _ & (i & a & l & Ei & Hd & _))|(-> & _)].
  - exists i. simpl in E. injection E as <-. done.
  - by simpl in E.
Qed.

(** A connection that is set up again at the start of a call begins with the
    initial settings of the client, while the voice manager keeps its own: after a
    VoLTE status, a hearing aid or a Bluetooth mode that was set before, the route
    of the call is the one of a call without. *)
Theorem reconnection_loses_settings w v w' device :
  voice_reachable w -> voice w = Some v -> call_status v = CALL_STATUS_INVALID ->
  voice_set_call_mode true w = Some (0, w') ->
  exists v' i, voice w' = Some v' /\ instance (modem w') = Some i /\
    vm_volte_status v' = vm_volte_status v /\ vm_hac_mode v' = vm_hac_mode v /\
    bluetooth_nrec v' = bluetooth_nrec v /\ bluetooth_samplerate v' = bluetooth_samplerate v /\
    snd <$> modem_reads (map_incall_device i device) = Some false /\
    terminal_of i device <> Handset true /\ terminal_of i device <> Bluetooth true true /\
    terminal_of i device <> Bluetooth true false /\ terminal_of i device <> Bluetooth false false.
Proof.
  intros Hw%voice_reachable_inv Ev Es E.
  assert (Hm : modem_ok (modem w)) by (destruct Hw as [[_ ?]|(s & x & _ & _ & _ & _ & [? _])]; done).
  destruct (reconnection w v w' Hm Ev Es E) as (i & Ev' & Ei & D1 & D2 & D3 & D4 & _).
  exists (v <| call_status := CALL_STATUS_INCALLMODE |>), i. do 6 (split; [done|]).
  rewrite path_reads. unfold terminal_of. rewrite D1, D2, D3, D4. simpl. split; [done|].
  repeat case_match; done.
Qed.

(** C30. In an active call [voice_set_path] and [voice_set_volume] send the modem two
    calls and no other: the path of the device, and a volume step from 0 to the
    maximum, for the sound type that belongs to that path.  Over LTE the sound type is
    the one of the handset whatever the device. *)
Theorem route_and_volume w v i device x :
  voice_reachable w -> voice w = Some v -> call_status v = CALL_STATUS_ACTIVE ->
  instance (modem w) = Some i -> ril_set_audio_path i = true -> ril_set_audio_volume i = true -> in_unit x ->
  let path := map_incall_device i device in
  let sound := map_sound_from_device path in
  exists w1 w2 step a b, voice_set_path device w = Some (0, w1) /\ voice_set_volume x w1 = Some (0, w2) /\
    rlog (modem w2) = (call_SetCallVolume (client i) sound step, b) ::
                      (call_SetCallAudioPath (client i) path ORIGINAL_PATH, a) :: rlog (modem w) /\
    0 <= step <= volume_steps_max v /\ client i ∈ clients (rlog (modem w)) /\
    (volte_status i <> VOLTE_OFF -> sound = SOUND_TYPE_VOICE).
Proof.
  intros Hw%voice_reachable_inv Ev Es Ei Sp Sv Hx path sound.
  destruct Hw as [[E _]|(s & v' & E & Es' & _ & Hst & [_ Hl])]; [by rewrite Ev in E|].
  rewrite Ev in E. injection E as <-. rewrite Es in Es'. subst s. destruct Hl as (j & Ej & (_ & _ & Hc) & _).
  rewrite Ei in Ej. injection Ej as <-.
  assert (Nz : client i <> 0) by (intros E0; rewrite E0 in Hc; by apply zero_not_client in Hc).
  destruct (volume_steps_bounds x (volume_steps_max v) Hx Hst) as (step & Est & Hstep).
  set (i1 := i <| sound_type := sound |>).
  set (m1 := logged ((modem w) <| instance := Some i1 |>) (call_SetCallAudioPath (client i) path ORIGINAL_PATH)).
  set (m2 := logged m1 (call_SetCallVolume (client i) sound step)).
  exists {| voice := Some (v <| out_device := device |>); modem := m1 |},
    {| voice := Some (v <| out_device := device |>); modem := m2 |}, step,
    (ril_answer (rlog (modem w)) (call_SetCallAudioPath (client i) path ORIGINAL_PATH)),
    (ril_answer (rlog m1) (call_SetCallVolume (client i) sound step)).
  assert (R1 : SecRilSetVoicePath AUDIO_MODE_IN_CALL device (modem w) = Some (ril_answer (rlog (modem w)) (call_SetCallAudioPath (client i) path ORIGINAL_PATH), m1)).
  { unfold SecRilSetVoicePath. rewrite (bind_some _ _ _ _ _ (getInstance_some _ i Ei)).
    rewrite (bind_some _ _ _ _ _ (rilc_some _ i Ei)), (bind_some _ _ _ _ _ (rilc_set_some _ _ i Ei)).
    fold path. fold sound. by rewrite Sp, (proj2 (Z.eqb_neq _ _) Nz). }
  assert (R2 : SecRilSetVoiceVolume device step m1 = Some (0, m2)).
  { unfold SecRilSetVoiceVolume. assert (I1 : instance m1 = Some i1) by done.
    rewrite (bind_some _ _ _ _ _ (getInstance_some _ i1 I1)).
    assert (K : (i ← rilc; if ril_set_audio_volume i && negb (client i =? 0) then
        ril (call_SetCallVolume (client i) (sound_type i) step) ;; mret tt else mret tt) m1 = Some (tt, m2)).
    { rewrite (bind_some _ _ _ _ _ (rilc_some _ i1 I1)). simpl. by rewrite Sv, (proj2 (Z.eqb_neq _ _) Nz). }
    by rewrite (bind_some _ _ _ _ _ K). }
  split; [|split; [|split; [done|split; [done|split; [done|]]]]].
  - assert (Cm : voice_is_call_mode w = Some (true, w)).
    { unfold voice_is_call_mode. rewrite (bind_some _ _ _ _ _ (vm_some w v Ev)). by rewrite Es. }
    unfold voice_set_path. rewrite (bind_some _ _ _ _ _ Cm), (bind_some _ _ _ _ _ (vm_set_some _ w v Ev)).
    set (w1 := w <| voice := _ |>). assert (R1' : SecRilSetVoicePath AUDIO_MODE_IN_CALL device (modem w1) = Some (_, m1)) by exact R1.
    by rewrite (bind_some _ _ _ _ _ (ignore_some _ w1 _ _ R1')).
  - set (w1 := {| voice := _; modem := m1 |}). assert (E1 : voice w1 = Some (v <| out_device := device |>)) by done.
    unfold voice_set_volume. rewrite (bind_some _ _ _ _ _ (vm_some w1 _ E1)).
    rewrite (bool_decide_eq_true_2 (call_status (v <| out_device := device |>) = CALL_STATUS_ACTIVE)) by exact Es.
    assert (V1 : volume_index x (volume_steps_max (v <| out_device := device |>)) w1 = Some (step, w1))
      by (unfold volume_index; simpl volume_steps_max; by rewrite Est).
    rewrite (bind_some _ _ _ _ _ V1).
    by rewrite (bind_some _ _ _ _ _ (ignore_some _ w1 _ _ R2)).
  - intros Hv. unfold sound, path. pose proof (path_reads i device) as P.
    rewrite (proj2 (Z.eqb_neq _ _) Hv) in P. unfold map_sound_from_device.
    destruct (Z.eqb_spec (map_incall_device i device) SOUND_AUDIO_PATH_SPEAKRERPHONE) as [E|_]; [by rewrite E in P|].
    by destruct (Z.eqb_spec (map_incall_device i device) SOUND_AUDIO_PATH_HEADSET) as [E|_]; [rewrite E in P|].
Qed.
End theorems.

(** ** Instances: a modem that answers after some attempts *)

#[local] Instance aosp_devices : AudioDevices := {|
  AUDIO_MODE_IN_CALL := 2; AUDIO_DEVICE_NONE := 0;
  AUDIO_DEVICE_OUT_EARPIECE := 0x1; AUDIO_DEVICE_OUT_SPEAKER := 0x2; AUDIO_DEVICE_OUT_WIRED_HEADSET := 0x4;
  AUDIO_DEVICE_OUT_WIRED_HEADPHONE := 0x8; AUDIO_DEVICE_OUT_BLUETOOTH_SCO := 0x10;
  AUDIO_DEVICE_OUT_BLUETOOTH_SCO_HEADSET := 0x20; AUDIO_DEVICE_OUT_BLUETOOTH_SCO_CARKIT := 0x40;
  AUDIO_DEVICE_OUT_LINE := 0x20000; AUDIO_DEVICE_OUT_ALL_SCO := 0x70 |}.

#[local] Instance aosp_parameters : AudioPlatform := {|
  str_parms := list (string * string);
  str_parms_get_str p k := (fun x => String.substring 0 39 (snd x)) <$> List.find (fun x => String.eqb (fst x) k) p;
  str_parms_del p k := List.filter (fun x => negb (String.eqb (fst x) k)) p;
  AUDIO_PARAMETER_KEY_BT_NREC := "bt_headset_nrec"; AUDIO_PARAMETER_KEY_BT_SCO_WB := "bt_wbs";
  AUDIO_PARAMETER_KEY_TTY_MODE := "tty_mode"; AUDIO_PARAMETER_KEY_HAC := "HACSetting";
  AUDIO_PARAMETER_VALUE_ON := "on"; AUDIO_PARAMETER_VALUE_OFF := "off";
  AUDIO_PARAMETER_VALUE_TTY_OFF := "tty_off"; AUDIO_PARAMETER_VALUE_TTY_VCO := "tty_vco";
  AUDIO_PARAMETER_VALUE_TTY_HCO := "tty_hco"; AUDIO_PARAMETER_VALUE_TTY_FULL := "tty_full";
  AUDIO_PARAMETER_VALUE_HAC_ON := "ON"; AUDIO_PARAMETER_VALUE_HAC_OFF := "OFF";
  atoi_vol_steps := 15 |}.

#[local] Instance aosp_parameters_laws : AudioPlatformLaws.
Proof. split. simpl. lia. Qed.

(** The first [n] attempts fail; clients are numbered. *)
Definition radio (n : nat) : RilLibrary := {|
  dlsym _ := true;
  ril_answer l c :=
    match c with
    | calloc | dlopen | isConnected_RILD _ => 1
    | OpenClient_RILD => if (attempts l <? n)%nat then 0 else Z.of_nat (Datatypes.S (attempts l))
    | _ => 0
    end |}.

#[local] Instance radio_laws n : @RilLibraryLaws (radio n).
Proof. split. done. Qed.

Definition after_calls (n : nat) (rs : list voice_api) : vworld :=
  match @voice_run _ (radio n) _ rs voice_start with Some (_, w) => w | None => voice_start end.
Definition calls_defined (n : nat) (rs : list voice_api) : bool :=
  match @voice_run _ (radio n) _ rs voice_start with Some _ => true | None => false end.

Lemma after_calls_reachable n rs : calls_defined n rs = true -> @voice_reachable _ (radio n) _ (after_calls n rs).
Proof.
  unfold calls_defined, after_calls. destruct (voice_run rs voice_start) as [[[] w]|] eqn:E; [|done].
  intros _. by apply (voice_run_reachable rs).
Qed.

(** Half of the volume, and all of it. *)
Definition half : float := SpecFloat.S754_finite false 8388608 (-24).
Definition full : float := SpecFloat.S754_finite false 8388608 (-23).
Lemma full_in_unit : in_unit full.
Proof. simpl. apply (at_most_one _ _ _ 23); lia. Qed.

Definition a_call : list voice_api :=
  [Voice_init; Call_mode true; Path 0x2; Call_active true; Volume full; Mic_mute true; Call_active false;
   Call_mode false; Voice_deinit].

Lemma modem_clients_open_witness : length (rlog (modem (after_calls 2 a_call))) = 17%nat /\
  forall new c r old, rlog (modem (after_calls 2 a_call)) = new ++ (c, r) :: old -> ril_legal old c.
Proof.
  split; [vm_compute; reflexivity|].
  apply (@modem_clients_open _ (radio 2) _ _ _ (after_calls 2 a_call)).
  apply after_calls_reachable. vm_compute. reflexivity.
Defined.

(** The state in a call, and the state with LTE chosen before the first call. *)
Definition in_call : vworld :=
  Eval vm_compute in after_calls 0 [Voice_init; Call_mode true; Call_active true].
Definition volte_before_call : vworld :=
  Eval vm_compute in after_calls 10 [Voice_init; @Parameters aosp_parameters None [("VoLTEstate", "voice")]%string].

Lemma in_call_reachable : @voice_reachable _ (radio 0) _ in_call.
Proof.
  apply (@voice_run_reachable _ (radio 0) _ [Voice_init; Call_mode true; Call_active true]).
  vm_compute. reflexivity.
Qed.

Lemma volte_before_call_reachable : @voice_reachable _ (radio 10) _ volte_before_call.
Proof.
  apply (@voice_run_reachable _ (radio 10) _ [Voice_init; @Parameters aosp_parameters None [("VoLTEstate", "voice")]%string]).
  vm_compute. reflexivity.
Qed.

Definition voice_of (w : vworld) : voice_manager := default (initial_voice CALL_STATUS_INVALID) (voice w).
Definition client_of (w : vworld) : rilclient_intf := default zero_intf (instance (modem w)).

Lemma call_status_machine_witness : exists i, instance (modem in_call) = Some i /\
  clock (rlog (modem in_call)) (client i) = true.
Proof.
  destruct (@call_status_machine _ (radio 0) _ _ _ in_call (voice_of in_call)) as [K _].
  - exact in_call_reachable.
  - reflexivity.
  - destruct K as (i & Ei & _ & Hk); [discriminate|].
    exists i. split; [exact Ei|]. injection Ei as <-. apply Hk. reflexivity.
Defined.

Lemma voice_operations_defined_witness : exists w', @voice_perform _ (radio 0) _ (Volume full) in_call = Some (tt, w').
Proof.
  apply (@voice_operations_defined _ (radio 0) _ _ _ in_call (voice_of in_call) (Volume full)).
  - exact in_call_reachable.
  - reflexivity.
  - exact full_in_unit.
Defined.

Lemma SecRilOpen_outcome_witness : exists r w', @SecRilOpen (radio 20) (modem voice_start) = Some (r, w') /\
  (attempts (rlog w') <= 10)%nat.
Proof.
  destruct (@SecRilOpen_outcome (radio 20) _ (modem voice_start)) as (r & w' & E & A & _).
  - by split.
  - exists r, w'. split; [exact E|exact A].
Defined.

Lemma reconnection_loses_settings_witness : exists w' v' i,
  @voice_set_call_mode (radio 10) true volte_before_call = Some (0, w') /\
  voice w' = Some v' /\ instance (modem w') = Some i /\ vm_volte_status v' = VOLTE_VOICE /\
  snd <$> modem_reads (map_incall_device i 0x2) = Some false.
Proof.
  assert (E : exists w', @voice_set_call_mode (radio 10) true volte_before_call = Some (0, w'))
    by (eexists; vm_compute; reflexivity).
  destruct E as [w' E].
  destruct (@reconnection_loses_settings _ (radio 10) _ _ _ volte_before_call (voice_of volte_before_call) w' 0x2)
    as (v' & i & Ev' & Ei & Hv & _ & _ & _ & Hp & _).
  - exact volte_before_call_reachable.
  - reflexivity.
  - reflexivity.
  - exact E.
  - exists w', v', i. split; [exact E|]. split; [exact Ev'|]. split; [exact Ei|]. split; [exact Hv|exact Hp].
Defined.

Lemma route_and_volume_witness : exists w1 w2 step,
  @voice_set_path _ (radio 0) 0x2 in_call = Some (0, w1) /\
  @voice_set_volume (radio 0) full w1 = Some (0, w2) /\ 0 <= step <= 15 /\
  fst <$> head (rlog (modem w2)) = Some (call_SetCallVolume 1 SOUND_TYPE_SPEAKER step).
Proof.
  destruct (@route_and_volume _ (radio 0) _ _ _ in_call (voice_of in_call) (client_of in_call) 0x2 full)
    as (w1 & w2 & step & a & b & E1 & E2 & Er & Hs & _).
  - exact in_call_reachable.
  - reflexivity.
  - reflexivity.
  - reflexivity.
  - reflexivity.
  - reflexivity.
  - exact full_in_unit.
  - exists w1, w2, step. split; [exact E1|]. split; [exact E2|]. split; [exact Hs|]. rewrite Er. reflexivity.
Defined.
