(* ===== verification/ThreadRules.v ===== *)
(** * Reasoning about all interleavings

    A discipline of locking that excludes deadlock; invariants of the shared state,
    with what a thread knows while it holds a mutex; and programs that run without
    interference. *)

From S2P Require Import Prelude Effects Threads.

Section rules.
Context {S mutex : Type} `{Countable mutex} `{!Service S mutex}.

Abbreviation held := (mutex -> bool).
Definition none_held : held := fun _ => false.
Definition holds (h : held) (m : mutex) (b : bool) : held := fun m' => if decide (m' = m) then b else h m'.

(** The mutexes that the thread [t] owns. *)
Definition owned (c : config S mutex) (t : nat) : held := fun m => bool_decide (owner c !! m = Some t).

Lemma advance_owner {A} (c c' : config S mutex) t (p p' : prog S mutex A) t' : advance c t p = Some (p', c') ->
  t' <> t -> forall m, owned c' t' m = owned c t' m.
Proof.
  intros E Ht m. unfold owned. apply bool_decide_ext. destruct p; simpl in E; repeat case_match; simplify_eq; simpl; try done.
  - destruct (decide (m = m0)) as [->|]; [|by rewrite lookup_insert_ne]. rewrite lookup_insert_eq. split; congruence.
  - destruct (decide (m = m0)) as [->|]; [|by rewrite lookup_insert_ne]. rewrite lookup_insert_eq. split; congruence.
  - destruct (decide (m = m0)) as [->|]; [|by rewrite lookup_delete_ne]. rewrite lookup_delete_eq. split; congruence.
Qed.

(** A step of another thread changes no thread but its own, except that it may create
    a new one. *)
Lemma advance_threads {A} (c c' : config S mutex) t (p p' : prog S mutex A) : advance c t p = Some (p', c') ->
  threads c' = threads c \/
  exists n, threads c !! n = None /\ threads c' = <[n := Worker prologue]> (threads c).
Proof.
  intros E. destruct p; simpl in E; repeat case_match; simplify_eq; simpl; try (by left).
  right. eexists. split; [|done]. apply not_elem_of_dom. apply is_fresh.
Qed.

Lemma advance_known {A} (c c' : config S mutex) t (p p' : prog S mutex A) : advance c t p = Some (p', c') ->
  forall m t', owner c' !! m = Some t' -> t' = t \/ owner c !! m = Some t'.
Proof.
  intros E m t' Ho. destruct p; simpl in E; repeat case_match; simplify_eq; simpl in *; try by right.
  - apply lookup_insert_Some in Ho as [[_ <-]|[_ ?]]; [by left|by right].
  - apply lookup_insert_Some in Ho as [[_ <-]|[_ ?]]; [by left|by right].
  - apply lookup_delete_Some in Ho as [_ ?]. by right.
Qed.

(** ** A discipline of locking *)

Section order.
Context (rank : mutex -> nat).

(** [ordered joins h p h']: with the mutexes [h] held, [p] locks only mutexes of a
    higher rank than those it holds, joins a thread only if [joins] and without
    any, and ends with [h']. *)
Fixpoint ordered {A} (joins : bool) (h : held) (p : prog S mutex A) (h' : held) : Prop :=
  match p with
  | Ret _ => forall m, h m = h' m
  | Act o k => forall x, ordered joins h (k x) h'
  | Lock m k => (forall m', h m' = true -> (rank m' < rank m)%nat) /\ ordered joins (holds h m true) k h'
  | Try_lock m k => h m = false /\ ordered joins (holds h m true) (k true) h' /\ ordered joins h (k false) h'
  | Unlock m k => h m = true /\ ordered joins (holds h m false) k h'
  | Create k => forall n, ordered joins h (k n) h'
  | Join n k => joins = true /\ (forall m, h m = false) /\ ordered joins h k h'
  end.

Lemma ordered_ext {A} joins h1 h2 (p : prog S mutex A) h' : (forall m, h1 m = h2 m) ->
  ordered joins h1 p h' -> ordered joins h2 p h'.
Proof.
  revert h1 h2. induction p as [a|X o k IH|m k IH|m k IH|m k IH|k IH|n k IH]; intros h1 h2 E; simpl.
  - intros K m. by rewrite <- E.
  - intros K x. by apply (IH x h1).
  - intros [K1 K2]. split; [intros m'; rewrite <- E; apply K1|]. apply (IH (holds h1 m true)); [|done].
    intros m'. unfold holds. by destruct (decide _).
  - intros (K1 & K2 & K3). split; [by rewrite <- E|]. split; [|by apply (IH false h1)].
    apply (IH true (holds h1 m true)); [|done]. intros m'. unfold holds. by destruct (decide _).
  - intros [K1 K2]. split; [by rewrite <- E|]. apply (IH (holds h1 m false)); [|done].
    intros m'. unfold holds. by destruct (decide _).
  - intros K n. by apply (IH n h1).
  - intros (K1 & K2 & K3). split; [done|]. split; [intros m; by rewrite <- E|]. by apply (IH h1).
Qed.

Lemma ordered_bind {A B} joins h (p : prog S mutex A) (f : A -> prog S mutex B) h1 h' :
  ordered joins h p h1 -> (forall a, ordered joins h1 (f a) h') -> ordered joins h (p ≫= f) h'.
Proof.
  unfold mbind, prog_mbind.
  revert h. induction p as [a|X o k IH|m k IH|m k IH|m k IH|k IH|n k IH]; intros h; simpl.
  - intros E K. apply (ordered_ext joins h1); [by intros m; rewrite E|]. apply K.
  - intros E K x. by apply IH.
  - intros [E1 E2] K. split; [done|]. by apply IH.
  - intros (E1 & E2 & E3) K. split; [done|]. split; by apply IH.
  - intros [E1 E2] K. split; [done|]. by apply IH.
  - intros E K n. by apply IH.
  - intros (E1 & E2 & E3) K. split; [done|]. split; [done|]. by apply IH.
Qed.

Lemma ordered_ret {A} joins h (a : A) : ordered joins h (mret a) h.
Proof. done. Qed.

Lemma ordered_act {A} joins h (o : ST S A) : ordered joins h (act o) h.
Proof. done. Qed.

Lemma ordered_if {A} joins h (b : bool) (p q : prog S mutex A) h' :
  ordered joins h p h' -> ordered joins h q h' -> ordered joins h (if b then p else q) h'.
Proof. by destruct b. Qed.

Definition thread_ordered (h : held) (th : thread S mutex) : Prop :=
  match th with
  | Idle | Ended => forall m, h m = false
  | Client p => ordered true h p none_held
  | Worker p => ordered false h p none_held
  end.

Definition disciplined (c : config S mutex) : Prop :=
  (forall t th, threads c !! t = Some th -> thread_ordered (owned c t) th) /\
  (forall m t, owner c !! m = Some t -> exists th, threads c !! t = Some th).

Context (Hprologue : ordered false none_held prologue none_held).
Context (Hiteration : forall l, ordered false none_held (iteration l) none_held).

Lemma advance_ordered {A} joins (c c' : config S mutex) t (p p' : prog S mutex A) :
  advance c t p = Some (p', c') -> ordered joins (owned c t) p none_held -> ordered joins (owned c' t) p' none_held.
Proof.
  intros E K. destruct p; simpl in *; repeat case_match; simplify_eq; try done.
  - destruct K as [_ K]. eapply ordered_ext, K. intros m'. unfold holds, owned. simpl.
    destruct (decide (m' = m)) as [->|]; [by rewrite lookup_insert_eq, bool_decide_eq_true_2|by rewrite lookup_insert_ne].
  - by destruct K as (_ & _ & K).
  - destruct K as (_ & K & _). eapply ordered_ext, K. intros m'. unfold holds, owned. simpl.
    destruct (decide (m' = m)) as [->|]; [by rewrite lookup_insert_eq, bool_decide_eq_true_2|by rewrite lookup_insert_ne].
  - destruct K as [_ K]. eapply ordered_ext, K. intros m'. unfold holds, owned. simpl.
    destruct (decide (m' = m)) as [->|]; [|by rewrite lookup_delete_ne]. rewrite lookup_delete_eq. by rewrite bool_decide_eq_false_2.
  - by destruct K as (_ & _ & K).
Qed.

(** A new thread owns nothing. *)
Lemma unknown_owns_nothing (c : config S mutex) t : disciplined c -> threads c !! t = None -> forall m, owned c t m = false.
Proof.
  intros [_ D] Ht m. apply bool_decide_eq_false_2. intros (th & E)%D. by rewrite E in Ht.
Qed.

Lemma thread_ordered_ext h1 h2 th : (forall m, h1 m = h2 m) -> thread_ordered h1 th -> thread_ordered h2 th.
Proof.
  intros E. destruct th; simpl; [intros K m; by rewrite <- E|by apply ordered_ext|by apply ordered_ext|intros K m; by rewrite <- E].
Qed.

(** The common part of the steps of a client and of a worker. *)
Lemma disciplined_advance {A} (c c' : config S mutex) t (p p' : prog S mutex A) th :
  disciplined c -> threads c !! t <> None -> advance c t p = Some (p', c') -> thread_ordered (owned c' t) th ->
  disciplined (set_thread t th c').
Proof.
  intros D Ht E Hth. assert (Known := advance_known c c' t p p' E). assert (Others := advance_owner c c' t p p').
  assert (T := advance_threads c c' t p p' E). destruct D as [D1 D2].
  assert (K : forall t' th', t' <> t -> threads c' !! t' = Some th' -> thread_ordered (owned c' t') th').
  { intros t' th' Hne Et'. apply (thread_ordered_ext (owned c t')); [intros m; by rewrite (Others t' E Hne)|].
    destruct T as [ET|(n & Hn & ET)]; rewrite ET in Et'; [by apply D1|].
    apply lookup_insert_Some in Et' as [[<- <-]|[_ ?]]; [|by apply D1].
    apply (ordered_ext false none_held); [|done].
    intros m. symmetry. by apply unknown_owns_nothing. }
  split.
  - intros t' th' Et'. unfold set_thread in Et'. simpl in Et'.
    apply lookup_insert_Some in Et' as [[<- <-]|[Hne Et']]; [done|]. apply K; [congruence|done].
  - intros m t' Ho. unfold set_thread in *. simpl in *.
    destruct (decide (t' = t)) as [->|Hne]; [exists th; by rewrite lookup_insert_eq|].
    rewrite lookup_insert_ne by congruence. destruct (Known m t' Ho) as [?|Hc]; [done|].
    destruct (D2 m t' Hc) as [th' Et']. destruct T as [ET|(n & Hn & ET)]; rewrite ET; [by exists th'|].
    rewrite lookup_insert_ne by congruence. by exists th'.
Qed.

Lemma disciplined_set (c : config S mutex) t th : disciplined c -> thread_ordered (owned c t) th ->
  disciplined (set_thread t th c).
Proof.
  intros [D1 D2] Hth. split; unfold set_thread; simpl.
  - intros t' th' Et'. apply lookup_insert_Some in Et' as [[<- <-]|[Hne Et']]; [done|]. by apply D1.
  - intros m t' Ho. destruct (decide (t' = t)) as [->|Hne]; [exists th; by rewrite lookup_insert_eq|].
    rewrite lookup_insert_ne by congruence. by apply (D2 m).
Qed.

Lemma disciplined_step allowed c c' : (forall t a, allowed t a -> ordered true none_held (perform a) none_held) ->
  disciplined c -> thread_step_with allowed c c' -> disciplined c'.
Proof.
  intros Hp D (t & call & Hcall & E). unfold move in E.
  assert (Free : forall m, threads c !! t = None \/ threads c !! t = Some Idle -> owned c t m = false).
  { intros m [Et|Et]; [by apply unknown_owns_nothing|]. by apply (proj1 D t Idle). }
  assert (Start : forall a, threads c !! t = None \/ threads c !! t = Some Idle -> allowed t a ->
    disciplined (set_thread t (Client (perform a)) c)).
  { intros a Et Ha. apply disciplined_set; [done|]. simpl. apply (ordered_ext true none_held); [|by apply (Hp t)].
    intros m. by rewrite Free. }
  destruct (threads c !! t) as [[|p|p|]|] eqn:Et; [..|done|].
  - destruct call as [a|]; [|done]. injection E as <-. apply Start; [by right|by apply Hcall].
  - assert (O := proj1 D t _ Et). simpl in O.
    destruct p as [r| | | | | | ]; [injection E as <-; apply disciplined_set; [done|exact O]|..];
      (destruct (advance c t _) as [[p' c1]|] eqn:Ea in E; [|done]); injection E as <-;
      (eapply (disciplined_advance c c1); [done|congruence|exact Ea|]); exact (advance_ordered _ _ _ _ _ _ Ea O).
  - assert (O := proj1 D t _ Et). simpl in O.
    destruct p as [[l|r]| | | | | | ].
    1: injection E as <-; apply disciplined_set; [done|]; simpl; apply (ordered_ext false none_held); [|done]; intros m; by rewrite O.
    1: injection E as <-; apply disciplined_set; [done|]; exact O.
    all: (destruct (advance c t _) as [[p' c1]|] eqn:Ea in E; [|done]); injection E as <-;
      (eapply (disciplined_advance c c1); [done|congruence|exact Ea|]); exact (advance_ordered _ _ _ _ _ _ Ea O).
  - destruct call as [a|]; [|done]. injection E as <-. apply Start; [by left|by apply Hcall].
Qed.

(** ** Waiting ends *)

Context (max_rank : nat) (Hmax : forall m, (rank m < max_rank)%nat).

Definition wait_rank (c : config S mutex) (t : nat) : nat :=
  match threads c !! t with
  | Some (Client (Lock m _)) => Datatypes.S (rank m)
  | Some (Worker (Lock m _)) => Datatypes.S (rank m)
  | _ => 0
  end.

Lemma wait_rank_max c t : (wait_rank c t <= max_rank)%nat.
Proof. unfold wait_rank. pose proof Hmax. repeat case_match; try lia; apply Hmax. Qed.

Lemma owner_unfinished c m t : disciplined c -> owner c !! m = Some t -> unfinished c t.
Proof.
  intros [D1 D2] Ho. destruct (D2 m t Ho) as [th Et]. assert (O := D1 t th Et). unfold unfinished. rewrite Et.
  assert (owned c t m = true) by by apply bool_decide_eq_true_2.
  destruct th; try done; simpl in O; by rewrite O in *.
Qed.

Lemma wants_unfinished {A} c (p : prog S mutex A) t : disciplined c -> wants c p = Some t -> unfinished c t.
Proof.
  intros D E. destruct p; try done; simpl in E; [by eapply owner_unfinished|].
  unfold unfinished. destruct (threads c !! t0) as [[]|] eqn:Et; try done. injection E as <-. by rewrite Et.
Qed.

Lemma waits_unfinished c t t' : disciplined c -> waits_for c t t' -> unfinished c t'.
Proof. intros D E. unfold waits_for, waiting in E. repeat case_match; try done; by eapply wants_unfinished. Qed.

(** A thread that waits and owns a mutex waits for one of a higher rank; so does a
    worker that waits. *)
Lemma ordered_wait {A} joins c t t' (p : prog S mutex A) : ordered joins (owned c t) p none_held ->
  wants c p = Some t' -> joins = false \/ (exists m, owned c t m = true) ->
  exists m' k, p = Lock m' k /\ forall m, owned c t m = true -> (rank m < rank m')%nat.
Proof.
  intros O E Hj. destruct p; try done; simpl in *.
  - exists m, p. split; [done|]. apply O.
  - destruct O as (-> & O & _). destruct Hj as [?|[m K]]; [done|]. by rewrite O in K.
Qed.

Lemma wait_rank_lt c t t' t'' : disciplined c -> waits_for c t t' -> waits_for c t' t'' -> (wait_rank c t < wait_rank c t')%nat.
Proof.
  intros D E E'. assert (D1 := proj1 D).
  assert (K : forall m, owner c !! m = Some t' -> (Datatypes.S (rank m) < wait_rank c t')%nat).
  { intros m Ho. assert (Hm : owned c t' m = true) by by apply bool_decide_eq_true_2.
    unfold waits_for, waiting in E'. unfold wait_rank. destruct (threads c !! t') as [[|p|p|]|] eqn:Et; try done;
      destruct (ordered_wait _ _ _ _ _ (D1 t' _ Et) E') as (m' & k & -> & R); try (right; by exists m);
      specialize (R m Hm); lia. }
  assert (J : forall p, threads c !! t' = Some (Worker p) -> (0 < wait_rank c t')%nat).
  { intros p Et. unfold waits_for, waiting in E'. unfold wait_rank. rewrite Et in *.
    destruct (ordered_wait _ _ _ _ _ (D1 t' _ Et) E') as (m' & k & -> & R); [by left|lia]. }
  unfold waits_for, waiting in E. unfold wait_rank at 1.
  assert (W : forall A (p : prog S mutex A), wants c p = Some t' ->
    (match p with Lock m _ => Datatypes.S (rank m) | _ => 0 end < wait_rank c t')%nat).
  { intros A p Ew. destruct p; try done; simpl in Ew; [by apply K|].
    destruct (threads c !! t0) as [[| |p'|]|] eqn:Et; try done. injection Ew as ->. by eapply J. }
  destruct (threads c !! t) as [[|p|p|]|]; try done; apply W in E; by destruct p.
Qed.

(** Who waits, waits in the end for a thread that does not. *)
Theorem waiting_ends c t t' : disciplined c -> waits_for c t t' ->
  exists t'', rtc (waits_for c) t' t'' /\ unfinished c t'' /\ waiting c t'' = None.
Proof.
  intros D. remember (max_rank - wait_rank c t)%nat as n eqn:En. revert t t' En.
  induction (lt_wf n) as [n _ IH]; intros t t' -> E.
  destruct (waiting c t') as [t2|] eqn:E2; [|exists t'; split; [done|]; split; [by eapply waits_unfinished|done]].
  pose proof (wait_rank_lt c t t' t2 D E E2). pose proof (wait_rank_max c t').
  destruct (IH (max_rank - wait_rank c t')%nat ltac:(lia) t' t2 eq_refl E2) as (t3 & R & K).
  exists t3. split; [by econstructor|done].
Qed.
End order.

(** ** Deadlock *)

Definition deadlocked (c : config S mutex) (D : list nat) : Prop :=
  forall t, t ∈ D -> exists t', t' ∈ D /\ waits_for c t t'.

Lemma wants_stuck {A} (c : config S mutex) t (p : prog S mutex A) t' : wants c p = Some t' -> advance c t p = None.
Proof.
  destruct p; try done; simpl; intros E.
  - by rewrite E.
  - by destruct (threads c !! t0) as [[]|].
Qed.

Lemma waits_stuck (c : config S mutex) t t' call : waits_for c t t' -> move t call c = None.
Proof.
  unfold waits_for, waiting, move. intros E. destruct (threads c !! t) as [[|p|p|]|]; try done.
  - assert (K := wants_stuck c t p t' E). destruct p; try done; by rewrite K.
  - assert (K := wants_stuck c t p t' E). destruct p as [[]| | | | | | ]; try done; by rewrite K.
Qed.

(** What a step leaves alone. *)
Lemma move_others (c c' : config S mutex) t call : move t call c = Some c' ->
  (forall t', t' <> t -> threads c !! t' <> None -> threads c' !! t' = threads c !! t') /\
  (forall m t', t' <> t -> owner c !! m = Some t' -> owner c' !! m = Some t').
Proof.
  intros E.
  assert (G : forall A (p p' : prog S mutex A) c1 th, advance c t p = Some (p', c1) -> c' = set_thread t th c1 ->
    (forall t', t' <> t -> threads c !! t' <> None -> threads c' !! t' = threads c !! t') /\
    (forall m t', t' <> t -> owner c !! m = Some t' -> owner c' !! m = Some t')).
  { intros A p p' c1 th Ea ->. split.
    - intros t' Hne Hk. simpl. rewrite lookup_insert_ne by congruence.
      destruct (advance_threads c c1 t p p' Ea) as [->|(n & Hn & ->)]; [done|]. rewrite lookup_insert_ne; [done|congruence].
    - intros m t' Hne Ho. simpl. pose proof (advance_owner c c1 t p p' t' Ea Hne m) as K. unfold owned in K.
      apply (bool_decide_eq_true_1 (owner c1 !! m = Some t')). rewrite K. by apply bool_decide_eq_true_2. }
  assert (B : forall th, c' = set_thread t th c ->
    (forall t', t' <> t -> threads c !! t' <> None -> threads c' !! t' = threads c !! t') /\
    (forall m t', t' <> t -> owner c !! m = Some t' -> owner c' !! m = Some t')).
  { intros th ->. split; [|done]. intros t' Hne _. simpl. by rewrite lookup_insert_ne. }
  unfold move in E. destruct (threads c !! t) as [[|p|p|]|]; [..|done|].
  - destruct call; [|done]. injection E as <-. by eapply B.
  - destruct p; [injection E as <-; by eapply B|..];
      (destruct (advance c t _) as [[p' c1]|] eqn:Ea in E; [|done]); injection E as <-; by eapply (G Z).
  - destruct p as [[]| | | | | | ]; [injection E as <-; by eapply B|injection E as <-; by eapply B|..];
      (destruct (advance c t _) as [[p' c1]|] eqn:Ea in E; [|done]); injection E as <-; by eapply G.
  - destruct call; [|done]. injection E as <-. by eapply B.
Qed.

Lemma deadlock_step c c' D : deadlocked c D -> thread_step c c' -> deadlocked c' D.
Proof.
  intros HD (t & call & E) t1 H1. destruct (HD t1 H1) as (t2 & H2 & W). exists t2. split; [done|].
  assert (Ht : forall u, u ∈ D -> u <> t).
  { intros u Hu ->. destruct (HD t Hu) as (u' & _ & K). by rewrite (waits_stuck c t u' call K) in E. }
  destruct (move_others c c' t call E) as [T O].
  assert (T1 : forall u, u ∈ D -> threads c' !! u = threads c !! u).
  { intros u Hu. apply T; [by apply Ht|]. intros K. destruct (HD u Hu) as (u' & _ & W'). unfold waits_for, waiting in W'.
    by rewrite K in W'. }
  unfold waits_for, waiting in *. rewrite (T1 t1 H1).
  assert (K : forall A (p : prog S mutex A), wants c p = Some t2 -> wants c' p = Some t2).
  { intros A p. destruct p; try done; simpl; [by apply O, Ht|]. intros Ew.
    assert (t0 = t2) as -> by (destruct (threads c !! t0) as [[]|]; congruence). by rewrite (T1 t2 H2). }
  destruct (threads c !! t1) as [[]|]; auto.
Qed.

(** Threads that wait for each other do so for ever. *)
Lemma deadlock_permanent c c' D : deadlocked c D -> rtc thread_step c c' -> deadlocked c' D.
Proof. intros HD R. induction R as [|x y z Hxy _ IH]; [done|]. apply IH. by eapply deadlock_step. Qed.

(** ** Invariants of the shared state

    [I] holds between any two steps.  A thread that does not hold the mutex [g]
    changes the state only along [stays]; so one that holds [g] may rely on what is
    [stable] under it. *)

Section invariants.
Context (I : S -> Prop) (g : mutex) (stays : S -> S -> Prop).

Definition stable (P : S -> Prop) : Prop := forall w w', I w -> I w' -> stays w w' -> P w -> P w'.

(** What a thread may know in the state [w]: with [g] something stable, without it
    nothing. *)
Definition knows (has : bool) (P : S -> Prop) (w : S) : Prop := if has then stable P /\ P w else forall w', P w'.

Lemma knows_here has P w : knows has P w -> P w.
Proof. by destruct has; [intros []|]. Qed.

(** [safe strict has P p]: every step of [p] keeps [I], and is not undefined if
    [strict]. *)
Fixpoint safe {A} (strict has : bool) (P : S -> Prop) (p : prog S mutex A) : Prop :=
  match p with
  | Ret _ => has = false
  | Act o k => forall w, I w -> P w ->
      (strict = true -> o w <> None) /\
      forall x w', o w = Some (x, w') ->
        I w' /\ (has = false -> stays w w') /\ exists P', knows has P' w' /\ safe strict has P' (k x)
  | Lock m k => if decide (m = g) then has = false /\ safe strict true P k else safe strict has P k
  | Try_lock m k => m <> g /\ forall b, safe strict has P (k b)
  | Unlock m k => if decide (m = g) then safe strict false (fun _ => True) k else safe strict has P k
  | Create k => forall n, safe strict has P (k n)
  | Join n k => safe strict has P k
  end.

(** Without [g] there is nothing to know. *)
Definition anything : S -> Prop := fun _ => True.

Lemma safe_weaken {A} strict h P P0 (p : prog S mutex A) : (forall w, P w -> P0 w) ->
  safe strict h P0 p -> safe strict h P p.
Proof.
  revert h P P0. induction p as [a|X o k IH|m k IH|m k IH|m k IH|k IH|n k IH]; intros h P P0 HP; simpl.
  - done.
  - intros K w Hw Pw. apply K; auto.
  - destruct (decide _); [intros [? K]; split; [done|]|intros K]; by eapply IH.
  - intros [? K]. split; [done|]. intros b. by eapply IH.
  - destruct (decide _); [done|]. by apply IH.
  - intros K n. by eapply IH.
  - by apply IH.
Qed.

Lemma safe_bind {A B} strict h P (p : prog S mutex A) (f : A -> prog S mutex B) :
  safe strict h P p -> (forall a, safe strict false anything (f a)) -> safe strict h P (p ≫= f).
Proof.
  unfold mbind, prog_mbind. intros K Hf. revert h P K.
  induction p as [a|X o k IH|m k IH|m k IH|m k IH|k IH|n k IH]; intros h P; simpl.
  - intros ->. apply (safe_weaken strict false P anything); [done|apply Hf].
  - intros K w Hw Pw. destruct (K w Hw Pw) as [K1 K2]. split; [done|]. intros x w' E.
    destruct (K2 x w' E) as (? & ? & P' & ? & ?). split; [done|]. split; [done|]. exists P'. split; [done|]. by apply IH.
  - destruct (decide _); [intros [? K]; split; [done|]|intros K]; by apply IH.
  - intros [? K]. split; [done|]. intros b. by apply IH.
  - destruct (decide _); by apply IH.
  - intros K n. by apply IH.
  - by apply IH.
Qed.

Lemma safe_ret {A} strict P (a : A) : safe strict false P (mret a).
Proof. done. Qed.

(** A step without [g]. *)
Lemma safe_act {A} strict P (o : ST S A) :
  (forall w, I w -> (strict = true -> o w <> None) /\ forall x w', o w = Some (x, w') -> I w' /\ stays w w') ->
  safe strict false P (act o).
Proof.
  intros K w Hw _. destruct (K w Hw) as [K1 K2]. split; [done|]. intros x w' E. destruct (K2 x w' E). split; [done|].
  split; [done|]. by exists anything.
Qed.

Lemma safe_if {A} strict h P (b : bool) (p q : prog S mutex A) :
  safe strict h P p -> safe strict h P q -> safe strict h P (if b then p else q).
Proof. by destruct b. Qed.

Context (Hrefl : forall w, stays w w) (strict : nat -> bool).
Context (Hprologue : safe false false anything prologue).
Context (Hiteration : forall l, safe false false anything (iteration l)).

Definition thread_safe (c : config S mutex) (t : nat) (th : thread S mutex) : Prop :=
  match th with
  | Idle | Ended => owned c t g = false
  | Client p => exists P, knows (owned c t g) P (world c) /\ safe (strict t) (owned c t g) P p
  | Worker p => exists P, knows (owned c t g) P (world c) /\ safe false (owned c t g) P p
  end.

Definition all_safe (c : config S mutex) : Prop :=
  I (world c) /\
  (forall t th, threads c !! t = Some th -> thread_safe c t th) /\
  (forall t, owner c !! g = Some t -> exists th, threads c !! t = Some th).

Lemma knows_nothing w : knows false anything w.
Proof. done. Qed.

Lemma knows_more w P : knows false P w -> knows true P w.
Proof. intros K. split; [intros ? ? _ _ _ _; apply K|apply K]. Qed.

Lemma advance_safe {A} s (c c' : config S mutex) t (p p' : prog S mutex A) P : advance c t p = Some (p', c') ->
  I (world c) -> knows (owned c t g) P (world c) -> safe s (owned c t g) P p ->
  I (world c') /\ (owned c t g = false -> stays (world c) (world c')) /\
  exists P', knows (owned c' t g) P' (world c') /\ safe s (owned c' t g) P' p'.
Proof.
  intros E Hw Hk K. destruct p as [a|X o k|m k|m k|m k|k|n k]; simpl in *.
  - done.
  - destruct (o (world c)) as [[x w']|] eqn:Eo; [|done]. injection E as <- <-.
    by apply (K _ Hw (knows_here _ _ _ Hk)).
  - destruct (owner c !! m) eqn:Eo; [done|]. injection E as <- <-. split; [done|]. split; [done|]. exists P. simpl.
    unfold owned. simpl. destruct (decide (m = g)) as [->|Hne].
    + rewrite lookup_insert_eq, bool_decide_eq_true_2 by done. destruct K as [K1 K2]. rewrite K1 in Hk.
      split; [by apply knows_more|done].
    + rewrite lookup_insert_ne by done. done.
  - destruct K as [Hne K]. destruct (owner c !! m) eqn:Eo; injection E as <- <-; [split; [done|]; split; [done|]; by exists P|].
    split; [done|]. split; [done|]. exists P. unfold owned. simpl. by rewrite lookup_insert_ne.
  - destruct (decide (owner c !! m = Some t)) as [Eo|]; [|done]. injection E as <- <-. split; [done|]. split; [done|].
    unfold owned. simpl. destruct (decide (m = g)) as [->|Hne].
    + rewrite lookup_delete_eq, bool_decide_eq_false_2 by done. by exists anything.
    + rewrite lookup_delete_ne by done. by exists P.
  - injection E as <- <-. split; [done|]. split; [done|]. by exists P.
  - destruct (threads c !! n) as [[]|]; try done. injection E as <- <-. split; [done|]. split; [done|]. by exists P.
Qed.

(** The threads that do not move. *)
Lemma thread_safe_others (c c' : config S mutex) t t' th : (forall m, owned c' t' m = owned c t' m) ->
  I (world c) -> I (world c') -> (owned c t g = false -> stays (world c) (world c')) -> t' <> t ->
  thread_safe c t' th -> thread_safe c' t' th.
Proof.
  intros Ho Hw Hw' Hs Hne. assert (K : forall P, knows (owned c t' g) P (world c) -> knows (owned c' t' g) P (world c')).
  { intros P. rewrite Ho. destruct (owned c t' g) eqn:E; [|done]. intros [Hst HP]. split; [done|]. apply (Hst (world c)); try done.
    apply Hs. unfold owned in *. apply bool_decide_eq_true_1 in E. apply bool_decide_eq_false_2. congruence. }
  destruct th as [|p|p|]; simpl.
  1,4: by rewrite Ho.
  1,2: intros (P & HP & Sp); exists P; split; [by apply K|by rewrite Ho].
Qed.

Lemma all_safe_advance {A} s (c c' : config S mutex) t (p p' : prog S mutex A) P th :
  all_safe c -> threads c !! t <> None -> advance c t p = Some (p', c') ->
  knows (owned c t g) P (world c) -> safe s (owned c t g) P p ->
  ((exists P', knows (owned c' t g) P' (world c') /\ safe s (owned c' t g) P' p') -> thread_safe c' t th) ->
  all_safe (set_thread t th c').
Proof.
  intros (Hw & D1 & D2) Ht E HP Sp Hth. destruct (advance_safe s c c' t p p' P E Hw HP Sp) as (Hw' & Hs & K).
  assert (T := advance_threads c c' t p p' E).
  split; [done|]. split; simpl.
  - intros t' th' Et'. apply lookup_insert_Some in Et' as [[<- <-]|[Hne Et']].
    { specialize (Hth K). by destruct th. }
    assert (Hc : thread_safe c t' th').
    { destruct T as [ET|(n & Hn & ET)]; rewrite ET in Et'; [by apply D1|].
      apply lookup_insert_Some in Et' as [[<- <-]|[_ ?]]; [|by apply D1].
      assert (Z0 : owned c n g = false) by (apply bool_decide_eq_false_2; intros (th0 & E0)%D2; by rewrite E0 in Hn).
      simpl. rewrite Z0. by exists anything. }
    assert (Hc' : thread_safe c' t' th').
    { apply (thread_safe_others c c' t); try done. by apply (advance_owner c c' t p p'). }
    by destruct th'.
  - intros t' Ho. destruct (decide (t' = t)) as [->|Hne]; [exists th; by rewrite lookup_insert_eq|].
    rewrite lookup_insert_ne by congruence. destruct (advance_known c c' t p p' E g t' Ho) as [?|Hc]; [done|].
    destruct (D2 t' Hc) as [th' Et']. destruct T as [ET|(n & Hn & ET)]; rewrite ET; [by exists th'|].
    rewrite lookup_insert_ne by congruence. by exists th'.
Qed.

Lemma all_safe_set (c : config S mutex) t th : all_safe c -> thread_safe c t th -> all_safe (set_thread t th c).
Proof.
  intros (Hw & D1 & D2) Hth. split; [done|]. split; simpl.
  - intros t' th' Et'. apply lookup_insert_Some in Et' as [[<- <-]|[Hne Et']]; [by destruct th|].
    specialize (D1 t' th' Et'). by destruct th'.
  - intros t' Ho. destruct (decide (t' = t)) as [->|Hne]; [exists th; by rewrite lookup_insert_eq|].
    rewrite lookup_insert_ne by congruence. by apply D2.
Qed.

Lemma all_safe_step allowed c c' : (forall t a, allowed t a -> safe (strict t) false anything (perform a)) ->
  all_safe c -> thread_step_with allowed c c' -> all_safe c'.
Proof.
  intros Hp D (t & call & Hcall & E). unfold move in E. destruct (D) as (Hw & D1 & D2).
  assert (Start : forall a, threads c !! t = None \/ threads c !! t = Some Idle -> allowed t a ->
    all_safe (set_thread t (Client (perform a)) c)).
  { intros a Et Ha. apply all_safe_set; [done|]. simpl.
    assert (owned c t g = false) as ->.
    { destruct Et as [Et|Et]; [|by apply (D1 t Idle)]. apply bool_decide_eq_false_2. intros (th0 & E0)%D2. by rewrite E0 in Et. }
    exists anything. split; [done|]. by apply Hp. }
  destruct (threads c !! t) as [[|p|p|]|] eqn:Et; [..|done|].
  - destruct call as [a|]; [|done]. injection E as <-. apply Start; [by right|by apply Hcall].
  - destruct (D1 t _ Et) as (P & HP & Sp).
    destruct p as [r| | | | | | ]; [injection E as <-; apply all_safe_set; [done|exact Sp]|..];
      (destruct (advance c t _) as [[p' c1]|] eqn:Ea in E; [|done]); injection E as <-;
      (eapply (all_safe_advance _ c c1); [done|congruence|exact Ea|exact HP|exact Sp|done]).
  - destruct (D1 t _ Et) as (P & HP & Sp).
    destruct p as [[l|r]| | | | | | ].
    1: injection E as <-; apply all_safe_set; [done|]; simpl in *; rewrite Sp; by exists anything.
    1: injection E as <-; apply all_safe_set; [done|]; exact Sp.
    all: (destruct (advance c t _) as [[p' c1]|] eqn:Ea in E; [|done]); injection E as <-;
      (eapply (all_safe_advance _ c c1); [done|congruence|exact Ea|exact HP|exact Sp|done]).
  - destruct call as [a|]; [|done]. injection E as <-. apply Start; [by left|by apply Hcall].
Qed.

(** A thread whose next step is undefined. *)
Definition faults (c : config S mutex) (t : nat) : Prop :=
  match threads c !! t with
  | Some (Client (Act o _)) => o (world c) = None
  | _ => False
  end.

Lemma strict_defined c t : all_safe c -> strict t = true -> ~ faults c t.
Proof.
  intros (Hw & D1 & _) Hs F. unfold faults in F. destruct (threads c !! t) as [[|[]| |]|] eqn:Et; try done.
  destruct (D1 t _ Et) as (P & HP & Sp). simpl in Sp. destruct (Sp _ Hw (knows_here _ _ _ HP)) as [K _]. by apply K.
Qed.
End invariants.

(** ** Invariants of single steps *)

Section steps.
Context (I : S -> Prop).

(** Every step of the program keeps [I]. *)
Fixpoint steps_keep {A} (p : prog S mutex A) : Prop :=
  match p with
  | Ret _ => True
  | Act o k => forall w x w', I w -> o w = Some (x, w') -> I w' /\ steps_keep (k x)
  | Lock _ k | Unlock _ k | Join _ k => steps_keep k
  | Try_lock _ k => forall b, steps_keep (k b)
  | Create k => forall n, steps_keep (k n)
  end.

Lemma steps_bind {A B} (p : prog S mutex A) (f : A -> prog S mutex B) :
  steps_keep p -> (forall a, steps_keep (f a)) -> steps_keep (p ≫= f).
Proof.
  unfold mbind, prog_mbind. intros K Hf. revert K.
  induction p as [a|X o k IH|m k IH|m k IH|m k IH|k IH|n k IH]; simpl; intros K; auto.
  intros w x w' Hw E. destruct (K w x w' Hw E). split; [done|]. auto.
Qed.

Lemma steps_act {A} (o : ST S A) : keeps I o -> steps_keep (act o).
Proof. intros Ho w x w' Hw E. split; [by eapply Ho|done]. Qed.

(** The program may rely on the state in which a step was made. *)
Lemma steps_read {A B} (f : S -> A) (k : A -> prog S mutex B) :
  (forall w, I w -> steps_keep (k (f w))) -> steps_keep (act (fun w => Some (f w, w)) ≫= k).
Proof. intros Hk w x w' Hw [= <- <-]. split; [done|]. by apply Hk. Qed.

(** So may it rely on what a step answers, in the states of the invariant. *)
Lemma steps_post {A B} (P : A -> Prop) (o : ST S A) (k : A -> prog S mutex B) :
  (forall w x w', I w -> o w = Some (x, w') -> I w' /\ P x) -> (forall x, P x -> steps_keep (k x)) ->
  steps_keep (act o ≫= k).
Proof. intros Ho Hk w x w' Hw E. destruct (Ho w x w' Hw E). split; [done|]. by apply Hk. Qed.

Lemma steps_if {A} (b : bool) (p q : prog S mutex A) : steps_keep p -> steps_keep q -> steps_keep (if b then p else q).
Proof. by destruct b. Qed.

Lemma steps_ret {A} (a : A) : steps_keep (mret a).
Proof. done. Qed.

Context (allowed : nat -> api -> Prop) (Hperform : forall t a, allowed t a -> steps_keep (perform a)).
Context (Hprologue : steps_keep prologue) (Hiteration : forall l, steps_keep (iteration l)).

Definition thread_keeps (th : thread S mutex) : Prop :=
  match th with Idle | Ended => True | Client p => steps_keep p | Worker p => steps_keep p end.

Definition config_keeps (c : config S mutex) : Prop :=
  I (world c) /\ forall t th, threads c !! t = Some th -> thread_keeps th.

Lemma config_keeps_set c t th : config_keeps c -> thread_keeps th -> config_keeps (set_thread t th c).
Proof.
  intros [Hw D] Hth. split; [done|]. intros t' th' Et'. simpl in Et'.
  apply lookup_insert_Some in Et' as [[<- <-]|[_ ?]]; [done|by apply (D t')].
Qed.

Lemma config_keeps_advance {A} c c' t (p p' : prog S mutex A) : config_keeps c -> steps_keep p ->
  advance c t p = Some (p', c') -> config_keeps c' /\ steps_keep p'.
Proof.
  intros [Hw D] K E. assert (T := advance_threads c c' t p p' E).
  assert (D' : forall t th, threads c' !! t = Some th -> thread_keeps th).
  { intros t' th' Et'. destruct T as [ET|(n & Hn & ET)]; rewrite ET in Et'; [by apply (D t')|].
    apply lookup_insert_Some in Et' as [[<- <-]|[_ ?]]; [done|by apply (D t')]. }
  destruct p; simpl in *; repeat case_match; simplify_eq; try done; try (split; [by split|]; by auto).
  destruct (K _ _ _ Hw ltac:(eassumption)). by split.
Qed.

Lemma config_keeps_step c c' : config_keeps c -> thread_step_with allowed c c' -> config_keeps c'.
Proof.
  intros D (t & call & Hcall & E). unfold move in E. destruct (D) as [Hw Dt].
  destruct (threads c !! t) as [[|p|p|]|] eqn:Et; [..|done|].
  - destruct call as [a|]; [|done]. injection E as <-. apply config_keeps_set; [done|by apply (Hperform t), Hcall].
  - assert (K := Dt t _ Et). simpl in K. destruct p; [injection E as <-; by apply config_keeps_set|..];
      (destruct (advance c t _) as [[p' c1]|] eqn:Ea in E; [|done]); injection E as <-;
      destruct (config_keeps_advance _ _ _ _ _ D K Ea); by apply config_keeps_set.
  - assert (K := Dt t _ Et). simpl in K.
    destruct p as [[]| | | | | | ]; [injection E as <-; apply config_keeps_set; [done|apply Hiteration]|injection E as <-; by apply config_keeps_set|..];
      (destruct (advance c t _) as [[p' c1]|] eqn:Ea in E; [|done]); injection E as <-;
      destruct (config_keeps_advance _ _ _ _ _ D K Ea); by apply config_keeps_set.
  - destruct call as [a|]; [|done]. injection E as <-. apply config_keeps_set; [done|by apply (Hperform t), Hcall].
Qed.
End steps.

(** ** Programs without interference *)

(** A run in which no other thread moves; one that needs the callback thread is left
    out. *)
Fixpoint solo {A} (p : prog S mutex A) (w : S) : option (A * S) :=
  match p with
  | Ret a => Some (a, w)
  | Act o k => match o w with Some (x, w) => solo (k x) w | None => None end
  | Lock _ k | Unlock _ k => solo k w
  | Try_lock _ k => solo (k true) w
  | Create _ | Join _ _ => None
  end.

Lemma solo_bind {A B} (p : prog S mutex A) (f : A -> prog S mutex B) w :
  solo (p ≫= f) w = match solo p w with Some (a, w) => solo (f a) w | None => None end.
Proof.
  unfold mbind, prog_mbind. revert w. induction p; intros w; simpl; auto. by destruct (o w) as [[]|].
Qed.

(** It is one of the interleavings. *)
Lemma solo_steps rank {A} (p : prog S mutex A) joins h w a w' t c (client : prog S mutex A -> thread S mutex) :
  (forall p c, (forall a, p <> Ret a) -> threads c !! t = Some (client p) ->
     move t None c = match advance c t p with Some (p, c) => Some (set_thread t (client p) c) | None => None end) ->
  ordered rank joins h p none_held -> solo p w = Some (a, w') ->
  world c = w -> (forall m, owner c !! m = if h m then Some t else None) -> threads c !! t = Some (client p) ->
  exists c', rtc thread_step c c' /\ world c' = w' /\ owner c' = ∅ /\ threads c' !! t = Some (client (Ret a)).
Proof.
  intros Hm. revert h w c. induction p as [x|X o k IH|m k IH|m k IH|m k IH|k IH|n k IH]; intros h w c O E Ew Ho Et; simpl in O, E.
  - injection E as -> ->. exists c. split; [done|]. split; [done|]. split; [|done].
    apply map_eq. intros m. by rewrite Ho, O, lookup_empty.
  - destruct (o w) as [[x w1]|] eqn:Eo; [|done]. subst w.
    destruct (IH x h w1 (set_thread t (client (k x)) {| world := w1; owner := owner c; threads := threads c |})) as (c' & R & K);
      [by apply O|done|done|done|by simpl; rewrite lookup_insert_eq|].
    exists c'. split; [|done]. econstructor; [|exact R]. exists t, None. rewrite (Hm (Act o k)); [|done|done]. simpl. by rewrite Eo.
  - destruct O as [O1 O2]. assert (Hf : h m = false) by (destruct (h m) eqn:Ef; [specialize (O1 m Ef); lia|done]).
    destruct (IH (holds h m true) w (set_thread t (client k) {| world := world c; owner := <[m := t]> (owner c); threads := threads c |}))
      as (c' & R & K); [done|done|done|intros m'; unfold holds; simpl; destruct (decide (m' = m)) as [->|];
        [by rewrite lookup_insert_eq|by rewrite lookup_insert_ne]|by simpl; rewrite lookup_insert_eq|].
    exists c'. split; [|done]. econstructor; [|exact R]. exists t, None. rewrite (Hm (Lock m k)); [|done|done]. simpl. by rewrite Ho, Hf.
  - destruct O as (Hf & O & _).
    destruct (IH true (holds h m true) w (set_thread t (client (k true)) {| world := world c; owner := <[m := t]> (owner c); threads := threads c |}))
      as (c' & R & K); [done|done|done|intros m'; unfold holds; simpl; destruct (decide (m' = m)) as [->|];
        [by rewrite lookup_insert_eq|by rewrite lookup_insert_ne]|by simpl; rewrite lookup_insert_eq|].
    exists c'. split; [|done]. econstructor; [|exact R]. exists t, None. rewrite (Hm (Try_lock m k)); [|done|done]. simpl. by rewrite Ho, Hf.
  - destruct O as [Hf O].
    destruct (IH (holds h m false) w (set_thread t (client k) {| world := world c; owner := delete m (owner c); threads := threads c |}))
      as (c' & R & K); [done|done|done|intros m'; unfold holds; simpl; destruct (decide (m' = m)) as [->|];
        [by rewrite lookup_delete_eq|by rewrite lookup_delete_ne]|by simpl; rewrite lookup_insert_eq|].
    exists c'. split; [|done]. econstructor; [|exact R]. exists t, None. rewrite (Hm (Unlock m k)); [|done|done]. simpl. by rewrite Ho, Hf, decide_True.
  - done.
  - done.
Qed.

Corollary solo_call rank a r w' t (c : config S mutex) :
  ordered rank true none_held (perform a) none_held -> solo (perform a) (world c) = Some (r, w') ->
  owner c = ∅ -> threads c !! t = None \/ threads c !! t = Some Idle ->
  exists c', rtc thread_step c c' /\ world c' = w' /\ owner c' = ∅ /\ threads c' !! t = Some Idle.
Proof.
  intros O E Ho Et.
  destruct (solo_steps rank (perform a) true none_held (world c) r w' t (set_thread t (Client (perform a)) c) Client)
    as (c1 & R & Ew & Eo & E1); [..|exists (set_thread t Idle c1)].
  - intros p c1 Hp E1. unfold move. rewrite E1. destruct p as [x| | | | | | ]; [by destruct (Hp x)|done..].
  - done.
  - done.
  - done.
  - intros m. simpl. by rewrite Ho, lookup_empty.
  - simpl. by rewrite lookup_insert_eq.
  - split; [|split; [done|split; [done|simpl; by rewrite lookup_insert_eq]]]. econstructor; [exists t, (Some a)|].
    { unfold move. destruct Et as [->| ->]; done. }
    eapply rtc_r; [exact R|]. exists t, None. unfold move. by rewrite E1.
Qed.
End rules.
