(* ===== verification/SthData.v ===== *)
(** * Sound trigger: data

    [src/libaudio/sthal/sound_trigger_hw.h] and the structures of the sound trigger
    HAL, built with [MMAP_INTERFACE_ENABLED] and [STHAL_2_3].  The mixer and the PCM
    devices of tinyalsa, the sockets, the driver and the framework that is called back
    are the environment. *)

From Stdlib Require Import String.
From S2P Require Import Prelude Effects Threads.

(** ** Constants *)

(** [errno.h] *)
Definition ENOMEM : Z := 12.
Definition EFAULT : Z := 14.
Definition EBUSY : Z := 16.
Definition EINVAL : Z := 22.
Definition ENOSYS : Z := 38.

Definition HOTWORD_INDEX : Z := 0.
Definition SVOICE_INDEX : Z := 1.
Definition HANDLE_NONE : Z := -1.
Definition MODEL_START_CONTROL_COUNT : nat := 3.
Definition MODEL_STOP_CONTROL_COUNT : nat := 2.
Definition MODEL_BACKLOG_CONTROL_COUNT : nat := 1.

Definition VTS_MAIN_MIC : Z := 0.
Definition VTS_HEADSET_MIC : Z := 1.
Definition SVOICE_UNKNOWN_MODE : Z := 0.
Definition SVOICE_BIXBY_MODE : Z := 1.
Definition SVOICE_LPSD_MODE : Z := 2.
Definition SVOICE_BIXBY_ALWAYS_MODE : Z := 3.
Definition VTS_MODE_VOICE_TRIGGER_ON : Z := 1.
Definition VTS_MODE_SOUND_DETECT_ON : Z := 2.
Definition VTS_MODE_VT_ALWAYS_ON : Z := 3.
Definition VTS_MODE_GOOGLE_TRIGGER_ON : Z := 4.
Definition VTS_MODE_VOICE_TRIGGER_OFF : Z := 6.
Definition VTS_MODE_SOUND_DETECT_OFF : Z := 7.
Definition VTS_MODE_VT_ALWAYS_OFF : Z := 8.
Definition VTS_MODE_GOOGLE_TRIGGER_OFF : Z := 9.
Definition MODEL_RECOGNIZE_STOPPED : Z := 0.
Definition MODEL_RECOGNIZE_STARTED : Z := 1.
Definition VOICECALL_STOPPED : Z := 0.
Definition VOICECALL_STARTED : Z := 1.
Definition RECORDING_STOP : Z := 0.
Definition RECORDING_START : Z := 1.
Definition RECOG_CB_NONE : Z := 0.
Definition RECOG_CB_STARTED : Z := 1.
Definition RECOG_CB_CALLED : Z := 2.
Definition MODEL_STATE_NONE : Z := 0.
Definition MODEL_STATE_RUNNING : Z := 1.
Definition MODEL_STATE_STOPABORT : Z := 2.

(** The names and the values of the mixer controls. *)
Definition vts_forcereset_ctlname : list string := ["VTS Force Reset"%string].
Definition model_backlog_size_ctlname : list string := ["VTS VoiceTrigger Value"%string].
Definition model_recognize_start_ctlname : list string :=
  ["VTS Active Keyphrase"; "VTS VoiceRecognization Mode"; "VTS VoiceTrigger Value"]%string.
Definition model_recognize_stop_ctlname : list string :=
  ["VTS Active Keyphrase"; "VTS VoiceRecognization Mode"]%string.
Definition svoice_bixbyrecognize_start_ctlvalue : list Z := [0; VTS_MODE_VOICE_TRIGGER_ON; 1800].
Definition svoice_bixbyrecognize_stop_ctlvalue : list Z := [0; VTS_MODE_VOICE_TRIGGER_OFF].
Definition svoice_lpsdrecognize_start_ctlvalue : list Z := [0; VTS_MODE_SOUND_DETECT_ON; 0].
Definition svoice_lpsdrecognize_stop_ctlvalue : list Z := [0; VTS_MODE_SOUND_DETECT_OFF].
Definition svoice_bixbyalwaysrecognize_start_ctlvalue : list Z := [0; VTS_MODE_VT_ALWAYS_ON; 1800].
Definition svoice_bixbyalwaysrecognize_stop_ctlvalue : list Z := [0; VTS_MODE_VT_ALWAYS_OFF].
Definition hotword_recognize_start_ctlvalue : list Z := [1; VTS_MODE_GOOGLE_TRIGGER_ON; 2000].
Definition hotword_recognize_stop_ctlvalue : list Z := [1; VTS_MODE_GOOGLE_TRIGGER_OFF].

(** [soundtrigger_conf.h], which the product provides. *)
Class SoundTriggerConf := {
  main_mic_ctlname : list string;
  main_mic_ctlvalue : list Z;
  MAIN_MIC_CONTROL_COUNT : nat;
  headset_mic_ctlname : list string;
  headset_mic_ctlvalue : list Z;
  HEADSET_MIC_CONTROL_COUNT : nat;
  VTS_MIXER_CARD : Z;
  VTS_SOUND_CARD : Z;
  VTS_TRICAP_DEVICE_NODE : Z;
  VTS_RECORD_DEVICE_NODE : Z;
  VTSDRV_MISC_MODEL_BIN_MAXSZ : Z
}.

(** The interface of the framework, [system/sound_trigger.h]. *)
Class SoundTriggerInterface := {
  SOUND_MODEL_TYPE_KEYPHRASE : Z;
  SOUND_MODEL_TYPE_GENERIC : Z;
  RECOGNITION_STATUS_SUCCESS : Z;
  RECOGNITION_MODE_VOICE_TRIGGER : Z;
  SOUND_TRIGGER_MAX_PHRASES : nat;
  AUDIO_CHANNEL_IN_MONO : Z;
  AUDIO_FORMAT_PCM_16_BIT : Z;
  sizeof_sound_model : Z;
  SOUND_TRIGGER_HARDWARE_INTERFACE : string
}.

(** ** Structures *)

(** An array of [MAX_SOUND_MODELS] elements, which has two. *)
Record per_model (A : Type) := PerModel { at_hotword : A; at_svoice : A }.
Arguments PerModel {A}.
Arguments at_hotword {A}.
Arguments at_svoice {A}.

Definition both {A} (a : A) : per_model A := PerModel a a.
Definition elem_at {A} (a : per_model A) (i : Z) : option A :=
  if i =? HOTWORD_INDEX then Some (at_hotword a) else if i =? SVOICE_INDEX then Some (at_svoice a) else None.
Definition set_at {A} (a : per_model A) (i : Z) (x : A) : option (per_model A) :=
  if i =? HOTWORD_INDEX then Some (PerModel x (at_svoice a))
  else if i =? SVOICE_INDEX then Some (PerModel (at_hotword a) x) else None.

(** [sound_trigger_uuid_t] *)
Record uuid := {
  timeLow : Z;
  timeMid : Z;
  timeHiAndVersion : Z;
  clockSeq : Z;
  node : list Z
}.
#[export] Instance uuid_eq_dec : EqDecision uuid.
Proof. solve_decision. Defined.

Definition bixby_uuid : uuid := {|
  timeLow := 0x1817de20; timeMid := 0xfa3b; timeHiAndVersion := 0x11e5; clockSeq := 0xbef2;
  node := [0x00; 0x02; 0xa5; 0xd5; 0xc5; 0x1b] |}.
Definition hotword_uuid : uuid := {|
  timeLow := 0x7038ddc8; timeMid := 0x30f2; timeHiAndVersion := 0x11e6; clockSeq := 0xb0ac;
  node := [0x40; 0xa8; 0xf0; 0x3d; 0x3f; 0x15] |}.

(** [struct sound_trigger_sound_model] and the model behind it. *)
Record sound_model := {
  model_type : Z;
  vendor_uuid : uuid;
  data_size : Z;
  data_offset : Z;
  model_data : list Z
}.

(** [struct sound_trigger_phrase_recognition_extra] *)
Record phrase_extra := {
  phrase_id : Z;
  recognition_modes : Z;
  confidence_level : Z;
  num_levels : Z;
  levels : list (Z * Z)
}.

(** [struct sound_trigger_recognition_config], with the text behind it. *)
Record recognition_config := {
  capture_requested : bool;
  num_phrases : Z;
  phrases : list phrase_extra;
  config_data_size : Z;
  config_data : string
}.

(** [struct sound_trigger_recognition_event] with what follows it in the phrase
    event. *)
Record recognition_event := {
  event_status : Z;
  event_type : Z;
  event_model : Z;
  capture_available : bool;
  trigger_in_data : bool;
  sample_rate : Z;
  channel_mask : Z;
  sample_format : Z;
  event_num_phrases : Z;
  phrase_extras : list phrase_extra
}.

(** [struct sound_trigger_properties] *)
Record sound_trigger_properties := {
  implementor : string;
  description : string;
  version : Z;
  properties_uuid : uuid;
  max_sound_models : Z;
  max_key_phrases : Z;
  max_users : Z;
  properties_modes : Z;
  capture_transition : bool;
  max_buffer_ms : Z;
  concurrent_capture : bool;
  trigger_in_event : bool;
  power_consumption_mw : Z
}.

Definition hw_properties `{SoundTriggerInterface} : sound_trigger_properties := {|
  implementor := "Samsung SLSI"; description := "Exynos Primary SoundTrigger HAL, OK Google and SVoice";
  version := 1; properties_uuid := bixby_uuid; max_sound_models := 2; max_key_phrases := 1; max_users := 1;
  properties_modes := RECOGNITION_MODE_VOICE_TRIGGER; capture_transition := true; max_buffer_ms := 0;
  concurrent_capture := false; trigger_in_event := false; power_consumption_mw := 0 |}.

(** [struct sound_trigger_device].  Pointers are addresses, 0 is [NULL]; of
    [notify_sthal_status] only whether it is there.  The mutexes are those of
    [Threads]. *)
Record stdev := {
  model_handles : per_model Z;
  recognition_callbacks : per_model Z;
  recognition_cookies : per_model Z;
  sound_model_callbacks : per_model Z;
  sound_model_cookies : per_model Z;
  callback_thread : nat;
  send_socket : Z;
  term_socket : Z;
  uevent_socket : Z;
  configs : per_model (option recognition_config);
  mixer : Z;
  vtsdev_fd : Z;
  mapped_addr : option (list Z);
  is_streaming : Z;
  sthal_opened : bool;
  callback_thread_active : bool;
  is_seamless_recording : bool;
  streaming_pcm : Z;
  recognize_started : Z;
  active_mic : Z;
  is_mic_configured : bool;
  audio_primary_lib : Z;
  notify_sthal_status : bool;
  is_recording : bool;
  recording_pcm : Z;
  backlog_size : Z;
  svoicemodel_mode : Z;
  voicecall_state : Z;
  recog_cbstate : Z;
  model_execstate : per_model Z;
  model_stopfailedhandles : per_model Z;
  is_generic : Z
}.

#[export] Instance stdev_fields : Fields stdev := fun d => {|
  model_handles := model_handles d; recognition_callbacks := recognition_callbacks d;
  recognition_cookies := recognition_cookies d; sound_model_callbacks := sound_model_callbacks d;
  sound_model_cookies := sound_model_cookies d; callback_thread := callback_thread d; send_socket := send_socket d;
  term_socket := term_socket d; uevent_socket := uevent_socket d; configs := configs d; mixer := mixer d;
  vtsdev_fd := vtsdev_fd d; mapped_addr := mapped_addr d; is_streaming := is_streaming d; sthal_opened := sthal_opened d;
  callback_thread_active := callback_thread_active d; is_seamless_recording := is_seamless_recording d;
  streaming_pcm := streaming_pcm d; recognize_started := recognize_started d; active_mic := active_mic d;
  is_mic_configured := is_mic_configured d; audio_primary_lib := audio_primary_lib d;
  notify_sthal_status := notify_sthal_status d; is_recording := is_recording d; recording_pcm := recording_pcm d;
  backlog_size := backlog_size d; svoicemodel_mode := svoicemodel_mode d; voicecall_state := voicecall_state d;
  recog_cbstate := recog_cbstate d; model_execstate := model_execstate d;
  model_stopfailedhandles := model_stopfailedhandles d; is_generic := is_generic d |}.

(** [g_stdev] before the first [stdev_open]: zero. *)
Definition g_stdev : stdev := {|
  model_handles := both 0; recognition_callbacks := both 0; recognition_cookies := both 0;
  sound_model_callbacks := both 0; sound_model_cookies := both 0; callback_thread := 0; send_socket := 0; term_socket := 0;
  uevent_socket := 0; configs := both None; mixer := 0; vtsdev_fd := 0; mapped_addr := None; is_streaming := 0;
  sthal_opened := false; callback_thread_active := false; is_seamless_recording := false; streaming_pcm := 0;
  recognize_started := 0; active_mic := 0; is_mic_configured := false; audio_primary_lib := 0;
  notify_sthal_status := false; is_recording := false; recording_pcm := 0; backlog_size := 0; svoicemodel_mode := 0;
  voicecall_state := 0; recog_cbstate := 0; model_execstate := both 0; model_stopfailedhandles := both 0; is_generic := 0 |}.

(** ** The environment *)

Inductive sth_call :=
  | mixer_open (card : Z)
  | mixer_close (mixer : Z)
  | mixer_get_ctl_by_name (mixer : Z) (name : string)
  | mixer_ctl_set_value (ctl id value : Z)
  | pcm_open (card device : Z)
  | pcm_is_ready (pcm : Z)
  | pcm_close (pcm : Z)
  | pcm_read (pcm length : Z)
  | sys_socketpair
  | uevent_open_socket
  | sys_close (fd : Z)
  | sys_write (fd : Z) (text : string)
  | sys_read (fd : Z)
  | pthread_create
  | sys_poll (fd0 fd1 : Z)
  | uevent_kernel_multicast_recv (fd : Z)
  | sys_malloc
  | sys_calloc
  | sys_usleep (us : Z)
  | sys_access
  | sys_dlopen
  | sys_dlsym
  | sys_open_vts
  | sys_mmap (fd : Z)
  | sys_munmap
  | ioctl_write_google (fd len : Z)
  | ioctl_write_svoice (fd len : Z)
  | ioctl_read_google_version (fd : Z)
  | notify_status (state : Z)
  | recognition_callback (callback : Z) (event : recognition_event) (cookie : Z).

Definition sth_log := list (sth_call * Z).

(** The PCM devices that are open after the calls of a log. *)
Fixpoint open_pcms (l : sth_log) : gset Z :=
  match l with
  | [] => ∅
  | (pcm_open _ _, p) :: l => {[p]} ∪ open_pcms l
  | (pcm_close p, _) :: l => open_pcms l ∖ {[p]}
  | _ :: l => open_pcms l
  end.

(** How a call is answered, from the calls before it; and what a call stores besides:
    the sockets of a pair, the error number, the events of [poll] on its two file
    descriptors ([POLLIN], and [POLLERR] or [POLLHUP]), the strings of a message of
    the kernel, the version of the model.  [str_parms_get_int] is that of
    [libcutils] on the text of a configuration. *)
Class SoundTriggerEnv := {
  sth_answer : sth_log -> sth_call -> Z;
  socket_fds : sth_log -> Z * Z;
  errno : sth_log -> Z;
  poll_events : sth_log -> (bool * bool) * bool;
  uevent_strings : sth_log -> list string;
  google_version : sth_log -> Z;
  str_parms_get_int : string -> string -> option Z
}.

(** ** State *)

(** The device, and the log, latest call first. *)
Record sth_world := {
  dev : stdev;
  slog : sth_log
}.
#[export] Instance sth_world_fields : Fields sth_world := fun w => {| dev := dev w; slog := slog w |}.

(** The three mutexes of the device. *)
Inductive sth_mutex := lock | trigger_lock | recording_lock.
#[export] Instance sth_mutex_eq_dec : EqDecision sth_mutex.
Proof. solve_decision. Defined.
#[export] Instance sth_mutex_countable : Countable sth_mutex.
Proof.
  refine {|
    encode m := match m with lock => 1 | trigger_lock => 2 | recording_lock => 3 end%positive;
    decode p := match p with 1 => Some lock | 2 => Some trigger_lock | _ => Some recording_lock end%positive |}.
  by intros [].
Defined.

Abbreviation M := (ST sth_world).
Abbreviation P := (prog sth_world sth_mutex).

(** The device, and an assignment to its fields. *)
Definition get : M stdev := fun w => Some (dev w, w).
Definition put (f : stdev -> stdev) : M unit := fun w => Some (tt, w <| dev := f (dev w) |>).

(** An element of an array, and an assignment to it: undefined outside. *)
Definition nth_of {A} (field : stdev -> per_model A) (i : Z) : M A := fun w =>
  match elem_at (field (dev w)) i with Some a => Some (a, w) | None => None end.
Definition put_at {A} (field : stdev -> per_model A) (assign : per_model A -> stdev -> stdev) (i : Z) (a : A) : M unit :=
  fun w => match set_at (field (dev w)) i a with Some l => Some (tt, w <| dev := assign l (dev w) |>) | None => None end.

Section calls.
Context `{SoundTriggerEnv}.

Definition sys (c : sth_call) : M Z := fun w =>
  let r := sth_answer (slog w) c in Some (r, w <| slog := (c, r) :: slog w |>).

Definition stored {A} (f : sth_log -> A) : M A := fun w => Some (f (slog w), w).

(** The PCM devices of tinyalsa: one that is closed must not be used. *)
Definition is_open (p : Z) : M unit := fun w => if decide (p ∈ open_pcms (slog w)) then Some (tt, w) else None.

Definition open_pcm (card device : Z) : M Z := sys (pcm_open card device).
Definition close_pcm (p : Z) : M unit := is_open p ;; sys (pcm_close p) ;; mret tt.
Definition read_pcm (p length : Z) : M Z := is_open p ;; sys (pcm_read p length).
(** Its result is a text of the device. *)
Definition pcm_get_error (p : Z) : M unit := is_open p.
Definition ready_pcm (p : Z) : M bool := r ← sys (pcm_is_ready p); mret (negb (r =? 0)).
End calls.
