(* ===== verification/SthPower.v ===== *)
(** * Sound trigger: the mixer, the microphone and the recognition

    The functions of [src/libaudio/sthal/sound_trigger_hw.c] without synchronisation,
    which are called with the mutex [lock] held. *)

From Stdlib Require Import String.
From S2P Require Import Prelude Effects Threads SthData.

Section power.
Context `{SoundTriggerConf, SoundTriggerInterface, SoundTriggerEnv}.

(** ** The mixer *)

(** [path[i]] of a C array. *)
Definition array_at {A} (l : list A) (i : Z) : M A :=
  match (if 0 <=? i then l !! Z.to_nat i else None) with Some a => mret a | None => undefined end.

(** The loop on [ctrl_count], with the last [ret]. *)
Fixpoint set_ctrls_loop (path_name : list string) (path_ctlvalue : option (list Z)) (reverse : bool)
    (ctrl_count : nat) (i ret : Z) : M Z :=
  match ctrl_count with
  | O => mret ret
  | S ctrl_count =>
      d ← get;
      name ← array_at path_name i;
      mixerctl ← sys (mixer_get_ctl_by_name (mixer d) name);
      if mixerctl =? 0 then mret (- EINVAL)
      else
        value ← match path_ctlvalue with Some values => array_at values i | None => mret 0 end;
        ret ← sys (mixer_ctl_set_value mixerctl 0 value);
        if negb (ret =? 0) then mret (- EINVAL)
        else set_ctrls_loop path_name path_ctlvalue reverse ctrl_count (if reverse then i - 1 else i + 1) ret
  end.

Definition set_mixer_ctrls (path_name : list string) (path_ctlvalue : option (list Z)) (ctrl_count : nat)
    (reverse : bool) : M Z :=
  d ← get;
  if mixer d =? 0 then mret (- EINVAL)
  else set_ctrls_loop path_name path_ctlvalue reverse ctrl_count
         (if reverse then Z.of_nat ctrl_count - 1 else 0) 0.

(** ** The microphone *)

Definition stdev_vts_set_mic (enable_mic : bool) : M unit :=
  d ← get;
  let headset := active_mic d =? VTS_HEADSET_MIC in
  if enable_mic then
    if negb (is_mic_configured d) then
      (if headset then
         set_mixer_ctrls headset_mic_ctlname (Some headset_mic_ctlvalue) HEADSET_MIC_CONTROL_COUNT false
       else set_mixer_ctrls main_mic_ctlname (Some main_mic_ctlvalue) MAIN_MIC_CONTROL_COUNT false) ;;
      put (fun d => d <| is_mic_configured := true |>)
    else mret tt
  else
    if is_mic_configured d then
      (if headset then set_mixer_ctrls headset_mic_ctlname None HEADSET_MIC_CONTROL_COUNT true
       else set_mixer_ctrls main_mic_ctlname None MAIN_MIC_CONTROL_COUNT true) ;;
      put (fun d => d <| is_mic_configured := false |>)
    else mret tt.

(** ** Recognition *)

(** [0x1 << i] *)
Definition bit (i : Z) : Z := Z.shiftl 1 i.
Definition has_bit (mask i : Z) : bool := negb (Z.land mask (bit i) =? 0).

Definition svoice_start_ctlvalue (mode : Z) : list Z :=
  if mode =? SVOICE_BIXBY_MODE then svoice_bixbyrecognize_start_ctlvalue
  else if mode =? SVOICE_LPSD_MODE then svoice_lpsdrecognize_start_ctlvalue
  else if mode =? SVOICE_BIXBY_ALWAYS_MODE then svoice_bixbyalwaysrecognize_start_ctlvalue
  else svoice_bixbyrecognize_start_ctlvalue.
Definition svoice_stop_ctlvalue (mode : Z) : list Z :=
  if mode =? SVOICE_BIXBY_MODE then svoice_bixbyrecognize_stop_ctlvalue
  else if mode =? SVOICE_LPSD_MODE then svoice_lpsdrecognize_stop_ctlvalue
  else if mode =? SVOICE_BIXBY_ALWAYS_MODE then svoice_bixbyalwaysrecognize_stop_ctlvalue
  else svoice_bixbyrecognize_stop_ctlvalue.

Definition notify (state : Z) : M unit :=
  d ← get;
  if notify_sthal_status d then sys (notify_status state) ;; mret tt else mret tt.

(** The parts of [stdev_vts_set_power]; the result is whether it goes on, that is not
    to [exit]. *)
Definition close_streaming_pcm : M unit :=
  d ← get;
  if negb (streaming_pcm d =? 0) then close_pcm (streaming_pcm d) ;; put (fun d => d <| streaming_pcm := 0 |>)
  else mret tt.

Definition start_hotword : M bool :=
  r ← set_mixer_ctrls model_recognize_start_ctlname (Some hotword_recognize_start_ctlvalue) MODEL_START_CONTROL_COUNT false;
  if negb (r =? 0) then mret false
  else
    put (fun d => d <| recognize_started := Z.lor (recognize_started d) (bit HOTWORD_INDEX) |>) ;;
    notify MODEL_RECOGNIZE_STARTED ;; mret true.

Definition start_svoice : M bool :=
  d ← get;
  let mode := svoicemodel_mode d in
  r ← set_mixer_ctrls model_recognize_start_ctlname (Some (svoice_start_ctlvalue mode)) MODEL_START_CONTROL_COUNT false;
  if negb (r =? 0) then mret false
  else
    d ← get;
    r ← (if ((mode =? SVOICE_BIXBY_MODE) || (mode =? SVOICE_BIXBY_ALWAYS_MODE)) && negb (backlog_size d =? 0) then
           set_mixer_ctrls model_backlog_size_ctlname (Some [backlog_size d]) MODEL_BACKLOG_CONTROL_COUNT false
         else mret 0);
    if negb (r =? 0) then mret false
    else put (fun d => d <| recognize_started := Z.lor (recognize_started d) (bit SVOICE_INDEX) |>) ;; mret true.

Definition stop_hotword : M bool :=
  r ← set_mixer_ctrls model_recognize_stop_ctlname (Some hotword_recognize_stop_ctlvalue) MODEL_STOP_CONTROL_COUNT false;
  if negb (r =? 0) then mret false
  else
    put (fun d => d <| recognize_started := Z.land (recognize_started d) (Z.lnot (bit HOTWORD_INDEX)) |>) ;;
    notify MODEL_RECOGNIZE_STOPPED ;; mret true.

Definition stop_svoice : M bool :=
  d ← get;
  r ← set_mixer_ctrls model_recognize_stop_ctlname (Some (svoice_stop_ctlvalue (svoicemodel_mode d))) MODEL_STOP_CONTROL_COUNT false;
  if negb (r =? 0) then mret false
  else put (fun d => d <| recognize_started := Z.land (recognize_started d) (Z.lnot (bit SVOICE_INDEX)) |>) ;; mret true.

Definition stdev_vts_set_power (enabled_algorithms : Z) : M unit :=
  put (fun d => d <| is_streaming := 0 |>) ;;
  close_streaming_pcm ;;
  put (fun d => d <| is_seamless_recording := false |>) ;;
  if negb (enabled_algorithms =? 0) then
    stdev_vts_set_mic true ;;
    ok ← (if has_bit enabled_algorithms HOTWORD_INDEX then start_hotword else mret true);
    if negb ok then mret tt else
    ok ← (if has_bit enabled_algorithms SVOICE_INDEX then start_svoice else mret true);
    mret tt
  else
    d ← get;
    ok ← (if has_bit (recognize_started d) HOTWORD_INDEX then stop_hotword else mret true);
    if negb ok then mret tt else
    d ← get;
    ok ← (if has_bit (recognize_started d) SVOICE_INDEX then stop_svoice else mret true);
    if negb ok then mret tt else
    d ← get;
    if (recognize_started d =? 0) && negb (is_recording d) then stdev_vts_set_mic false else mret tt.

(** ** Other functions *)

(** The sockets of the callback thread. *)
Definition close_socket (fd : Z) (assign : stdev -> stdev) : M unit :=
  if 0 <=? fd then sys (sys_close fd) ;; put assign else mret tt.
Definition stdev_close_callback_thread_sockets : M unit :=
  d ← get;
  close_socket (send_socket d) (fun d => d <| send_socket := -1 |>) ;;
  close_socket (term_socket d) (fun d => d <| term_socket := -1 |>) ;;
  close_socket (uevent_socket d) (fun d => d <| uevent_socket := -1 |>).

Definition stdev_active_callback_bitmask : M Z :=
  d ← get;
  let callbacks := recognition_callbacks d in
  mret (Z.lor (if at_hotword callbacks =? 0 then 0 else bit HOTWORD_INDEX)
              (if at_svoice callbacks =? 0 then 0 else bit SVOICE_INDEX)).

(** The copy is made before the length is compared with the size of the mapping. *)
Definition load_modelbinary (model_index : Z) (data : list Z) : M Z :=
  d ← get;
  let len := Z.of_nat (length data) in
  (match mapped_addr d with
   | Some _ =>
       if len <=? VTSDRV_MISC_MODEL_BIN_MAXSZ then put (fun d => d <| mapped_addr := Some data |>) else undefined
   | None => undefined
   end) ;;
  let len := if VTSDRV_MISC_MODEL_BIN_MAXSZ <? len then VTSDRV_MISC_MODEL_BIN_MAXSZ else len in
  r ← sys ((if model_index =? HOTWORD_INDEX then ioctl_write_google else ioctl_write_svoice) (vtsdev_fd d) len);
  mret (if r <? 0 then - EINVAL else 0).

Definition vts_load_sound_model (data : list Z) (model_index : Z) : M Z :=
  if model_index =? HOTWORD_INDEX then load_modelbinary model_index data
  else if model_index =? SVOICE_INDEX then load_modelbinary model_index data
  else mret (- ENOSYS).

(** What the extra text of a configuration sets. *)
Definition ParseExtraConfigData (keyValuePairs : string) : M unit :=
  (match str_parms_get_int keyValuePairs "voice_trig" with
   | Some value => put (fun d => d <| backlog_size := value |>)
   | None => mret tt
   end) ;;
  (match str_parms_get_int keyValuePairs "wakeup_mode" with
   | Some value => put (fun d => d <| svoicemodel_mode := value |>)
   | None => mret tt
   end).

(** ** Events *)

Definition no_phrase : phrase_extra := {|
  phrase_id := 0; recognition_modes := 0; confidence_level := 0; num_levels := 0; levels := [] |}.

(** The phrases of the configuration, and after them those of [calloc]; then the
    assignments to the first one. *)
Definition event_phrases (config : option recognition_config) : list phrase_extra :=
  let copied :=
    match config with
    | Some c => take (Nat.min (Z.to_nat (num_phrases c)) SOUND_TRIGGER_MAX_PHRASES) (phrases c)
    | None => []
    end in
  match copied ++ replicate (SOUND_TRIGGER_MAX_PHRASES - length copied) no_phrase with
  | p :: l =>
      {| phrase_id := phrase_id p; recognition_modes := recognition_modes p; confidence_level := 100;
         num_levels := 1; levels := (0, 100) :: tail (levels p) |} :: l
  | [] => []
  end.

Definition sound_trigger_event_alloc (index : Z) : M (option recognition_event) :=
  r ← sys sys_calloc;
  if r =? 0 then mret None
  else
    model ← nth_of model_handles index;
    config ← nth_of configs index;
    mret (Some {|
      event_status := RECOGNITION_STATUS_SUCCESS; event_type := SOUND_MODEL_TYPE_KEYPHRASE; event_model := model;
      capture_available := true; trigger_in_data := false; sample_rate := 16000;
      channel_mask := AUDIO_CHANNEL_IN_MONO; sample_format := AUDIO_FORMAT_PCM_16_BIT;
      event_num_phrases := 1; phrase_extras := event_phrases config |}).

Definition sound_trigger_generic_event_alloc (index : Z) : M (option recognition_event) :=
  r ← sys sys_calloc;
  if r =? 0 then mret None
  else
    model ← nth_of model_handles index;
    mret (Some {|
      event_status := RECOGNITION_STATUS_SUCCESS; event_type := SOUND_MODEL_TYPE_GENERIC; event_model := model;
      capture_available := true; trigger_in_data := false; sample_rate := 16000;
      channel_mask := AUDIO_CHANNEL_IN_MONO; sample_format := AUDIO_FORMAT_PCM_16_BIT;
      event_num_phrases := 0; phrase_extras := [] |}).
End power.
