(* ===== verification/SthOps.v ===== *)
(** * Sound trigger: the operations

    The entry points of [src/libaudio/sthal/sound_trigger_hw.c] and its callback
    thread, as programs with their mutexes.  A stretch of code between two
    synchronisations is one step, except where the source reads or writes shared
    fields without the mutex that guards them ([stdev_stop_recognition] before it has
    [lock], the reading of samples): there every access is a step. *)

From Stdlib Require Import String.
From S2P Require Import Prelude Effects Threads SthData SthPower.

Section operations.
Context `{SoundTriggerConf, SoundTriggerInterface, SoundTriggerEnv}.

(** [pthread_mutex_lock], the body, and [pthread_mutex_unlock] at [exit]. *)
Definition with_mutex {A} (m : sth_mutex) (p : P A) : P A :=
  mutex_lock m ;; a ← p; mutex_unlock m ;; mret a.

(** ** The callback thread *)

(** The result is a negative error number. *)
Definition stdev_start_callback_thread : P Z :=
  d ← act get;
  if callback_thread_active d then mret 0
  else
    r ← act (
      stdev_close_callback_thread_sockets ;;
      r ← sys sys_socketpair;
      if r =? -1 then e ← stored errno; mret (Some e)
      else
        fds ← stored socket_fds;
        put (fun d => d <| send_socket := fst fds |> <| term_socket := snd fds |>) ;;
        u ← sys uevent_open_socket;
        put (fun d => d <| uevent_socket := u |>) ;;
        if u =? -1 then e ← stored errno; mret (Some e)
        else
          put (fun d => d <| callback_thread_active := true |>) ;;
          r ← sys pthread_create;
          mret (if negb (r =? 0) then Some r else None));
    match r with
    | None => t ← create; act (put (fun d => d <| callback_thread := t |>)) ;; mret 0
    | Some e =>
        act (put (fun d => d <| callback_thread_active := false |>) ;; stdev_close_callback_thread_sockets) ;;
        mret (- e)
    end.

Definition stdev_join_callback_thread (keep_vts_powered : bool) : P unit :=
  d ← act get;
  (if callback_thread_active d then
     act (sys (sys_write (send_socket d) "T")) ;;
     mutex_unlock lock ;;
     join (callback_thread d) ;;
     mutex_lock lock
   else mret tt) ;;
  act ((if negb keep_vts_powered then stdev_vts_set_power 0 else mret tt) ;; stdev_close_callback_thread_sockets).

Definition stdev_init_mixer : M Z :=
  m ← sys (mixer_open VTS_MIXER_CARD);
  put (fun d => d <| mixer := m |>) ;;
  mret (if m =? 0 then -1 else 0).

Definition stdev_close_mixer : P unit :=
  act (stdev_vts_set_power 0) ;;
  stdev_join_callback_thread false ;;
  act (d ← get; sys (mixer_close (mixer d)) ;; mret tt).

(** ** Recognition that is stopped *)

(** The loop of [handle_stop_recognition_l], for the model [i]. *)
Definition handle_stop_model (i : Z) : M unit :=
  state ← nth_of model_execstate i;
  failed ← nth_of model_stopfailedhandles i;
  (if (state =? MODEL_STATE_STOPABORT) && (failed =? i) then
     callback ← nth_of recognition_callbacks i;
     d ← get;
     (if (callback =? 0) && negb (has_bit (is_streaming d) i) then mret tt
      else
        put_at configs (fun l d => d <| configs := l |>) i None ;;
        put_at recognition_callbacks (fun l d => d <| recognition_callbacks := l |>) i 0) ;;
     if (is_streaming d =? 0) || has_bit (is_streaming d) i then
       stdev_vts_set_power 0 ;;
       active_bitmask ← stdev_active_callback_bitmask;
       if negb (active_bitmask =? 0) then stdev_vts_set_power active_bitmask else mret tt
     else mret tt
   else mret tt) ;;
  put_at model_execstate (fun l d => d <| model_execstate := l |>) i MODEL_STATE_NONE ;;
  put_at model_stopfailedhandles (fun l d => d <| model_stopfailedhandles := l |>) i HANDLE_NONE.

Definition handle_stop_recognition_l : M unit := handle_stop_model HOTWORD_INDEX ;; handle_stop_model SVOICE_INDEX.

Definition stop_failed (d : stdev) : bool :=
  negb (at_hotword (model_stopfailedhandles d) =? HANDLE_NONE) || negb (at_svoice (model_stopfailedhandles d) =? HANDLE_NONE).

(** [handle < 0 || handle >= MAX_SOUND_MODELS || model_handles[handle] != handle] *)
Definition bad_handle (d : stdev) (handle : Z) : bool :=
  match elem_at (model_handles d) handle with Some h => negb (h =? handle) | None => true end.

(** The result of the first part is an early return, or whether the VTS must be told,
    and the models that remain. *)
Definition stop_recognition_checks (handle : Z) : M (Z + bool * Z) :=
  d ← get;
  if voicecall_state d =? VOICECALL_STARTED then mret (inl 0)
  else if bad_handle d handle then mret (inl (- ENOSYS))
  else
    callback ← nth_of recognition_callbacks handle;
    if (callback =? 0) && negb (has_bit (is_streaming d) handle) then mret (inl (- ENOSYS))
    else
      put_at configs (fun l d => d <| configs := l |>) handle None ;;
      put_at recognition_callbacks (fun l d => d <| recognition_callbacks := l |>) handle 0 ;;
      active_bitmask ← stdev_active_callback_bitmask;
      mret (inr ((is_streaming d =? 0) || has_bit (is_streaming d) handle, active_bitmask)).

Definition stdev_stop_recognition_l (handle : Z) : P Z :=
  r ← act (stop_recognition_checks handle);
  match r with
  | inl ret => mret ret
  | inr (reconfigure, active_bitmask) =>
      (if (reconfigure : bool) then
         if active_bitmask =? 0 then stdev_join_callback_thread false
         else act (stdev_vts_set_power 0 ;; stdev_vts_set_power active_bitmask)
       else mret tt) ;;
      act (
        put_at model_stopfailedhandles (fun l d => d <| model_stopfailedhandles := l |>) handle HANDLE_NONE ;;
        put_at model_execstate (fun l d => d <| model_execstate := l |>) handle MODEL_STATE_NONE) ;;
      mret 0
  end.

(** The assignments when the recognition cannot be stopped now; [handle] is an index
    here whether it has been checked or not. *)
Definition stop_aborted (handle : Z) : P unit :=
  act (put_at model_stopfailedhandles (fun l d => d <| model_stopfailedhandles := l |>) handle handle) ;;
  act (put_at model_execstate (fun l d => d <| model_execstate := l |>) handle MODEL_STATE_STOPABORT).

(** The loop of attempts to lock; the result is an early return, or nothing with
    [lock] held.  At most [retries] attempts remain. *)
Fixpoint stop_retry (handle retry_count : Z) (retries : nat) : P (option Z) :=
  let retry_count := retry_count + 1 in
  d ← act get;
  if recog_cbstate d =? RECOG_CB_CALLED then
    d ← act get;
    if voicecall_state d =? VOICECALL_STARTED then mret (Some 0)
    else
      d ← act get;
      if bad_handle d handle then mret (Some (- ENOSYS))
      else stop_aborted handle ;; mret (Some (- EBUSY))
  else if 100 <? retry_count then stop_aborted handle ;; mret (Some (- ENOSYS))
  else
    act (sys (sys_usleep 1000)) ;;
    locked ← mutex_trylock lock;
    if (locked : bool) then mret None
    else match retries with S retries => stop_retry handle retry_count retries | O => act undefined end.

Definition stdev_stop_recognition (handle : Z) : P Z :=
  locked ← mutex_trylock lock;
  early ← (if (locked : bool) then mret None else stop_retry handle 0 100);
  match early with
  | Some ret => mret ret
  | None =>
      mutex_lock trigger_lock ;;
      ret ← stdev_stop_recognition_l handle;
      mutex_unlock trigger_lock ;;
      mutex_unlock lock ;;
      mret ret
  end.

(** ** Models *)

(** Which model an identifier stands for. *)
Definition model_index_of (u : uuid) : option Z :=
  if decide (u = bixby_uuid) then Some SVOICE_INDEX
  else if decide (u = hotword_uuid) then Some HOTWORD_INDEX
  else None.

(** The result is that of the function, and what it stores in [*handle]. *)
Definition load_sound_model (handle_given : bool) (model : option sound_model) (callback cookie : Z) : M (Z * option Z) :=
  let fail e : M (Z * option Z) := mret (e, None) in
  match handle_given, model with
  | true, Some sm =>
      if (data_size sm =? 0) || (data_offset sm <? sizeof_sound_model) then fail (- EINVAL)
      else if negb ((model_type sm =? SOUND_MODEL_TYPE_KEYPHRASE) || (model_type sm =? SOUND_MODEL_TYPE_GENERIC)) then
        fail (- EINVAL)
      else
        match model_index_of (vendor_uuid sm) with
        | None => fail (- EINVAL)
        | Some model_index =>
            (if model_type sm =? SOUND_MODEL_TYPE_KEYPHRASE then
               put (fun d => d <| is_generic := Z.land (is_generic d) (Z.lnot (bit model_index)) |>)
             else put (fun d => d <| is_generic := Z.lor (is_generic d) (bit model_index) |>)) ;;
            loaded ← nth_of model_handles model_index;
            if negb (loaded =? -1) then fail (- ENOSYS)
            else
              (if Z.of_nat (length (model_data sm)) <? data_size sm then undefined else mret tt) ;;
              ret ← vts_load_sound_model (take (Z.to_nat (data_size sm)) (model_data sm)) model_index;
              if negb (ret =? 0) then fail ret
              else
                put_at model_handles (fun l d => d <| model_handles := l |>) model_index model_index ;;
                put_at sound_model_callbacks (fun l d => d <| sound_model_callbacks := l |>) model_index callback ;;
                put_at sound_model_cookies (fun l d => d <| sound_model_cookies := l |>) model_index cookie ;;
                mret (0, Some model_index)
        end
  | _, _ => fail (- EINVAL)
  end.

Definition stdev_load_sound_model (handle_given : bool) (model : option sound_model) (callback cookie : Z) : P (Z * option Z) :=
  with_mutex lock (act (load_sound_model handle_given model callback cookie)).

(** The checks of [stdev_unload_sound_model]: an early return, or whether the
    recognition must be stopped. *)
Definition unload_checks (handle : Z) : M (Z + bool) :=
  d ← get;
  match elem_at (model_handles d) handle, elem_at (recognition_callbacks d) handle with
  | Some h, Some callback =>
      if negb (h =? handle) then mret (inl (- ENOSYS))
      else mret (inr (negb (callback =? 0) || has_bit (is_streaming d) handle))
  | _, _ => mret (inl (- EINVAL))
  end.

Definition stdev_unload_sound_model (handle : Z) : P Z :=
  with_mutex lock (
    r ← act (unload_checks handle);
    match r with
    | inl ret => mret ret
    | inr running =>
        ret ← (if (running : bool) then stdev_stop_recognition_l handle else mret 0);
        act (put_at model_handles (fun l d => d <| model_handles := l |>) handle (-1)) ;;
        mret ret
    end).

(** ** Recognition that is started *)

(** The first part of [stdev_start_recognition]: an early return, or the configuration
    in place. *)
Definition start_checks (handle : Z) (config : option recognition_config) : M (option Z) :=
  d ← get;
  if bad_handle d handle then mret (Some (- ENOSYS))
  else
    callback ← nth_of recognition_callbacks handle;
    (if negb (callback =? 0) && stop_failed d then handle_stop_recognition_l else mret tt) ;;
    d ← get;
    if voicecall_state d =? VOICECALL_STARTED then mret (Some (- EBUSY))
    else
      match config with
      | None => mret None
      | Some c =>
          r ← sys sys_malloc;
          if r =? 0 then
            put_at configs (fun l d => d <| configs := l |>) handle None ;; mret (Some (- ENOMEM))
          else
            put_at configs (fun l d => d <| configs := l |>) handle (Some c) ;;
            (if 0 <? config_data_size c then
               put (fun d => d <| backlog_size := 0 |> <| svoicemodel_mode := SVOICE_UNKNOWN_MODE |>) ;;
               ParseExtraConfigData (config_data c)
             else mret tt) ;;
            mret None
      end.

(** The last part: the callback, the VTS, and the state of the model. *)
Definition start_model (handle callback cookie : Z) : M unit :=
  put_at recognition_callbacks (fun l d => d <| recognition_callbacks := l |>) handle callback ;;
  put_at recognition_cookies (fun l d => d <| recognition_cookies := l |>) handle cookie ;;
  d ← get;
  (if (is_streaming d =? 0) || has_bit (is_streaming d) handle then
     stdev_vts_set_power 0 ;;
     active_bitmask ← stdev_active_callback_bitmask;
     stdev_vts_set_power active_bitmask
   else mret tt) ;;
  put_at model_stopfailedhandles (fun l d => d <| model_stopfailedhandles := l |>) handle HANDLE_NONE ;;
  put_at model_execstate (fun l d => d <| model_execstate := l |>) handle MODEL_STATE_RUNNING.

Definition start_recognition (handle : Z) (config : option recognition_config) (callback cookie : Z) : P Z :=
  early ← act (start_checks handle config);
  match early with
  | Some ret => mret ret
  | None =>
      ret ← stdev_start_callback_thread;
      if negb (ret =? 0) then mret ret
      else act (start_model handle callback cookie) ;; mret ret
  end.

Definition stdev_start_recognition (handle : Z) (config : option recognition_config) (callback cookie : Z) : P Z :=
  with_mutex lock (with_mutex trigger_lock (start_recognition handle config callback cookie)).

(** The same with a configuration that begins with a header. *)
Definition stdev_start_recognition_extended (handle : Z) (config : option recognition_config) (callback cookie : Z) : P Z :=
  with_mutex lock (with_mutex trigger_lock (start_recognition handle config callback cookie)).
End operations.
