(* ===== verification/SthStream.v ===== *)
(** * Sound trigger: streaming, recording, events and the life of the device

    The entry points of [src/libaudio/sthal/sound_trigger_hw.c] for the audio HAL, the
    callback thread, and [stdev_open] and [stdev_close]. *)

From Stdlib Require Import String.
From S2P Require Import Prelude Effects Threads SthData SthPower SthOps.

Section operations.
Context `{SoundTriggerConf, SoundTriggerInterface, SoundTriggerEnv}.

(** A negative [int] as a [size_t]. *)
Definition size_t (z : Z) : Z := z `mod` 2 ^ 64.

(** ** Streaming after a trigger *)

Definition open_for_streaming : M Z :=
  d ← get;
  if negb (sthal_opened d) then mret (- EFAULT)
  else if voicecall_state d =? VOICECALL_STARTED then mret (- EBUSY)
  else if is_streaming d =? 0 then mret (- EBUSY)
  else if is_seamless_recording d then mret (- EBUSY)
  else
    p ← open_pcm VTS_SOUND_CARD VTS_TRICAP_DEVICE_NODE;
    put (fun d => d <| streaming_pcm := p |>) ;;
    ready ← (if p =? 0 then mret true else ready_pcm p);
    if negb ready then mret (- EFAULT)
    else put (fun d => d <| is_seamless_recording := true |>) ;; mret 1.

Definition sound_trigger_open_for_streaming : P Z :=
  with_mutex lock (with_mutex trigger_lock (act open_for_streaming)).

(** Without [lock]: every access to the device is a step. *)
Definition sound_trigger_read_samples (audio_handle buffer_len : Z) : P Z :=
  if audio_handle <=? 0 then mret (size_t (- EINVAL))
  else with_mutex trigger_lock (
    d ← act get;
    if negb (sthal_opened d) then mret (size_t (- EFAULT))
    else
      d ← act get;
      if voicecall_state d =? VOICECALL_STARTED then mret (size_t (- EBUSY))
      else
        d ← act get;
        if is_streaming d =? 0 then mret (size_t (- EINVAL))
        else
          d ← act get;
          if negb (streaming_pcm d =? 0) then
            ret ← act (d ← get; read_pcm (streaming_pcm d) buffer_len);
            (if ret =? 0 then mret tt else act (d ← get; pcm_get_error (streaming_pcm d))) ;;
            mret (size_t ret)
          else mret 0).

(** The result of the first part is an early return, or the models that go on. *)
Definition close_streaming : M (Z + Z) :=
  d ← get;
  if negb (sthal_opened d) then mret (inl (- EFAULT))
  else if voicecall_state d =? VOICECALL_STARTED then mret (inl (- EBUSY))
  else if negb (is_seamless_recording d) then mret (inl (- EINVAL))
  else if is_streaming d =? 0 then mret (inl (- EINVAL))
  else
    d ← get;
    close_pcm (streaming_pcm d) ;;
    put (fun d => d <| streaming_pcm := 0 |> <| is_seamless_recording := false |>) ;;
    active_bitmask ← stdev_active_callback_bitmask;
    stdev_vts_set_power 0 ;;
    mret (inr active_bitmask).

Definition sound_trigger_close_for_streaming (audio_handle : Z) : P Z :=
  if audio_handle <=? 0 then mret (- EINVAL)
  else with_mutex lock (with_mutex trigger_lock (
    r ← act close_streaming;
    match r with
    | inl ret => mret ret
    | inr active_bitmask =>
        (if negb (active_bitmask =? 0) then
           stdev_start_callback_thread ;;
           act (stdev_vts_set_power active_bitmask)
         else mret tt) ;;
        mret 0
    end)).

(** ** Recording *)

(** The microphone is turned off unless something needs it. *)
Definition release_mic : M unit :=
  active_bitmask ← stdev_active_callback_bitmask;
  d ← get;
  if (active_bitmask =? 0) && (is_streaming d =? 0) then stdev_vts_set_mic false else mret tt.

Definition close_recording_pcm : M unit :=
  d ← get;
  if negb (recording_pcm d =? 0) then close_pcm (recording_pcm d) ;; put (fun d => d <| recording_pcm := 0 |>)
  else mret tt.

Definition open_recording : M Z :=
  d ← get;
  if negb (sthal_opened d) then mret (- EFAULT)
  else if voicecall_state d =? VOICECALL_STARTED then mret (- EBUSY)
  else
    (if is_recording d then
       close_recording_pcm ;; release_mic ;; put (fun d => d <| is_recording := false |>)
     else mret tt) ;;
    stdev_vts_set_mic true ;;
    p ← open_pcm VTS_SOUND_CARD VTS_RECORD_DEVICE_NODE;
    put (fun d => d <| recording_pcm := p |>) ;;
    ready ← (if p =? 0 then mret true else ready_pcm p);
    if negb ready then mret (- EFAULT)
    else put (fun d => d <| is_recording := true |>) ;; mret 1.

Definition sound_trigger_open_recording : P Z :=
  with_mutex lock (with_mutex recording_lock (act open_recording)).

(** Without [lock]: every access to the device is a step. *)
Definition sound_trigger_read_recording_samples (buffer_len : Z) : P Z :=
  with_mutex recording_lock (
    d ← act get;
    if negb (sthal_opened d) then mret (size_t (- EFAULT))
    else
      d ← act get;
      if voicecall_state d =? VOICECALL_STARTED then mret (size_t (- EBUSY))
      else
        d ← act get;
        if negb (is_recording d) then mret (size_t (- EINVAL))
        else
          d ← act get;
          if negb (recording_pcm d =? 0) then
            ret ← act (d ← get; read_pcm (recording_pcm d) buffer_len);
            (if ret =? 0 then mret tt else act (d ← get; pcm_get_error (recording_pcm d))) ;;
            mret (size_t ret)
          else mret 0).

Definition close_recording : M Z :=
  d ← get;
  if negb (sthal_opened d) then mret (- EFAULT)
  else if voicecall_state d =? VOICECALL_STARTED then mret (- EBUSY)
  else
    (if stop_failed d then handle_stop_recognition_l else mret tt) ;;
    d ← get;
    if negb (is_recording d) then mret (- EINVAL)
    else
      d ← get;
      close_pcm (recording_pcm d) ;;
      put (fun d => d <| recording_pcm := 0 |>) ;;
      release_mic ;;
      put (fun d => d <| is_recording := false |>) ;;
      mret 0.

Definition sound_trigger_close_recording : P Z :=
  with_mutex lock (with_mutex recording_lock (act close_recording)).

(** ** Headset and voice calls *)

(** [if (pcm) { lock; pcm_close; pcm = NULL; unlock }]: the test is made without the
    mutex. *)
Definition close_recording_locked : P unit :=
  d ← act get;
  if negb (recording_pcm d =? 0) then
    with_mutex recording_lock (act (
      d ← get; close_pcm (recording_pcm d) ;; put (fun d => d <| recording_pcm := 0 |>)))
  else mret tt.
Definition close_streaming_locked : P unit :=
  d ← act get;
  if negb (streaming_pcm d =? 0) then
    with_mutex trigger_lock (act (
      d ← get; close_pcm (streaming_pcm d) ;; put (fun d => d <| streaming_pcm := 0 |>)))
  else mret tt.

(** The recording goes on with the other microphone; the result is an error. *)
Definition reopen_recording : M Z :=
  d ← get;
  if is_recording d then
    stdev_vts_set_mic true ;;
    if recording_pcm d =? 0 then
      p ← open_pcm VTS_SOUND_CARD VTS_RECORD_DEVICE_NODE;
      put (fun d => d <| recording_pcm := p |>) ;;
      ready ← (if p =? 0 then mret true else ready_pcm p);
      mret (if negb ready then - EFAULT else 0)
    else mret 0
  else mret 0.

(** So does the stream. *)
Definition reopen_streaming : M Z :=
  d ← get;
  if negb (is_streaming d =? 0) && is_seamless_recording d && (streaming_pcm d =? 0) then
    p ← open_pcm VTS_SOUND_CARD VTS_TRICAP_DEVICE_NODE;
    put (fun d => d <| streaming_pcm := p |>) ;;
    ready ← (if p =? 0 then mret true else ready_pcm p);
    mret (if negb ready then - EFAULT else 0)
  else mret 0.

Definition set_active_mic (is_connected : bool) : M unit :=
  put (fun d => d <| active_mic := if is_connected then VTS_HEADSET_MIC else VTS_MAIN_MIC |>).

(** The VTS is turned off and on again with the other microphone, and the state that
    was there before restored. *)
Definition switch_mic (is_connected : bool) (before : stdev) : M unit :=
  active_bitmask ← stdev_active_callback_bitmask;
  stdev_vts_set_power 0 ;;
  set_active_mic is_connected ;;
  put (fun d => d <| is_recording := is_recording before |>) ;;
  if negb (active_bitmask =? 0) || negb (is_streaming before =? 0) then
    stdev_vts_set_power (Z.lor active_bitmask (is_streaming before)) ;;
    put (fun d => d <| is_streaming := is_streaming before |>
                    <| is_seamless_recording := is_seamless_recording before |>)
  else mret tt.

Definition sound_trigger_headset_status (is_connected : bool) : P Z :=
  with_mutex lock (
    d ← act get;
    if negb (sthal_opened d) then mret (- EFAULT)
    else if is_mic_configured d then
      (if is_recording d then
         close_recording_locked ;; act (put (fun d => d <| is_recording := false |>))
       else mret tt) ;;
      (if negb (is_streaming d =? 0) then
         close_streaming_locked ;; act (put (fun d => d <| is_seamless_recording := false |>))
       else mret tt) ;;
      ret ← act (switch_mic is_connected d ;; reopen_recording);
      if negb (ret =? 0) then mret ret
      else
        ret ← act reopen_streaming;
        (if negb (ret =? 0) then close_recording_locked else mret tt) ;;
        mret ret
    else act (set_active_mic is_connected) ;; mret 0).

Definition sound_trigger_voicecall_status (callstate : Z) : P Z :=
  with_mutex lock (
    d ← act get;
    if negb (sthal_opened d) then mret (- EFAULT)
    else if callstate =? VOICECALL_STARTED then
      (if is_mic_configured d then
         (if is_recording d then
            close_recording_locked ;; act (put (fun d => d <| is_recording := false |>))
          else mret tt) ;;
         (if negb (is_streaming d =? 0) then
            close_streaming_locked ;;
            act (put (fun d => d <| is_seamless_recording := false |> <| is_streaming := 0 |>))
          else mret tt) ;;
         act (stdev_vts_set_power 0 ;; put (fun d => d <| recognition_callbacks := both 0 |>))
       else mret tt) ;;
      act (put (fun d => d <| voicecall_state := VOICECALL_STARTED |>)) ;; mret 0
    else act (put (fun d => d <| voicecall_state := VOICECALL_STOPPED |>)) ;; mret 0).

(** Without a mutex. *)
Definition sound_trigger_notify_ahal_record_status (state : Z) : P Z :=
  if state =? RECORDING_STOP then mret 0
  else if state =? RECORDING_START then
    d ← act get;
    (if is_mic_configured d then act (stdev_vts_set_power 0) else mret tt) ;;
    mret 0
  else mret (-1).

(** ** Properties and parameters *)

(** The result is that of the function, and what it stores in [*properties]. *)
Definition stdev_get_properties (properties_given : bool) : P (Z * option sound_trigger_properties) :=
  if negb properties_given then mret (- EINVAL, None)
  else
    v ← with_mutex lock (act (
      d ← get;
      r ← sys (ioctl_read_google_version (vtsdev_fd d));
      if r <? 0 then mret 0 else stored google_version));
    let p := hw_properties in
    mret (0, Some {|
      implementor := implementor p; description := description p; version := v;
      properties_uuid := properties_uuid p; max_sound_models := max_sound_models p;
      max_key_phrases := max_key_phrases p; max_users := max_users p; properties_modes := properties_modes p;
      capture_transition := capture_transition p; max_buffer_ms := max_buffer_ms p;
      concurrent_capture := concurrent_capture p; trigger_in_event := trigger_in_event p;
      power_consumption_mw := power_consumption_mw p |}).

Definition stdev_set_parameter (handle param value : Z) : P Z := mret 0.
Definition stdev_get_parameter (handle param : Z) : P Z := mret 0.
Definition stdev_query_parameter (handle param : Z) : P Z := mret 0.

(** ** Opening and closing *)

(** The fields that [stdev_open] assigns. *)
Definition opened_device (d : stdev) : stdev :=
  d <| send_socket := -1 |> <| term_socket := -1 |> <| uevent_socket := -1 |> <| streaming_pcm := 0 |>
    <| is_seamless_recording := false |> <| sthal_opened := true |> <| recognize_started := 0 |>
    <| is_mic_configured := false |> <| active_mic := VTS_MAIN_MIC |> <| is_recording := false |>
    <| recording_pcm := 0 |> <| voicecall_state := VOICECALL_STOPPED |> <| recog_cbstate := RECOG_CB_NONE |>
    <| model_handles := both (-1) |> <| model_execstate := both MODEL_STATE_NONE |>
    <| model_stopfailedhandles := both HANDLE_NONE |>.

(** The first part: an early return, or [hal_exit] ([true]), or what follows. *)
Definition open_device : M (Z + bool) :=
  d ← get;
  if sthal_opened d then mret (inl (- EBUSY))
  else
    fd ← sys sys_open_vts;
    put (fun d => d <| vtsdev_fd := fd |>) ;;
    if fd <? 0 then mret (inl (- EINVAL))
    else
      r ← sys (sys_mmap fd);
      if r =? -1 then
        put (fun d => d <| mapped_addr := None |>) ;; sys (sys_close fd) ;; mret (inl (- EINVAL))
      else
        put (fun d => d <| mapped_addr := Some [] |>) ;;
        ret ← stdev_init_mixer;
        if negb (ret =? 0) then mret (inl ret)
        else
          put opened_device ;;
          r ← sys sys_access;
          if r =? 0 then
            lib ← sys sys_dlopen;
            put (fun d => d <| audio_primary_lib := lib |>) ;;
            if lib =? 0 then mret (inr true)
            else
              f ← sys sys_dlsym;
              put (fun d => d <| notify_sthal_status := negb (f =? 0) |>) ;;
              mret (inr false)
          else mret (inr false).

(** Whatever happens after [stdev_init_mixer], the result is the one of that call. *)
Definition stdev_open (name : string) : P Z :=
  if negb (String.eqb name SOUND_TRIGGER_HARDWARE_INTERFACE) then mret (- EINVAL)
  else with_mutex lock (
    r ← act open_device;
    match r with
    | inl ret => mret ret
    | inr true => stdev_close_mixer ;; mret 0
    | inr false => act (set_mixer_ctrls vts_forcereset_ctlname (Some [1]) 1 false) ;; mret 0
    end).

Definition stdev_close : P Z :=
  with_mutex lock (
    d ← act get;
    if negb (sthal_opened d) then mret (- EFAULT)
    else
      stdev_join_callback_thread false ;;
      stdev_close_mixer ;;
      act (
        sys sys_munmap ;;
        d ← get;
        sys (sys_close (vtsdev_fd d)) ;;
        put (fun d => d <| mapped_addr := None |> <| vtsdev_fd := -1 |> <| recognition_callbacks := both 0 |>
                        <| sound_model_callbacks := both 0 |> <| configs := both None |> <| sthal_opened := false |>)) ;;
      mret 0).

(** ** The callback thread *)

(** The local variables of [callback_thread_loop]. *)
Record loop_locals := {
  fd0 : Z;
  fd1 : Z;
  recoveryCnt : Z
}.

Definition strstr (text pattern : string) : bool := match index 0 pattern text with Some _ => true | None => false end.

(** [exit] *)
Definition callback_exit (err : Z) : P (loop_locals + Z) :=
  act (
    d ← get;
    (if is_streaming d =? 0 then stdev_vts_set_power 0 else mret tt) ;;
    put (fun d => d <| callback_thread_active := false |> <| recog_cbstate := RECOG_CB_NONE |>)) ;;
  mutex_unlock lock ;;
  mret (inr err).

(** The end of an iteration. *)
Definition callback_continue (l : loop_locals) : P (loop_locals + Z) :=
  act (put (fun d => d <| recog_cbstate := RECOG_CB_NONE |>)) ;;
  mutex_unlock lock ;;
  mret (inl l).

(** The model of a message, if it is one of a trigger. *)
Definition trigger_of (msg : string) : option Z :=
  if strstr msg "VOICE_WAKEUP_WORD_ID=1" || strstr msg "VOICE_WAKEUP_WORD_ID=LPSD" then Some SVOICE_INDEX
  else if strstr msg "VOICE_WAKEUP_WORD_ID=2" then Some HOTWORD_INDEX
  else None.

Definition trigger_event (trigger_index : Z) : M (option recognition_event) :=
  d ← get;
  if has_bit (is_generic d) trigger_index then sound_trigger_generic_event_alloc trigger_index
  else sound_trigger_event_alloc trigger_index.

(** Whom to call, if anyone. *)
Definition trigger_callback (trigger_index : Z) : M (option (Z * Z)) :=
  state ← nth_of model_execstate trigger_index;
  callback ← nth_of recognition_callbacks trigger_index;
  cookie ← nth_of recognition_cookies trigger_index;
  if (state =? MODEL_STATE_RUNNING) && negb (callback =? 0) then
    put (fun d => d <| recog_cbstate := RECOG_CB_CALLED |>) ;; mret (Some (callback, cookie))
  else mret None.

(** What follows the callback; the result is whether the thread ends. *)
Definition trigger_finish (trigger_index : Z) : M bool :=
  state ← nth_of model_execstate trigger_index;
  config ← nth_of configs trigger_index;
  let capture := match config with Some c => capture_requested c | None => false end in
  if (state =? MODEL_STATE_RUNNING) && capture then
    put (fun d => d <| is_streaming := bit trigger_index |>) ;; mret true
  else
    d ← get;
    (if stop_failed d || (state =? MODEL_STATE_STOPABORT) then
       handle_stop_recognition_l ;;
       put_at model_execstate (fun l d => d <| model_execstate := l |>) trigger_index MODEL_STATE_NONE
     else mret tt) ;;
    active_bitmask ← stdev_active_callback_bitmask;
    if negb (active_bitmask =? 0) then
      stdev_vts_set_power 0 ;; stdev_vts_set_power active_bitmask ;; mret false
    else mret true.

(** The callback is called between two steps, with [lock] held. *)
Definition handle_trigger (trigger_index : Z) : P bool :=
  event ← act (trigger_event trigger_index);
  match event with
  | None => mret true
  | Some event =>
      whom ← act (trigger_callback trigger_index);
      (match whom with
       | Some (callback, cookie) =>
           act (sys (recognition_callback callback event cookie)) ;;
           act (put_at recognition_callbacks (fun l d => d <| recognition_callbacks := l |>) trigger_index 0)
       | None => mret tt
       end) ;;
      act (trigger_finish trigger_index)
  end.

(** The loop over the strings of a message. *)
Fixpoint handle_messages (msgs : list string) : P bool :=
  match msgs with
  | [] => mret false
  | msg :: msgs =>
      match trigger_of msg with
      | Some trigger_index =>
          ends ← handle_trigger trigger_index;
          if (ends : bool) then mret true else handle_messages msgs
      | None => handle_messages msgs
      end
  end.

(** An error of the socket: the thread opens another one, once. *)
Definition recover_socket (err : Z) (l : loop_locals) : P (loop_locals + Z) :=
  if 1 <? recoveryCnt l + 1 then callback_exit err
  else
    fd ← act (
      sys (sys_close (fd0 l)) ;;
      fd ← sys uevent_open_socket;
      put (fun d => d <| uevent_socket := fd |>) ;; mret fd);
    if fd =? -1 then callback_exit err
    else callback_continue {| fd0 := fd; fd1 := fd1 l; recoveryCnt := recoveryCnt l + 1 |}.

Definition callback_prologue : P (loop_locals + Z) :=
  d ← with_mutex lock (act (d ← get; put (fun d => d <| recog_cbstate := RECOG_CB_NONE |>) ;; mret d));
  mret (inl {| fd0 := uevent_socket d; fd1 := term_socket d; recoveryCnt := 0 |}).

Definition callback_iteration (l : loop_locals) : P (loop_locals + Z) :=
  r ← act (err ← sys (sys_poll (fd0 l) (fd1 l)); events ← stored poll_events; mret (err, events));
  let '(err, (in0, broken0, in1)) := r in
  mutex_lock lock ;;
  act (put (fun d => d <| recog_cbstate := RECOG_CB_STARTED |>)) ;;
  if err <? 0 then callback_exit err
  else if (in0 : bool) then
    r ← act (n ← sys (uevent_kernel_multicast_recv (fd0 l)); msgs ← stored uevent_strings; mret (n, msgs));
    if fst r <=? 0 then callback_continue l
    else
      ends ← handle_messages (snd r);
      if (ends : bool) then callback_exit err else callback_continue l
  else if (in1 : bool) then act (sys (sys_read (fd1 l))) ;; callback_exit err
  else if (broken0 : bool) then recover_socket err l
  else callback_continue l.

(** ** The service *)

Inductive sth_api :=
  | Sth_open (name : string)
  | Sth_close
  | Get_properties (properties_given : bool)
  | Load_sound_model (handle_given : bool) (model : option sound_model) (callback cookie : Z)
  | Unload_sound_model (handle : Z)
  | Start_recognition (handle : Z) (config : option recognition_config) (callback cookie : Z)
  | Start_recognition_extended (handle : Z) (config : option recognition_config) (callback cookie : Z)
  | Stop_recognition (handle : Z)
  | Set_parameter (handle param value : Z)
  | Get_parameter (handle param : Z)
  | Query_parameter (handle param : Z)
  | Open_for_streaming
  | Read_samples (audio_handle buffer_len : Z)
  | Close_for_streaming (audio_handle : Z)
  | Open_recording
  | Read_recording_samples (buffer_len : Z)
  | Close_recording
  | Headset_status (is_connected : bool)
  | Voicecall_status (callstate : Z)
  | Notify_ahal_record_status (state : Z).

Definition sth_perform (a : sth_api) : P Z :=
  match a with
  | Sth_open name => stdev_open name
  | Sth_close => stdev_close
  | Get_properties given => r ← stdev_get_properties given; mret (fst r)
  | Load_sound_model given model callback cookie => r ← stdev_load_sound_model given model callback cookie; mret (fst r)
  | Unload_sound_model handle => stdev_unload_sound_model handle
  | Start_recognition handle config callback cookie => stdev_start_recognition handle config callback cookie
  | Start_recognition_extended handle config callback cookie => stdev_start_recognition_extended handle config callback cookie
  | Stop_recognition handle => stdev_stop_recognition handle
  | Set_parameter handle param value => stdev_set_parameter handle param value
  | Get_parameter handle param => stdev_get_parameter handle param
  | Query_parameter handle param => stdev_query_parameter handle param
  | Open_for_streaming => sound_trigger_open_for_streaming
  | Read_samples audio_handle buffer_len => sound_trigger_read_samples audio_handle buffer_len
  | Close_for_streaming audio_handle => sound_trigger_close_for_streaming audio_handle
  | Open_recording => sound_trigger_open_recording
  | Read_recording_samples buffer_len => sound_trigger_read_recording_samples buffer_len
  | Close_recording => sound_trigger_close_recording
  | Headset_status is_connected => sound_trigger_headset_status is_connected
  | Voicecall_status callstate => sound_trigger_voicecall_status callstate
  | Notify_ahal_record_status state => sound_trigger_notify_ahal_record_status state
  end.

#[export] Instance sth_service : Service sth_world sth_mutex := {|
  api := sth_api;
  perform := sth_perform;
  loop_state := loop_locals;
  prologue := callback_prologue;
  iteration := callback_iteration |}.

Definition sth_start : config sth_world sth_mutex := {|
  world := {| dev := g_stdev; slog := [] |};
  owner := ∅;
  threads := ∅ |}.
End operations.
