(* ===== verification/SthOrder.v ===== *)
(** * Sound trigger: no deadlock without stop_recognition

    The operations take the mutexes in the order [lock], [trigger_lock],
    [recording_lock], and wait for the callback thread without a mutex; except
    [stdev_stop_recognition], which waits for it, and for [lock], with [trigger_lock]. *)

From Stdlib Require Import String.
From S2P Require Import Prelude Effects Threads ThreadRules SthData SthPower SthOps SthStream.

Definition rank (m : sth_mutex) : nat := match m with lock => 0 | trigger_lock => 1 | recording_lock => 2 end.

(** The mutexes that are held: [lock] only. *)
Definition lock_held : sth_mutex -> bool := holds none_held lock true.

Create HintDb ordered.

Section order.
Context `{SoundTriggerConf, SoundTriggerInterface, SoundTriggerEnv}.

Abbreviation neutral joins h p := (ordered rank joins h p h).

Lemma neutral_bind {A B} joins h (p : P A) (f : A -> P B) :
  neutral joins h p -> (forall a, neutral joins h (f a)) -> neutral joins h (p ≫= f).
Proof. apply ordered_bind. Qed.

Lemma neutral_with_mutex {A} joins h m (p : P A) : (forall m', h m' = true -> (rank m' < rank m)%nat) ->
  neutral joins (holds h m true) p -> neutral joins h (with_mutex m p).
Proof.
  intros R K. assert (Hm : h m = false) by (destruct (h m) eqn:E; [specialize (R m E); lia|done]).
  split; [done|]. eapply ordered_bind; [exact K|]. intros a. split.
  - unfold holds. by rewrite decide_True.
  - intros m'. unfold holds. by destruct (decide (m' = m)) as [->|].
Qed.

(** The rules follow the program; the lemmas on its parts come first. *)
Ltac order :=
  repeat first
    [ solve [auto with ordered nocore] | apply ordered_ret | apply ordered_act | apply ordered_if
    | apply neutral_with_mutex; [intros [] ?; first [done | simpl; lia]|]
    | apply neutral_bind; [|intros ?]
    | match goal with
      | |- context [match ?x with inl _ => _ | inr _ => _ end] => destruct x
      | |- context [match ?x with Some _ => _ | None => _ end] => destruct x
      | |- context [match ?x with (_, _) => _ end] => destruct x
      | |- context [if ?b then _ else _] => destruct b
      end
    | solve [intros ?; done] ].

Lemma start_thread_ordered joins h : neutral joins h stdev_start_callback_thread.
Proof. unfold stdev_start_callback_thread. order. Qed.
#[local] Hint Resolve start_thread_ordered : ordered.

Lemma join_ordered keep : neutral true lock_held (stdev_join_callback_thread keep).
Proof.
  unfold stdev_join_callback_thread. apply neutral_bind; [apply ordered_act|]. intros d.
  apply neutral_bind; [|intros ?; apply ordered_act]. apply ordered_if; [|apply ordered_ret].
  apply neutral_bind; [apply ordered_act|]. intros _. split; [done|]. split; [done|].
  split; [by intros []|]. split; [by intros []|]. by intros [].
Qed.
#[local] Hint Resolve join_ordered : ordered.

Lemma close_mixer_ordered : neutral true lock_held stdev_close_mixer.
Proof. unfold stdev_close_mixer. order. Qed.
#[local] Hint Resolve close_mixer_ordered : ordered.

Lemma stop_l_ordered handle : neutral true lock_held (stdev_stop_recognition_l handle).
Proof. unfold stdev_stop_recognition_l. order. Qed.
#[local] Hint Resolve stop_l_ordered : ordered.

Lemma start_ordered joins h handle config callback cookie :
  neutral joins h (start_recognition handle config callback cookie).
Proof. unfold start_recognition. order. Qed.
#[local] Hint Resolve start_ordered : ordered.

(** ** The callback thread *)

Lemma exit_ordered err : ordered rank false lock_held (callback_exit err) none_held.
Proof. unfold callback_exit. eapply ordered_bind; [apply ordered_act|]. intros []. split; [done|]. by intros []. Qed.

Lemma continue_ordered l : ordered rank false lock_held (callback_continue l) none_held.
Proof. unfold callback_continue. eapply ordered_bind; [apply ordered_act|]. intros []. split; [done|]. by intros []. Qed.

Lemma trigger_ordered joins h i : neutral joins h (handle_trigger i).
Proof. unfold handle_trigger. order. Qed.
#[local] Hint Resolve trigger_ordered : ordered.

Lemma messages_ordered joins h msgs : neutral joins h (handle_messages msgs).
Proof. induction msgs as [|msg msgs IH]; cbn [handle_messages]; order. Qed.

Lemma prologue_ordered : ordered rank false none_held callback_prologue none_held.
Proof. unfold callback_prologue. order. Qed.

Lemma iteration_ordered l : ordered rank false none_held (callback_iteration l) none_held.
Proof.
  unfold callback_iteration. eapply ordered_bind; [apply ordered_act|]. intros [err [[in0 broken0] in1]].
  assert (X : forall p : P (loop_locals + Z), ordered rank false lock_held p none_held ->
    ordered rank false none_held (mutex_lock lock ;; act (put (fun d => d <| recog_cbstate := RECOG_CB_STARTED |>)) ;; p) none_held).
  { intros p Hp. split; [done|]. intros []. exact Hp. }
  apply X. destruct (err <? 0); [apply exit_ordered|]. destruct in0.
  { eapply ordered_bind; [apply ordered_act|]. intros r. destruct (_ <=? _); [apply continue_ordered|].
    eapply ordered_bind; [apply messages_ordered|]. intros []; [apply exit_ordered|apply continue_ordered]. }
  destruct in1; [eapply ordered_bind; [apply ordered_act|]; intros; apply exit_ordered|].
  destruct broken0; [|apply continue_ordered]. unfold recover_socket. destruct (_ <? _); [apply exit_ordered|].
  eapply ordered_bind; [apply ordered_act|]. intros fd. destruct (_ =? _); [apply exit_ordered|apply continue_ordered].
Qed.

(** ** The calls *)

Definition no_stop (t : nat) (a : sth_api) : Prop := match a with Stop_recognition _ => False | _ => True end.

Lemma calls_ordered t a : no_stop t a -> ordered rank true none_held (sth_perform a) none_held.
Proof.
  intros Ha. destruct a; try done; unfold sth_perform.
  - unfold stdev_open. order.
  - unfold stdev_close. order.
  - unfold stdev_get_properties. order.
  - unfold stdev_load_sound_model. order.
  - unfold stdev_unload_sound_model. order.
  - unfold stdev_start_recognition. order.
  - unfold stdev_start_recognition_extended. order.
  - unfold sound_trigger_open_for_streaming. order.
  - unfold sound_trigger_read_samples. order.
  - unfold sound_trigger_close_for_streaming. order.
  - unfold sound_trigger_open_recording. order.
  - unfold sound_trigger_read_recording_samples. order.
  - unfold sound_trigger_close_recording. order.
  - unfold sound_trigger_headset_status, close_recording_locked, close_streaming_locked. order.
  - unfold sound_trigger_voicecall_status, close_recording_locked, close_streaming_locked. order.
  - unfold sound_trigger_notify_ahal_record_status. order.
Qed.
End order.
