(* ===== verification/SthRecord.v ===== *)
(** * Sound trigger: the PCM devices

    Which PCM devices are open ([pcm_inv]), in all interleavings, and what a thread may
    rely on while it holds [recording_lock] ([recording_stays]). *)

From Stdlib Require Import String.
From S2P Require Import Prelude Effects Threads ThreadRules SthData SthPower SthOps SthStream.

(** What the code relies on: [pcm_open] of tinyalsa gives a device of its own, never
    [NULL], which need not be ready (the code tests for both), and the control arrays of the product are as long as it says. *)
Class SoundTriggerLaws `{SoundTriggerConf, SoundTriggerEnv} : Prop := {
  pcm_open_fresh l card device :
    sth_answer l (pcm_open card device) <> 0 /\ sth_answer l (pcm_open card device) ∉ open_pcms l;
  main_mic_arrays : length main_mic_ctlname = MAIN_MIC_CONTROL_COUNT /\ length main_mic_ctlvalue = MAIN_MIC_CONTROL_COUNT;
  headset_mic_arrays :
    length headset_mic_ctlname = HEADSET_MIC_CONTROL_COUNT /\ length headset_mic_ctlvalue = HEADSET_MIC_CONTROL_COUNT
}.

Definition pcm_inv (w : sth_world) : Prop :=
  (recording_pcm (dev w) <> 0 -> recording_pcm (dev w) ∈ open_pcms (slog w)) /\
  (streaming_pcm (dev w) <> 0 -> streaming_pcm (dev w) ∈ open_pcms (slog w)) /\
  (recording_pcm (dev w) <> 0 -> recording_pcm (dev w) <> streaming_pcm (dev w)).

Definition recording_stays (w w' : sth_world) : Prop :=
  recording_pcm (dev w) <> 0 -> recording_pcm (dev w') = recording_pcm (dev w).

(** Operations that leave the recording alone, and operations that leave it alone if
    there is one. *)
Definition quiet {A} (o : M A) : Prop :=
  forall w x w', pcm_inv w -> o w = Some (x, w') -> pcm_inv w' /\ recording_pcm (dev w') = recording_pcm (dev w).
Definition calm {A} (o : M A) : Prop :=
  forall w x w', pcm_inv w -> o w = Some (x, w') -> pcm_inv w' /\ recording_stays w w'.

(** Calls that neither open nor close a PCM device. *)
Definition no_pcm (c : sth_call) : bool := match c with pcm_open _ _ | pcm_close _ => false | _ => true end.

(** Assignments to other fields than the PCM devices. *)
Definition pcm_kept (f : stdev -> stdev) : Prop := forall d,
  recording_pcm (f d) = recording_pcm d /\ streaming_pcm (f d) = streaming_pcm d.

Create HintDb quiet.

Section quiet.
Context `{SoundTriggerConf, SoundTriggerInterface, SoundTriggerEnv}.

Lemma quiet_ret {A} (a : A) : quiet (mret a).
Proof. by intros w x w' Hw [= _ <-]. Qed.

Lemma quiet_undefined {A} : quiet (A:=A) undefined.
Proof. by intros w x w' Hw [=]. Qed.

Lemma quiet_bind {A B} (o : M A) (k : A -> M B) : quiet o -> (forall a, quiet (k a)) -> quiet (o ≫= k).
Proof.
  intros Ho Hk w x w' Hw (a & w1 & E1 & E2)%bind_inv. destruct (Ho w a w1 Hw E1) as [H1' S1].
  destruct (Hk a w1 x w' H1' E2) as [H2' S2]. split; [done|]. by rewrite S2.
Qed.

Lemma quiet_calm {A} (o : M A) : quiet o -> calm o.
Proof. intros Ho w x w' Hw E. destruct (Ho w x w' Hw E). by split; [|intros _]. Qed.

Lemma calm_bind {A B} (o : M A) (k : A -> M B) : calm o -> (forall a, calm (k a)) -> calm (o ≫= k).
Proof.
  intros Ho Hk w x w' Hw (a & w1 & E1 & E2)%bind_inv. destruct (Ho w a w1 Hw E1) as [H1' S1].
  destruct (Hk a w1 x w' H1' E2) as [H2' S2]. split; [done|]. intros Hr. rewrite S2, S1; [done|done|]. by rewrite S1.
Qed.

Lemma quiet_if {A} (b : bool) (o o' : M A) : quiet o -> quiet o' -> quiet (if b then o else o').
Proof. by destruct b. Qed.

Lemma quiet_get : quiet get.
Proof. by intros w x w' Hw [= <- <-]. Qed.

Lemma quiet_stored {A} (f : sth_log -> A) : quiet (stored f).
Proof. by intros w x w' Hw [= <- <-]. Qed.

Lemma quiet_put f : pcm_kept f -> quiet (put f).
Proof.
  intros Hf w x w' Hw [= _ <-]. destruct (Hf (dev w)) as [E1 E2]. unfold pcm_inv, recording_stays. simpl.
  by rewrite E1, E2.
Qed.

Lemma quiet_nth_of {A} (field : stdev -> per_model A) i : quiet (nth_of field i).
Proof. intros w x w' Hw E. unfold nth_of in E. destruct (elem_at _ _); [by injection E as <- <-|done]. Qed.

Lemma quiet_put_at {A} (field : stdev -> per_model A) assign i a : (forall l, pcm_kept (assign l)) ->
  quiet (put_at field assign i a).
Proof.
  intros Hf w x w' Hw E. unfold put_at in E. destruct (set_at _ _ _) as [l|]; [|done].
  injection E as <- <-. exact (quiet_put (assign l) (Hf l) w tt _ Hw eq_refl).
Qed.

Lemma quiet_sys c : no_pcm c = true -> quiet (sys c).
Proof.
  intros Hc w x w' Hw [= <- <-]. unfold pcm_inv. by destruct c.
Qed.

Lemma quiet_array_at {A} (l : list A) i : quiet (array_at l i).
Proof. unfold array_at. destruct (if 0 <=? i then _ else _); [apply quiet_ret|apply quiet_undefined]. Qed.

Lemma quiet_is_open p : quiet (is_open p).
Proof. intros w x w' Hw E. unfold is_open in E. destruct (decide _); [by injection E as <- <-|done]. Qed.

Lemma quiet_read p len : quiet (read_pcm p len).
Proof. apply quiet_bind; [apply quiet_is_open|intros; by apply quiet_sys]. Qed.
End quiet.

#[export] Hint Resolve quiet_ret quiet_undefined quiet_get quiet_stored quiet_nth_of quiet_array_at quiet_is_open quiet_read : quiet.

(** The rules follow the operation; the lemmas on its parts come first. *)
Ltac quiet :=
  repeat first
    [ solve [auto with quiet nocore]
    | apply quiet_sys; reflexivity
    | apply quiet_put; intros ?; done
    | apply quiet_put_at; intros ? ?; done
    | apply quiet_if
    | apply quiet_bind; [|intros ?]
    | match goal with
      | |- quiet (match ?x with inl _ => _ | inr _ => _ end) => destruct x
      | |- quiet (match ?x with Some _ => _ | None => _ end) => destruct x
      | |- quiet (match ?x with (_, _) => _ end) => destruct x
      end ].

Section operations.
Context `{SoundTriggerLaws, !SoundTriggerInterface}.

Lemma ctrls_quiet names values reverse count i ret : quiet (set_ctrls_loop names values reverse count i ret).
Proof. revert i ret. induction count as [|count IH]; intros i ret; cbn [set_ctrls_loop]; quiet. Qed.
#[local] Hint Resolve ctrls_quiet : quiet.

Lemma mixer_quiet names values count reverse : quiet (set_mixer_ctrls names values count reverse).
Proof. unfold set_mixer_ctrls. quiet. Qed.
#[local] Hint Resolve mixer_quiet : quiet.

Lemma mic_quiet b : quiet (stdev_vts_set_mic b).
Proof. unfold stdev_vts_set_mic. quiet. Qed.
#[local] Hint Resolve mic_quiet : quiet.

(** Closing the streaming device, and forgetting it. *)
Lemma close_stream_quiet {A} f (o : M A) :
  (forall d, recording_pcm (f d) = recording_pcm d /\ streaming_pcm (f d) = 0) -> quiet o ->
  quiet (d ← get; close_pcm (streaming_pcm d) ;; put f ;; o).
Proof.
  intros Hf Ho w x w' Hw (d & w1 & [= <- <-] & E)%bind_inv. apply bind_inv in E as ([] & w1 & E1 & E).
  apply bind_inv in E as ([] & w4 & E2 & E).
  unfold close_pcm in E1. apply bind_inv in E1 as ([] & w2 & E1 & E3). unfold is_open in E1.
  destruct (decide _) as [Hopen|]; [|done]. injection E1 as <-.
  apply bind_inv in E3 as (r & w3 & [= <- <-] & [= <-]). injection E2 as <-.
  destruct Hw as (W1 & W2 & W3). destruct (Hf (dev w)) as [F1 F2].
  refine (_ (Ho _ x w' _ E)); [simpl; by rewrite F1|].
  clear Hf Ho E. unfold pcm_inv. simpl. rewrite F1, F2. split; [set_solver|]. done.
Qed.

Lemma close_streaming_pcm_quiet : quiet close_streaming_pcm.
Proof.
  intros w x w' Hw E. unfold close_streaming_pcm in E. apply bind_inv in E as (d & w1 & [= <- <-] & E).
  destruct (negb _); [|by injection E as <- <-].
  eapply (close_stream_quiet (fun d => d <| streaming_pcm := 0 |>) (mret tt)); [done|apply quiet_ret|exact Hw|].
  unfold mbind, ST_bind, get in *. destruct (close_pcm _ w) as [[[] w1]|]; [|done]. exact E.
Qed.
#[local] Hint Resolve close_streaming_pcm_quiet : quiet.

Lemma power_quiet mask : quiet (stdev_vts_set_power mask).
Proof.
  unfold stdev_vts_set_power, start_hotword, start_svoice, stop_hotword, stop_svoice, notify. quiet.
Qed.
#[local] Hint Resolve power_quiet : quiet.

Lemma sockets_quiet : quiet stdev_close_callback_thread_sockets.
Proof. unfold stdev_close_callback_thread_sockets, close_socket. quiet. Qed.
#[local] Hint Resolve sockets_quiet : quiet.

Lemma bitmask_quiet : quiet stdev_active_callback_bitmask.
Proof. unfold stdev_active_callback_bitmask. quiet. Qed.
#[local] Hint Resolve bitmask_quiet : quiet.

Lemma handle_model_quiet i : quiet (handle_stop_model i).
Proof. unfold handle_stop_model. quiet. Qed.
#[local] Hint Resolve handle_model_quiet : quiet.

Lemma handle_stop_quiet : quiet handle_stop_recognition_l.
Proof. unfold handle_stop_recognition_l. quiet. Qed.
#[local] Hint Resolve handle_stop_quiet : quiet.

Lemma load_quiet given model callback cookie : quiet (load_sound_model given model callback cookie).
Proof.
  assert (L : forall data i, quiet (vts_load_sound_model data i)).
  { intros data i. unfold vts_load_sound_model, load_modelbinary. quiet; apply quiet_sys; by destruct (i =? HOTWORD_INDEX). }
  unfold load_sound_model. destruct given, model; quiet; apply L.
Qed.

Lemma start_checks_quiet handle config : quiet (start_checks handle config).
Proof. unfold start_checks, ParseExtraConfigData. quiet. Qed.

Lemma start_model_quiet handle callback cookie : quiet (start_model handle callback cookie).
Proof. unfold start_model. quiet. Qed.

Lemma stop_checks_quiet handle : quiet (stop_recognition_checks handle).
Proof. unfold stop_recognition_checks. quiet. Qed.

Lemma unload_checks_quiet handle : quiet (unload_checks handle).
Proof. unfold unload_checks. quiet. Qed.

(** Opening the streaming device: the one that was there before is forgotten. *)
Lemma new_stream_quiet {A} f (k : Z -> M A) card device :
  (forall p d, recording_pcm (f p d) = recording_pcm d /\ streaming_pcm (f p d) = p) -> (forall p, quiet (k p)) ->
  quiet (p ← open_pcm card device; put (f p) ;; k p).
Proof.
  intros Hf Hk w x w' (W1 & W2 & W3) (p & w1 & [= <- <-] & E)%bind_inv. apply bind_inv in E as ([] & w1 & [= <-] & E).
  destruct (pcm_open_fresh (slog w) card device) as [_ Hp].
  destruct (Hf (sth_answer (slog w) (pcm_open card device)) (dev w)) as [F1 F2].
  refine (_ (Hk _ _ x w' _ E)); [simpl; by rewrite F1|].
  clear Hf Hk E. unfold pcm_inv. simpl. rewrite F1, F2. split; [set_solver|]. split; [set_solver|].
  intros Hr E. rewrite E in W1. by apply Hp, W1; rewrite <- E.
Qed.

(** Opening the recording device when there is none. *)
Lemma new_recording_quiet card device w p w1 : pcm_inv w -> recording_pcm (dev w) = 0 ->
  open_pcm card device w = Some (p, w1) ->
  pcm_inv (w1 <| dev := (dev w1) <| recording_pcm := p |> |>).
Proof.
  intros (W1 & W2 & W3) Hr [= <- <-]. destruct (pcm_open_fresh (slog w) card device) as [Hn Hp].
  unfold pcm_inv. simpl. split; [set_solver|]. split; [set_solver|]. intros _ E. rewrite <- E in W2. by apply Hp, W2.
Qed.

(** ** Programs that do not hold [recording_lock] *)

Abbreviation safely strict p := (safe pcm_inv recording_lock recording_stays strict false anything p).

Lemma safely_act {A} (o : M A) : calm o -> safely false (act o).
Proof. intros Ho. apply safe_act. intros w Hw. split; [done|]. intros x w' E. by apply (Ho w x). Qed.

Lemma safely_bind {A B} strict (p : P A) (f : A -> P B) :
  safely strict p -> (forall a, safely strict (f a)) -> safely strict (p ≫= f).
Proof. apply safe_bind. Qed.

Lemma safely_with_mutex {A} strict m (p : P A) : m <> recording_lock -> safely strict p -> safely strict (with_mutex m p).
Proof.
  intros Hm Hp. unfold with_mutex. apply (safely_bind strict (mutex_lock m)).
  { simpl. by rewrite decide_False. }
  intros _. apply safely_bind; [done|]. intros a. simpl. by rewrite decide_False.
Qed.

(** One step with [recording_lock]. *)
Lemma safely_recording {A} strict (o : M A) :
  (forall w, pcm_inv w -> (strict = true -> o w <> None) /\ forall x w', o w = Some (x, w') -> pcm_inv w') ->
  safely strict (with_mutex recording_lock (act o)).
Proof.
  intros Ho. split; [done|]. intros w Hw _. destruct (Ho w Hw) as [K1 K2]. split; [done|]. intros x w' E.
  split; [by apply (K2 x)|]. split; [done|]. exists anything. split; [|done]. by split.
Qed.

Create HintDb safely.

(** The rules follow the program. *)
Ltac safely :=
  repeat first
    [ solve [auto with safely nocore]
    | apply safely_act; solve [apply quiet_calm; quiet]
    | apply safe_ret
    | apply safe_if
    | apply safely_with_mutex; [done|]
    | apply safely_bind; [|intros ?]
    | match goal with
      | |- context [match ?x with inl _ => _ | inr _ => _ end] => destruct x
      | |- context [match ?x with Some _ => _ | None => _ end] => destruct x
      | |- context [match ?x with (_, _) => _ end] => destruct x
      | |- context [if ?b then _ else _] => destruct b
      end ].
#[local] Hint Resolve load_quiet start_checks_quiet start_model_quiet stop_checks_quiet unload_checks_quiet : quiet.

Lemma create_safely strict : safely strict create.
Proof. done. Qed.
#[local] Hint Resolve create_safely : safely.

Lemma start_thread_safely : safely false stdev_start_callback_thread.
Proof. unfold stdev_start_callback_thread. safely. Qed.
#[local] Hint Resolve start_thread_safely : safely.

Lemma join_safely keep : safely false (stdev_join_callback_thread keep).
Proof. unfold stdev_join_callback_thread. safely; done. Qed.
#[local] Hint Resolve join_safely : safely.

Lemma stop_l_safely handle : safely false (stdev_stop_recognition_l handle).
Proof. unfold stdev_stop_recognition_l. safely. Qed.
#[local] Hint Resolve stop_l_safely : safely.

Lemma stop_aborted_safely handle : safely false (stop_aborted handle).
Proof. unfold stop_aborted. safely. Qed.
#[local] Hint Resolve stop_aborted_safely : safely.

Lemma trylock_safely strict m : m <> recording_lock -> safely strict (mutex_trylock m).
Proof. done. Qed.

Lemma stop_retry_safely handle n retries : safely false (stop_retry handle n retries).
Proof.
  revert n. induction retries as [|retries IH]; intros n; cbn [stop_retry]; safely; by apply trylock_safely.
Qed.
#[local] Hint Resolve stop_retry_safely : safely.

Lemma start_safely handle config callback cookie : safely false (start_recognition handle config callback cookie).
Proof. unfold start_recognition. safely. Qed.
#[local] Hint Resolve start_safely : safely.

(** ** Streaming *)

(** The rules with the streaming device. *)
Ltac quiet_stream :=
  repeat first
    [ solve [quiet]
    | apply new_stream_quiet; [intros; done|intros ?]
    | apply close_stream_quiet; [intros; done|]
    | apply quiet_if
    | apply quiet_bind; [|intros ?] ].

Lemma open_for_streaming_quiet : quiet open_for_streaming.
Proof. unfold open_for_streaming, ready_pcm. quiet_stream. Qed.

Lemma close_streaming_quiet : quiet close_streaming.
Proof. unfold close_streaming. quiet_stream. Qed.

Lemma reopen_streaming_quiet : quiet reopen_streaming.
Proof. unfold reopen_streaming, ready_pcm. quiet_stream. Qed.
#[local] Hint Resolve open_for_streaming_quiet close_streaming_quiet reopen_streaming_quiet : quiet.

(** ** Recording *)

Lemma quiet_keeps {A} (o : M A) : quiet o -> keeps pcm_inv o.
Proof. intros Ho w x w' Hw E. by apply (Ho w x). Qed.

Lemma close_recording_keeps {A} f (o : M A) :
  (forall d, recording_pcm (f d) = 0 /\ streaming_pcm (f d) = streaming_pcm d) -> keeps pcm_inv o ->
  keeps pcm_inv (d ← get; close_pcm (recording_pcm d) ;; put f ;; o).
Proof.
  intros Hf Ho w x w' Hw (d & w1 & [= <- <-] & E)%bind_inv. apply bind_inv in E as ([] & w1 & E1 & E).
  apply bind_inv in E as ([] & w4 & E2 & E).
  unfold close_pcm in E1. apply bind_inv in E1 as ([] & w2 & E1 & E3). unfold is_open in E1.
  destruct (decide _) as [Hopen|]; [|done]. injection E1 as <-.
  apply bind_inv in E3 as (r & w3 & [= <- <-] & [= <-]). injection E2 as <-.
  destruct Hw as (W1 & W2 & W3). destruct (Hf (dev w)) as [F1 F2].
  refine (Ho _ x w' _ E).
  clear Hf Ho E. unfold pcm_inv. simpl. rewrite F1, F2. split; [done|]. split; [|done].
  intros Hs. apply elem_of_difference. split; [auto|]. rewrite elem_of_singleton. intros E.
  destruct (decide (recording_pcm (dev w) = 0)) as [E0|E0]; [congruence|]. by apply W3.
Qed.

Lemma new_recording_keeps {A} f (k : Z -> M A) card device :
  (forall p d, recording_pcm (f p d) = p /\ streaming_pcm (f p d) = streaming_pcm d) -> (forall p, keeps pcm_inv (k p)) ->
  keeps pcm_inv (p ← open_pcm card device; put (f p) ;; k p).
Proof.
  intros Hf Hk w x w' (W1 & W2 & W3) (p & w1 & [= <- <-] & E)%bind_inv. apply bind_inv in E as ([] & w1 & [= <-] & E).
  destruct (pcm_open_fresh (slog w) card device) as [Hn Hp].
  destruct (Hf (sth_answer (slog w) (pcm_open card device)) (dev w)) as [F1 F2].
  refine (Hk _ _ x w' _ E).
  clear Hf Hk E. unfold pcm_inv. simpl. rewrite F1, F2. split; [set_solver|]. split; [set_solver|].
  intros _ E. rewrite <- E in W2. by apply Hp, W2.
Qed.

(** The rules with the recording device. *)
Ltac keeping :=
  repeat first
    [ solve [apply quiet_keeps; quiet]
    | apply new_recording_keeps; [intros; done|intros ?]
    | apply close_recording_keeps; [intros; done|]
    | apply keeps_if
    | apply keeps_bind; [|intros ?] ].

Lemma close_recording_pcm_keeps : keeps pcm_inv close_recording_pcm.
Proof.
  intros w x w' Hw E. unfold close_recording_pcm in E. apply bind_inv in E as (d & w1 & [= <- <-] & E).
  destruct (negb _); [|by injection E as <- <-].
  eapply (close_recording_keeps (fun d => d <| recording_pcm := 0 |>) (mret tt)); [done|apply keeps_ret|exact Hw|].
  unfold mbind, ST_bind, get in *. destruct (close_pcm _ w) as [[[] w1]|]; [|done]. exact E.
Qed.

Lemma release_mic_quiet : quiet release_mic.
Proof. unfold release_mic. quiet. Qed.
#[local] Hint Resolve release_mic_quiet : quiet.

Lemma open_recording_keeps : keeps pcm_inv open_recording.
Proof.
  unfold open_recording, ready_pcm. apply keeps_bind; [by apply quiet_keeps, quiet_get|]. intros d. do 2 (apply keeps_if; [by apply keeps_ret|]).
  apply keeps_bind; [apply keeps_if; [|apply keeps_ret]; apply keeps_bind; [apply close_recording_pcm_keeps|]|]; intros _; keeping.
Qed.

Lemma close_recording_op_keeps : keeps pcm_inv close_recording.
Proof. unfold close_recording. keeping. Qed.

Lemma reopen_recording_calm : calm reopen_recording.
Proof.
  intros w x w' Hw E. unfold reopen_recording in E. apply bind_inv in E as (d & w1 & [= <- <-] & E).
  destruct (is_recording _); [|by injection E as <- <-]. apply bind_inv in E as ([] & w1 & E1 & E).
  destruct (mic_quiet true w tt w1 Hw E1) as [Hw1 S1].
  destruct (Z.eqb_spec (recording_pcm (dev w)) 0) as [E0|]; [|injection E as <- <-; by split; [|intros _]].
  split; [|by intros Hr]. revert E. apply (new_recording_keeps (fun p d => d <| recording_pcm := p |>)); [done| |done].
  intros p. unfold ready_pcm. keeping.
Qed.

(** ** The calls *)

Lemma close_recording_locked_safely : safely false close_recording_locked.
Proof.
  unfold close_recording_locked. apply safely_bind; [by apply safely_act, quiet_calm, quiet_get|]. intros d.
  apply safe_if; [|apply safe_ret]. apply safely_recording. intros w Hw. split; [done|]. intros x w' E.
  eapply (close_recording_keeps (fun d => d <| recording_pcm := 0 |>) (mret tt)); [done|apply keeps_ret|exact Hw|].
  unfold mbind, ST_bind, get in *. destruct (close_pcm _ w) as [[[] w1]|]; [|done]. exact E.
Qed.
#[local] Hint Resolve close_recording_locked_safely : safely.

Lemma close_streaming_locked_safely : safely false close_streaming_locked.
Proof.
  unfold close_streaming_locked. safely. apply safely_act, quiet_calm. intros w x w' Hw E.
  eapply (close_stream_quiet (fun d => d <| streaming_pcm := 0 |>) (mret tt)); [done|apply quiet_ret|exact Hw|].
  unfold mbind, ST_bind, get in *. destruct (close_pcm _ w) as [[[] w1]|]; [|done]. exact E.
Qed.
#[local] Hint Resolve close_streaming_locked_safely : safely.

Lemma switch_mic_quiet b d : quiet (switch_mic b d).
Proof. unfold switch_mic, set_active_mic. quiet. Qed.
#[local] Hint Resolve switch_mic_quiet : quiet.

Lemma switch_safely b d : safely false (act (switch_mic b d ;; reopen_recording)).
Proof. apply safely_act, calm_bind; [by apply quiet_calm, switch_mic_quiet|]. intros _. apply reopen_recording_calm. Qed.
#[local] Hint Resolve switch_safely : safely.

Lemma headset_safely b : safely false (sound_trigger_headset_status b).
Proof. unfold sound_trigger_headset_status, set_active_mic. safely. Qed.

Lemma voicecall_safely s : safely false (sound_trigger_voicecall_status s).
Proof. unfold sound_trigger_voicecall_status. safely. Qed.

Lemma close_mixer_safely : safely false stdev_close_mixer.
Proof. unfold stdev_close_mixer. safely. Qed.
#[local] Hint Resolve close_mixer_safely : safely.

(** The reading of the recording, with [recording_lock]: the device that was seen is
    still there when it is read. *)
Lemma read_recording_safely strict len : safely strict (sound_trigger_read_recording_samples len).
Proof.
  split; [done|].
  assert (K : forall (p : stdev -> P Z) P, (forall w, P w) ->
    (forall d, safe pcm_inv recording_lock recording_stays strict true anything (a ← p d; mutex_unlock recording_lock ;; mret a)) ->
    safe pcm_inv recording_lock recording_stays strict true P (a ← (d ← act get; p d); mutex_unlock recording_lock ;; mret a)).
  { intros p Q HQ Hp w Hw _. split; [done|]. intros d w' [= <- <-]. split; [done|]. split; [done|]. exists anything.
    split; [by split|]. apply Hp. }
  apply K; [done|]. intros d. destruct (negb _); [done|]. apply K; [done|]. clear d. intros d. destruct (_ =? _); [done|].
  apply K; [done|]. clear d. intros d. destruct (negb _); [done|].
  intros w Hw _. split; [done|]. intros d1 w' [= <- <-]. split; [done|]. split; [done|].
  simpl. destruct (Z.eqb_spec (recording_pcm (dev w)) 0) as [E0|E0]; [exists anything; split; [by split|done]|].
  exists (fun w' => recording_pcm (dev w') = recording_pcm (dev w)).
  assert (Hst : stable pcm_inv recording_stays (fun w' => recording_pcm (dev w') = recording_pcm (dev w)))
    by (intros w1 w2 _ _ S E; rewrite <- E in *; by apply S).
  split; [by split|]. intros w1 Hw1 E1. assert (Ho : recording_pcm (dev w1) ∈ open_pcms (slog w1)) by (apply Hw1; by rewrite E1).
  assert (Ex : exists r, (d ← get; read_pcm (recording_pcm d) len) w1 =
    Some (r, w1 <| slog := (pcm_read (recording_pcm (dev w1)) len, r) :: slog w1 |>)).
  { unfold read_pcm, is_open, sys, mbind, ST_bind, get. rewrite decide_True by done. by eexists. }
  destruct Ex as [r Ex]. split; [by rewrite Ex|]. intros x w2 E2. rewrite Ex in E2. injection E2 as <- <-.
  split; [done|]. split; [done|]. exists (fun w' => recording_pcm (dev w') = recording_pcm (dev w)). split; [by split|].
  cbv beta iota. destruct (r =? 0); [done|]. clear w1 Hw1 E1 Ho Ex. intros w1 Hw1 E1. assert (Ho : recording_pcm (dev w1) ∈ open_pcms (slog w1)) by (apply Hw1; by rewrite E1).
  unfold pcm_get_error, is_open, mbind, ST_bind, get. rewrite decide_True by done. split; [done|]. intros x w2 [= <- <-].
  split; [done|]. split; [done|]. exists anything. by split.
Qed.

(** ** The callback thread *)

Lemma exit_safely err : safely false (callback_exit err).
Proof. unfold callback_exit. safely; done. Qed.
Lemma continue_safely l : safely false (callback_continue l).
Proof. unfold callback_continue. safely; done. Qed.
#[local] Hint Resolve exit_safely continue_safely : safely.

Lemma trigger_safely i : safely false (handle_trigger i).
Proof.
  unfold handle_trigger, trigger_event, trigger_callback, trigger_finish, sound_trigger_generic_event_alloc,
    sound_trigger_event_alloc. safely.
Qed.
#[local] Hint Resolve trigger_safely : safely.

Lemma messages_safely msgs : safely false (handle_messages msgs).
Proof. induction msgs as [|msg msgs IH]; cbn [handle_messages]; safely. Qed.
#[local] Hint Resolve messages_safely : safely.

Lemma prologue_safely : safely false callback_prologue.
Proof. unfold callback_prologue. safely. Qed.

Lemma iteration_safely l : safely false (callback_iteration l).
Proof.
  unfold callback_iteration, recover_socket. apply safely_bind; [apply safely_act, quiet_calm; quiet|].
  intros [err [[in0 broken0] in1]]. apply safely_bind; [done|]. intros _. safely.
Qed.

(** ** Calls that are always defined *)

Abbreviation total o := (triple pcm_inv o (fun _ => pcm_inv)).

Lemma total_quiet {A} (o : M A) : quiet o -> (forall w, pcm_inv w -> o w <> None) -> total o.
Proof.
  intros Ho Hd w Hw. destruct (o w) as [[x w']|] eqn:E; [|by destruct (Hd w Hw)]. exists x, w'. split; [done|]. by apply (Ho w x).
Qed.

Lemma total_bind {A B} (o : M A) (k : A -> M B) : total o -> (forall a, total (k a)) -> total (o ≫= k).
Proof. apply triple_bind. Qed.

Lemma array_in_range {A} (l : list A) i : 0 <= i < Z.of_nat (length l) -> total (array_at l i).
Proof.
  intros Hi. unfold array_at. rewrite (proj2 (Z.leb_le 0 i)) by lia.
  destruct (lookup_lt_is_Some_2 l (Z.to_nat i) ltac:(lia)) as [a ->]. by apply triple_ret.
Qed.

Lemma get_total : total get.
Proof. by apply total_quiet; [apply quiet_get|]. Qed.
Lemma sys_total c : no_pcm c = true -> total (sys c).
Proof. intros Hc. by apply total_quiet; [by apply quiet_sys|]. Qed.

Lemma ctrls_total names values (reverse : bool) count i ret :
  match values with Some l => length names = length l | None => True end ->
  0 <= i < Z.of_nat (length names) \/ count = 0%nat ->
  (if reverse then Z.of_nat count <= i + 1 else i + Z.of_nat count <= Z.of_nat (length names)) ->
  total (set_ctrls_loop names values reverse count i ret).
Proof.
  intros Hl. revert i ret. induction count as [|count IH]; intros i ret Hi Hc; cbn [set_ctrls_loop]; [by apply triple_ret|].
  destruct Hi as [Hi|]; [|done]. apply total_bind; [apply get_total|]. intros d.
  apply total_bind; [by apply array_in_range|]. intros name. apply total_bind; [by apply sys_total|]. intros ctl.
  apply triple_if; intros _; [by apply triple_ret|]. apply total_bind.
  { destruct values as [values|]; [apply array_in_range; by rewrite <- Hl|by apply triple_ret]. }
  intros value. apply total_bind; [by apply sys_total|]. intros r. apply triple_if; intros _; [by apply triple_ret|].
  apply IH; destruct reverse; lia.
Qed.

Lemma mixer_total names values count reverse : length names = count ->
  match values with Some l => length names = length l | None => True end -> total (set_mixer_ctrls names values count reverse).
Proof.
  intros Hc Hl. unfold set_mixer_ctrls. apply total_bind; [apply get_total|]. intros d.
  apply triple_if; intros _; [by apply triple_ret|]. apply ctrls_total; [done|..]; destruct reverse; lia.
Qed.

Lemma put_total f : pcm_kept f -> total (put f).
Proof. intros Hf. by apply total_quiet; [by apply quiet_put|]. Qed.

Lemma mic_total b : total (stdev_vts_set_mic b).
Proof.
  destruct main_mic_arrays as [M1 M2], headset_mic_arrays as [S1 S2].
  unfold stdev_vts_set_mic. apply total_bind; [apply get_total|]. intros d.
  apply triple_if; intros _; (apply triple_if; intros _; [|by apply triple_ret]); (apply total_bind; [|intros _; by apply put_total]);
    apply triple_if; intros _; apply mixer_total; first [done | congruence].
Qed.

Lemma release_mic_total : total release_mic.
Proof.
  unfold release_mic, stdev_active_callback_bitmask. apply total_bind; [|intros m].
  { apply total_bind; [apply get_total|]. intros d. by apply triple_ret. }
  apply total_bind; [apply get_total|]. intros d. apply triple_if; intros _; [apply mic_total|by apply triple_ret].
Qed.

Lemma close_recording_pcm_total : total close_recording_pcm.
Proof.
  intros w Hw. unfold ends.
  destruct (close_recording_pcm w) as [[[] w']|] eqn:E; [exists tt, w'; split; [done|]; by apply (close_recording_pcm_keeps w tt)|].
  exfalso. unfold close_recording_pcm, close_pcm, is_open, mbind, ST_bind, get in E.
  destruct (Z.eqb_spec (recording_pcm (dev w)) 0); [done|]. cbn [negb] in E.
  rewrite decide_True in E by by apply Hw. done.
Qed.

Lemma open_recording_total : total open_recording.
Proof.
  unfold open_recording. apply total_bind; [apply get_total|]. intros d. do 2 (apply triple_if; intros _; [by apply triple_ret|]).
  apply total_bind.
  { apply triple_if; intros _; [|by apply triple_ret]. apply total_bind; [apply close_recording_pcm_total|]. intros _.
    apply total_bind; [apply release_mic_total|]. intros _. by apply put_total. }
  intros _. apply total_bind; [apply mic_total|]. intros _ w Hw.
  unfold ends. match goal with |- exists r s', ?o w = _ /\ _ => set (o' := o) end.
  assert (K : keeps pcm_inv o').
  { unfold o'. apply new_recording_keeps; [done|]. intros p. unfold ready_pcm. keeping. }
  destruct (o' w) as [[x w']|] eqn:E; [exists x, w'; split; [done|]; by apply (K w x)|]. exfalso. revert E. clear K.
  unfold o', open_pcm, ready_pcm, sys, put, mbind, ST_bind, mret, ST_ret. repeat case_match; congruence.
Qed.

(** ** All calls *)

(** The calls that read the recording device or open it. *)
Definition recording_call (a : sth_api) : Prop :=
  match a with Open_recording | Read_recording_samples _ => True | _ => False end.

(** What clients call between two [stdev_open]: the client [reader] opens and reads
    recordings. *)
Definition while_open (reader t : nat) (a : sth_api) : Prop :=
  (forall name, a <> Sth_open name) /\ (t = reader -> recording_call a).

Lemma open_recording_safely strict : safely strict sound_trigger_open_recording.
Proof.
  unfold sound_trigger_open_recording. apply safely_with_mutex; [done|]. apply safely_recording. intros w Hw.
  destruct (open_recording_total w Hw) as (x & w' & E & Hw'). rewrite E. split; [done|]. intros x1 w1 [= <- <-]. done.
Qed.

Lemma close_recording_safely : safely false sound_trigger_close_recording.
Proof.
  unfold sound_trigger_close_recording. apply safely_with_mutex; [done|]. apply safely_recording. intros w Hw.
  split; [discriminate|]. intros x w'. by apply close_recording_op_keeps.
Qed.

Lemma calls_safely reader t a : while_open reader t a ->
  safe pcm_inv recording_lock recording_stays (bool_decide (t = reader)) false anything (sth_perform a).
Proof.
  intros [Ho Hr]. destruct (bool_decide (t = reader)) eqn:Et.
  { apply bool_decide_eq_true_1, Hr in Et. destruct a; try done; unfold sth_perform;
      [apply open_recording_safely|apply read_recording_safely]. }
  clear Hr. destruct a; unfold sth_perform.
  - by destruct (Ho name).
  - unfold stdev_close. safely.
  - unfold stdev_get_properties. safely.
  - unfold stdev_load_sound_model. safely.
  - unfold stdev_unload_sound_model. safely.
  - unfold stdev_start_recognition. safely.
  - unfold stdev_start_recognition_extended. safely.
  - unfold stdev_stop_recognition. safely; done.
  - done.
  - done.
  - done.
  - unfold sound_trigger_open_for_streaming. safely.
  - unfold sound_trigger_read_samples. safely.
  - unfold sound_trigger_close_for_streaming. safely.
  - apply open_recording_safely.
  - apply read_recording_safely.
  - apply close_recording_safely.
  - apply headset_safely.
  - apply voicecall_safely.
  - unfold sound_trigger_notify_ahal_record_status. safely.
Qed.
End operations.
