(* ===== verification/SthState.v ===== *)
(** * Sound trigger: the state of the device

    The invariant of the fields ([wf]) in all interleavings, those without a mutex
    included. *)

From Stdlib Require Import String.
From S2P Require Import Prelude Effects Threads ThreadRules SthData SthPower SthOps SthStream.

(** A set of models, as bits. *)
Definition is_mask (m : Z) : Prop := 0 <= m < 4.

Record wf (d : stdev) : Prop := {
  wf_hotword : at_hotword (model_handles d) = HANDLE_NONE \/ at_hotword (model_handles d) = HOTWORD_INDEX;
  wf_svoice : sthal_opened d = true ->
    at_svoice (model_handles d) = HANDLE_NONE \/ at_svoice (model_handles d) = SVOICE_INDEX;
  wf_streaming : is_streaming d = 0 \/ is_streaming d = bit HOTWORD_INDEX \/ is_streaming d = bit SVOICE_INDEX;
  wf_started : is_mask (recognize_started d);
  wf_generic : is_mask (is_generic d)
}.

Definition wf_world (w : sth_world) : Prop := wf (dev w).

(** Assignments to other fields. *)
Definition wf_kept (f : stdev -> stdev) : Prop := forall d,
  model_handles (f d) = model_handles d /\ sthal_opened (f d) = sthal_opened d /\ is_streaming (f d) = is_streaming d /\
  recognize_started (f d) = recognize_started d /\ is_generic (f d) = is_generic d.

Abbreviation keeping o := (keeps wf_world o).

Create HintDb wf.

Lemma mask_lor a b : is_mask a -> is_mask b -> is_mask (Z.lor a b).
Proof.
  intros Ha Hb. unfold is_mask in *. assert (a = 0 \/ a = 1 \/ a = 2 \/ a = 3) as Ea by lia.
  assert (b = 0 \/ b = 1 \/ b = 2 \/ b = 3) as Eb by lia.
  destruct Ea as [->|[->|[->| ->]]], Eb as [->|[->|[->| ->]]]; vm_compute; split; done.
Qed.

Lemma mask_land a b : is_mask a -> is_mask (Z.land a b).
Proof.
  intros Ha. unfold is_mask in *.
  assert (Ha2 : a = Z.land a (Z.ones 2)) by (rewrite Z.land_ones, Z.mod_small by lia; done).
  rewrite Ha2, <- Z.land_assoc, (Z.land_comm _ b), Z.land_assoc, Z.land_ones by lia. apply Z.mod_pos_bound. lia.
Qed.

Lemma mask_bit i : i = HOTWORD_INDEX \/ i = SVOICE_INDEX -> is_mask (bit i).
Proof. by intros [->| ->]. Qed.

Section keeping.
Context `{SoundTriggerConf, SoundTriggerInterface, SoundTriggerEnv}.

Lemma wf_put f : wf_kept f -> keeping (put f).
Proof.
  intros Hf w x w' Hw [= _ <-]. destruct (Hf (dev w)) as (E1 & E2 & E3 & E4 & E5), Hw as [W1 W2 W3 W4 W5].
  split; simpl; by rewrite ?E1, ?E2, ?E3, ?E4, ?E5.
Qed.

Lemma wf_put_at {A} (field : stdev -> per_model A) assign i a : (forall l, wf_kept (assign l)) -> keeping (put_at field assign i a).
Proof.
  intros Hf w x w' Hw E. unfold put_at in E. destruct (set_at _ _ _) as [l|]; [|done].
  injection E as <- <-. exact (wf_put (assign l) (Hf l) w tt _ Hw eq_refl).
Qed.

Lemma wf_sys c : keeping (sys c).
Proof. by intros w x w' Hw [= <- <-]. Qed.
Lemma wf_get : keeping get.
Proof. by intros w x w' Hw [= <- <-]. Qed.
Lemma wf_stored {A} (f : sth_log -> A) : keeping (stored f).
Proof. by intros w x w' Hw [= <- <-]. Qed.
Lemma wf_nth_of {A} (field : stdev -> per_model A) i : keeping (nth_of field i).
Proof. intros w x w' Hw E. unfold nth_of in E. destruct (elem_at _ _); [by injection E as <- <-|done]. Qed.
Lemma wf_is_open p : keeping (is_open p).
Proof. intros w x w' Hw E. unfold is_open in E. destruct (decide _); [by injection E as <- <-|done]. Qed.
Lemma wf_array_at {A} (l : list A) i : keeping (array_at l i).
Proof. unfold array_at. destruct (if 0 <=? i then _ else _); [apply keeps_ret|apply keeps_undefined]. Qed.

(** The assignments that matter. *)
Lemma wf_put_wf f : (forall d, wf d -> wf (f d)) -> keeping (put f).
Proof. intros Hf w x w' Hw [= _ <-]. by apply Hf. Qed.

Lemma wf_start i : i = HOTWORD_INDEX \/ i = SVOICE_INDEX ->
  keeping (put (fun d => d <| recognize_started := Z.lor (recognize_started d) (bit i) |>)).
Proof. intros Hi. apply wf_put_wf. intros d [W1 W2 W3 W4 W5]. split; try done. by apply mask_lor; [|apply mask_bit]. Qed.
Lemma wf_stop b : keeping (put (fun d => d <| recognize_started := Z.land (recognize_started d) b |>)).
Proof. apply wf_put_wf. intros d [W1 W2 W3 W4 W5]. split; try done. by apply mask_land. Qed.
Lemma wf_stream i : i = HOTWORD_INDEX \/ i = SVOICE_INDEX -> keeping (put (fun d => d <| is_streaming := bit i |>)).
Proof. intros Hi. apply wf_put_wf. intros d [W1 W2 W3 W4 W5]. split; try done. simpl. right. by destruct Hi as [->| ->]; [left|right]. Qed.
Lemma wf_no_stream : keeping (put (fun d => d <| is_streaming := 0 |>)).
Proof. apply wf_put_wf. intros d [W1 W2 W3 W4 W5]. split; try done. by left. Qed.
End keeping.

#[export] Hint Resolve keeps_ret keeps_undefined wf_sys wf_get wf_stored wf_nth_of wf_is_open wf_array_at
  wf_stop wf_no_stream : wf.

Ltac wf_kept := intros; repeat split.

(** The rules follow the operation. *)
Ltac wf_keeps :=
  repeat first
    [ solve [auto with wf nocore]
    | apply wf_start; auto; fail
    | apply wf_put; wf_kept; fail
    | apply wf_put_at; wf_kept; fail
    | apply keeps_if
    | apply keeps_bind; [|intros ?]
    | match goal with
      | |- keeps _ (match ?x with inl _ => _ | inr _ => _ end) => destruct x
      | |- keeps _ (match ?x with Some _ => _ | None => _ end) => destruct x
      | |- keeps _ (match ?x with (_, _) => _ end) => destruct x
      end ].

Section operations.
Context `{SoundTriggerConf, SoundTriggerInterface, SoundTriggerEnv}.

Lemma ctrls_wf names values reverse count i ret : keeping (set_ctrls_loop names values reverse count i ret).
Proof. revert i ret. induction count as [|count IH]; intros i ret; cbn [set_ctrls_loop]; wf_keeps. Qed.
#[local] Hint Resolve ctrls_wf : wf.

Lemma mic_wf b : keeping (stdev_vts_set_mic b).
Proof. unfold stdev_vts_set_mic, set_mixer_ctrls. wf_keeps. Qed.
#[local] Hint Resolve mic_wf : wf.

Lemma power_wf mask : keeping (stdev_vts_set_power mask).
Proof.
  unfold stdev_vts_set_power, start_hotword, start_svoice, stop_hotword, stop_svoice, notify, close_streaming_pcm, close_pcm,
    set_mixer_ctrls. wf_keeps.
Qed.
#[local] Hint Resolve power_wf : wf.

Lemma sockets_wf : keeping stdev_close_callback_thread_sockets.
Proof. unfold stdev_close_callback_thread_sockets, close_socket. wf_keeps. Qed.
Lemma bitmask_wf : keeping stdev_active_callback_bitmask.
Proof. unfold stdev_active_callback_bitmask. wf_keeps. Qed.
#[local] Hint Resolve sockets_wf bitmask_wf : wf.

Lemma handle_stop_wf : keeping handle_stop_recognition_l.
Proof. unfold handle_stop_recognition_l, handle_stop_model. wf_keeps. Qed.
#[local] Hint Resolve handle_stop_wf : wf.

(** The table of the models. *)
Lemma wf_unload i : keeping (put_at model_handles (fun l d => d <| model_handles := l |>) i (-1)).
Proof.
  intros w x w' [W1 W2 W3 W4 W5] E. unfold put_at, set_at in E.
  destruct (i =? HOTWORD_INDEX); [injection E as <- <-; split; try done; by left|].
  destruct (i =? SVOICE_INDEX); [injection E as <- <-; split; try done; by left|done].
Qed.

Lemma wf_load i : i = HOTWORD_INDEX \/ i = SVOICE_INDEX ->
  keeping (put_at model_handles (fun l d => d <| model_handles := l |>) i i).
Proof.
  intros Hi w x w' [W1 W2 W3 W4 W5] E. destruct Hi as [->| ->]; injection E as <- <-; split; try done; by right.
Qed.

Lemma wf_generic_on i : i = HOTWORD_INDEX \/ i = SVOICE_INDEX ->
  keeping (put (fun d => d <| is_generic := Z.lor (is_generic d) (bit i) |>)).
Proof. intros Hi. apply wf_put_wf. intros d [W1 W2 W3 W4 W5]. split; try done. by apply mask_lor; [|apply mask_bit]. Qed.
Lemma wf_generic_off b : keeping (put (fun d => d <| is_generic := Z.land (is_generic d) b |>)).
Proof. apply wf_put_wf. intros d [W1 W2 W3 W4 W5]. split; try done. by apply mask_land. Qed.
#[local] Hint Resolve wf_unload wf_generic_off : wf.

Lemma load_wf given model callback cookie : keeping (load_sound_model given model callback cookie).
Proof.
  assert (L : forall data i, keeping (vts_load_sound_model data i)).
  { intros data i. unfold vts_load_sound_model, load_modelbinary. wf_keeps. }
  unfold load_sound_model. destruct given, model as [sm|]; try apply keeps_ret.
  apply keeps_if; [apply keeps_ret|]. apply keeps_if; [apply keeps_ret|].
  unfold model_index_of. destruct (decide _) as [_|_]; [|destruct (decide _) as [_|_]; [|apply keeps_ret]].
  - assert (Hi := or_intror eq_refl : SVOICE_INDEX = HOTWORD_INDEX \/ SVOICE_INDEX = SVOICE_INDEX).
    pose proof (wf_generic_on _ Hi). pose proof (wf_load _ Hi). wf_keeps.
  - assert (Hi := or_introl eq_refl : HOTWORD_INDEX = HOTWORD_INDEX \/ HOTWORD_INDEX = SVOICE_INDEX).
    pose proof (wf_generic_on _ Hi). pose proof (wf_load _ Hi). wf_keeps.
Qed.

Lemma start_checks_wf handle config : keeping (start_checks handle config).
Proof. unfold start_checks, ParseExtraConfigData. wf_keeps. Qed.
Lemma start_model_wf handle callback cookie : keeping (start_model handle callback cookie).
Proof. unfold start_model. wf_keeps. Qed.
Lemma stop_checks_wf handle : keeping (stop_recognition_checks handle).
Proof. unfold stop_recognition_checks. wf_keeps. Qed.
Lemma unload_checks_wf handle : keeping (unload_checks handle).
Proof. unfold unload_checks. wf_keeps. Qed.
#[local] Hint Resolve load_wf start_checks_wf start_model_wf stop_checks_wf unload_checks_wf : wf.

Lemma trigger_finish_wf i : i = HOTWORD_INDEX \/ i = SVOICE_INDEX -> keeping (trigger_finish i).
Proof. intros Hi. pose proof (wf_stream i Hi). unfold trigger_finish. wf_keeps. Qed.

(** ** Programs *)

Abbreviation steps p := (steps_keep wf_world p).

Lemma steps_with_mutex {A} m (p : P A) : steps p -> steps (with_mutex m p).
Proof. intros Hp. change (steps (a ← p; mutex_unlock m ;; mret a)). by apply steps_bind. Qed.

Create HintDb steps.

Ltac steps :=
  repeat first
    [ solve [auto with steps nocore]
    | apply steps_act; solve [wf_keeps]
    | apply steps_ret
    | apply steps_if
    | apply steps_with_mutex
    | apply steps_bind; [|intros ?]
    | match goal with
      | |- context [match ?x with inl _ => _ | inr _ => _ end] => destruct x
      | |- context [match ?x with Some _ => _ | None => _ end] => destruct x
      | |- context [match ?x with (_, _) => _ end] => destruct x
      | |- context [if ?b then _ else _] => destruct b
      end
    | solve [done] | solve [intros ?; done] ].

Lemma start_thread_wf : steps stdev_start_callback_thread.
Proof. unfold stdev_start_callback_thread. steps. Qed.
Lemma join_wf keep : steps (stdev_join_callback_thread keep).
Proof. unfold stdev_join_callback_thread. steps. Qed.
#[local] Hint Resolve start_thread_wf join_wf : steps.

Lemma close_mixer_wf : steps stdev_close_mixer.
Proof. unfold stdev_close_mixer. steps. Qed.
Lemma stop_l_wf handle : steps (stdev_stop_recognition_l handle).
Proof. unfold stdev_stop_recognition_l. steps. Qed.
Lemma stop_retry_wf handle n retries : steps (stop_retry handle n retries).
Proof. revert n. induction retries as [|retries IH]; intros n; cbn [stop_retry]; unfold stop_aborted; steps. Qed.
Lemma start_wf handle config callback cookie : steps (start_recognition handle config callback cookie).
Proof. unfold start_recognition. steps. Qed.
#[local] Hint Resolve close_mixer_wf stop_l_wf stop_retry_wf start_wf : steps.

Lemma trigger_wf i : i = HOTWORD_INDEX \/ i = SVOICE_INDEX -> steps (handle_trigger i).
Proof.
  intros Hi. pose proof (trigger_finish_wf i Hi).
  unfold handle_trigger, trigger_event, trigger_callback, sound_trigger_generic_event_alloc, sound_trigger_event_alloc. steps.
Qed.

Lemma messages_wf msgs : steps (handle_messages msgs).
Proof.
  induction msgs as [|msg msgs IH]; cbn [handle_messages]; [done|]. unfold trigger_of. destruct (_ || _).
  { apply steps_bind; [apply trigger_wf; by right|]. by intros []. }
  destruct (strstr _ _); [|done]. apply steps_bind; [apply trigger_wf; by left|]. by intros [].
Qed.
#[local] Hint Resolve messages_wf : steps.

Lemma prologue_wf : steps callback_prologue.
Proof. unfold callback_prologue. steps. Qed.

Lemma iteration_wf l : steps (callback_iteration l).
Proof. unfold callback_iteration, recover_socket, callback_exit, callback_continue. steps. Qed.

(** ** Calls *)

Lemma open_wf name : steps (stdev_open name).
Proof.
  assert (K : keeping (put opened_device)).
  { apply wf_put_wf. intros d [W1 W2 W3 W4 W5]. split; simpl; [by left|by intros _; left|done|done|done]. }
  unfold stdev_open, open_device, stdev_init_mixer, set_mixer_ctrls. steps.
Qed.

Lemma close_wf : steps stdev_close.
Proof.
  assert (K : keeping (put (fun d => d <| mapped_addr := None |> <| vtsdev_fd := -1 |> <| recognition_callbacks := both 0 |>
                        <| sound_model_callbacks := both 0 |> <| configs := both None |> <| sthal_opened := false |>))).
  { apply wf_put_wf. by intros d [W1 W2 W3 W4 W5]. }
  unfold stdev_close. steps.
Qed.

(** The state before is the one that the call has seen. *)
Lemma switch_wf b d : wf d -> keeping (switch_mic b d).
Proof.
  intros Hd. assert (K : keeping (put (fun d' => d' <| is_streaming := is_streaming d |> <| is_seamless_recording := is_seamless_recording d |>))).
  { apply wf_put_wf. intros d' [W1 W2 W3 W4 W5]. split; try done. apply Hd. }
  unfold switch_mic, set_active_mic. wf_keeps.
Qed.

Lemma headset_wf b : steps (sound_trigger_headset_status b).
Proof.
  unfold sound_trigger_headset_status. apply steps_with_mutex. apply (steps_read wf_world dev). intros w Hw.
  pose proof (switch_wf b (dev w) Hw). unfold close_recording_locked, close_streaming_locked, close_pcm, set_active_mic,
    reopen_recording, reopen_streaming, open_pcm, ready_pcm. steps.
Qed.

Lemma voicecall_wf s : steps (sound_trigger_voicecall_status s).
Proof.
  assert (K : keeping (put (fun d => d <| is_seamless_recording := false |> <| is_streaming := 0 |>))).
  { apply wf_put_wf. intros d [W1 W2 W3 W4 W5]. split; try done. by left. }
  unfold sound_trigger_voicecall_status, close_recording_locked, close_streaming_locked, close_pcm. steps.
Qed.

Lemma calls_wf a : steps (sth_perform a).
Proof.
  destruct a; unfold sth_perform.
  - apply open_wf.
  - apply close_wf.
  - unfold stdev_get_properties. steps.
  - unfold stdev_load_sound_model. steps.
  - unfold stdev_unload_sound_model. steps.
  - unfold stdev_start_recognition. steps.
  - unfold stdev_start_recognition_extended. steps.
  - unfold stdev_stop_recognition. steps.
  - done.
  - done.
  - done.
  - unfold sound_trigger_open_for_streaming, open_for_streaming, open_pcm, ready_pcm. steps.
  - unfold sound_trigger_read_samples, read_pcm. steps.
  - unfold sound_trigger_close_for_streaming, close_streaming, close_pcm. steps.
  - unfold sound_trigger_open_recording, open_recording, close_recording_pcm, close_pcm, release_mic, open_pcm, ready_pcm. steps.
  - unfold sound_trigger_read_recording_samples, read_pcm. steps.
  - unfold sound_trigger_close_recording, close_recording, close_pcm, release_mic. steps.
  - apply headset_wf.
  - apply voicecall_wf.
  - unfold sound_trigger_notify_ahal_record_status. steps.
Qed.
End operations.
