(* ===== verification/SthControls.v ===== *)
(** * Sound trigger: what the mixer is told

    [set_mixer_ctrls] as a list of writes, and the closed form of
    [stdev_vts_set_power] when the mixer works. *)

From Stdlib Require Import String.
From S2P Require Import Prelude Effects Threads ThreadRules SthData SthPower SthOps SthStream SthRecord SthState.
Section controls.
Context `{SoundTriggerLaws, !SoundTriggerInterface}.

(** The reference: the controls of a list, until one fails. *)
Fixpoint write_controls (l : list (string * Z)) : M Z :=
  match l with
  | [] => mret 0
  | (name, value) :: l =>
      d ← get;
      ctl ← sys (mixer_get_ctl_by_name (mixer d) name);
      if ctl =? 0 then mret (- EINVAL)
      else
        r ← sys (mixer_ctl_set_value ctl 0 value);
        if negb (r =? 0) then mret (- EINVAL) else write_controls l
  end.

(** The pairs that the arrays stand for: without values, zeros. *)
Definition controls (names : list string) (values : option (list Z)) : list (string * Z) :=
  zip names (default (replicate (length names) 0) values).

Lemma array_at_some {A} (l : list A) (n : nat) a : l !! n = Some a -> array_at l (Z.of_nat n) = mret a.
Proof. intros E. unfold array_at. rewrite (proj2 (Z.leb_le _ _)), Nat2Z.id, E by lia. done. Qed.

Lemma controls_lookup names values n name value : controls names values !! n = Some (name, value) ->
  array_at names (Z.of_nat n) = mret name /\
  (match values with Some values => array_at values (Z.of_nat n) | None => mret 0 end : M Z) = mret value.
Proof.
  unfold controls. intros E. apply lookup_zip_with_Some in E as (x & y & [= <- <-] & E1 & E2).
  split; [by apply array_at_some|]. destruct values as [values|]; simpl in E2; [by apply array_at_some|].
  by apply lookup_replicate_1 in E2 as [-> _].
Qed.

(** One iteration of the loop. *)
Lemma loop_step names values (reverse : bool) count (n : nat) name value rest w :
  controls names values !! n = Some (name, value) ->
  (forall w, set_ctrls_loop names values reverse count (if reverse then Z.of_nat n - 1 else Z.of_nat n + 1) 0 w = write_controls rest w) ->
  set_ctrls_loop names values reverse (Datatypes.S count) (Z.of_nat n) 0 w = write_controls ((name, value) :: rest) w.
Proof.
  intros [En Ev]%controls_lookup IH. cbn [set_ctrls_loop write_controls]. rewrite En.
  unfold mbind, ST_bind, get, mret, ST_ret, sys. cbv beta iota zeta.
  destruct (_ =? 0); [done|]. unfold mret, ST_ret in Ev. rewrite Ev. cbv beta iota zeta.
  match goal with |- context [negb (?r =? 0)] => destruct (Z.eqb_spec r 0) as [->|]; [|done] end. apply IH.
Qed.

Lemma loop_forward names values count (n : nat) w : (n + count)%nat = length (controls names values) ->
  set_ctrls_loop names values false count (Z.of_nat n) 0 w = write_controls (drop n (controls names values)) w.
Proof.
  revert n w. induction count as [|count IH]; intros n w Hl.
  - by rewrite drop_ge by lia.
  - destruct (lookup_lt_is_Some_2 (controls names values) n ltac:(lia)) as [[name value] E].
    rewrite (drop_S _ _ _ E). apply loop_step; [done|]. intros w1.
    replace (Z.of_nat n + 1) with (Z.of_nat (Datatypes.S n)) by lia. apply IH. lia.
Qed.

Lemma loop_reverse names values count w : (count <= length (controls names values))%nat ->
  set_ctrls_loop names values true count (Z.of_nat count - 1) 0 w = write_controls (reverse (take count (controls names values))) w.
Proof.
  revert w. induction count as [|count IH]; intros w Hl; [done|].
  destruct (lookup_lt_is_Some_2 (controls names values) count ltac:(lia)) as [[name value] E].
  rewrite (take_S_r _ _ _ E), reverse_snoc. replace (Z.of_nat (Datatypes.S count) - 1) with (Z.of_nat count) by lia.
  apply loop_step; [done|]. intros w1. apply IH. lia.
Qed.

Lemma controls_length names values : match values with Some l => length names = length l | None => True end ->
  length (controls names values) = length names.
Proof. intros Hl. unfold controls. rewrite length_zip_with. destruct values; simpl; [lia|]. rewrite length_replicate. lia. Qed.

(** The proof of the theorem on [set_mixer_ctrls]. *)
Lemma mixer_reference names values count (backwards : bool) w : length names = count ->
  match values with Some l => length names = length l | None => True end ->
  set_mixer_ctrls names values count backwards w =
    if mixer (dev w) =? 0 then Some (- EINVAL, w)
    else write_controls (if backwards then reverse (controls names values) else controls names values) w.
Proof.
  intros Hc Hl. pose proof (controls_length names values Hl) as K. unfold set_mixer_ctrls, mbind, ST_bind, get.
  destruct (mixer (dev w) =? 0); [done|]. destruct backwards.
  - rewrite loop_reverse by lia. by rewrite take_ge by lia.
  - rewrite (loop_forward names values count 0) by lia. by rewrite drop_0.
Qed.

(** It always ends, and leaves the device alone. *)
Lemma write_total l w : ends (write_controls l) w (fun _ w' => dev w' = dev w).
Proof.
  revert w. induction l as [|[name value] l IH]; intros w; cbn [write_controls]; [by apply ends_ret|].
  eapply ends_step; [done|]. eapply ends_step; [done|]. cbv beta. destruct (_ =? 0); [by apply ends_ret|].
  eapply ends_step; [done|]. cbv beta. destruct (negb _); [by apply ends_ret|].
  eapply ends_weaken; [apply IH|]. by intros r w' ->.
Qed.

(** ** A mixer that works *)

Class WorkingMixer : Prop := {
  control_exists l m name : sth_answer l (mixer_get_ctl_by_name m name) <> 0;
  control_set l ctl id value : sth_answer l (mixer_ctl_set_value ctl id value) = 0
}.

Context `{!WorkingMixer}.

(** An operation that leaves the device as [d]. *)
Definition leaves {A} (o : M A) (w : sth_world) (a : A) (d : stdev) : Prop := ends o w (fun r w' => r = a /\ dev w' = d).

Lemma leaves_bind {A B} (o : M A) (k : A -> M B) w a d b d' :
  leaves o w a d -> (forall w1, dev w1 = d -> leaves (k a) w1 b d') -> leaves (o ≫= k) w b d'.
Proof. intros Ho Hk. eapply ends_bind; [exact Ho|]. intros x w1 [-> E]. by apply Hk. Qed.

Lemma leaves_ret {A} (a : A) w d : dev w = d -> leaves (mret a) w a d.
Proof. intros <-. by apply ends_ret. Qed.

Lemma leaves_get w d : dev w = d -> leaves get w d d.
Proof. intros <-. by exists (dev w), w. Qed.

Lemma leaves_put f w d : dev w = d -> leaves (put f) w tt (f d).
Proof. intros <-. eexists tt, _. by split. Qed.

Lemma leaves_sys c w d : dev w = d -> ends (sys c) w (fun r w' => r = sth_answer (slog w) c /\ dev w' = d).
Proof. intros <-. eexists _, _. by split. Qed.

Lemma write_works l w d : dev w = d -> leaves (write_controls l) w 0 d.
Proof.
  intros Ed. revert w Ed. induction l as [|[name value] l IH]; intros w Ed; cbn [write_controls]; [by apply leaves_ret|].
  eapply leaves_bind; [by apply leaves_get|]. intros w1 E1. eapply ends_bind; [by apply leaves_sys|]. intros ctl w2 [-> E2].
  rewrite (proj2 (Z.eqb_neq _ _)) by apply control_exists.
  eapply ends_bind; [by apply leaves_sys|]. intros r w3 [-> E3]. rewrite control_set. by apply IH.
Qed.

Lemma mixer_works names values count backwards w d : dev w = d -> mixer d <> 0 -> length names = count ->
  match values with Some l => length names = length l | None => True end ->
  leaves (set_mixer_ctrls names values count backwards) w 0 d.
Proof.
  intros Ed Hm Hc Hl. destruct (write_works (if backwards then reverse (controls names values) else controls names values) w d Ed)
    as (r & w' & E & K). exists r, w'. split; [|done]. rewrite mixer_reference by done. by rewrite Ed, (proj2 (Z.eqb_neq _ _) Hm).
Qed.

Lemma mic_works b w d : dev w = d -> mixer d <> 0 -> leaves (stdev_vts_set_mic b) w tt (d <| is_mic_configured := b |>).
Proof.
  intros Ed Hm. destruct main_mic_arrays as [M1 M2], headset_mic_arrays as [S1 S2].
  assert (Same : is_mic_configured d = b -> d <| is_mic_configured := b |> = d) by (intros <-; by destruct d).
  unfold stdev_vts_set_mic. eapply leaves_bind; [by apply leaves_get|]. intros w1 E1.
  assert (X : forall o : M Z, (forall w, dev w = d -> leaves o w 0 d) ->
    leaves (o ;; put (fun d => d <| is_mic_configured := b |>)) w1 tt (d <| is_mic_configured := b |>)).
  { intros o Ho. eapply leaves_bind; [by apply Ho|]. intros w2 E2. by apply leaves_put. }
  destruct b; destruct (is_mic_configured d) eqn:Em; cbn [negb];
    try (rewrite Same by done; by apply leaves_ret);
    apply X; intros w2 E2; case_match; apply mixer_works; first [done | congruence].
Qed.

Lemma notify_works s w d : dev w = d -> leaves (notify s) w tt d.
Proof.
  intros Ed. unfold notify. eapply leaves_bind; [by apply leaves_get|]. intros w1 E1.
  destruct (notify_sthal_status d); [|by apply leaves_ret]. eapply ends_bind; [by apply leaves_sys|]. intros r w2 [_ E2]. by apply leaves_ret.
Qed.

Lemma svoice_arrays mode : length (svoice_start_ctlvalue mode) = 3%nat /\ length (svoice_stop_ctlvalue mode) = 2%nat.
Proof. unfold svoice_start_ctlvalue, svoice_stop_ctlvalue. by repeat case_match. Qed.

Lemma start_hotword_works w d : dev w = d -> mixer d <> 0 ->
  leaves start_hotword w true (d <| recognize_started := Z.lor (recognize_started d) (bit HOTWORD_INDEX) |>).
Proof.
  intros Ed Hm. unfold start_hotword. eapply leaves_bind; [by apply (mixer_works _ _ _ _ w d)|]. intros w1 E1. cbn [negb Z.eqb].
  eapply leaves_bind; [by apply leaves_put|]. intros w2 E2. eapply leaves_bind; [by apply notify_works|]. intros w3 E3. by apply leaves_ret.
Qed.

Lemma stop_hotword_works w d : dev w = d -> mixer d <> 0 ->
  leaves stop_hotword w true (d <| recognize_started := Z.land (recognize_started d) (Z.lnot (bit HOTWORD_INDEX)) |>).
Proof.
  intros Ed Hm. unfold stop_hotword. eapply leaves_bind; [by apply (mixer_works _ _ _ _ w d)|]. intros w1 E1. cbn [negb Z.eqb].
  eapply leaves_bind; [by apply leaves_put|]. intros w2 E2. eapply leaves_bind; [by apply notify_works|]. intros w3 E3. by apply leaves_ret.
Qed.

Lemma start_svoice_works w d : dev w = d -> mixer d <> 0 ->
  leaves start_svoice w true (d <| recognize_started := Z.lor (recognize_started d) (bit SVOICE_INDEX) |>).
Proof.
  intros Ed Hm. destruct (svoice_arrays (svoicemodel_mode d)) as [A1 _]. unfold start_svoice.
  eapply leaves_bind; [by apply leaves_get|]. intros w1 E1.
  eapply leaves_bind; [by apply (mixer_works _ _ _ _ w1 d)|]. intros w2 E2. cbn [negb Z.eqb].
  eapply leaves_bind; [by apply leaves_get|]. intros w3 E3. eapply (leaves_bind _ _ _ 0 d).
  { destruct (_ && _); [by apply (mixer_works _ _ _ _ w3 d)|by apply leaves_ret]. }
  intros w4 E4. cbn [negb Z.eqb]. eapply leaves_bind; [by apply leaves_put|]. intros w5 E5. by apply leaves_ret.
Qed.

Lemma stop_svoice_works w d : dev w = d -> mixer d <> 0 ->
  leaves stop_svoice w true (d <| recognize_started := Z.land (recognize_started d) (Z.lnot (bit SVOICE_INDEX)) |>).
Proof.
  intros Ed Hm. destruct (svoice_arrays (svoicemodel_mode d)) as [_ A2]. unfold stop_svoice.
  eapply leaves_bind; [by apply leaves_get|]. intros w1 E1.
  eapply leaves_bind; [by apply (mixer_works _ _ _ _ w1 d)|]. intros w2 E2. cbn [negb Z.eqb].
  eapply leaves_bind; [by apply leaves_put|]. intros w3 E3. by apply leaves_ret.
Qed.

(** ** The power of the VTS *)

(** The device with the streaming ended. *)
Definition stream_ended (d : stdev) : stdev :=
  d <| is_streaming := 0 |> <| streaming_pcm := 0 |> <| is_seamless_recording := false |>.

Lemma close_streaming_works w : pcm_inv w -> leaves close_streaming_pcm w tt ((dev w) <| streaming_pcm := 0 |>).
Proof.
  intros (_ & Hs & _). unfold leaves, close_streaming_pcm, close_pcm, is_open, put, sys, mbind, ST_bind, get, mret, ST_ret, ends.
  cbv beta iota zeta. destruct (Z.eqb_spec (streaming_pcm (dev w)) 0) as [E0|E0]; cbn [negb].
  - exists tt, w. repeat split. destruct (dev w). simpl in *. by subst.
  - rewrite decide_True by auto. eexists tt, _. by repeat split.
Qed.

(** What [stdev_vts_set_power] does first. *)
Lemma end_stream_works {A} (k : M A) w r d' : pcm_inv w -> (forall w1, dev w1 = stream_ended (dev w) -> leaves k w1 r d') ->
  leaves (put (fun d => d <| is_streaming := 0 |>) ;; close_streaming_pcm ;;
          put (fun d => d <| is_seamless_recording := false |>) ;; k) w r d'.
Proof.
  intros Hw Hk. eapply ends_step; [done|]. set (w0 := w <| dev := _ |>).
  eapply leaves_bind; [by apply close_streaming_works; apply Hw|]. intros w1 E1.
  eapply leaves_bind; [by apply leaves_put|]. intros w2 E2. by apply Hk.
Qed.

(** The device with the VTS off, and with the models of [mask] on. *)
Definition powered_off (d : stdev) : stdev :=
  stream_ended d <| recognize_started := 0 |> <| is_mic_configured := is_mic_configured d && is_recording d |>.
Definition powered_on (mask : Z) (d : stdev) : stdev :=
  stream_ended d <| recognize_started := Z.lor (recognize_started d) mask |> <| is_mic_configured := true |>.

Lemma mask_cases m : is_mask m -> m = 0 \/ m = 1 \/ m = 2 \/ m = 3.
Proof. unfold is_mask. lia. Qed.

Lemma mask_has m i : is_mask m -> i = HOTWORD_INDEX \/ i = SVOICE_INDEX ->
  (Z.land m (bit i) = bit i /\ has_bit m i = true) \/ (Z.land m (bit i) = 0 /\ has_bit m i = false).
Proof. intros Hm [->| ->]; destruct (mask_cases _ Hm) as [->|[->|[->| ->]]]; vm_compute; tauto. Qed.

Lemma power_off_works w : pcm_inv w -> mixer (dev w) <> 0 -> is_mask (recognize_started (dev w)) ->
  leaves (stdev_vts_set_power 0) w tt (powered_off (dev w)).
Proof.
  intros Hw Hm Hr. unfold stdev_vts_set_power. apply end_stream_works; [done|]. intros w1 E1. cbn [negb Z.eqb].
  set (d1 := stream_ended (dev w)) in *.
  eapply leaves_bind; [by apply leaves_get|]. intros w2 E2.
  (* both models *)
  set (d2 := d1 <| recognize_started := Z.land (recognize_started d1) (Z.lnot (bit HOTWORD_INDEX)) |>).
  eapply (leaves_bind _ _ _ true d2).
  { destruct (has_bit (recognize_started d1) HOTWORD_INDEX) eqn:Eb; [by apply stop_hotword_works|].
    apply leaves_ret. rewrite E2. unfold d2. assert (Z.land (recognize_started d1) (Z.lnot (bit HOTWORD_INDEX)) = recognize_started d1) as ->.
    { unfold d1, has_bit in *. simpl in *. by destruct (mask_cases _ Hr) as [E|[E|[E|E]]]; rewrite E in *. }
    by destruct d1. }
  intros w3 E3. cbn [negb]. eapply leaves_bind; [by apply leaves_get|]. intros w4 E4.
  set (d3 := d2 <| recognize_started := 0 |>).
  eapply (leaves_bind _ _ _ true d3).
  { assert (Ez : Z.land (recognize_started d2) (Z.lnot (bit SVOICE_INDEX)) = 0).
    { unfold d2, d1. simpl. by destruct (mask_cases _ Hr) as [E|[E|[E|E]]]; rewrite E. }
    destruct (has_bit (recognize_started d2) SVOICE_INDEX) eqn:Eb.
    - destruct (stop_svoice_works w4 d2 E4 Hm) as (r & w' & E & K). exists r, w'. split; [done|]. by rewrite Ez in K.
    - apply leaves_ret. rewrite E4. unfold d3.
      assert (recognize_started d2 = 0) as Ed.
      { unfold d2, d1, has_bit in *. simpl in *. by destruct (mask_cases _ Hr) as [E|[E|[E|E]]]; rewrite E in *. }
      transitivity (d2 <| recognize_started := recognize_started d2 |>); [by destruct d2|by rewrite Ed]. }
  intros w5 E5. cbn [negb]. eapply leaves_bind; [by apply leaves_get|]. intros w6 E6.
  unfold powered_off. fold d1. change (is_recording d3) with (is_recording (dev w)). cbn [recognize_started].
  destruct (is_recording (dev w)) eqn:Er.
  - apply leaves_ret. rewrite E6. by rewrite andb_true_r.
  - rewrite andb_false_r. destruct (mic_works false w6 d3 E6 Hm) as (r & w' & E & K). by exists r, w'.
Qed.

Lemma power_on_works mask w : pcm_inv w -> mixer (dev w) <> 0 -> is_mask mask -> mask <> 0 ->
  leaves (stdev_vts_set_power mask) w tt (powered_on mask (dev w)).
Proof.
  intros Hw Hm Hk Hn. unfold stdev_vts_set_power. apply end_stream_works; [done|]. intros w1 E1.
  rewrite (proj2 (Z.eqb_neq _ _) Hn). cbn [negb]. set (d1 := stream_ended (dev w)) in *.
  set (d2 := d1 <| is_mic_configured := true |>). eapply leaves_bind; [by apply (mic_works true w1 d1)|]. intros w2 E2. fold d2 in E2.
  set (d3 := d2 <| recognize_started := Z.lor (recognize_started d2) (Z.land mask (bit HOTWORD_INDEX)) |>).
  assert (L0 : forall d, d <| recognize_started := Z.lor (recognize_started d) 0 |> = d) by (intros d; rewrite Z.lor_0_r; by destruct d).
  eapply (leaves_bind _ _ _ true d3).
  { unfold d3. destruct (mask_has mask HOTWORD_INDEX Hk (or_introl eq_refl)) as [[-> ->]|[-> ->]];
      [exact (start_hotword_works w2 d2 E2 Hm)|apply leaves_ret; by rewrite L0]. }
  intros w3 E3. cbn [negb].
  set (d4 := d3 <| recognize_started := Z.lor (recognize_started d3) (Z.land mask (bit SVOICE_INDEX)) |>).
  eapply (leaves_bind _ _ _ true d4).
  { unfold d4. destruct (mask_has mask SVOICE_INDEX Hk (or_intror eq_refl)) as [[-> ->]|[-> ->]];
      [exact (start_svoice_works w3 d3 E3 Hm)|apply leaves_ret; by rewrite L0]. }
  intros w4 E4. apply leaves_ret. rewrite E4. unfold d4, d3, d2, powered_on. fold d1. simpl. rewrite <- Z.lor_assoc.
  assert (Z.lor (Z.land mask (bit HOTWORD_INDEX)) (Z.land mask (bit SVOICE_INDEX)) = mask) as ->; [|done].
  by destruct (mask_cases _ Hk) as [->|[->|[->| ->]]].
Qed.
End controls.

(** ** An environment, and schedules

    A product, a framework and a system in which all calls succeed but those that an
    example lets fail, for the examples of [SthApi]. *)

#[local] Instance lab_conf : SoundTriggerConf := {|
  main_mic_ctlname := ["MIC"%string]; main_mic_ctlvalue := [1]; MAIN_MIC_CONTROL_COUNT := 1;
  headset_mic_ctlname := ["HEADSET MIC"%string]; headset_mic_ctlvalue := [1]; HEADSET_MIC_CONTROL_COUNT := 1;
  VTS_MIXER_CARD := 0; VTS_SOUND_CARD := 0; VTS_TRICAP_DEVICE_NODE := 9; VTS_RECORD_DEVICE_NODE := 10;
  VTSDRV_MISC_MODEL_BIN_MAXSZ := 0xB500 |}.

#[local] Instance lab_interface : SoundTriggerInterface := {|
  SOUND_MODEL_TYPE_KEYPHRASE := 0; SOUND_MODEL_TYPE_GENERIC := 1; RECOGNITION_STATUS_SUCCESS := 0;
  RECOGNITION_MODE_VOICE_TRIGGER := 1; SOUND_TRIGGER_MAX_PHRASES := 10; AUDIO_CHANNEL_IN_MONO := 0x10;
  AUDIO_FORMAT_PCM_16_BIT := 1; sizeof_sound_model := 48; SOUND_TRIGGER_HARDWARE_INTERFACE := "sound_trigger_hw_if" |}.

(** Which calls of a log fail, and with what. *)
Definition failures := sth_log -> sth_call -> option Z.
Definition no_failure : failures := fun _ _ => None.

Definition lab_answer (l : sth_log) (c : sth_call) : Z :=
  match c with
  | pcm_open _ _ => fresh ({[0]} ∪ open_pcms l)
  | mixer_open _ | mixer_get_ctl_by_name _ _ | pcm_is_ready _ | sys_poll _ _ | sys_malloc | sys_calloc | sys_dlopen | sys_dlsym => 1
  | uevent_open_socket => 7
  | sys_open_vts => 3
  | sys_mmap _ => 4096
  | uevent_kernel_multicast_recv _ => 23
  | sys_access => -1
  | _ => 0
  end.

(** Every message is a trigger of the hotword; [texts] reads a configuration. *)
Definition lab_env (f : failures) (texts : string -> string -> option Z) : SoundTriggerEnv := {|
  sth_answer l c := match f l c with Some r => r | None => lab_answer l c end;
  socket_fds _ := (5, 6);
  errno _ := 1;
  poll_events _ := ((true, false), false);
  uevent_strings _ := ["VOICE_WAKEUP_WORD_ID=2"%string];
  google_version _ := 1;
  str_parms_get_int := texts |}.

Definition no_text : string -> string -> option Z := fun _ _ => None.
#[local] Instance lab : SoundTriggerEnv := lab_env no_failure no_text.

Lemma lab_env_laws f texts : (forall l card device, f l (pcm_open card device) = None) ->
  SoundTriggerLaws (H0:=lab_env f texts).
Proof.
  intros Hf. split; [|done|done]. intros l card device. simpl. rewrite Hf. unfold lab_answer.
  pose proof (is_fresh ({[0]} ∪ open_pcms l)) as K. split; set_solver.
Qed.
#[local] Instance lab_laws : SoundTriggerLaws.
Proof. by apply lab_env_laws. Defined.

(** A call of the thread [t] and [n] of its steps. *)
Definition call (t : nat) (a : sth_api) (n : nat) : list (nat * option sth_api) := (t, Some a) :: replicate n (t, None).
(** Steps of a thread. *)
Definition go (t n : nat) : list (nat * option sth_api) := replicate n (t, None).

Definition hotword_model : sound_model := {|
  model_type := 0; vendor_uuid := hotword_uuid; data_size := 2; data_offset := 48; model_data := [1; 2] |}.
Definition svoice_model : sound_model := {|
  model_type := 0; vendor_uuid := bixby_uuid; data_size := 2; data_offset := 48; model_data := [3; 4] |}.
Definition capture_config : recognition_config := {|
  capture_requested := true; num_phrases := 1; phrases := [no_phrase]; config_data_size := 0; config_data := "" |}.
