(* ===== verification/SthCall.v ===== *)
(** * Sound trigger: during a voice call

    A voice call that starts while the microphone is on leaves the device silent
    ([hushed]); what is refused then; and that every step of the other calls and of
    the callback thread leaves it silent until the call ends or the device is closed
    ([calls_hushed], [iteration_hushed]). *)

From Stdlib Require Import String.
From S2P Require Import Prelude Effects Threads ThreadRules SthData SthPower SthOps SthStream SthState.

(** Nothing is recognised, recorded or streamed, nobody is called back, and the
    microphone is off. *)
Record hushed (d : stdev) : Prop := {
  hushed_open : sthal_opened d = true;
  hushed_call : voicecall_state d = VOICECALL_STARTED;
  hushed_models : recognize_started d = 0;
  hushed_callbacks : recognition_callbacks d = both 0;
  hushed_recording : is_recording d = false;
  hushed_stream : streaming_pcm d = 0;
  hushed_seamless : is_seamless_recording d = false;
  hushed_mic : is_mic_configured d = false
}.

Definition hushed_world (w : sth_world) : Prop := hushed (dev w).

Abbreviation hushing o := (keeps hushed_world o).

Create HintDb hushed.

(** What is known of a silent device. *)
Ltac hushed_known Hd :=
  rewrite ?(hushed_open _ Hd), ?(hushed_call _ Hd), ?(hushed_models _ Hd), ?(hushed_callbacks _ Hd), ?(hushed_recording _ Hd),
    ?(hushed_stream _ Hd), ?(hushed_seamless _ Hd), ?(hushed_mic _ Hd), ?Z.eqb_refl; cbn [negb andb orb].

Section keeping.
Context `{SoundTriggerConf, SoundTriggerInterface, SoundTriggerEnv}.

Lemma hushed_put f : (forall d, hushed d -> hushed (f d)) -> hushing (put f).
Proof. intros Hf w x w' Hw [= _ <-]. by apply Hf. Qed.

Lemma hushed_put_at {A} (field : stdev -> per_model A) assign i a : (forall l d, hushed d -> hushed (assign l d)) ->
  hushing (put_at field assign i a).
Proof.
  intros Hf w x w' Hw E. unfold put_at in E. destruct (set_at _ _ _) as [l|]; [|done]. injection E as <- <-. by apply Hf.
Qed.

Lemma hushed_forget i : hushing (put_at recognition_callbacks (fun l d => d <| recognition_callbacks := l |>) i 0).
Proof.
  intros w x w' Hw E. unfold put_at in E. rewrite (hushed_callbacks _ Hw) in E. unfold set_at in E.
  destruct (i =? HOTWORD_INDEX), (i =? SVOICE_INDEX); try done; injection E as <- <-; by destruct Hw.
Qed.

Lemma hushed_sys c : hushing (sys c).
Proof. by intros w x w' Hw [= <- <-]. Qed.
Lemma hushed_stored {A} (f : sth_log -> A) : hushing (stored f).
Proof. by intros w x w' Hw [= <- <-]. Qed.
Lemma hushed_nth_of {A} (field : stdev -> per_model A) i : hushing (nth_of field i).
Proof. intros w x w' Hw E. unfold nth_of in E. destruct (elem_at _ _); [by injection E as <- <-|done]. Qed.

(** A program may rely on the device that it has read. *)
Lemma hushed_get {B} (k : stdev -> M B) : (forall d, hushed d -> hushing (k d)) -> hushing (get ≫= k).
Proof. intros Hk w x w' Hw E. exact (Hk (dev w) Hw w x w' Hw E). Qed.

(** An operation whose answer is known, and that changes nothing. *)
Definition answers {A} (o : M A) (a : A) : Prop := forall w, hushed (dev w) -> o w = Some (a, w).

Lemma answers_bind {A B} (o : M A) (k : A -> M B) a : answers o a -> hushing (k a) -> hushing (o ≫= k).
Proof. intros Ho Hk w x w' Hw E. unfold mbind, ST_bind in E. rewrite (Ho w Hw) in E. by apply (Hk w x). Qed.

Lemma answers_step {A B} (o : M A) (k : A -> P B) a : answers o a -> steps_keep hushed_world (k a) ->
  steps_keep hushed_world (act o ≫= k).
Proof.
  intros Ho Hk. apply (steps_post hushed_world (fun x => x = a)); [|by intros x ->]. intros w x w' Hw E.
  rewrite (Ho w Hw) in E. by injection E as <- <-.
Qed.

Lemma bitmask_answers : answers stdev_active_callback_bitmask 0.
Proof. intros w Hw. unfold stdev_active_callback_bitmask, mbind, ST_bind, get. by rewrite (hushed_callbacks _ Hw). Qed.

(** The VTS is off already. *)
Lemma power_hushed : hushing (stdev_vts_set_power 0).
Proof.
  intros w x w' Hw E. unfold stdev_vts_set_power, close_streaming_pcm, stdev_vts_set_mic, put, mbind, ST_bind, get in E.
  destruct w as [d l], Hw; destruct d; simpl in *; subst. injection E as <- <-. by split.
Qed.
End keeping.

#[export] Hint Resolve keeps_ret keeps_undefined hushed_sys hushed_stored hushed_nth_of hushed_forget power_hushed : hushed.

(** The rules follow the operation. *)
Ltac hushes :=
  repeat first
    [ solve [auto with hushed nocore]
    | apply hushed_put; intros ? Hput; exact Hput
    | apply hushed_put; intros ? []; split; done
    | apply hushed_put_at; intros ? ? []; split; done
    | apply hushed_get; let d := fresh "d" in let Hd := fresh "Hd" in intros d Hd; hushed_known Hd
    | apply (answers_bind _ _ _ bitmask_answers); cbn [negb Z.eqb]
    | apply keeps_if
    | apply keeps_bind; [|intros ?]
    | match goal with
      | |- keeps _ (match ?x with inl _ => _ | inr _ => _ end) => destruct x
      | |- keeps _ (match ?x with Some _ => _ | None => _ end) => destruct x
      | |- keeps _ (match ?x with (_, _) => _ end) => destruct x
      end ].

Section operations.
Context `{SoundTriggerConf, SoundTriggerInterface, SoundTriggerEnv}.

(** ** What is refused *)

Lemma open_device_answers : answers open_device (inl (- EBUSY)).
Proof. intros w Hw. unfold open_device, mbind, ST_bind, get. by hushed_known Hw. Qed.
Lemma open_for_streaming_answers : answers open_for_streaming (- EBUSY).
Proof. intros w Hw. unfold open_for_streaming, mbind, ST_bind, get. by hushed_known Hw. Qed.
Lemma close_streaming_answers : answers close_streaming (inl (- EBUSY)).
Proof. intros w Hw. unfold close_streaming, mbind, ST_bind, get. by hushed_known Hw. Qed.
Lemma open_recording_answers : answers open_recording (- EBUSY).
Proof. intros w Hw. unfold open_recording, mbind, ST_bind, get. by hushed_known Hw. Qed.
Lemma close_recording_answers : answers close_recording (- EBUSY).
Proof. intros w Hw. unfold close_recording, mbind, ST_bind, get. by hushed_known Hw. Qed.
Lemma stop_checks_answers handle : answers (stop_recognition_checks handle) (inl 0).
Proof. intros w Hw. unfold stop_recognition_checks, mbind, ST_bind, get. by hushed_known Hw. Qed.

(** The index of a model that is loaded. *)
Lemma good_handle d handle : bad_handle d handle = false -> handle = HOTWORD_INDEX \/ handle = SVOICE_INDEX.
Proof.
  unfold bad_handle, elem_at. destruct (Z.eqb_spec handle HOTWORD_INDEX); [by left|].
  destruct (Z.eqb_spec handle SVOICE_INDEX); [by right|done].
Qed.

Lemma start_checks_answers w handle config : hushed (dev w) ->
  start_checks handle config w = Some (Some (if bad_handle (dev w) handle then - ENOSYS else - EBUSY), w).
Proof.
  intros Hw. unfold start_checks, mbind, ST_bind, get. destruct (bad_handle (dev w) handle) eqn:Eb; [done|].
  unfold nth_of. hushed_known Hw. destruct (good_handle _ _ Eb) as [->| ->]; cbn; hushed_known Hw; done.
Qed.

(** ** The operations that do something *)

Lemma handle_stop_hushed : hushing handle_stop_recognition_l.
Proof. unfold handle_stop_recognition_l, handle_stop_model. hushes. Qed.
#[local] Hint Resolve handle_stop_hushed : hushed.

Lemma load_hushed given model callback cookie : hushing (load_sound_model given model callback cookie).
Proof.
  assert (L : forall data i, hushing (vts_load_sound_model data i)).
  { intros data i. unfold vts_load_sound_model, load_modelbinary. hushes. }
  unfold load_sound_model. destruct given, model as [sm|]; try apply keeps_ret.
  apply keeps_if; [apply keeps_ret|]. apply keeps_if; [apply keeps_ret|]. destruct (model_index_of _); [|apply keeps_ret]. hushes.
Qed.

Lemma unload_checks_hushed handle : hushing (unload_checks handle).
Proof. unfold unload_checks. hushes. Qed.
#[local] Hint Resolve load_hushed unload_checks_hushed : hushed.

(** The callback of a model is forgotten. *)
Lemma trigger_callback_hushed i w x w' : hushed (dev w) -> trigger_callback i w = Some (x, w') -> hushed (dev w') /\ x = None.
Proof.
  intros Hw E. unfold trigger_callback, nth_of, mbind, ST_bind in E.
  destruct (elem_at (model_execstate _) i) as [state|]; [|done]. rewrite (hushed_callbacks _ Hw) in E.
  unfold elem_at in E. destruct (i =? HOTWORD_INDEX), (i =? SVOICE_INDEX); simpl in E; try done;
    rewrite andb_false_r in E; by injection E as <- <-.
Qed.

Lemma trigger_finish_hushed i : hushing (trigger_finish i).
Proof. unfold trigger_finish. hushes. Qed.
#[local] Hint Resolve trigger_finish_hushed : hushed.

(** ** Programs *)

Abbreviation steps p := (steps_keep hushed_world p).

Lemma hushed_mutex {A} m (p : P A) : steps p -> steps (with_mutex m p).
Proof. intros Hp. change (steps (a ← p; mutex_unlock m ;; mret a)). by apply steps_bind. Qed.

Create HintDb hushed_steps.

Ltac hushed_steps :=
  repeat first
    [ solve [auto with hushed_steps nocore]
    | apply steps_act; solve [hushes]
    | apply steps_ret
    | apply hushed_mutex
    | apply (steps_read hushed_world dev); let w := fresh "w" in let Hw := fresh "Hw" in intros w Hw; hushed_known Hw
    | apply steps_if
    | apply steps_bind; [|intros ?]
    | match goal with
      | |- context [match ?x with inl _ => _ | inr _ => _ end] => destruct x
      | |- context [match ?x with Some _ => _ | None => _ end] => destruct x
      | |- context [match ?x with (_, _) => _ end] => destruct x
      | |- context [if ?b then _ else _] => destruct b
      end
    | solve [done] | solve [intros ?; done] ].

Lemma answers_act {A} (o : M A) a : answers o a -> steps (act o : P A).
Proof. intros Ho. apply steps_act. intros w x w' Hw E. rewrite (Ho w Hw) in E. by injection E as <- <-. Qed.

Lemma stop_l_hushed handle : steps (stdev_stop_recognition_l handle).
Proof. apply (answers_step _ _ _ (stop_checks_answers handle)). done. Qed.
#[local] Hint Resolve stop_l_hushed : hushed_steps.

Lemma stop_retry_hushed handle n retries : steps (stop_retry handle n retries).
Proof. revert n. induction retries as [|retries IH]; intros n; cbn [stop_retry]; unfold stop_aborted; hushed_steps. Qed.
#[local] Hint Resolve stop_retry_hushed : hushed_steps.

Lemma start_hushed handle config callback cookie : steps (start_recognition handle config callback cookie).
Proof.
  apply (steps_post hushed_world (fun x => x <> None)); [|by intros [e|]].
  intros w x w' Hw E. rewrite (start_checks_answers w handle config Hw) in E. by injection E as <- <-.
Qed.

Lemma trigger_hushed i : steps (handle_trigger i).
Proof.
  unfold handle_trigger, trigger_event, sound_trigger_generic_event_alloc, sound_trigger_event_alloc.
  apply steps_bind; [hushed_steps|]. intros [event|]; [|done].
  apply (steps_post hushed_world (fun x => x = None)); [|intros x ->; hushed_steps].
  intros w x w' Hw E. exact (trigger_callback_hushed i w x w' Hw E).
Qed.

Lemma messages_hushed msgs : steps (handle_messages msgs).
Proof.
  induction msgs as [|msg msgs IH]; cbn [handle_messages]; [done|]. destruct (trigger_of msg); [|done].
  apply steps_bind; [apply trigger_hushed|]. by intros [].
Qed.
#[local] Hint Resolve start_hushed messages_hushed : hushed_steps.

Lemma prologue_hushed : steps callback_prologue.
Proof. unfold callback_prologue. hushed_steps. Qed.

Lemma iteration_hushed l : steps (callback_iteration l).
Proof. unfold callback_iteration, recover_socket, callback_exit, callback_continue. hushed_steps. Qed.

(** ** Calls *)

(** The calls that neither end the voice call nor close the device. *)
Definition during_call (t : nat) (a : sth_api) : Prop :=
  match a with Sth_close => False | Voicecall_status callstate => callstate = VOICECALL_STARTED | _ => True end.

Lemma calls_hushed t a : during_call t a -> steps (sth_perform a).
Proof.
  intros Ha. destruct a; try done; unfold sth_perform.
  - unfold stdev_open. apply steps_if; [done|]. apply hushed_mutex. by apply (answers_step _ _ _ open_device_answers).
  - unfold stdev_get_properties. hushed_steps.
  - unfold stdev_load_sound_model. hushed_steps.
  - unfold stdev_unload_sound_model. hushed_steps.
  - unfold stdev_start_recognition. hushed_steps.
  - unfold stdev_start_recognition_extended. hushed_steps.
  - unfold stdev_stop_recognition. hushed_steps.
  - apply hushed_mutex, hushed_mutex, (answers_act _ _ open_for_streaming_answers).
  - unfold sound_trigger_read_samples. hushed_steps.
  - unfold sound_trigger_close_for_streaming. apply steps_if; [done|].
    by apply hushed_mutex, hushed_mutex, (answers_step _ _ _ close_streaming_answers).
  - apply hushed_mutex, hushed_mutex, (answers_act _ _ open_recording_answers).
  - unfold sound_trigger_read_recording_samples. hushed_steps.
  - apply hushed_mutex, hushed_mutex, (answers_act _ _ close_recording_answers).
  - unfold sound_trigger_headset_status, set_active_mic. hushed_steps.
  - simpl in Ha. subst. unfold sound_trigger_voicecall_status. hushed_steps.
  - unfold sound_trigger_notify_ahal_record_status. hushed_steps.
Qed.
End operations.
