(* ===== verification/SthApi.v ===== *)
(** * Sound trigger: theorems

    The interleavings of any number of clients and of the callback thread: what holds
    in all of them, and schedules that show what does not; and what single operations
    do. *)

From Stdlib Require Import String.
From S2P Require Import Prelude Effects Threads ThreadRules SthData SthPower SthOps SthStream SthOrder SthRecord SthState SthControls SthCall.

(** ** All interleavings *)

Section interleavings.
Context `{SoundTriggerLaws, !SoundTriggerInterface}.

(** The device in the state [w], and no call. *)
Definition idle_config (w : sth_world) : config sth_world sth_mutex := {| world := w; owner := ∅; threads := ∅ |}.

Lemma start_disciplined : disciplined rank sth_start.
Proof. split; [intros t th E|intros m t E]; destruct (lookup_empty_Some _ _ E). Qed.

Lemma reachable_disciplined c : rtc (thread_step_with no_stop) sth_start c -> disciplined rank c.
Proof.
  apply (keeps_closure (disciplined rank)); [|apply start_disciplined]. intros x y Hx Hxy.
  eapply disciplined_step; [apply prologue_ordered|apply iteration_ordered|exact calls_ordered|exact Hx|exact Hxy].
Qed.

(** C32. Without [stdev_stop_recognition] there is no deadlock, however the calls of
    any number of clients and the callback thread interleave: a thread that waits for
    a mutex or for the end of the callback thread waits, possibly through other
    threads that wait, for one that does not wait. *)
Theorem waiting_is_finite c t t' : rtc (thread_step_with no_stop) sth_start c -> waits_for c t t' ->
  exists t'', rtc (waits_for c) t' t'' /\ unfinished c t'' /\ waiting c t'' = None.
Proof.
  intros Hc%reachable_disciplined W. eapply (waiting_ends rank 3); [|exact Hc|exact W]. intros []; simpl; lia.
Qed.

(** C33. The fields of the device keep their meaning in all interleavings of all calls,
    those without a mutex included: an entry of the table of models is that model or
    none, at most one model is streaming, and the sets of recognised and of generic
    models are sets of models. *)
Theorem device_well_formed c : rtc thread_step sth_start c -> wf (dev (world c)).
Proof.
  intros Hc. assert (K : config_keeps wf_world c); [|apply K].
  revert Hc. apply (keeps_closure (config_keeps wf_world)).
  - intros x y Hx Hxy. eapply config_keeps_step; [intros t a _; apply calls_wf|exact prologue_wf|exact iteration_wf|exact Hx|by apply step_with_all].
  - split; [|intros t th E; destruct (lookup_empty_Some (M:=gmap nat) _ _ E)]. split; simpl; [by right|done|by left|done|done].
Qed.

Lemma recording_safe w reader c : pcm_inv w -> rtc (thread_step_with (while_open reader)) (idle_config w) c ->
  all_safe pcm_inv recording_lock recording_stays (fun t => bool_decide (t = reader)) c.
Proof.
  intros Hw. apply (keeps_closure (all_safe pcm_inv recording_lock recording_stays (fun t => bool_decide (t = reader)))).
  - intros x y Hx Hxy. eapply all_safe_step; [done|exact prologue_safely|exact iteration_safely|apply calls_safely|exact Hx|exact Hxy].
  - split; [done|]. split; [intros t th E|intros t E]; destruct (lookup_empty_Some _ _ E).
Qed.

(** C31. Opening and reading a recording is safe while the device is open, whatever the
    other clients do in the meantime and however their steps interleave: a client that
    does nothing else never reads or closes a PCM device that is not open, and never
    accesses an array outside its bounds; although the samples are read without the
    mutex [lock] that guards the device. *)
Theorem recording_reads_defined w reader c : pcm_inv w ->
  rtc (thread_step_with (while_open reader)) (idle_config w) c -> ~ faults c reader /\ pcm_inv (world c).
Proof.
  intros Hw Hc. pose proof (recording_safe w reader c Hw Hc) as K. split; [|apply K].
  eapply strict_defined; [exact K|]. by apply bool_decide_eq_true_2.
Qed.
End interleavings.

(** ** Single operations *)

Section operations.
Context `{SoundTriggerLaws, !SoundTriggerInterface}.

(** [set_mixer_ctrls], with its two directions and its optional values, is the
    sequence of the writes of a list, forwards or backwards, up to the first control
    that is missing or refuses the value; without a mixer it fails. *)
Theorem set_mixer_ctrls_reference names values count (backwards : bool) w : length names = count ->
  match values with Some l => length names = length l | None => True end ->
  set_mixer_ctrls names values count backwards w =
    if mixer (dev w) =? 0 then Some (- EINVAL, w)
    else write_controls (if backwards then reverse (controls names values) else controls names values) w.
Proof. apply mixer_reference. Qed.

(** An operation that leaves the device as [d], and the PCM devices in order. *)
Definition lands {A} (o : M A) (w : sth_world) (a : A) (d : stdev) : Prop :=
  ends o w (fun r w' => r = a /\ dev w' = d /\ pcm_inv w').

Lemma lands_bind {A B} (o : M A) (k : A -> M B) w a d b d' :
  lands o w a d -> (forall w1, dev w1 = d -> pcm_inv w1 -> lands (k a) w1 b d') -> lands (o ≫= k) w b d'.
Proof. intros Ho Hk. eapply ends_bind; [exact Ho|]. intros x w1 (-> & E & Hw1). by apply Hk. Qed.

Lemma leaves_lands {A} (o : M A) w a d : pcm_inv w -> keeps pcm_inv o -> leaves o w a d -> lands o w a d.
Proof. intros Hw Ho (r & w' & E & -> & Ed). exists a, w'. split; [done|]. split; [done|]. split; [done|]. by apply (Ho w a). Qed.



Context `{!WorkingMixer}.

Lemma power_off_lands w d : dev w = d -> pcm_inv w -> mixer d <> 0 -> is_mask (recognize_started d) ->
  lands (stdev_vts_set_power 0) w tt (powered_off d).
Proof.
  intros <- Hw Hm Hr. apply leaves_lands; [done|apply quiet_keeps, power_quiet|by apply power_off_works].
Qed.

(** With a mixer that works, the power cycle with which the recognition is
    reconfigured leaves exactly the models of the given set recognised, whatever was
    recognised before; it ends a stream and its PCM device; and the microphone is on
    exactly if a model is recognised or a recording still uses it. *)
Theorem power_cycle w mask : pcm_inv w -> wf (dev w) -> mixer (dev w) <> 0 -> is_mask mask ->
  exists w', (stdev_vts_set_power 0 ;; stdev_vts_set_power mask) w = Some (tt, w') /\
    recognize_started (dev w') = mask /\
    is_mic_configured (dev w') = negb (mask =? 0) || (is_mic_configured (dev w) && is_recording (dev w)) /\
    is_streaming (dev w') = 0 /\ streaming_pcm (dev w') = 0 /\ is_seamless_recording (dev w') = false /\
    recognition_callbacks (dev w') = recognition_callbacks (dev w) /\ pcm_inv w'.
Proof.
  intros Hw Hd Hm Hk.
  assert (K : lands (stdev_vts_set_power 0 ;; stdev_vts_set_power mask) w tt
    (if mask =? 0 then powered_off (powered_off (dev w)) else powered_on mask (powered_off (dev w)))).
  { eapply lands_bind; [by apply power_off_lands; [..|apply Hd]|]. intros w1 E1 Hw1. destruct (Z.eqb_spec mask 0) as [->|Hn].
    - by apply power_off_lands.
    - apply leaves_lands; [done|apply quiet_keeps, power_quiet|]. rewrite <- E1. apply power_on_works; try done. by rewrite E1. }
  destruct K as ([] & w' & E & _ & Ed & Hw'). exists w'. split; [done|]. rewrite Ed.
  destruct (Z.eqb_spec mask 0) as [->|Hn]; simpl; rewrite <- ?andb_assoc, ?andb_diag; by do 6 (split; [done|]).
Qed.

(** ** Voice calls *)















(** ** Opening *)

(** The device while nothing is listened to, and without the callback thread. *)
Definition silent (d : stdev) : Prop :=
  sthal_opened d = true /\ streaming_pcm d = 0 /\ recognize_started d = 0 /\ is_mic_configured d = false /\
  callback_thread_active d = false /\ send_socket d = -1 /\ term_socket d = -1 /\ uevent_socket d = -1.

Lemma open_device_works w : sthal_opened (dev w) = false -> callback_thread_active (dev w) = false ->
  (forall l, 0 <= sth_answer l sys_open_vts) -> (forall l fd, sth_answer l (sys_mmap fd) <> -1) ->
  (forall l card, sth_answer l (mixer_open card) <> 0) ->
  ends open_device w (fun r w' => silent (dev w') /\ exists b, r = inr b /\
    ((forall l, sth_answer l sys_access = 0) -> (forall l, sth_answer l sys_dlopen = 0) -> b = true)).
Proof.
  intros Ho Ht Hfd Hmap Hm. unfold open_device.
  eapply ends_step; [done|]. cbv beta. rewrite Ho. eapply ends_step; [done|]. eapply ends_step; [done|]. cbv beta.
  rewrite (proj2 (Z.ltb_ge _ _) (Hfd _)). eapply ends_step; [done|]. cbv beta. rewrite (proj2 (Z.eqb_neq _ _) (Hmap _ _)).
  eapply ends_step; [done|]. eapply ends_step; [done|]. cbv beta. rewrite (proj2 (Z.eqb_neq _ _) (Hm _ _)). cbn [negb Z.eqb].
  eapply ends_step; [done|]. eapply ends_step; [done|]. cbv beta.
  destruct (sth_answer _ sys_access =? 0) eqn:Ea.
  - eapply ends_step; [done|]. eapply ends_step; [done|]. cbv beta.
    destruct (sth_answer _ sys_dlopen =? 0) eqn:El; [|do 2 (eapply ends_step; [done|])]; apply ends_ret;
      (split; [by unfold silent; simpl|]); (eexists; split; [done|]); [done|]. intros _ Hd. by rewrite Hd in El.
  - apply ends_ret. split; [by unfold silent; simpl|]. exists false. split; [done|]. intros Ha. by rewrite Ha in Ea.
Qed.

Lemma silent_power w : silent (dev w) -> exists w', stdev_vts_set_power 0 w = Some (tt, w') /\ silent (dev w').
Proof.
  intros (K1 & K2 & K3 & K4 & K5). unfold stdev_vts_set_power, close_streaming_pcm, stdev_vts_set_mic, put, mbind, ST_bind, get.
  destruct w as [d l]; destruct d; simpl in *; subst.
  destruct is_recording; by eexists.
Qed.

Lemma silent_sockets w : silent (dev w) -> stdev_close_callback_thread_sockets w = Some (tt, w).
Proof.
  intros (_ & _ & _ & _ & _ & E1 & E2 & E3). unfold stdev_close_callback_thread_sockets, mbind, ST_bind, get. by rewrite E1, E2, E3.
Qed.

Lemma silent_join w : silent (dev w) -> exists w', solo (stdev_join_callback_thread false) w = Some (tt, w') /\ silent (dev w').
Proof.
  intros Hw. destruct (silent_power w Hw) as (w' & E & Hw'). exists w'. split; [|done]. unfold stdev_join_callback_thread.
  rewrite solo_bind. cbn [solo act]. unfold get at 1. destruct Hw as (_ & _ & _ & _ & -> & _). cbn.
  rewrite (bind_some _ _ _ _ _ E). by rewrite silent_sockets.
Qed.

Lemma silent_close_mixer w : silent (dev w) -> exists w', solo stdev_close_mixer w = Some (tt, w') /\ silent (dev w') /\
  exists r, head (slog w') = Some (mixer_close (mixer (dev w')), r).
Proof.
  intros Hw. destruct (silent_power w Hw) as (w1 & E1 & Hw1), (silent_join w1 Hw1) as (w2 & E2 & Hw2).
  unfold stdev_close_mixer. rewrite solo_bind. cbn [solo act]. rewrite E1.
  rewrite solo_bind, E2. eexists. split; [done|]. split; [done|]. by eexists.
Qed.

(** Once the mixer is open, [stdev_open] succeeds whatever fails after it, and a
    second one is refused.  Where the library of the audio HAL cannot be loaded, the
    device is left open although its mixer has just been closed. *)
Theorem open_ignores_failures w : sthal_opened (dev w) = false -> callback_thread_active (dev w) = false ->
  (forall l, 0 <= sth_answer l sys_open_vts) -> (forall l fd, sth_answer l (sys_mmap fd) <> -1) ->
  (forall l card, sth_answer l (mixer_open card) <> 0) ->
  exists w', solo (sth_perform (Sth_open SOUND_TRIGGER_HARDWARE_INTERFACE)) w = Some (0, w') /\
    sthal_opened (dev w') = true /\
    solo (sth_perform (Sth_open SOUND_TRIGGER_HARDWARE_INTERFACE)) w' = Some (- EBUSY, w') /\
    ((forall l, sth_answer l sys_access = 0) -> (forall l, sth_answer l sys_dlopen = 0) ->
     exists r, head (slog w') = Some (mixer_close (mixer (dev w')), r)).
Proof.
  intros Ho Ht Hfd Hmap Hm. destruct (open_device_works w Ho Ht Hfd Hmap Hm) as (r & w1 & E1 & Hw1 & b & -> & Hb).
  assert (K : exists w', solo (sth_perform (Sth_open SOUND_TRIGGER_HARDWARE_INTERFACE)) w = Some (0, w') /\ sthal_opened (dev w') = true /\
    (b = true -> exists r, head (slog w') = Some (mixer_close (mixer (dev w')), r))).
  { cbn [sth_perform]. unfold stdev_open, with_mutex. rewrite String.eqb_refl. cbn [negb].
    rewrite solo_bind. cbn [solo mutex_lock]. rewrite !solo_bind. cbn [solo act]. rewrite E1. clear E1 Hb. destruct b.
    - destruct (silent_close_mixer w1 Hw1) as (w2 & E2 & Hw2 & Hc). rewrite solo_bind, E2. exists w2. split; [done|]. split; [apply Hw2|done].
    - rewrite solo_bind. cbn [solo act]. rewrite mixer_reference by done. destruct (mixer (dev w1) =? 0).
      { exists w1. split; [done|]. by split; [apply Hw1|]. }
      destruct (write_total (controls vts_forcereset_ctlname (Some [1])) w1) as (r & w2 & E2 & Ed). rewrite E2.
      exists w2. split; [done|]. rewrite Ed. by split; [apply Hw1|]. }
  destruct K as (w' & E & O & Hc). exists w'. split; [done|]. split; [done|]. split; [|auto].
  cbn [sth_perform]. unfold stdev_open, with_mutex. rewrite String.eqb_refl. cbn [negb].
    rewrite solo_bind. cbn [solo mutex_lock]. rewrite !solo_bind. cbn [solo act]. unfold open_device.
  rewrite (bind_some get _ w' _ w' eq_refl), O. done.
Qed.
End operations.

(** ** Examples *)

#[local] Existing Instances lab_conf lab_interface lab lab_laws.

#[local] Instance lab_mixer : WorkingMixer.
Proof. by split. Defined.

(** The calls of a schedule are allowed. *)
Ltac check_calls Ha :=
  cbn in Ha; repeat (apply elem_of_cons in Ha as [Ha|Ha]; [try discriminate Ha; injection Ha as -> ->; try done|]);
  by apply elem_of_nil in Ha.

(** Client 1 waits for the mutex that client 0 holds. *)
Definition contention : list (nat * option sth_api) := call 0 (Sth_open "sound_trigger_hw_if") 1 ++ call 1 Open_recording 0.

Lemma waiting_is_finite_witness :
  rtc (thread_step_with no_stop) sth_start (after contention sth_start) /\ waits_for (after contention sth_start) 1 0 /\
  exists t'', rtc (waits_for (after contention sth_start)) 0%nat t'' /\ unfinished (after contention sth_start) t'' /\
    waiting (after contention sth_start) t'' = None.
Proof.
  assert (R : rtc (thread_step_with no_stop) sth_start (after contention sth_start))
    by (apply after_steps_with; [done|]; intros t a Ha; check_calls Ha).
  assert (W : waits_for (after contention sth_start) 1 0) by (vm_compute; reflexivity).
  split; [exact R|]. split; [exact W|]. exact (waiting_is_finite _ 1 0 R W).
Defined.

(** The hotword is recognised. *)
Definition listening : list (nat * option sth_api) :=
  call 1 (Sth_open "sound_trigger_hw_if") 5 ++ call 1 (Load_sound_model true (Some hotword_model) 1 1) 4 ++
  call 1 (Start_recognition 0 (Some capture_config) 1 1) 11.

Lemma device_well_formed_witness : rtc thread_step sth_start (after listening sth_start) /\
  recognize_started (dev (world (after listening sth_start))) = 1 /\ wf (dev (world (after listening sth_start))).
Proof.
  assert (R : rtc thread_step sth_start (after listening sth_start)) by by apply after_steps.
  split; [exact R|]. split; [vm_compute; reflexivity|]. exact (device_well_formed _ R).
Defined.

(** The open device, with its mixer. *)
Definition opened : sth_world := {| dev := (opened_device g_stdev) <| mixer := 1 |>; slog := [] |}.

Lemma opened_pcm d : recording_pcm d = 0 -> streaming_pcm d = 0 -> pcm_inv {| dev := d; slog := [] |}.
Proof. intros E1 E2. unfold pcm_inv. simpl. by rewrite E1, E2. Qed.

(** Client 0 is about to read samples of a recording, without [lock], when client 1
    reports a headset. *)
Definition read_and_headset : list (nat * option sth_api) :=
  call 0 Open_recording 6 ++ call 0 (Read_recording_samples 100) 5 ++ call 1 (Headset_status true) 3.

Lemma recording_reads_defined_witness : pcm_inv opened /\
  rtc (thread_step_with (while_open 0)) (idle_config opened) (after read_and_headset (idle_config opened)) /\
  ~ faults (after read_and_headset (idle_config opened)) 0 /\ pcm_inv (world (after read_and_headset (idle_config opened))).
Proof.
  assert (I : pcm_inv opened) by by apply opened_pcm.
  assert (R : rtc (thread_step_with (while_open 0)) (idle_config opened) (after read_and_headset (idle_config opened))).
  { apply after_steps_with; [vm_compute; reflexivity|]. intros t a Ha. check_calls Ha. }
  split; [exact I|]. split; [exact R|]. exact (recording_reads_defined opened 0 _ I R).
Defined.

Lemma set_mixer_ctrls_reference_witness :
  set_mixer_ctrls ["A"; "B"]%string (Some [1; 2]) 2 true opened =
    write_controls [("B"%string, 2); ("A"%string, 1)] opened.
Proof. exact (set_mixer_ctrls_reference ["A"; "B"]%string (Some [1; 2]) 2 true opened eq_refl eq_refl). Defined.

Definition recognising : sth_world := {|
  dev := (opened_device g_stdev) <| mixer := 1 |> <| recognize_started := 1 |> <| is_mic_configured := true |>; slog := [] |}.

Lemma recognising_wf : wf (dev recognising).
Proof. split; simpl; first [by left | done | by intros _; left]. Qed.

Lemma power_cycle_witness : exists w', (stdev_vts_set_power 0 ;; stdev_vts_set_power 2) recognising = Some (tt, w') /\
  recognize_started (dev w') = 2 /\ is_mic_configured (dev w') = true.
Proof.
  destruct (power_cycle recognising 2) as (w' & E & R & C & _);
    [by apply opened_pcm|apply recognising_wf|done|done|]. exists w'. split; [exact E|]. split; [exact R|exact C].
Defined.


(** The library of the audio HAL is there, and cannot be loaded. *)
Definition no_library : failures := fun _ c =>
  match c with sys_access => Some 0 | sys_dlopen => Some 0 | _ => None end.

Lemma open_ignores_failures_witness (env := lab_env no_library no_text) :
  exists w', solo (sth_perform (H1:=env) (Sth_open "sound_trigger_hw_if")) {| dev := g_stdev; slog := [] |} = Some (0, w') /\
    sthal_opened (dev w') = true /\ exists r, head (slog w') = Some (mixer_close (mixer (dev w')), r).
Proof.
  destruct (open_ignores_failures (H0:=env) {| dev := g_stdev; slog := [] |})
    as (w' & E & O & _ & C); [done..|]. exists w'. split; [exact E|]. split; [exact O|]. by apply C.
Defined.
