(* ===== verification/SthTrigger.v ===== *)
(** * Sound trigger: what the callback thread delivers

    One trigger, from the event to the state in which it leaves the device. *)

From Stdlib Require Import String.
From S2P Require Import Prelude Effects Threads ThreadRules SthData SthPower SthOps SthStream SthOrder SthRecord SthState SthControls SthApi.

(** The callbacks of a log, latest first. *)
Fixpoint deliveries (l : sth_log) : list (Z * recognition_event * Z) :=
  match l with
  | [] => []
  | (recognition_callback callback event cookie, _) :: l => (callback, event, cookie) :: deliveries l
  | _ :: l => deliveries l
  end.

Definition no_delivery (c : sth_call) : bool := match c with recognition_callback _ _ _ => false | _ => true end.

Create HintDb silence.

Section silence.
Context `{SoundTriggerConf, SoundTriggerInterface, SoundTriggerEnv} (l : list (Z * recognition_event * Z)).

Abbreviation silently o := (keeps (fun w => deliveries (slog w) = l) o).

Lemma silently_sys c : no_delivery c = true -> silently (sys c).
Proof. intros Hc w x w' Hw [= <- <-]. by destruct c. Qed.
Lemma silently_put f : silently (put f).
Proof. by intros w x w' Hw [= <- <-]. Qed.
Lemma silently_get : silently get.
Proof. by intros w x w' Hw [= <- <-]. Qed.
Lemma silently_is_open p : silently (is_open p).
Proof. intros w x w' Hw E. unfold is_open in E. destruct (decide _); [by injection E as <- <-|done]. Qed.
Lemma silently_array_at {A} (a : list A) i : silently (array_at a i).
Proof. unfold array_at. destruct (if 0 <=? i then _ else _); [apply keeps_ret|apply keeps_undefined]. Qed.

#[local] Hint Resolve keeps_ret keeps_undefined silently_put silently_get silently_is_open silently_array_at : silence.
#[local] Hint Extern 1 (silently (sys _)) => apply silently_sys; reflexivity : silence.

Ltac silence :=
  repeat first
    [ solve [auto with silence nocore]
    | apply keeps_if
    | apply keeps_bind; [|intros ?]
    | match goal with |- keeps _ (match ?x with Some _ => _ | None => _ end) => destruct x end ].

Lemma ctrls_silently names values reverse count i ret : silently (set_ctrls_loop names values reverse count i ret).
Proof. revert i ret. induction count as [|count IH]; intros i ret; cbn [set_ctrls_loop]; silence. Qed.
#[local] Hint Resolve ctrls_silently : silence.

Lemma mic_silently b : silently (stdev_vts_set_mic b).
Proof. unfold stdev_vts_set_mic, set_mixer_ctrls. silence. Qed.
#[local] Hint Resolve mic_silently : silence.

Lemma power_silently mask : silently (stdev_vts_set_power mask).
Proof.
  unfold stdev_vts_set_power, start_hotword, start_svoice, stop_hotword, stop_svoice, notify, close_streaming_pcm, close_pcm,
    set_mixer_ctrls. silence.
Qed.
End silence.

Section trigger.
Context `{SoundTriggerLaws, !SoundTriggerInterface, !WorkingMixer}.

(** The models that go on when the callback of the model [i] is gone. *)
Definition remaining (d : stdev) (i : Z) : Z :=
  if i =? HOTWORD_INDEX then if at_svoice (recognition_callbacks d) =? 0 then 0 else bit SVOICE_INDEX
  else if at_hotword (recognition_callbacks d) =? 0 then 0 else bit HOTWORD_INDEX.

(** Whether the audio of the trigger is wanted. *)
Definition captures (d : stdev) (i : Z) : bool :=
  match elem_at (configs d) i with Some (Some c) => capture_requested c | _ => false end.

Lemma event_allocated i w handle : i = HOTWORD_INDEX \/ i = SVOICE_INDEX -> elem_at (model_handles (dev w)) i = Some handle ->
  (forall l, sth_answer l sys_calloc <> 0) ->
  exists event w', trigger_event i w = Some (Some event, w') /\ dev w' = dev w /\ event_model event = handle /\
    deliveries (slog w') = deliveries (slog w) /\ open_pcms (slog w') = open_pcms (slog w).
Proof.
  intros Hi Eh Hc. unfold trigger_event, sound_trigger_generic_event_alloc, sound_trigger_event_alloc, mbind, ST_bind, get, sys.
  cbv beta iota zeta. destruct (has_bit _ _); rewrite (proj2 (Z.eqb_neq _ _) (Hc _)); unfold nth_of; simpl; rewrite Eh;
    destruct Hi as [->| ->]; simpl; by do 2 eexists.
Qed.

Lemma remaining_mask d i : i = HOTWORD_INDEX \/ i = SVOICE_INDEX -> is_mask (remaining d i).
Proof. unfold remaining. intros [->| ->]; simpl; by case_match. Qed.

Lemma bitmask_value w : stdev_active_callback_bitmask w = Some
  (Z.lor (if at_hotword (recognition_callbacks (dev w)) =? 0 then 0 else bit HOTWORD_INDEX)
         (if at_svoice (recognition_callbacks (dev w)) =? 0 then 0 else bit SVOICE_INDEX), w).
Proof. done. Qed.

(** What follows a callback that has been made. *)
Lemma finish_lands i w d : i = HOTWORD_INDEX \/ i = SVOICE_INDEX -> dev w = d -> pcm_inv w -> wf d -> mixer d <> 0 ->
  elem_at (model_execstate d) i = Some MODEL_STATE_RUNNING -> elem_at (recognition_callbacks d) i = Some 0 -> stop_failed d = false ->
  ends (trigger_finish i) w (fun r w' =>
    deliveries (slog w') = deliveries (slog w) /\ recognition_callbacks (dev w') = recognition_callbacks d /\
    r = captures d i || (remaining d i =? 0) /\
    (captures d i = true -> is_streaming (dev w') = bit i) /\
    (captures d i = false -> remaining d i <> 0 -> recognize_started (dev w') = remaining d i /\ is_streaming (dev w') = 0)).
Proof.
  intros Hi <- Hw Hd Hm Hs Hc Hf. unfold trigger_finish. eapply ends_step; [unfold nth_of; by rewrite Hs|].
  assert (K : exists c, elem_at (configs (dev w)) i = Some c) by (unfold elem_at; destruct Hi as [->| ->]; by eexists).
  destruct K as [c Ec]. eapply ends_step; [unfold nth_of; by rewrite Ec|]. cbv beta.
  change (MODEL_STATE_RUNNING =? MODEL_STATE_RUNNING) with true. cbn [andb].
  assert (match c with Some c => capture_requested c | None => false end = captures (dev w) i) as -> by (unfold captures; by rewrite Ec).
  destruct (captures (dev w) i) eqn:Ecap.
  { eapply ends_step; [done|]. apply ends_ret. by do 4 (split; [done|]). }
  eapply ends_step; [done|]. cbv beta. rewrite Hf. change (MODEL_STATE_RUNNING =? MODEL_STATE_STOPABORT) with false. cbn [orb].
  eapply ends_step; [done|]. eapply ends_step; [apply bitmask_value|]. cbv beta.
  assert (Z.lor (if at_hotword (recognition_callbacks (dev w)) =? 0 then 0 else bit HOTWORD_INDEX)
                (if at_svoice (recognition_callbacks (dev w)) =? 0 then 0 else bit SVOICE_INDEX) = remaining (dev w) i) as ->.
  { unfold elem_at, remaining in *. destruct Hi as [->| ->]; simpl in *; injection Hc as ->; simpl; by case_match. }
  destruct (Z.eqb_spec (remaining (dev w) i) 0) as [E0|E0]; cbn [negb].
  { apply ends_ret. by do 4 (split; [done|]). }
  pose proof (remaining_mask (dev w) i Hi) as Hk.
  destruct (power_off_lands w (dev w) eq_refl Hw Hm ltac:(apply Hd)) as ([] & w1 & E1 & _ & D1 & Hw1).
  destruct (power_on_works (remaining (dev w) i) w1 Hw1 ltac:(by rewrite D1) Hk E0) as ([] & w2 & E2 & _ & D2).
  eapply ends_step; [exact E1|]. eapply ends_step; [exact E2|]. apply ends_ret.
  split; [rewrite <- (power_silently (deliveries (slog w)) 0 w tt w1 eq_refl E1); by eapply power_silently|].
  rewrite D2, D1. split; [done|]. split; [done|]. by split.
Qed.

(** C34. A trigger of a model that is recognised is delivered exactly once: the
    callback gets one event, of that model and with its cookie, and is forgotten.  Then
    the device streams if the configuration wants the audio; otherwise exactly the
    models that remain are recognised again.  The thread ends after a stream has begun
    and when no model remains. *)
Theorem trigger_delivered_once i w handle callback cookie : i = HOTWORD_INDEX \/ i = SVOICE_INDEX ->
  pcm_inv w -> wf (dev w) -> mixer (dev w) <> 0 -> (forall l, sth_answer l sys_calloc <> 0) ->
  elem_at (model_handles (dev w)) i = Some handle -> elem_at (model_execstate (dev w)) i = Some MODEL_STATE_RUNNING ->
  elem_at (recognition_callbacks (dev w)) i = Some callback -> elem_at (recognition_cookies (dev w)) i = Some cookie ->
  callback <> 0 -> stop_failed (dev w) = false ->
  ends (solo (handle_trigger i)) w (fun r w' =>
    (exists event, deliveries (slog w') = (callback, event, cookie) :: deliveries (slog w) /\ event_model event = handle) /\
    set_at (recognition_callbacks (dev w)) i 0 = Some (recognition_callbacks (dev w')) /\
    r = captures (dev w) i || (remaining (dev w) i =? 0) /\
    (captures (dev w) i = true -> is_streaming (dev w') = bit i) /\
    (captures (dev w) i = false -> remaining (dev w) i <> 0 ->
     recognize_started (dev w') = remaining (dev w) i /\ is_streaming (dev w') = 0)).
Proof.
  intros Hi Hw Hd Hm Hcalloc Eh Es Ec Ek Hc Hf.
  destruct (event_allocated i w handle Hi Eh Hcalloc) as (event & w1 & E1 & D1 & Em & L1 & P1).
  set (d2 := (dev w) <| recog_cbstate := RECOG_CB_CALLED |>).
  assert (Hs : exists l, set_at (recognition_callbacks (dev w)) i 0 = Some l /\ elem_at l i = Some 0 /\
    remaining (d2 <| recognition_callbacks := l |>) i = remaining (dev w) i).
  { destruct Hi as [->| ->]; eexists; split; done. }
  destruct Hs as (l & Es' & El & Er).
  set (w3 := {| dev := d2 <| recognition_callbacks := l |>;
                slog := (recognition_callback callback event cookie, sth_answer (slog w1) (recognition_callback callback event cookie)) :: slog w1 |}).
  assert (Fin : ends (trigger_finish i) w3 (fun r w' =>
    deliveries (slog w') = deliveries (slog w3) /\ recognition_callbacks (dev w') = l /\
    r = captures (dev w) i || (remaining (dev w) i =? 0) /\
    (captures (dev w) i = true -> is_streaming (dev w') = bit i) /\
    (captures (dev w) i = false -> remaining (dev w) i <> 0 -> recognize_started (dev w') = remaining (dev w) i /\ is_streaming (dev w') = 0))).
  { assert (captures (dev w) i = captures (d2 <| recognition_callbacks := l |>) i) as -> by done.
    rewrite <- Er. eapply ends_weaken; [apply (finish_lands i w3 (d2 <| recognition_callbacks := l |>)); try done|done].
    - destruct Hw as (W1 & W2 & W3). split; [|split]; simpl; try done; by rewrite P1.
    - by destruct Hd. }
  destruct Fin as (r & w' & E4 & L4 & C4 & R4). exists r, w'. split; [|split; [|split; [by rewrite Es', C4|done]]].
  - unfold handle_trigger. rewrite solo_bind. cbn [solo act]. rewrite E1. rewrite solo_bind. cbn [solo act].
    unfold trigger_callback. rewrite (bind_some _ _ w1 MODEL_STATE_RUNNING w1) by (unfold nth_of; by rewrite D1, Es).
    rewrite (bind_some _ _ w1 callback w1) by (unfold nth_of; by rewrite D1, Ec).
    rewrite (bind_some _ _ w1 cookie w1) by (unfold nth_of; by rewrite D1, Ek).
    change (MODEL_STATE_RUNNING =? MODEL_STATE_RUNNING) with true. rewrite (proj2 (Z.eqb_neq _ _) Hc). cbn [negb andb].
    rewrite (bind_some _ _ w1 tt (w1 <| dev := d2 |>)) by (unfold put, d2; by rewrite D1). cbn [mret ST_ret].
    rewrite !solo_bind. cbn [solo act]. unfold sys at 1. cbn [solo].
    match goal with |- context [put_at _ _ _ _ ?w0] => assert (put_at recognition_callbacks
      (fun l d => d <| recognition_callbacks := l |>) i 0 w0 = Some (tt, w3)) as ->
      by (unfold put_at; change (recognition_callbacks (dev w0)) with (recognition_callbacks (dev w)); by rewrite Es') end.
    by rewrite E4.
  - exists event. by rewrite L4, <- L1.
Qed.
End trigger.

(** ** An example *)

#[local] Existing Instances lab_conf lab_interface lab lab_laws lab_mixer.

(** Both models are recognised, the hotword without audio. *)
Definition two_models : sth_world := {|
  dev := (dev recognising) <| model_handles := PerModel 0 1 |> <| recognition_callbacks := both 7 |>
           <| model_execstate := both MODEL_STATE_RUNNING |>;
  slog := [] |}.

Lemma trigger_delivered_once_witness : ends (solo (handle_trigger HOTWORD_INDEX)) two_models (fun r w' =>
  (exists event, deliveries (slog w') = [(7, event, 0)] /\ event_model event = 0) /\
  r = false /\ recognize_started (dev w') = bit SVOICE_INDEX).
Proof.
  destruct (trigger_delivered_once HOTWORD_INDEX two_models 0 7 0 (or_introl eq_refl)) as (r & w' & E & D & _ & R & _ & S).
  - by apply opened_pcm.
  - split; simpl; first [by left | done | by right | by intros _; right].
  - done.
  - done.
  - done.
  - done.
  - done.
  - done.
  - done.
  - done.
  - exists r, w'. split; [exact E|]. split; [exact D|]. split; [exact R|]. by apply S.
Defined.
