(* ===== verification/SthCases.v ===== *)
(** * Sound trigger: interleavings that go wrong

    Schedules of calls, with what the source makes of them: the deadlock that
    [waiting_is_finite] excludes by a hypothesis, and accesses to PCM devices that
    are not open. *)

From Stdlib Require Import String.
From S2P Require Import Prelude Effects Threads ThreadRules SthData SthPower SthOps SthStream SthOrder SthRecord SthState SthControls SthApi.

#[local] Existing Instances lab_conf lab_interface lab lab_laws.

(** ** Stopping the recognition *)

(** Client 1 stops the recognition and, with [trigger_lock], waits for the callback
    thread 2; client 0 takes [lock] for itself and waits for [trigger_lock]. *)
Definition stop_and_start : list (nat * option sth_api) :=
  listening ++ call 1 (Stop_recognition 0) 6 ++ call 0 (Start_recognition 0 (Some capture_config) 1 1) 1.

(** C35. Stopping the recognition can deadlock with any call that takes both mutexes:
    [stdev_stop_recognition] gives [lock] away while it waits for the callback thread,
    but not [trigger_lock], and the callback thread needs [lock].  From then on both
    clients and the callback thread wait for each other, whatever else happens. *)
Theorem stop_recognition_deadlock : rtc thread_step sth_start (after stop_and_start sth_start) /\
  forall c, rtc thread_step (after stop_and_start sth_start) c ->
    forall t, t ∈ [0; 1; 2]%nat -> exists t', t' ∈ [0; 1; 2]%nat /\ waits_for c t t'.
Proof.
  split; [by apply after_steps|]. intros c. apply (deadlock_permanent _ c [0; 1; 2]%nat).
  intros t Ht. repeat (apply elem_of_cons in Ht as [->|Ht]); [exists 1%nat|exists 2%nat|exists 0%nat|by apply elem_of_nil in Ht];
    (split; [set_solver|vm_compute; reflexivity]).
Qed.

(** ** Reading a stream *)

(** The hotword is recognised and the audio HAL streams; client 0 is about to read
    samples, without [lock], when client 1 unloads the model. *)
Definition read_and_unload : list (nat * option sth_api) :=
  listening ++ go 2 16 ++ call 1 Open_for_streaming 6 ++ call 0 (Read_samples 1 100) 5 ++ call 1 (Unload_sound_model 0) 9.

(** Reading samples of a stream is not safe while the model is unloaded: the PCM
    device of the stream is closed without [trigger_lock], and the reader passes what
    is left, [NULL], to [pcm_read]. *)
Theorem streaming_read_race : rtc thread_step sth_start (after read_and_unload sth_start) /\
  streaming_pcm (dev (world (after read_and_unload sth_start))) = 0 /\ faults (after read_and_unload sth_start) 0.
Proof. split; [by apply after_steps|]. split; vm_compute; reflexivity. Qed.

(** ** A headset *)

Fixpoint opens (l : sth_log) : nat :=
  match l with (pcm_open _ _, _) :: l => Datatypes.S (opens l) | _ :: l => opens l | [] => 0 end.

(** From the fourth one on, PCM devices are not ready. *)
Definition stream_lost : failures := fun l c =>
  match c with pcm_is_ready _ => if (4 <=? opens l)%nat then Some 0 else None | _ => None end.

Section headset.
#[local] Instance lost_env : SoundTriggerEnv := lab_env stream_lost no_text.

(** A stream and a recording, then a headset; then the recording is closed. *)
Definition headset_and_close : list (nat * option sth_api) :=
  listening ++ go 2 16 ++ call 1 Open_for_streaming 6 ++ call 1 Open_recording 6 ++ call 1 (Headset_status true) 20 ++
  call 1 Close_recording 2.

(** When the stream cannot be opened again for the new microphone,
    [sound_trigger_headset_status] closes the PCM device of the recording instead and
    leaves [is_recording] on: the next [sound_trigger_close_recording] passes [NULL]
    to [pcm_close]. *)
Theorem headset_failure_breaks_close (c := after headset_and_close sth_start) :
  rtc thread_step sth_start c /\ is_recording (dev (world c)) = true /\ recording_pcm (dev (world c)) = 0 /\
  faults c 1.
Proof. split; [by apply after_steps|]. split; [|split]; vm_compute; reflexivity. Qed.
End headset.

(** ** The mode of the voice trigger *)

(** The values written to the control of the mode. *)
Fixpoint mode_writes (l : sth_log) : list Z :=
  match l with
  | [] => []
  | (mixer_get_ctl_by_name _ name, _) :: l =>
      match l with
      | (mixer_ctl_set_value _ _ value, _) :: _ =>
          if String.eqb name "VTS VoiceRecognization Mode" then value :: mode_writes l else mode_writes l
      | _ => mode_writes l
      end
  | _ :: l => mode_writes l
  end.

Definition mode_text : string -> string -> option Z := fun text key =>
  if String.eqb key "wakeup_mode" then Some (if String.eqb text "bixby" then SVOICE_BIXBY_MODE else SVOICE_LPSD_MODE) else None.
Definition svoice_config (text : string) : recognition_config := {|
  capture_requested := false; num_phrases := 1; phrases := [no_phrase]; config_data_size := 5; config_data := text |}.

Section mode.
#[local] Instance mode_env : SoundTriggerEnv := lab_env no_failure mode_text.

(** The recognition is started for Bixby and then for LPSD. *)
Definition change_mode : list (nat * option sth_api) :=
  call 1 (Sth_open "sound_trigger_hw_if") 5 ++ call 1 (Load_sound_model true (Some svoice_model) 1 1) 4 ++
  call 1 (Start_recognition 1 (Some (svoice_config "bixby")) 1 1) 11 ++
  call 1 (Start_recognition 1 (Some (svoice_config "lpsd")) 1 1) 8.

(** When the mode of the voice trigger changes, the old one is not turned off:
    the new configuration is in place when the recognition is stopped, and the control
    gets the stop value of the new mode. *)
Theorem mode_change_stops_new_mode (c := after change_mode sth_start) :
  rtc thread_step sth_start c /\
  mode_writes (reverse (slog (world c))) = [VTS_MODE_VOICE_TRIGGER_ON; VTS_MODE_SOUND_DETECT_OFF; VTS_MODE_SOUND_DETECT_ON].
Proof. split; [by apply after_steps|]. vm_compute. reflexivity. Qed.
End mode.
