(* ===== verification/BootSlots.v ===== *)
(** * Boot control: the slots

    The A/B slots of [src/boot/v1/lib_exbc] and the structure of the slot partition,
    [layout.h], with its bytes.  An array of two elements is a [per_slot]. *)

From Stdlib Require Import String.
From S2P Require Import Prelude Effects.

(** Of HIDL, [MergeStatus] is an [int32_t]. *)
Definition MergeStatus_NONE : Z := 0.
Definition MergeStatus_UNKNOWN : Z := 1.

(** The two versions of the HAL: the structure of the first one has no [ota_flag]. *)
Inductive hal_version := V1_1 | V1_2.

(** ** Structures *)

Record per_slot (A : Type) := PerSlot { slot_a : A; slot_b : A }.
Arguments PerSlot {A}.
Arguments slot_a {A}.
Arguments slot_b {A}.

Definition slot_at {A} (l : per_slot A) (i : Z) : option A :=
  if i =? 0 then Some (slot_a l) else if i =? 1 then Some (slot_b l) else None.
Definition set_slot {A} (l : per_slot A) (i : Z) (x : A) : option (per_slot A) :=
  if i =? 0 then Some (PerSlot x (slot_b l)) else if i =? 1 then Some (PerSlot (slot_a l) x) else None.

Record ExynosSlot_metadata := {
  bootable : Z;
  is_active : Z;
  boot_successful : Z;
  tries_remaining : Z
}.
#[export] Instance ExynosSlot_metadata_fields : Fields ExynosSlot_metadata := fun m => {|
  bootable := bootable m; is_active := is_active m; boot_successful := boot_successful m;
  tries_remaining := tries_remaining m |}.

(** [ExynosSlot_info] with its [ExynosSlot_common]. *)
Record ExynosSlot_info := {
  metadata : per_slot ExynosSlot_metadata;
  merge_status : Z;
  ota_flag : Z
}.
#[export] Instance ExynosSlot_info_fields : Fields ExynosSlot_info := fun i => {|
  metadata := metadata i; merge_status := merge_status i; ota_flag := ota_flag i |}.

(** [slot_metadata] of the partition: the same fields and reserved bytes. *)
Record slot_metadata := {
  slot_fields : ExynosSlot_metadata;
  slot_reserved : list Z
}.

(** [slot_data].  In version 1.1 the byte of [ota_flag] is the first reserved one. *)
Record slot_data := {
  magic : list Z;
  data_metadata : per_slot slot_metadata;
  data_merge_status : Z;
  data_ota_flag : Z;
  data_reserved : list Z
}.

(** ["EXBC"] *)
Definition EXYNOS_SLOT_INFO_MAGIC : list Z := [69; 88; 66; 67].
Definition EXYNOS_SLOT_INFO_MAGIC_SIZE : nat := 4.
Definition SLOT_INFO_PARTITION : string := "/slotinfo".
Definition SLOTINFO_OFFSET : Z := 2 * 1024.

(** ** The bytes of [slot_data] *)

Definition sizeof_slot_data : Z := 32.

(** A bit-field of 8 bits and an enumeration on [int32_t]. *)
Definition s8 (z : Z) : Z := (z + 2 ^ 7) `mod` 2 ^ 8 - 2 ^ 7.
#[global] Arguments s8 : simpl never.

Definition metadata_bytes (m : slot_metadata) : list Z :=
  let f := slot_fields m in [bootable f; is_active f; boot_successful f; tries_remaining f] ++ slot_reserved m.
Definition slot_data_bytes (d : slot_data) : list Z :=
  magic d ++ metadata_bytes (slot_a (data_metadata d)) ++ metadata_bytes (slot_b (data_metadata d)) ++
  [u8 (data_merge_status d); data_ota_flag d] ++ data_reserved d.

Definition byte_at (l : list Z) (i : nat) : Z := nth i l 0.
Definition metadata_of (l : list Z) : slot_metadata := {|
  slot_fields := {|
    bootable := byte_at l 0; is_active := byte_at l 1; boot_successful := byte_at l 2; tries_remaining := byte_at l 3 |};
  slot_reserved := drop 4 l |}.
Definition slot_data_of (l : list Z) : slot_data := {|
  magic := take 4 l;
  data_metadata := PerSlot (metadata_of (take 8 (drop 4 l))) (metadata_of (take 8 (drop 12 l)));
  data_merge_status := s8 (byte_at l 20);
  data_ota_flag := byte_at l 21;
  data_reserved := drop 22 l |}.

(** ** [lib_exbc] *)

(** The class [BootControl] of [lib_exbc]. *)
Record exbc_state := {
  si : ExynosSlot_info;
  exynos_slot_initialized : bool
}.
#[export] Instance exbc_state_fields : Fields exbc_state := fun s => {|
  si := si s; exynos_slot_initialized := exynos_slot_initialized s |}.

Definition reset_metadata (active : Z) : ExynosSlot_metadata := {|
  bootable := 1; is_active := active; boot_successful := 0; tries_remaining := 7 |}.

(** Every field is assigned. *)
Definition reset_slot_info : ExynosSlot_info := {|
  metadata := PerSlot (reset_metadata 1) (reset_metadata 0);
  merge_status := MergeStatus_NONE;
  ota_flag := 0 |}.

Definition IsValidSlot (slot : Z) : bool := negb (2 <=? slot).
Definition GetNumberSlots : Z := 2.

Definition slot_suffix : per_slot string := PerSlot "_a"%string "_b"%string.

(** [strncmp(s, t, 2) == 0], for a [t] of two characters. *)
Definition same2 (s t : string) : bool := String.prefix t s.

(** [-1] as an [uint32_t] if there is no suffix. *)
Definition GetCurrentSlot (suffix_prop : string) : Z :=
  if same2 suffix_prop (slot_a slot_suffix) then 0
  else if same2 suffix_prop (slot_b slot_suffix) then 1
  else u32 (-1).

(** [None] is the null pointer; the inner [slot_at] is an access to an array. *)
Definition GetSuffix (slot : Z) : option string := if IsValidSlot slot then slot_at slot_suffix slot else None.

(** The operations on [si]; [None] is an access outside the array. *)
Definition update_slot (slot : Z) (f : ExynosSlot_metadata -> ExynosSlot_metadata) (i : ExynosSlot_info) : option ExynosSlot_info :=
  m ← slot_at (metadata i) slot;
  l ← set_slot (metadata i) slot (f m);
  Some (i <| metadata := l |>).

Definition exbc_MarkBootSuccessful (slot : Z) : ExynosSlot_info -> option ExynosSlot_info :=
  update_slot slot (fun m => m <| boot_successful := 1 |>).

Definition exbc_SetActiveBootSlot (current slot : Z) (i : ExynosSlot_info) : option ExynosSlot_info :=
  i ← update_slot slot (fun _ => reset_metadata 1) i;
  let i := i <| ota_flag := if slot =? current then 0 else 1 |> in
  update_slot (1 - slot) (fun m => m <| is_active := 0 |>) i.

Definition exbc_SetSlotAsUnbootable (slot : Z) (i : ExynosSlot_info) : option ExynosSlot_info :=
  i ← update_slot slot (fun _ => {| bootable := 0; is_active := 0; boot_successful := 0; tries_remaining := 0 |}) i;
  update_slot (1 - slot) (fun m => if bootable m =? 0 then m else m <| is_active := 1 |>) i.

Definition exbc_IsSlotBootable (slot : Z) (i : ExynosSlot_info) : option bool :=
  m ← slot_at (metadata i) slot; Some (negb (bootable m =? 0)).
Definition exbc_IsSlotMarkedSuccessful (slot : Z) (i : ExynosSlot_info) : option bool :=
  m ← slot_at (metadata i) slot; Some (negb (boot_successful m =? 0)).

Definition exbc_SetSnapshotMergeStatus (status : Z) (i : ExynosSlot_info) : ExynosSlot_info := i <| merge_status := status |>.

(** The loop over the slots. *)
Definition exbc_GetActiveBootSlot (i : ExynosSlot_info) : Z :=
  if negb (is_active (slot_a (metadata i)) =? 0) then 0
  else if negb (is_active (slot_b (metadata i)) =? 0) then 1
  else 0.

(** ** [Encode] and [Decode] *)

(** [data] is what is there before: local variables are not initialised. *)
Definition encode_metadata (m : ExynosSlot_metadata) (data : slot_metadata) : slot_metadata :=
  {| slot_fields := m; slot_reserved := slot_reserved data |}.

Definition Encode (v : hal_version) (i : ExynosSlot_info) (data : slot_data) : slot_data := {|
  magic := EXYNOS_SLOT_INFO_MAGIC;
  data_metadata := PerSlot (encode_metadata (slot_a (metadata i)) (slot_a (data_metadata data)))
                           (encode_metadata (slot_b (metadata i)) (slot_b (data_metadata data)));
  data_merge_status := s8 (merge_status i);
  data_ota_flag := match v with V1_1 => data_ota_flag data | V1_2 => ota_flag i end;
  data_reserved := data_reserved data |}.

(** It also writes the magic into [data], which is not used afterwards. *)
Definition Decode (v : hal_version) (i : ExynosSlot_info) (data : slot_data) : ExynosSlot_info := {|
  metadata := PerSlot (slot_fields (slot_a (data_metadata data))) (slot_fields (slot_b (data_metadata data)));
  merge_status := data_merge_status data;
  ota_flag := match v with V1_1 => ota_flag i | V1_2 => data_ota_flag data end |}.
