(* ===== verification/BootMessage.v ===== *)
(** * Boot control: the slot partition

    [src/boot/exynos_message] and the loader of the slot data, [exsl.cpp], on top of
    the system calls: a partition of bytes, and descriptors with a position.  Which
    device the partition is, and how much of a transfer the kernel does, is the
    environment. *)

From Stdlib Require Import String.
From S2P Require Import Prelude Effects BootSlots.

Definition EINTR : Z := 4.

(** An entry of the table of file systems. *)
Record fstab_entry := {
  mount_point : string;
  blk_device : string
}.

Inductive boot_call :=
  | boot_open (path : string)
  | boot_close (fd : Z)
  | boot_lseek (fd offset : Z)
  | boot_read (fd size : Z)
  | boot_write (fd size : Z).
Definition boot_log := list (boot_call * Z).

(** How a call is answered after the calls of a log, latest first; the error number
    after a call; [ReadDefaultFstab]; the property [ro.boot.slot_suffix]; and what
    uninitialised variables hold. *)
Class BootEnv := {
  boot_answer : boot_log -> boot_call -> Z;
  boot_errno : boot_log -> Z;
  ReadDefaultFstab : boot_log -> option (list fstab_entry);
  slot_suffix_prop : string;
  local_data : boot_log -> slot_data;
  local_info : boot_log -> ExynosSlot_info;
  max_interruptions : nat
}.

(** The system, and the objects of one process: [Exynos_BootControl] with its members.
    [offsets] holds the descriptors that are open. *)
Record boot_world := {
  partition : list Z;
  offsets : gmap Z Z;
  blog : boot_log;
  exynos_message_fd : Z;
  loader_si : slot_data;
  exbc : exbc_state
}.
#[export] Instance boot_world_fields : Fields boot_world := fun w => {|
  partition := partition w; offsets := offsets w; blog := blog w; exynos_message_fd := exynos_message_fd w;
  loader_si := loader_si w; exbc := exbc w |}.

Abbreviation B := (ST boot_world).

(** Reading and changing the world. *)
Definition look {A} (f : boot_world -> A) : B A := fun w => Some (f w, w).
Definition alter (f : boot_world -> boot_world) : B unit := fun w => Some (tt, f w).
Definition access {A} (o : option A) : B A := fun w => match o with Some a => Some (a, w) | None => None end.

Section message.
Context `{BootEnv}.

(** ** System calls *)

Definition boot_sys (c : boot_call) : B Z := fun w =>
  let r := boot_answer (blog w) c in Some (r, w <| blog := (c, r) :: blog w |>).

Definition sys_open (path : string) : B Z :=
  fd ← boot_sys (boot_open path);
  (if fd =? -1 then mret tt else alter (fun w => w <| offsets := <[fd := 0]> (offsets w) |>)) ;;
  mret fd.

Definition sys_close (fd : Z) : B unit :=
  boot_sys (boot_close fd) ;; alter (fun w => w <| offsets := delete fd (offsets w) |>).

Definition sys_lseek (fd offset : Z) : B Z :=
  r ← boot_sys (boot_lseek fd offset);
  (if r =? -1 then mret tt else alter (fun w => w <| offsets := <[fd := r]> (offsets w) |>)) ;;
  mret r.

(** The bytes of the partition at the position of [fd], and its position behind them. *)
Definition sys_read (fd size : Z) : B (Z * list Z) :=
  r ← boot_sys (boot_read fd size);
  o ← look (fun w => offsets w !! fd);
  match o with
  | Some offset =>
      if 0 <? r then
        bytes ← look (fun w => take (Z.to_nat r) (drop (Z.to_nat offset) (partition w)));
        alter (fun w => w <| offsets := <[fd := offset + r]> (offsets w) |>) ;;
        mret (r, bytes)
      else mret (r, [])
  | None => mret (r, [])
  end.

(** Bytes in place of those at a position. *)
Definition splice (offset : Z) (bytes l : list Z) : list Z :=
  take (Z.to_nat offset) l ++ bytes ++ drop (Z.to_nat offset + length bytes) l.

Definition sys_write (fd size : Z) (bytes : list Z) : B Z :=
  r ← boot_sys (boot_write fd size);
  o ← look (fun w => offsets w !! fd);
  match o with
  | Some offset =>
      (if 0 <? r then
         alter (fun w => w <| partition := splice offset (take (Z.to_nat r) bytes) (partition w) |>
                           <| offsets := <[fd := offset + r]> (offsets w) |>)
       else mret tt) ;;
      mret r
  | None => mret r
  end.

(** ** [Exynos_Bootloader_Message] *)

(** The loop over the entries. *)
Fixpoint open_entry (msg_device : string) (fstab : list fstab_entry) : B bool :=
  match fstab with
  | [] => mret false
  | entry :: fstab =>
      if String.eqb (mount_point entry) msg_device then
        if String.eqb (blk_device entry) "" then mret false
        else
          fd ← sys_open (blk_device entry);
          alter (fun w => w <| exynos_message_fd := fd |>) ;;
          mret (negb (fd =? -1))
      else open_entry msg_device fstab
  end.

Definition open_message (msg_device : string) : B bool :=
  fstab ← look (fun w => ReadDefaultFstab (blog w));
  match fstab with
  | None => mret false
  | Some fstab => open_entry msg_device fstab
  end.

Definition close_message : B unit :=
  fd ← look exynos_message_fd;
  sys_close fd ;;
  alter (fun w => w <| exynos_message_fd := -1 |>).

(** [do { ... } while (num_read == -1 && errno == EINTR)] *)
Fixpoint read_loop (fuel : nat) (fd size : Z) : B (Z * list Z) :=
  match fuel with
  | O => undefined
  | Datatypes.S fuel =>
      r ← sys_read fd size;
      e ← look (fun w => boot_errno (blog w));
      if (fst r =? -1) && (e =? EINTR) then read_loop fuel fd size else mret r
  end.

Fixpoint write_loop (fuel : nat) (fd size : Z) (bytes : list Z) : B Z :=
  match fuel with
  | O => undefined
  | Datatypes.S fuel =>
      r ← sys_write fd size bytes;
      e ← look (fun w => boot_errno (blog w));
      if (r =? -1) && (e =? EINTR) then write_loop fuel fd size bytes else mret r
  end.

(** [None] before the transfer, or the bytes that were read and whether they are all. *)
Definition read_message (offset size : Z) : B (option (list Z * bool)) :=
  fd ← look exynos_message_fd;
  if fd =? -1 then mret None
  else
    seeked ← sys_lseek fd offset;
    if negb (s32 seeked =? offset) then mret None
    else
      r ← read_loop (Datatypes.S max_interruptions) fd size;
      mret (Some (snd r, fst r =? size)).

Definition write_message (bytes : list Z) (offset size : Z) : B bool :=
  fd ← look exynos_message_fd;
  if fd =? -1 then mret false
  else
    seeked ← sys_lseek fd offset;
    if negb (s32 seeked =? offset) then mret false
    else
      r ← write_loop (Datatypes.S max_interruptions) fd size bytes;
      mret (r =? size).

(** ** [Slot_Loader] *)

Definition verify_slot : B bool :=
  d ← look loader_si;
  mret (bool_decide (magic d = EXYNOS_SLOT_INFO_MAGIC)).

Definition set_slot_data (d : slot_data) : B unit := alter (fun w => w <| loader_si := d |>).

(** What is read takes the place of the first bytes of the structure. *)
Definition read_slot_data : B bool :=
  opened ← open_message SLOT_INFO_PARTITION;
  if negb opened then mret false
  else
    r ← read_message SLOTINFO_OFFSET sizeof_slot_data;
    match r with
    | None => mret false
    | Some (bytes, complete) =>
        alter (fun w => w <| loader_si := slot_data_of (bytes ++ drop (length bytes) (slot_data_bytes (loader_si w))) |>) ;;
        if (complete : bool) then close_message ;; mret true else mret false
    end.

Definition write_slot_data : B bool :=
  opened ← open_message SLOT_INFO_PARTITION;
  if negb opened then mret false
  else
    d ← look loader_si;
    complete ← write_message (slot_data_bytes d) SLOTINFO_OFFSET sizeof_slot_data;
    if negb complete then mret false
    else close_message ;; mret true.
End message.
