(* ===== verification/BootControl.v ===== *)
(** * Boot control: the service

    [Exynos_BootControl] of [exynos_bootctrl.cpp] and the HIDL service [BootControl.cpp],
    in their two versions. *)

From Stdlib Require Import String.
From S2P Require Import Prelude Effects BootSlots BootMessage.

Section control.
Context `{BootEnv} (v : hal_version).

(** ** [Exynos_BootControl] *)

Definition set_slotinfo (i : ExynosSlot_info) : B unit := alter (fun w => w <| exbc := (exbc w) <| si := i |> |>).
Definition get_slotinfo : B ExynosSlot_info := look (fun w => si (exbc w)).
(** An operation of [lib_exbc] on its [si]. *)
Definition exbc_update (f : ExynosSlot_info -> option ExynosSlot_info) : B unit :=
  i ← get_slotinfo; i ← access (f i); set_slotinfo i.

Definition Downloading_data : B unit :=
  data ← look loader_si;
  info ← look (fun w => local_info (blog w));
  set_slotinfo (Decode v info data).

Definition Uploading_data : B unit :=
  info ← get_slotinfo;
  data ← look (fun w => local_data (blog w));
  set_slot_data (Encode v info data).

Definition Load_Slot : B bool :=
  loaded ← read_slot_data;
  if negb loaded then mret false
  else
    verified ← verify_slot;
    if negb verified then
      set_slotinfo reset_slot_info ;;
      Uploading_data ;;
      saved ← write_slot_data;
      if negb saved then mret false else mret true
    else Downloading_data ;; mret true.

Definition Save_Slot : B bool :=
  Uploading_data ;;
  saved ← write_slot_data;
  if negb saved then mret false else mret true.

Definition Exynos_Init : B bool :=
  initialized ← look (fun w => exynos_slot_initialized (exbc w));
  if (initialized : bool) then mret true
  else
    loaded ← Load_Slot;
    if negb loaded then mret false
    else alter (fun w => w <| exbc := (exbc w) <| exynos_slot_initialized := true |> |>) ;; mret true.

(** Load, change, save: the body of the operations that change the slots. *)
Definition update_saved (f : ExynosSlot_info -> option ExynosSlot_info) : B bool :=
  loaded ← Load_Slot;
  if negb loaded then mret false
  else
    exbc_update f ;;
    saved ← Save_Slot;
    if negb saved then mret false else mret true.

Definition Exynos_MarkBootSuccessful (slot : Z) : B bool :=
  if negb (IsValidSlot slot) then mret false else update_saved (exbc_MarkBootSuccessful slot).

Definition Exynos_SetActiveBootSlot (slot : Z) : B bool :=
  if negb (IsValidSlot slot) then mret false
  else update_saved (exbc_SetActiveBootSlot (GetCurrentSlot slot_suffix_prop) slot).

Definition Exynos_SetSlotAsUnbootable (slot : Z) : B bool :=
  if negb (IsValidSlot slot) then mret false else update_saved (exbc_SetSlotAsUnbootable slot).

(** Load and look. *)
Definition look_loaded {A} (f : ExynosSlot_info -> option A) (failed : A) : B A :=
  loaded ← Load_Slot;
  if negb loaded then mret failed
  else i ← get_slotinfo; access (f i).

Definition Exynos_IsSlotBootable (slot : Z) : B bool :=
  if negb (IsValidSlot slot) then mret false else look_loaded (exbc_IsSlotBootable slot) false.

Definition Exynos_IsSlotMarkedSuccessful (slot : Z) : B bool :=
  if negb (IsValidSlot slot) then mret false else look_loaded (exbc_IsSlotMarkedSuccessful slot) false.

Definition Exynos_SetSnapshotMergeStatus (status : Z) : B bool :=
  update_saved (fun i => Some (exbc_SetSnapshotMergeStatus status i)).

Definition Exynos_GetSnapshotMergeStatus : B Z :=
  look_loaded (fun i => Some (merge_status i)) MergeStatus_UNKNOWN.

(** What is in memory, without loading it. *)
Definition Exynos_GetActiveBootSlot : B Z := i ← get_slotinfo; mret (exbc_GetActiveBootSlot i).

(** ** The service *)

(** Of HIDL. *)
Inductive BoolResult := FALSE | TRUE | INVALID_SLOT.
Record CommandResult := {
  success : bool;
  errMsg : string
}.

Definition command_result (ok : bool) : CommandResult :=
  if ok then {| success := true; errMsg := "Success" |} else {| success := false; errMsg := "Operation failed" |}.

Inductive boot_request :=
  | Init
  | getNumberSlots
  | getCurrentSlot
  | markBootSuccessful
  | setActiveBootSlot (slot : Z)
  | setSlotAsUnbootable (slot : Z)
  | isSlotBootable (slot : Z)
  | isSlotMarkedSuccessful (slot : Z)
  | getSuffix (slot : Z)
  | setSnapshotMergeStatus (status : Z)
  | getSnapshotMergeStatus
  | getActiveBootSlot.

(** What a request returns or passes to its callback.  Version 1.1 has no
    [getActiveBootSlot]. *)
Inductive boot_reply :=
  | a_bool (b : bool)
  | a_number (n : Z)
  | a_result (r : CommandResult)
  | a_bool_result (r : BoolResult)
  | a_string (s : string).

Definition bool_result (b : bool) : BoolResult := if b then TRUE else FALSE.

Definition boot_perform (r : boot_request) : B boot_reply :=
  match r with
  | Init => ok ← Exynos_Init; mret (a_bool ok)
  | getNumberSlots => mret (a_number GetNumberSlots)
  | getCurrentSlot => mret (a_number (GetCurrentSlot slot_suffix_prop))
  | markBootSuccessful =>
      ok ← Exynos_MarkBootSuccessful (GetCurrentSlot slot_suffix_prop); mret (a_result (command_result ok))
  | setActiveBootSlot slot => ok ← Exynos_SetActiveBootSlot slot; mret (a_result (command_result ok))
  | setSlotAsUnbootable slot => ok ← Exynos_SetSlotAsUnbootable slot; mret (a_result (command_result ok))
  | isSlotBootable slot =>
      if negb (IsValidSlot slot) then mret (a_bool_result INVALID_SLOT)
      else b ← Exynos_IsSlotBootable slot; mret (a_bool_result (bool_result b))
  | isSlotMarkedSuccessful slot =>
      if negb (IsValidSlot slot) then mret (a_bool_result INVALID_SLOT)
      else b ← Exynos_IsSlotMarkedSuccessful slot; mret (a_bool_result (bool_result b))
  | getSuffix slot => mret (a_string (default EmptyString (GetSuffix slot)))
  | setSnapshotMergeStatus status => ok ← Exynos_SetSnapshotMergeStatus status; mret (a_bool ok)
  | getSnapshotMergeStatus => s ← Exynos_GetSnapshotMergeStatus; mret (a_number s)
  | getActiveBootSlot => n ← Exynos_GetActiveBootSlot; mret (a_number n)
  end.

(** A client's requests, one after the other. *)
Fixpoint boot_run (rs : list boot_request) : B (list boot_reply) :=
  match rs with
  | [] => mret []
  | r :: rs => a ← boot_perform r; l ← boot_run rs; mret (a :: l)
  end.
End control.
