(* ===== verification/BootLife.v ===== *)
(** * Boot control: transfers

    What a block device promises, and what the loader makes of it: a transfer happens
    as a whole, not at all, or, if its count is short, in part. *)

From Stdlib Require Import String.
From S2P Require Import Prelude Effects BootSlots BootMessage BootControl.

(** ** The bytes of the structure *)

(** The arrays of a structure have their sizes. *)
Definition shaped (d : slot_data) : Prop :=
  length (magic d) = 4%nat /\ length (slot_reserved (slot_a (data_metadata d))) = 4%nat /\
  length (slot_reserved (slot_b (data_metadata d))) = 4%nat /\ length (data_reserved d) = 10%nat /\
  s8 (data_merge_status d) = data_merge_status d.

Lemma s8_s8 z : s8 (s8 z) = s8 z.
Proof. unfold s8. replace ((z + 2 ^ 7) `mod` 2 ^ 8 - 2 ^ 7 + 2 ^ 7) with ((z + 2 ^ 7) `mod` 2 ^ 8) by lia. by rewrite Z.mod_mod. Qed.

Lemma s8_u8 z : s8 (u8 z) = s8 z.
Proof. unfold s8, u8. by rewrite Zplus_mod_idemp_l. Qed.

Lemma u8_s8 z : u8 (s8 z) = u8 z.
Proof. unfold s8, u8. rewrite Zminus_mod_idemp_l. f_equal. lia. Qed.

Lemma shaped_bytes d : shaped d -> length (slot_data_bytes d) = 32%nat.
Proof.
  intros (L1 & L2 & L3 & L4 & _). unfold slot_data_bytes, metadata_bytes. rewrite !length_app, L1, L2, L3, L4. done.
Qed.

(** A list of known length, element by element. *)
Ltac explode l := repeat (destruct l as [|? l]; [discriminate|]); destruct l; [|discriminate].

Lemma bytes_structure d : shaped d -> slot_data_of (slot_data_bytes d) = d.
Proof.
  destruct d as [m [[f1 r1] [f2 r2]] s o r]. intros (L1 & L2 & L3 & L4 & E). simpl in *.
  explode m. explode r1. explode r2. unfold slot_data_of, metadata_of, slot_data_bytes, metadata_bytes, byte_at. simpl.
  rewrite s8_u8, E. by destruct f1, f2.
Qed.

Lemma structure_shaped l : length l = 32%nat -> shaped (slot_data_of l).
Proof. intros Hl. explode l. repeat split. apply s8_s8. Qed.

Lemma structure_bytes l : length l = 32%nat -> Forall (fun b => 0 <= b < 256) l -> slot_data_bytes (slot_data_of l) = l.
Proof.
  intros Hl Hb. assert (K : u8 (byte_at l 20) = byte_at l 20).
  { explode l. unfold byte_at. simpl. rewrite !Forall_cons in Hb. unfold u8. rewrite Z.mod_small; [done|]. tauto. }
  explode l. unfold slot_data_of, slot_data_bytes, metadata_of, metadata_bytes in *. simpl in *. by rewrite u8_s8, K.
Qed.

(** ** The device *)

(** A call is not interrupted for ever. *)
Class FewInterruptions `{BootEnv} : Prop := {
  interruptions_end l c : exists n, (n <= max_interruptions)%nat /\
    let l' := replicate n (c, -1) ++ l in
    ~ (boot_answer l' c = -1 /\ boot_errno ((c, -1) :: l') = EINTR)
}.

(** A transfer fails or has a count, which may be short; and a structure on the stack has
    arrays of its sizes. *)
Class BlockDevice `{BootEnv} : Prop := {
  device_interruptions :: FewInterruptions;
  seek_exact l fd o : boot_answer l (boot_lseek fd o) = -1 \/ boot_answer l (boot_lseek fd o) = o;
  read_count l fd n : 0 < n -> -1 <= boot_answer l (boot_read fd n) <= n;
  write_count l fd n : 0 < n -> -1 <= boot_answer l (boot_write fd n) <= n;
  local_shaped l : shaped (local_data l)
}.

(** What changes in a call of the system. *)
Definition same_objects (w w' : boot_world) : Prop := loader_si w' = loader_si w /\ exbc w' = exbc w.

(** A call that fails with [EINTR]. *)
Definition interrupted `{BootEnv} (l : boot_log) (c : boot_call) : bool :=
  (boot_answer l c =? -1) && (boot_errno ((c, -1) :: l) =? EINTR).

(** The device of a table, if it has one. *)
Fixpoint entry_path (msg_device : string) (fstab : list fstab_entry) : option string :=
  match fstab with
  | [] => None
  | entry :: fstab =>
      if String.eqb (mount_point entry) msg_device then
        if String.eqb (blk_device entry) "" then None else Some (blk_device entry)
      else entry_path msg_device fstab
  end.

(** The device cannot be read at some time, or it fails in any way. *)
Definition load_fails `{BootEnv} : Prop :=
  (exists l, (fstab ← ReadDefaultFstab l; entry_path SLOT_INFO_PARTITION fstab) = None) \/
  (exists l path, boot_answer l (boot_open path) = -1) \/
  (exists l fd o, 0 <= o /\ boot_answer l (boot_lseek fd o) = -1) \/
  (exists l fd n, 0 < n /\ boot_answer l (boot_read fd n) <> n /\ interrupted l (boot_read fd n) = false).
Definition device_fails `{BootEnv} : Prop :=
  load_fails \/ (exists l fd n, 0 < n /\ boot_answer l (boot_write fd n) <> n /\ interrupted l (boot_write fd n) = false).
(** Some write is done, at least in part. *)
Definition write_works `{BootEnv} : Prop := exists l fd n, 0 < n /\ boot_answer l (boot_write fd n) <> -1.

(** A write in the log that was cut off part-way: its count is short. *)
Definition torn (l : boot_log) : Prop := exists fd n k, (boot_write fd n, k) ∈ l /\ 0 < k < n.

Lemma torn_cons e l : torn l -> torn (e :: l).
Proof. intros (fd & n & k & Hk & K). exists fd, n, k. split; [by right|done]. Qed.

Section interruptions.
Context `{FewInterruptions}.

(** A call that is repeated while it is interrupted ends. *)
Lemma soon_uninterrupted l c : exists n, (n <= max_interruptions)%nat /\ interrupted (replicate n (c, -1) ++ l) c = false.
Proof.
  destruct (interruptions_end l c) as (n & Hn & K). exists n. split; [done|]. unfold interrupted.
  apply not_true_iff_false. rewrite andb_true_iff, !Z.eqb_eq. done.
Qed.

Lemma replicate_app_cons {A} n (x : A) l : replicate n x ++ x :: l = replicate (Datatypes.S n) x ++ l.
Proof. change (x :: l) with ([x] ++ l). by rewrite app_assoc, <- replicate_S_end. Qed.

(** So do the loops, whatever the transfers do. *)
Lemma sys_read_ends fd size w : ends (sys_read fd size) w (fun r w' =>
  blog w' = (boot_read fd size, fst r) :: blog w /\ fst r = boot_answer (blog w) (boot_read fd size)).
Proof.
  unfold sys_read. eapply ends_step; [done|]. eapply ends_step; [done|]. cbv beta.
  destruct (offsets _ !! fd); [|by apply ends_ret]. destruct (0 <? _); [|by apply ends_ret].
  eapply ends_step; [done|]. eapply ends_step; [done|]. by apply ends_ret.
Qed.

Lemma sys_write_ends fd size bytes w : ends (sys_write fd size bytes) w (fun r w' =>
  blog w' = (boot_write fd size, r) :: blog w /\ r = boot_answer (blog w) (boot_write fd size)).
Proof.
  unfold sys_write. eapply ends_step; [done|]. eapply ends_step; [done|]. cbv beta.
  destruct (offsets _ !! fd); [|by apply ends_ret]. destruct (0 <? _); (eapply ends_step; [done|]; by apply ends_ret).
Qed.

(** One more round: a call that was interrupted at every try but the last of [n]. *)
Lemma interrupted_next l c r n : interrupted (replicate n (c, -1) ++ l) c = false -> r = boot_answer l c ->
  (r =? -1) && (boot_errno ((c, r) :: l) =? EINTR) = true ->
  exists m, n = Datatypes.S m /\ interrupted (replicate m (c, -1) ++ (c, r) :: l) c = false.
Proof.
  intros Hi Er [E2%Z.eqb_eq E3]%andb_prop. rewrite E2 in *. destruct n as [|n].
  - unfold interrupted in Hi. simpl in Hi. by rewrite <- Er, E3 in Hi.
  - exists n. split; [done|]. by rewrite replicate_app_cons.
Qed.

Lemma read_loop_stops fuel fd size w n : (n < fuel)%nat ->
  interrupted (replicate n (boot_read fd size, -1) ++ blog w) (boot_read fd size) = false ->
  ends (read_loop fuel fd size) w (fun _ _ => True).
Proof.
  revert w n. induction fuel as [|fuel IH]; intros w n Hn Hi; [lia|]. cbn [read_loop].
  eapply ends_bind; [apply sys_read_ends|]. intros r w1 [L1 E1]. eapply ends_step; [done|]. cbv beta.
  destruct (_ && _) eqn:Er; [|by apply ends_ret]. rewrite L1 in Er.
  destruct (interrupted_next _ _ _ _ Hi E1 Er) as (m & -> & Hm). apply (IH w1 m); [lia|]. by rewrite L1.
Qed.

Lemma write_loop_stops fuel fd size bytes w n : (n < fuel)%nat ->
  interrupted (replicate n (boot_write fd size, -1) ++ blog w) (boot_write fd size) = false ->
  ends (write_loop fuel fd size bytes) w (fun _ _ => True).
Proof.
  revert w n. induction fuel as [|fuel IH]; intros w n Hn Hi; [lia|]. cbn [write_loop].
  eapply ends_bind; [apply sys_write_ends|]. intros r w1 [L1 E1]. eapply ends_step; [done|]. cbv beta.
  destruct (_ && _) eqn:Er; [|by apply ends_ret]. rewrite L1 in Er.
  destruct (interrupted_next _ _ _ _ Hi E1 Er) as (m & -> & Hm). apply (IH w1 m); [lia|]. by rewrite L1.
Qed.
End interruptions.

#[local] Arguments slot_data_of : simpl never.
#[local] Arguments slot_data_bytes : simpl never.

Section device.
Context `{BlockDevice}.

(** A write that was cut off. *)
Definition cut_off (w : boot_world) : Prop := torn (blog w) /\ device_fails /\ write_works.

Lemma sys_read_spec fd size w o : offsets w !! fd = Some o -> 0 <= o -> 0 < size ->
  ends (sys_read fd size) w (fun r w' => same_objects w w' /\ partition w' = partition w /\
    blog w' = (boot_read fd size, fst r) :: blog w /\ fst r = boot_answer (blog w) (boot_read fd size) /\
    (fst r = -1 -> offsets w' = offsets w) /\
    ((fst r <> size /\ (length (snd r) <= Z.to_nat size)%nat) \/
     (fst r = size /\ snd r = take (Z.to_nat size) (drop (Z.to_nat o) (partition w))))).
Proof.
  intros Ho Hpos Hs. unfold sys_read. eapply ends_step; [done|]. eapply ends_step; [done|]. cbv beta. simpl. rewrite Ho.
  pose proof (read_count (blog w) fd size Hs) as Hr. set (k := boot_answer _ _) in *. destruct (Z.ltb_spec 0 k) as [Hk|Hk].
  - eapply ends_step; [done|]. eapply ends_step; [done|]. apply ends_ret. repeat (split; [done|]). split; [simpl; lia|]. simpl.
    destruct (decide (k = size)) as [->|N]; [by right|left]. split; [done|]. rewrite length_take. lia.
  - apply ends_ret. repeat (split; [done|]). left. simpl. lia.
Qed.

Lemma sys_write_spec fd size bytes w o : offsets w !! fd = Some o -> 0 <= o -> 0 < size -> size = Z.of_nat (length bytes) ->
  ends (sys_write fd size bytes) w (fun r w' => same_objects w w' /\
    blog w' = (boot_write fd size, r) :: blog w /\ r = boot_answer (blog w) (boot_write fd size) /\
    (r = -1 -> offsets w' = offsets w) /\
    ((r < 1 /\ partition w' = partition w) \/
     (0 < r <= size /\ partition w' = splice o (take (Z.to_nat r) bytes) (partition w)))).
Proof.
  intros Ho Hpos Hs Hl. unfold sys_write. eapply ends_step; [done|]. eapply ends_step; [done|]. cbv beta. simpl. rewrite Ho.
  pose proof (write_count (blog w) fd size Hs) as Hr. set (k := boot_answer _ _) in *. destruct (Z.ltb_spec 0 k) as [Hk|Hk].
  - eapply ends_step; [done|]. apply ends_ret. repeat (split; [done|]). split; [lia|]. right. by split; [lia|].
  - eapply ends_step; [done|]. apply ends_ret. repeat (split; [done|]). left. by split; [lia|].
Qed.

Lemma read_loop_ends fuel fd size w o n : (n < fuel)%nat -> interrupted (replicate n (boot_read fd size, -1) ++ blog w) (boot_read fd size) = false ->
  offsets w !! fd = Some o -> 0 <= o -> 0 < size ->
  ends (read_loop fuel fd size) w (fun r w' => same_objects w w' /\ partition w' = partition w /\
    ((fst r <> size /\ (length (snd r) <= Z.to_nat size)%nat /\ load_fails) \/
     (fst r = size /\ snd r = take (Z.to_nat size) (drop (Z.to_nat o) (partition w))))).
Proof.
  revert w n. induction fuel as [|fuel IH]; intros w n Hn Hi Ho Hpos Hs; [lia|]. cbn [read_loop].
  eapply ends_bind; [by apply sys_read_spec|]. intros r w1 (S1 & P1 & L1 & E1 & O1 & R1). eapply ends_step; [done|]. cbv beta.
  destruct ((fst r =? -1) && (boot_errno (blog w1) =? EINTR)) eqn:Er.
  - pose proof Er as Er'. rewrite L1 in Er'. destruct (interrupted_next _ _ _ _ Hi E1 Er') as (m & -> & Hm).
    apply andb_prop in Er as [E2%Z.eqb_eq _]. specialize (O1 E2).
    eapply ends_weaken; [by apply (IH w1 m); [lia|rewrite L1|rewrite O1| |]|].
    intros r' w2 (S2 & P2 & K2). rewrite P2, P1 in *. destruct S1 as [S1a S1b], S2 as [S2a S2b]. unfold same_objects.
    by rewrite S2a, S2b, S1a, S1b.
  - apply ends_ret. split; [done|]. split; [done|]. destruct R1 as [[N Hb]|?]; [left|by right].
    split; [done|]. split; [done|]. do 3 right. exists (blog w), fd, size. rewrite <- E1. do 2 (split; [done|]).
    rewrite L1 in Er. unfold interrupted. rewrite <- E1. by destruct (Z.eqb_spec (fst r) (-1)) as [E|E]; [rewrite E in Er|].
Qed.

Lemma write_loop_ends fuel fd size bytes w o n : (n < fuel)%nat ->
  interrupted (replicate n (boot_write fd size, -1) ++ blog w) (boot_write fd size) = false ->
  offsets w !! fd = Some o -> 0 <= o -> 0 < size -> size = Z.of_nat (length bytes) ->
  ends (write_loop fuel fd size bytes) w (fun r w' => same_objects w w' /\
    ((r <> size /\ partition w' = partition w /\ device_fails) \/
     (r <> size /\ partition w' = splice o (take (Z.to_nat r) bytes) (partition w) /\ cut_off w') \/
     (r = size /\ partition w' = splice o bytes (partition w) /\ write_works))).
Proof.
  revert w n. induction fuel as [|fuel IH]; intros w n Hn Hi Ho Hpos Hs Hl; [lia|]. cbn [write_loop].
  eapply ends_bind; [by apply sys_write_spec|]. intros r w1 (S1 & L1 & E1 & O1 & R1). eapply ends_step; [done|]. cbv beta.
  destruct ((r =? -1) && (boot_errno (blog w1) =? EINTR)) eqn:Er.
  - pose proof Er as Er'. rewrite L1 in Er'. destruct (interrupted_next _ _ _ _ Hi E1 Er') as (m & -> & Hm).
    apply andb_prop in Er as [E2%Z.eqb_eq _]. specialize (O1 E2). destruct R1 as [(_ & P1)|(R1 & _)]; [|lia].
    eapply ends_weaken; [by apply (IH w1 m); [lia|rewrite L1|rewrite O1| | |]|].
    intros r' w2 (S2 & K2). rewrite P1 in *. destruct S1 as [S1a S1b], S2 as [S2a S2b]. unfold same_objects.
    by rewrite S2a, S2b, S1a, S1b.
  - assert (F : r <> size -> device_fails).
    { intros N. right. exists (blog w), fd, size. rewrite <- E1. do 2 (split; [done|]). rewrite L1 in Er. unfold interrupted.
      rewrite <- E1. by destruct (Z.eqb_spec r (-1)) as [E|E]; [rewrite E in Er|]. }
    assert (W : 0 < r -> write_works) by (intros Hr; exists (blog w), fd, size; rewrite <- E1; lia).
    apply ends_ret. split; [done|]. destruct R1 as [[Hr P1]|[Hr P1]].
    + left. split; [lia|]. split; [done|]. apply F. lia.
    + right. destruct (decide (r = size)) as [->|N]; [right|left].
      * split; [done|]. split; [|apply W; lia]. by rewrite P1, Hl, Nat2Z.id, firstn_all.
      * split; [done|]. split; [done|]. split; [|split; [by apply F|apply W; lia]]. exists fd, size, r. rewrite L1. split; [by left|lia].
Qed.

(** ** The loader *)

Lemma sys_open_spec path w : ends (sys_open path) w (fun fd w' => same_objects w w' /\ partition w' = partition w /\
  (fd <> -1 -> offsets w' !! fd = Some 0) /\ (fd = -1 -> load_fails)).
Proof.
  unfold sys_open. eapply ends_step; [done|]. cbv beta. destruct (Z.eqb_spec (boot_answer (blog w) (boot_open path)) (-1)) as [E|E].
  - eapply ends_step; [done|]. apply ends_ret. split; [done|]. split; [done|]. split; [done|]. intros _. right. left. by eexists _, _.
  - eapply ends_step; [done|]. apply ends_ret. split; [done|]. split; [done|]. split; [|done]. intros _. simpl. by rewrite lookup_insert_eq.
Qed.

Definition message_open (w : boot_world) : Prop :=
  exynos_message_fd w <> -1 /\ offsets w !! exynos_message_fd w = Some 0.

Lemma no_entry l : (fstab ← ReadDefaultFstab l; entry_path SLOT_INFO_PARTITION fstab) = None -> load_fails.
Proof. intros E. left. by exists l. Qed.

Lemma open_message_spec w : ends (open_message SLOT_INFO_PARTITION) w (fun b w' => same_objects w w' /\
  partition w' = partition w /\ if b then message_open w' else load_fails).
Proof.
  unfold open_message. eapply ends_step; [done|]. cbv beta. generalize (no_entry (blog w)).
  destruct (ReadDefaultFstab (blog w)) as [fstab|]; intros F; [|apply ends_ret; do 2 (split; [done|]); by apply F].
  simpl in F. induction fstab as [|entry fstab IH]; cbn [open_entry entry_path] in *; [apply ends_ret; do 2 (split; [done|]); by apply F|].
  destruct (String.eqb _ _); [|by apply IH]. destruct (String.eqb _ _); [apply ends_ret; do 2 (split; [done|]); by apply F|].
  eapply ends_bind; [apply sys_open_spec|]. intros fd w1 (S1 & P1 & O1 & F1). eapply ends_step; [done|]. apply ends_ret.
  split; [done|]. split; [done|]. destruct (Z.eqb_spec fd (-1)) as [E|E]; cbn [negb]; [by apply F1|]. split; [done|]. by apply O1.
Qed.

Lemma close_message_spec w : ends close_message w (fun _ w' => same_objects w w' /\ partition w' = partition w).
Proof. unfold close_message, sys_close. by do 2 eexists. Qed.

(** The bytes of the slot data, and the partition with others. *)
Definition slot_bytes (l : list Z) : list Z := take 32 (drop 2048 l).
Definition contents (w : boot_world) : slot_data := slot_data_of (slot_bytes (partition w)).
Definition sized (l : list Z) : Prop := (2080 <= length l)%nat.

Lemma slot_bytes_length l : sized l -> length (slot_bytes l) = 32%nat.
Proof. intros Hl. unfold slot_bytes, sized in *. rewrite length_take, length_drop. lia. Qed.

Lemma splice_sized l bytes : sized l -> (length bytes <= 32)%nat -> sized (splice SLOTINFO_OFFSET bytes l).
Proof.
  intros Hl Hb. unfold splice, sized in *. change (Z.to_nat SLOTINFO_OFFSET) with 2048%nat.
  rewrite !length_app, length_take, length_drop. lia.
Qed.

Lemma slot_bytes_splice l bytes : sized l -> length bytes = 32%nat -> slot_bytes (splice SLOTINFO_OFFSET bytes l) = bytes /\
  sized (splice SLOTINFO_OFFSET bytes l).
Proof.
  intros Hl Hb. unfold slot_bytes, splice, sized in *. change (Z.to_nat SLOTINFO_OFFSET) with 2048%nat. split.
  - rewrite drop_app_length' by (rewrite length_take; lia). by rewrite take_app_length' by done.
  - rewrite !length_app, length_take, length_drop. lia.
Qed.

(** The seek is at the beginning of the slot data. *)
Lemma lseek_spec fd w : offsets w !! fd = Some 0 ->
  ends (sys_lseek fd SLOTINFO_OFFSET) w (fun r w' => same_objects w w' /\ partition w' = partition w /\
    if s32 r =? SLOTINFO_OFFSET then offsets w' !! fd = Some SLOTINFO_OFFSET else load_fails).
Proof.
  intros Ho. unfold sys_lseek. eapply ends_step; [done|]. cbv beta.
  destruct (seek_exact (blog w) fd SLOTINFO_OFFSET) as [E|E]; rewrite E.
  - eapply ends_step; [done|]. apply ends_ret. split; [done|]. split; [done|]. do 2 right. left. exists (blog w), fd, SLOTINFO_OFFSET. by rewrite E.
  - eapply ends_step; [done|]. apply ends_ret. split; [done|]. split; [done|]. simpl. by rewrite lookup_insert_eq.
Qed.

Lemma read_message_spec w : sized (partition w) -> message_open w ->
  ends (read_message SLOTINFO_OFFSET sizeof_slot_data) w (fun r w' => same_objects w w' /\ partition w' = partition w /\
    match r with
    | Some (bytes, true) => bytes = slot_bytes (partition w)
    | Some (bytes, false) => (length bytes <= 32)%nat /\ load_fails
    | None => load_fails
    end).
Proof.
  intros Hp [Hf Ho]. unfold read_message. eapply ends_step; [done|]. cbv beta. rewrite (proj2 (Z.eqb_neq _ _) Hf).
  eapply ends_bind; [by apply lseek_spec|]. intros r w1 (S1 & P1 & O1).
  destruct (s32 r =? SLOTINFO_OFFSET); cbn [negb]; [|by apply ends_ret].
  destruct (soon_uninterrupted (blog w1) (boot_read (exynos_message_fd w) sizeof_slot_data)) as (n & Hn & Hi).
  eapply ends_bind; [apply (read_loop_ends _ _ _ w1 SLOTINFO_OFFSET n); [lia|done|done|done|done]|].
  intros [c bytes] w2 (S2 & P2 & R2). simpl in R2. apply ends_ret. destruct S1 as [S1a S1b], S2 as [S2a S2b].
  unfold same_objects. rewrite S2a, S2b, S1a, S1b, P2, P1 in *. split; [done|]. split; [done|]. simpl.
  destruct R2 as [(N & Hb & F)|[-> ->]]; [|done]. by rewrite (proj2 (Z.eqb_neq _ _) N).
Qed.

(** The slots are written in part, if a write is cut off. *)
Definition half_written (w w' : boot_world) : Prop :=
  exists bytes, (length bytes <= 32)%nat /\ partition w' = splice SLOTINFO_OFFSET bytes (partition w).
Definition unwritten (w w' : boot_world) : Prop :=
  (partition w' = partition w /\ device_fails) \/ (half_written w w' /\ cut_off w').

Lemma write_message_spec bytes w : sized (partition w) -> message_open w -> length bytes = 32%nat ->
  ends (write_message bytes SLOTINFO_OFFSET sizeof_slot_data) w (fun complete w' => same_objects w w' /\
    if complete then partition w' = splice SLOTINFO_OFFSET bytes (partition w) /\ write_works
    else unwritten w w').
Proof.
  intros Hp [Hf Ho] Hl. unfold write_message. eapply ends_step; [done|]. cbv beta. rewrite (proj2 (Z.eqb_neq _ _) Hf).
  eapply ends_bind; [by apply lseek_spec|]. intros r w1 (S1 & P1 & O1).
  destruct (s32 r =? SLOTINFO_OFFSET); cbn [negb]; [|by apply ends_ret; split; [done|]; left; split; [done|]; left].
  destruct (soon_uninterrupted (blog w1) (boot_write (exynos_message_fd w) sizeof_slot_data)) as (n & Hn & Hi).
  eapply ends_bind; [apply (write_loop_ends _ _ _ bytes w1 SLOTINFO_OFFSET n); [lia|done|done|done|done|by rewrite Hl]|].
  intros c w2 (S2 & R2). apply ends_ret. destruct S1 as [S1a S1b], S2 as [S2a S2b].
  unfold same_objects, unwritten, half_written. rewrite S2a, S2b, S1a, S1b, P1 in *. split; [done|].
  destruct R2 as [(N & -> & F)|[(N & E & F)|(-> & -> & F)]]; [rewrite (proj2 (Z.eqb_neq _ _) N)..|done]; [by left|right].
  split; [|done]. eexists. split; [|exact E]. rewrite length_take. lia.
Qed.

(** What a read and a write of the slot data come to. *)
Lemma read_slot_data_spec w : sized (partition w) -> shaped (loader_si w) ->
  ends read_slot_data w (fun b w' => exbc w' = exbc w /\ partition w' = partition w /\ shaped (loader_si w') /\
    if b then loader_si w' = contents w else load_fails).
Proof.
  intros Hp Hs. unfold read_slot_data. eapply ends_bind; [apply open_message_spec|]. intros b w1 (S1 & P1 & O1).
  assert (Hs1 : shaped (loader_si w1)) by (destruct S1 as [-> _]; done).
  destruct b; cbn [negb]; [|apply ends_ret; destruct S1 as [S1a S1b]; by rewrite S1b, P1].
  eapply ends_bind; [apply read_message_spec; [by rewrite P1|by apply O1]|]. intros [[bytes complete]|] w2 (S2 & P2 & R2).
  2: { apply ends_ret. destruct S1 as [S1a S1b], S2 as [S2a S2b]. by rewrite S2a, S2b, P2, S1b, P1. }
  eapply ends_step; [done|]. destruct S1 as [S1a S1b], S2 as [S2a S2b]. rewrite P1 in *.
  destruct complete.
  - subst bytes. eapply ends_bind; [apply close_message_spec|]. intros [] w3 ([S3a S3b] & P3). apply ends_ret. simpl in S3a, S3b, P3.
    assert (E : loader_si w3 = contents w).
    { rewrite S3a, slot_bytes_length by done. rewrite drop_ge by (rewrite shaped_bytes; [lia|by rewrite S2a]). by rewrite app_nil_r. }
    rewrite S3b, S2b, S1b, P3, P2. split; [done|]. split; [done|]. split; [|done]. rewrite E. by apply structure_shaped, slot_bytes_length.
  - destruct R2 as [Hb F]. apply ends_ret. simpl. rewrite S2b, S1b, P2. split; [done|]. split; [done|]. split; [|done].
    apply structure_shaped. rewrite length_app, length_drop, shaped_bytes by (by rewrite S2a). lia.
Qed.

Lemma write_slot_data_spec w : sized (partition w) -> shaped (loader_si w) ->
  ends write_slot_data w (fun b w' => exbc w' = exbc w /\ loader_si w' = loader_si w /\
    if b then partition w' = splice SLOTINFO_OFFSET (slot_data_bytes (loader_si w)) (partition w) /\ write_works
    else unwritten w w').
Proof.
  intros Hp Hs. unfold write_slot_data. eapply ends_bind; [apply open_message_spec|]. intros b w1 ([S1a S1b] & P1 & O1).
  destruct b; cbn [negb]; [|by apply ends_ret; repeat (split; [done|]); left; split; [done|]; left]. eapply ends_step; [done|].
  eapply ends_bind; [apply write_message_spec; [by rewrite P1|by apply O1|by rewrite S1a, shaped_bytes]|].
  intros c w2 ([S2a S2b] & P2). unfold unwritten, half_written in P2. rewrite S1a, P1 in P2. destruct c; cbn [negb].
  - eapply ends_bind; [apply close_message_spec|]. intros [] w3 ([S3a S3b] & P3). apply ends_ret.
    destruct P2 as [P2 ?]. by rewrite S3a, S3b, P3, S2a, S2b, P2.
  - apply ends_ret. by rewrite S2a, S2b.
Qed.

Lemma contents_written d w w' : sized (partition w) -> shaped d ->
  partition w' = splice SLOTINFO_OFFSET (slot_data_bytes d) (partition w) -> contents w' = d /\ sized (partition w').
Proof.
  intros Hp Hs Ep. destruct (slot_bytes_splice (partition w) (slot_data_bytes d) Hp (shaped_bytes _ Hs)) as [E K].
  unfold contents. rewrite Ep. split; [|done]. rewrite E. by apply bytes_structure.
Qed.
End device.
