(* ===== verification/BootRules.v ===== *)
(** * Boot control: what the slots are

    The slots that a partition stands for, and what loading, changing and saving do to
    them, whether the device works or not. *)

From Stdlib Require Import String.
From S2P Require Import Prelude Effects BootSlots BootMessage BootControl BootLife.

(** ** Encoding *)

(** What the partition keeps of [si]: version 1.1 has no place for [ota_flag], and
    [merge_status] has 8 bits. *)
Definition persistent (v : hal_version) (i : ExynosSlot_info) : ExynosSlot_info := {|
  metadata := metadata i;
  merge_status := s8 (merge_status i);
  ota_flag := match v with V1_1 => 0 | V1_2 => ota_flag i end |}.

Lemma persistent_twice v i : persistent v (persistent v i) = persistent v i.
Proof. unfold persistent. simpl. rewrite s8_s8. by destruct v. Qed.

Lemma Encode_shaped v i d : shaped d -> shaped (Encode v i d).
Proof. intros (_ & L2 & L3 & L4 & _). repeat split; try done. apply s8_s8. Qed.

(** The magic that it writes is the one that is looked for. *)
Lemma Encode_magic v i d : magic (Encode v i d) = EXYNOS_SLOT_INFO_MAGIC.
Proof. done. Qed.

Lemma Decode_Encode v i g d : persistent v (Decode v g (Encode v i d)) = persistent v i.
Proof. destruct i as [[] ? ?]. unfold persistent, Decode, Encode. simpl. rewrite s8_s8. by destruct v. Qed.

(** Of what was there before decoding nothing is left. *)
Lemma Decode_fresh v g g' d : persistent v (Decode v g d) = persistent v (Decode v g' d).
Proof. by destruct v. Qed.

(** ** Operations on the slots *)

(** An operation acts on what is kept. *)
Definition acts (v : hal_version) (f : ExynosSlot_info -> option ExynosSlot_info) : Prop :=
  forall i, exists j j', f i = Some j /\ f (persistent v i) = Some j' /\ persistent v j' = persistent v j.

Lemma valid_slot slot : IsValidSlot slot = true -> 0 <= slot -> slot = 0 \/ slot = 1.
Proof. unfold IsValidSlot. intros E%negb_true_iff%Z.leb_gt. lia. Qed.

Ltac acts_on_slots :=
  let i := fresh "i" in intros i; destruct i as [[a b] s o];
  do 2 eexists; split; [reflexivity|split; [reflexivity|]]; unfold persistent; simpl; rewrite ?s8_s8.

Lemma mark_acts v slot : slot = 0 \/ slot = 1 -> acts v (exbc_MarkBootSuccessful slot).
Proof. intros [-> | ->]; acts_on_slots; by destruct v. Qed.

Lemma active_acts v current slot : slot = 0 \/ slot = 1 -> acts v (exbc_SetActiveBootSlot current slot).
Proof. intros [-> | ->]; acts_on_slots; by destruct v. Qed.

Lemma unbootable_acts v slot : slot = 0 \/ slot = 1 -> acts v (exbc_SetSlotAsUnbootable slot).
Proof. intros [-> | ->]; acts_on_slots; by destruct v. Qed.

Lemma status_acts v status : acts v (fun i => Some (exbc_SetSnapshotMergeStatus status i)).
Proof. acts_on_slots; by destruct v. Qed.

(** ** Loading and saving *)

Section rules.
Context `{BlockDevice} (v : hal_version).

Definition formatted (w : boot_world) : bool := bool_decide (magic (contents w) = EXYNOS_SLOT_INFO_MAGIC).

(** A damaged partition stands for the slots after a reset. *)
Definition stored (w : boot_world) : ExynosSlot_info :=
  persistent v (if formatted w then Decode v reset_slot_info (contents w) else reset_slot_info).

Definition ready (w : boot_world) : Prop := sized (partition w) /\ shaped (loader_si w).

Lemma formatted_same w w' : partition w' = partition w -> formatted w' = formatted w /\ stored w' = stored w.
Proof. intros E. unfold stored, formatted, contents. by rewrite E. Qed.

(** What a write of the slots leaves. *)
Lemma written_slots w w' i d : sized (partition w) -> shaped (Encode v i d) ->
  partition w' = splice SLOTINFO_OFFSET (slot_data_bytes (Encode v i d)) (partition w) ->
  sized (partition w') /\ formatted w' = true /\ stored w' = persistent v i.
Proof.
  intros Hp Hs Ep. destruct (contents_written _ w w' Hp Hs Ep) as [Ec Hp']. split; [done|].
  assert (F : formatted w' = true) by (unfold formatted; rewrite Ec; by apply bool_decide_eq_true).
  split; [done|]. unfold stored. rewrite F, Ec. apply Decode_Encode.
Qed.

(** [Uploading_data] and [write_slot_data], in [Load_Slot] and in [Save_Slot]. *)
Lemma upload_spec w : ready w ->
  ends (Uploading_data v ;; write_slot_data) w (fun b w' => ready w' /\ exbc w' = exbc w /\
    if b then formatted w' = true /\ stored w' = persistent v (si (exbc w)) /\ write_works
    else (partition w' = partition w /\ device_fails) \/ cut_off w').
Proof.
  intros [Hp _]. unfold Uploading_data. set (d := Encode v (si (exbc w)) (local_data (blog w))).
  eapply (ends_step _ _ _ tt (w <| loader_si := d |>)); [done|].
  assert (Hd : shaped d) by apply Encode_shaped, local_shaped.
  eapply ends_weaken; [by apply write_slot_data_spec|]. intros b w' (E1 & E2 & P). unfold ready. rewrite E1, E2.
  destruct b.
  - destruct P as [P ?]. destruct (written_slots w w' (si (exbc w)) (local_data (blog w)) Hp Hd P) as (? & ? & ?). done.
  - destruct P as [[P F]|[(bs & Hb & P) F]]; rewrite P; (split; [split; [|done]|split; [done|]]); [done|by left| |by right].
    by apply splice_sized.
Qed.

Lemma bind_assoc {A B1 C} (p : B A) (q : B B1) (k : B1 -> B C) w : (p ;; (q ≫= k)) w = ((p ;; q) ≫= k) w.
Proof. unfold mbind, ST_bind. by destruct (p w) as [[]|]. Qed.

Lemma ends_same {A} (o o' : B A) w Q : o w = o' w -> ends o' w Q -> ends o w Q.
Proof. unfold ends. by intros ->. Qed.

Lemma Save_Slot_spec w : ready w ->
  ends (Save_Slot v) w (fun b w' => ready w' /\ exbc w' = exbc w /\
    if b then formatted w' = true /\ stored w' = persistent v (si (exbc w)) /\ write_works
    else (partition w' = partition w /\ device_fails) \/ cut_off w').
Proof.
  intros Hw. unfold Save_Slot. eapply ends_same; [apply bind_assoc|].
  eapply ends_bind; [by apply upload_spec|]. intros b w' K. by destruct b; apply ends_ret.
Qed.

(** The slots are as they were, or there is a write that was cut off. *)
Definition unchanged (w w' : boot_world) : Prop := (stored w' = stored w /\ device_fails) \/ cut_off w'.

(** [merge_status] in 8 bits. *)
Definition short_status (i : ExynosSlot_info) : Prop := s8 (merge_status i) = merge_status i.

(** Loading changes nothing of what is stored; it repairs a damaged partition.  A repair
    that is cut off may leave anything in place of the slots. *)
Lemma Load_Slot_spec w : ready w ->
  ends (Load_Slot v) w (fun b w' => ready w' /\ exynos_slot_initialized (exbc w') = exynos_slot_initialized (exbc w) /\
    if b then stored w' = stored w /\ persistent v (si (exbc w')) = stored w /\ formatted w' = true /\
      short_status (si (exbc w')) /\ (formatted w = true -> partition w' = partition w)
    else unchanged w w' /\ (formatted w = true -> load_fails)).
Proof.
  intros [Hp Hs]. unfold Load_Slot. eapply ends_bind; [by apply read_slot_data_spec|].
  intros b w1 (E1 & P1 & S1 & L1). destruct (formatted_same w w1 P1) as [F1 D1].
  destruct b; cbn [negb].
  2: { apply ends_ret. unfold ready. rewrite P1, E1. split; [done|]. split; [done|]. split; [|done]. left. split; [done|by left]. }
  eapply ends_step; [done|]. assert (V : bool_decide (magic (loader_si w1) = EXYNOS_SLOT_INFO_MAGIC) = formatted w) by (by rewrite L1).
  cbv beta. rewrite V. destruct (formatted w) eqn:F; cbn [negb].
  - unfold Downloading_data. eapply ends_step; [done|]. apply ends_ret. unfold ready. simpl. rewrite P1, E1. split; [done|].
    split; [done|].
    destruct (formatted_same w (w1 <| exbc := (exbc w1) <| si := Decode v (local_info (blog w1)) (loader_si w1) |> |>) P1) as [F2 D2].
    split; [done|]. split; [|split; [by rewrite <- F|]]; rewrite L1; [unfold stored; rewrite F; apply Decode_fresh|].
    split; [|done]. by apply structure_shaped, slot_bytes_length.
  - eapply ends_step; [done|]. cbv beta. eapply ends_same; [apply bind_assoc|].
    eapply ends_bind; [by apply upload_spec; unfold ready; simpl; rewrite P1|]. simpl. intros b w2 (R2 & E2 & K2).
    assert (D2 : stored w = persistent v reset_slot_info) by (unfold stored; by rewrite F).
    destruct b; cbn [negb]; apply ends_ret; rewrite E2; simpl; rewrite E1; (split; [done|]); (split; [done|]).
    + rewrite D2. by destruct K2 as (? & ? & ?).
    + split; [|done]. destruct K2 as [[P2 ?]|?]; [left|by right]. destruct (formatted_same w w2) as [_ ->]; [by rewrite P2|done].
Qed.

(** An update happens and is stored, or is reported and the slots are as before. *)
Lemma update_saved_spec f w : acts v f -> ready w ->
  ends (update_saved v f) w (fun b w' => ready w' /\ exynos_slot_initialized (exbc w') = exynos_slot_initialized (exbc w) /\
    if b then exists j, f (stored w) = Some j /\ stored w' = persistent v j /\ persistent v (si (exbc w')) = stored w' /\
      formatted w' = true /\ write_works
    else unchanged w w' /\
      (~ load_fails -> ~ write_works -> formatted w = true -> partition w' = partition w /\
       exists j, f (stored w) = Some j /\ persistent v (si (exbc w')) = persistent v j)).
Proof.
  intros Hf Hw. unfold update_saved. eapply ends_bind; [by apply Load_Slot_spec|]. intros b w1 (R1 & I1 & K1).
  destruct b; cbn [negb].
  2: { apply ends_ret. destruct K1 as (? & K1). do 3 (split; [done|]). intros NL _ Fw. by destruct NL; apply K1. }
  destruct K1 as (D1 & E1 & F1 & _ & K1). destruct (Hf (si (exbc w1))) as (j & j' & Ej & Ej' & Ejj). rewrite E1 in Ej'.
  eapply (ends_step _ _ _ tt (w1 <| exbc := (exbc w1) <| si := j |> |>)).
  { unfold exbc_update, get_slotinfo. erewrite bind_some; [|done]. cbv beta. rewrite Ej. done. }
  eapply ends_bind; [by apply Save_Slot_spec|]. simpl. intros b w2 (R2 & E2 & K2).
  destruct b; cbn [negb]; apply ends_ret; rewrite E2; (split; [done|]); (split; [done|]).
  - destruct K2 as (F2 & D2 & ?). exists j'. split; [done|]. rewrite Ejj, D2. done.
  - split.
    { destruct K2 as [[P2 ?]|?]; [left|by right]. rewrite <- D1. by split; [apply formatted_same|]. }
    intros _ NW Fw. destruct K2 as [[P2 _]|(_ & _ & ?)]; [|done]. rewrite P2. split; [by apply K1|]. by exists j'.
Qed.

(** A question is answered from the partition. *)
Lemma look_loaded_spec {A} (f : ExynosSlot_info -> option A) (failed : A) w :
  (forall i, is_Some (f i)) -> (forall i, short_status i -> f (persistent v i) = f i) -> ready w ->
  ends (look_loaded v f failed) w (fun r w' => ready w' /\ exynos_slot_initialized (exbc w') = exynos_slot_initialized (exbc w) /\
    ((f (stored w) = Some r /\ stored w' = stored w /\ persistent v (si (exbc w')) = stored w') \/ (r = failed /\ unchanged w w'))).
Proof.
  intros Ht Hf Hw. unfold look_loaded. eapply ends_bind; [by apply Load_Slot_spec|]. intros b w1 (R1 & I1 & K1).
  destruct b; cbn [negb]; [|by destruct K1 as (? & _); apply ends_ret; do 2 (split; [done|]); right].
  destruct K1 as (D1 & E1 & F1 & M1 & _).
  eapply ends_step; [done|]. cbv beta. destruct (Ht (si (exbc w1))) as [r Er]. unfold access. rewrite Er. exists r, w1.
  split; [done|]. split; [done|]. split; [done|]. left. by rewrite D1, <- E1, Hf.
Qed.

Lemma Init_spec w : ready w -> exynos_slot_initialized (exbc w) = false ->
  ends (Exynos_Init v) w (fun b w' => ready w' /\
    if b then stored w' = stored w /\ persistent v (si (exbc w')) = stored w' /\ formatted w' = true /\
      exynos_slot_initialized (exbc w') = true
    else unchanged w w' /\ exynos_slot_initialized (exbc w') = false).
Proof.
  intros Hw Hi. unfold Exynos_Init. eapply ends_step; [done|]. cbv beta. rewrite Hi.
  eapply ends_bind; [by apply Load_Slot_spec|]. intros b w1 (R1 & I1 & K1).
  destruct b; cbn [negb].
  - destruct K1 as (D1 & E1 & F1 & _). eapply ends_step; [done|]. apply ends_ret. split; [done|]. split; [exact D1|].
    split; [exact (eq_trans E1 (eq_sym D1))|]. split; [exact F1|done].
  - apply ends_ret. rewrite I1. by destruct K1 as (? & _).
Qed.
End rules.
