(* ===== verification/BootSpec.v ===== *)
(** * Boot control: what it promises

    A service with two slots, one of which may be active, as a function from requests
    to replies, and the proof that one request on the partition is one of its steps,
    or fails without any effect, or has a write cut off part-way. *)

From Stdlib Require Import String.
From S2P Require Import Prelude Effects BootSlots BootMessage BootControl BootLife BootRules.

(** ** The abstract service *)

Inductive ab_slot := slot_A | slot_B.
#[export] Instance ab_slot_eq_dec : EqDecision ab_slot.
Proof. solve_decision. Defined.

Definition other (x : ab_slot) : ab_slot := match x with slot_A => slot_B | slot_B => slot_A end.

Record slot_state := SlotState {
  can_boot : bool;
  marked : bool;
  tries : Z
}.

Record ab_state := {
  active : option ab_slot;
  state_of : per_slot slot_state;
  merging : Z;
  pending : bool
}.
#[export] Instance ab_state_fields : Fields ab_state := fun s => {|
  active := active s; state_of := state_of s; merging := merging s; pending := pending s |}.

Definition state_at (s : ab_state) (x : ab_slot) : slot_state :=
  match x with slot_A => slot_a (state_of s) | slot_B => slot_b (state_of s) end.
Definition with_state (x : ab_slot) (y : slot_state) (s : ab_state) : ab_state :=
  s <| state_of := match x with
                   | slot_A => PerSlot y (slot_b (state_of s))
                   | slot_B => PerSlot (slot_a (state_of s)) y
                   end |>.

Definition slot_of (n : Z) : option ab_slot := if n =? 0 then Some slot_A else if n =? 1 then Some slot_B else None.

(** One request, if the system runs from the slot [current]. *)
Definition ab_step (v : hal_version) (current : option ab_slot) (s : ab_state) (r : boot_request) : boot_reply * ab_state :=
  let on n (none : boot_reply) (k : ab_slot -> boot_reply * ab_state) :=
    match slot_of n with Some x => k x | None => (none, s) end in
  let refused := a_result (command_result false) in
  let done := a_result (command_result true) in
  match r with
  | Init => (a_bool true, s)
  | getNumberSlots => (a_number 2, s)
  | getCurrentSlot => (a_number (match current with Some slot_A => 0 | Some slot_B => 1 | None => 2 ^ 32 - 1 end), s)
  | markBootSuccessful =>
      match current with
      | Some x => (done, with_state x (SlotState (can_boot (state_at s x)) true (tries (state_at s x))) s)
      | None => (refused, s)
      end
  | setActiveBootSlot n => on n refused (fun x =>
      (done, with_state x (SlotState true false 7)
               (s <| active := Some x |>
                  <| pending := match v with V1_1 => false | V1_2 => bool_decide (current <> Some x) end |>)))
  | setSlotAsUnbootable n => on n refused (fun x =>
      (done, with_state x (SlotState false false 0)
               (s <| active := if can_boot (state_at s (other x)) then Some (other x) else None |>)))
  | isSlotBootable n => on n (a_bool_result INVALID_SLOT) (fun x => (a_bool_result (bool_result (can_boot (state_at s x))), s))
  | isSlotMarkedSuccessful n => on n (a_bool_result INVALID_SLOT) (fun x => (a_bool_result (bool_result (marked (state_at s x))), s))
  | getSuffix n => on n (a_string EmptyString) (fun x => (a_string (match x with slot_A => "_a" | slot_B => "_b" end), s))
  | setSnapshotMergeStatus status => (a_bool true, s <| merging := s8 status |>)
  | getSnapshotMergeStatus => (a_number (merging s), s)
  | getActiveBootSlot => (a_number (match active s with Some slot_B => 1 | _ => 0 end), s)
  end.

Fixpoint ab_run (v : hal_version) (current : option ab_slot) (s : ab_state) (rs : list boot_request) : list boot_reply * ab_state :=
  match rs with
  | [] => ([], s)
  | r :: rs => let '(a, s) := ab_step v current s r in let '(l, s) := ab_run v current s rs in (a :: l, s)
  end.

(** ** The slots of the program *)

Definition on (flag : Z) : bool := negb (flag =? 0).
Definition abs_slot (m : ExynosSlot_metadata) : slot_state := SlotState (on (bootable m)) (on (boot_successful m)) (tries_remaining m).
Definition abs (i : ExynosSlot_info) : ab_state := {|
  active := if on (is_active (slot_a (metadata i))) then Some slot_A
            else if on (is_active (slot_b (metadata i))) then Some slot_B else None;
  state_of := PerSlot (abs_slot (slot_a (metadata i))) (abs_slot (slot_b (metadata i)));
  merging := merge_status i;
  pending := on (ota_flag i) |}.

(** At most one slot is active, and it is one that can boot. *)
Definition coherent (i : ExynosSlot_info) : Prop :=
  let a := slot_a (metadata i) in let b := slot_b (metadata i) in
  (on (is_active a) = true -> on (is_active b) = false /\ on (bootable a) = true) /\
  (on (is_active b) = true -> on (bootable b) = true).

Definition current_slot `{BootEnv} : option ab_slot := slot_of (GetCurrentSlot slot_suffix_prop).

(** Slots are numbers of 32 bits. *)
Definition request_ok (r : boot_request) : Prop :=
  match r with
  | setActiveBootSlot slot | setSlotAsUnbootable slot | isSlotBootable slot | isSlotMarkedSuccessful slot | getSuffix slot =>
      0 <= slot < 2 ^ 32
  | _ => True
  end.

Lemma slot_of_cases n : 0 <= n -> (n = 0 /\ IsValidSlot n = true /\ slot_of n = Some slot_A) \/
  (n = 1 /\ IsValidSlot n = true /\ slot_of n = Some slot_B) \/ (IsValidSlot n = false /\ slot_of n = None).
Proof.
  intros Hn. destruct (decide (n = 0)) as [->|]; [by left|]. destruct (decide (n = 1)) as [->|]; [by right; left|]. right; right.
  unfold IsValidSlot, slot_of. rewrite (proj2 (Z.leb_le 2 n)) by lia. by rewrite !(proj2 (Z.eqb_neq _ _)) by done.
Qed.

Lemma current_cases s : let n := GetCurrentSlot s in
  (n = 0 /\ IsValidSlot n = true /\ slot_of n = Some slot_A) \/
  (n = 1 /\ IsValidSlot n = true /\ slot_of n = Some slot_B) \/ (n = 2 ^ 32 - 1 /\ IsValidSlot n = false /\ slot_of n = None).
Proof. unfold GetCurrentSlot. destruct (same2 _ _); [by left|]. destruct (same2 _ _); [by right; left|by right; right]. Qed.

(** The operations on coherent slots are those of the service. *)
Section operations.
Context (v : hal_version).
Implicit Types i j : ExynosSlot_info.

Lemma slot_of_some n x : slot_of n = Some x -> (n = 0 /\ x = slot_A) \/ (n = 1 /\ x = slot_B).
Proof. unfold slot_of. destruct (Z.eqb_spec n 0), (Z.eqb_spec n 1); naive_solver. Qed.

Lemma mark_abs n x i j : slot_of n = Some x -> coherent i -> exbc_MarkBootSuccessful n i = Some j ->
  coherent (persistent v j) /\
  abs (persistent v j) = with_state x (SlotState (can_boot (state_at (abs (persistent v i)) x)) true (tries (state_at (abs (persistent v i)) x))) (abs (persistent v i)).
Proof. intros [[-> ->]|[-> ->]]%slot_of_some Hi [= <-]; (split; [exact Hi|]); by destruct v. Qed.

Lemma active_abs n x current i j : slot_of n = Some x -> exbc_SetActiveBootSlot current n i = Some j ->
  coherent (persistent v j) /\
  abs (persistent v j) = with_state x (SlotState true false 7) ((abs (persistent v i)) <| active := Some x |>
    <| pending := match v with V1_1 => false | V1_2 => negb (n =? current) end |>).
Proof.
  intros Hx Hj. unfold exbc_SetActiveBootSlot in Hj. destruct (n =? current);
    apply slot_of_some in Hx; destruct Hx as [[-> ->]|[-> ->]]; injection Hj as <-; (split; [by split|]); by destruct v.
Qed.

(** The other slot takes over if it can boot: if it cannot, it is not active either. *)
Lemma unbootable_abs n x i j : slot_of n = Some x -> coherent i -> exbc_SetSlotAsUnbootable n i = Some j ->
  let s := abs (persistent v i) in coherent (persistent v j) /\
  abs (persistent v j) = with_state x (SlotState false false 0)
    (s <| active := if can_boot (state_at s (other x)) then Some (other x) else None |>).
Proof.
  intros Hx Hi Hj s. subst s. destruct i as [[[ba aa sa ta] [bb ab sb tb]] st o]. unfold coherent in Hi. simpl in Hi.
  destruct Hi as [Ha Hb]. apply slot_of_some in Hx; destruct Hx as [[-> ->]|[-> ->]]; injection Hj as <-;
    unfold coherent, abs, persistent, abs_slot, on in *; simpl.
  - destruct (bb =? 0) eqn:Eb; simpl in *; rewrite Eb; simpl; [|by destruct v].
    destruct (ab =? 0) eqn:Ea; simpl in *; [by destruct v|by discriminate Hb].
  - destruct (ba =? 0) eqn:Eb; simpl in *; rewrite Eb; simpl; [|by destruct v].
    destruct (aa =? 0) eqn:Ea; simpl in *; [by destruct v|by destruct Ha].
Qed.
End operations.

(** ** One request *)

(** The requests that change the slots; whether a reply reports success. *)
Definition updates (r : boot_request) : bool :=
  match r with
  | markBootSuccessful | setActiveBootSlot _ | setSlotAsUnbootable _ | setSnapshotMergeStatus _ => true
  | _ => false
  end.
Definition acknowledged (a : boot_reply) : bool :=
  match a with a_result r => success r | a_bool b => b | _ => true end.

Section requests.
Context `{BlockDevice} (v : hal_version).
Implicit Types w : boot_world.
#[local] Abbreviation stored := (stored v).

(** What is in memory is what is stored. *)
Definition synced w : Prop := persistent v (si (exbc w)) = stored w.

Lemma stored_persistent w : persistent v (stored w) = stored w.
Proof. apply persistent_twice. Qed.

(** The outcome of a request: a step of the service, a failure without effect, or a write
    that was cut off, after which an update is answered with a failure. *)
Definition stepped (r : boot_request) w (a : boot_reply) w' : Prop :=
  let '(a0, s') := ab_step v current_slot (abs (stored w)) r in
  ((r = getActiveBootSlot -> synced w) -> a = a0) /\ abs (stored w') = s' /\ (synced w -> synced w') /\
  (r = Init -> exynos_slot_initialized (exbc w) = false -> synced w').
Definition failed (r : boot_request) w (a : boot_reply) w' : Prop :=
  device_fails /\ stored w' = stored w /\ (updates r = true -> acknowledged a = false).
Definition outcome (r : boot_request) w (a : boot_reply) w' : Prop :=
  ready w' /\ ((coherent (stored w') /\ (stepped r w a w' \/ failed r w a w')) \/
    (cut_off w' /\ (updates r = true -> acknowledged a = false))).

(** A request that is answered without the partition. *)
Lemma answered r w a : ready w -> coherent (stored w) -> r <> Init -> ab_step v current_slot (abs (stored w)) r = (a, abs (stored w)) ->
  ends (mret a) w (outcome r w).
Proof. intros Hw Hc Hr E. apply ends_ret. split; [done|]. left. split; [done|]. left. unfold stepped. by rewrite E. Qed.

(** A failure, with the slots as they were or a write that was cut off. *)
Lemma failed_outcome r a w w' : ready w' -> coherent (stored w) -> unchanged v w w' -> (updates r = true -> acknowledged a = false) ->
  outcome r w a w'.
Proof. intros Hw Hc [[D F]|K] Ha; (split; [done|]); [left|by right]. rewrite D. split; [done|]. by right. Qed.

Lemma update_step f r k w s' : acts v f -> ready w -> coherent (stored w) -> r <> Init -> r <> getActiveBootSlot ->
  (forall j, f (stored w) = Some j -> coherent (persistent v j) /\ abs (persistent v j) = s') ->
  ab_step v current_slot (abs (stored w)) r = (k true, s') -> acknowledged (k false) = false ->
  ends (ok ← update_saved v f; mret (k ok)) w (outcome r w).
Proof.
  intros Hf Hw Hc N1 N2 Hj E Ek. eapply ends_bind; [by apply update_saved_spec|]. intros b w1 (R1 & I1 & K1).
  apply ends_ret. destruct b; [split; [done|]|].
  - destruct K1 as (j & Ej & D1 & Y1 & F1 & _). destruct (Hj j Ej) as [Cj Aj]. rewrite <- D1 in *. left. split; [done|]. left.
    unfold stepped. by rewrite E.
  - by apply failed_outcome; [| |apply K1|].
Qed.

Lemma look_step {A} (f : ExynosSlot_info -> option A) (none x : A) r k w :
  (forall i, is_Some (f i)) -> (forall i, short_status i -> f (persistent v i) = f i) ->
  ready w -> coherent (stored w) -> r <> Init -> updates r = false ->
  f (stored w) = Some x -> ab_step v current_slot (abs (stored w)) r = (k x, abs (stored w)) ->
  ends (a ← look_loaded v f none; mret (k a)) w (outcome r w).
Proof.
  intros Ht Hf Hw Hc N Hu Ex E. eapply ends_bind; [by apply look_loaded_spec|]. intros a w1 (R1 & I1 & K1).
  apply ends_ret. destruct K1 as [(E1 & D1 & Y1)|[E1 ?]].
  - split; [done|]. left. rewrite D1. split; [done|]. left. unfold stepped. rewrite E, D1. rewrite Ex in E1. by injection E1 as ->.
  - apply failed_outcome; [done..|]. by rewrite Hu.
Qed.

Lemma active_answer i : a_number (exbc_GetActiveBootSlot i) = a_number match active (abs i) with Some slot_B => 1 | _ => 0 end.
Proof. unfold exbc_GetActiveBootSlot, abs, on. simpl. destruct (_ =? 0); [by destruct (_ =? 0)|done]. Qed.

Lemma Init_step w : ready w -> coherent (stored w) -> ends (boot_perform v Init) w (outcome Init w).
Proof.
  intros Hw Hc. unfold boot_perform. destruct (exynos_slot_initialized (exbc w)) eqn:Hi.
  - eapply (ends_step _ _ _ true w).
    { unfold Exynos_Init. erewrite bind_some; [|done]. cbv beta. by rewrite Hi. }
    apply ends_ret. split; [done|]. left. split; [done|]. left. split; [done|]. split; [done|]. split; [done|]. by rewrite Hi.
  - eapply ends_bind; [by apply Init_spec|]. intros b w1 (R1 & K1). apply ends_ret. destruct b.
    + destruct K1 as (D1 & Y1 & _). split; [done|]. left. rewrite D1. split; [done|]. left. unfold stepped. simpl. by rewrite D1.
    + by apply failed_outcome; [| |apply K1|].
Qed.

(** An operation on a slot, which is refused if there is no such slot. *)
Lemma slot_update_step slot f r s' w : 0 <= slot -> ready w -> coherent (stored w) -> r <> Init -> r <> getActiveBootSlot ->
  (forall x, slot_of slot = Some x -> acts v f /\
    forall j, f (stored w) = Some j -> coherent (persistent v j) /\ abs (persistent v j) = s' x) ->
  ab_step v current_slot (abs (stored w)) r =
    match slot_of slot with
    | Some x => (a_result (command_result true), s' x)
    | None => (a_result (command_result false), abs (stored w))
    end ->
  ends (ok ← (if negb (IsValidSlot slot) then mret false else update_saved v f); mret (a_result (command_result ok))) w (outcome r w).
Proof.
  intros Hs Hw Hc N1 N2 Hf E. destruct (slot_of_cases slot Hs) as [(_ & -> & S)|[(_ & -> & S)|[-> S]]]; rewrite S in E; cbn [negb].
  1,2: destruct (Hf _ S); by eapply (update_step _ _ (fun ok => a_result (command_result ok))).
  eapply ends_step; [done|]. by apply answered.
Qed.

(** A question about a slot. *)
Lemma slot_look_step slot f g r w : 0 <= slot -> ready w -> coherent (stored w) -> r <> Init -> updates r = false ->
  (forall i, is_Some (f i) \/ slot_of slot = None) -> (forall i, f (persistent v i) = f i) ->
  (forall x, slot_of slot = Some x -> f (stored w) = Some (g x)) ->
  ab_step v current_slot (abs (stored w)) r =
    match slot_of slot with
    | Some x => (a_bool_result (bool_result (g x)), abs (stored w))
    | None => (a_bool_result INVALID_SLOT, abs (stored w))
    end ->
  ends (if negb (IsValidSlot slot) then mret (a_bool_result INVALID_SLOT)
        else b ← (if negb (IsValidSlot slot) then mret false else look_loaded v f false); mret (a_bool_result (bool_result b))) w (outcome r w).
Proof.
  intros Hs Hw Hc N Hu Ht Hf Hg E. destruct (slot_of_cases slot Hs) as [(_ & -> & S)|[(_ & -> & S)|[-> S]]]; rewrite S in E; cbn [negb].
  1,2: eapply (look_step f false _ _ (fun b => a_bool_result (bool_result b))); eauto; intros i; by destruct (Ht i); [|congruence].
  by apply answered.
Qed.

Lemma active_current slot x : slot_of slot = Some x ->
  negb (slot =? GetCurrentSlot slot_suffix_prop) = bool_decide (current_slot <> Some x).
Proof.
  intros Hx. apply slot_of_some in Hx. unfold current_slot.
  destruct Hx as [[-> ->]|[-> ->]], (current_cases slot_suffix_prop) as [(-> & _)|[(-> & _)|(-> & _)]]; done.
Qed.

Lemma metadata_status u status i : metadata (persistent u (exbc_SetSnapshotMergeStatus status i)) = metadata i.
Proof. by destruct i. Qed.

Lemma perform_outcome r w : request_ok r -> ready w -> coherent (stored w) -> ends (boot_perform v r) w (outcome r w).
Proof.
  intros Hr Hw Hc. pose proof (stored_persistent w) as Hp.
  assert (V : forall slot x, slot_of slot = Some x -> slot = 0 \/ slot = 1) by (intros ? ? [[-> _]|[-> _]]%slot_of_some; auto).
  destruct r as [| | | |slot|slot|slot|slot|slot|status| |]; simpl in Hr; [by apply Init_step| | | | | | | | | | |]; cbn [boot_perform].
  - by apply answered.
  - apply answered; [done..|]. simpl. unfold current_slot. by destruct (current_cases slot_suffix_prop) as [(-> & _)|[(-> & _)|(-> & _)]].
  - eapply slot_update_step; [|done..| |reflexivity].
    + by destruct (current_cases slot_suffix_prop) as [(-> & _)|[(-> & _)|(-> & _)]].
    + intros x Hx. split; [by eapply mark_acts, V|]. intros j Hj. pose proof (mark_abs v _ x (stored w) j Hx Hc Hj) as K. by rewrite Hp in K.
  - eapply slot_update_step; [apply Hr|done..| |reflexivity].
    intros x Hx. split; [by eapply active_acts, V|]. intros j Hj. pose proof (active_abs v _ x _ (stored w) j Hx Hj) as K.
    by rewrite Hp, (active_current slot x Hx) in K.
  - eapply slot_update_step; [apply Hr|done..| |reflexivity].
    intros x Hx. split; [by eapply unbootable_acts, V|]. intros j Hj. pose proof (unbootable_abs v _ x (stored w) j Hx Hc Hj) as K. by rewrite Hp in K.
  - eapply slot_look_step; [apply Hr|done..| | | |reflexivity]; try done.
    + intros i. destruct (slot_of_cases slot (proj1 Hr)) as [(-> & _)|[(-> & _)|(_ & ->)]]; [by left; eexists..|by right].
    + intros x [[-> ->]|[-> ->]]%slot_of_some; done.
  - eapply slot_look_step; [apply Hr|done..| | | |reflexivity]; try done.
    + intros i. destruct (slot_of_cases slot (proj1 Hr)) as [(-> & _)|[(-> & _)|(_ & ->)]]; [by left; eexists..|by right].
    + intros x [[-> ->]|[-> ->]]%slot_of_some; done.
  - apply answered; [done..|]. simpl. unfold GetSuffix.
    by destruct (slot_of_cases slot (proj1 Hr)) as [(-> & -> & ->)|[(-> & -> & ->)|(-> & ->)]].
  - eapply (update_step _ _ a_bool); [apply status_acts|done..| |reflexivity|done].
    intros j [= <-]. split; [unfold coherent in *; rewrite metadata_status; exact Hc|]. rewrite <- Hp at 2. by destruct v.
  - eapply (look_step (fun i => Some (merge_status i)) MergeStatus_UNKNOWN _ _ a_number); try done.
    intros i Hi. simpl. by rewrite Hi.
  - eapply ends_step; [done|]. apply ends_ret. split; [done|]. left. split; [done|]. left. unfold stepped. cbn [ab_step].
    split; [|done]. intros Y. rewrite active_answer. specialize (Y eq_refl). unfold synced in Y. by rewrite <- Y.
Qed.
End requests.
