(* ===== verification/BootEnds.v ===== *)
(** * Boot control: every request

    What holds of every sequence of requests: they end, and the rest of the partition
    stays as it is. *)

From Stdlib Require Import String.
From S2P Require Import Prelude Effects BootSlots BootMessage BootControl BootLife BootRules BootSpec.

(** ** Termination *)

Section termination.
Context `{FewInterruptions} (v : hal_version).

Definition stops {A} (o : B A) : Prop := triple (fun _ => True) o (fun _ _ => True).

Lemma stops_ret {A} (a : A) : stops (mret a).
Proof. by apply triple_ret. Qed.

Lemma stops_bind {A A'} (o : B A) (k : A -> B A') : stops o -> (forall a, stops (k a)) -> stops (o ≫= k).
Proof. intros Ho Hk. eapply triple_bind; [exact Ho|]. exact Hk. Qed.

Lemma stops_if {A} (b : bool) (o o' : B A) : stops o -> stops o' -> stops (if b then o else o').
Proof. by destruct b. Qed.

Lemma stops_look {A} (f : boot_world -> A) : stops (look f).
Proof. intros w _. by do 2 eexists. Qed.

Lemma stops_alter f : stops (alter f).
Proof. intros w _. by do 2 eexists. Qed.

Lemma stops_sys c : stops (boot_sys c).
Proof. intros w _. by do 2 eexists. Qed.

Lemma stops_read fd size : stops (read_loop (Datatypes.S max_interruptions) fd size).
Proof. intros w _. destruct (soon_uninterrupted (blog w) (boot_read fd size)) as (n & Hn & Hi). eapply read_loop_stops; [|exact Hi]. lia. Qed.

Lemma stops_write fd size bytes : stops (write_loop (Datatypes.S max_interruptions) fd size bytes).
Proof. intros w _. destruct (soon_uninterrupted (blog w) (boot_write fd size)) as (n & Hn & Hi). eapply write_loop_stops; [|exact Hi]. lia. Qed.

Lemma stops_access {A} (o : option A) : is_Some o -> stops (access o).
Proof. intros [a ->] w _. by do 2 eexists. Qed.

Create HintDb stops.
#[local] Hint Resolve stops_ret stops_look stops_alter stops_sys stops_read stops_write : stops.

Ltac stop := repeat first
  [ match goal with |- forall _, stops _ => intros ? end | solve [eauto with stops] | apply stops_if | apply stops_bind; [|intros ?] | progress cbv beta ].

Lemma stops_close : stops close_message.
Proof. unfold close_message, sys_close. stop. Qed.
#[local] Hint Resolve stops_close : stops.

Lemma stops_open d : stops (open_message d).
Proof.
  unfold open_message. apply stops_bind; [stop|]. intros [fstab|]; [|stop].
  induction fstab as [|entry fstab IH]; simpl; unfold sys_open; stop.
Qed.
#[local] Hint Resolve stops_open : stops.

Lemma stops_read_slot_data : stops read_slot_data.
Proof.
  unfold read_slot_data, read_message, sys_lseek. apply stops_bind; [stop|]. intros b. apply stops_if; [stop|].
  apply stops_bind; [stop|]. intros [[bytes complete]|]; stop.
Qed.
Lemma stops_write_slot_data : stops write_slot_data.
Proof. unfold write_slot_data, write_message, sys_lseek. stop. Qed.
#[local] Hint Resolve stops_read_slot_data stops_write_slot_data : stops.

Lemma stops_Load_Slot : stops (Load_Slot v).
Proof. unfold Load_Slot, verify_slot, set_slotinfo, Uploading_data, Downloading_data, get_slotinfo, set_slot_data. stop. Qed.
Lemma stops_Save_Slot : stops (Save_Slot v).
Proof. unfold Save_Slot, Uploading_data, get_slotinfo, set_slot_data. stop. Qed.
#[local] Hint Resolve stops_Load_Slot stops_Save_Slot : stops.

(** Operations on slots that there are do not fault. *)
Definition total {A} (f : ExynosSlot_info -> option A) : Prop := forall i, is_Some (f i).

Lemma acts_total f : acts v f -> total f.
Proof. intros Hf i. destruct (Hf i) as (j & _ & E & _). by eexists. Qed.

Lemma stops_update f : total f -> stops (update_saved v f).
Proof.
  intros Hf. unfold update_saved, exbc_update, set_slotinfo, get_slotinfo. apply stops_bind; [stop|]. intros b. apply stops_if; [stop|].
  apply stops_bind; [|stop]. apply stops_bind; [stop|]. intros i. apply stops_bind; [apply stops_access, Hf|stop].
Qed.

Lemma stops_look_loaded {A} (f : ExynosSlot_info -> option A) failed : total f -> stops (look_loaded v f failed).
Proof.
  intros Hf. unfold look_loaded, get_slotinfo. apply stops_bind; [stop|]. intros b. apply stops_if; [stop|].
  apply stops_bind; [stop|]. intros i. apply stops_access, Hf.
Qed.

Lemma guarded {A} slot (none : A) o : 0 <= slot -> (slot = 0 \/ slot = 1 -> stops o) -> stops (if negb (IsValidSlot slot) then mret none else o).
Proof.
  intros Hs Ho. destruct (slot_of_cases slot Hs) as [(-> & -> & _)|[(-> & -> & _)|[-> _]]]; cbn [negb]; [by apply Ho; left|by apply Ho; right|stop].
Qed.

Lemma perform_stops r : request_ok r -> stops (boot_perform v r).
Proof.
  intros Hr. destruct r as [| | | |slot|slot|slot|slot|slot|status| |]; simpl in Hr; cbn [boot_perform]; try by stop.
  - apply stops_bind; [|stop]. apply guarded; [by destruct (current_cases slot_suffix_prop) as [(-> & _)|[(-> & _)|(-> & _)]]|].
    intros Hs. by apply stops_update, acts_total, mark_acts.
  - apply stops_bind; [|stop]. apply guarded; [lia|]. intros Hs. by apply stops_update, acts_total, active_acts.
  - apply stops_bind; [|stop]. apply guarded; [lia|]. intros Hs. by apply stops_update, acts_total, unbootable_acts.
  - apply guarded; [lia|]. intros Hs. apply stops_bind; [|stop]. apply guarded; [lia|]. intros _.
    apply stops_look_loaded. intros i. by destruct Hs as [-> | ->]; eexists.
  - apply guarded; [lia|]. intros Hs. apply stops_bind; [|stop]. apply guarded; [lia|]. intros _.
    apply stops_look_loaded. intros i. by destruct Hs as [-> | ->]; eexists.
Qed.

Lemma run_stops rs w : Forall request_ok rs -> ends (boot_run v rs) w (fun l _ => length l = length rs).
Proof.
  intros Hrs. revert w. induction Hrs as [|r rs Hr Hrs IH]; intros w; [by apply ends_ret|]. cbn [boot_run].
  eapply ends_bind; [by apply (perform_stops r Hr w)|]. intros a w1 _.
  eapply ends_bind; [apply IH|]. intros l w2 L2. apply ends_ret. simpl. by rewrite L2.
Qed.
End termination.

(** ** Invariants

    What the loader keeps, and what is encoded for it, all requests keep. *)

Section keeping.
Context `{BootEnv} (v : hal_version) (I : boot_world -> Prop).
Context (keeps_exbc : forall f, keeps I (alter (fun w => w <| exbc := f (exbc w) |>))).
Context (keeps_read : keeps I read_slot_data) (keeps_write : keeps I write_slot_data) (keeps_upload : keeps I (Uploading_data v)).

Lemma keeps_look {A} (f : boot_world -> A) : keeps I (look f).
Proof. by intros w r w' Hw [= _ <-]. Qed.

Lemma keeps_access {A} (o : option A) : keeps I (access o).
Proof. intros w r w' Hw. unfold access. destruct o; [|done]. by intros [= _ <-]. Qed.

Lemma keeps_set_slotinfo i : keeps I (set_slotinfo i).
Proof using keeps_exbc. apply (keeps_exbc (fun e => e <| si := i |>)). Qed.

Create HintDb keeping.
#[local] Hint Resolve keeps_ret keeps_look keeps_access keeps_exbc keeps_read keeps_write keeps_upload keeps_set_slotinfo : keeping.

Ltac stay := repeat first
  [ match goal with |- forall _, keeps _ _ => intros ? end | solve [eauto with keeping]
  | apply keeps_if | apply keeps_bind | progress cbv beta ].

Lemma Load_Slot_keeps : keeps I (Load_Slot v).
Proof. unfold Load_Slot, verify_slot, Downloading_data. stay. Qed.
Lemma Save_Slot_keeps : keeps I (Save_Slot v).
Proof. unfold Save_Slot. stay. Qed.
#[local] Hint Resolve Load_Slot_keeps Save_Slot_keeps : keeping.

Lemma update_keeps f : keeps I (update_saved v f).
Proof. unfold update_saved, exbc_update, get_slotinfo. stay. Qed.
Lemma look_loaded_keeps {A} (f : ExynosSlot_info -> option A) failed : keeps I (look_loaded v f failed).
Proof. unfold look_loaded, get_slotinfo. stay. Qed.
#[local] Hint Resolve update_keeps look_loaded_keeps : keeping.

Lemma request_keeps r : keeps I (boot_perform v r).
Proof.
  destruct r; cbn [boot_perform];
    unfold Exynos_Init, Exynos_MarkBootSuccessful, Exynos_SetActiveBootSlot, Exynos_SetSlotAsUnbootable, Exynos_IsSlotBootable,
      Exynos_IsSlotMarkedSuccessful, Exynos_SetSnapshotMergeStatus, Exynos_GetSnapshotMergeStatus, Exynos_GetActiveBootSlot, get_slotinfo; stay.
Qed.

Lemma run_keeps rs : keeps I (boot_run v rs).
Proof.
  induction rs as [|r rs IH]; cbn [boot_run]; [apply keeps_ret|].
  apply keeps_bind; [apply request_keeps|]. intros a. apply keeps_bind; [done|]. intros l. apply keeps_ret.
Qed.
End keeping.

(** ** The rest of the partition *)

Section frame.
Context `{BlockDevice} (v : hal_version).

(** The partition but for the slot data. *)
Definition others (l : list Z) : list Z * list Z := (take 2048 l, drop 2080 l).

Lemma others_splice l bytes : sized l -> (length bytes <= 32)%nat -> others (splice SLOTINFO_OFFSET bytes l) = others l.
Proof.
  intros Hl Hb. unfold others, splice, sized in *. change (Z.to_nat SLOTINFO_OFFSET) with 2048%nat. f_equal.
  - rewrite take_app_le by (rewrite length_take; lia). by rewrite take_take.
  - rewrite app_assoc, drop_app_ge by (rewrite length_app, length_take; lia). rewrite drop_drop, length_app, length_take. f_equal. lia.
Qed.

(** An invariant of the system and of the loader. *)
Definition frame (x : list Z * list Z) (w : boot_world) : Prop :=
  sized (partition w) /\ shaped (loader_si w) /\ others (partition w) = x.

Context (x : list Z * list Z).

Lemma frame_read : keeps (frame x) read_slot_data.
Proof.
  intros w b w' (Hp & Hs & E) Ew. destruct (ends_run _ _ _ _ _ (read_slot_data_spec w Hp Hs) Ew) as (_ & P & S & _).
  unfold frame. by rewrite P.
Qed.

Lemma frame_write : keeps (frame x) write_slot_data.
Proof.
  intros w b w' (Hp & Hs & E) Ew. destruct (ends_run _ _ _ _ _ (write_slot_data_spec w Hp Hs) Ew) as (_ & L & P).
  assert (K : partition w' = partition w \/ half_written w w').
  { destruct b; [right|destruct P as [[P _]|[P _]]; [by left|by right]]. destruct P as [P _]. eexists. split; [|exact P]. by rewrite shaped_bytes. }
  unfold frame. rewrite L. destruct K as [-> |(bs & Hb & ->)]; [done|]. rewrite others_splice by done. split; [by apply splice_sized|done].
Qed.

Lemma frame_upload : keeps (frame x) (Uploading_data v).
Proof.
  unfold Uploading_data, get_slotinfo. intros w r w' (Hp & Hs & E) [= <- <-]. split; [done|]. split; [|done].
  apply Encode_shaped, local_shaped.
Qed.

Lemma run_frame rs : keeps (frame x) (boot_run v rs).
Proof. apply run_keeps; [by intros f w r w' Hw [= _ <-]|apply frame_read|apply frame_write|apply frame_upload]. Qed.
End frame.

(** A write that was cut off stays in the log. *)
Section history.
Context `{BootEnv} (v : hal_version).
Abbreviation tears := (keeps (fun w : boot_world => torn (blog w))).

Lemma tears_alter f : (forall w, blog (f w) = blog w) -> tears (alter f).
Proof. intros Hf w r w' Hw [= _ <-]. by rewrite Hf. Qed.

Lemma tears_sys c : tears (boot_sys c).
Proof. intros w r w' Hw [= _ <-]. by apply torn_cons. Qed.

Lemma tears_look {A} (f : boot_world -> A) : tears (look f).
Proof. by intros w r w' Hw [= _ <-]. Qed.

Create HintDb tears.
#[local] Hint Resolve keeps_ret keeps_undefined tears_sys tears_look : tears.
Ltac tear := repeat first
  [ match goal with |- forall _, keeps _ _ => intros ? end | solve [eauto with tears] | by apply tears_alter
  | apply keeps_if | apply keeps_bind | progress cbv beta | match goal with |- keeps _ (match ?o with _ => _ end) => destruct o end ].

Lemma tears_open d : tears (open_message d).
Proof.
  unfold open_message. apply keeps_bind; [tear|]. intros [fstab|]; [|tear].
  induction fstab as [|entry fstab IH]; simpl; unfold sys_open; tear.
Qed.
Lemma tears_read_loop fuel fd n : tears (read_loop fuel fd n).
Proof. induction fuel as [|fuel IH]; simpl; unfold sys_read; tear. Qed.
Lemma tears_write_loop fuel fd n bytes : tears (write_loop fuel fd n bytes).
Proof. induction fuel as [|fuel IH]; simpl; unfold sys_write; tear. Qed.
#[local] Hint Resolve tears_open tears_read_loop tears_write_loop : tears.

Lemma run_torn rs : tears (boot_run v rs).
Proof.
  apply run_keeps.
  - intros f. by apply tears_alter.
  - unfold read_slot_data, read_message, close_message, sys_close, sys_lseek. tear.
  - unfold write_slot_data, write_message, close_message, sys_close, sys_lseek. tear.
  - unfold Uploading_data, get_slotinfo, set_slot_data. tear.
Qed.
End history.

(** ** Descriptors *)

(** How many descriptors were opened and closed in a log. *)
Definition opened (l : boot_log) : nat :=
  length (List.filter (fun e => match e with (boot_open _, r) => negb (r =? -1) | _ => false end) l).
Definition closed (l : boot_log) : nat :=
  length (List.filter (fun e => match e with (boot_close _, _) => true | _ => false end) l).

(** The requests that load the slots, once the service is initialised. *)
Definition loads `{BootEnv} (r : boot_request) : bool :=
  match r with
  | markBootSuccessful => IsValidSlot (GetCurrentSlot slot_suffix_prop)
  | setActiveBootSlot slot | setSlotAsUnbootable slot | isSlotBootable slot | isSlotMarkedSuccessful slot => IsValidSlot slot
  | setSnapshotMergeStatus _ | getSnapshotMergeStatus => true
  | _ => false
  end.

Section leak.
Context `{FewInterruptions} (v : hal_version).

(** The device can be opened, and every read of it fails. *)
Definition unreadable : Prop :=
  (forall l, exists fstab, ReadDefaultFstab l = Some fstab /\ is_Some (entry_path SLOT_INFO_PARTITION fstab)) /\
  (forall l path, boot_answer l (boot_open path) <> -1) /\ (forall l fd n, boot_answer l (boot_read fd n) = -1).

(** [n] more descriptors, and the service is as before. *)
Definition leaked (n : nat) (w w' : boot_world) : Prop :=
  opened (blog w') = (n + opened (blog w))%nat /\ closed (blog w') = closed (blog w) /\ exbc w' = exbc w.

Lemma leaked_trans n m w w1 w2 : leaked n w w1 -> leaked m w1 w2 -> leaked (m + n) w w2.
Proof. unfold leaked. intros (-> & -> & ->) (-> & -> & ->). split; [lia|done]. Qed.

Lemma sys_read_fails fd size w : unreadable -> ends (sys_read fd size) w (fun r w' => fst r = -1 /\ leaked 0 w w' /\
  blog w' = (boot_read fd size, -1) :: blog w).
Proof.
  intros (_ & _ & Hr). unfold sys_read. eapply ends_step; [done|]. eapply ends_step; [done|]. cbv beta. rewrite Hr.
  destruct (offsets _ !! fd); by apply ends_ret.
Qed.

Lemma read_loop_fails fuel fd size w n : unreadable -> (n < fuel)%nat ->
  interrupted (replicate n (boot_read fd size, -1) ++ blog w) (boot_read fd size) = false ->
  ends (read_loop fuel fd size) w (fun r w' => fst r = -1 /\ leaked 0 w w').
Proof.
  intros Hu. revert w n. induction fuel as [|fuel IH]; intros w n Hn Hi; [lia|]. cbn [read_loop].
  eapply ends_bind; [by apply sys_read_fails|]. intros r w1 (E1 & K1 & L1). eapply ends_step; [done|]. cbv beta.
  destruct (_ && _) eqn:Er; [|by apply ends_ret]. rewrite L1, E1 in Er.
  destruct (interrupted_next _ _ _ _ Hi (eq_sym (proj2 (proj2 Hu) (blog w) fd size)) Er) as (m & -> & Hm).
  eapply ends_weaken; [apply (IH w1 m); [lia|by rewrite L1]|]. intros r' w2 [E2 K2]. split; [done|]. by apply (leaked_trans 0 0 w w1 w2).
Qed.

Lemma sys_open_leaks path w : unreadable -> ends (sys_open path) w (fun fd w' => fd <> -1 /\ leaked 1 w w').
Proof.
  intros (_ & Ho & _). unfold sys_open. eapply ends_step; [done|]. cbv beta.
  eapply ends_step; [by rewrite (proj2 (Z.eqb_neq _ _) (Ho (blog w) path))|]. apply ends_ret. split; [done|].
  unfold leaked, opened. simpl. by rewrite (proj2 (Z.eqb_neq _ _) (Ho (blog w) path)).
Qed.

Lemma open_entry_leaks msg_device fstab w : unreadable -> is_Some (entry_path msg_device fstab) ->
  ends (open_entry msg_device fstab) w (fun b w' => b = true /\ leaked 1 w w' /\ exynos_message_fd w' <> -1).
Proof.
  intros Hu. induction fstab as [|entry fstab IH]; cbn [open_entry entry_path]; [by intros [? [=]]|].
  destruct (String.eqb _ _); [|done]. destruct (String.eqb _ _); [by intros [? [=]]|]. intros _.
  eapply ends_bind; [by apply sys_open_leaks|]. intros fd w1 [Hf K]. eapply ends_step; [done|]. apply ends_ret.
  by rewrite (proj2 (Z.eqb_neq _ _) Hf).
Qed.

(** A load that fails leaves a descriptor open. *)
Lemma failing_load w : unreadable -> ends (Load_Slot v) w (fun b w' => b = false /\ leaked 1 w w').
Proof.
  intros Hu. unfold Load_Slot, read_slot_data, open_message.
  eapply ends_bind with (Q := fun b w' => b = false /\ leaked 1 w w'); [|by intros b w1 [-> K]; apply ends_ret].
  destruct (proj1 Hu (blog w)) as (fstab & E & Hp).
  eapply ends_bind.
  { eapply ends_step; [done|]. cbv beta. rewrite E. by apply open_entry_leaks. }
  intros b w1 (-> & K1 & F1). cbn [negb].
  unfold read_message. eapply ends_bind with (Q := fun r w' => match r with Some (_, c) => c = false | None => True end /\ leaked 1 w w').
  - eapply ends_step; [done|]. cbv beta. rewrite (proj2 (Z.eqb_neq _ _) F1).
    eapply ends_bind with (Q := fun _ w' => leaked 0 w1 w').
    { unfold sys_lseek. eapply ends_step; [done|]. cbv beta. by destruct (_ =? -1); (eapply ends_step; [done|]; apply ends_ret). }
    intros r w2 K2. destruct (negb _); [apply ends_ret; split; [done|]; by apply (leaked_trans 1 0 w w1)|].
    destruct (soon_uninterrupted (blog w2) (boot_read (exynos_message_fd w1) sizeof_slot_data)) as (n & Hn & Hi).
    eapply ends_bind; [eapply read_loop_fails; [done| |exact Hi]; lia|]. intros c w3 [-> K3]. apply ends_ret. split; [done|].
    apply (leaked_trans 1 0 w w2); [by apply (leaked_trans 1 0 w w1)|done].
  - intros [[bytes c]|] w2 [Hc K2]; [|by apply ends_ret]. subst c. eapply ends_step; [done|]. by apply ends_ret.
Qed.

Lemma failing_update f w : unreadable -> ends (update_saved v f) w (fun b w' => b = false /\ leaked 1 w w').
Proof. intros Hu. unfold update_saved. eapply ends_bind; [by apply failing_load|]. intros b w1 [-> K]. by apply ends_ret. Qed.

Lemma failing_look {A} (f : ExynosSlot_info -> option A) x w : unreadable -> ends (look_loaded v f x) w (fun _ w' => leaked 1 w w').
Proof. intros Hu. unfold look_loaded. eapply ends_bind; [by apply failing_load|]. intros b w1 [-> K]. by apply ends_ret. Qed.

Lemma guarded_leaks {A} slot (none : A) o w : (IsValidSlot slot = true -> ends o w (fun _ w' => leaked 1 w w')) ->
  ends (if negb (IsValidSlot slot) then mret none else o) w (fun _ w' => leaked (if IsValidSlot slot then 1 else 0) w w').
Proof. destruct (IsValidSlot slot); intros Ho; [by apply Ho|by apply ends_ret]. Qed.

Lemma then_ret {A A'} (o : B A) (k : A -> A') w (P : boot_world -> Prop) :
  ends o w (fun _ w' => P w') -> ends (a ← o; mret (k a)) w (fun _ w' => P w').
Proof. intros Ho. eapply ends_bind; [exact Ho|]. intros a w' Hw. by apply ends_ret. Qed.

Lemma perform_leaks r w : unreadable -> exynos_slot_initialized (exbc w) = true ->
  ends (boot_perform v r) w (fun _ w' => leaked (if loads r then 1 else 0) w w').
Proof.
  intros Hu Hi. assert (U : forall f, ends (update_saved v f) w (fun _ w' => leaked 1 w w')).
  { intros f. eapply ends_weaken; [by apply failing_update|]. by intros b w' [_ K]. }
  destruct r as [| | | |slot|slot|slot|slot|slot|status| |]; cbn [boot_perform loads]; try by apply ends_ret.
  - apply then_ret. unfold Exynos_Init. eapply ends_step; [done|]. cbv beta. rewrite Hi. by apply ends_ret.
  - apply then_ret, guarded_leaks. intros _. apply U.
  - apply then_ret, guarded_leaks. intros _. apply U.
  - apply then_ret, guarded_leaks. intros _. apply U.
  - apply guarded_leaks. intros V. apply then_ret. unfold Exynos_IsSlotBootable. rewrite V. by apply failing_look.
  - apply guarded_leaks. intros V. apply then_ret. unfold Exynos_IsSlotMarkedSuccessful. rewrite V. by apply failing_look.
  - apply then_ret, U.
  - by apply then_ret, failing_look.
Qed.
End leak.
