(* ===== verification/BootApi.v ===== *)
(** * Boot control: a device

    A concrete device: transfers are interrupted at the first try, and reads and writes
    may fail after that. *)

From Stdlib Require Import String.
From S2P Require Import Prelude Effects BootSlots BootMessage BootControl BootLife BootRules BootSpec BootEnds.
Definition EIO : Z := 5.

Definition lab_fstab : list fstab_entry := [
  {| mount_point := "/"; blk_device := "/dev/block/system" |};
  {| mount_point := "/slotinfo"; blk_device := "/dev/block/by-name/slotinfo" |}].

(** Whether the last call is not the same transfer. *)
Definition first_try (l : boot_log) (c : boot_call) : bool :=
  match l, c with
  | (boot_read _ _, -1) :: _, boot_read _ _ => false
  | (boot_write _ _, -1) :: _, boot_write _ _ => false
  | _, _ => true
  end.

Definition lab_junk : slot_data := {|
  magic := [1; 2; 3; 4];
  data_metadata := PerSlot {| slot_fields := reset_metadata 1; slot_reserved := [5; 6; 7; 8] |}
                           {| slot_fields := reset_metadata 1; slot_reserved := [9; 10; 11; 12] |};
  data_merge_status := -3;
  data_ota_flag := 99;
  data_reserved := [1; 2; 3; 4; 5; 6; 7; 8; 9; 10] |}.

Definition lab_with (suffix : string) (reads : bool) (written : Z -> Z) : BootEnv := {|
  boot_answer l c :=
    match c with
    | boot_open _ => 3 + Z.of_nat (length l)
    | boot_close _ => 0
    | boot_lseek _ offset => offset
    | boot_read _ size => if first_try l c then -1 else if reads then size else -1
    | boot_write _ size => if first_try l c then -1 else written size
    end;
  boot_errno l :=
    match l with
    | (boot_read _ _ as c, _) :: l | (boot_write _ _ as c, _) :: l => if first_try l c then EINTR else EIO
    | _ => EIO
    end;
  ReadDefaultFstab _ := Some lab_fstab;
  slot_suffix_prop := suffix;
  local_data _ := lab_junk;
  local_info _ := {| metadata := PerSlot (reset_metadata 0) (reset_metadata 1); merge_status := 4; ota_flag := 77 |};
  max_interruptions := 1 |}.

#[export] Instance lab_few suffix reads written : @FewInterruptions (lab_with suffix reads written).
Proof.
  split. intros l c. exists 1%nat. split; [done|]. destruct c; simpl; intros [_ [=]].
Qed.

Lemma lab_with_device suffix reads written : (forall n, 0 < n -> -1 <= written n <= n) -> @BlockDevice (lab_with suffix reads written).
Proof.
  intros Hwr. split; [apply _| | | |]; [intros; by right|intros l fd n Hn; simpl|intros l fd n Hn; simpl|intros; by repeat split].
  - destruct (first_try _ _); [lia|]. destruct reads; lia.
  - destruct (first_try _ _); [lia|]. by apply Hwr.
Qed.

(** With writes that are whole, or fail; and with writes that end after some bytes. *)
Definition lab (suffix : string) (reads writes : bool) : BootEnv := lab_with suffix reads (fun size => if writes then size else -1).
Definition lab_torn (suffix : string) (k : Z) : BootEnv := lab_with suffix true (fun size => Z.min k size).

#[export] Instance lab_whole suffix reads writes : @FewInterruptions (lab suffix reads writes).
Proof. apply lab_few. Qed.
#[export] Instance lab_device suffix reads writes : @BlockDevice (lab suffix reads writes).
Proof. apply lab_with_device. intros n Hn. destruct writes; lia. Qed.
#[export] Instance lab_torn_device suffix k : 0 <= k -> @BlockDevice (lab_torn suffix k).
Proof. intros Hk. apply lab_with_device. lia. Qed.

(** A failure of the device is a failure after the first try. *)
Lemma lab_loads suffix writes : ~ @load_fails (lab suffix true writes).
Proof.
  intros [(l & E)|[(l & path & E)|[(l & fd & o & Ho & E)|(l & fd & n & Hn & E & I)]]]; try done.
  - simpl in E. lia.
  - simpl in E. lia.
  - unfold interrupted, boot_answer, boot_errno, lab, lab_with in *. by destruct (first_try l _); [|lia].
Qed.

Lemma lab_works suffix : ~ @device_fails (lab suffix true true).
Proof.
  intros [[]%lab_loads|(l & fd & n & Hn & E & I)].
  unfold interrupted, boot_answer, boot_errno, lab, lab_with in *. by destruct (first_try l _); [|lia].
Qed.

Lemma lab_unwritable suffix reads : ~ @write_works (lab suffix reads false).
Proof. intros (l & fd & n & Hn & E). simpl in E. by destruct (first_try _ _). Qed.

Lemma lab_unreadable suffix writes : @unreadable (lab suffix false writes).
Proof.
  split; [|split].
  - intros l. exists lab_fstab. split; [done|]. by eexists.
  - intros l path. simpl. lia.
  - intros l fd n. simpl. by destruct (first_try _ _).
Qed.

(** A partition with [bytes] for the slots, and a service that has not looked yet. *)
Definition lab_partition (bytes : list Z) : list Z := replicate 2048 0 ++ bytes ++ replicate 16 7.
Definition lab_world (bytes : list Z) (initialized : bool) : boot_world := {|
  partition := lab_partition bytes;
  offsets := ∅;
  blog := [];
  exynos_message_fd := 12;
  loader_si := lab_junk;
  exbc := {| si := {| metadata := PerSlot (reset_metadata 0) (reset_metadata 0); merge_status := 0; ota_flag := 0 |};
             exynos_slot_initialized := initialized |} |}.

(** Slot A runs and is marked; or nothing of it. *)
Definition lab_slots : list Z := [69; 88; 66; 67; 1; 1; 1; 7; 0; 0; 0; 0; 1; 0; 0; 7; 0; 0; 0; 0; 0; 0] ++ replicate 10 0.
Definition lab_blank : list Z := replicate 32 255.

Lemma lab_ready bytes initialized : length bytes = 32%nat -> ready (lab_world bytes initialized).
Proof.
  intros E. split; [|by repeat split]. change (2080 <= length (lab_partition bytes))%nat. unfold lab_partition.
  rewrite !length_app, !length_replicate, E. lia.
Qed.

(** ** Theorems

    The service against the slots that it promises: without failures, and whatever
    fails. *)

(** ** Without failures *)

Section refinement.
Context `{BlockDevice} (v : hal_version).
Implicit Types w : boot_world.
#[local] Abbreviation stored := (stored v).

Lemma refined_run rs w : ~ device_fails -> Forall request_ok rs -> ready w -> coherent (stored w) -> synced v w ->
  ends (boot_run v rs) w (fun l w' => (l, abs (stored w')) = ab_run v current_slot (abs (stored w)) rs).
Proof.
  intros Hd Hrs. revert w. induction Hrs as [|r rs Hr Hrs IH]; intros w Hw Hc Hy; [by apply ends_ret|]. cbn [boot_run ab_run].
  eapply ends_bind; [by apply (perform_outcome v r w)|]. intros a w1 (R1 & [[C1 [K1|[K1 _]]]|[(_ & K1 & _) _]]); [|done..].
  unfold stepped in K1. destruct (ab_step v current_slot (abs (stored w)) r) as [a0 s1]. destruct K1 as (E1 & A1 & Y1 & _). subst s1.
  eapply ends_bind; [by apply IH, Y1|]. intros l w2 E2. apply ends_ret. rewrite <- E2. by rewrite E1.
Qed.

(** C8. On a device that works the service is the abstract one, in both versions: started
    on any partition with coherent slots, or on a damaged one, which stands for the slots
    after a reset, it gives every sequence of requests the replies of the abstract
    service, and leaves its slots in the partition.  Transfers may be interrupted. *)
Theorem service_refines rs w : ~ device_fails -> Forall request_ok rs -> ready w ->
  coherent (stored w) -> exynos_slot_initialized (exbc w) = false ->
  ends (boot_run v (Init :: rs)) w (fun l w' =>
    (l, abs (stored w')) = ab_run v current_slot (abs (stored w)) (Init :: rs)).
Proof.
  intros Hd Hrs Hw Hc Hi. cbn [boot_run ab_run ab_step].
  eapply ends_bind; [by apply (perform_outcome v Init w)|]. intros a w1 (R1 & [[C1 [K1|[K1 _]]]|[(_ & K1 & _) _]]); [|done..].
  unfold stepped in K1. cbn [ab_step] in K1. destruct K1 as (E1 & A1 & _ & Y1).
  eapply ends_bind; [by apply refined_run, Y1|]. intros l w2 E2. apply ends_ret. rewrite <- A1, <- E2. by rewrite E1.
Qed.

(** ** Whatever fails *)

(** The effect of a request with its reply: none, if it was not acknowledged. *)
Definition effect (s : ab_state) (e : boot_request * boot_reply) : ab_state :=
  if acknowledged (snd e) then snd (ab_step v current_slot s (fst e)) else s.

(** A reply that is no success comes without an effect, and a question has none. *)
Lemma step_effect s r : effect s (r, fst (ab_step v current_slot s r)) = snd (ab_step v current_slot s r).
Proof.
  unfold effect. destruct r; simpl; try done; try (by destruct (slot_of _)); by destruct current_slot.
Qed.

Lemma question_effect s r a : updates r = false -> effect s (r, a) = s.
Proof. unfold effect. cbn [fst snd]. destruct (acknowledged a); [|done]. destruct r; try done; intros _; simpl; by destruct (slot_of _). Qed.

Lemma outcome_effect r w a w' : stepped v r w a w' \/ failed v r w a w' -> effect (abs (stored w)) (r, a) = abs (stored w').
Proof.
  intros [K|(F & D & U)].
  - unfold stepped in K. destruct (decide (updates r = true)) as [Hu|Hu%not_true_is_false].
    + pose proof (step_effect (abs (stored w)) r) as E. destruct (ab_step _ _ _ _) as [a0 s1]. destruct K as (E1 & A1 & _).
      rewrite E1; [by rewrite A1|]. intros ->. discriminate Hu.
    + rewrite question_effect by done. pose proof (question_effect (abs (stored w)) r (fst (ab_step v current_slot (abs (stored w)) r)) Hu) as E.
      rewrite step_effect in E. destruct (ab_step _ _ _ _) as [a0 s1]. destruct K as (_ & -> & _). by rewrite <- E.
  - rewrite D. destruct (updates r) eqn:Hu; [|by apply question_effect]. unfold effect. simpl. by rewrite U.
Qed.

(** Unless a write was cut off, the slots after a sequence of requests are coherent, and
    those that the replies tell. *)
Lemma durable_run rs w : Forall request_ok rs -> ready w -> coherent (stored w) ->
  ends (boot_run v rs) w (fun l w' => length l = length rs /\
    (torn (blog w') \/ (coherent (stored w') /\ abs (stored w') = foldl effect (abs (stored w)) (zip rs l)))).
Proof.
  intros Hrs. revert w. induction Hrs as [|r rs Hr Hrs IH]; intros w Hw Hc; [by apply ends_ret; split; [|right]|].
  destruct (run_stops v (r :: rs) w ltac:(by constructor)) as (l & w' & E & Hl). exists l, w'. split; [done|]. split; [done|].
  cbn [boot_run] in E. apply bind_inv in E as (a & w1 & E1 & E2). apply bind_inv in E2 as (l1 & w2 & E2 & [= <- <-]).
  destruct (ends_run _ _ _ _ _ (perform_outcome v r w Hr Hw Hc) E1) as (R1 & [[C1 O1]|[(T1 & _) _]]).
  - destruct (ends_run _ _ _ _ _ (IH w1 R1 C1) E2) as (_ & [?|[C2 A2]]); [by left|right]. split; [done|].
    simpl. by rewrite (outcome_effect _ _ _ _ O1).
  - left. by apply (run_torn v rs w1 l1).
Qed.

(** C9. Updates are durable and atomic, whatever calls of the system fail, as long as no
    write is cut off part-way: the slots in the partition after a sequence of requests are
    the result of exactly those updates that were answered with success, in their order; an
    update that is answered with a failure has not changed them.  Reads may be short.  A
    write that is cut off, [torn], leaves the rest of the slots as they were. *)
Theorem acknowledged_updates_durable rs w : Forall request_ok rs -> ready w -> coherent (stored w) ->
  ends (boot_run v rs) w (fun l w' => length l = length rs /\
    (torn (blog w') \/ abs (stored w') = foldl effect (abs (stored w)) (zip rs l))).
Proof.
  intros Hrs Hw Hc. eapply ends_weaken; [by apply durable_run|]. intros l w' (L & [T|[_ A]]); split; [done|by left|done|by right].
Qed.

(** C10. Never two slots are active, and an active slot can boot, after any sequence of
    requests and failures that starts from such slots and in which no write is cut off
    part-way. *)
Theorem slots_stay_coherent rs w : Forall request_ok rs -> ready w -> coherent (stored w) ->
  ends (boot_run v rs) w (fun _ w' => torn (blog w') \/ coherent (stored w')).
Proof.
  intros Hrs Hw Hc. eapply ends_weaken; [by apply durable_run|]. intros l w' (_ & [T|[C _]]); [by left|by right].
Qed.
End refinement.

Section failures.
Context (v : hal_version).

(** C11. Every sequence of requests is answered, one reply for each, on any device and
    from any state of the service: whatever the calls of the system return, partial
    transfers included, no array is accessed outside its bounds and no loop goes on for
    ever, as long as a transfer is not interrupted without end. *)
Theorem requests_answered `{FewInterruptions} rs w : Forall request_ok rs ->
  ends (boot_run v rs) w (fun l _ => length l = length rs).
Proof.
  apply run_stops.
Qed.

(** The service writes nothing but the 32 bytes of the slots: the 2048 bytes before
    them and everything behind them stay as they are in all sequences of requests. *)
Theorem rest_of_partition_kept `{BlockDevice} rs w : Forall request_ok rs -> ready w ->
  ends (boot_run v rs) w (fun _ w' => length (partition w') = length (partition w) /\
    take 2048 (partition w') = take 2048 (partition w) /\ drop 2080 (partition w') = drop 2080 (partition w)).
Proof.
  intros Hrs [Hp Hs]. destruct (run_stops v rs w Hrs) as (l & w' & E & _). exists l, w'. split; [done|].
  destruct (run_frame v _ rs w l w' (conj Hp (conj Hs eq_refl)) E) as (Hp' & _ & O). injection O as O1 O2. split; [|done].
  apply (f_equal length) in O2. rewrite !length_drop in O2. unfold sized in *. lia.
Qed.

(** A device that cannot be read uses up the descriptors: each request that loads
    the slots opens the partition once more, and it is never closed. *)
Theorem failed_reads_leak_descriptors `{FewInterruptions} rs w : unreadable -> exynos_slot_initialized (exbc w) = true ->
  ends (boot_run v rs) w (fun _ w' =>
    opened (blog w') = (length (List.filter loads rs) + opened (blog w))%nat /\ closed (blog w') = closed (blog w)).
Proof.
  intros Hu. revert w. induction rs as [|r rs IH]; intros w Hi; [by apply ends_ret|]. cbn [boot_run].
  eapply ends_bind; [by apply (perform_leaks v r w)|]. intros a w1 (O1 & C1 & E1).
  eapply ends_bind; [apply IH; by rewrite E1|]. intros l w2 [O2 C2]. apply ends_ret. rewrite O2, C2, O1, C1. simpl.
  split; [|done]. destruct (loads r); simpl; lia.
Qed.

(** An activation that could not be stored is reported, and the partition keeps the
    slots it had, but the service answers [getActiveBootSlot] with the new slot. *)
Theorem failed_activation_answered `{BlockDevice} slot w : 0 <= slot < 2 ^ 32 -> IsValidSlot slot = true ->
  ready w -> formatted w = true -> ~ load_fails -> ~ write_works ->
  ends (boot_run V1_2 [setActiveBootSlot slot; getActiveBootSlot]) w (fun l w' =>
    l = [a_result (command_result false); a_number slot] /\ partition w' = partition w).
Proof.
  intros Hs Hv Hw Hf NL NW. assert (S : slot = 0 \/ slot = 1) by (by apply valid_slot; [|lia]). cbn [boot_run boot_perform].
  unfold Exynos_SetActiveBootSlot. rewrite Hv. cbn [negb].
  eapply ends_bind with (Q := fun a w' => a = a_result (command_result false) /\ partition w' = partition w /\
    exbc_GetActiveBootSlot (si (exbc w')) = slot).
  - eapply ends_bind; [by eapply (update_saved_spec V1_2); [apply active_acts|]|]. intros b w1 (R1 & I1 & K1).
    apply ends_ret. destruct b; [by destruct K1 as (? & _ & _ & _ & _ & ?)|]. destruct K1 as (_ & K1).
    destruct (K1 NL NW Hf) as (P1 & j & Ej & Yj). split; [done|]. split; [done|].
    change (exbc_GetActiveBootSlot (persistent V1_2 (si (exbc w1))) = slot). rewrite Yj.
    by destruct S as [-> | ->]; injection Ej as <-.
  - intros a w1 (-> & P1 & A1). eapply ends_step; [unfold Exynos_GetActiveBootSlot; done|]. by rewrite <- A1; eapply ends_ret.
Qed.
End failures.

(** ** On a device *)

(** The concrete device, and requests of all kinds. *)
Definition lab_requests : list boot_request := [
  markBootSuccessful; isSlotMarkedSuccessful 0; setActiveBootSlot 1; getActiveBootSlot; isSlotBootable 7;
  setSlotAsUnbootable 1; getActiveBootSlot; setSnapshotMergeStatus 300; getSnapshotMergeStatus; getSuffix 1; setActiveBootSlot 2].

Lemma lab_requests_ok : Forall request_ok lab_requests.
Proof. by repeat constructor. Qed.

Lemma lab_slots_coherent v initialized : coherent (stored v (lab_world lab_slots initialized)).
Proof. by vm_compute; destruct v; repeat split. Qed.

Lemma lab_blank_coherent v initialized : coherent (stored v (lab_world lab_blank initialized)).
Proof. by vm_compute; destruct v; repeat split. Qed.

Lemma service_refines_witness :
  ends (boot_run (H := lab "_a" true true) V1_2 (Init :: lab_requests)) (lab_world lab_blank false) (fun l w' =>
    (l, abs (stored V1_2 w')) = ab_run V1_2 (Some slot_A) (abs (stored V1_2 (lab_world lab_blank false))) (Init :: lab_requests)).
Proof.
  apply (service_refines (H := lab "_a" true true) V1_2 lab_requests (lab_world lab_blank false));
    [apply lab_works|apply lab_requests_ok|by apply lab_ready|apply lab_blank_coherent|done].
Defined.

(** The replies are the expected ones. *)
Example lab_replies :
  fst (ab_run V1_2 (Some slot_A) (abs reset_slot_info) lab_requests) =
  [a_result (command_result true); a_bool_result TRUE; a_result (command_result true); a_number 1; a_bool_result INVALID_SLOT;
   a_result (command_result true); a_number 0; a_bool true; a_number 44; a_string "_b"; a_result (command_result false)].
Proof. reflexivity. Qed.

(** With a device that is read but not written. *)
Lemma acknowledged_updates_durable_witness :
  ends (boot_run (H := lab "_a" true false) V1_1 lab_requests) (lab_world lab_slots true) (fun l w' =>
    length l = length lab_requests /\ (torn (blog w') \/
    abs (stored V1_1 w') = foldl (effect (H := lab "_a" true false) V1_1) (abs (stored V1_1 (lab_world lab_slots true))) (zip lab_requests l))).
Proof.
  apply (acknowledged_updates_durable (H := lab "_a" true false) V1_1 lab_requests (lab_world lab_slots true));
    [apply lab_requests_ok|by apply lab_ready|apply lab_slots_coherent].
Defined.

Lemma slots_stay_coherent_witness :
  ends (boot_run (H := lab "_b" true true) V1_2 lab_requests) (lab_world lab_slots true) (fun _ w' => torn (blog w') \/ coherent (stored V1_2 w')).
Proof.
  apply (slots_stay_coherent (H := lab "_b" true true) V1_2 lab_requests (lab_world lab_slots true));
    [apply lab_requests_ok|by apply lab_ready|apply lab_slots_coherent].
Defined.

(** Slot B is active.  The write that activates slot A ends behind the fields of A: the
    update is refused, and both slots are active. *)
Definition lab_slots_b : list Z := [69; 88; 66; 67; 1; 0; 1; 7; 0; 0; 0; 0; 1; 1; 1; 7; 0; 0; 0; 0; 0; 0] ++ replicate 10 0.

Lemma cut_off_write_activates_both :
  ends (boot_run (H := lab_torn "_b" 12) V1_2 [setActiveBootSlot 0]) (lab_world lab_slots_b true) (fun l w' =>
    l = [a_result (command_result false)] /\ torn (blog w') /\ ~ coherent (stored V1_2 w')).
Proof.
  eexists _, _. split; [by vm_compute|]. split; [done|]. split.
  - exists 8, 32, 12. split; [|done]. cbn [blog]. rewrite !elem_of_cons. tauto.
  - intros [C _]. by destruct (C eq_refl).
Qed.

Lemma requests_answered_witness :
  ends (boot_run (H := lab "_a" false false) V1_2 lab_requests) (lab_world [] false) (fun l _ => length l = 11%nat).
Proof. apply (requests_answered (H := lab "_a" false false) V1_2 lab_requests (lab_world [] false)), lab_requests_ok. Defined.

Lemma rest_of_partition_kept_witness :
  ends (boot_run (H := lab "_a" true true) V1_2 lab_requests) (lab_world lab_blank true) (fun _ w' =>
    length (partition w') = length (lab_partition lab_blank) /\
    take 2048 (partition w') = take 2048 (lab_partition lab_blank) /\ drop 2080 (partition w') = drop 2080 (lab_partition lab_blank)).
Proof.
  apply (rest_of_partition_kept (H := lab "_a" true true) V1_2 lab_requests (lab_world lab_blank true));
    [apply lab_requests_ok|by apply lab_ready].
Defined.

(** Six of the requests load the slots. *)
Lemma failed_reads_leak_descriptors_witness :
  ends (boot_run (H := lab "_a" false true) V1_2 lab_requests) (lab_world lab_slots true) (fun _ w' =>
    opened (blog w') = 6%nat /\ closed (blog w') = 0%nat).
Proof.
  apply (failed_reads_leak_descriptors (H := lab "_a" false true) V1_2 lab_requests (lab_world lab_slots true)); [apply lab_unreadable|done].
Defined.

Lemma failed_activation_answered_witness :
  ends (boot_run (H := lab "_a" true false) V1_2 [setActiveBootSlot 1; getActiveBootSlot]) (lab_world lab_slots true) (fun l w' =>
    l = [a_result (command_result false); a_number 1] /\ partition w' = lab_partition lab_slots).
Proof.
  apply (failed_activation_answered (H := lab "_a" true false) 1 (lab_world lab_slots true));
    [done|done|by apply lab_ready|reflexivity|apply lab_loads|apply lab_unwritable].
Defined.
