(* ===== verification/HdrBits.v ===== *)
(** * Bit strings

    Numbers and bytes as lists of bits, the most significant one first, as the syntax
    of a bit stream has them. *)

From S2P Require Import Prelude.

(** The low [n] bits of a number, and the number of some bits. *)
Fixpoint bits (n : nat) (z : Z) : list bool :=
  match n with
  | O => []
  | Datatypes.S n => Z.testbit z (Z.of_nat n) :: bits n z
  end.
Definition value (l : list bool) : Z := foldl (fun a b => 2 * a + Z.b2z b) 0 l.

(** The bits of some bytes. *)
Definition stream_bits (l : list Z) : list bool := l ≫= bits 8.

Lemma length_bits n z : length (bits n z) = n.
Proof. induction n as [|n IH]; simpl; congruence. Qed.

Lemma value_from a l : foldl (fun a b => 2 * a + Z.b2z b) a l = a * 2 ^ Z.of_nat (length l) + value l.
Proof.
  unfold value. revert a. induction l as [|b l IH]; intros a; simpl foldl; [simpl; lia|].
  rewrite IH, (IH (2 * 0 + Z.b2z b)). simpl length. rewrite Nat2Z.inj_succ, Z.pow_succ_r by lia. ring.
Qed.

Lemma value_cons b l : value (b :: l) = Z.b2z b * 2 ^ Z.of_nat (length l) + value l.
Proof. unfold value at 1. simpl. rewrite value_from. destruct b; simpl; lia. Qed.

Lemma value_app l l' : value (l ++ l') = value l * 2 ^ Z.of_nat (length l') + value l'.
Proof. unfold value at 1. rewrite foldl_app. apply value_from. Qed.

Lemma value_range l : 0 <= value l < 2 ^ Z.of_nat (length l).
Proof.
  induction l as [|b l IH]; [done|]. rewrite value_cons. simpl length. rewrite Nat2Z.inj_succ, Z.pow_succ_r by lia.
  destruct b; simpl Z.b2z; lia.
Qed.

Lemma value_bits n z : value (bits n z) = z `mod` 2 ^ Z.of_nat n.
Proof.
  induction n as [|n IH]; [by rewrite Z.mod_1_r|]. cbn [bits]. rewrite value_cons, length_bits, IH.
  rewrite Nat2Z.inj_succ, Z.pow_succ_r, (Z.mul_comm 2) by lia.
  rewrite Z.rem_mul_r, <- Z.testbit_spec' by lia. lia.
Qed.

Lemma value_bits_small n z : 0 <= z < 2 ^ Z.of_nat n -> value (bits n z) = z.
Proof. intros Hz. rewrite value_bits. by apply Z.mod_small. Qed.

Lemma testbit_value n b l z : Z.of_nat (length l) = n -> Z.testbit (value (b :: l) + z * 2 ^ (n + 1)) n = b.
Proof.
  intros <-. rewrite value_cons. pose proof (value_range l) as R. apply Z.b2z_inj. rewrite Z.testbit_spec' by lia.
  rewrite Z.pow_add_r by lia. change (2 ^ 1) with 2.
  replace (Z.b2z b * 2 ^ Z.of_nat (length l) + value l + z * (2 ^ Z.of_nat (length l) * 2))
    with (value l + (Z.b2z b + z * 2) * 2 ^ Z.of_nat (length l)) by ring.
  rewrite Z.div_add, (Z.div_small (value l)), Z.add_0_l, Z.mod_add by lia. apply Z.mod_small. destruct b; simpl; lia.
Qed.

Lemma bits_high n z x : bits n (z + x * 2 ^ Z.of_nat n) = bits n z.
Proof.
  induction n as [|n IH] in x |- *; [done|]. cbn [bits]. rewrite Nat2Z.inj_succ, Z.pow_succ_r by lia. f_equal.
  - apply Z.b2z_inj. rewrite !Z.testbit_spec' by lia. rewrite Z.mul_assoc, Z.div_add, Z.mod_add by lia. done.
  - rewrite Z.mul_assoc. apply IH.
Qed.

Lemma bits_value n l : length l = n -> bits n (value l) = l.
Proof.
  intros <-. induction l as [|b l IH]; [done|]. cbn [length bits].
  rewrite <- (Z.add_0_r (value (b :: l))) at 1. rewrite <- (Z.mul_0_l (2 ^ (Z.of_nat (length l) + 1))).
  rewrite testbit_value by done. f_equal. rewrite value_cons, Z.add_comm, bits_high. apply IH.
Qed.

Lemma bits_mod n z : bits n (z `mod` 2 ^ Z.of_nat n) = bits n z.
Proof. rewrite <- value_bits. by apply bits_value, length_bits. Qed.

Lemma bits_app n m z : bits (n + m) z = bits n (z ≫ Z.of_nat m) ++ bits m z.
Proof.
  induction n as [|n IH]; [done|]. simpl. rewrite IH. f_equal. rewrite Z.shiftr_spec by lia. f_equal. lia.
Qed.

Lemma value_inj l l' : length l = length l' -> value l = value l' -> l = l'.
Proof. intros Hl Hv. rewrite <- (bits_value _ l eq_refl), Hl, Hv. by apply bits_value. Qed.

Lemma bits_16 z : 0 <= z -> bits 16 z = bits 8 (z `div` 256) ++ bits 8 (z `mod` 256).
Proof.
  intros Hz. rewrite (bits_app 8 8). rewrite Z.shiftr_div_pow2 by lia. change (2 ^ Z.of_nat 8) with 256. f_equal.
  symmetry. apply (bits_mod 8).
Qed.

Lemma bits_0 n : bits n 0 = replicate n false.
Proof. induction n as [|n IH]; [done|]. cbn [bits replicate]. by rewrite Z.bits_0, IH. Qed.

(** ** Bytes *)

Lemma length_stream l : length (stream_bits l) = (8 * length l)%nat.
Proof. induction l as [|b l IH]; [done|]. simpl in *. lia. Qed.

Lemma stream_app l l' : stream_bits (l ++ l') = stream_bits l ++ stream_bits l'.
Proof. apply bind_app. Qed.

Lemma stream_cons b l : stream_bits (b :: l) = bits 8 b ++ stream_bits l.
Proof. done. Qed.

Lemma stream_drop n l : drop (8 * n) (stream_bits l) = stream_bits (drop n l).
Proof.
  revert l. induction n as [|n IH]; intros l; [done|]. destruct l as [|b l]; [by rewrite !drop_nil|].
  rewrite stream_cons. replace (8 * Datatypes.S n)%nat with (8 + 8 * n)%nat by lia.
  rewrite <- drop_drop. rewrite drop_app_length' by (by rewrite length_bits). apply IH.
Qed.

Lemma stream_take n l : take (8 * n) (stream_bits l) = stream_bits (take n l).
Proof.
  revert l. induction n as [|n IH]; intros l; [done|]. destruct l as [|b l]; [by rewrite !take_nil|].
  rewrite stream_cons. replace (8 * Datatypes.S n)%nat with (8 + 8 * n)%nat by lia.
  rewrite take_app_add' by (by rewrite length_bits). simpl take. rewrite stream_cons. f_equal. apply IH.
Qed.

(** Bits as bytes. *)
Fixpoint bytes_of (n : nat) (l : list bool) : list Z :=
  match n with
  | O => []
  | Datatypes.S n => value (take 8 l) :: bytes_of n (drop 8 l)
  end.

Lemma length_bytes_of n l : length (bytes_of n l) = n.
Proof. revert l. induction n as [|n IH]; intros l; simpl; [done|]. by rewrite IH. Qed.

Lemma bytes_of_range n l : Forall (fun b => 0 <= b < 256) (bytes_of n l).
Proof.
  revert l. induction n as [|n IH]; intros l; cbn [bytes_of]; constructor; [|apply IH].
  pose proof (value_range (take 8 l)) as R. rewrite length_take in R.
  assert (2 ^ Z.of_nat (8 `min` length l) <= 2 ^ 8) by (apply Z.pow_le_mono_r; lia). lia.
Qed.

Lemma stream_bytes_of n l : length l = (8 * n)%nat -> stream_bits (bytes_of n l) = l.
Proof.
  revert l. induction n as [|n IH]; intros l Hl; cbn [bytes_of]; [by destruct l|].
  rewrite stream_cons, bits_value by (rewrite length_take; lia). rewrite IH by (rewrite length_drop; lia). apply take_drop.
Qed.

Lemma stream_inj l l' : Forall (fun b => 0 <= b < 256) l -> Forall (fun b => 0 <= b < 256) l' ->
  stream_bits l = stream_bits l' -> l = l'.
Proof.
  intros Hl. revert l'. induction Hl as [|b l Hb Hl IH]; intros [|b' l'] Hl' E.
  - done.
  - by apply (f_equal length) in E; rewrite !length_stream in E.
  - by apply (f_equal length) in E; rewrite !length_stream in E.
  - apply Forall_cons in Hl' as [Hb' Hl']. rewrite !stream_cons in E. apply app_inj_1 in E as [E1 E2]; [|by rewrite !length_bits].
    f_equal; [|by apply IH]. rewrite <- (value_bits_small 8 b), E1 by done. by apply value_bits_small.
Qed.

(** ** Single bits *)

Lemma lookup_bits n z i : (i < n)%nat -> bits n z !! i = Some (Z.testbit z (Z.of_nat (n - 1 - i))).
Proof.
  revert i. induction n as [|n IH]; intros i Hi; [lia|]. cbn [bits]. destruct i as [|i]; simpl.
  - by rewrite !Nat.sub_0_r.
  - rewrite IH by lia. do 3 f_equal. lia.
Qed.

Lemma bits_ext n z l : length l = n -> (forall i, (i < n)%nat -> l !! i = Some (Z.testbit z (Z.of_nat (n - 1 - i)))) -> bits n z = l.
Proof.
  intros Hl H. apply list_eq. intros i. destruct (decide (i < n)%nat) as [Hi|Hi].
  - by rewrite lookup_bits, H.
  - rewrite !lookup_ge_None_2; [done|lia|rewrite length_bits; lia].
Qed.

Lemma stream_insert l i b b' x : l !! (i / 8)%nat = Some b -> bits 8 b' = <[(i mod 8)%nat := x]> (bits 8 b) ->
  stream_bits (<[(i / 8)%nat := b']> l) = <[i := x]> (stream_bits l).
Proof.
  revert i. induction l as [|a l IH]; intros i Hi Hb; [done|]. destruct (decide (i < 8)%nat) as [H8|H8].
  - rewrite (Nat.div_small i 8), (Nat.mod_small i 8) in * by done. simpl in Hi. injection Hi as ->. change (<[0%nat := b']> (b :: l)) with (b' :: l).
    rewrite !stream_cons, Hb. by rewrite insert_app_l by (rewrite length_bits; done).
  - assert (E : i = (8 + (i - 8))%nat) by lia. rewrite E in Hi, Hb |- *. set (k := (i - 8)%nat) in *. clearbody k. clear E H8.
    pose proof (Nat.div_add k 1 8 ltac:(lia)) as E1. pose proof (Nat.Div0.mod_add k 1 8) as E2. rewrite Nat.mul_1_l, Nat.add_comm in E1, E2.
    rewrite E1, Nat.add_1_r in *. rewrite E2 in Hb.
    simpl in Hi. change (<[Datatypes.S (k / 8) := b']> (a :: l)) with (a :: <[(k / 8)%nat := b']> l).
    rewrite !stream_cons, (IH k) by done. rewrite insert_app_r_alt by (rewrite length_bits; lia). rewrite length_bits. do 2 f_equal. lia.
Qed.

Lemma lookup_stream l b i : l !! (i / 8)%nat = Some b -> stream_bits l !! i = bits 8 b !! (i mod 8)%nat.
Proof.
  intros Hi. rewrite <- (take_drop_middle l (i / 8) b) by done. rewrite stream_app, stream_cons.
  pose proof (lookup_lt_Some _ _ _ Hi). assert (Hl : length (stream_bits (take (i / 8) l)) = (8 * (i / 8))%nat).
  { rewrite length_stream, length_take. lia. }
  pose proof (Nat.div_mod_eq i 8) as E. pose proof (Nat.mod_upper_bound i 8).
  rewrite lookup_app_r, Hl by lia. rewrite lookup_app_l by (rewrite length_bits; lia). f_equal. lia.
Qed.
