(* ===== verification/HdrData.v ===== *)
(** * HDR10+ metadata: the structure

    [ExynosHdrData_ST2094_40] of [src/include/VendorVideoAPI.h], without
    [USE_FULL_ST2094_40], and arrays with their bounds. *)

From S2P Require Import Prelude Effects HdrBits.
(** The anonymous structure of the member [tone_mapping]. *)
Record hdr_tone_mapping := {
  tone_mapping_flag : Z;
  knee_point_x : Z;
  knee_point_y : Z;
  num_bezier_curve_anchors : Z;
  bezier_curve_anchors : list Z
}.
#[export] Instance hdr_tone_mapping_fields : Fields hdr_tone_mapping := fun t => {|
  tone_mapping_flag := tone_mapping_flag t; knee_point_x := knee_point_x t; knee_point_y := knee_point_y t;
  num_bezier_curve_anchors := num_bezier_curve_anchors t; bezier_curve_anchors := bezier_curve_anchors t |}.

Record ExynosHdrData_ST2094_40 := {
  country_code : Z;
  provider_code : Z;
  provider_oriented_code : Z;
  application_identifier : Z;
  application_version : Z;
  display_maximum_luminance : Z;
  maxscl : list Z;
  num_maxrgb_percentiles : Z;
  maxrgb_percentages : list Z;
  maxrgb_percentiles : list Z;
  tone_mapping : hdr_tone_mapping
}.
#[export] Instance ExynosHdrData_fields : Fields ExynosHdrData_ST2094_40 := fun d => {|
  country_code := country_code d; provider_code := provider_code d; provider_oriented_code := provider_oriented_code d;
  application_identifier := application_identifier d; application_version := application_version d;
  display_maximum_luminance := display_maximum_luminance d; maxscl := maxscl d;
  num_maxrgb_percentiles := num_maxrgb_percentiles d; maxrgb_percentages := maxrgb_percentages d;
  maxrgb_percentiles := maxrgb_percentiles d; tone_mapping := tone_mapping d |}.

(** An [unsigned short]. *)
Definition u16 (z : Z) : Z := z `mod` 2 ^ 16.

(** The sizes of the arrays. *)
Definition arrays_ok (d : ExynosHdrData_ST2094_40) : Prop :=
  length (maxscl d) = 3%nat /\ length (maxrgb_percentages d) = 15%nat /\ length (maxrgb_percentiles d) = 15%nat /\
  length (bezier_curve_anchors (tone_mapping d)) = 15%nat.

(** An element of an array, and an assignment to one; [None] outside. *)
Definition element (l : list Z) (i : Z) : option Z := if 0 <=? i then l !! Z.to_nat i else None.
Definition assign (l : list Z) (i x : Z) : option (list Z) :=
  if (0 <=? i) && (i <? Z.of_nat (length l)) then Some (<[Z.to_nat i := x]> l) else None.

(** ** The syntax

    A message of ST 2094-40 with one window as a string of bits: what the parser reads,
    what [Exynos_dynamic_meta_to_itu_t_t35] writes, and, with the geometry of the window,
    what [Exynos_sei_write] writes. *)

(** The values fit into their fields. *)
Record hdr_ok (d : ExynosHdrData_ST2094_40) : Prop := {
  ok_country : 0 <= country_code d < 2 ^ 8;
  ok_provider : 0 <= provider_code d < 2 ^ 16;
  ok_oriented : 0 <= provider_oriented_code d < 2 ^ 16;
  ok_identifier : 0 <= application_identifier d < 2 ^ 8;
  ok_version : 0 <= application_version d < 2 ^ 8;
  ok_luminance : 0 <= display_maximum_luminance d < 2 ^ 27;
  ok_maxscl : Forall (fun v => 0 <= v < 2 ^ 17) (maxscl d);
  ok_num_percentiles : 0 <= num_maxrgb_percentiles d < 2 ^ 4;
  ok_percentages : Forall (fun v => 0 <= v < 2 ^ 7) (maxrgb_percentages d);
  ok_percentiles : Forall (fun v => 0 <= v < 2 ^ 17) (maxrgb_percentiles d);
  ok_flag : 0 <= tone_mapping_flag (tone_mapping d) < 2;
  ok_knee_x : 0 <= knee_point_x (tone_mapping d) < 2 ^ 12;
  ok_knee_y : 0 <= knee_point_y (tone_mapping d) < 2 ^ 12;
  ok_num_anchors : 0 <= num_bezier_curve_anchors (tone_mapping d) < 2 ^ 4;
  ok_anchors : Forall (fun v => 0 <= v < 2 ^ 10) (bezier_curve_anchors (tone_mapping d));
  ok_arrays : arrays_ok d
}.

(** What a message has and the structure does not: the actual peak luminances of the
    displays, the average and the bright pixels, and the colour saturation. *)
Record itu_message := {
  metadata : ExynosHdrData_ST2094_40;
  targeted : option (list (list Z));
  average : Z;
  fraction : Z;
  mastering : option (list (list Z));
  saturation : option Z
}.

Definition code_bits (d : ExynosHdrData_ST2094_40) : list bool :=
  bits 8 (country_code d) ++ bits 16 (provider_code d) ++ bits 16 (provider_oriented_code d) ++
  bits 8 (application_identifier d) ++ bits 8 (application_version d).

(** The columns are those of the first row. *)
Definition columns (rows : list (list Z)) : Z := Z.of_nat (length (default [] (head rows))).
Definition peak_bits (peak : option (list (list Z))) : list bool :=
  match peak with
  | None => [false]
  | Some rows => true :: bits 5 (Z.of_nat (length rows)) ++ bits 5 (columns rows) ++ (rows ≫= fun row => row ≫= bits 4)
  end.

(** The used part of the arrays. *)
Definition percentiles (d : ExynosHdrData_ST2094_40) : list (Z * Z) :=
  take (Z.to_nat (num_maxrgb_percentiles d)) (zip (maxrgb_percentages d) (maxrgb_percentiles d)).
Definition anchors (t : hdr_tone_mapping) : list Z := take (Z.to_nat (num_bezier_curve_anchors t)) (bezier_curve_anchors t).

Definition percentile_bits (p : Z * Z) : list bool := bits 7 p.1 ++ bits 17 p.2.
Definition curve_bits (t : hdr_tone_mapping) : list bool :=
  bits 12 (knee_point_x t) ++ bits 12 (knee_point_y t) ++ bits 4 (num_bezier_curve_anchors t) ++ (anchors t ≫= bits 10).
Definition tone_bits (t : hdr_tone_mapping) : list bool :=
  if tone_mapping_flag t =? 0 then [false] else true :: curve_bits t.
Definition saturation_bits (s : option Z) : list bool :=
  match s with None => [false] | Some w => true :: bits 6 w end.

(** The fields from the luminance on. *)
Definition display_bits (m : itu_message) : list bool :=
  let d := metadata m in
  bits 27 (display_maximum_luminance d) ++ peak_bits (targeted m) ++ (maxscl d ≫= bits 17) ++ bits 17 (average m) ++
  bits 4 (num_maxrgb_percentiles d) ++ (percentiles d ≫= percentile_bits) ++ bits 10 (fraction m) ++
  peak_bits (mastering m) ++ tone_bits (tone_mapping d) ++ saturation_bits (saturation m).

Definition itu_bits (m : itu_message) : list bool := code_bits (metadata m) ++ bits 2 1 ++ display_bits m.

(** Without the optional fields. *)
Definition plain (v : Z) (d : ExynosHdrData_ST2094_40) : itu_message := {|
  metadata := d; targeted := None; average := v; fraction := v; mastering := None; saturation := None |}.

Lemma length_bind_const {A B} (f : A -> list B) n l : (forall x, length (f x) = n) -> length (l ≫= f) = (n * length l)%nat.
Proof. intros Hf. induction l as [|x l IH]; [simpl; lia|]. rewrite bind_cons, length_app, Hf, IH. simpl. lia. Qed.

(** ** Lengths *)

Section lengths.
Context (d : ExynosHdrData_ST2094_40) (Hd : hdr_ok d).

Lemma length_percentiles : length (percentiles d) = Z.to_nat (num_maxrgb_percentiles d).
Proof using Hd.
  destruct Hd. destruct ok_arrays0 as (_ & E1 & E2 & _). unfold percentiles. rewrite length_take, length_zip_with, E1, E2. lia.
Qed.

Lemma length_anchors : length (anchors (tone_mapping d)) = Z.to_nat (num_bezier_curve_anchors (tone_mapping d)).
Proof using Hd.
  destruct Hd. destruct ok_arrays0 as (_ & _ & _ & E). unfold anchors. rewrite length_take, E. lia.
Qed.

Lemma length_tone : length (tone_bits (tone_mapping d)) =
  if tone_mapping_flag (tone_mapping d) =? 0 then 1%nat
  else (29 + 10 * Z.to_nat (num_bezier_curve_anchors (tone_mapping d)))%nat.
Proof using Hd.
  unfold tone_bits, curve_bits. destruct (_ =? 0); [done|]. cbn [length].
  rewrite !length_app, !length_bits, (length_bind_const _ 10) by (intros; apply length_bits). rewrite length_anchors. lia.
Qed.

Lemma length_display v : length (display_bits (plain v d)) =
  (112 + 24 * Z.to_nat (num_maxrgb_percentiles d) + length (tone_bits (tone_mapping d)))%nat.
Proof using Hd.
  unfold display_bits. cbn [metadata targeted average fraction mastering saturation plain peak_bits saturation_bits].
  rewrite !length_app, !length_bits, (length_bind_const _ 17) by (intros; apply length_bits).
  rewrite (length_bind_const _ 24) by (intros; unfold percentile_bits; by rewrite length_app, !length_bits).
  rewrite length_percentiles. destruct Hd. destruct ok_arrays0 as (-> & _). simpl length. lia.
Qed.
End lengths.
