(* ===== verification/HdrParse.v ===== *)
(** * HDR10+ metadata: the parser

    [Exynos_parsing_user_data_registered_itu_t_t35] of [src/videoapi/VendorVideoAPI.cpp],
    without [USE_FULL_ST2094_40].  The source reads every field with loops of its own;
    they differ in the number of bits and of bytes only, which [field] has as
    arguments. *)

From S2P Require Import Prelude Effects HdrData.

(** ** Computations *)

(** The variables that are kept from field to field, and [dest->data]. *)
Record hdr_reader := {
  bit_offset : Z;
  extraBit : Z;
  hdr : ExynosHdrData_ST2094_40
}.
#[export] Instance hdr_reader_fields : Fields hdr_reader := fun s => {|
  bit_offset := bit_offset s; extraBit := extraBit s; hdr := hdr s |}.

(** [None] is an access outside an array; [Some (None, _)] is [return -1]. *)
Definition Reader (A : Type) : Type := hdr_reader -> option (option A * hdr_reader).

#[export] Instance Reader_ret : MRet Reader := fun A a s => Some (Some a, s).
#[export] Instance Reader_bind : MBind Reader := fun A B k p s =>
  match p s with
  | Some (Some a, s') => k a s'
  | Some (None, s') => Some (None, s')
  | None => None
  end.

Definition refuse {A} : Reader A := fun s => Some (None, s).
Definition reader {A} (f : hdr_reader -> A) : Reader A := fun s => Some (Some (f s), s).
Definition modify (f : hdr_reader -> hdr_reader) : Reader unit := fun s => Some (Some tt, f s).
Definition in_array {A} (o : option A) : Reader A := fun s => match o with Some a => Some (Some a, s) | None => None end.

(** [for (i = 0; i < n; i++)] *)
Fixpoint iterate (n : nat) (i : Z) (body : Z -> Reader unit) : Reader unit :=
  match n with
  | O => mret tt
  | Datatypes.S n => body i ;; iterate n (i + 1) body
  end.
Definition for_lt (n : Z) (body : Z -> Reader unit) : Reader unit := iterate (Z.to_nat n) 0 body.

(** An assignment to a member of the structure. *)
Definition set_hdr (f : ExynosHdrData_ST2094_40 -> ExynosHdrData_ST2094_40) : Reader unit :=
  modify (fun s => s <| hdr := f (hdr s) |>).
Definition set_tone (f : hdr_tone_mapping -> hdr_tone_mapping) : Reader unit :=
  set_hdr (fun d => d <| tone_mapping := f (tone_mapping d) |>).
Definition data_of {A} (f : ExynosHdrData_ST2094_40 -> A) : Reader A := reader (fun s => f (hdr s)).

Section parsing.
Context (src : list Z).

(** ** Bits *)

Definition src_at (i : Z) : Reader Z := in_array (element src i).

(** The loop over the bits of a byte from [e] on. *)
Definition gather_byte (e byte data : Z) : Z :=
  foldl (fun data k => Z.lor data (Z.land byte (1 ≪ (7 - k)))) data (seqZ e (8 - e)).

(** The loop over [count] bytes: [data] moves before all but the last one. *)
Fixpoint gather (n : nat) (j count data : Z) : Reader Z :=
  match n with
  | O => mret data
  | Datatypes.S n =>
      o ← reader bit_offset;
      e ← reader extraBit;
      byte ← src_at (o `div` 8 + j);
      let data := gather_byte e byte data in
      let data := if j <? count - 1 then s32 (data ≪ 8) else data in
      modify (fun s => s <| extraBit := (e + (8 - e)) `mod` 8 |>) ;;
      gather n (j + 1) count data
  end.

Definition skip (n : Z) : Reader unit :=
  modify (fun s => s <| bit_offset := bit_offset s + n |> <| extraBit := (bit_offset s + n) `mod` 8 |>).

(** Away with the bits behind the field. *)
Definition align_data (data : Z) : Reader Z :=
  e ← reader extraBit;
  mret (if negb (e =? 0) then data ≫ (8 - e) else data).

Definition field (n count : Z) : Reader Z :=
  data ← gather (Z.to_nat count) 0 count 0;
  skip n ;;
  align_data data.

(** One bit. *)
Definition flag_bit : Reader Z :=
  o ← reader bit_offset;
  e ← reader extraBit;
  byte ← src_at (o `div` 8);
  skip 1 ;;
  mret (Z.land byte (1 ≪ (7 - e))).
Definition flag : Reader Z := data ← flag_bit; align_data data.

(** ** Fields *)

(** The first codes: [data] does not move between the bytes. *)
Fixpoint gather_code (n : nat) (i data : Z) : Reader Z :=
  match n with
  | O => mret data
  | Datatypes.S n =>
      o ← reader bit_offset;
      byte ← src_at (o `div` 8 + i);
      gather_code n (i + 1) (foldl (fun data j => Z.lor data (Z.land byte (1 ≪ j))) data (seqZ 0 8))
  end.
Definition code (n : Z) : Reader Z :=
  data ← gather_code (Z.to_nat n) 0 0;
  modify (fun s => s <| bit_offset := bit_offset s + 8 * n |>) ;;
  mret data.

Definition codes : Reader unit :=
  data ← code 1; set_hdr (fun d => d <| country_code := u8 data |>) ;;
  data ← code 2; set_hdr (fun d => d <| provider_code := u16 data |>) ;;
  data ← code 2; set_hdr (fun d => d <| provider_oriented_code := u16 data |>) ;;
  data ← code 1; set_hdr (fun d => d <| application_identifier := u8 data |>) ;;
  data ← code 1; set_hdr (fun d => d <| application_version := u8 data |>).

(** [num_windows], and the geometry of the windows, which is not kept. *)
Definition num_windows : Reader Z :=
  o ← reader bit_offset;
  byte ← src_at (o `div` 8);
  let data := foldl (fun data j => Z.lor data (Z.land byte (1 ≪ (7 - j)))) 0 (seqZ 0 2) in
  skip 2 ;;
  e ← reader extraBit;
  let windows := data ≫ (8 - e) in
  if (windows <? 1) || (3 <? windows) then refuse else mret windows.

Definition geometry : Reader unit :=
  skip 16 ;; skip 16 ;; skip 16 ;; skip 16 ;; skip 16 ;; skip 16 ;; skip 8 ;; skip 16 ;; skip 16 ;; skip 16 ;; skip 1.

Definition maximum_luminance : Reader unit :=
  e ← reader extraBit;
  data ← field 27 (3 + (if 5 <? e then 2 else 1));
  set_hdr (fun d => d <| display_maximum_luminance := u32 data |>) ;;
  l ← data_of display_maximum_luminance;
  if 10000 <? l then refuse else mret tt.

(** The flag and the array of the actual peak luminance of the targeted display, and
    of the mastering display: a number of rows and of columns from 2 to 25. *)
Definition dimension : Reader Z :=
  e ← reader extraBit;
  n ← field 5 (1 + (if 3 <? e then 1 else 0));
  if (n <? 2) || (25 <? n) then refuse else mret n.
Definition actual_peak_luminance : Reader unit :=
  present ← flag;
  if negb (present =? 0) then
    rows ← dimension;
    cols ← dimension;
    for_lt rows (fun _ => for_lt cols (fun _ => skip 4))
  else mret tt.

Definition percentile (j : Z) : Reader unit :=
  e ← reader extraBit;
  data ← field 7 (1 + (if 1 <? e then 1 else 0));
  l ← data_of maxrgb_percentages; l ← in_array (assign l j (u8 data));
  set_hdr (fun d => d <| maxrgb_percentages := l |>) ;;
  data ← field 17 (2 + 1);
  l ← data_of maxrgb_percentiles; l ← in_array (assign l j (u32 data));
  set_hdr (fun d => d <| maxrgb_percentiles := l |>).

(** The colours of a window: those of the last window are kept. *)
Definition window_colours : Reader unit :=
  for_lt 3 (fun j =>
    data ← field 17 3;
    l ← data_of maxscl; l ← in_array (assign l j (u32 data));
    set_hdr (fun d => d <| maxscl := l |>)) ;;
  skip 17 ;;
  e ← reader extraBit;
  data ← field 4 (1 + (if 4 <? e then 1 else 0));
  set_hdr (fun d => d <| num_maxrgb_percentiles := u8 data |>) ;;
  n ← data_of num_maxrgb_percentiles;
  for_lt n percentile ;;
  skip 10.

Definition knee_point : Reader Z :=
  e ← reader extraBit;
  field 12 (1 + (if 5 <? e then 2 else 1)).

Definition anchor (j : Z) : Reader unit :=
  e ← reader extraBit;
  data ← field 10 (1 + (if 6 <? e then 2 else 1));
  l ← data_of (fun d => bezier_curve_anchors (tone_mapping d)); l ← in_array (assign l j (u16 data));
  set_tone (fun t => t <| bezier_curve_anchors := l |>).

(** The tone mapping of a window: the flag is shifted even if nothing is behind it. *)
Definition window_tone_mapping : Reader unit :=
  data ← flag_bit;
  e ← reader extraBit;
  set_tone (fun t => t <| tone_mapping_flag := u16 (data ≫ (8 - e)) |>) ;;
  present ← data_of (fun d => tone_mapping_flag (tone_mapping d));
  (if negb (present =? 0) then
     data ← knee_point; set_tone (fun t => t <| knee_point_x := u16 data |>) ;;
     data ← knee_point; set_tone (fun t => t <| knee_point_y := u16 data |>) ;;
     e ← reader extraBit;
     data ← field 4 (1 + (if 4 <? e then 1 else 0));
     set_tone (fun t => t <| num_bezier_curve_anchors := u16 data |>) ;;
     version ← data_of application_version;
     n ← data_of (fun d => num_bezier_curve_anchors (tone_mapping d));
     if (if version =? 1 then 9 else 15) <? n then refuse else for_lt n anchor
   else mret tt) ;;
  saturation ← flag;
  if negb (saturation =? 0) then skip 6 else mret tt.

Definition itu_t_t35 : Reader unit :=
  codes ;;
  windows ← num_windows;
  for_lt (windows - 1) (fun _ => geometry) ;;
  maximum_luminance ;;
  actual_peak_luminance ;;
  for_lt windows (fun _ => window_colours) ;;
  actual_peak_luminance ;;
  for_lt windows (fun _ => window_tone_mapping).

(** What is returned, and the structure, which an early return leaves half written. *)
Definition Exynos_parsing_user_data_registered_itu_t_t35 (dest : ExynosHdrData_ST2094_40) : option (Z * ExynosHdrData_ST2094_40) :=
  match itu_t_t35 {| bit_offset := 0; extraBit := 0; hdr := dest |} with
  | Some (Some _, s) => Some (0, hdr s)
  | Some (None, s) => Some (-1, hdr s)
  | None => None
  end.
End parsing.
