(* ===== verification/HdrMux.v ===== *)
(** * HDR10+ metadata: into a stream

    [Exynos_dynamic_meta_to_itu_t_t35] of [src/videoapi/VendorVideoAPI.cpp], without
    [USE_FULL_ST2094_40].  As in the parser the loops with which the source writes
    each field are one definition, with the width of the field, the shift that moves it
    to the left of [tempBuffer] and the number of bytes as arguments. *)

From S2P Require Import Prelude Effects HdrData.

(** [dst], and the position in it. *)
Record hdr_writer := {
  blob : list Z;
  write_offset : Z;
  write_extra : Z
}.
#[export] Instance hdr_writer_fields : Fields hdr_writer := fun s => {|
  blob := blob s; write_offset := write_offset s; write_extra := write_extra s |}.

Abbreviation Writer := (ST hdr_writer).

Definition writer {A} (f : hdr_writer -> A) : Writer A := fun s => Some (f s, s).
Definition update (f : hdr_writer -> hdr_writer) : Writer unit := fun s => Some (tt, f s).
Definition in_bounds {A} (o : option A) : Writer A := fun s => match o with Some a => Some (a, s) | None => None end.

(** ** Bits *)

(** The bits of [byte] from [j] on, up to [limit]. *)
Definition put_bit (byte j : Z) : Writer unit :=
  o ← writer write_offset;
  l ← writer blob;
  old ← in_bounds (element l (o `div` 8));
  l ← in_bounds (assign l (o `div` 8) (Z.lor old (Z.land byte (1 ≪ (7 - j)))));
  update (fun s => s <| blob := l |> <| write_offset := o + 1 |>).

Fixpoint put_byte (n : nat) (byte j limit : Z) : Writer unit :=
  match n with
  | O => mret tt
  | Datatypes.S n =>
      put_bit byte j ;;
      o ← writer write_offset;
      if o =? limit then mret tt else put_byte n byte (j + 1) limit
  end.

Definition set_extra : Writer unit := update (fun s => s <| write_extra := write_offset s `mod` 8 |>).

(** From the bit [extraBit] on. *)
Definition put_rest (byte limit : Z) : Writer unit :=
  e ← writer write_extra;
  put_byte (Z.to_nat (8 - e)) byte e limit ;;
  set_extra.

(** [buffer] is [tempBuffer] with its bytes in the other order. *)
Definition buffer_byte (temp i : Z) : Z := Z.land (temp ≫ (8 * (3 - i))) 0xff.
Fixpoint put_bytes (n : nat) (i temp limit : Z) : Writer unit :=
  match n with
  | O => mret tt
  | Datatypes.S n => put_rest (buffer_byte temp i) limit ;; put_bytes n (i + 1) temp limit
  end.

Definition temp_buffer (v shift : Z) : Writer Z :=
  e ← writer write_extra;
  in_bounds (if 0 <=? shift - e then Some (u32 (v ≪ (shift - e))) else None).

Definition put_field (v n shift count : Z) : Writer unit :=
  o ← writer write_offset;
  temp ← temp_buffer v shift;
  put_bytes (Z.to_nat count) 0 temp (o + n).

Definition leave (n : Z) : Writer unit :=
  update (fun s => s <| write_offset := write_offset s + n |> <| write_extra := (write_offset s + n) `mod` 8 |>).

(** ** Fields *)

Fixpoint put_code_bytes (n : nat) (v i count limit : Z) : Writer unit :=
  match n with
  | O => mret tt
  | Datatypes.S n =>
      put_byte 8 (Z.land (v ≫ (8 * (count - 1 - i))) 0xff) 0 limit ;;
      put_code_bytes n v (i + 1) count limit
  end.
Definition put_code (v n : Z) : Writer unit :=
  o ← writer write_offset;
  put_code_bytes (Z.to_nat n) v 0 n (o + 8 * n) ;;
  set_extra.

Fixpoint put_each (l : list Z) (n : nat) (i : Z) (body : Z -> Writer unit) : Writer unit :=
  match n with
  | O => mret tt
  | Datatypes.S n => x ← in_bounds (element l i); body x ;; put_each l n (i + 1) body
  end.

(** [num_windows] is always 1: no geometry follows. *)
Definition put_window : Writer unit :=
  o ← writer write_offset;
  put_byte 2 0x40 0 (o + 2) ;;
  set_extra.

Definition put_maxscl (v : Z) : Writer unit := put_field v 17 15 3.

(** The low byte of [tempBuffer]. *)
Definition put_num_percentiles (v : Z) : Writer unit :=
  o ← writer write_offset;
  temp ← temp_buffer v 4;
  put_rest (Z.land temp 0xff) (o + 4).

Fixpoint put_percentiles (d : ExynosHdrData_ST2094_40) (n : nat) (i : Z) : Writer unit :=
  match n with
  | O => mret tt
  | Datatypes.S n =>
      e ← writer write_extra;
      percentage ← in_bounds (element (maxrgb_percentages d) i);
      put_field percentage 7 25 (1 + (if 1 <? e then 1 else 0)) ;;
      percentile ← in_bounds (element (maxrgb_percentiles d) i);
      put_field percentile 17 15 3 ;;
      put_percentiles d n (i + 1)
  end.

Definition put_knee_point (v : Z) : Writer unit :=
  e ← writer write_extra;
  put_field v 12 20 (2 + (if 4 <? e then 1 else 0)).

Definition put_anchor (v : Z) : Writer unit :=
  e ← writer write_extra;
  put_field v 10 22 (2 + (if 6 <? e then 1 else 0)).

Definition put_tone_flag (present : bool) : Writer unit :=
  (if present then
     o ← writer write_offset;
     e ← writer write_extra;
     l ← writer blob;
     old ← in_bounds (element l (o `div` 8));
     l ← in_bounds (assign l (o `div` 8) (Z.lor old (1 ≪ (7 - e))));
     update (fun s => s <| blob := l |>)
   else mret tt) ;;
  leave 1.

Definition put_tone_mapping (t : hdr_tone_mapping) : Writer unit :=
  let present := negb (tone_mapping_flag t =? 0) in
  put_tone_flag present ;;
  if present then
    put_knee_point (knee_point_x t) ;;
    put_knee_point (knee_point_y t) ;;
    e ← writer write_extra;
    put_field (num_bezier_curve_anchors t) 4 28 (1 + (if 4 <? e then 1 else 0)) ;;
    put_each (bezier_curve_anchors t) (Z.to_nat (num_bezier_curve_anchors t)) 0 put_anchor
  else mret tt.

(** The flags of the luminances and of the colour saturation are not written: 0. *)
Definition put_metadata (d : ExynosHdrData_ST2094_40) : Writer unit :=
  put_code (country_code d) 1 ;;
  put_code (provider_code d) 2 ;;
  put_code (provider_oriented_code d) 2 ;;
  put_code (application_identifier d) 1 ;;
  put_code (application_version d) 1 ;;
  put_window ;;
  put_field (display_maximum_luminance d) 27 5 4 ;;
  leave 1 ;;
  put_each (maxscl d) 3 0 put_maxscl ;;
  leave 17 ;;
  put_num_percentiles (num_maxrgb_percentiles d) ;;
  put_percentiles d (Z.to_nat (num_maxrgb_percentiles d)) 0 ;;
  leave 10 ;;
  leave 1 ;;
  put_tone_mapping (tone_mapping d) ;;
  leave 1.

Definition Exynos_dynamic_meta_to_itu_t_t35 (src : ExynosHdrData_ST2094_40) (dst : list Z) : option (Z * list Z) :=
  '(_, s) ← put_metadata src {| blob := dst; write_offset := 0; write_extra := 0 |};
  Some (write_offset s `div` 8 + (if 0 <? write_extra s then 1 else 0), blob s).
