(* ===== verification/HdrSei.v ===== *)
(** * HDR10+ metadata: as an SEI message

    [src/videoapi/GenerateSei.cpp], without [USE_FULL_ST2094_40]: two NAL units of HEVC,
    the message and filler data, with emulation prevention bytes (EPB).  [write_bit_size] is an [int] that does not wrap
    around here: it overflows in buffers of [2^28] bytes and more only. *)

From S2P Require Import Prelude Effects HdrData.
#[local] Open Scope u32_scope.

Record PackedStr := {
  packed_data : Z;
  remained_bits_in_packed_data : Z;
  write_bit_size : Z;
  is_epb_on : bool;
  num_zero_byte : Z;
  num_epb : Z
}.
#[export] Instance PackedStr_fields : Fields PackedStr := fun p => {|
  packed_data := packed_data p; remained_bits_in_packed_data := remained_bits_in_packed_data p;
  write_bit_size := write_bit_size p; is_epb_on := is_epb_on p; num_zero_byte := num_zero_byte p; num_epb := num_epb p |}.

(** [pStream] is the buffer with what is in it. *)
Record BitstreamInfo := {
  pStream : list Z;
  nSize : Z;
  nIndicator : Z
}.
#[export] Instance BitstreamInfo_fields : Fields BitstreamInfo := fun b => {|
  pStream := pStream b; nSize := nSize b; nIndicator := nIndicator b |}.

(** The two structures that a writer passes around. *)
Record sei_state := {
  bs : BitstreamInfo;
  packedStr : PackedStr
}.
#[export] Instance sei_state_fields : Fields sei_state := fun s => {| bs := bs s; packedStr := packedStr s |}.

Abbreviation Sei := (ST sei_state).
Definition sei {A} (f : sei_state -> A) : Sei A := fun s => Some (f s, s).
Definition sei_set (f : sei_state -> sei_state) : Sei unit := fun s => Some (tt, f s).
Definition packed {A} (f : PackedStr -> A) : Sei A := sei (fun s => f (packedStr s)).
Definition pack (f : PackedStr -> PackedStr) : Sei unit := sei_set (fun s => s <| packedStr := f (packedStr s) |>).

Definition new_PackedStr (write_bit_size : Z) : PackedStr := {|
  packed_data := 0; remained_bits_in_packed_data := 32; write_bit_size := write_bit_size; is_epb_on := false;
  num_zero_byte := 0; num_epb := 0 |}.

(** ** Bytes *)

(** A byte of a word in memory: the processor is little-endian. *)
Definition memory_byte (w i : Z) : Z := Z.land (w ≫ (8 * i)) 0xff.

(** There is no test against [nSize]: behind the buffer the behaviour is undefined. *)
Fixpoint write_bytes (n : nat) (i w : Z) : Sei unit :=
  match n with
  | O => mret tt
  | Datatypes.S n =>
      b ← sei bs;
      match assign (pStream b) (nIndicator b) (memory_byte w i) with
      | Some l => sei_set (fun s => s <| bs := b <| pStream := l |> <| nIndicator := nIndicator b ^+ 1 |> |>)
      | None => undefined
      end ;;
      write_bytes n (i + 1) w
  end.

Definition swapdata (w : Z) : Z :=
  Z.lor (Z.lor (Z.lor (Z.land w 0x000000ff ^<< 24) (Z.land w 0x0000ff00 ^<< 8)) (Z.land w 0x00ff0000 ≫ 8)) (Z.land w 0xff000000 ≫ 24).

(** ** Emulation prevention *)

(** The masked value is [00_00_0A] with an [0A] from 0 to 3, at a position. *)
Definition upto_3 (x step : Z) : bool := (x =? 0) || (x =? step) || (x =? 2 * step) || (x =? 3 * step).

(** The word with its EPBs, of which the first four bytes are kept, and [num_epb]. *)
Definition epb_data (num_zero_byte data : Z) : Z * Z :=
  if num_zero_byte =? 2 then
    if upto_3 (Z.land data 0xFFFFFF00) 0x100 then
      (Z.lor (Z.lor 0x03000000 (Z.land data 0xFFFF0000 ≫ 8)) 0x00000003, 2)
    else if upto_3 (Z.land data 0xFF000000) 0x01000000 then
      (Z.lor 0x03000000 (Z.land data 0xFFFFFF00 ≫ 8), 1)
    else if upto_3 (Z.land data 0x00FFFFFF) 1 then
      (Z.lor (Z.land data 0xFFFFFF00) 0x00000003, 1)
    else (data, 0)
  else if num_zero_byte =? 1 then
    if upto_3 (Z.land data 0xFFFF0000) 0x00010000 then
      (Z.lor (Z.lor (Z.land data 0xFF000000) 0x00030000) (Z.land data 0x00FFFF00 ≫ 8), 1)
    else if upto_3 (Z.land data 0x00FFFFFF) 1 then
      (Z.lor (Z.land data 0xFFFFFF00) 0x00000003, 1)
    else (data, 0)
  else
    if upto_3 (Z.land data 0xFFFFFF00) 0x100 then
      (Z.lor (Z.lor (Z.land data 0xFFFF0000) 0x00000300) (Z.land data 0x0000FF00 ≫ 8), 1)
    else if upto_3 (Z.land data 0x00FFFFFF) 1 then
      (Z.lor (Z.land data 0xFFFFFF00) 0x00000003, 1)
    else (data, 0).

Definition insert_epb_data : Sei Z :=
  p ← sei packedStr;
  let '(w, n) := epb_data (num_zero_byte p) (packed_data p) in
  pack (fun p => p <| num_epb := n |>) ;;
  mret w.

(** ** Bits *)

(** A full word goes into the stream. *)
Definition write_word : Sei unit :=
  on ← packed is_epb_on;
  writedata ←
    (if (on : bool) then
       w ← insert_epb_data;
       pack (fun p =>
         let p := p <| num_zero_byte := if Z.land w 0xFFFF =? 0 then 2 else if Z.land w 0xFF =? 0 then 1 else 0 |> in
         let p := p <| write_bit_size := write_bit_size p + num_epb p * 8 |> in
         let p := p <| remained_bits_in_packed_data := 32 - num_epb p * 8 |> in
         p <| packed_data := if remained_bits_in_packed_data p =? 32 then 0
                             else packed_data p ^<< remained_bits_in_packed_data p |>) ;;
       mret w
     else
       w ← packed packed_data;
       pack (fun p => p <| remained_bits_in_packed_data := 32 |> <| packed_data := 0 |>) ;;
       mret w);
  write_bytes 4 0 (swapdata writedata).

(** A field that does not fit is split.  The recursion is on the bits that are left. *)
Fixpoint put_bits_rec (fuel : nat) (number data : Z) : Sei unit :=
  match fuel with
  | O => undefined
  | Datatypes.S fuel =>
      p ← sei packedStr;
      let remained := remained_bits_in_packed_data p in
      if number <=? remained then
        pack (fun p => p <| packed_data := Z.lor (packed_data p) (data ^<< (remained - number)) |>
                         <| remained_bits_in_packed_data := remained - number |>
                         <| write_bit_size := write_bit_size p + number |>) ;;
        (if remained - number =? 0 then write_word else mret tt)
      else
        let second_half := number - remained in
        put_bits_rec fuel remained (Z.land (data ≫ second_half) ((1 ≪ remained) - 1)) ;;
        put_bits_rec fuel second_half (Z.land data ((1 ≪ second_half) - 1))
  end.
Definition put_bits (number data : Z) : Sei unit := put_bits_rec (Datatypes.S (Z.to_nat number)) number data.

Definition flush_bitstream : Sei unit :=
  p ← sei packedStr;
  let remained := remained_bits_in_packed_data p in
  if negb (remained =? 32) then
    writedata ←
      (if is_epb_on p && ((remained =? 16) || (remained =? 8)) then
         w ← insert_epb_data;
         pack (fun p =>
           if num_epb p =? 0 then p
           else p <| write_bit_size := write_bit_size p + 8 |> <| remained_bits_in_packed_data := remained - 8 |>
                  <| packed_data := w |>) ;;
         mret w
       else packed packed_data);
    remained ← packed remained_bits_in_packed_data;
    write_bytes (Z.to_nat ((32 - remained) `div` 8)) 0 (swapdata writedata) ;;
    if remained =? 0 then pack (fun p => p <| remained_bits_in_packed_data := 32 |> <| packed_data := 0 |>) else mret tt
  else mret tt.

(** ** The message *)

Fixpoint put_elements (l : list Z) (n : nat) (i : Z) (body : Z -> Sei unit) : Sei unit :=
  match n with
  | O => mret tt
  | Datatypes.S n =>
      match element l i with Some x => body x | None => undefined end ;;
      put_elements l n (i + 1) body
  end.

Fixpoint put_sei_percentiles (data : ExynosHdrData_ST2094_40) (n : nat) (i : Z) : Sei unit :=
  match n with
  | O => mret tt
  | Datatypes.S n =>
      match element (maxrgb_percentages data) i, element (maxrgb_percentiles data) i with
      | Some percentage, Some percentile => put_bits 7 percentage ;; put_bits 17 percentile
      | _, _ => undefined
      end ;;
      put_sei_percentiles data n (i + 1)
  end.

Definition byte_align (num_bits : Z) : Z := if num_bits `mod` 8 =? 0 then 0 else 8 - num_bits `mod` 8.

Definition get_payload_size (data : ExynosHdrData_ST2094_40) : Z :=
  let num_bits := 8 + 16 + 16 + 8 + 8 + 2 in
  let num_bits := num_bits + (16 + 16 + 16 + 16 + 16 + 16 + 8 + 16 + 16 + 16 + 1) in
  let num_bits := num_bits + (27 + 1) in
  let num_bits := num_bits + 3 * 17 in
  let num_bits := num_bits + (17 + 4) in
  let num_bits := num_bits + num_maxrgb_percentiles data * (7 + 17) in
  let num_bits := num_bits + (10 + 1 + 1) in
  let t := tone_mapping data in
  let num_bits := if tone_mapping_flag t =? 1 then num_bits + (12 + 12 + 4) + num_bezier_curve_anchors t * 10 else num_bits in
  let num_bits := num_bits + 1 in
  (num_bits + byte_align num_bits) `div` 8.

Definition start_code : Sei unit := put_bits 8 0x00 ;; put_bits 8 0x00 ;; put_bits 8 0x00 ;; put_bits 8 0x01.
Definition nal_unit_header (nal_unit_type : Z) : Sei unit :=
  put_bits 1 0x00 ;; put_bits 6 nal_unit_type ;; put_bits 6 0x00 ;; put_bits 3 0x01.

(** The geometry of a window, every value of which is 1. *)
Definition put_geometry : Sei unit :=
  put_bits 16 0x01 ;; put_bits 16 0x01 ;; put_bits 16 0x01 ;; put_bits 16 0x01 ;; put_bits 16 0x01 ;; put_bits 16 0x01 ;;
  put_bits 8 0x01 ;; put_bits 16 0x01 ;; put_bits 16 0x01 ;; put_bits 16 0x01 ;; put_bits 1 0x01.

Definition put_sei_tone_mapping (t : hdr_tone_mapping) : Sei unit :=
  put_bits 1 (tone_mapping_flag t) ;;
  if tone_mapping_flag t =? 1 then
    put_bits 12 (knee_point_x t) ;;
    put_bits 12 (knee_point_y t) ;;
    put_bits 4 (num_bezier_curve_anchors t) ;;
    put_elements (bezier_curve_anchors t) (Z.to_nat (num_bezier_curve_anchors t)) 0 (put_bits 10)
  else mret tt.

Definition sei_write_2094_40 (data : ExynosHdrData_ST2094_40) : Sei unit :=
  pack (fun _ => new_PackedStr 0) ;;
  start_code ;;
  nal_unit_header 0x27 ;;
  put_bits 8 0x04 ;;
  put_bits 8 (u32 (get_payload_size data)) ;;
  put_bits 8 (country_code data) ;;
  put_bits 16 (provider_code data) ;;
  put_bits 16 (provider_oriented_code data) ;;
  put_bits 8 (application_identifier data) ;;
  put_bits 8 (application_version data) ;;
  pack (fun p => p <| is_epb_on := true |>) ;;
  put_bits 2 0x01 ;;
  put_geometry ;;
  put_bits 27 (display_maximum_luminance data) ;;
  put_bits 1 0x00 ;;
  put_elements (maxscl data) 3 0 (put_bits 17) ;;
  put_bits 17 0x01 ;;
  put_bits 4 (num_maxrgb_percentiles data) ;;
  put_sei_percentiles data (Z.to_nat (num_maxrgb_percentiles data)) 0 ;;
  put_bits 10 0x01 ;;
  put_bits 1 0x00 ;;
  put_sei_tone_mapping (tone_mapping data) ;;
  put_bits 1 0x00 ;;
  size ← packed write_bit_size;
  (if byte_align size =? 0 then mret tt else put_bits (byte_align size) 0) ;;
  put_bits 8 0x80 ;;
  flush_bitstream.

Fixpoint put_ff_bytes (n : nat) : Sei unit :=
  match n with O => mret tt | Datatypes.S n => put_bits 8 0xff ;; put_ff_bytes n end.

Definition write_filler_data_rbsp : Sei unit :=
  indicator ← sei (fun s => nIndicator (bs s));
  pack (fun _ => new_PackedStr (indicator * 8)) ;;
  start_code ;;
  nal_unit_header 0x26 ;;
  size ← sei (fun s => nSize (bs s));
  written ← packed write_bit_size;
  put_ff_bytes (Z.to_nat (s32 ((size ^- u32 (written `div` 8)) ^- 1))) ;;
  put_bits 8 0x80 ;;
  flush_bitstream.

(** What is returned, and the buffer. *)
Definition Exynos_sei_write (data : ExynosHdrData_ST2094_40) (size : Z) (stream : list Z) : option (Z * list Z) :=
  if size <=? 0 then Some (0, stream)
  else
    '(_, s) ← (sei_write_2094_40 data ;; write_filler_data_rbsp)
      {| bs := {| pStream := stream; nSize := size; nIndicator := 0 |}; packedStr := new_PackedStr 0 |};
    Some (nIndicator (bs s), pStream (bs s)).
