(* ===== verification/HdrEscape.v ===== *)
(** * Emulation prevention

    The bytes of an RBSP with an emulation prevention byte, 3, before every byte up to 3
    that follows two zeros, and that [insert_epb_data] computes them four at a time. *)

From Stdlib Require Import Btauto.
From S2P Require Import Prelude Effects HdrData HdrSei.

(** ** The reference *)

Definition is_byte (b : Z) : Prop := 0 <= b < 256.

(** [z] zeros are before the bytes. *)
Fixpoint escape (z : Z) (l : list Z) : list Z :=
  match l with
  | [] => []
  | b :: l =>
      if (z =? 2) && (b <=? 3) then 3 :: b :: escape (if b =? 0 then 1 else 0) l
      else b :: escape (if b =? 0 then z + 1 else 0) l
  end.

(** What a decoder does: it drops a 3 after two zeros. *)
Fixpoint unescape (z : Z) (l : list Z) : list Z :=
  match l with
  | [] => []
  | b :: l =>
      if (z =? 2) && (b =? 3) then unescape 0 l
      else b :: unescape (if b =? 0 then Z.min 2 (z + 1) else 0) l
  end.

(** Two zeros, after [z] zeros, before a byte up to 2: what looks like a start code. *)
Fixpoint emulates (z : Z) (l : list Z) : bool :=
  match l with
  | [] => false
  | b :: l => (z =? 2) && (b <=? 2) || emulates (if b =? 0 then Z.min 2 (z + 1) else 0) l
  end.

Lemma unescape_escape z l : 0 <= z <= 2 -> Forall is_byte l -> unescape z (escape z l) = l.
Proof.
  intros Hz Hl. revert z Hz. induction Hl as [|b l Hb Hl IH]; intros z Hz; [done|]. cbn [escape].
  destruct (Z.eqb_spec z 2) as [->|Hz2], (Z.leb_spec b 3) as [H3|H3]; cbn [andb].
  - cbn [unescape]. simpl. destruct (Z.eqb_spec b 0) as [->|]; simpl; by rewrite IH by lia.
  - cbn [unescape]. rewrite (proj2 (Z.eqb_neq b 3)), (proj2 (Z.eqb_neq b 0)) by lia. simpl. by rewrite IH by lia.
  - cbn [unescape]. rewrite (proj2 (Z.eqb_neq z 2)) by done. cbn [andb].
    destruct (Z.eqb_spec b 0); [rewrite Z.min_r by lia|]; by rewrite IH by lia.
  - cbn [unescape]. rewrite (proj2 (Z.eqb_neq z 2)) by done. cbn [andb].
    destruct (Z.eqb_spec b 0); [lia|]. by rewrite IH by lia.
Qed.

Lemma escape_no_emulation z l : 0 <= z <= 2 -> Forall is_byte l -> emulates z (escape z l) = false.
Proof.
  intros Hz Hl. revert z Hz. induction Hl as [|b l Hb Hl IH]; intros z Hz; [done|]. cbn [escape].
  destruct (Z.eqb_spec z 2) as [->|Hz2], (Z.leb_spec b 3) as [H3|H3]; cbn [andb emulates].
  - simpl. destruct (Z.eqb_spec b 0); apply IH; lia.
  - rewrite (proj2 (Z.leb_gt b 2)), (proj2 (Z.eqb_neq b 0)) by lia. simpl. apply IH. lia.
  - rewrite (proj2 (Z.eqb_neq z 2)) by done. simpl. destruct (Z.eqb_spec b 0); [rewrite Z.min_r by lia|]; apply IH; lia.
  - rewrite (proj2 (Z.eqb_neq z 2)) by done. simpl. destruct (Z.eqb_spec b 0); [lia|]. apply IH. lia.
Qed.

(** At most one byte in three is added. *)
Lemma escape_length z l : 0 <= z <= 2 -> 2 * Z.of_nat (length (escape z l)) <= 3 * Z.of_nat (length l) + z.
Proof.
  revert z. induction l as [|b l IH]; intros z Hz; [simpl; lia|]. cbn [escape].
  destruct (Z.eqb_spec z 2), (Z.leb_spec b 3), (Z.eqb_spec b 0); cbn [andb length]; try lia;
    match goal with |- context [escape ?z' l] => pose proof (IH z') end; lia.
Qed.

Lemma escape_longer z l : (length l <= length (escape z l))%nat.
Proof. revert z. induction l as [|b l IH]; intros z; [done|]. cbn [escape]. case_match; cbn [length]; match goal with |- context [escape ?z' l] => pose proof (IH z') end; lia. Qed.

(** ** Words of four bytes *)

Definition word (a b c d : Z) : Z := ((a * 256 + b) * 256 + c) * 256 + d.

Lemma split_256 x : x = x `div` 256 * 256 + x `mod` 256.
Proof. dlia. Qed.

Lemma div_256 x b : is_byte b -> (x * 256 + b) ≫ 8 = x.
Proof. unfold is_byte. intros Hb. rewrite Z.shiftr_div_pow2 by lia. change (2 ^ 8) with 256. rewrite Z.div_add_l, Z.div_small; lia. Qed.

Lemma mod_256 x b : is_byte b -> Z.land (x * 256 + b) (Z.ones 8) = b.
Proof. unfold is_byte. intros Hb. rewrite Z.land_ones by lia. change (2 ^ 8) with 256. rewrite Z.add_comm, Z.mod_add, Z.mod_small; lia. Qed.

Lemma by_256 r x b : r ≫ 8 = x -> Z.land r (Z.ones 8) = b -> r = x * 256 + b.
Proof.
  rewrite Z.shiftr_div_pow2, Z.land_ones by lia. change (2 ^ 8) with 256. intros <- <-. apply split_256.
Qed.

Lemma land_256 x y b c : is_byte b -> is_byte c -> Z.land (x * 256 + b) (y * 256 + c) = Z.land x y * 256 + Z.land b c.
Proof.
  intros Hb Hc. apply by_256; [by rewrite Z.shiftr_land, !div_256|].
  rewrite <- (mod_256 x b Hb) at 2. rewrite <- (mod_256 y c Hc) at 2.
  apply Z.bits_inj'. intros n Hn. rewrite !Z.land_spec. btauto.
Qed.

Lemma lor_256 x y b c : is_byte b -> is_byte c -> Z.lor (x * 256 + b) (y * 256 + c) = Z.lor x y * 256 + Z.lor b c.
Proof.
  intros Hb Hc. apply by_256; [by rewrite Z.shiftr_lor, !div_256|].
  rewrite <- (mod_256 x b Hb) at 2. rewrite <- (mod_256 y c Hc) at 2.
  apply Z.bits_inj'. intros n Hn. rewrite !Z.land_spec, !Z.lor_spec, !Z.land_spec. btauto.
Qed.

Section words.
Context (a b c d a' b' c' d' : Z).
Context (Ha : is_byte a) (Hb : is_byte b) (Hc : is_byte c) (Hd : is_byte d).
Context (Ha' : is_byte a') (Hb' : is_byte b') (Hc' : is_byte c') (Hd' : is_byte d').

Lemma word_land : Z.land (word a b c d) (word a' b' c' d') = word (Z.land a a') (Z.land b b') (Z.land c c') (Z.land d d').
Proof using Hb Hc Hd Hb' Hc' Hd'. unfold word. by rewrite !land_256. Qed.

Lemma word_lor : Z.lor (word a b c d) (word a' b' c' d') = word (Z.lor a a') (Z.lor b b') (Z.lor c c') (Z.lor d d').
Proof using Hb Hc Hd Hb' Hc' Hd'. unfold word. by rewrite !lor_256. Qed.

Lemma word_shr : word a b c d ≫ 8 = word 0 a b c.
Proof using Hd. unfold word. by rewrite div_256. Qed.

Lemma word_range : 0 <= word a b c d < 2 ^ 32.
Proof using Ha Hb Hc Hd. unfold word, is_byte in *. lia. Qed.
End words.

Lemma is_byte_0 : is_byte 0.
Proof. done. Qed.
Lemma is_byte_land x : is_byte x -> is_byte (Z.land x 0xff).
Proof. unfold is_byte. intros Hx. rewrite land_0xff. dlia. Qed.
Lemma land_byte x : is_byte x -> Z.land x 0xff = x.
Proof. unfold is_byte. intros Hx. rewrite land_0xff. by apply Z.mod_small. Qed.

(** ** [epb_data] on a word *)

Lemma upto_3_word_3 a b c : is_byte a -> is_byte b -> is_byte c ->
  upto_3 (word a b c 0) 0x100 = (a =? 0) && (b =? 0) && (c <=? 3).
Proof. unfold is_byte, upto_3, word. intros. apply eq_true_iff_eq. rewrite !orb_true_iff, !andb_true_iff, !Z.eqb_eq, Z.leb_le. lia. Qed.

Lemma upto_3_word_1 a : is_byte a -> upto_3 (word a 0 0 0) 0x01000000 = (a <=? 3).
Proof. unfold is_byte, upto_3, word. intros. apply eq_true_iff_eq. rewrite !orb_true_iff, !Z.eqb_eq, Z.leb_le. lia. Qed.

Lemma upto_3_word_2 a b : is_byte a -> is_byte b -> upto_3 (word a b 0 0) 0x00010000 = (a =? 0) && (b <=? 3).
Proof. unfold is_byte, upto_3, word. intros. apply eq_true_iff_eq. rewrite !orb_true_iff, !andb_true_iff, !Z.eqb_eq, Z.leb_le. lia. Qed.

Lemma upto_3_word_last b c d : is_byte b -> is_byte c -> is_byte d ->
  upto_3 (word 0 b c d) 1 = (b =? 0) && (c =? 0) && (d <=? 3).
Proof. unfold is_byte, upto_3, word. intros. apply eq_true_iff_eq. rewrite !orb_true_iff, !andb_true_iff, !Z.eqb_eq, Z.leb_le. lia. Qed.

(** The four bytes that are kept, and how many are left over. *)
Definition epb_bytes (z a b c d : Z) : (Z * Z * Z * Z) * nat :=
  if z =? 2 then
    if (a =? 0) && (b =? 0) && (c <=? 3) then ((3, a, b, 3), 2%nat)
    else if a <=? 3 then ((3, a, b, c), 1%nat)
    else if (b =? 0) && (c =? 0) && (d <=? 3) then ((a, b, c, 3), 1%nat)
    else ((a, b, c, d), 0%nat)
  else if z =? 1 then
    if (a =? 0) && (b <=? 3) then ((a, 3, b, c), 1%nat)
    else if (b =? 0) && (c =? 0) && (d <=? 3) then ((a, b, c, 3), 1%nat)
    else ((a, b, c, d), 0%nat)
  else
    if (a =? 0) && (b =? 0) && (c <=? 3) then ((a, b, 3, c), 1%nat)
    else if (b =? 0) && (c =? 0) && (d <=? 3) then ((a, b, c, 3), 1%nat)
    else ((a, b, c, d), 0%nat).

Section epb.
Context (a b c d : Z) (Ha : is_byte a) (Hb : is_byte b) (Hc : is_byte c) (Hd : is_byte d).

Lemma word_mask m1 m2 m3 m4 : is_byte m2 -> is_byte m3 -> is_byte m4 ->
  Z.land (word a b c d) (word m1 m2 m3 m4) = word (Z.land a m1) (Z.land b m2) (Z.land c m3) (Z.land d m4).
Proof using Hb Hc Hd. intros. by apply word_land. Qed.

Ltac masks :=
  change 0xFFFFFF00 with (word 0xff 0xff 0xff 0); change 0xFFFF0000 with (word 0xff 0xff 0 0);
  change 0xFF000000 with (word 0xff 0 0 0); change 0x00FFFFFF with (word 0 0xff 0xff 0xff);
  change 0x00FFFF00 with (word 0 0xff 0xff 0); change 0x0000FF00 with (word 0 0 0xff 0);
  change 0x03000000 with (word 3 0 0 0); change 0x00030000 with (word 0 3 0 0);
  change 0x00000300 with (word 0 0 3 0); change 0x00000003 with (word 0 0 0 3);
  rewrite !word_mask by done; rewrite ?Z.land_0_r, ?land_byte by done;
  rewrite !word_shr by done; rewrite !word_lor by done; rewrite ?Z.lor_0_l, ?Z.lor_0_r.

Lemma epb_data_word z : epb_data z (word a b c d) =
  let '((p, q, r, s), n) := epb_bytes z a b c d in (word p q r s, Z.of_nat n).
Proof using Ha Hb Hc Hd.
  unfold epb_data. masks. rewrite !upto_3_word_3, !upto_3_word_1, !upto_3_word_2, !upto_3_word_last by done.
  change (word 0 0 0 3) with 3. rewrite word_lor by done. rewrite ?Z.lor_0_l, ?Z.lor_0_r.
  unfold epb_bytes. by repeat case_match.
Qed.
End epb.

(** ** Words of a stream *)

(** How many zeros end a word, up to two. *)
Definition zeros (c d : Z) : Z := if (c =? 0) && (d =? 0) then 2 else if d =? 0 then 1 else 0.

(** Escaping a stream starts with the four bytes that are kept, and goes on with the
    bytes that are left over and the rest. *)
Lemma escape_word z a b c d rest : is_byte a -> is_byte b -> is_byte c -> is_byte d -> 0 <= z <= 2 ->
  let '((p, q, r, s), n) := epb_bytes z a b c d in
  escape z (a :: b :: c :: d :: rest) = p :: q :: r :: s :: escape (zeros r s) (drop (4 - n) [a; b; c; d] ++ rest).
Proof.
  intros Ha Hb Hc Hd Hz. unfold epb_bytes, zeros. unfold is_byte in *. cbn [escape].
  assert (K : z = 0 \/ z = 1 \/ z = 2) by lia.
  destruct K as [-> | [-> | ->]];
    (destruct (Z.eqb_spec a 0) as [->|?], (Z.eqb_spec b 0) as [->|?], (Z.eqb_spec c 0) as [->|?], (Z.eqb_spec d 0) as [->|?]);
    simpl; repeat (match goal with |- context [?x <=? 3] => destruct (x <=? 3) eqn:? | |- context [?x =? 0] => destruct (x =? 0) eqn:? end; simpl);
    try done; exfalso; lia.
Qed.

(** The last bytes, which end with 0x80. *)
Lemma escape_last_2 z a : is_byte a -> 0 <= z <= 2 ->
  let '((p, q, r, s), n) := epb_bytes z a 0x80 0 0 in
  (n <= 1)%nat /\ escape z [a; 0x80] = take (2 + n) [p; q; r; s].
Proof.
  intros Ha Hz. unfold epb_bytes, is_byte in *. cbn [escape].
  assert (K : z = 0 \/ z = 1 \/ z = 2) by lia. destruct K as [-> | [-> | ->]]; simpl; destruct (a =? 0) eqn:?, (a <=? 3) eqn:?; simpl; try (split; [lia|done]); lia.
Qed.

Lemma escape_last_3 z a b : is_byte a -> is_byte b -> 0 <= z <= 2 ->
  let '((p, q, r, s), n) := epb_bytes z a b 0x80 0 in
  (n <= 1)%nat /\ escape z [a; b; 0x80] = take (3 + n) [p; q; r; s].
Proof.
  intros Ha Hb Hz. unfold epb_bytes, is_byte in *. cbn [escape].
  assert (K : z = 0 \/ z = 1 \/ z = 2) by lia.
  destruct K as [-> | [-> | ->]]; simpl; destruct (a =? 0) eqn:?, (a <=? 3) eqn:?, (b =? 0) eqn:?, (b <=? 3) eqn:?; simpl;
    try (split; [lia|done]); lia.
Qed.

Lemma escape_last_1 z : escape z [0x80] = [0x80].
Proof. cbn [escape]. by rewrite andb_false_r. Qed.

(** What is kept are bytes. *)
Lemma epb_bytes_ok z a b c d : is_byte a -> is_byte b -> is_byte c -> is_byte d ->
  let '((p, q, r, s), n) := epb_bytes z a b c d in is_byte p /\ is_byte q /\ is_byte r /\ is_byte s /\ (n <= 2)%nat.
Proof. intros. unfold epb_bytes. repeat case_match; simplify_eq; do 4 (split; [done|]); lia. Qed.

(** ** Bytes in memory *)

Lemma swap_word a b c d : is_byte a -> is_byte b -> is_byte c -> is_byte d -> swapdata (word a b c d) = word d c b a.
Proof.
  intros Ha Hb Hc Hd. unfold swapdata.
  change 0x000000ff with (word 0 0 0 0xff). change 0x0000ff00 with (word 0 0 0xff 0).
  change 0x00ff0000 with (word 0 0xff 0 0). change 0xff000000 with (word 0xff 0 0 0).
  rewrite !word_mask by done. rewrite !Z.land_0_r, !land_byte by done.
  assert (E1 : u32 (word 0 0 0 d ≪ 24) = word d 0 0 0).
  { unfold u32, word, is_byte in *. rewrite Z.shiftl_mul_pow2, Z.mod_small by lia. lia. }
  assert (E2 : u32 (word 0 0 c 0 ≪ 8) = word 0 c 0 0).
  { unfold u32, word, is_byte in *. rewrite Z.shiftl_mul_pow2, Z.mod_small by lia. lia. }
  rewrite E1, E2, word_shr by done. change 24 with (8 + 8 + 8). rewrite <- !Z.shiftr_shiftr, !word_shr by done.
  repeat (rewrite word_lor by done; rewrite ?Z.lor_0_l, ?Z.lor_0_r). done.
Qed.

Lemma memory_bytes a b c d : is_byte a -> is_byte b -> is_byte c -> is_byte d ->
  map (memory_byte (word d c b a)) [0; 1; 2; 3] = [a; b; c; d].
Proof.
  intros Ha Hb Hc Hd. cbn [map]. unfold memory_byte. change (8 * 0) with 0. change (8 * 1) with 8.
  change (8 * 2) with (8 + 8). change (8 * 3) with (8 + 8 + 8). rewrite <- !Z.shiftr_shiftr, Z.shiftr_0_r, !word_shr by done.
  change 0xff with (word 0 0 0 0xff). rewrite !word_mask by done. rewrite !Z.land_0_r, !land_byte by done.
  unfold word. repeat f_equal; lia.
Qed.
