(* ===== verification/HdrPack.v ===== *)
(** * Packing bits

    The invariant of the writer of SEI messages: what is in the stream, followed by the
    bits that are packed and those that are still to come, with their emulation
    prevention bytes, is a given stream. *)

From S2P Require Import Prelude Effects HdrBits HdrData HdrSei HdrEscape.

(** ** Bytes into the stream *)

Lemma assign_next out (x b : Z) room : assign (out ++ x :: room) (Z.of_nat (length out)) b = Some (out ++ b :: room).
Proof.
  unfold assign. rewrite length_app. simpl. rewrite (proj2 (Z.leb_le 0 _)), (proj2 (Z.ltb_lt _ _)) by lia. simpl.
  by rewrite Nat2Z.id, insert_app_r_alt, Nat.sub_diag by lia.
Qed.

(** The stream with what was written, and the room behind it. *)
Definition stream_is (size : Z) (out room : list Z) (b : BitstreamInfo) : Prop :=
  b = {| pStream := out ++ room; nSize := size; nIndicator := Z.of_nat (length out) |}.

Lemma write_bytes_spec n i w size out room s : stream_is size out room (bs s) -> (n <= length room)%nat ->
  Z.of_nat (length out + n) < 2 ^ 32 ->
  ends (write_bytes n i w) s (fun _ s' => packedStr s' = packedStr s /\
    stream_is size (out ++ map (memory_byte w) (seqZ i (Z.of_nat n))) (drop n room) (bs s')).
Proof.
  revert i out room s. induction n as [|n IH]; intros i out room s Hs Hn Hl; cbn [write_bytes].
  - apply ends_ret. by rewrite drop_0, app_nil_r.
  - destruct room as [|x room]; [simpl in Hn; lia|]. simpl in Hn. eapply ends_step; [done|]. cbv beta. unfold stream_is in Hs. rewrite Hs. simpl.
    rewrite assign_next. eapply ends_step; [done|].
    eapply ends_weaken; [apply (IH (i + 1) (out ++ [memory_byte w i]) room)| ].
    + unfold stream_is. simpl. rewrite u32_small by lia. rewrite length_app, <- app_assoc. simpl. by rewrite Nat2Z.inj_add.
    + lia.
    + rewrite length_app. simpl. lia.
    + intros [] s' [Hp Hs']. split; [done|]. rewrite seqZ_cons by lia. simpl. rewrite <- app_assoc in Hs'. simpl in Hs'.
      by replace (Z.pred (Z.of_nat (Datatypes.S n))) with (Z.of_nat n) by lia.
Qed.

(** ** Full words *)

Lemma four_bytes raw pend T : Forall is_byte raw -> stream_bits raw = pend ++ T -> length pend = 32%nat ->
  exists a b c d raw', raw = a :: b :: c :: d :: raw' /\ value pend = word a b c d /\ T = stream_bits raw'.
Proof.
  intros Hr E Hl. assert (L : (8 * length raw = 32 + length T)%nat) by (rewrite <- length_stream, E, length_app; lia).
  destruct raw as [|a [|b [|c [|d raw']]]]; simpl in L; try lia.
  rewrite !Forall_cons in Hr. destruct Hr as (Ha & Hb & Hc & Hd & _). exists a, b, c, d, raw'. split; [done|].
  assert (E' : pend ++ T = (bits 8 a ++ bits 8 b ++ bits 8 c ++ bits 8 d) ++ stream_bits raw').
  { rewrite <- E, !stream_cons, <- !app_assoc. done. }
  apply app_inj_1 in E' as [-> ->]; [|by rewrite Hl, !length_app, !length_bits]. split; [|done].
  rewrite !value_app, !length_app, !length_bits, !value_bits_small by done. unfold word. simpl Z.of_nat. lia.
Qed.

(** What is packed of the bytes that are left over. *)
Lemma left_over n a b c d : is_byte a -> is_byte b -> is_byte c -> is_byte d -> (n <= 2)%nat ->
  let carry := drop (4 - n) [a; b; c; d] in
  length (stream_bits carry) = (8 * n)%nat /\
  (if 32 - Z.of_nat n * 8 =? 32 then 0 else u32 (word a b c d ≪ (32 - Z.of_nat n * 8))) =
    value (stream_bits carry) * 2 ^ (32 - Z.of_nat (8 * n)).
Proof.
  intros Ha Hb Hc Hd Hn carry. subst carry.
  assert (K : n = 0%nat \/ n = 1%nat \/ n = 2%nat) by lia.
  destruct K as [-> | [-> | ->]]; (split; [by rewrite length_stream|]); simpl drop; rewrite ?stream_cons.
  - done.
  - change (stream_bits []) with (@nil bool). rewrite app_nil_r, value_bits_small by done. simpl.
    unfold u32, word, is_byte in *. rewrite Z.shiftl_mul_pow2 by lia.
    symmetry. apply (Z.mod_unique _ _ ((a * 256 + b) * 256 + c)); lia.
  - change (stream_bits []) with (@nil bool). rewrite app_nil_r, value_app, !length_bits, !value_bits_small by done. simpl.
    unfold u32, word, is_byte in *. rewrite Z.shiftl_mul_pow2 by lia.
    symmetry. apply (Z.mod_unique _ _ (a * 256 + b)); lia.
Qed.

(** [pend] is packed: it is at the top of [packed_data]. *)
Definition packs (pend : list bool) (p : PackedStr) : Prop :=
  remained_bits_in_packed_data p = 32 - Z.of_nat (length pend) /\
  packed_data p = value pend * 2 ^ (32 - Z.of_nat (length pend)).

(** The word and the state with its EPBs, before the word is written. *)
Definition with_epbs (b : BitstreamInfo) (a' b' c' d' : Z) (n : nat) (carry : list bool) (w : Z) (s : sei_state) : Prop :=
  bs s = b /\ w = word a' b' c' d' /\ packs carry (packedStr s) /\ length carry = (8 * n)%nat /\ is_epb_on (packedStr s) = true /\
  num_zero_byte (packedStr s) = zeros c' d'.

Lemma zeros_word a b c d : is_byte a -> is_byte b -> is_byte c -> is_byte d ->
  (if Z.land (word a b c d) 0xFFFF =? 0 then 2 else if Z.land (word a b c d) 0xFF =? 0 then 1 else 0) = zeros c d.
Proof.
  intros Ha Hb Hc Hd. change 0xFF with (word 0 0 0 0xff). change 0xFFFF with (word 0 0 0xff 0xff).
  rewrite !word_mask by done. rewrite !Z.land_0_r, !land_byte by done. unfold zeros.
  assert (E1 : (word 0 0 c d =? 0) = (c =? 0) && (d =? 0)).
  { apply eq_true_iff_eq. unfold word, is_byte in *. rewrite andb_true_iff, !Z.eqb_eq. lia. }
  assert (E2 : (word 0 0 0 d =? 0) = (d =? 0)) by (unfold word; f_equal; lia).
  by rewrite E1, E2.
Qed.

Lemma packed_epbs b p a0 b0 c0 d0 : is_epb_on p = true -> packed_data p = word a0 b0 c0 d0 -> 0 <= num_zero_byte p <= 2 ->
  write_bit_size p `mod` 8 = 0 -> is_byte a0 -> is_byte b0 -> is_byte c0 -> is_byte d0 ->
  let '((p', q', r', u'), n) := epb_bytes (num_zero_byte p) a0 b0 c0 d0 in
  ends (w ← insert_epb_data;
        pack (fun p =>
         let p := p <| num_zero_byte := if Z.land w 0xFFFF =? 0 then 2 else if Z.land w 0xFF =? 0 then 1 else 0 |> in
         let p := p <| write_bit_size := write_bit_size p + num_epb p * 8 |> in
         let p := p <| remained_bits_in_packed_data := 32 - num_epb p * 8 |> in
         p <| packed_data := if remained_bits_in_packed_data p =? 32 then 0
                             else u32 (packed_data p ≪ remained_bits_in_packed_data p) |>) ;;
        mret w) {| bs := b; packedStr := p |}
    (fun w s' => with_epbs b p' q' r' u' n (stream_bits (drop (4 - n) [a0; b0; c0; d0])) w s' /\ write_bit_size (packedStr s') `mod` 8 = 0).
Proof.
  intros Hon Ep Hz Hw Ha Hb Hc Hd.
  pose proof (epb_bytes_ok (num_zero_byte p) a0 b0 c0 d0 Ha Hb Hc Hd) as Eb.
  pose proof (epb_data_word a0 b0 c0 d0 Ha Hb Hc Hd (num_zero_byte p)) as Ed.
  destruct (epb_bytes (num_zero_byte p) a0 b0 c0 d0) as [[[[p' q'] r'] u'] n]. destruct Eb as (Hp & Hq & Hr & Hu & Hn).
  destruct (left_over n a0 b0 c0 d0 Ha Hb Hc Hd Hn) as [Lc Ec].
  eapply (ends_step _ _ _ (word p' q' r' u') {| bs := b; packedStr := p <| num_epb := Z.of_nat n |> |}).
  { unfold insert_epb_data, sei, mbind, ST_bind. cbn [packedStr]. by rewrite Ep, Ed. }
  eapply ends_step; [done|]. apply ends_ret. split; [|simpl; by rewrite Z.mod_add].
  split; [done|]. split; [done|]. split; [|split; [done|split; [done|]]]; cbn -[zeros Z.mul Z.pow Z.land].
  - split; rewrite Lc; cbn -[Z.mul Z.pow]; [lia|]. rewrite Ep. exact Ec.
  - by rewrite zeros_word.
Qed.

(** Up to three bytes that are packed. *)
Lemma pad_word raw : (length raw <= 3)%nat -> Forall is_byte raw ->
  value (stream_bits raw) * 2 ^ (32 - Z.of_nat (length (stream_bits raw))) =
    match raw ++ replicate (4 - length raw) 0 with [a; b; c; d] => word a b c d | _ => 0 end.
Proof.
  intros Hl Hr. destruct raw as [|a [|b [|c [|? ?]]]]; simpl in Hl; try lia; [done|..];
    rewrite !Forall_cons in Hr; destruct Hr as (Ha & Hr); try (destruct Hr as (Hb & Hr)); try (destruct Hr as (Hc & _));
    rewrite ?stream_cons; change (stream_bits []) with (@nil bool);
    rewrite app_nil_r, ?value_app, ?length_app, ?length_bits, ?value_bits_small by done; unfold word; cbn -[Z.mul Z.add]; lia.
Qed.

(** ** The invariant *)

Section packing.
Context (epb : bool) (base : nat) (size L : Z) (R G : list Z).
Hypothesis bytes_R : Forall is_byte R.
Hypothesis size_G : Z.of_nat (length G) <= L < 2 ^ 31.

Definition emitted (z : Z) (raw : list Z) : list Z := if epb then escape z raw else raw.

(** [T] is to come. *)
Definition inv (T : list bool) (s : sei_state) : Prop :=
  exists out room pend raw pre, let p := packedStr s in
    stream_is size out room (bs s) /\ Z.of_nat (length out + length room) = L /\
    R = pre ++ raw /\ stream_bits raw = pend ++ T /\ G = out ++ emitted (num_zero_byte p) raw /\
    (length pend < 32)%nat /\ packs pend p /\ is_epb_on p = epb /\ 0 <= num_zero_byte p <= 2 /\
    (if epb then write_bit_size p `mod` 8 = Z.of_nat (length pend) `mod` 8
     else write_bit_size p = 8 * Z.of_nat (length out) + Z.of_nat (length pend) /\
       (exists k, length out = (base + 4 * k)%nat) /\ num_zero_byte p = 0).

Lemma write_four p q r u out room more s : is_byte p -> is_byte q -> is_byte r -> is_byte u ->
  stream_is size out room (bs s) -> Z.of_nat (length out + length room) = L -> G = out ++ p :: q :: r :: u :: more ->
  ends (write_bytes 4 0 (swapdata (word p q r u))) s (fun _ s' => packedStr s' = packedStr s /\
    exists room', stream_is size (out ++ [p; q; r; u]) room' (bs s') /\
      Z.of_nat (length (out ++ [p; q; r; u]) + length room') = L).
Proof using size_G.
  intros Hp Hq Hr Hu Hs Hl EG. assert (Lr : (4 <= length room)%nat).
  { rewrite EG, length_app in size_G. simpl in size_G. lia. }
  eapply ends_weaken; [by eapply write_bytes_spec; [done|done|lia]|]. intros [] s' [E1 E2]. split; [done|].
  rewrite swap_word in E2 by done. change (seqZ 0 (Z.of_nat 4)) with [0; 1; 2; 3] in E2. rewrite memory_bytes in E2 by done.
  eexists. split; [exact E2|]. rewrite length_app, length_drop. simpl. lia.
Qed.

Lemma write_word_inv b p out room pend raw pre T :
  stream_is size out room b -> Z.of_nat (length out + length room) = L ->
  R = pre ++ raw -> stream_bits raw = pend ++ T -> G = out ++ emitted (num_zero_byte p) raw ->
  length pend = 32%nat -> packed_data p = value pend -> is_epb_on p = epb -> 0 <= num_zero_byte p <= 2 ->
  (if epb then write_bit_size p `mod` 8 = 0
   else write_bit_size p = 8 * Z.of_nat (length out) + 32 /\ (exists k, length out = (base + 4 * k)%nat) /\ num_zero_byte p = 0) ->
  ends write_word {| bs := b; packedStr := p |} (fun _ s' => inv T s').
Proof using size_G bytes_R.
  intros Hs Hl ER Er EG Hp Ep Hepb Hz Hw. unfold write_word.
  assert (Hraw : Forall is_byte raw) by (rewrite ER, Forall_app in bytes_R; by destruct bytes_R).
  destruct (four_bytes raw pend T Hraw Er Hp) as (a & b0 & c & d & raw' & -> & Ev & ->).
  rewrite !Forall_cons in Hraw. destruct Hraw as (Ha & Hb & Hc & Hd & Hraw').
  eapply ends_step; [done|]. cbv beta. cbn [packedStr]. rewrite Hepb. rewrite Ev in Ep. unfold emitted in EG. unfold inv, emitted.
  destruct epb eqn:Eepb.
  - pose proof (packed_epbs b p a b0 c d Hepb Ep Hz Hw Ha Hb Hc Hd) as K.
    pose proof (escape_word (num_zero_byte p) a b0 c d raw' Ha Hb Hc Hd Hz) as Ew.
    pose proof (epb_bytes_ok (num_zero_byte p) a b0 c d Ha Hb Hc Hd) as Eb.
    destruct (epb_bytes (num_zero_byte p) a b0 c d) as [[[[p' q'] r'] u'] n]. destruct Eb as (Hp' & Hq' & Hr' & Hu' & Hn).
    rewrite Ew in EG. eapply ends_bind; [exact K|]. intros w s1 [(Eb & -> & Pk & Lk & On & Z1) W1].
    eapply ends_weaken; [eapply (write_four p' q' r' u'); [done..| |exact Hl|exact EG]; by rewrite Eb|].
    intros [] s2 [Ep2 (room' & S2 & L2)]. rewrite length_app in L2.
    exists (out ++ [p'; q'; r'; u']), room', (stream_bits (drop (4 - n) [a; b0; c; d])), (drop (4 - n) [a; b0; c; d] ++ raw'),
      (pre ++ take (4 - n) [a; b0; c; d]). rewrite Ep2.
    split; [exact S2|]. split; [rewrite length_app; exact L2|]. split; [by rewrite ER, <- app_assoc, app_assoc, app_assoc, <- (app_assoc pre), take_drop, <- app_assoc|].
    split; [by rewrite stream_app|]. split; [rewrite EG, <- app_assoc, Z1; done|]. split; [lia|].
    split; [done|]. split; [done|]. split; [rewrite Z1; unfold zeros; repeat case_match; lia|]. rewrite W1, Lk.
    by rewrite Nat2Z.inj_mul, Z.mul_comm, Z.mod_mul.
  - destruct Hw as (Hw & (k & Hk) & Hz0).
    eapply ends_bind with (Q := fun w s' => w = word a b0 c d /\ s' = {| bs := b; packedStr := p <| remained_bits_in_packed_data := 32 |> <| packed_data := 0 |> |}).
    { eapply ends_step; [done|]. eapply ends_step; [done|]. apply ends_ret. by rewrite <- Ep. }
    intros w s1 [-> ->]. eapply ends_weaken; [by eapply (write_four a b0 c d); [done..|exact Hs|exact Hl|exact EG]|].
    intros [] s2 [Ep2 (room' & S2 & L2)]. rewrite length_app in L2.
    exists (out ++ [a; b0; c; d]), room', [], raw', (pre ++ [a; b0; c; d]). rewrite Ep2.
    split; [exact S2|]. split; [rewrite length_app; exact L2|]. split; [by rewrite ER, <- app_assoc|].
    split; [done|]. split; [by rewrite EG, <- app_assoc|]. split; [simpl; lia|]. split; [done|]. split; [done|]. split; [done|].
    split; [cbn -[Z.mul]; rewrite Hw, length_app; simpl; lia|]. split; [|done]. exists (Datatypes.S k). rewrite length_app, Hk. simpl. lia.
Qed.

(** A field that fits. *)
Lemma put_fitting n v T b p out room pend raw pre : (0 < n)%nat -> 0 <= v < 2 ^ Z.of_nat n ->
  stream_is size out room b -> Z.of_nat (length out + length room) = L ->
  R = pre ++ raw -> stream_bits raw = pend ++ bits n v ++ T -> G = out ++ emitted (num_zero_byte p) raw ->
  (length pend + n <= 32)%nat -> packs pend p -> is_epb_on p = epb -> 0 <= num_zero_byte p <= 2 ->
  (if epb then write_bit_size p `mod` 8 = Z.of_nat (length pend) `mod` 8
   else write_bit_size p = 8 * Z.of_nat (length out) + Z.of_nat (length pend) /\ (exists k, length out = (base + 4 * k)%nat) /\ num_zero_byte p = 0) ->
  let rest := remained_bits_in_packed_data p - Z.of_nat n in
  ends (pack (fun p => p <| packed_data := Z.lor (packed_data p) (u32 (v ≪ rest)) |>
                     <| remained_bits_in_packed_data := rest |> <| write_bit_size := write_bit_size p + Z.of_nat n |>) ;;
        (if rest =? 0 then write_word else mret tt)) {| bs := b; packedStr := p |} (fun _ s' => inv T s').
Proof using size_G bytes_R.
  intros Hn Hv Hs Hl ER Er EG Hf [Er1 Ep] Hon Hz Hw rest.
  assert (Erest : rest = 32 - Z.of_nat (length (pend ++ bits n v))) by (unfold rest; rewrite Er1, length_app, length_bits; lia).
  assert (Epk : Z.lor (packed_data p) (u32 (v ≪ rest)) = value (pend ++ bits n v) * 2 ^ rest).
  { rewrite length_app, length_bits in Erest. assert (Hr : 0 <= rest) by lia.
    assert (Hb : v * 2 ^ rest < 2 ^ Z.of_nat n * 2 ^ rest) by nia. rewrite <- Z.pow_add_r in Hb by lia.
    assert (Hm : 2 ^ (Z.of_nat n + rest) <= 2 ^ 32) by (apply Z.pow_le_mono_r; lia).
    rewrite u32_small, Z.shiftl_mul_pow2 by (rewrite ?Z.shiftl_mul_pow2 by lia; lia).
    rewrite Ep, value_app, length_bits, value_bits_small by done.
    replace (32 - Z.of_nat (length pend)) with (Z.of_nat n + rest) by lia. rewrite Z.pow_add_r by lia.
    rewrite (lor_add (Z.of_nat n + rest)); [ring|lia| |].
    - rewrite <- Z.pow_add_r by lia. apply Z.mod_mul. lia.
    - lia. }
  rewrite app_assoc in Er.
  eapply (ends_step _ _ _ tt {| bs := b; packedStr := p <| packed_data := value (pend ++ bits n v) * 2 ^ rest |>
    <| remained_bits_in_packed_data := rest |> <| write_bit_size := write_bit_size p + Z.of_nat n |> |}); [by rewrite <- Epk|].
  destruct (Z.eqb_spec rest 0) as [E0|E0].
  - rewrite E0 in *. rewrite length_app, length_bits in Erest.
    eapply write_word_inv; [exact Hs|exact Hl|exact ER|exact Er|exact EG| | |exact Hon|exact Hz|]; cbn -[Z.mul Z.pow].
    + rewrite length_app, length_bits. lia.
    + apply Z.mul_1_r.
    + destruct epb; [|destruct Hw as [Hw Hk]; split; [rewrite Hw; lia|done]].
      rewrite <- Z.add_mod_idemp_l, Hw, Z.add_mod_idemp_l by lia.
      replace (Z.of_nat (length pend) + Z.of_nat n) with (4 * 8) by lia. done.
  - apply ends_ret. exists out, room, (pend ++ bits n v), raw, pre. cbn -[Z.mul Z.pow].
    split; [done|]. split; [done|]. split; [done|]. split; [done|]. split; [done|].
    rewrite length_app, length_bits in *. split; [lia|]. split; [split; rewrite length_app, length_bits; cbn -[Z.mul Z.pow]; [lia|by rewrite Erest]|].
    split; [done|]. split; [done|]. destruct epb.
    + rewrite <- Z.add_mod_idemp_l, Hw, Z.add_mod_idemp_l by lia. by rewrite Nat2Z.inj_add.
    + destruct Hw as [Hw Hk]. split; [rewrite Hw; lia|done].
Qed.

Lemma put_bits_rec_inv fuel n v T s : (0 < n < fuel)%nat -> (n <= 32)%nat -> 0 <= v < 2 ^ Z.of_nat n -> inv (bits n v ++ T) s ->
  ends (put_bits_rec fuel (Z.of_nat n) v) s (fun _ s' => inv T s').
Proof using size_G bytes_R.
  revert n v T s. induction fuel as [|fuel IH]; intros n v T [b p] Hn Hn32 Hv (out & room & pend & raw & pre & Hi); [lia|].
  cbn [bs packedStr] in Hi. destruct Hi as (Hs & Hl & ER & Er & EG & Hp & Pk & Hon & Hz & Hw). cbn [put_bits_rec].
  eapply ends_step; [done|]. cbv beta. cbn [packedStr]. destruct (Z.leb_spec (Z.of_nat n) (remained_bits_in_packed_data p)) as [Hle|Hgt].
  - destruct (Pk) as [Er1 _]. eapply put_fitting; try done; [lia|lia].
  - destruct (Pk) as [Er1 _]. set (m := (32 - length pend)%nat). assert (Em : remained_bits_in_packed_data p = Z.of_nat m) by lia.
    rewrite Em in *. replace (Z.of_nat n - Z.of_nat m) with (Z.of_nat (n - m)) by lia.
    assert (Eb : bits n v = bits m (v ≫ Z.of_nat (n - m)) ++ bits (n - m) v) by (rewrite <- bits_app; f_equal; lia).
    assert (Ev : forall k x, Z.land x ((1 ≪ Z.of_nat k) - 1) = x `mod` 2 ^ Z.of_nat k).
    { intros k x. rewrite Z.shiftl_1_l, <- Z.land_ones by lia. by rewrite Z.ones_equiv, <- Z.sub_1_r. }
    rewrite !Ev. eapply ends_bind.
    + apply (IH m _ (bits (n - m) v ++ T)); [lia|lia|apply Z.mod_pos_bound; lia|].
      rewrite bits_mod. exists out, room, pend, raw, pre. cbn [bs packedStr].
      split; [done|]. split; [done|]. split; [done|]. split; [by rewrite Er, Eb, <- !app_assoc|done].
    + intros [] s1 H1. apply IH; [lia|lia|apply Z.mod_pos_bound; lia|]. by rewrite bits_mod.
Qed.

Lemma put_bits_inv n v T s : (0 < n <= 32)%nat -> 0 <= v < 2 ^ Z.of_nat n -> inv (bits n v ++ T) s ->
  ends (put_bits (Z.of_nat n) v) s (fun _ s' => inv T s').
Proof using size_G bytes_R. intros Hn Hv Hi. unfold put_bits. rewrite Nat2Z.id. apply put_bits_rec_inv; [lia|lia|done|done]. Qed.

(** ** The end *)

Definition complete (s : sei_state) : Prop :=
  exists room, stream_is size G room (bs s) /\ Z.of_nat (length G + length room) = L.

Lemma write_prefix k p q r u out room s : (k <= 4)%nat -> is_byte p -> is_byte q -> is_byte r -> is_byte u ->
  stream_is size out room (bs s) -> Z.of_nat (length out + length room) = L -> G = out ++ take k [p; q; r; u] ->
  ends (write_bytes k 0 (swapdata (word p q r u))) s (fun _ s' => packedStr s' = packedStr s /\ complete s').
Proof using size_G.
  intros Hk Hp Hq Hr Hu Hs Hl EG. assert (Lo : (length out + k)%nat = length G).
  { rewrite EG, length_app, length_take. simpl. lia. }
  eapply ends_weaken; [eapply write_bytes_spec; [exact Hs|lia|lia]|]. intros [] s' [E1 E2]. split; [done|].
  rewrite swap_word in E2 by done.
  assert (Em : map (memory_byte (word u r q p)) (seqZ 0 (Z.of_nat k)) = take k [p; q; r; u]).
  { rewrite <- (memory_bytes p q r u) by done.
    assert (K : k = 0%nat \/ k = 1%nat \/ k = 2%nat \/ k = 3%nat \/ k = 4%nat) by lia. by destruct K as [-> | [-> | [-> | [-> | ->]]]]. }
  rewrite Em, <- EG in E2. exists (drop k room). split; [done|]. rewrite length_drop. lia.
Qed.

(** The rest of [flush_bitstream], after a possible EPB. *)
Lemma flush_word k p q r u out room s w : (1 <= k <= 4)%nat -> is_byte p -> is_byte q -> is_byte r -> is_byte u ->
  w = word p q r u -> remained_bits_in_packed_data (packedStr s) = 32 - 8 * Z.of_nat k ->
  stream_is size out room (bs s) -> Z.of_nat (length out + length room) = L -> G = out ++ take k [p; q; r; u] ->
  ends (remained ← packed remained_bits_in_packed_data;
        write_bytes (Z.to_nat ((32 - remained) `div` 8)) 0 (swapdata w) ;;
        if remained =? 0 then pack (fun p => p <| remained_bits_in_packed_data := 32 |> <| packed_data := 0 |>) else mret tt) s
    (fun _ s' => complete s').
Proof using size_G.
  intros Hk Hp Hq Hr Hu -> Er Hs Hl EG. eapply ends_step; [done|]. cbv beta. rewrite Er.
  replace (Z.to_nat ((32 - (32 - 8 * Z.of_nat k)) `div` 8)) with k by dlia.
  eapply ends_bind; [apply (write_prefix k p q r u out room); done || lia|]. intros [] s1 [_ C1].
  destruct (_ =? 0); [|by apply ends_ret]. by eexists _, _.
Qed.

(** With an EPB or without, the last two or three bytes. *)
Lemma flush_epb k n a b0 c p' q' r' u' out room b p : (n <= 1)%nat -> (k = 2 \/ k = 3)%nat ->
  is_byte p' -> is_byte q' -> is_byte r' -> is_byte u' -> packed_data p = word a b0 c 0 ->
  epb_data (num_zero_byte p) (word a b0 c 0) = (word p' q' r' u', Z.of_nat n) ->
  remained_bits_in_packed_data p = 32 - 8 * Z.of_nat k ->
  stream_is size out room b -> Z.of_nat (length out + length room) = L -> G = out ++ take (k + n) [p'; q'; r'; u'] ->
  ends (writedata ← (w ← insert_epb_data;
         pack (fun p =>
           if num_epb p =? 0 then p
           else p <| write_bit_size := write_bit_size p + 8 |> <| remained_bits_in_packed_data := 32 - 8 * Z.of_nat k - 8 |>
                  <| packed_data := w |>) ;;
         mret w);
        remained ← packed remained_bits_in_packed_data;
        write_bytes (Z.to_nat ((32 - remained) `div` 8)) 0 (swapdata writedata) ;;
        if remained =? 0 then pack (fun p => p <| remained_bits_in_packed_data := 32 |> <| packed_data := 0 |>) else mret tt)
    {| bs := b; packedStr := p |} (fun _ s' => complete s').
Proof using size_G.
  intros Hn Hk Hp' Hq' Hr' Hu' Ep Ed Er Hs Hl EG.
  eapply ends_bind with (Q := fun w s' => w = word p' q' r' u' /\ bs s' = b /\
    remained_bits_in_packed_data (packedStr s') = 32 - 8 * Z.of_nat (k + n)).
  - eapply (ends_step _ _ _ (word p' q' r' u') {| bs := b; packedStr := p <| num_epb := Z.of_nat n |> |}).
    { unfold insert_epb_data, sei, mbind, ST_bind. cbn [packedStr]. by rewrite Ep, Ed. }
    eapply ends_step; [done|]. apply ends_ret. split; [done|]. assert (K : n = 0%nat \/ n = 1%nat) by lia.
    destruct K as [-> | ->]; (split; [done|]).
    + transitivity (remained_bits_in_packed_data p); [done|rewrite Er; lia].
    + transitivity (32 - 8 * Z.of_nat k - 8); [done|lia].
  - intros w s1 (-> & Eb & E1). eapply (flush_word (k + n)); [lia|exact Hp'|exact Hq'|exact Hr'|exact Hu'|done|exact E1| |exact Hl|exact EG].
    by rewrite Eb.
Qed.

Lemma flush_inv s : inv [] s -> (epb = true -> last R = Some 0x80) -> ends flush_bitstream s (fun _ s' => complete s').
Proof using size_G bytes_R.
  destruct s as [b p]. intros (out & room & pend & raw & pre & Hi) Hlast. cbn [bs packedStr] in Hi.
  destruct Hi as (Hs & Hl & ER & Er & EG & Hp & [Er1 Ep] & Hon & Hz & Hw). rewrite app_nil_r in Er. subst pend.
  assert (Hraw : Forall is_byte raw) by (rewrite ER, Forall_app in bytes_R; by destruct bytes_R).
  rewrite length_stream in Hp. rewrite pad_word in Ep by (done || lia). rewrite length_stream in Er1.
  assert (Hx : epb = true -> raw = [] \/ last raw = Some 0x80).
  { intros E. specialize (Hlast E). rewrite ER, last_app in Hlast. destruct (last raw) eqn:El; [by right; rewrite Hlast|]. by left; apply last_None. }
  unfold flush_bitstream. eapply ends_step; [done|]. cbv beta. cbn [packedStr]. rewrite Er1, Hon. unfold emitted in EG.
  destruct raw as [|a [|b0 [|c [|? ?]]]]; cbn [length] in *; [| | | |lia].
  - apply ends_ret. exists room. rewrite EG. destruct epb; by rewrite app_nil_r.
  - cbn in Er1, Ep. apply Forall_cons in Hraw as [Ha _]. simpl negb. cbv iota.
    rewrite andb_false_r. eapply ends_step; [done|]. cbv beta.
    apply (flush_word 1 a 0 0 0 out room); try done; [lia|]. rewrite EG. destruct epb; [|done].
    destruct (Hx eq_refl) as [?|[= ->]]; [done|]. by rewrite escape_last_1.
  - cbn in Er1, Ep. rewrite !Forall_cons in Hraw. destruct Hraw as (Ha & Hb & _). simpl negb. cbv iota. destruct epb eqn:Eepb.
    + destruct (Hx eq_refl) as [?|[= ->]]; [done|]. pose proof (epb_data_word a 0x80 0 0 Ha Hb is_byte_0 is_byte_0 (num_zero_byte p)) as Ed.
      pose proof (epb_bytes_ok (num_zero_byte p) a 0x80 0 0 Ha Hb is_byte_0 is_byte_0) as Eb.
      pose proof (escape_last_2 (num_zero_byte p) a Ha Hz) as E2.
      destruct (epb_bytes _ _ _ _ _) as [[[[p' q'] r'] u'] n]. destruct E2 as [Hn E2], Eb as (Hp' & Hq' & Hr' & Hu' & _). rewrite E2 in EG.
      by eapply (flush_epb 2 n a 0x80 0 p' q' r' u' out room); try done; left.
    + eapply ends_step; [done|]. apply (flush_word 2 a b0 0 0 out room); done || lia.
  - cbn in Er1, Ep. rewrite !Forall_cons in Hraw. destruct Hraw as (Ha & Hb & Hc & _). simpl negb. cbv iota. destruct epb eqn:Eepb.
    + destruct (Hx eq_refl) as [?|[= ->]]; [done|]. pose proof (epb_data_word a b0 0x80 0 Ha Hb Hc is_byte_0 (num_zero_byte p)) as Ed.
      pose proof (epb_bytes_ok (num_zero_byte p) a b0 0x80 0 Ha Hb Hc is_byte_0) as Eb.
      pose proof (escape_last_3 (num_zero_byte p) a b0 Ha Hb Hz) as E3.
      destruct (epb_bytes _ _ _ _ _) as [[[[p' q'] r'] u'] n]. destruct E3 as [Hn E3], Eb as (Hp' & Hq' & Hr' & Hu' & _). rewrite E3 in EG.
      by eapply (flush_epb 3 n a b0 0x80 p' q' r' u' out room); try done; right.
    + eapply ends_step; [done|]. apply (flush_word 3 a b0 c 0 out room); done || lia.
Qed.
End packing.
