(* ===== verification/HdrMessage.v ===== *)
(** * The SEI message and the filler data

    What [Exynos_sei_write] leaves in the buffer: the message, its payload with
    emulation prevention bytes, and filler data up to the end of the buffer. *)

From S2P Require Import Prelude Effects HdrBits HdrData HdrSei HdrEscape HdrPack.

(** ** What is written *)

Definition geometry_bits : list bool :=
  bits 16 1 ++ bits 16 1 ++ bits 16 1 ++ bits 16 1 ++ bits 16 1 ++ bits 16 1 ++ bits 8 1 ++ bits 16 1 ++ bits 16 1 ++ bits 16 1 ++ bits 1 1.

Definition padding (X : list bool) : nat := (8 * ((length X + 7) / 8) - length X)%nat.
Definition to_bytes (X : list bool) : list Z := bytes_of ((length X + 7) / 8) (X ++ replicate (padding X) false).

(** The payload behind the codes. *)
Definition payload_bits (d : ExynosHdrData_ST2094_40) : list bool := bits 2 1 ++ geometry_bits ++ display_bits (plain 1 d).
Definition payload (d : ExynosHdrData_ST2094_40) : list Z := to_bytes (payload_bits d).

Definition codes_of (d : ExynosHdrData_ST2094_40) : list Z := [
  country_code d; provider_code d `div` 256; provider_code d `mod` 256;
  provider_oriented_code d `div` 256; provider_oriented_code d `mod` 256; application_identifier d; application_version d].

(** Start code, NAL unit header, payload type and size, and the codes. *)
Definition message_header (d : ExynosHdrData_ST2094_40) : list Z :=
  [0; 0; 0; 1; 0x4E; 1; 4; 7 + Z.of_nat (length (payload d))] ++ codes_of d.
Definition sei_message (d : ExynosHdrData_ST2094_40) : list Z :=
  take 12 (message_header d) ++ escape 0 (drop 12 (message_header d) ++ payload d ++ [0x80]).
Definition filler (n : nat) : list Z := [0; 0; 0; 1; 0x4C; 1] ++ replicate n 0xff ++ [0x80].

(** ** Facts on these bytes *)

Lemma padding_multiple X : (length X + padding X = 8 * ((length X + 7) / 8))%nat /\ (padding X < 8)%nat.
Proof.
  unfold padding. pose proof (Nat.div_mod_eq (length X + 7) 8). pose proof (Nat.mod_upper_bound (length X + 7) 8). lia.
Qed.

Lemma stream_to_bytes X : stream_bits (to_bytes X) = X ++ replicate (padding X) false.
Proof. apply stream_bytes_of. rewrite length_app, length_replicate. apply padding_multiple. Qed.

Lemma length_to_bytes X : length (to_bytes X) = ((length X + 7) / 8)%nat.
Proof. apply length_bytes_of. Qed.

Lemma to_bytes_range X : Forall is_byte (to_bytes X).
Proof. apply bytes_of_range. Qed.

Section message.
Context (d : ExynosHdrData_ST2094_40) (Hd : hdr_ok d).

Lemma stream_codes : stream_bits (codes_of d) = code_bits d.
Proof using Hd.
  destruct Hd. unfold codes_of, code_bits. rewrite (bits_16 (provider_code d)), (bits_16 (provider_oriented_code d)) by lia.
  rewrite !stream_cons. change (stream_bits []) with (@nil bool). by rewrite app_nil_r, <- !app_assoc.
Qed.

Lemma codes_range : Forall is_byte (codes_of d).
Proof using Hd. destruct Hd. repeat constructor; unfold is_byte; dlia. Qed.

Lemma length_payload_bits : length (payload_bits d) =
  (267 + 24 * Z.to_nat (num_maxrgb_percentiles d) + length (tone_bits (tone_mapping d)))%nat.
Proof using Hd. unfold payload_bits. rewrite !length_app, length_display by done. cbn [length bits geometry_bits app]. lia. Qed.

Lemma payload_bound : (length (payload d) <= 102)%nat.
Proof using Hd.
  unfold payload. rewrite length_to_bytes, length_payload_bits, length_tone by done. destruct Hd.
  apply (Nat.Div0.div_le_upper_bound _ 8). destruct (_ =? 0); lia.
Qed.

(** The size field is the number of bytes of the codes and the payload. *)
Lemma payload_size : get_payload_size d = 7 + Z.of_nat (length (payload d)).
Proof using Hd.
  unfold payload. rewrite length_to_bytes, length_payload_bits, length_tone by done. destruct Hd.
  unfold get_payload_size, byte_align. cbv zeta.
  assert (E : tone_mapping_flag (tone_mapping d) = 0 \/ tone_mapping_flag (tone_mapping d) = 1) by lia.
  rewrite Nat2Z.inj_div. destruct E as [-> | ->]; simpl (_ =? _); cbv iota; case_match; dlia.
Qed.

Lemma header_range : Forall is_byte (message_header d).
Proof using Hd.
  unfold message_header. apply Forall_app. split; [|apply codes_range].
  pose proof payload_bound. repeat constructor; unfold is_byte; lia.
Qed.
End message.
