(* ===== verification/HdrWrite.v ===== *)
(** * Writing the message

    Every function of the writer appends the bits of its syntax element ([puts]), and
    the two NAL units that [Exynos_sei_write] puts together are [sei_message] and
    [filler]. *)

From S2P Require Import Prelude Effects HdrBits HdrData HdrSei HdrEscape HdrPack HdrMessage.

Section puts.
Context (epb : bool) (base : nat) (size L : Z) (R G : list Z).
Hypothesis bytes_R : Forall is_byte R.
Hypothesis size_G : Z.of_nat (length G) <= L < 2 ^ 31.

#[local] Abbreviation inv := (inv epb base size L R G).

(** [o] writes the bits [X]. *)
Definition puts (o : Sei unit) (X : list bool) : Prop := forall T s, inv (X ++ T) s -> ends o s (fun _ s' => inv T s').

Lemma puts_then o X T s k (Q : unit -> sei_state -> Prop) : puts o X -> inv (X ++ T) s -> (forall s', inv T s' -> ends k s' Q) -> ends (o ;; k) s Q.
Proof. intros Ho Hs Hk. eapply ends_bind; [by apply Ho|]. intros []. apply Hk. Qed.

Lemma puts_ret : puts (mret tt) [].
Proof. intros T s Hs. by apply ends_ret. Qed.

Lemma puts_seq o o' X Y : puts o X -> puts o' Y -> puts (o ;; o') (X ++ Y).
Proof. intros H H' T s Hs. rewrite <- app_assoc in Hs. eapply puts_then; [exact H|exact Hs|]. apply H'. Qed.

Lemma puts_eq o X Y : puts o X -> X = Y -> puts o Y.
Proof. by intros H <-. Qed.

Lemma puts_bits n v : 0 < n <= 32 -> 0 <= v < 2 ^ n -> puts (put_bits n v) (bits (Z.to_nat n) v).
Proof using bytes_R size_G.
  intros Hn Hv T s Hs. rewrite <- (Z2Nat.id n) by lia. eapply put_bits_inv; [done|done|lia| |exact Hs]. rewrite Z2Nat.id by lia. done.
Qed.

Lemma puts_if (b : bool) o X o' X' : (b = true -> puts o X) -> (b = false -> puts o' X') -> puts (if b then o else o') (if b then X else X').
Proof. destruct b; auto. Qed.

Lemma puts_elements l n i body f : (forall x, x ∈ l -> puts (body x) (f x)) -> 0 <= i -> (Z.to_nat i + n <= length l)%nat ->
  puts (put_elements l n i body) (take n (drop (Z.to_nat i) l) ≫= f).
Proof.
  intros Hb. revert i. induction n as [|n IH]; intros i Hi Hl; [apply puts_ret|]. cbn [put_elements].
  destruct (lookup_lt_is_Some_2 l (Z.to_nat i)) as [x Hx]; [lia|]. unfold element. rewrite (proj2 (Z.leb_le 0 i)), Hx by done.
  rewrite (drop_S _ x) by done. cbn [take]. rewrite bind_cons. apply puts_seq; [by apply Hb, list_elem_of_lookup; eauto|].
  replace (Datatypes.S (Z.to_nat i)) with (Z.to_nat (i + 1)) by lia. apply IH; lia.
Qed.

Section metadata.
Context (d : ExynosHdrData_ST2094_40) (Hd : hdr_ok d).

Lemma puts_percentiles n i : 0 <= i -> (Z.to_nat i + n <= 15)%nat ->
  puts (put_sei_percentiles d n i) (take n (drop (Z.to_nat i) (zip (maxrgb_percentages d) (maxrgb_percentiles d))) ≫= percentile_bits).
Proof using bytes_R size_G Hd.
  destruct (ok_arrays d Hd) as (_ & E1 & E2 & _). revert i. induction n as [|n IH]; intros i Hi Hl; [apply puts_ret|]. cbn [put_sei_percentiles].
  destruct (lookup_lt_is_Some_2 (maxrgb_percentages d) (Z.to_nat i)) as [x Hx]; [lia|].
  destruct (lookup_lt_is_Some_2 (maxrgb_percentiles d) (Z.to_nat i)) as [y Hy]; [lia|].
  unfold element. rewrite (proj2 (Z.leb_le 0 i)), Hx, Hy by done.
  rewrite (drop_S _ (x, y)) by (rewrite lookup_zip_with, Hx; simpl; by rewrite Hy). cbn [take]. rewrite bind_cons. apply puts_seq.
  - pose proof (Forall_lookup_1 _ _ _ _ (ok_percentages d Hd) Hx). pose proof (Forall_lookup_1 _ _ _ _ (ok_percentiles d Hd) Hy).
    apply puts_seq; by apply puts_bits.
  - replace (Datatypes.S (Z.to_nat i)) with (Z.to_nat (i + 1)) by lia. apply IH; lia.
Qed.

Lemma puts_all_percentiles : puts (put_sei_percentiles d (Z.to_nat (num_maxrgb_percentiles d)) 0) (percentiles d ≫= percentile_bits).
Proof using bytes_R size_G Hd. apply (puts_percentiles _ 0); [done|]. destruct Hd. lia. Qed.

Lemma puts_maxscl : puts (put_elements (maxscl d) 3 0 (put_bits 17)) (maxscl d ≫= bits 17).
Proof using bytes_R size_G Hd.
  destruct (ok_arrays d Hd) as (E & _). eapply puts_eq.
  - apply (puts_elements _ _ 0 _ (bits 17)); [|done|simpl; lia].
    intros x Hx. apply puts_bits; [done|]. by apply (Forall_forall (fun v => 0 <= v < 2 ^ 17) (maxscl d)); [apply (ok_maxscl d Hd)|].
  - by rewrite drop_0, take_ge by lia.
Qed.

Lemma puts_tone : puts (put_sei_tone_mapping (tone_mapping d)) (tone_bits (tone_mapping d)).
Proof using bytes_R size_G Hd.
  destruct (ok_arrays d Hd) as (_ & _ & _ & E). destruct Hd. unfold put_sei_tone_mapping, tone_bits.
  assert (K : tone_mapping_flag (tone_mapping d) = 0 \/ tone_mapping_flag (tone_mapping d) = 1) by lia.
  destruct K as [-> | ->]; simpl (_ =? _); cbv iota.
  - apply (puts_seq _ _ [false] []); [by apply (puts_bits 1)|apply puts_ret].
  - apply (puts_seq _ _ [true]); [by apply (puts_bits 1)|]. unfold curve_bits.
    do 3 (apply puts_seq; [by apply puts_bits|]). unfold anchors. apply (puts_elements _ _ 0); [|lia|lia].
    intros x Hx. apply puts_bits; [done|]. by apply (Forall_forall (fun v => 0 <= v < 2 ^ 10) (bezier_curve_anchors (tone_mapping d))).
Qed.
End metadata.

Lemma puts_geometry : puts put_geometry geometry_bits.
Proof using bytes_R size_G. unfold put_geometry, geometry_bits. repeat (apply puts_seq; [by apply puts_bits|]). by apply puts_bits. Qed.

Lemma puts_start_code : puts start_code (stream_bits [0; 0; 0; 1]).
Proof using bytes_R size_G. eapply puts_eq; [unfold start_code; repeat (eapply puts_seq; [by apply puts_bits|]); by apply puts_bits|done]. Qed.

Lemma puts_nal_unit_header t : t = 0x27 \/ t = 0x26 -> puts (nal_unit_header t) (stream_bits [t * 2; 1]).
Proof using bytes_R size_G.
  intros Ht. eapply puts_eq; [unfold nal_unit_header; repeat (eapply puts_seq; [apply puts_bits; [done|lia]|]); by apply puts_bits|].
  by destruct Ht as [-> | ->].
Qed.

Lemma puts_ff n : puts (put_ff_bytes n) (stream_bits (replicate n 0xff)).
Proof using bytes_R size_G. induction n as [|n IH]; [apply puts_ret|]. cbn [put_ff_bytes replicate]. rewrite stream_cons. apply puts_seq; [by apply puts_bits|done]. Qed.

(** ** Positions *)

(** Without EPBs the number of bits that are written is known. *)
Lemma inv_written T s : epb = false -> inv T s -> write_bit_size (packedStr s) = 8 * Z.of_nat (length G) - Z.of_nat (length T) /\ nSize (bs s) = size.
Proof.
  intros -> (out & room & pend & raw & pre & Hs & _ & _ & Er & EG & _ & _ & _ & _ & Hw & _). split; [|by rewrite Hs].
  apply (f_equal length) in Er, EG. unfold emitted in EG. rewrite length_app in Er, EG. rewrite length_stream in Er. lia.
Qed.

(** With EPBs it is known how many bits are missing to a byte. *)
Lemma inv_align T s : epb = true -> inv T s -> byte_align (write_bit_size (packedStr s)) = Z.of_nat (length T) `mod` 8.
Proof.
  intros -> (out & room & pend & raw & pre & _ & _ & _ & Er & _ & _ & _ & _ & _ & Hw).
  apply (f_equal length) in Er. rewrite length_app, length_stream in Er. unfold byte_align. rewrite Hw.
  destruct (Z.eqb_spec (Z.of_nat (length pend) `mod` 8) 0); dlia.
Qed.

(** What is left when everything is written without EPBs. *)
Lemma inv_end s : epb = false -> inv [] s -> exists out raw room,
  stream_is size out room (bs s) /\ Z.of_nat (length out + length room) = L /\ G = out ++ raw /\ (length raw < 4)%nat /\
  (exists k, length out = (base + 4 * k)%nat) /\ packs (stream_bits raw) (packedStr s) /\ num_zero_byte (packedStr s) = 0 /\
  write_bit_size (packedStr s) = 8 * Z.of_nat (length G).
Proof.
  intros -> (out & room & pend & raw & pre & Hs & Hl & _ & Er & EG & Hp & Pk & _ & _ & Hw & Hk & Hz). unfold emitted in EG.
  rewrite app_nil_r in Er. subst pend. rewrite length_stream in Hp, Hw. exists out, raw, room.
  split; [done|]. split; [done|]. split; [done|]. split; [lia|]. split; [done|]. split; [done|]. split; [done|].
  rewrite EG, length_app. lia.
Qed.
End puts.

(** ** The two NAL units *)

Lemma stream_is_nil size L (s : sei_state) stream : bs s = {| pStream := stream; nSize := size; nIndicator := 0 |} ->
  Z.of_nat (length stream) = L -> stream_is size [] stream (bs s) /\ Z.of_nat (length (@nil Z) + length stream) = L.
Proof. intros E <-. split; [exact E|done]. Qed.

(** Before the first bit. *)
Lemma inv_start base size L R G s out room : stream_is size out room (bs s) -> Z.of_nat (length out + length room) = L ->
  G = out ++ R -> base = length out -> packedStr s = new_PackedStr (8 * Z.of_nat (length out)) ->
  inv false base size L R G (stream_bits R) s.
Proof.
  intros Hs Hl EG -> Ep. exists out, room, [], R, []. rewrite Ep. cbn -[Z.mul]. do 5 (split; [done|]). split; [lia|].
  split; [done|]. split; [done|]. split; [lia|]. split; [lia|]. split; [|done]. exists 0%nat. lia.
Qed.

(** The switch: what is packed of the codes will be escaped with the payload. *)
Lemma inv_switch size L H R G s : length H = 15%nat -> inv false 0 size L H H [] s ->
  G = take 12 H ++ escape 0 (drop 12 H ++ R) ->
  inv true 0 size L (drop 12 H ++ R) G (stream_bits R) (s <| packedStr := (packedStr s) <| is_epb_on := true |> |>).
Proof.
  intros HH Hi EG. destruct (inv_end false 0 size L H H s eq_refl Hi) as (out & raw & room & Hs & Hl & EH & Hr & (k & Hk) & [P1 P2] & Hz & Hw).
  assert (L12 : length out = 12%nat) by (rewrite EH, length_app in HH; lia).
  assert (Eo : take 12 H = out /\ drop 12 H = raw) by (rewrite EH; split; [by rewrite take_app_length'|by rewrite drop_app_length']).
  destruct Eo as [Eo Ed]. rewrite Eo, Ed in *.
  exists out, room, (stream_bits raw), (raw ++ R), []. cbn. rewrite HH in Hw. rewrite Hz, Hw, stream_app. cbn [emitted].
  rewrite length_stream. assert (length raw = 3%nat) by (rewrite EH, length_app in HH; lia).
  do 5 (split; [done|]). split; [lia|]. split; [by split|]. split; [done|]. split; [lia|]. replace (length raw) with 3%nat. done.
Qed.

Ltac put_step lem :=
  match goal with Hi : HdrPack.inv _ _ _ _ _ _ _ ?s |- _ =>
    eapply puts_then; [|exact Hi|]; [eapply lem; first [assumption | by left | by right | done | lia]|]; clear dependent s; intros s Hi
  end.

Section units.
Context (d : ExynosHdrData_ST2094_40) (Hd : hdr_ok d).
Context (size L : Z).

Let body : list Z := payload d ++ [0x80].

Lemma header_length : length (message_header d) = 15%nat.
Proof using. done. Qed.

Lemma header_stream : stream_bits (message_header d) =
  stream_bits [0; 0; 0; 1] ++ stream_bits [0x27 * 2; 1] ++ bits 8 4 ++ bits 8 (7 + Z.of_nat (length (payload d))) ++ code_bits d.
Proof using Hd. unfold message_header. rewrite stream_app, stream_codes by done. done. Qed.

Lemma body_stream : stream_bits body = payload_bits d ++ replicate (padding (payload_bits d)) false ++ bits 8 0x80.
Proof using. unfold body, payload. rewrite stream_app, stream_to_bytes, <- app_assoc. done. Qed.

Lemma sei_write_spec stream s : bs s = {| pStream := stream; nSize := size; nIndicator := 0 |} -> Z.of_nat (length stream) = L -> L < 2 ^ 31 ->
  Z.of_nat (length (sei_message d)) <= L -> 15 <= L ->
  ends (sei_write_2094_40 d) s (fun _ s' => complete size L (sei_message d) s').
Proof using Hd.
  intros Hs Hl HL Hfit H15. pose proof (header_range d Hd) as HR.
  assert (HG : Z.of_nat (length (message_header d)) <= L < 2 ^ 31) by (rewrite header_length; lia).
  assert (BR : Forall is_byte (drop 12 (message_header d) ++ body)).
  { apply Forall_app. split; [by apply Forall_drop|]. apply Forall_app. split; [apply to_bytes_range|by repeat constructor]. }
  pose proof (conj Hfit HL) as HM.
  set (s0 := {| bs := {| pStream := stream; nSize := size; nIndicator := 0 |}; packedStr := new_PackedStr 0 |}).
  assert (Hi : inv false 0 size L (message_header d) (message_header d) (stream_bits (message_header d)) s0).
  { by apply (inv_start 0 size L _ _ s0 [] stream). }
  unfold sei_write_2094_40. eapply (ends_step _ _ _ tt s0); [transitivity (Some (tt, {| bs := bs s; packedStr := new_PackedStr 0 |})); [done|by rewrite Hs]|]. clear Hs.
  rewrite header_stream in Hi. unfold code_bits in Hi. clearbody s0.
  rewrite <- (app_nil_r (bits 8 (application_version d))) in Hi.
  rewrite (payload_size d Hd). pose proof (payload_bound d Hd) as PB. rewrite u32_small by lia. pose proof Hd as [].
  put_step puts_start_code. put_step puts_nal_unit_header. do 7 put_step puts_bits.
  apply (inv_switch size L _ body (sei_message d)) in Hi; [|done|done].
  match type of Hi with HdrPack.inv _ _ _ _ _ _ _ ?s1 => eapply (ends_step _ _ _ tt s1); [done|]; revert Hi; generalize s1; clear s0; intros s0 Hi end.
  rewrite body_stream in Hi. pose proof (padding_multiple (payload_bits d)) as [_ Ep]. revert Ep Hi. generalize (padding (payload_bits d)). intros pad Ep Hi.
  unfold payload_bits, display_bits in Hi.
  cbn [metadata targeted average fraction mastering saturation plain peak_bits saturation_bits] in Hi. rewrite <- !app_assoc in Hi.
  put_step puts_bits. put_step puts_geometry. do 2 put_step puts_bits.
  put_step puts_maxscl. do 2 put_step puts_bits. put_step puts_all_percentiles. do 2 put_step puts_bits. put_step puts_tone.
  put_step puts_bits.
  pose proof (inv_align true 0 size L _ _ _ _ eq_refl Hi) as Ea.
  rewrite length_app, length_replicate, length_bits in Ea.
  eapply ends_step; [done|]. cbv beta. rewrite Ea. replace (Z.of_nat (pad + 8) `mod` 8) with (Z.of_nat pad) by dlia.
  eapply puts_then; [|exact Hi|].
  { destruct (Z.eqb_spec (Z.of_nat pad) 0) as [E0|E0]; [rewrite (Nat2Z.inj pad 0 E0); apply puts_ret|].
    eapply puts_eq; [apply puts_bits; [exact BR|exact HM|lia|lia]|]. rewrite Nat2Z.id. apply bits_0. }
  clear s0 Hi Ea. intros s0 Hi. rewrite <- (app_nil_r (bits 8 0x80)) in Hi. put_step puts_bits.
  apply (flush_inv true 0 size L _ _ BR HM s0 Hi). intros _. unfold body. by rewrite app_assoc, last_snoc.
Qed.

End units.

Lemma stream_filler n : stream_bits (filler n) = stream_bits [0; 0; 0; 1] ++ stream_bits [0x26 * 2; 1] ++ stream_bits (replicate n 0xff) ++ bits 8 0x80 ++ [].
Proof. unfold filler. rewrite !stream_app. done. Qed.

Lemma filler_range n : Forall is_byte (filler n).
Proof.
  unfold filler. apply Forall_app. split; [by repeat constructor|]. apply Forall_app. split; [|by repeat constructor].
  by apply Forall_replicate.
Qed.

Lemma length_filler n : length (filler n) = (7 + n)%nat.
Proof. unfold filler. rewrite !length_app, length_replicate. simpl. lia. Qed.

Lemma filler_spec size L M n s : complete size L M s -> 0 < size < 2 ^ 31 -> L < 2 ^ 31 ->
  Z.of_nat (length M + 7 + n) <= L -> Z.of_nat n = Z.max 0 (size - Z.of_nat (length M) - 7) ->
  ends write_filler_data_rbsp s (fun _ s' => complete size L (M ++ filler n) s').
Proof.
  intros (room & Hs & Hl) Hsize HL Hfit Hn.
  assert (HG : Z.of_nat (length (M ++ filler n)) <= L < 2 ^ 31) by (rewrite length_app, length_filler; lia).
  pose proof (filler_range n) as BR.
  unfold write_filler_data_rbsp. eapply ends_step; [done|]. cbv beta. rewrite Hs. cbn [nIndicator]. rewrite (Z.mul_comm _ 8).
  set (s0 := {| bs := bs s; packedStr := new_PackedStr (8 * Z.of_nat (length M)) |}).
  assert (Hi : inv false (length M) size L (filler n) (M ++ filler n) (stream_bits (filler n)) s0).
  { by apply (inv_start (length M) size L _ _ s0 M room). }
  eapply (ends_step _ _ _ tt s0); [done|]. rewrite stream_filler in Hi. clearbody s0.
  put_step puts_start_code. put_step puts_nal_unit_header.
  destruct (inv_written false (length M) size L _ _ _ _ eq_refl Hi) as [Ew Es].
  rewrite !length_app, length_stream, length_filler, length_replicate, length_bits in Ew. simpl length in Ew.
  eapply ends_step; [done|]. cbv beta. rewrite Es. eapply ends_step; [done|]. cbv beta.
  replace (write_bit_size (packedStr s0) `div` 8) with (Z.of_nat (length M + 6)) by dlia.
  replace (Z.to_nat _) with n.
  - put_step puts_ff. put_step puts_bits. by apply (flush_inv false (length M) size L _ _ BR HG s0 Hi).
  - rewrite (u32_small (Z.of_nat _)) by lia. unfold u32, s32. rewrite !Zminus_mod_idemp_l, Zplus_mod_idemp_l, Z.mod_small by lia. lia.
Qed.

(** How many 0xff bytes fill a buffer. *)
Definition ff_bytes (d : ExynosHdrData_ST2094_40) (size : Z) : nat := Z.to_nat (size - Z.of_nat (length (sei_message d)) - 7).

Lemma sei_write_all d size stream : hdr_ok d -> 0 < size -> Z.of_nat (length (sei_message d ++ filler (ff_bytes d size))) <= Z.of_nat (length stream) < 2 ^ 28 ->
  exists buffer, Exynos_sei_write d size stream = Some (Z.of_nat (length (sei_message d ++ filler (ff_bytes d size))), buffer) /\
    length buffer = length stream /\ sei_message d ++ filler (ff_bytes d size) `prefix_of` buffer.
Proof.
  intros Hd Hs Hl. rewrite length_app, length_filler in *. unfold ff_bytes in *. unfold Exynos_sei_write. rewrite (proj2 (Z.leb_gt size 0)) by lia.
  assert (H15 : (12 <= length (sei_message d))%nat) by (unfold sei_message; rewrite length_app, length_take, header_length; lia).
  destruct (sei_write_spec d Hd size (Z.of_nat (length stream)) stream
    {| bs := {| pStream := stream; nSize := size; nIndicator := 0 |}; packedStr := new_PackedStr 0 |}) as ([] & s1 & E1 & H1); [done|done|lia|lia|lia|].
  destruct (filler_spec size (Z.of_nat (length stream)) _ (ff_bytes d size) s1 H1) as ([] & s2 & E2 & (room & H2 & L2)); [unfold ff_bytes; lia..|].
  erewrite bind_some by exact E1. rewrite E2. simpl. rewrite H2. cbn [nIndicator pStream].
  rewrite !length_app, length_filler in *. unfold ff_bytes in *. eexists. split; [done|]. rewrite <- app_assoc. split; [rewrite !length_app, length_filler; lia|]. rewrite app_assoc. by exists room.
Qed.
