(* ===== verification/HdrPut.v ===== *)
(** * Writing the stream

    Every function of the writer sets the bits of its field behind those that are
    written already, in a buffer of zeros. *)

From S2P Require Import Prelude Effects HdrBits HdrData HdrMux HdrEscape HdrMessage.

(** ** Positions *)

(** [pre] is written, and [k] zeros follow. *)
Definition filled (pre : list bool) (k : nat) (s : hdr_writer) : Prop :=
  Forall is_byte (blob s) /\ stream_bits (blob s) = pre ++ replicate k false /\ write_offset s = Z.of_nat (length pre).
Definition filled_at (pre : list bool) (k : nat) (s : hdr_writer) : Prop :=
  filled pre k s /\ write_extra s = Z.of_nat (length pre) `mod` 8.

Lemma set_bit b byte i : is_byte b -> (i < 8)%nat -> bits 8 b !! i = Some false ->
  let b' := Z.lor b (Z.land byte (1 ≪ (7 - Z.of_nat i))) in
  is_byte b' /\ bits 8 b' = <[i := Z.testbit byte (7 - Z.of_nat i)]> (bits 8 b).
Proof.
  intros Hb Hi Hf b'. assert (Ht : forall n, 0 <= n -> Z.testbit b' n = Z.testbit b n || (Z.testbit byte n && (7 - Z.of_nat i =? n))).
  { intros n Hn. unfold b'. rewrite Z.lor_spec, Z.land_spec, Z.shiftl_1_l, Z.pow2_bits_eqb by lia. done. }
  split.
  - unfold is_byte in *. assert (E : b' `mod` 2 ^ 8 = b').
    { apply Z.bits_inj'. intros n Hn. destruct (Z.lt_ge_cases n 8); [by rewrite Z.mod_pow2_bits_low|].
      rewrite Z.mod_pow2_bits_high, Ht by lia. rewrite (proj2 (Z.eqb_neq _ n)) by lia. rewrite andb_false_r, orb_false_r.
      symmetry. rewrite <- (Z.mod_small b (2 ^ 8)) by lia. apply Z.mod_pow2_bits_high. lia. }
    rewrite <- E. apply Z.mod_pos_bound. done.
  - apply bits_ext; [by rewrite length_insert, length_bits|]. intros j Hj. rewrite Ht by lia.
    destruct (decide (i = j)) as [<-|Hij].
    + rewrite list_lookup_insert_eq by (rewrite length_bits; done). rewrite lookup_bits in Hf by done.
      assert (Hf' : Z.testbit b (Z.of_nat (8 - 1 - i)) = false) by congruence.
      replace (Z.of_nat (8 - 1 - i)) with (7 - Z.of_nat i) in * by lia. rewrite Hf', Z.eqb_refl, andb_true_r. done.
    + rewrite list_lookup_insert_ne, lookup_bits by done. rewrite (proj2 (Z.eqb_neq _ _)) by lia. by rewrite andb_false_r, orb_false_r.
Qed.

(** One bit. *)
Lemma put_bit_spec byte i pre k s : filled pre (Datatypes.S k) s -> i = (length pre mod 8)%nat ->
  ends (put_bit byte (Z.of_nat i)) s (fun _ s' => filled (pre ++ [Z.testbit byte (7 - Z.of_nat i)]) k s' /\ write_extra s' = write_extra s).
Proof.
  intros (Hb & Es & Eo) Hi. assert (Hl : (length pre < 8 * length (blob s))%nat).
  { rewrite <- length_stream, Es, length_app. simpl. lia. }
  assert (Hd : (length pre / 8 < length (blob s))%nat) by (apply Nat.Div0.div_lt_upper_bound; lia).
  destruct (lookup_lt_is_Some_2 (blob s) (length pre / 8)) as [b E]; [done|].
  assert (Bb : is_byte b) by exact (Forall_lookup_1 _ _ _ _ Hb E).
  assert (Hf : bits 8 b !! i = Some false).
  { rewrite Hi, <- (lookup_stream (blob s)), Es by done. rewrite lookup_app_r, Nat.sub_diag by lia. done. }
  pose proof (Nat.mod_upper_bound (length pre) 8).
  destruct (set_bit b byte i Bb ltac:(lia) Hf) as [Bb' Eb].
  unfold put_bit. do 2 (eapply ends_step; [done|]; cbv beta).
  assert (Eq : write_offset s `div` 8 = Z.of_nat (length pre / 8)) by (rewrite Eo, Nat2Z.inj_div; done).
  rewrite Eq. unfold element, assign. rewrite (proj2 (Z.leb_le 0 _)), (proj2 (Z.ltb_lt _ _)), !Nat2Z.id, E by lia.
  cbn [andb]. eapply ends_step; [done|]. cbv beta. eapply ends_step; [done|]. cbv beta.
  set (b' := Z.lor b (Z.land byte (1 ≪ (7 - Z.of_nat i)))) in *.
  apply (ends_eq _ _ tt {| blob := <[(length pre / 8)%nat := b']> (blob s); write_offset := write_offset s + 1; write_extra := write_extra s |}); [done|].
  split; [|done]. split; [|split]; cbn [blob write_offset].
  - by apply Forall_insert.
  - rewrite (stream_insert _ _ b _ (Z.testbit byte (7 - Z.of_nat i))) by (done || by rewrite <- Hi). rewrite Es.
    rewrite insert_app_r_alt, Nat.sub_diag by lia. by rewrite <- app_assoc.
  - rewrite length_app, Eo. simpl. lia.
Qed.

(** The bits of a byte from [j] on, up to the limit. *)
Lemma put_byte_spec byte n j m pre k s : filled pre (m + k) s -> j = (length pre mod 8)%nat -> (j + n <= 8)%nat ->
  (0 < m)%nat ->
  ends (put_byte n byte (Z.of_nat j) (Z.of_nat (length pre + m))) s
    (fun _ s' => filled (pre ++ take (m `min` n) (drop j (bits 8 byte))) (m + k - m `min` n) s' /\ write_extra s' = write_extra s).
Proof.
  revert j m pre s. induction n as [|n IH]; intros j m pre s Hs Hj Hn Hm; cbn [put_byte].
  - apply ends_ret. rewrite Nat.min_0_r, take_0, app_nil_r, Nat.sub_0_r. done.
  - destruct m as [|m]; [lia|]. eapply ends_bind; [by apply (put_bit_spec byte j pre (m + k))|]. intros [] s1 [H1 X1].
    assert (Eb : drop j (bits 8 byte) = Z.testbit byte (7 - Z.of_nat j) :: drop (Datatypes.S j) (bits 8 byte)).
    { apply drop_S. rewrite lookup_bits by lia. do 2 f_equal. lia. }
    eapply ends_step; [done|]. cbv beta. destruct H1 as (B1 & S1 & O1). rewrite O1, length_app, Nat2Z.inj_add. change (Z.of_nat (length [Z.testbit byte (7 - Z.of_nat j)])) with 1.
    destruct (Z.eqb_spec (Z.of_nat (length pre) + 1) (Z.of_nat (length pre + Datatypes.S m))) as [E|E].
    + apply ends_ret. assert (m = 0%nat) as -> by lia. rewrite Eb. split; [|exact X1]. refine (conj B1 (conj _ _)); [|exact O1].
      replace (1 + k - 1 `min` Datatypes.S n)%nat with (0 + k)%nat by lia. exact S1.
    + destruct m as [|m]; [lia|].
      replace (length pre + Datatypes.S (Datatypes.S m))%nat with (length (pre ++ [Z.testbit byte (7 - Z.of_nat j)]) + Datatypes.S m)%nat by (rewrite length_app; simpl; lia).
      replace (Z.of_nat j + 1) with (Z.of_nat (Datatypes.S j)) by lia.
      destruct (decide (n = 0)%nat) as [->|Hn0].
      { apply ends_ret. rewrite Eb. split; [|exact X1]. refine (conj B1 (conj _ _)); [|exact O1].
        replace (Datatypes.S (Datatypes.S m) + k - Datatypes.S (Datatypes.S m) `min` 1)%nat with (Datatypes.S m + k)%nat by lia. exact S1. }
      eapply ends_weaken; [apply (IH (Datatypes.S j) (Datatypes.S m))|]; [by split|rewrite length_app; simpl|lia|lia|].
      * rewrite Nat.add_1_r, Hj. pose proof (Nat.div_mod_eq (length pre) 8) as D. pose proof (Nat.mod_upper_bound (length pre) 8).
        apply (Nat.mod_unique _ 8 (length pre / 8)); lia.
      * intros [] s' [Hs' X']. rewrite Eb. rewrite <- app_assoc in Hs'.
        replace (Datatypes.S (Datatypes.S m) `min` Datatypes.S n)%nat with (Datatypes.S (Datatypes.S m `min` n)) by lia. cbn [take].
        split; [|congruence]. replace (Datatypes.S (Datatypes.S m) + k - Datatypes.S (Datatypes.S m `min` n))%nat with (Datatypes.S m + k - Datatypes.S m `min` n)%nat by lia. done.
Qed.

Lemma put_rest_spec byte m pre k s e : filled_at pre (m + k) s -> e = (length pre mod 8)%nat -> (0 < m)%nat ->
  ends (put_rest byte (Z.of_nat (length pre + m))) s
    (fun _ s' => filled_at (pre ++ take (m `min` (8 - e)) (drop e (bits 8 byte))) (m + k - m `min` (8 - e)) s').
Proof.
  intros [Hs Hx] He Hm. unfold put_rest. eapply ends_step; [done|]. cbv beta. rewrite Hx.
  pose proof (Nat.mod_upper_bound (length pre) 8). replace (Z.of_nat (length pre) `mod` 8) with (Z.of_nat e) by (rewrite He, Nat2Z.inj_mod; done).
  replace (Z.to_nat (8 - Z.of_nat e)) with (8 - e)%nat by lia.
  eapply ends_bind; [apply (put_byte_spec byte (8 - e) e m pre k); [done|done|lia|done]|]. intros [] s1 [H1 _].
  eapply ends_eq; [done|]. destruct H1 as (B1 & S1 & O1). split; [done|]. cbn [write_extra]. by rewrite O1.
Qed.

(** ** Fields *)

Lemma bits_buffer temp i : (i < 4)%nat -> bits 8 (buffer_byte temp (Z.of_nat i)) = take 8 (drop (8 * i) (bits 32 temp)).
Proof.
  intros Hi. apply bits_ext; [rewrite length_take, length_drop, length_bits; lia|]. intros j Hj.
  rewrite lookup_take_lt, lookup_drop, lookup_bits by lia. unfold buffer_byte. change 0xff with (Z.ones 8).
  rewrite Z.land_spec, Z.shiftr_spec, Z.testbit_ones_nonneg, (proj2 (Z.ltb_lt _ 8)), andb_true_r by lia. do 2 f_equal. lia.
Qed.

Lemma put_bytes_spec temp n i m pre k s : filled_at pre (m + k) s -> (0 < m)%nat ->
  let p := (8 * i + (length pre mod 8))%nat in
  (p + m <= 8 * (i + n) < p + m + 8)%nat -> (i + n <= 4)%nat ->
  ends (put_bytes n (Z.of_nat i) temp (Z.of_nat (length pre + m))) s (fun _ s' => filled_at (pre ++ take m (drop p (bits 32 temp))) k s').
Proof.
  revert i m pre s. induction n as [|n IH]; intros i m pre s Hs Hm p Hp Hi; [subst p; lia|]. cbn [put_bytes].
  pose proof (Nat.mod_upper_bound (length pre) 8 ltac:(lia)) as He. pose proof (Nat.div_mod_eq (length pre) 8) as D.
  subst p. set (e := (length pre mod 8)%nat) in *.
  eapply ends_bind; [apply (put_rest_spec _ m pre k s e); [exact Hs|done|exact Hm]|]. intros [] s1 H1. rewrite bits_buffer in H1 by lia.
  rewrite skipn_firstn_comm, drop_drop, take_take in H1.
  replace ((m `min` (8 - e)) `min` (8 - e))%nat with (m `min` (8 - e))%nat in H1 by lia.
  destruct (decide (m <= 8 - e)%nat) as [Hle|Hgt].
  - replace n with 0%nat by lia. apply ends_ret. replace (m `min` (8 - e))%nat with m in H1 by lia.
    by replace (m + k - m)%nat with k in H1 by lia.
  - replace (m `min` (8 - e))%nat with (8 - e)%nat in H1 by lia. set (B := bits 32 temp) in *.
    pose proof (take_take_drop (drop (8 * i + e) B) (8 - e) (m - (8 - e))) as Et. rewrite (drop_drop B) in Et.
    replace (8 - e + (m - (8 - e)))%nat with m in Et by lia.
    rewrite <- Et, app_assoc.
    set (pre' := pre ++ take (8 - e) (drop (8 * i + e) B)) in *.
    assert (Lp : length pre' = (length pre + (8 - e))%nat).
    { unfold pre', B. rewrite length_app, length_take, length_drop, length_bits. lia. }
    assert (Z0 : (length pre' mod 8 = 0)%nat) by (rewrite Lp; symmetry; apply (Nat.mod_unique _ 8 (length pre / 8 + 1)); lia).
    replace (length pre + m)%nat with (length pre' + (m - (8 - e)))%nat by lia.
    replace (Z.of_nat i + 1) with (Z.of_nat (Datatypes.S i)) by lia.
    eapply ends_weaken; [apply (IH (Datatypes.S i) (m - (8 - e))%nat pre'); rewrite ?Z0; try lia|].
    + by replace (m - (8 - e) + k)%nat with (m + k - (8 - e))%nat by lia.
    + intros [] s' H'. rewrite Z0 in H'. by replace (8 * i + e + (8 - e))%nat with (8 * Datatypes.S i + 0)%nat by lia.
Qed.

Lemma shifted_bits v n e : (n + e <= 32)%nat -> 0 <= v < 2 ^ Z.of_nat n ->
  take n (drop e (bits 32 (u32 (v ≪ Z.of_nat (32 - n - e))))) = bits n v.
Proof.
  intros Hl Hv. set (r := (32 - n - e)%nat). set (W := replicate e false ++ bits n v ++ replicate r false).
  assert (LW : length W = 32%nat) by (unfold W; rewrite !length_app, !length_replicate, length_bits; lia).
  assert (E : bits 32 (u32 (v ≪ Z.of_nat r)) = W).
  { apply value_inj; [by rewrite LW, length_bits|]. rewrite value_bits. change (2 ^ Z.of_nat 32) with (2 ^ 32). unfold u32. rewrite Z.mod_mod by done.
    unfold W. rewrite <- !bits_0, !value_app, !value_bits, !length_bits, !Z.mod_0_l by lia.
    rewrite (Z.mod_small v), Z.shiftl_mul_pow2, Z.mul_0_l, Z.add_0_l, Z.add_0_r by lia. apply Z.mod_small.
    assert (B : v * 2 ^ Z.of_nat r < 2 ^ Z.of_nat n * 2 ^ Z.of_nat r) by nia. rewrite <- Z.pow_add_r in B by lia.
    assert (M : 2 ^ (Z.of_nat n + Z.of_nat r) <= 2 ^ 32) by (apply Z.pow_le_mono_r; lia). lia. }
  rewrite E. unfold W. rewrite drop_app_length' by (by rewrite length_replicate). by rewrite take_app_length' by (by rewrite length_bits).
Qed.

(** A field of [n] bits, with the number of bytes that it touches. *)
Lemma put_field_spec v n shift count pre k s : filled_at pre (n + k) s -> (0 < n)%nat -> 0 <= v < 2 ^ Z.of_nat n ->
  shift = 32 - Z.of_nat n -> (n + (length pre mod 8) <= 32)%nat -> count = (Z.of_nat (length pre) `mod` 8 + Z.of_nat n + 7) `div` 8 ->
  ends (put_field v (Z.of_nat n) shift count) s (fun _ s' => filled_at (pre ++ bits n v) k s').
Proof.
  intros Hs Hn Hv -> Hf ->. destruct (Hs) as [(_ & _ & Ho) Hx]. pose proof (Nat.mod_upper_bound (length pre) 8 ltac:(lia)) as He.
  assert (Ex : Z.of_nat (length pre) `mod` 8 = Z.of_nat (length pre mod 8)) by (rewrite Nat2Z.inj_mod; done).
  unfold put_field. eapply ends_step; [done|]. cbv beta. rewrite Ho. unfold temp_buffer. rewrite Ex in *.
  set (e := (length pre mod 8)%nat) in *.
  eapply (ends_step _ _ _ (u32 (v ≪ Z.of_nat (32 - n - e))) s).
  { erewrite bind_some by reflexivity. cbv beta. rewrite Hx, (proj2 (Z.leb_le 0 _)) by lia. unfold in_bounds. do 4 f_equal. lia. }
  rewrite <- (Nat2Z.inj_add e n), <- (Nat2Z.inj_add (length pre) n). set (c := Z.to_nat _).
  assert (Hc : (e + n <= 8 * c < e + n + 8)%nat) by (unfold c; dlia).
  eapply ends_weaken; [apply (put_bytes_spec _ c 0 n pre k); [done|done|fold e; lia|lia]|].
  intros [] s' H'. fold e in H'. rewrite Nat.mul_0_r, Nat.add_0_l, shifted_bits in H' by (done || lia). done.
Qed.

Lemma leave_spec n pre k s : filled_at pre (n + k) s -> ends (leave (Z.of_nat n)) s (fun _ s' => filled_at (pre ++ bits n 0) k s').
Proof.
  intros [(Hb & Es & Eo) Ex]. rewrite bits_0.
  apply (ends_eq _ _ tt {| blob := blob s; write_offset := write_offset s + Z.of_nat n; write_extra := (write_offset s + Z.of_nat n) `mod` 8 |}); [done|].
  assert (E : write_offset s + Z.of_nat n = Z.of_nat (length (pre ++ replicate n false))) by (rewrite length_app, length_replicate; lia).
  split; [split; [|split]|]; cbn [blob write_offset write_extra]; [done| |done|by rewrite E].
  by rewrite Es, replicate_add, app_assoc.
Qed.

(** ** The functions *)

(** [o] sets the bits [X]. *)
Definition sets (o : Writer unit) (X : list bool) : Prop :=
  forall pre k s, filled_at pre (length X + k) s -> ends o s (fun _ s' => filled_at (pre ++ X) k s').

Lemma sets_ret : sets (mret tt) [].
Proof. intros pre k s Hs. apply ends_ret. by rewrite app_nil_r. Qed.

Lemma sets_seq o o' X Y : sets o X -> sets o' Y -> sets (o ;; o') (X ++ Y).
Proof.
  intros H H' pre k s Hs. rewrite length_app, <- Nat.add_assoc in Hs. eapply ends_bind; [by apply H|]. intros [] s1 H1.
  rewrite app_assoc. by apply H'.
Qed.

Lemma sets_then o X Y pre k s kont (Q : unit -> hdr_writer -> Prop) : sets o X -> filled_at pre (length (X ++ Y) + k) s ->
  (forall s', filled_at (pre ++ X) (length Y + k) s' -> ends kont s' Q) -> ends (o ;; kont) s Q.
Proof.
  intros Ho Hs Hk. rewrite length_app, <- Nat.add_assoc in Hs. eapply ends_bind; [by apply Ho|]. intros []. apply Hk.
Qed.

Lemma sets_leave n : 0 <= n -> sets (leave n) (bits (Z.to_nat n) 0).
Proof. intros Hn pre k s Hs. rewrite length_bits in Hs. rewrite <- (Z2Nat.id n) at 1 by done. by apply leave_spec. Qed.

(** A field whose number of bytes depends on the position. *)
Lemma sets_field v n shift (count : Z -> Z) : 0 < n <= 25 -> 0 <= v < 2 ^ n -> shift = 32 - n ->
  (forall e, 0 <= e < 8 -> count e = (e + n + 7) `div` 8) ->
  sets (e ← writer write_extra; put_field v n shift (count e)) (bits (Z.to_nat n) v).
Proof.
  intros Hn Hv -> Hc pre k s Hs. rewrite length_bits in Hs. pose proof (Nat.mod_upper_bound (length pre) 8).
  eapply ends_step; [done|]. cbv beta. destruct (Hs) as [_ Hx]. rewrite Hx. rewrite <- (Z2Nat.id n) at 1 2 by lia.
  apply put_field_spec; [done|lia|rewrite Z2Nat.id by lia; done|done|lia|]. rewrite Hc, Z2Nat.id by dlia. done.
Qed.

Lemma sets_ext o o' X : (forall s, o' s = o s) -> sets o X -> sets o' X.
Proof. intros E H pre k s Hs. unfold ends. rewrite E. by apply H. Qed.

(** A function that needs a position. *)
Definition sets_at (e : nat) (o : Writer unit) (X : list bool) : Prop :=
  forall pre k s, (length pre mod 8 = e)%nat -> filled_at pre (length X + k) s -> ends o s (fun _ s' => filled_at (pre ++ X) k s').

Lemma sets_anywhere e o X : sets o X -> sets_at e o X.
Proof. intros H pre k s _. apply H. Qed.

Lemma sets_at_seq e o o' X Y : sets_at e o X -> sets_at ((e + length X) mod 8) o' Y -> sets_at e (o ;; o') (X ++ Y).
Proof.
  intros H H' pre k s He Hs. rewrite length_app, <- Nat.add_assoc in Hs. eapply ends_bind; [by apply H|]. intros [] s1 H1.
  rewrite app_assoc. apply H'; [|done]. rewrite length_app, <- He. symmetry. apply Nat.Div0.add_mod_idemp_l.
Qed.

Lemma aligned_byte byte m pre k s : filled pre (m + k) s -> (length pre mod 8 = 0)%nat -> (8 <= m)%nat ->
  ends (put_byte 8 byte 0 (Z.of_nat (length pre + m))) s (fun _ s' => filled (pre ++ bits 8 byte) (m + k - 8) s').
Proof.
  intros Hs He Hm. eapply ends_weaken; [apply (put_byte_spec byte 8 0 m pre k); done || lia|]. intros [] s' [H _].
  rewrite drop_0, take_ge in H by (rewrite length_bits; lia). by replace (m `min` 8)%nat with 8%nat in H by lia.
Qed.

Lemma set_extra_spec pre k s : filled pre k s -> ends set_extra s (fun _ s' => filled_at pre k s').
Proof. intros H. eapply ends_eq; [done|]. destruct H as (B & E & O). split; [done|]. cbn [write_extra]. by rewrite O. Qed.

Lemma bits_low_byte x : bits 8 (Z.land x 0xff) = bits 8 x.
Proof. change 0xff with (Z.ones (Z.of_nat 8)). rewrite Z.land_ones by lia. apply bits_mod. Qed.

Lemma put_code_bytes_spec v n i pre k s : filled pre (8 * n + k) s -> (length pre mod 8 = 0)%nat ->
  ends (put_code_bytes n v i (i + Z.of_nat n) (Z.of_nat (length pre + 8 * n))) s (fun _ s' => filled (pre ++ bits (8 * n) v) k s').
Proof.
  revert i pre s. induction n as [|n IH]; intros i pre s Hs He; cbn [put_code_bytes].
  - apply ends_ret. by rewrite app_nil_r.
  - replace (8 * (i + Z.of_nat (Datatypes.S n) - 1 - i)) with (Z.of_nat (8 * n)) by lia.
    eapply ends_bind; [apply (aligned_byte _ (8 * Datatypes.S n) pre k); [done|done|lia]|]. intros [] s1 H1. rewrite bits_low_byte in H1.
    replace (8 * Datatypes.S n)%nat with (8 + 8 * n)%nat in * by lia. rewrite bits_app, app_assoc.
    set (pre' := pre ++ bits 8 _) in *. assert (L : length pre' = (length pre + 8)%nat) by (unfold pre'; by rewrite length_app, length_bits).
    replace (length pre + (8 + 8 * n))%nat with (length pre' + 8 * n)%nat by lia.
    replace (i + Z.of_nat (Datatypes.S n)) with ((i + 1) + Z.of_nat n) by lia. apply IH.
    + by replace (8 * n + k)%nat with (8 + 8 * n + k - 8)%nat by lia.
    + rewrite L. pose proof (Nat.Div0.mod_add (length pre) 1 8) as E. by rewrite Nat.mul_1_l in E; rewrite E.
Qed.

Lemma sets_code v n : 0 <= n -> sets_at 0 (put_code v n) (bits (8 * Z.to_nat n) v).
Proof.
  intros Hn pre k s He [Hs _]. rewrite length_bits in Hs. unfold put_code. eapply ends_step; [done|]. cbv beta.
  destruct (Hs) as (_ & _ & Ho). rewrite Ho.
  replace (Z.of_nat (length pre) + 8 * n) with (Z.of_nat (length pre + 8 * Z.to_nat n)) by lia.
  pose proof (put_code_bytes_spec v (Z.to_nat n) 0 pre k s Hs He) as H. rewrite Z.add_0_l, Z2Nat.id in H by done.
  eapply ends_bind; [exact H|]. intros [] s1. apply set_extra_spec.
Qed.

(** The number of windows, 1. *)
Lemma sets_window : sets_at 0 put_window (bits 2 1).
Proof.
  intros pre k s He [Hs _]. unfold put_window. eapply ends_step; [done|]. cbv beta. destruct (Hs) as (_ & _ & Ho). rewrite Ho.
  replace (Z.of_nat (length pre) + 2) with (Z.of_nat (length pre + 2)) by lia.
  eapply ends_bind; [apply (put_byte_spec 0x40 2 0 2 pre k); done || lia|]. intros [] s1 [H1 _]. apply set_extra_spec.
  replace (2 + k - 2 `min` 2)%nat with k in H1 by lia. exact H1.
Qed.

Lemma sets_luminance v : 0 <= v < 2 ^ 27 -> sets_at 2 (put_field v 27 5 4) (bits 27 v).
Proof. intros Hv pre k s He Hs. rewrite length_bits in Hs. apply (put_field_spec v 27 5 4); [done|lia|done|done|lia|]. rewrite <- (Nat2Z.inj_mod _ 8), He. done. Qed.

Lemma sets_17 v : 0 <= v < 2 ^ 17 -> sets (put_field v 17 15 3) (bits 17 v).
Proof.
  intros Hv. eapply sets_ext; [|apply (sets_field v 17 15 (fun _ => 3))]; [by intros s|done|done|done|].
  intros e He. dlia.
Qed.

Lemma sets_num_percentiles v : 0 <= v < 2 ^ 4 -> sets_at 2 (put_num_percentiles v) (bits 4 v).
Proof.
  intros Hv pre k s He Hs. rewrite length_bits in Hs. unfold put_num_percentiles. eapply ends_step; [done|]. cbv beta.
  destruct (Hs) as [(_ & _ & Ho) Hx]. rewrite Ho. replace (Z.of_nat (length pre) + 4) with (Z.of_nat (length pre + 4)) by lia.
  unfold temp_buffer. eapply (ends_step _ _ _ (v * 4) s).
  { erewrite bind_some by reflexivity. cbv beta. rewrite Hx, <- (Nat2Z.inj_mod _ 8), He. change (4 - Z.of_nat 2) with 2. cbv iota beta.
    change (in_bounds (Some (u32 (v ≪ 2))) s = Some (v * 4, s)). rewrite u32_small; rewrite Z.shiftl_mul_pow2 by lia; [done|lia]. }
  eapply ends_weaken; [apply (put_rest_spec _ 4 pre k s 2); [exact Hs|by rewrite He|lia]|]. intros [] s' H'. rewrite bits_low_byte in H'.
  change (4 `min` (8 - 2))%nat with 4%nat in H'.
  assert (E : take 4 (drop 2 (bits 8 (v * 4))) = bits 4 v).
  { symmetry. apply bits_ext; [by rewrite length_take, length_drop, length_bits|]. intros i Hi.
    rewrite lookup_take_lt, lookup_drop, lookup_bits by lia. change (v * 4) with (v * 2 ^ 2).
    rewrite Z.mul_pow2_bits by lia. do 2 f_equal. lia. }
  rewrite E in H'. by replace (4 + k - 4)%nat with k in H' by lia.
Qed.

Lemma sets_each l n i body f : (forall x, x ∈ l -> sets (body x) (f x)) -> 0 <= i -> (Z.to_nat i + n <= length l)%nat ->
  sets (put_each l n i body) (take n (drop (Z.to_nat i) l) ≫= f).
Proof.
  intros Hb. revert i. induction n as [|n IH]; intros i Hi Hl; [apply sets_ret|]. cbn [put_each].
  destruct (lookup_lt_is_Some_2 l (Z.to_nat i)) as [x Hx]; [lia|]. rewrite (drop_S _ x) by done. cbn [take]. rewrite bind_cons.
  eapply (sets_ext (body x ;; put_each l n (i + 1) body)).
  { intros s. erewrite bind_some; [done|]. unfold element. by rewrite (proj2 (Z.leb_le 0 i)), Hx. }
  apply sets_seq; [by apply Hb, list_elem_of_lookup; eauto|].
  replace (Datatypes.S (Z.to_nat i)) with (Z.to_nat (i + 1)) by lia. apply IH; lia.
Qed.

Section metadata.
Context (d : ExynosHdrData_ST2094_40) (Hd : hdr_ok d).

Lemma sets_percentiles n i : 0 <= i -> (Z.to_nat i + n <= 15)%nat ->
  sets (put_percentiles d n i) (take n (drop (Z.to_nat i) (zip (maxrgb_percentages d) (maxrgb_percentiles d))) ≫= percentile_bits).
Proof using Hd.
  destruct (ok_arrays d Hd) as (_ & E1 & E2 & _). revert i. induction n as [|n IH]; intros i Hi Hl; [apply sets_ret|].
  destruct (lookup_lt_is_Some_2 (maxrgb_percentages d) (Z.to_nat i)) as [x Hx]; [lia|].
  destruct (lookup_lt_is_Some_2 (maxrgb_percentiles d) (Z.to_nat i)) as [y Hy]; [lia|].
  rewrite (drop_S _ (x, y)) by (rewrite lookup_zip_with, Hx; simpl; by rewrite Hy). cbn [take]. rewrite bind_cons.
  pose proof (Forall_lookup_1 _ _ _ _ (ok_percentages d Hd) Hx). pose proof (Forall_lookup_1 _ _ _ _ (ok_percentiles d Hd) Hy).
  eapply (sets_ext ((e ← writer write_extra; put_field x 7 25 (1 + (if 1 <? e then 1 else 0))) ;; put_field y 17 15 3 ;; put_percentiles d n (i + 1))).
  { intros s. cbn [put_percentiles]. unfold element. rewrite (proj2 (Z.leb_le 0 i)), Hx, Hy by done. done. }
  unfold percentile_bits. cbn [fst snd]. rewrite <- app_assoc. apply sets_seq; [|apply sets_seq].
  - apply (sets_field x 7 25 (fun e => 1 + (if 1 <? e then 1 else 0))); [done|done|done|]. intros e He. destruct (Z.ltb_spec 1 e); dlia.
  - by apply sets_17.
  - replace (Datatypes.S (Z.to_nat i)) with (Z.to_nat (i + 1)) by lia. apply IH; lia.
Qed.

Lemma put_tone_flag_bit s e : write_extra s = Z.of_nat e -> (e < 8)%nat -> put_tone_flag true s = (put_bit 0xff (Z.of_nat e) ;; set_extra) s.
Proof using.
  intros Hx He. unfold put_tone_flag, put_bit.
  assert (Em : Z.land 0xff (1 ≪ (7 - Z.of_nat e)) = 1 ≪ (7 - Z.of_nat e)) by (do 8 (destruct e as [|e]; [done|]); lia).
  rewrite Em. unfold mbind, ST_bind, writer, update, in_bounds, leave, set_extra. rewrite Hx.
  destruct (element (blob s) (write_offset s `div` 8)) as [b|]; [|done]. by destruct (assign _ _ _).
Qed.

Lemma sets_tone_flag b : sets (put_tone_flag b) [b].
Proof using.
  intros pre k s Hs. destruct b; [|by apply (leave_spec 1)]. destruct (Hs) as [Hf Hx].
  pose proof (Nat.mod_upper_bound (length pre) 8 ltac:(lia)) as He.
  unfold ends. rewrite (put_tone_flag_bit s (length pre mod 8)) by (rewrite ?Hx, ?Nat2Z.inj_mod; done).
  eapply ends_bind; [by apply (put_bit_spec 0xff _ pre k s)|]. intros [] s1 [H1 _]. apply set_extra_spec.
  assert (Et : Z.testbit 0xff (7 - Z.of_nat (length pre mod 8)) = true).
  { revert He. generalize (length pre mod 8)%nat. intros e He. do 8 (destruct e as [|e]; [done|]). lia. }
  by rewrite Et in H1.
Qed.

Lemma sets_tone : sets (put_tone_mapping (tone_mapping d)) (tone_bits (tone_mapping d)).
Proof using Hd.
  destruct (ok_arrays d Hd) as (_ & _ & _ & E). destruct Hd. unfold tone_bits. set (t := tone_mapping d) in *.
  eapply (sets_ext (put_tone_flag (negb (tone_mapping_flag t =? 0)) ;;
    if negb (tone_mapping_flag t =? 0) then
      (e ← writer write_extra; put_field (knee_point_x t) 12 20 (2 + (if 4 <? e then 1 else 0))) ;;
      (e ← writer write_extra; put_field (knee_point_y t) 12 20 (2 + (if 4 <? e then 1 else 0))) ;;
      (e ← writer write_extra; put_field (num_bezier_curve_anchors t) 4 28 (1 + (if 4 <? e then 1 else 0))) ;;
      put_each (bezier_curve_anchors t) (Z.to_nat (num_bezier_curve_anchors t)) 0 put_anchor
    else mret tt)).
  { intros s. unfold put_tone_mapping. by destruct (tone_mapping_flag t =? 0). }
  destruct (tone_mapping_flag t =? 0); cbn [negb].
  - apply (sets_seq _ _ [false] []); [apply sets_tone_flag|apply sets_ret].
  - apply (sets_seq _ _ [true]); [apply sets_tone_flag|]. unfold curve_bits.
    apply sets_seq; [|apply sets_seq; [|apply sets_seq]].
    + apply (sets_field _ 12 20 (fun e => 2 + (if 4 <? e then 1 else 0))); [done|done|done|]. intros e He. destruct (Z.ltb_spec 4 e); dlia.
    + apply (sets_field _ 12 20 (fun e => 2 + (if 4 <? e then 1 else 0))); [done|done|done|]. intros e He. destruct (Z.ltb_spec 4 e); dlia.
    + apply (sets_field _ 4 28 (fun e => 1 + (if 4 <? e then 1 else 0))); [done|done|done|]. intros e He. destruct (Z.ltb_spec 4 e); dlia.
    + apply (sets_each _ _ 0); [|lia|lia]. intros x Hx.
      apply (sets_field x 10 22 (fun e => 2 + (if 6 <? e then 1 else 0))); [done| |done|].
      * by apply (Forall_forall (fun v => 0 <= v < 2 ^ 10) (bezier_curve_anchors t)).
      * intros e He. destruct (Z.ltb_spec 6 e); dlia.
Qed.

Lemma sets_maxscl : sets (put_each (maxscl d) 3 0 put_maxscl) (maxscl d ≫= bits 17).
Proof using Hd.
  destruct (ok_arrays d Hd) as (E & _). pose proof (sets_each (maxscl d) 3 0 put_maxscl (bits 17)) as H.
  change (Z.to_nat 0) with 0%nat in H. rewrite drop_0, take_ge in H by lia. apply H; [|done|lia].
  intros x Hx. apply sets_17. by apply (Forall_forall (fun v => 0 <= v < 2 ^ 17) (maxscl d)); [apply (ok_maxscl d Hd)|].
Qed.

Lemma sets_metadata : sets_at 0 (put_metadata d) (itu_bits (plain 0 d)).
Proof using Hd.
  pose proof sets_maxscl as Hm. pose proof sets_tone as Ht.
  pose proof (sets_percentiles (Z.to_nat (num_maxrgb_percentiles d)) 0 ltac:(done)) as Hp.
  destruct (ok_arrays d Hd) as (El & _). destruct Hd.
  unfold put_metadata, itu_bits, code_bits, display_bits. cbn [metadata targeted average fraction mastering saturation plain peak_bits saturation_bits].
  rewrite <- !app_assoc. do 5 (apply sets_at_seq; [by apply sets_code|]). rewrite !length_bits.
  apply sets_at_seq; [apply sets_window|]. apply sets_at_seq; [by apply sets_luminance|]. apply sets_at_seq; [by apply sets_anywhere, sets_leave|].
  apply sets_at_seq; [by apply sets_anywhere|]. apply sets_at_seq; [by apply sets_anywhere, sets_leave|].
  rewrite (length_bind_const _ 17), El, !length_bits by (intros; apply length_bits).
  apply sets_at_seq; [by apply sets_num_percentiles|]. apply sets_anywhere.
  apply sets_seq; [apply Hp; lia|]. apply sets_seq; [by apply sets_leave|]. apply sets_seq; [by apply (sets_leave 1)|].
  apply sets_seq; [exact Ht|by apply (sets_leave 1)].
Qed.
End metadata.

(** ** The blob *)

Lemma stream_zeros n : stream_bits (replicate n 0) = replicate (8 * n) false.
Proof. induction n as [|n IH]; [done|]. cbn [replicate]. rewrite stream_cons, IH. replace (8 * Datatypes.S n)%nat with (8 + 8 * n)%nat by lia. done. Qed.

Lemma dynamic_meta d n : hdr_ok d -> (length (to_bytes (itu_bits (plain 0 d))) <= n)%nat ->
  Exynos_dynamic_meta_to_itu_t_t35 d (replicate n 0) =
    Some (Z.of_nat (length (to_bytes (itu_bits (plain 0 d)))),
      to_bytes (itu_bits (plain 0 d)) ++ replicate (n - length (to_bytes (itu_bits (plain 0 d)))) 0).
Proof.
  intros Hd Hn. set (X := itu_bits (plain 0 d)) in *. pose proof (padding_multiple X) as [HX Hp]. rewrite length_to_bytes in *.
  set (m := ((length X + 7) / 8)%nat) in *.
  destruct (sets_metadata d Hd [] (8 * n - length X)%nat {| blob := replicate n 0; write_offset := 0; write_extra := 0 |}) as ([] & s & E & H).
  { done. }
  { split; [|done]. split; [by apply Forall_replicate|]. split; [|done]. cbn [blob]. rewrite stream_zeros, app_nil_l. fold X. f_equal. lia. }
  fold X in H. destruct H as [(Hb & Es & Eo) Ex]. rewrite app_nil_l in *.
  unfold Exynos_dynamic_meta_to_itu_t_t35. rewrite E. simpl. rewrite Eo, Ex. do 2 f_equal.
  - assert (length X <= 8 * m < length X + 8)%nat by lia. destruct (Z.ltb_spec 0 (Z.of_nat (length X) `mod` 8)); dlia.
  - apply stream_inj; [done|apply Forall_app; split; [apply to_bytes_range|by apply Forall_replicate]|].
    rewrite stream_app, stream_to_bytes, stream_zeros, Es, <- app_assoc, <- replicate_add. do 2 f_equal. lia.
Qed.
