(* ===== verification/HdrRead.v ===== *)
(** * Reading a stream

    Every function of the parser reads the bits of its field ([reads]), from every
    position or from the positions where it is right. *)

From S2P Require Import Prelude Effects HdrBits HdrData HdrParse HdrEscape.

(** ** Bits of a byte *)

Lemma foldl_lor {A} (f : A -> Z) l a : foldl (fun a k => Z.lor a (f k)) a l = Z.lor a (foldl (fun a k => Z.lor a (f k)) 0 l).
Proof.
  revert a. induction l as [|k l IH]; intros a; simpl; [by rewrite Z.lor_0_r|]. rewrite IH, (IH (Z.lor 0 _)), Z.lor_0_l, Z.lor_assoc. done.
Qed.

(** A property of the bytes that is tested on all of them. *)
Lemma all_bytes (f : Z -> bool) : forallb f (seqZ 0 256) = true -> forall b, is_byte b -> f b = true.
Proof. intros H b Hb. rewrite forallb_forall in H. apply H, list_elem_of_In, elem_of_seqZ. exact Hb. Qed.

Lemma gather_byte_0 e byte : (e < 8)%nat -> is_byte byte -> gather_byte (Z.of_nat e) byte 0 = value (drop e (bits 8 byte)).
Proof.
  intros He Hb. apply Z.eqb_eq. revert byte Hb. apply (all_bytes (fun b => gather_byte (Z.of_nat e) b 0 =? value (drop e (bits 8 b)))).
  do 8 (destruct e as [|e]; [vm_compute; done|]). lia.
Qed.

Lemma gather_byte_value e byte data : (e < 8)%nat -> is_byte byte -> data `mod` 2 ^ 8 = 0 ->
  gather_byte (Z.of_nat e) byte data = data + value (drop e (bits 8 byte)).
Proof.
  intros He Hb Hd. unfold gather_byte. rewrite foldl_lor. fold (gather_byte (Z.of_nat e) byte 0). rewrite gather_byte_0 by done.
  apply (lor_add 8); [done|done|]. pose proof (value_range (drop e (bits 8 byte))) as R. rewrite length_drop, length_bits in R.
  assert (2 ^ Z.of_nat (8 - e) <= 2 ^ 8) by (apply Z.pow_le_mono_r; lia). lia.
Qed.

Lemma code_byte byte data : is_byte byte -> foldl (fun data j => Z.lor data (Z.land byte (1 ≪ j))) data (seqZ 0 8) = Z.lor data byte.
Proof.
  intros Hb. rewrite foldl_lor. f_equal. apply Z.eqb_eq. revert byte Hb.
  apply (all_bytes (fun b => foldl (fun data j => Z.lor data (Z.land b (1 ≪ j))) 0 (seqZ 0 8) =? b)). vm_compute. done.
Qed.

Lemma flag_byte y e : (e < 8)%nat -> is_byte y ->
  Z.land y (1 ≪ (7 - Z.of_nat e)) = if Z.testbit y (Z.of_nat (8 - 1 - e)) then 2 ^ (7 - Z.of_nat e) else 0.
Proof.
  intros He Hy. apply Z.eqb_eq. revert y Hy.
  apply (all_bytes (fun y => Z.land y (1 ≪ (7 - Z.of_nat e)) =? (if Z.testbit y (Z.of_nat (8 - 1 - e)) then 2 ^ (7 - Z.of_nat e) else 0))).
  do 8 (destruct e as [|e]; [vm_compute; done|]). lia.
Qed.

Lemma windows_byte y : is_byte y -> foldl (fun data j => Z.lor data (Z.land y (1 ≪ (7 - j)))) 0 (seqZ 0 2) ≫ 6 = value (take 2 (bits 8 y)).
Proof.
  intros Hy. apply Z.eqb_eq. revert y Hy.
  apply (all_bytes (fun y => foldl (fun data j => Z.lor data (Z.land y (1 ≪ (7 - j)))) 0 (seqZ 0 2) ≫ 6 =? value (take 2 (bits 8 y)))). vm_compute. done.
Qed.

Section reading.
Context (src : list Z).
Hypothesis bytes_src : Forall is_byte src.

(** [pre] is read, and [rest] is to come. *)
Definition reads_at (pre rest : list bool) (s : hdr_reader) : Prop :=
  stream_bits src = pre ++ rest /\ bit_offset s = Z.of_nat (length pre) /\ extraBit s = Z.of_nat (length pre) `mod` 8.

Definition forward (n : Z) (h : ExynosHdrData_ST2094_40) (s : hdr_reader) : hdr_reader := {|
  bit_offset := bit_offset s + n; extraBit := (bit_offset s + n) `mod` 8; hdr := h |}.

(** ** A field *)

Lemma element_at i : (i < length src)%nat -> exists b, element src (Z.of_nat i) = Some b /\ src !! i = Some b /\ is_byte b.
Proof using bytes_src.
  intros Hi. destruct (lookup_lt_is_Some_2 src i Hi) as [b Hb]. exists b. unfold element. rewrite (proj2 (Z.leb_le 0 _)), Nat2Z.id by lia.
  split; [done|]. split; [done|]. exact (Forall_lookup_1 _ _ _ _ bytes_src Hb).
Qed.

(** [acc] is gathered: the bits of the next bytes follow, from [e] on. *)
Lemma gather_spec n j acc i e s : (0 < n)%nat -> bit_offset s `div` 8 = Z.of_nat i -> extraBit s = Z.of_nat e -> (e < 8)%nat ->
  (i + j + n <= length src)%nat -> acc = [] \/ e = 0%nat -> Z.of_nat (length acc) + 8 * Z.of_nat n - Z.of_nat e <= 31 ->
  gather src n (Z.of_nat j) (Z.of_nat (j + n)) (value acc * 2 ^ 8) s =
    Some (Some (value (acc ++ drop e (stream_bits (take n (drop (i + j) src))))), s <| extraBit := 0 |>).
Proof using bytes_src.
  revert j acc e s. induction n as [|n IH]; intros j acc e s Hn Ho Hx He Hl Ha Hf; [lia|]. cbn [gather].
  destruct (element_at (i + j)) as (b & E & Eb & Hb); [lia|].
  unfold mbind, Reader_bind, reader, src_at, in_array, modify. rewrite Ho, Hx, <- Nat2Z.inj_add, E.
  rewrite gather_byte_value by (done || by rewrite Z.mod_mul).
  set (acc' := acc ++ drop e (bits 8 b)).
  assert (L' : length acc' = (length acc + (8 - e))%nat) by (unfold acc'; by rewrite length_app, length_drop, length_bits).
  assert (Ev : value acc * 2 ^ 8 + value (drop e (bits 8 b)) = value acc').
  { unfold acc'. rewrite value_app, length_drop, length_bits. by destruct Ha as [-> | ->]. }
  rewrite Ev, (drop_S src b) by done. cbn [take]. rewrite stream_cons.
  rewrite drop_app_le by (rewrite length_bits; lia). rewrite app_assoc. fold acc'.
  assert (Em : (Z.of_nat e + (8 - Z.of_nat e)) `mod` 8 = 0) by (by replace (Z.of_nat e + (8 - Z.of_nat e)) with 8 by lia).
  rewrite Em. destruct n as [|n].
  - rewrite take_0, app_nil_r, (proj2 (Z.ltb_ge _ _)) by lia. done.
  - rewrite (proj2 (Z.ltb_lt _ _)) by lia. pose proof (value_range acc') as R. rewrite Z.shiftl_mul_pow2 by lia.
    assert (R' : value acc' * 2 ^ 8 < 2 ^ 31).
    { assert (2 ^ Z.of_nat (length acc') * 2 ^ 8 <= 2 ^ 31); [|lia]. rewrite <- Z.pow_add_r by lia. apply Z.pow_le_mono_r; lia. }
    rewrite s32_small by lia. replace (Z.of_nat j + 1) with (Z.of_nat (Datatypes.S j)) by lia.
    replace (j + Datatypes.S (Datatypes.S n))%nat with (Datatypes.S j + Datatypes.S n)%nat by lia.
    rewrite (IH (Datatypes.S j) acc' 0%nat) by first [done | lia | by right].
    by replace (i + Datatypes.S j)%nat with (Datatypes.S (i + j)) by lia.
Qed.

Lemma stream_window pre T k : stream_bits src = pre ++ T -> (8 * (length pre / 8 + k) <= 8 * length src)%nat ->
  drop (length pre mod 8) (stream_bits (take k (drop (length pre / 8) src))) = take (8 * k - length pre mod 8) T.
Proof using.
  intros E Hk. rewrite <- stream_take, <- stream_drop, E. rewrite skipn_firstn_comm, drop_drop.
  pose proof (Nat.div_mod_eq (length pre) 8) as D. rewrite <- D. by rewrite drop_app_length.
Qed.

(** [n] bits, in as many bytes as they touch. *)
Lemma field_spec n count pre X T s : reads_at pre (X ++ T) s -> length X = n -> (0 < n)%nat ->
  count = (extraBit s + Z.of_nat n + 7) `div` 8 -> 8 * count - extraBit s <= 31 ->
  field src (Z.of_nat n) count s = Some (Some (value X), forward (Z.of_nat n) (hdr s) s).
Proof using bytes_src.
  intros (Es & Eo & Ex) HX Hn -> Hf. set (e := (length pre mod 8)%nat). pose proof (Nat.mod_upper_bound (length pre) 8 ltac:(lia)) as He. fold e in He.
  assert (Ex' : extraBit s = Z.of_nat e) by (rewrite Ex; unfold e; by rewrite Nat2Z.inj_mod). rewrite Ex' in *.
  set (c := ((e + n + 7) / 8)%nat).
  assert (Ec : (Z.of_nat e + Z.of_nat n + 7) `div` 8 = Z.of_nat c) by (unfold c; rewrite Nat2Z.inj_div; f_equal; lia).
  rewrite Ec in *. assert (Hc : (e + n <= 8 * c < e + n + 8)%nat).
  { unfold c. pose proof (Nat.div_mod_eq (e + n + 7) 8). pose proof (Nat.mod_upper_bound (e + n + 7) 8 ltac:(lia)). lia. }
  pose proof (Nat.div_mod_eq (length pre) 8) as D. fold e in D.
  assert (HL : (length pre + n + length T = 8 * length src)%nat) by (rewrite <- length_stream, Es, !length_app; lia).
  assert (Hfit : (length pre / 8 + c <= length src)%nat) by lia.
  unfold field. unfold mbind at 1, Reader_bind at 1. rewrite Nat2Z.id.
  pose proof (gather_spec c 0 [] (length pre / 8) e s) as G. rewrite Nat.add_0_l in G. change (value [] * 2 ^ 8) with 0 in G. change (Z.of_nat 0) with 0 in G.
  rewrite G; clear G; [|lia|by rewrite Eo, Nat2Z.inj_div|done|done|lia|by left|simpl length; lia].
  rewrite Nat.add_0_r, app_nil_l. unfold e. rewrite (stream_window _ _ _ Es) by lia. fold e.
  rewrite take_app_ge by lia. rewrite HX. set (W := take (8 * c - e - n) T).
  assert (LW : length W = (8 * c - e - n)%nat) by (unfold W; rewrite length_take; lia).
  set (o' := bit_offset s + Z.of_nat n).
  transitivity (Some (Some (if negb (o' `mod` 8 =? 0) then value (X ++ W) ≫ (8 - o' `mod` 8) else value (X ++ W)),
    {| bit_offset := o'; extraBit := o' `mod` 8; hdr := hdr s |})); [done|].
  unfold forward. fold o'. rewrite value_app, LW.
  assert (Em : o' `mod` 8 = if decide (8 * c - e - n = 0)%nat then 0 else 8 - Z.of_nat (8 * c - e - n)).
  { unfold o'. rewrite Eo. symmetry. case_decide.
    - apply (Z.mod_unique _ _ (Z.of_nat (length pre / 8) + Z.of_nat c)); lia.
    - apply (Z.mod_unique _ _ (Z.of_nat (length pre / 8) + Z.of_nat c - 1)); lia. }
  rewrite Em. case_decide as E0.
  - cbn [negb Z.eqb]. unfold W. rewrite E0, take_0. change (value []) with 0. change (2 ^ Z.of_nat 0) with 1. by rewrite Z.mul_1_r, Z.add_0_r.
  - rewrite (proj2 (Z.eqb_neq _ 0)) by lia. cbn [negb]. replace (8 - (8 - Z.of_nat (8 * c - e - n))) with (Z.of_nat (8 * c - e - n)) by lia.
    pose proof (value_range W) as R. rewrite LW in R. rewrite Z.shiftr_div_pow2, Z.div_add_l, (Z.div_small (value W)), Z.add_0_r by lia. done.
Qed.

(** ** Functions

    [reads e h o X a h']: at a position [e] in a byte, with the structure [h], the
    function [o] reads the bits [X], returns [a] and leaves the structure [h']. *)

Definition reads {A} (e : nat) (h : ExynosHdrData_ST2094_40) (o : Reader A) (X : list bool) (a : A) (h' : ExynosHdrData_ST2094_40) : Prop :=
  forall pre T s, (length pre mod 8 = e)%nat -> reads_at pre (X ++ T) s -> hdr s = h ->
    o s = Some (Some a, forward (Z.of_nat (length X)) h' s).

Lemma reads_at_forward pre X T s h : reads_at pre (X ++ T) s -> reads_at (pre ++ X) T (forward (Z.of_nat (length X)) h s).
Proof using.
  intros (Es & Eo & Ex). unfold reads_at, forward. cbn [bit_offset extraBit]. rewrite Eo, length_app, Nat2Z.inj_add.
  split; [by rewrite <- app_assoc|]. split; [lia|done].
Qed.

Lemma forward_0 pre T s : reads_at pre T s -> forward 0 (hdr s) s = s.
Proof using. intros (_ & Eo & Ex). destruct s as [o x h]. unfold forward. cbn in *. by rewrite Z.add_0_r, Eo, Ex. Qed.

Lemma forward_add n m h h' s : forward m h' (forward n h s) = forward (n + m) h' s.
Proof using. unfold forward. cbn [bit_offset]. by rewrite Z.add_assoc. Qed.

Lemma reads_bind {A B} e h (o : Reader A) (k : A -> Reader B) X Y a b h1 h2 :
  reads e h o X a h1 -> reads ((e + length X) mod 8) h1 (k a) Y b h2 -> reads e h (o ≫= k) (X ++ Y) b h2.
Proof using.
  intros Ho Hk pre T s He Hs Hh. rewrite <- app_assoc in Hs. unfold mbind, Reader_bind. rewrite (Ho pre (Y ++ T) s He Hs Hh).
  rewrite (Hk (pre ++ X) T); [|by rewrite length_app, <- He, Nat.Div0.add_mod_idemp_l|by apply reads_at_forward|done].
  by rewrite forward_add, length_app, Nat2Z.inj_add.
Qed.

Lemma reads_eq {A} e h (o : Reader A) X a h1 a' h1' X' : reads e h o X a h1 -> X = X' -> a = a' -> h1 = h1' -> reads e h o X' a' h1'.
Proof using. by intros H <- <- <-. Qed.

(** A step that reads nothing. *)
Lemma reads_step {A B} e h (o : Reader A) (k : A -> Reader B) Y a b h1 h2 :
  reads e h o [] a h1 -> reads e h1 (k a) Y b h2 -> reads e h (o ≫= k) Y b h2.
Proof using.
  intros Ho Hk pre T s He Hs Hh. refine (reads_bind e h o k [] Y a b h1 h2 Ho _ pre T s He Hs Hh).
  simpl length. by rewrite Nat.add_0_r, <- He, Nat.Div0.mod_mod, He.
Qed.

Lemma reads_still {A} e h (o : Reader A) a h1 :
  (forall s, hdr s = h -> extraBit s = Z.of_nat e -> bit_offset s `mod` 8 = Z.of_nat e ->
    o s = Some (Some a, {| bit_offset := bit_offset s; extraBit := extraBit s; hdr := h1 |})) -> reads e h o [] a h1.
Proof using.
  intros H pre T s He (Es & Eo & Ex) Hh. rewrite H; [|done|by rewrite Ex, <- He, Nat2Z.inj_mod|by rewrite Eo, <- He, Nat2Z.inj_mod].
  unfold forward. simpl. by rewrite Z.add_0_r, Eo, Ex.
Qed.

Lemma reads_ret {A} e h (a : A) : reads e h (mret a) [] a h.
Proof using. apply reads_still. by intros [o x h'] <- _ _. Qed.

Lemma reads_extra e h : reads e h (reader extraBit) [] (Z.of_nat e) h.
Proof using. apply reads_still. intros [o x h'] <- Ex _. cbn in Ex. by subst x. Qed.

Lemma reads_data {A} e h (f : ExynosHdrData_ST2094_40 -> A) : reads e h (data_of f) [] (f h) h.
Proof using. apply reads_still. by intros [o x h'] <- _ _. Qed.

Lemma reads_set e h f : reads e h (set_hdr f) [] tt (f h).
Proof using. apply reads_still. by intros [o x h'] <- _ _. Qed.

Lemma reads_in_array {A} e h (o : option A) a : o = Some a -> reads e h (in_array o) [] a h.
Proof using. intros ->. apply reads_still. by intros [q x h'] <- _ _. Qed.

Lemma reads_field e h n count X : Z.of_nat (length X) = n -> 0 < n -> count = (Z.of_nat e + n + 7) `div` 8 -> 8 * count - Z.of_nat e <= 31 ->
  reads e h (field src n count) X (value X) h.
Proof using bytes_src.
  intros <- Hn -> Hc pre T s He Hs <-. destruct (Hs) as (_ & _ & Ex). apply (field_spec _ _ pre X T); [done|done|lia| |].
  - by rewrite Ex, <- He, Nat2Z.inj_mod.
  - by rewrite Ex, <- (Nat2Z.inj_mod _ 8), He.
Qed.

Lemma reads_skip e h n X : Z.of_nat (length X) = n -> reads e h (skip n) X tt h.
Proof using. intros <- pre T s He Hs <-. done. Qed.

(** ** Single bits and bytes *)

Lemma reads_flag_bit e h b : (e < 8)%nat -> reads e h (flag_bit src) [b] (if b : bool then 2 ^ (7 - Z.of_nat e) else 0) h.
Proof using bytes_src.
  intros He pre T s Hp Hs <-. destruct (Hs) as (Es & Eo & Ex).
  assert (HL : (length pre < 8 * length src)%nat) by (rewrite <- length_stream, Es, !length_app; simpl; lia).
  destruct (element_at (length pre / 8)) as (y & E & Ey & Hy); [apply Nat.Div0.div_lt_upper_bound; lia|].
  assert (Hb : bits 8 y !! e = Some b).
  { rewrite <- Hp, <- (lookup_stream src), Es by done. rewrite lookup_app_r, Nat.sub_diag by lia. done. }
  rewrite lookup_bits in Hb by done. assert (Hb' : Z.testbit y (Z.of_nat (8 - 1 - e)) = b) by congruence. clear Hb.
  pose proof (flag_byte y e He Hy) as K. rewrite Hb' in K.
  unfold flag_bit, mbind, Reader_bind, reader, src_at, in_array. rewrite Eo, <- (Nat2Z.inj_div _ 8), E.
  rewrite Ex, <- (Nat2Z.inj_mod _ 8), Hp, K. done.
Qed.

Lemma reads_flag e h b : (e < 8)%nat -> reads e h (flag src) [b] (Z.b2z b) h.
Proof using bytes_src.
  intros He. unfold flag. eapply reads_eq; [eapply (reads_bind _ _ _ _ [b] []); [by apply reads_flag_bit|]|done|done|done].
  unfold align_data. eapply reads_step; [apply reads_extra|]. simpl length.
  eapply reads_eq; [apply reads_ret|done| |done].
  do 8 (destruct e as [|e]; [by destruct b|]). lia.
Qed.

Lemma bytes_at l pre T s : reads_at pre (stream_bits l ++ T) s -> (length pre mod 8 = 0)%nat -> Forall is_byte l ->
  forall k b, l !! k = Some b -> src_at src (bit_offset s `div` 8 + Z.of_nat k) s = Some (Some b, s).
Proof using bytes_src.
  intros (Es & Eo & _) H0 Hl k b Hk. pose proof (Nat.div_mod_eq (length pre) 8) as D.
  assert (HL : (length pre + 8 * length l <= 8 * length src)%nat).
  { rewrite <- !length_stream, Es, !length_app. lia. }
  assert (E : take (length l) (drop (length pre / 8) src) = l).
  { apply stream_inj; [by apply Forall_take, Forall_drop|done|].
    rewrite <- stream_take, <- stream_drop, Es. rewrite drop_app_length' by lia. apply take_app_length'. by rewrite length_stream. }
  assert (Hi : src !! (length pre / 8 + k)%nat = Some b).
  { rewrite <- lookup_drop. rewrite <- (lookup_take_lt _ (length l)); [by rewrite E|]. by eapply lookup_lt_Some. }
  unfold src_at, in_array, element. rewrite Eo, <- (Nat2Z.inj_div _ 8), <- Nat2Z.inj_add, (proj2 (Z.leb_le 0 _)), Nat2Z.id, Hi by lia. done.
Qed.

Lemma gather_code_spec l' l i data s : (forall k b, (l' ++ l) !! k = Some b -> src_at src (bit_offset s `div` 8 + Z.of_nat k) s = Some (Some b, s)) ->
  Forall is_byte l -> i = Z.of_nat (length l') -> gather_code src (length l) i data s = Some (Some (foldl Z.lor data l), s).
Proof using.
  intros H Hl. revert l' i data H. induction Hl as [|b l Hb Hl IH]; intros l' i data H ->; [done|]. cbn [length gather_code foldl].
  unfold mbind, Reader_bind, reader. rewrite (H (length l') b) by (by rewrite lookup_app_r, Nat.sub_diag by lia).
  rewrite code_byte by done. apply (IH (l' ++ [b])).
  - intros k b'. rewrite <- app_assoc. apply H.
  - rewrite length_app. simpl. lia.
Qed.

(** The bytes of a code are put one over the other. *)
Lemma reads_code h n l : Forall is_byte l -> n = Z.of_nat (length l) -> reads 0 h (code src n) (stream_bits l) (foldl Z.lor 0 l) h.
Proof using bytes_src.
  intros Hl -> pre T s Hp Hs <-. unfold code, mbind, Reader_bind. rewrite Nat2Z.id.
  rewrite (gather_code_spec [] l); [|exact (bytes_at l pre T s Hs Hp Hl)|done|done].
  destruct Hs as (_ & Eo & Ex). unfold modify, mret, Reader_ret, forward. rewrite length_stream.
  replace (Z.of_nat (8 * length l)) with (8 * Z.of_nat (length l)) by lia.
  assert (E : (bit_offset s + 8 * Z.of_nat (length l)) `mod` 8 = extraBit s).
  { rewrite Z.add_comm, Z.mul_comm, Z.add_comm, Z.mod_add, Eo, Ex by lia. done. }
  by rewrite E.
Qed.

(** The number of windows, at the start of a byte. *)
Lemma windows_run pre X T s : (length pre mod 8 = 0)%nat -> reads_at pre (X ++ T) s -> length X = 2%nat ->
  num_windows src s = (if (value X <? 1) || (3 <? value X) then refuse else mret (value X)) (forward 2 (hdr s) s).
Proof using bytes_src.
  intros Hp Hs HX. destruct (Hs) as (Es & Eo & Ex).
  assert (HL : (length pre < 8 * length src)%nat) by (rewrite <- length_stream, Es, !length_app; lia).
  destruct (element_at (length pre / 8)) as (y & E & Ey & Hy); [apply Nat.Div0.div_lt_upper_bound; lia|].
  assert (EX : take 2 (bits 8 y) = X).
  { apply list_eq. intros i. destruct (decide (i < 2)%nat) as [Hi|Hi].
    - rewrite lookup_take_lt by done. pose proof (Nat.div_mod_eq (length pre) 8) as D. rewrite Hp in D.
      assert (D' : ((length pre + i) / 8 = length pre / 8)%nat) by (symmetry; apply (Nat.div_unique _ 8 _ i); lia).
      assert (M' : ((length pre + i) mod 8 = i)%nat) by (symmetry; apply (Nat.mod_unique _ 8 (length pre / 8) i); lia).
      rewrite <- M' at 1. rewrite <- (lookup_stream src), Es by (by rewrite D'). rewrite lookup_app_r by lia.
      replace (length pre + i - length pre)%nat with i by lia. apply lookup_app_l. lia.
    - rewrite !lookup_ge_None_2; [done|lia|rewrite length_take, length_bits; lia]. }
  pose proof (windows_byte y Hy) as K.
  rewrite EX in K. pose proof (value_range X) as R. rewrite HX in R. change (2 ^ Z.of_nat 2) with 4 in R.
  assert (M : (bit_offset s + 2) `mod` 8 = 2).
  { rewrite Eo. pose proof (Nat.div_mod_eq (length pre) 8) as D. rewrite Hp in D. symmetry. apply (Z.mod_unique _ _ (Z.of_nat (length pre / 8))); lia. }
  assert (Er : (src_at src (bit_offset s `div` 8)) s = Some (Some y, s)).
  { unfold src_at, in_array. by rewrite Eo, <- (Nat2Z.inj_div _ 8), E. }
  unfold num_windows. unfold mbind at 1, Reader_bind at 1, reader at 1. unfold mbind at 1, Reader_bind at 1. rewrite Er.
  transitivity ((if (foldl (fun data j => Z.lor data (Z.land y (1 ≪ (7 - j)))) 0 (seqZ 0 2) ≫ (8 - (bit_offset s + 2) `mod` 8) <? 1)
      || (3 <? foldl (fun data j => Z.lor data (Z.land y (1 ≪ (7 - j)))) 0 (seqZ 0 2) ≫ (8 - (bit_offset s + 2) `mod` 8)) then refuse
    else mret (foldl (fun data j => Z.lor data (Z.land y (1 ≪ (7 - j)))) 0 (seqZ 0 2) ≫ (8 - (bit_offset s + 2) `mod` 8))) (forward 2 (hdr s) s)); [done|].
  rewrite M. change (8 - 2) with 6. by rewrite K.
Qed.

Lemma reads_windows h X : length X = 2%nat -> 0 < value X -> reads 0 h (num_windows src) X (value X) h.
Proof using bytes_src.
  intros HX Hv pre T s Hp Hs <-. rewrite (windows_run pre X T) by done. pose proof (value_range X) as R. rewrite HX in R.
  change (2 ^ Z.of_nat 2) with 4 in R. rewrite (proj2 (Z.ltb_ge _ 1)), (proj2 (Z.ltb_ge 3 _)) by lia. unfold mret, Reader_ret. rewrite HX. done.
Qed.

Lemma refuses_no_windows pre T s : (length pre mod 8 = 0)%nat -> reads_at pre (bits 2 0 ++ T) s ->
  num_windows src s = Some (None, forward 2 (hdr s) s).
Proof using bytes_src. intros Hp Hs. by rewrite (windows_run pre (bits 2 0) T). Qed.
End reading.
