(* ===== verification/HdrParsed.v ===== *)
(** * Reading the metadata

    The functions of the parser on a message with one window: which bits they read, and
    what they leave in the structure. *)

From S2P Require Import Prelude Effects HdrBits HdrData HdrParse HdrSei HdrEscape HdrRead.
(** ** What is left in the structure *)

(** The first [k] cells of [l], over those of an array. *)
Definition overwrite (k : nat) (l old : list Z) : list Z := take k l ++ drop k old.

(** The bytes of a code, one over the other. *)
Definition merged (c : Z) : Z := Z.lor (c `div` 256) (c `mod` 256).
Definition with_codes (d h : ExynosHdrData_ST2094_40) : ExynosHdrData_ST2094_40 :=
  h <| country_code := country_code d |> <| provider_code := merged (provider_code d) |>
    <| provider_oriented_code := merged (provider_oriented_code d) |>
    <| application_identifier := application_identifier d |> <| application_version := application_version d |>.

Definition with_maxscl (k : nat) (l : list Z) (h : ExynosHdrData_ST2094_40) : ExynosHdrData_ST2094_40 :=
  h <| maxscl := overwrite k l (maxscl h) |>.
Definition with_percentiles (k : nat) (ps : list (Z * Z)) (h : ExynosHdrData_ST2094_40) : ExynosHdrData_ST2094_40 :=
  h <| maxrgb_percentages := overwrite k ps.*1 (maxrgb_percentages h) |> <| maxrgb_percentiles := overwrite k ps.*2 (maxrgb_percentiles h) |>.
Definition with_colours (d h : ExynosHdrData_ST2094_40) : ExynosHdrData_ST2094_40 :=
  with_percentiles (length (percentiles d)) (percentiles d)
    ((with_maxscl 3 (maxscl d) h) <| num_maxrgb_percentiles := num_maxrgb_percentiles d |>).

Definition with_anchors (k : nat) (l : list Z) (t : hdr_tone_mapping) : hdr_tone_mapping :=
  t <| bezier_curve_anchors := overwrite k l (bezier_curve_anchors t) |>.
Definition with_tone (t old : hdr_tone_mapping) : hdr_tone_mapping :=
  if tone_mapping_flag t =? 0 then old <| tone_mapping_flag := 0 |>
  else with_anchors (length (anchors t)) (anchors t)
    (old <| tone_mapping_flag := 1 |> <| knee_point_x := knee_point_x t |> <| knee_point_y := knee_point_y t |>
         <| num_bezier_curve_anchors := num_bezier_curve_anchors t |>).

(** All but the tone mapping, and all. *)
Definition with_display (d h : ExynosHdrData_ST2094_40) : ExynosHdrData_ST2094_40 :=
  with_colours d ((with_codes d h) <| display_maximum_luminance := display_maximum_luminance d |>).
Definition with_metadata (d h : ExynosHdrData_ST2094_40) : ExynosHdrData_ST2094_40 :=
  let h := with_display d h in h <| tone_mapping := with_tone (tone_mapping d) (tone_mapping h) |>.

Lemma length_overwrite k l old : (k <= length l)%nat -> length l = length old \/ (k <= length old)%nat -> length (overwrite k l old) = length old.
Proof. intros. unfold overwrite. rewrite length_app, length_take, length_drop. lia. Qed.

Lemma overwrite_0 l old : overwrite 0 l old = old.
Proof. done. Qed.

Lemma overwrite_S k l old x : l !! k = Some x -> (k < length old)%nat -> assign (overwrite k l old) (Z.of_nat k) x = Some (overwrite (Datatypes.S k) l old).
Proof.
  intros Hx Hk. pose proof (lookup_lt_Some _ _ _ Hx) as Hl. unfold assign.
  rewrite length_overwrite, (proj2 (Z.leb_le 0 _)), (proj2 (Z.ltb_lt _ _)), Nat2Z.id by lia. cbn [andb]. f_equal. unfold overwrite.
  rewrite (take_S_r _ _ x) by done. rewrite insert_app_r_alt by (rewrite length_take; lia). rewrite length_take, Nat.min_l, Nat.sub_diag by lia.
  destruct (lookup_lt_is_Some_2 old k Hk) as [y Hy]. rewrite (drop_S _ y) by done. simpl. by rewrite <- app_assoc.
Qed.

(** ** Messages *)

Definition peak_ok (peak : option (list (list Z))) : Prop :=
  match peak with
  | None => True
  | Some rows => 2 <= Z.of_nat (length rows) <= 25 /\ 2 <= columns rows <= 25 /\ Forall (fun row => Z.of_nat (length row) = columns rows) rows
  end.

(** What the parser accepts. *)
Record itu_ok (m : itu_message) : Prop := {
  ok_metadata : hdr_ok (metadata m);
  ok_nits : display_maximum_luminance (metadata m) <= 10000;
  ok_curve : tone_mapping_flag (tone_mapping (metadata m)) = 1 ->
    num_bezier_curve_anchors (tone_mapping (metadata m)) <= if application_version (metadata m) =? 1 then 9 else 15;
  ok_targeted : peak_ok (targeted m);
  ok_mastering : peak_ok (mastering m)
}.

Section fields.
Context (src : list Z).
Hypothesis bytes_src : Forall is_byte src.

#[local] Abbreviation reads := (reads src).

(** A field of the width [n]. *)
Lemma reads_bits e h n v count : 0 < n <= 24 -> 0 <= v < 2 ^ n -> count = (Z.of_nat e + n + 7) `div` 8 ->
  reads e h (field src n count) (bits (Z.to_nat n) v) v h.
Proof using bytes_src.
  intros Hn Hv ->. eapply reads_eq; [apply (reads_field src bytes_src e h n); [| |done|]|done| |done].
  - rewrite length_bits. lia.
  - lia.
  - dlia.
  - apply value_bits_small. by rewrite Z2Nat.id by lia.
Qed.

Lemma reads_from {A} e h h0 (o : Reader A) X a h1 : h0 = h -> reads e h0 o X a h1 -> reads e h o X a h1.
Proof using. by intros ->. Qed.

Lemma reads_iterate {A} (l : list A) (f : A -> list bool) (H : nat -> ExynosHdrData_ST2094_40) body i e :
  (forall k x e, l !! k = Some x -> (e < 8)%nat -> reads e (H (i + k)%nat) (body (Z.of_nat (i + k))) (f x) tt (H (Datatypes.S (i + k)))) ->
  (e < 8)%nat -> reads e (H i) (iterate (length l) (Z.of_nat i) body) (l ≫= f) tt (H (i + length l)%nat).
Proof using.
  revert i e. induction l as [|x l IH]; intros i e Hb He; cbn [length iterate].
  - rewrite Nat.add_0_r. apply reads_ret.
  - rewrite bind_cons. eapply reads_bind.
    + pose proof (Hb 0%nat x e eq_refl He) as H0. rewrite Nat.add_0_r in H0. exact H0.
    + replace (Z.of_nat i + 1) with (Z.of_nat (Datatypes.S i)) by lia. rewrite <- Nat.add_succ_comm. apply IH.
      * intros k y e' Hk He'. replace (Datatypes.S i + k)%nat with (i + Datatypes.S k)%nat by lia. by apply Hb.
      * apply Nat.mod_upper_bound. lia.
Qed.

Lemma reads_for {A} (l : list A) (f : A -> list bool) (H : nat -> ExynosHdrData_ST2094_40) body n e :
  (forall k x e, l !! k = Some x -> (e < 8)%nat -> reads e (H k) (body (Z.of_nat k)) (f x) tt (H (Datatypes.S k))) ->
  (e < 8)%nat -> n = Z.of_nat (length l) -> reads e (H 0%nat) (for_lt n body) (l ≫= f) tt (H (length l)).
Proof using. intros Hb He ->. unfold for_lt. rewrite Nat2Z.id. by apply (reads_iterate l f H body 0 e). Qed.

(** ** The displays *)

Lemma reads_dimension e h v : (e < 8)%nat -> 2 <= v <= 25 -> reads e h (dimension src) (bits 5 v) v h.
Proof using bytes_src.
  intros He Hv. unfold dimension. eapply reads_step; [apply reads_extra|].
  eapply reads_eq; [eapply (reads_bind _ _ _ _ _ _ []); [apply (reads_bits e h 5 v); [done|lia|]|]|by apply app_nil_r|done|done].
  - destruct (Z.ltb_spec 3 (Z.of_nat e)); dlia.
  - rewrite (proj2 (Z.ltb_ge _ 2)), (proj2 (Z.ltb_ge 25 _)) by lia. apply reads_ret.
Qed.

Lemma reads_peak e h peak : (e < 8)%nat -> peak_ok peak -> reads e h (actual_peak_luminance src) (peak_bits peak) tt h.
Proof using bytes_src.
  intros He Hp. unfold actual_peak_luminance. destruct peak as [rows|]; cbn [peak_bits].
  - destruct Hp as (Hr & Hc & Ha). eapply (reads_bind _ _ _ _ _ [true]); [by apply reads_flag|]. cbn [Z.b2z Z.eqb negb].
    eapply reads_bind; [apply reads_dimension; [apply Nat.mod_upper_bound; lia|done]|].
    eapply reads_bind; [apply reads_dimension; [apply Nat.mod_upper_bound; lia|done]|].
    apply (reads_for rows (fun row => row ≫= bits 4) (fun _ => h)); [|apply Nat.mod_upper_bound; lia|done].
    intros k row e' Hk He'. apply (reads_for row (bits 4) (fun _ => h)); [|done|].
    + intros k' x e2 _ _. by apply reads_skip.
    + symmetry. exact (Forall_lookup_1 _ _ _ _ Ha Hk).
  - eapply reads_eq; [eapply (reads_bind _ _ _ _ _ [false] []); [by apply reads_flag|apply reads_ret]|done|done|done].
Qed.

Lemma reads_luminance h v : 0 <= v <= 10000 -> reads 2 h (maximum_luminance src) (bits 27 v) tt (h <| display_maximum_luminance := v |>).
Proof using bytes_src.
  intros Hv. unfold maximum_luminance. eapply reads_step; [apply reads_extra|].
  eapply reads_eq; [eapply (reads_bind _ _ _ _ _ (bits 27 v) []); [apply reads_field; done|]|by apply app_nil_r|done|done].
  rewrite value_bits_small by (change (2 ^ Z.of_nat 27) with (2 ^ 27); lia).
  eapply reads_step; [apply reads_set|]. eapply reads_step; [apply reads_data|]. rewrite u32_small by lia.
  cbv beta. replace (10000 <? _) with false by (symmetry; apply Z.ltb_ge; simpl; lia). apply reads_ret.
Qed.

(** ** The codes *)

Lemma merged_range c : 0 <= c < 2 ^ 16 -> 0 <= merged c < 2 ^ 8.
Proof using.
  intros Hc. unfold merged. assert (Ha : 0 <= c `div` 256 < 256) by dlia. assert (Hb : 0 <= c `mod` 256 < 256) by dlia.
  split; [apply Z.lor_nonneg; lia|]. rewrite <- (Z.mod_small (c `div` 256) (2 ^ 8)), <- (Z.mod_small (c `mod` 256) (2 ^ 8)) by done.
  rewrite <- !Z.land_ones, <- Z.land_lor_distr_l, Z.land_ones by done. by apply Z.mod_pos_bound.
Qed.

Lemma reads_code_1 h v : 0 <= v < 2 ^ 8 -> reads 0 h (code src 1) (bits 8 v) v h.
Proof using bytes_src.
  intros Hv. eapply reads_eq; [apply (reads_code src bytes_src h 1 [v]); [by apply Forall_singleton|done]|done|done|done].
Qed.

Lemma reads_code_2 h v : 0 <= v < 2 ^ 16 -> reads 0 h (code src 2) (bits 16 v) (merged v) h.
Proof using bytes_src.
  intros Hv. eapply reads_eq; [apply (reads_code src bytes_src h 2 [v `div` 256; v `mod` 256]); [|done]| |done|done].
  - apply Forall_cons; split; [unfold is_byte; dlia|]. apply Forall_cons; split; [unfold is_byte; dlia|done].
  - rewrite bits_16 by lia. done.
Qed.

Lemma reads_codes d h : hdr_ok d -> reads 0 h (codes src) (code_bits d) tt (with_codes d h).
Proof using bytes_src.
  intros []. pose proof (merged_range _ ok_provider) as Rp. pose proof (merged_range _ ok_oriented) as Ro.
  unfold codes, code_bits.
  eapply reads_bind; [by apply reads_code_1|]. eapply reads_step; [apply reads_set|].
  eapply reads_bind; [by apply reads_code_2|]. eapply reads_step; [apply reads_set|].
  eapply reads_bind; [by apply reads_code_2|]. eapply reads_step; [apply reads_set|].
  eapply reads_bind; [by apply reads_code_1|]. eapply reads_step; [apply reads_set|].
  rewrite <- (app_nil_r (bits 8 (application_version d))). eapply reads_bind; [by apply reads_code_1|].
  eapply reads_eq; [apply reads_set|done|done|]. unfold with_codes, u16. rewrite !u8_small, !Z.mod_small by (assumption || lia). done.
Qed.

(** ** The colours *)

Lemma reads_17 e h v : (e < 8)%nat -> 0 <= v < 2 ^ 17 -> reads e h (field src 17 3) (bits 17 v) v h.
Proof using bytes_src. intros He Hv. apply (reads_bits e h 17 v); [done|done|]. dlia. Qed.

Lemma reads_maxscl e h l : (e < 8)%nat -> length l = 3%nat -> length (maxscl h) = 3%nat -> Forall (fun v => 0 <= v < 2 ^ 17) l ->
  reads e h (for_lt 3 (fun j =>
    data ← field src 17 3;
    l ← data_of maxscl; l ← in_array (assign l j (u32 data));
    set_hdr (fun d => d <| maxscl := l |>))) (l ≫= bits 17) tt (with_maxscl 3 l h).
Proof using bytes_src.
  intros He Hl Hh Hv. apply (reads_from e h (with_maxscl 0 l h)); [by destruct h|]. eapply reads_eq; [apply (reads_for l (bits 17) (fun k => with_maxscl k l h)); [|done|by rewrite Hl]|done|done|by rewrite Hl].
  intros k x e' Hk He'. pose proof (Forall_lookup_1 _ _ _ _ Hv Hk) as Hx. cbv beta in Hx.
  rewrite <- (app_nil_r (bits 17 x)). eapply reads_bind; [by apply reads_17|].
  eapply reads_step; [apply reads_data|]. eapply reads_step.
  { apply reads_in_array. rewrite u32_small by lia. apply (overwrite_S k l (maxscl h) x Hk). pose proof (lookup_lt_Some _ _ _ Hk). lia. }
  eapply reads_eq; [apply reads_set|done|done|done].
Qed.

Lemma reads_percentiles e h ps : (e < 8)%nat -> (length ps <= 15)%nat -> length (maxrgb_percentages h) = 15%nat -> length (maxrgb_percentiles h) = 15%nat ->
  Forall (fun p => 0 <= p.1 < 2 ^ 7 /\ 0 <= p.2 < 2 ^ 17) ps ->
  reads e h (for_lt (Z.of_nat (length ps)) (percentile src)) (ps ≫= percentile_bits) tt (with_percentiles (length ps) ps h).
Proof using bytes_src.
  intros He Hl H1 H2 Hv. apply (reads_from e h (with_percentiles 0 ps h)); [by destruct h|]. eapply reads_eq; [apply (reads_for ps percentile_bits (fun k => with_percentiles k ps h)); [|done|done]|done|done|done].
  intros k [x y] e' Hk He'. pose proof (Forall_lookup_1 _ _ _ _ Hv Hk) as [Hx Hy]. cbn [fst snd] in Hx, Hy. pose proof (lookup_lt_Some _ _ _ Hk).
  assert (Hk1 : ps.*1 !! k = Some x) by (by rewrite list_lookup_fmap, Hk). assert (Hk2 : ps.*2 !! k = Some y) by (by rewrite list_lookup_fmap, Hk).
  unfold percentile, percentile_bits. cbn [fst snd]. eapply reads_step; [apply reads_extra|].
  eapply reads_bind; [apply (reads_bits e' _ 7 x); [done|done|destruct (Z.ltb_spec 1 (Z.of_nat e')); dlia]|].
  eapply reads_step; [apply reads_data|]. eapply reads_step.
  { apply reads_in_array. rewrite u8_small by lia. apply (overwrite_S k ps.*1 (maxrgb_percentages h) x Hk1). lia. }
  eapply reads_step; [apply reads_set|].
  rewrite <- (app_nil_r (bits 17 y)). eapply reads_bind; [apply reads_17; [apply Nat.mod_upper_bound; lia|done]|].
  eapply reads_step; [apply reads_data|]. eapply reads_step.
  { apply reads_in_array. rewrite u32_small by lia. apply (overwrite_S k ps.*2 (maxrgb_percentiles h) y Hk2). lia. }
  eapply reads_eq; [apply reads_set|done|done|done].
Qed.

Lemma percentiles_ok d : hdr_ok d -> Forall (fun p => 0 <= p.1 < 2 ^ 7 /\ 0 <= p.2 < 2 ^ 17) (percentiles d).
Proof using.
  intros []. unfold percentiles. apply Forall_take, Forall_lookup_2. intros i [x y] H.
  apply lookup_zip_with_Some in H as (x' & y' & [= -> ->] & Hx & Hy).
  split; [exact (Forall_lookup_1 _ _ _ _ ok_percentages Hx)|exact (Forall_lookup_1 _ _ _ _ ok_percentiles Hy)].
Qed.

Lemma reads_colours e h d v w : (e < 8)%nat -> hdr_ok d -> arrays_ok h ->
  reads e h (window_colours src)
    ((maxscl d ≫= bits 17) ++ bits 17 v ++ bits 4 (num_maxrgb_percentiles d) ++ (percentiles d ≫= percentile_bits) ++ bits 10 w) tt (with_colours d h).
Proof using bytes_src.
  intros He Hd (A1 & A2 & A3 & A4). pose proof (length_percentiles d Hd) as Lp. pose proof (percentiles_ok d Hd) as Fp.
  destruct (ok_arrays d Hd) as (L1 & _). unfold window_colours.
  assert (M : forall k, (k mod 8 < 8)%nat) by (intros; apply Nat.mod_upper_bound; lia).
  eapply reads_bind; [apply reads_maxscl; [done|done|done|by destruct Hd]|]. eapply reads_bind; [by apply reads_skip|].
  eapply reads_step; [apply reads_extra|].
  eapply reads_bind; [apply (reads_bits _ _ 4); [done|by destruct Hd|]|].
  { match goal with |- context [Z.of_nat (?x mod 8)] => pose proof (M x); set (q := (x mod 8)%nat) in * end. destruct (Z.ltb_spec 4 (Z.of_nat q)); dlia. }
  eapply reads_step; [apply reads_set|]. eapply reads_step; [apply reads_data|].
  destruct Hd. assert (E8 : u8 (num_maxrgb_percentiles d) = num_maxrgb_percentiles d) by (apply u8_small; lia).
  eapply reads_bind.
  - match goal with |- HdrRead.reads _ _ _ (for_lt ?n _) _ _ _ => replace n with (Z.of_nat (length (percentiles d))) end.
    + apply reads_percentiles; [apply M|lia|done|done|done].
    + transitivity (u8 (num_maxrgb_percentiles d)); [rewrite E8; lia|done].
  - eapply (reads_eq src _ _ _ (bits 10 w)); [by apply reads_skip|done|done|]. by rewrite E8.
Qed.

(** ** The tone mapping *)

Definition set_tone_of (t : hdr_tone_mapping) (h : ExynosHdrData_ST2094_40) : ExynosHdrData_ST2094_40 := h <| tone_mapping := t |>.

Lemma reads_set_tone e h f : reads e h (set_tone f) [] tt (set_tone_of (f (tone_mapping h)) h).
Proof using. unfold set_tone. eapply reads_eq; [apply reads_set|done|done|done]. Qed.

Lemma reads_tone_data {A} e h (f : hdr_tone_mapping -> A) : reads e h (data_of (fun d => f (tone_mapping d))) [] (f (tone_mapping h)) h.
Proof using. apply (reads_data src e h (fun d => f (tone_mapping d))). Qed.

Lemma reads_knee e h v : (e < 8)%nat -> e <> 5%nat -> 0 <= v < 2 ^ 12 -> reads e h (knee_point src) (bits 12 v) v h.
Proof using bytes_src.
  intros He H5 Hv. unfold knee_point. eapply reads_step; [apply reads_extra|].
  apply (reads_bits e h 12 v); [done|done|]. destruct (Z.ltb_spec 5 (Z.of_nat e)); dlia.
Qed.

Lemma reads_anchors e h l : (e < 8)%nat -> (length l <= 15)%nat -> length (bezier_curve_anchors (tone_mapping h)) = 15%nat ->
  Forall (fun v => 0 <= v < 2 ^ 10) l ->
  reads e h (for_lt (Z.of_nat (length l)) (anchor src)) (l ≫= bits 10) tt (set_tone_of (with_anchors (length l) l (tone_mapping h)) h).
Proof using bytes_src.
  intros He Hl Hh Hv. apply (reads_from e h (set_tone_of (with_anchors 0 l (tone_mapping h)) h)); [by destruct h as [? ? ? ? ? ? ? ? ? ? []]|].
  eapply reads_eq; [apply (reads_for l (bits 10) (fun k => set_tone_of (with_anchors k l (tone_mapping h)) h)); [|done|done]|done|done|done].
  intros k x e' Hk He'. pose proof (Forall_lookup_1 _ _ _ _ Hv Hk) as Hx. cbv beta in Hx. pose proof (lookup_lt_Some _ _ _ Hk).
  unfold anchor. eapply reads_step; [apply reads_extra|].
  rewrite <- (app_nil_r (bits 10 x)). eapply reads_bind; [apply (reads_bits e' _ 10 x); [done|done|destruct (Z.ltb_spec 6 (Z.of_nat e')); dlia]|].
  eapply reads_step; [apply (reads_tone_data _ _ bezier_curve_anchors)|]. eapply reads_step.
  { apply reads_in_array. unfold u16. rewrite Z.mod_small by lia. apply (overwrite_S k l (bezier_curve_anchors (tone_mapping h)) x Hk). lia. }
  eapply reads_eq; [apply reads_set_tone|done|done|done].
Qed.

(** The flag, where it is read right. *)
Lemma reads_tone_flag {B} e h (b : bool) (k : unit -> Reader B) Y c h' : (e < 7)%nat ->
  reads (e + 1) (set_tone_of ((tone_mapping h) <| tone_mapping_flag := Z.b2z b |>) h) (k tt) Y c h' ->
  reads e h (data ← flag_bit src; e ← reader extraBit; set_tone (fun t => t <| tone_mapping_flag := u16 (data ≫ (8 - e)) |>) ≫= k) (b :: Y) c h'.
Proof using bytes_src.
  intros He Hk. apply (reads_bind src e h _ _ [b] Y _ c _ h' (reads_flag_bit src bytes_src e h b ltac:(lia))).
  simpl length. rewrite Nat.mod_small by lia. eapply reads_step; [apply reads_extra|]. eapply reads_step; [apply reads_set_tone|].
  eapply reads_from; [|exact Hk]. unfold set_tone_of. do 3 f_equal.
  do 7 (destruct e as [|e]; [by destruct b|]). lia.
Qed.

Lemma reads_saturation e h s : (e < 8)%nat ->
  reads e h (saturation ← flag src; if negb (saturation =? 0) then skip 6 else mret tt) (saturation_bits s) tt h.
Proof using bytes_src.
  intros He. destruct s as [w|]; cbn [saturation_bits].
  - eapply (reads_bind _ _ _ _ _ [true]); [by apply reads_flag|]. by apply reads_skip.
  - eapply (reads_bind _ _ _ _ _ [false] []); [by apply reads_flag|]. apply reads_ret.
Qed.

Lemma reads_tone e h d s : e = 1%nat \/ e = 3%nat \/ e = 5%nat -> hdr_ok d -> arrays_ok h -> application_version h = application_version d ->
  (tone_mapping_flag (tone_mapping d) = 1 -> num_bezier_curve_anchors (tone_mapping d) <= if application_version d =? 1 then 9 else 15) ->
  reads e h (window_tone_mapping src) (tone_bits (tone_mapping d) ++ saturation_bits s) tt (set_tone_of (with_tone (tone_mapping d) (tone_mapping h)) h).
Proof using bytes_src.
  intros He Hd (A1 & A2 & A3 & A4) Hv Hn. pose proof (length_anchors d Hd) as La. unfold window_tone_mapping, tone_bits, with_tone.
  assert (M : forall k, (k mod 8 < 8)%nat) by (intros; apply Nat.mod_upper_bound; lia).
  destruct Hd. assert (K : tone_mapping_flag (tone_mapping d) = 0 \/ tone_mapping_flag (tone_mapping d) = 1) by lia.
  set (t := tone_mapping d) in *. destruct K as [K | K]; rewrite K; cbn [Z.eqb app].
  - apply reads_tone_flag; [lia|]. eapply reads_step; [apply (reads_tone_data _ _ tone_mapping_flag)|]. cbn [negb Z.b2z Z.eqb].
    eapply reads_step; [apply reads_ret|]. apply reads_saturation. lia.
  - apply reads_tone_flag; [lia|]. eapply reads_step; [apply (reads_tone_data _ _ tone_mapping_flag)|].
    match goal with |- context [negb (tone_mapping_flag ?x =? 0)] => change (negb (tone_mapping_flag x =? 0)) with true end. cbv iota.
    eapply reads_bind; [|apply reads_saturation, M]. unfold curve_bits.
    eapply reads_bind; [apply reads_knee; [lia|lia|done]|]. eapply reads_step; [apply reads_set_tone|].
    eapply reads_bind; [apply reads_knee; [apply M| |done]|]. { rewrite length_bits. by destruct He as [-> | [-> | ->]]. }
    eapply reads_step; [apply reads_set_tone|]. eapply reads_step; [apply reads_extra|].
    eapply reads_bind; [apply (reads_bits _ _ 4); [done|done|]|].
    { match goal with |- context [Z.of_nat (?x mod 8)] => pose proof (M x); set (q := (x mod 8)%nat) in * end. destruct (Z.ltb_spec 4 (Z.of_nat q)); dlia. }
    eapply reads_step; [apply reads_set_tone|]. eapply reads_step; [apply reads_data|].
    eapply reads_step; [apply (reads_tone_data _ _ num_bezier_curve_anchors)|]. specialize (Hn K).
    assert (En : u16 (num_bezier_curve_anchors t) = num_bezier_curve_anchors t) by (unfold u16; apply Z.mod_small; lia).
    match goal with |- HdrRead.reads _ _ ?h (if ?b then _ else _) _ _ _ => replace b with false; [set (h1 := h)|] end.
    + eapply reads_eq; [|done|done|].
      * match goal with |- HdrRead.reads _ _ _ (for_lt ?n _) _ _ _ => replace n with (Z.of_nat (length (anchors t))) end.
        { apply reads_anchors; [apply M|lia|done|]. unfold anchors. by apply Forall_take. }
        transitivity (u16 (num_bezier_curve_anchors t)); [rewrite En; lia|done].
      * unfold h1. cbv beta. unfold u16. rewrite !Z.mod_small by lia. done.
    + symmetry. transitivity ((if application_version h =? 1 then 9 else 15) <? u16 (num_bezier_curve_anchors t)); [done|].
      rewrite Hv, En. by apply Z.ltb_ge.
Qed.
End fields.

(** ** What a reader of the structure sees *)

(** The parts that are used agree, but for the two codes. *)
Record same_metadata (d d' : ExynosHdrData_ST2094_40) : Prop := {
  same_country : country_code d' = country_code d;
  same_identifier : application_identifier d' = application_identifier d;
  same_version : application_version d' = application_version d;
  same_luminance : display_maximum_luminance d' = display_maximum_luminance d;
  same_maxscl : maxscl d' = maxscl d;
  same_num_percentiles : num_maxrgb_percentiles d' = num_maxrgb_percentiles d;
  same_percentiles : percentiles d' = percentiles d;
  same_flag : tone_mapping_flag (tone_mapping d') = tone_mapping_flag (tone_mapping d);
  same_curve : tone_mapping_flag (tone_mapping d) = 1 ->
    let t := tone_mapping d in let t' := tone_mapping d' in
    knee_point_x t' = knee_point_x t /\ knee_point_y t' = knee_point_y t /\
    num_bezier_curve_anchors t' = num_bezier_curve_anchors t /\ anchors t' = anchors t
}.

Lemma take_overwrite k l old : (k <= length l)%nat -> take k (overwrite k l old) = take k l.
Proof. intros Hk. unfold overwrite. apply take_app_length'. rewrite length_take. lia. Qed.

Lemma take_zip {A B} k (l : list A) (l' : list B) : take k (zip l l') = zip (take k l) (take k l').
Proof. revert l l'. induction k as [|k IH]; intros [|x l] [|y l']; try done; simpl. by rewrite IH. Qed.

Lemma with_metadata_same d h : hdr_ok d -> arrays_ok h -> same_metadata d (with_metadata d h).
Proof.
  intros Hd (H1 & _ & _ & H4). pose proof (length_percentiles d Hd) as Lp. pose proof (length_anchors d Hd) as La.
  destruct Hd, ok_arrays as (D1 & D2 & D3 & D4). constructor; try done.
  - transitivity (overwrite 3 (maxscl d) (maxscl h)); [done|]. unfold overwrite. rewrite take_ge, drop_ge by lia. apply app_nil_r.
  - set (k := length (percentiles d)) in *.
    transitivity (take (Z.to_nat (num_maxrgb_percentiles d)) (zip (overwrite k (percentiles d).*1 (maxrgb_percentages h)) (overwrite k (percentiles d).*2 (maxrgb_percentiles h)))); [done|].
    rewrite <- Lp. fold k. rewrite take_zip, !take_overwrite by (rewrite length_fmap; lia).
    rewrite !take_ge by (rewrite length_fmap; lia). apply zip_fst_snd.
  - transitivity (tone_mapping_flag (with_tone (tone_mapping d) (tone_mapping h))); [done|]. unfold with_tone.
    destruct (Z.eqb_spec (tone_mapping_flag (tone_mapping d)) 0); [done|]. transitivity 1; [done|lia].
  - intros H1f. cbv zeta. change (tone_mapping (with_metadata d h)) with (with_tone (tone_mapping d) (tone_mapping h)). unfold with_tone. rewrite H1f.
    cbn [Z.eqb]. do 3 (split; [done|]). set (t := tone_mapping d) in *. set (k := length (anchors t)) in *.
    transitivity (take (Z.to_nat (num_bezier_curve_anchors t)) (overwrite k (anchors t) (bezier_curve_anchors (tone_mapping h)))); [done|].
    rewrite <- La, take_overwrite by lia. apply take_ge. lia.
Qed.

(** A code comes back exactly if its upper byte is 0. *)
Lemma merged_id c : 0 <= c < 2 ^ 16 -> merged c = c <-> c < 256.
Proof.
  intros Hc. unfold merged. assert (Ha : 0 <= c `div` 256 < 256) by dlia. assert (Hb : 0 <= c `mod` 256 < 256) by dlia. split.
  - intros E. destruct (Z.lt_ge_cases c 256); [done|]. pose proof (Z.div_mod c 256).
    assert (R : Z.lor (c `div` 256) (c `mod` 256) < 256); [|lia]. exact (proj2 (merged_range c Hc)).
  - intros H. rewrite Z.div_small, Z.lor_0_l by lia. apply Z.mod_small. lia.
Qed.

(** ** Parsing a message

    The whole parser on a message with one window; where the flag of the tone mapping is
    lost; and messages that are refused. *)

(** Where the flag of the tone mapping is in its byte. *)
Definition flag_position (m : itu_message) : nat := ((7 + length (peak_bits (targeted m)) + length (peak_bits (mastering m))) mod 8)%nat.

(** The number of cells of an optional array. *)
Definition cells (peak : option (list (list Z))) : nat := match peak with None => 0%nat | Some rows => length (concat rows) end.

Lemma length_peak peak : length (peak_bits peak) = match peak with None => 1%nat | Some _ => (11 + 4 * cells peak)%nat end.
Proof.
  destruct peak as [rows|]; [|done]. unfold peak_bits, cells. rewrite length_cons, !length_app, !length_bits.
  assert (E : length (rows ≫= fun row => row ≫= bits 4) = (4 * length (concat rows))%nat); [|lia].
  induction rows as [|row rows IH]; [done|]. rewrite bind_cons, length_app, IH, (length_bind_const _ 4) by (intros; apply length_bits).
  cbn [concat]. rewrite length_app. lia.
Qed.

(** The flag is in the last bit of a byte exactly if one array is there, with an odd
    number of cells. *)
Lemma flag_position_odd m : flag_position m = 1%nat \/ flag_position m = 3%nat \/ flag_position m = 5%nat \/ flag_position m = 7%nat.
Proof.
  unfold flag_position. rewrite !length_peak. generalize (cells (targeted m)) (cells (mastering m)). intros c c'.
  pose proof (Nat.div_mod_eq c 2). pose proof (Nat.mod_upper_bound c 2 ltac:(lia)).
  pose proof (Nat.div_mod_eq c' 2). pose proof (Nat.mod_upper_bound c' 2 ltac:(lia)).
  match goal with |- context [(?x mod 8)%nat] => pose proof (Nat.div_mod_eq x 8) as D; pose proof (Nat.mod_upper_bound x 8 ltac:(lia)) as U;
    set (r := (x mod 8)%nat) in *; set (q := (x / 8)%nat) in * end.
  destruct (targeted m), (mastering m); lia.
Qed.

Section parsing.
Context (src : list Z).
Hypothesis bytes_src : Forall is_byte src.

#[local] Abbreviation reads := (reads src).

Lemma reader_assoc {A B C} (o : Reader A) (k : A -> Reader B) (k' : B -> Reader C) s : ((o ≫= k) ≫= k') s = (o ≫= (fun a => k a ≫= k')) s.
Proof using. unfold mbind, Reader_bind. by destruct (o s) as [[[a|] s1]|]. Qed.

Lemma reader_ext {A B} (o : Reader A) (k k' : A -> Reader B) s : (forall a s, k a s = k' a s) -> (o ≫= k) s = (o ≫= k') s.
Proof using. intros H. unfold mbind, Reader_bind. by destruct (o s) as [[[a|] s1]|]. Qed.

(** The parser up to the tone mapping. *)
Definition before_tone : Reader Z :=
  codes src ;;
  windows ← num_windows src;
  for_lt (windows - 1) (fun _ => geometry) ;;
  maximum_luminance src ;;
  actual_peak_luminance src ;;
  for_lt windows (fun _ => window_colours src) ;;
  actual_peak_luminance src ;;
  mret windows.

Lemma parser_split s : itu_t_t35 src s = (before_tone ≫= (fun windows => for_lt windows (fun _ => window_tone_mapping src))) s.
Proof using.
  unfold itu_t_t35, before_tone. rewrite reader_assoc. apply reader_ext. intros [] s1. rewrite reader_assoc. apply reader_ext. intros w s2.
  do 5 (rewrite reader_assoc; apply reader_ext; intros [] ?s). done.
Qed.

(** What is before the tone mapping. *)
Definition head_bits (m : itu_message) : list bool :=
  let d := metadata m in
  code_bits d ++ bits 2 1 ++ bits 27 (display_maximum_luminance d) ++ peak_bits (targeted m) ++
  ((maxscl d ≫= bits 17) ++ bits 17 (average m) ++ bits 4 (num_maxrgb_percentiles d) ++ (percentiles d ≫= percentile_bits) ++ bits 10 (fraction m)) ++
  peak_bits (mastering m).

Lemma itu_bits_split m : itu_bits m = head_bits m ++ tone_bits (tone_mapping (metadata m)) ++ saturation_bits (saturation m).
Proof using. unfold itu_bits, display_bits, head_bits. cbv zeta. by rewrite <- !app_assoc. Qed.

Lemma length_head m : hdr_ok (metadata m) ->
  length (head_bits m) = (8 * (20 + 3 * length (percentiles (metadata m))) + 7 + length (peak_bits (targeted m)) + length (peak_bits (mastering m)))%nat.
Proof using.
  intros Hd. destruct (ok_arrays _ Hd) as (L & _). unfold head_bits, code_bits. cbv zeta. rewrite !length_app, !length_bits.
  rewrite (length_bind_const _ 17) by (intros; apply length_bits).
  rewrite (length_bind_const _ 24) by (intros; unfold percentile_bits; by rewrite length_app, !length_bits).
  rewrite L. lia.
Qed.

Lemma head_position m : hdr_ok (metadata m) -> (length (head_bits m) mod 8)%nat = flag_position m.
Proof using.
  intros Hd. rewrite length_head by done. unfold flag_position. rewrite <- !Nat.add_assoc, Nat.mul_comm, Nat.add_comm.
  by rewrite Nat.Div0.mod_add.
Qed.

Lemma with_codes_arrays d h : arrays_ok h -> arrays_ok ((with_codes d h) <| display_maximum_luminance := display_maximum_luminance d |>).
Proof using. done. Qed.

Lemma with_display_arrays d h : hdr_ok d -> arrays_ok h -> arrays_ok (with_display d h).
Proof using.
  intros Hd (H1 & H2 & H3 & H4). pose proof (length_percentiles d Hd) as Lp. destruct Hd, ok_arrays as (D1 & D2 & D3 & D4).
  unfold arrays_ok, with_display, with_colours, with_percentiles, with_maxscl.
  cbn [maxscl maxrgb_percentages maxrgb_percentiles tone_mapping with_codes].
  split; [|split; [|split; [|done]]].
  - transitivity (length (overwrite 3 (maxscl d) (maxscl h))); [done|]. by rewrite length_overwrite by lia.
  - transitivity (length (overwrite (length (percentiles d)) (percentiles d).*1 (maxrgb_percentages h))); [done|].
    rewrite length_overwrite; rewrite ?length_fmap; lia.
  - transitivity (length (overwrite (length (percentiles d)) (percentiles d).*2 (maxrgb_percentiles h))); [done|].
    rewrite length_overwrite; rewrite ?length_fmap; lia.
Qed.

Lemma reads_one e h (o : Reader unit) X h' : reads e h o X tt h' -> reads e h (for_lt 1 (fun _ => o)) X tt h'.
Proof using.
  intros H. change (for_lt 1 (fun _ => o)) with (o ;; mret tt). rewrite <- (app_nil_r X).
  eapply reads_bind; [exact H|apply reads_ret].
Qed.

Lemma reads_head m h : itu_ok m -> arrays_ok h -> reads 0 h before_tone (head_bits m) 1 (with_display (metadata m) h).
Proof using bytes_src.
  intros [Hd Hl _ Ht Hm] Ha. unfold before_tone, head_bits. cbv zeta.
  assert (M : forall k, (k mod 8 < 8)%nat) by (intros; apply Nat.mod_upper_bound; lia).
  eapply reads_bind; [by apply reads_codes|].
  assert (L0 : length (code_bits (metadata m)) = 56%nat) by (unfold code_bits; by rewrite !length_app, !length_bits).
  rewrite L0. change ((0 + 56) mod 8)%nat with 0%nat.
  eapply reads_bind; [apply reads_windows; done|]. rewrite length_bits. change ((0 + 2) mod 8)%nat with 2%nat. change (value (bits 2 1)) with 1.
  eapply reads_step; [apply reads_ret|].
  eapply reads_bind; [apply reads_luminance; [done|destruct Hd; lia]|].
  eapply reads_bind; [apply reads_peak; [done|apply M|done]|].
  eapply reads_bind; [apply reads_one, reads_colours; [done|apply M|done|by apply with_codes_arrays]|].
  rewrite <- (app_nil_r (peak_bits (mastering m))).
  eapply reads_bind; [apply reads_peak; [done|apply M|done]|]. apply reads_ret.
Qed.

Lemma reads_message m h : itu_ok m -> arrays_ok h -> flag_position m <> 7%nat ->
  reads 0 h (itu_t_t35 src) (itu_bits m) tt (with_metadata (metadata m) h).
Proof using bytes_src.
  intros Hok Ha H7 pre T s He Hs Hh. rewrite parser_split, itu_bits_split in *. revert pre T s He Hs Hh.
  fold (HdrRead.reads src 0 h (before_tone ≫= (fun windows => for_lt windows (fun _ => window_tone_mapping src)))
    (head_bits m ++ tone_bits (tone_mapping (metadata m)) ++ saturation_bits (saturation m)) tt (with_metadata (metadata m) h)).
  destruct (Hok) as [Hd _ Hc _ _]. eapply reads_bind; [by apply reads_head|].
  rewrite Nat.add_0_l, head_position by done. apply reads_one.
  eapply reads_eq; [apply reads_tone; [done| |done|by apply with_display_arrays|done|done]|done|done|done].
  destruct (flag_position_odd m) as [|[|[|]]]; auto. done.
Qed.

Lemma parse_reads m h T : itu_ok m -> arrays_ok h -> flag_position m <> 7%nat -> stream_bits src = itu_bits m ++ T ->
  Exynos_parsing_user_data_registered_itu_t_t35 src h = Some (0, with_metadata (metadata m) h).
Proof using bytes_src.
  intros Hok Ha H7 Es. unfold Exynos_parsing_user_data_registered_itu_t_t35.
  by rewrite (reads_message m h Hok Ha H7 [] T).
Qed.

(** ** The flag in the last bit of a byte *)

(** After the flag the next bit is taken for the flag of the saturation. *)
Lemma tone_lost pre b c T s : (length pre mod 8 = 7)%nat -> reads_at src pre (b :: c :: T) s ->
  exists s', window_tone_mapping src s = Some (Some tt, s') /\ hdr s' = set_tone_of ((tone_mapping (hdr s)) <| tone_mapping_flag := 0 |>) (hdr s).
Proof using bytes_src.
  intros H7 Hs. set (t := (tone_mapping (hdr s)) <| tone_mapping_flag := 0 |>). set (h := set_tone_of t (hdr s)).
  pose proof (reads_at_forward src pre [b] (c :: T) s (hdr s) Hs) as H1. set (s1 := forward 1 (hdr s) s).
  change (reads_at src (pre ++ [b]) (c :: T) s1) in H1.
  set (s2 := {| bit_offset := bit_offset s1; extraBit := extraBit s1; hdr := h |}).
  assert (E1 : flag_bit src s = Some (Some (if b then 2 ^ 0 else 0), s1)) by exact (reads_flag_bit src bytes_src 7 (hdr s) b ltac:(lia) pre _ s H7 Hs eq_refl).
  assert (H0 : (length (pre ++ [b]) mod 8 = 0)%nat).
  { rewrite length_app. simpl length. rewrite <- Nat.Div0.add_mod_idemp_l, H7. done. }
  assert (X0 : extraBit s1 = 0) by (destruct H1 as (_ & _ & ->); by rewrite <- (Nat2Z.inj_mod _ 8), H0).
  assert (E2 : flag src s2 = Some (Some (Z.b2z c), forward 1 h s2)).
  { refine (reads_flag src bytes_src 0 h c ltac:(lia) (pre ++ [b]) T s2 H0 _ eq_refl). exact H1. }
  assert (Ew : window_tone_mapping src s = (saturation ← flag src; if negb (saturation =? 0) then skip 6 else mret tt) s2).
  { unfold window_tone_mapping. unfold mbind at 1, Reader_bind at 1. rewrite E1.
    unfold mbind at 1, Reader_bind at 1, reader at 1. rewrite X0. by destruct b. }
  rewrite Ew. unfold mbind, Reader_bind. rewrite E2. destruct c; [exists (forward 6 h (forward 1 h s2))|exists (forward 1 h s2)]; done.
Qed.

Lemma parse_loses_flag m h T : itu_ok m -> arrays_ok h -> flag_position m = 7%nat -> stream_bits src = itu_bits m ++ T ->
  Exynos_parsing_user_data_registered_itu_t_t35 src h =
    Some (0, let h := with_display (metadata m) h in h <| tone_mapping := (tone_mapping h) <| tone_mapping_flag := 0 |> |>).
Proof using bytes_src.
  intros Hok Ha H7 Es. destruct (Hok) as [Hd _ _ _ _]. rewrite itu_bits_split, <- app_assoc in Es. set (s0 := {| bit_offset := 0; extraBit := 0; hdr := h |}).
  assert (Hs : reads_at src [] (head_bits m ++ (tone_bits (tone_mapping (metadata m)) ++ saturation_bits (saturation m)) ++ T) s0) by done.
  pose proof (reads_head m h Hok Ha [] _ s0 eq_refl Hs eq_refl) as E. pose proof (reads_at_forward src [] _ _ s0 (with_display (metadata m) h) Hs) as H1.
  set (s1 := forward _ _ s0) in *. rewrite app_nil_l in H1.
  assert (Eb : exists b c X, (tone_bits (tone_mapping (metadata m)) ++ saturation_bits (saturation m)) ++ T = b :: c :: X).
  { unfold tone_bits. destruct (_ =? 0).
    - destruct (saturation m); cbn [saturation_bits app]; by repeat eexists.
    - destruct (curve_bits (tone_mapping (metadata m))) as [|c X] eqn:Ec; [|by repeat eexists].
      apply (f_equal length) in Ec. unfold curve_bits in Ec. rewrite !length_app, !length_bits in Ec. done. }
  destruct Eb as (b & c & X & Eb). rewrite Eb in H1.
  destruct (tone_lost (head_bits m) b c X s1) as (s2 & E2 & Eh); [by rewrite head_position|done|].
  unfold Exynos_parsing_user_data_registered_itu_t_t35. rewrite parser_split. fold s0. unfold mbind, Reader_bind. rewrite E.
  change (for_lt 1 (fun _ => window_tone_mapping src)) with (window_tone_mapping src ;; mret tt). unfold mbind, Reader_bind. fold s1. rewrite E2.
  by unfold mret, Reader_ret; rewrite Eh.
Qed.

(** ** Messages that are refused *)

Lemma parse_after_codes d h X T : hdr_ok d -> stream_bits src = code_bits d ++ X ++ T -> length X = 2%nat ->
  exists s, reads_at src (code_bits d) (X ++ T) s /\ hdr s = with_codes d h /\ (length (code_bits d) mod 8 = 0)%nat /\
    itu_t_t35 src {| bit_offset := 0; extraBit := 0; hdr := h |} =
      (windows ← num_windows src;
       for_lt (windows - 1) (fun _ => geometry) ;;
       maximum_luminance src ;;
       actual_peak_luminance src ;;
       for_lt windows (fun _ => window_colours src) ;;
       actual_peak_luminance src ;;
       for_lt windows (fun _ => window_tone_mapping src)) s.
Proof using bytes_src.
  intros Hd Es HX. set (s0 := {| bit_offset := 0; extraBit := 0; hdr := h |}).
  assert (Hs : reads_at src [] (code_bits d ++ X ++ T) s0) by done.
  exists (forward (Z.of_nat (length (code_bits d))) (with_codes d h) s0). split; [exact (reads_at_forward src [] _ _ s0 _ Hs)|]. split; [done|].
  split; [unfold code_bits; by rewrite !length_app, !length_bits|].
  unfold itu_t_t35. unfold mbind at 1, Reader_bind at 1. by rewrite (reads_codes src bytes_src d h Hd [] _ s0 eq_refl Hs eq_refl).
Qed.

Lemma parse_no_windows d h T : hdr_ok d -> stream_bits src = code_bits d ++ bits 2 0 ++ T ->
  Exynos_parsing_user_data_registered_itu_t_t35 src h = Some (-1, with_codes d h).
Proof using bytes_src.
  intros Hd Es. destruct (parse_after_codes d h (bits 2 0) T Hd Es eq_refl) as (s & Hs & Eh & H0 & E).
  unfold Exynos_parsing_user_data_registered_itu_t_t35. rewrite E. rewrite <- Eh.
  unfold mbind at 1, Reader_bind at 1. by rewrite (refuses_no_windows src bytes_src (code_bits d) T s H0 Hs).
Qed.

Lemma parse_too_bright d h v T : hdr_ok d -> 10000 < v < 2 ^ 27 -> stream_bits src = code_bits d ++ bits 2 1 ++ bits 27 v ++ T ->
  Exynos_parsing_user_data_registered_itu_t_t35 src h = Some (-1, (with_codes d h) <| display_maximum_luminance := v |>).
Proof using bytes_src.
  intros Hd Hv Es. destruct (parse_after_codes d h (bits 2 1) (bits 27 v ++ T) Hd Es eq_refl) as (s & Hs & Eh & H0 & E).
  unfold Exynos_parsing_user_data_registered_itu_t_t35. rewrite E. rewrite <- Eh.
  unfold mbind at 1, Reader_bind at 1. rewrite (reads_windows src bytes_src (hdr s) (bits 2 1) eq_refl ltac:(done) (code_bits d) _ s H0 Hs eq_refl).
  pose proof (reads_at_forward src _ _ _ s (hdr s) Hs) as H1. set (s1 := forward _ _ s) in *.
  unfold mbind at 1, Reader_bind at 1. change (for_lt (value (bits 2 1) - 1) (fun _ => geometry) s1) with (Some (Some tt, s1)). cbv iota beta.
  assert (L2 : (length (code_bits d ++ bits 2 1) mod 8 = 2)%nat).
  { rewrite length_app, <- Nat.Div0.add_mod_idemp_l, H0. done. }
  unfold mbind at 1, Reader_bind at 1.
  assert (Em : maximum_luminance src s1 = Some (None, forward 27 ((hdr s1) <| display_maximum_luminance := v |>) s1)).
  { unfold maximum_luminance. unfold mbind at 1, Reader_bind at 1, reader at 1.
    destruct (H1) as (_ & _ & Ex). rewrite <- (Nat2Z.inj_mod _ 8), L2 in Ex. rewrite Ex. unfold mbind at 1, Reader_bind at 1.
    pose proof (reads_field src bytes_src 2 (hdr s1) 27 4 (bits 27 v) eq_refl ltac:(done) eq_refl ltac:(done) _ T s1 L2 H1 eq_refl) as F.
    change (3 + (if 5 <? Z.of_nat 2 then 2 else 1)) with 4. rewrite F. rewrite value_bits_small by (change (2 ^ Z.of_nat 27) with (2 ^ 27); lia).
    transitivity ((if 10000 <? u32 v then refuse else mret tt) (forward 27 ((hdr s1) <| display_maximum_luminance := u32 v |>) s1)); [done|].
    rewrite u32_small by lia. by rewrite (proj2 (Z.ltb_lt _ _)) by lia. }
  by rewrite Em.
Qed.
End parsing.
