(* ===== verification/HdrSafe.v ===== *)
(** * Parsing any stream

    The parser on arbitrary bytes: a function is [stays n] if it does not read outside the
    stream and the arrays, and goes on by [n] bits at most. *)

From S2P Require Import Prelude Effects HdrBits HdrData HdrParse HdrSei HdrEscape HdrRead HdrParsed.

Section safety.
Context (src : list Z).
Hypothesis bytes_src : Forall is_byte src.

Definition positioned (s : hdr_reader) : Prop := 0 <= bit_offset s /\ extraBit s = bit_offset s `mod` 8.

Definition stays {A} (n : Z) (P : ExynosHdrData_ST2094_40 -> Prop) (o : Reader A) (Q : A -> ExynosHdrData_ST2094_40 -> Prop) : Prop :=
  forall s, positioned s -> bit_offset s + n <= 8 * Z.of_nat (length src) -> P (hdr s) ->
    exists r s', o s = Some (r, s') /\
      match r with
      | None => True
      | Some a => positioned s' /\ bit_offset s' <= bit_offset s + n /\ Q a (hdr s')
      end.

(** ** Rules *)

Lemma stays_bind {A B} n m P (o : Reader A) (k : A -> Reader B) R Q :
  stays m P o R -> (forall a, stays (n - m) (R a) (k a) Q) -> m <= n -> stays n P (o ≫= k) Q.
Proof using.
  intros Ho Hk Hm s Hs Hn HP. destruct (Ho s Hs) as (r & s1 & E & H); [lia|done|]. unfold mbind, Reader_bind. rewrite E.
  destruct r as [a|]; [|by exists None, s1]. destruct H as (H1 & L1 & HR).
  destruct (Hk a s1 H1) as (r & s2 & E2 & H2); [lia|done|]. exists r, s2. split; [done|].
  destruct r as [b|]; [|done]. destruct H2 as (? & ? & ?). split; [done|]. split; [lia|done].
Qed.

Lemma stays_ret {A} n P (a : A) Q : 0 <= n -> (forall h, P h -> Q a h) -> stays n P (mret a) Q.
Proof using. intros Hn HQ s Hs _ HP. exists (Some a), s. split; [done|]. split; [done|]. split; [lia|auto]. Qed.

Lemma stays_refuse {A} n P (Q : A -> ExynosHdrData_ST2094_40 -> Prop) : stays n P refuse Q.
Proof using. intros s _ _ _. by exists None, s. Qed.

Lemma stays_weaken {A} n m P P' (o : Reader A) Q Q' : stays m P' o Q' -> m <= n -> (forall h, P h -> P' h) -> (forall a h, Q' a h -> Q a h) -> stays n P o Q.
Proof using.
  intros Ho Hm HP HQ s Hs Hn Hh. destruct (Ho s Hs) as (r & s1 & E & H); [lia|auto|]. exists r, s1. split; [done|].
  destruct r as [a|]; [|done]. destruct H as (? & ? & ?). split; [done|]. split; [lia|auto].
Qed.

Lemma stays_if {A} n P (b : bool) (o o' : Reader A) Q : (b = true -> stays n P o Q) -> (b = false -> stays n P o' Q) -> stays n P (if b then o else o') Q.
Proof using. destruct b; auto. Qed.

Lemma stays_extra n P : 0 <= n -> stays n P (reader extraBit) (fun e h => 0 <= e < 8 /\ P h).
Proof using.
  intros Hn s Hs _ HP. exists (Some (extraBit s)), s. split; [done|]. split; [done|]. split; [lia|]. split; [|done].
  destruct Hs as [_ ->]. by apply Z.mod_pos_bound.
Qed.

Lemma stays_data {A} n P (f : ExynosHdrData_ST2094_40 -> A) : 0 <= n -> stays n P (data_of f) (fun a h => a = f h /\ P h).
Proof using. intros Hn s Hs _ HP. exists (Some (f (hdr s))), s. split; [done|]. split; [done|]. split; [lia|done]. Qed.

Lemma stays_set n P f Q : 0 <= n -> (forall h, P h -> Q tt (f h)) -> stays n P (set_hdr f) Q.
Proof using. intros Hn HQ s Hs _ HP. exists (Some tt), {| bit_offset := bit_offset s; extraBit := extraBit s; hdr := f (hdr s) |}. split; [done|]. split; [done|]. split; [cbn; lia|]. by apply HQ. Qed.

Lemma stays_skip m n P : 0 <= m <= n -> stays n P (skip m) (fun _ => P).
Proof using.
  intros Hn s [Hs _] _ HP. eexists (Some tt), (forward m (hdr s) s). split; [done|]. split; [|split; [cbn; lia|done]].
  split; [cbn; lia|done].
Qed.

Lemma stays_iterate n m P body i k : (forall j, i <= j < i + Z.of_nat k -> stays m P (body j) (fun _ => P)) -> 0 <= m -> Z.of_nat k * m <= n ->
  stays n P (iterate k i body) (fun _ => P).
Proof using.
  revert n i. induction k as [|k IH]; intros n i Hb Hm Hn; cbn [iterate]; [by apply stays_ret|].
  apply (stays_bind _ m _ _ _ (fun _ => P)); [apply Hb; lia| |nia]. intros _. apply IH; [|done|lia]. intros j Hj. apply Hb. lia.
Qed.

(** A loop of [k] rounds at most. *)
Lemma stays_for n m P body c k : c <= k -> 0 <= k -> (forall j, 0 <= j < c -> stays m P (body j) (fun _ => P)) -> 0 <= m -> k * m <= n ->
  stays n P (for_lt c body) (fun _ => P).
Proof using.
  intros Hc Hk Hb Hm Hn. unfold for_lt. apply (stays_iterate n m); [|done|nia]. intros j Hj. apply Hb. lia.
Qed.

Lemma stays_assoc {A B C} n P (o : Reader A) (f : A -> Reader B) (k : B -> Reader C) Q :
  stays n P ((o ≫= f) ≫= k) Q -> stays n P (o ≫= (fun a => f a ≫= k)) Q.
Proof using.
  intros H s Hs Hl HP. destruct (H s Hs Hl HP) as (r & s' & E & H'). exists r, s'. split; [|done]. rewrite <- E.
  unfold mbind, Reader_bind. by destruct (o s) as [[[a|] s1]|].
Qed.

(** What does not depend on the structure is a hypothesis. *)
Lemma stays_pure {A} n (p : Prop) P (o : Reader A) Q : (p -> stays n P o Q) -> stays n (fun h => p /\ P h) o Q.
Proof using. intros H s Hs Hl [Hp HP]. by apply (H Hp). Qed.

(** ** Reading *)

Lemma src_defined i : 0 <= i < Z.of_nat (length src) -> exists b, element src i = Some b /\ src !! Z.to_nat i = Some b /\ is_byte b.
Proof using bytes_src. intros Hi. destruct (element_at src bytes_src (Z.to_nat i)) as (b & E & H); [lia|]. rewrite Z2Nat.id in E by lia. eauto. Qed.

Lemma gather_defined k j count data s : 0 <= bit_offset s `div` 8 + j -> bit_offset s `div` 8 + j + Z.of_nat k <= Z.of_nat (length src) ->
  exists v x, gather src k j count data s = Some (Some v, {| bit_offset := bit_offset s; extraBit := x; hdr := hdr s |}).
Proof using bytes_src.
  revert j data s. induction k as [|k IH]; intros j data s H0 Hl; cbn [gather].
  - exists data, (extraBit s). by destruct s.
  - destruct (src_defined (bit_offset s `div` 8 + j)) as (b & E & _); [lia|].
    unfold mbind at 1, Reader_bind at 1, reader at 1. unfold mbind at 1, Reader_bind at 1, reader at 1.
    unfold mbind at 1, Reader_bind at 1, src_at at 1, in_array at 1. rewrite E. cbv zeta. unfold mbind at 1, Reader_bind at 1, modify.
    match goal with |- context [gather src k (j + 1) count ?d ?s1] => destruct (IH (j + 1) d s1) as (v & x & E1); [cbn; lia..|] end.
    rewrite E1. by exists v, x.
Qed.

(** Any number of bytes that are there. *)
Lemma stays_field m n P count : 0 <= m <= n -> (forall e, 0 <= e < 8 -> 0 < count e /\ 8 * count e < e + m + 8) ->
  stays n P (e ← reader extraBit; field src m (count e)) (fun _ => P).
Proof using bytes_src.
  intros Hn Hc s [Hs Ex] Hl HP. assert (He : 0 <= extraBit s < 8) by (rewrite Ex; by apply Z.mod_pos_bound).
  destruct (Hc _ He) as [H0 H8]. unfold mbind at 1, Reader_bind at 1, reader at 1.
  unfold field, mbind, Reader_bind.
  destruct (gather_defined (Z.to_nat (count (extraBit s))) 0 (count (extraBit s)) 0 s) as (v & x & E); [dlia|dlia|]. rewrite E.
  eexists (Some _), (forward m (hdr s) s). split; [done|]. split; [split; [cbn; lia|done]|]. split; [cbn; lia|done].
Qed.

(** As many bytes as the field touches: its value. *)
Lemma stays_value m n P count : 0 < m <= 24 -> m <= n -> (forall e, 0 <= e < 8 -> count e = (e + m + 7) `div` 8) ->
  stays n P (e ← reader extraBit; field src m (count e)) (fun v h => 0 <= v < 2 ^ m /\ P h).
Proof using bytes_src.
  intros Hm Hn Hc s [Hs Ex] Hl HP. assert (He : 0 <= extraBit s < 8) by (rewrite Ex; by apply Z.mod_pos_bound).
  set (pre := take (Z.to_nat (bit_offset s)) (stream_bits src)). set (rest := drop (Z.to_nat (bit_offset s)) (stream_bits src)).
  assert (Lr : Z.of_nat (length rest) = 8 * Z.of_nat (length src) - bit_offset s) by (unfold rest; rewrite length_drop, length_stream; lia).
  assert (Lp : Z.of_nat (length pre) = bit_offset s) by (unfold pre; rewrite length_take, length_stream; lia).
  set (X := take (Z.to_nat m) rest). assert (LX : length X = Z.to_nat m) by (unfold X; rewrite length_take; lia).
  assert (Hr : reads_at src pre (X ++ drop (Z.to_nat m) rest) s).
  { split; [unfold X, pre, rest; by rewrite !take_drop|]. by rewrite Lp. }
  unfold mbind at 1, Reader_bind at 1, reader at 1.
  pose proof (field_spec src bytes_src (Z.to_nat m) (count (extraBit s)) pre X _ s Hr LX ltac:(lia)) as F. rewrite Z2Nat.id in F by lia.
  rewrite F by (rewrite Hc by done; dlia). eexists (Some _), (forward m (hdr s) s). split; [done|]. split; [split; [cbn; lia|done]|].
  split; [cbn; lia|]. split; [|done]. pose proof (value_range X) as R. by rewrite LX, Z2Nat.id in R by lia.
Qed.

Lemma stays_17 n P : 17 <= n -> stays n P (field src 17 3) (fun _ => P).
Proof using bytes_src.
  intros Hn s Hs Hl HP. destruct (stays_field 17 n P (fun _ => 3) ltac:(lia) ltac:(intros; lia) s Hs Hl HP) as (r & s' & E & H). by exists r, s'.
Qed.

Lemma stays_flag_bit n P : 1 <= n -> stays n P (flag_bit src) (fun _ => P).
Proof using bytes_src.
  intros Hn s [Hs Ex] Hl HP. destruct (src_defined (bit_offset s `div` 8)) as (b & E & _); [dlia|].
  unfold flag_bit, mbind, Reader_bind, reader, src_at, in_array. rewrite E.
  eexists (Some _), (forward 1 (hdr s) s). split; [done|]. split; [split; [cbn; lia|done]|]. split; [cbn; lia|done].
Qed.

Lemma stays_flag n P : 1 <= n -> stays n P (flag src) (fun _ => P).
Proof using bytes_src.
  intros Hn. unfold flag. eapply (stays_bind _ 1); [by apply stays_flag_bit| |lia]. intros a. cbv beta. unfold align_data.
  eapply (stays_bind _ 0); [apply stays_extra; lia| |lia]. intros e. apply stays_ret; [lia|]. by intros h [_ H].
Qed.

Lemma gather_code_defined k i data s : 0 <= bit_offset s `div` 8 + i -> bit_offset s `div` 8 + i + Z.of_nat k <= Z.of_nat (length src) ->
  exists v, gather_code src k i data s = Some (Some v, s).
Proof using bytes_src.
  revert i data. induction k as [|k IH]; intros i data H0 Hl; cbn [gather_code]; [by exists data|].
  destruct (src_defined (bit_offset s `div` 8 + i)) as (b & E & _); [lia|].
  unfold mbind, Reader_bind, reader, src_at, in_array. rewrite E. apply IH; lia.
Qed.

Lemma stays_code m n P : 0 <= m -> 8 * m <= n -> stays n P (code src m) (fun _ => P).
Proof using bytes_src.
  intros Hm Hn s [Hs Ex] Hl HP. unfold code, mbind, Reader_bind. destruct (gather_code_defined (Z.to_nat m) 0 0 s) as [v E]; [dlia|dlia|]. rewrite E.
  eexists (Some v), {| bit_offset := bit_offset s + 8 * m; extraBit := extraBit s; hdr := hdr s |}. split; [done|].
  split; [|split; [cbn; lia|done]]. split; [cbn; lia|]. cbn. rewrite Ex, Z.mul_comm, Z.mod_add by lia. done.
Qed.

(** ** The parser *)

#[local] Abbreviation keep := (fun _ => arrays_ok).

(** A step that reads nothing and whose result does not matter. *)
Lemma stays_read {A B} n (f : ExynosHdrData_ST2094_40 -> A) (k : A -> Reader B) Q :
  0 <= n -> (forall a, stays n arrays_ok (k a) Q) -> stays n arrays_ok (data_of f ≫= k) Q.
Proof using.
  intros Hn Hk. eapply (stays_bind _ 0); [by apply stays_data| |done]. intros a. rewrite Z.sub_0_r.
  eapply stays_weaken; [apply Hk|lia| |done]. by intros h [_ H].
Qed.

Lemma stays_store n f : 0 <= n -> (forall h, arrays_ok h -> arrays_ok (f h)) -> stays n arrays_ok (set_hdr f) keep.
Proof using. intros Hn Hf. by apply stays_set. Qed.

Lemma stays_tone_store n f : 0 <= n -> (forall t, length (bezier_curve_anchors (f t)) = length (bezier_curve_anchors t)) ->
  stays n arrays_ok (set_tone f) keep.
Proof using. intros Hn Hf. apply stays_set; [done|]. intros h (? & ? & ? & H). do 3 (split; [done|]).
  transitivity (length (bezier_curve_anchors (f (tone_mapping h)))); [done|by rewrite Hf].
Qed.

(** An assignment to a cell of an array of the structure. *)
Lemma stays_cell {B} n (get : ExynosHdrData_ST2094_40 -> list Z) len j x (k : list Z -> Reader B) Q :
  (forall h, arrays_ok h -> length (get h) = len) -> 0 <= j < Z.of_nat len -> 0 <= n ->
  (forall l, length l = len -> stays n arrays_ok (k l) Q) ->
  stays n arrays_ok (l ← data_of get; l ← in_array (assign l j x); k l) Q.
Proof using.
  intros Hg Hj Hn Hk s Hs Hl HP. unfold mbind at 1, Reader_bind at 1, data_of, reader.
  unfold assign. rewrite (Hg _ HP), (proj2 (Z.leb_le 0 j)), (proj2 (Z.ltb_lt j _)) by lia. cbn [andb].
  unfold mbind, Reader_bind, in_array. apply Hk; [|done|lia|done]. by rewrite length_insert, (Hg _ HP).
Qed.

Lemma stays_windows n : 2 <= n -> stays n arrays_ok (num_windows src) (fun w h => 1 <= w <= 3 /\ arrays_ok h).
Proof using bytes_src.
  intros Hn s [Hs Ex] Hl HP. destruct (src_defined (bit_offset s `div` 8)) as (b & E & _); [dlia|].
  unfold num_windows. unfold mbind at 1, Reader_bind at 1, reader at 1. unfold mbind at 1, Reader_bind at 1, src_at, in_array. rewrite E.
  set (d := foldl _ _ _). set (w := d ≫ (8 - (bit_offset s + 2) `mod` 8)).
  destruct ((w <? 1) || (3 <? w)) eqn:Ew.
  - exists None, (forward 2 (hdr s) s). split; [|done].
    transitivity ((if (w <? 1) || (3 <? w) then refuse else mret w) (forward 2 (hdr s) s)); [done|by rewrite Ew].
  - apply orb_false_iff in Ew as [E1 E2]. apply Z.ltb_ge in E1, E2. exists (Some w), (forward 2 (hdr s) s). split.
    + transitivity ((if (w <? 1) || (3 <? w) then refuse else mret w) (forward 2 (hdr s) s)); [done|].
      by rewrite (proj2 (Z.ltb_ge w 1)), (proj2 (Z.ltb_ge 3 w)) by lia.
    + split; [split; [cbn; lia|done]|]. split; [cbn; lia|done].
Qed.

Lemma stays_geometry n : 153 <= n -> stays n arrays_ok geometry keep.
Proof using.
  intros Hn. unfold geometry. do 10 (eapply stays_bind; [apply stays_skip; split; [lia|apply Z.le_refl]|intros []|lia]). apply stays_skip. lia.
Qed.

Lemma stays_codes n : 56 <= n -> stays n arrays_ok (codes src) keep.
Proof using bytes_src.
  intros Hn. unfold codes.
  do 4 (eapply stays_bind; [apply stays_code; [lia|apply Z.le_refl]|intros ?|lia]; eapply (stays_bind _ 0); [by apply stays_store|intros []|lia]).
  eapply stays_bind; [apply stays_code; [lia|apply Z.le_refl]|intros ?|lia]. apply stays_store; [lia|done].
Qed.

Lemma stays_luminance n : 27 <= n -> stays n arrays_ok (maximum_luminance src) keep.
Proof using bytes_src.
  intros Hn. unfold maximum_luminance.
  apply (stays_assoc n _ (reader extraBit) (fun e => field src 27 (3 + (if 5 <? e then 2 else 1)))).
  eapply stays_bind; [apply (stays_field 27 27 _ (fun e => 3 + (if 5 <? e then 2 else 1))); [lia|]| |lia].
  { intros e He. destruct (Z.ltb_spec 5 e); lia. }
  intros data. eapply (stays_bind _ 0); [by apply stays_store|intros []|lia]. apply stays_read; [lia|]. intros l.
  apply stays_if; intros _; [apply stays_refuse|by apply stays_ret; [lia|]].
Qed.

Lemma stays_dimension n : 5 <= n -> stays n arrays_ok (dimension src) (fun v h => 2 <= v <= 25 /\ arrays_ok h).
Proof using bytes_src.
  intros Hn. unfold dimension.
  apply (stays_assoc n _ (reader extraBit) (fun e => field src 5 (1 + (if 3 <? e then 1 else 0)))).
  eapply stays_bind; [apply (stays_field 5 5 _ (fun e => 1 + (if 3 <? e then 1 else 0))); [lia|]| |lia].
  { intros e He. destruct (Z.ltb_spec 3 e); lia. }
  intros v. cbv beta. destruct ((v <? 2) || (25 <? v)) eqn:E; [apply stays_refuse|].
  apply orb_false_iff in E as [E1 E2]. apply Z.ltb_ge in E1, E2. apply stays_ret; [lia|done].
Qed.

(** An array has up to 25 rows and columns. *)
Lemma stays_peak n : 2511 <= n -> stays n arrays_ok (actual_peak_luminance src) keep.
Proof using bytes_src.
  intros Hn. unfold actual_peak_luminance. eapply (stays_bind _ 1); [by apply stays_flag|intros present|lia].
  apply stays_if; intros _; [|by apply stays_ret; [lia|]].
  eapply (stays_bind _ 5); [by apply stays_dimension|intros rows; apply stays_pure; intros Hr|lia].
  eapply (stays_bind _ 5); [by apply stays_dimension|intros cols; apply stays_pure; intros Hc|lia].
  apply (stays_for _ 100 _ _ _ 25); [lia|done| |done|lia]. intros _ _. apply (stays_for _ 4 _ _ _ 25); [lia|done| |done|lia]. intros _ _. by apply stays_skip.
Qed.

Lemma stays_percentile n j : 0 <= j < 15 -> 24 <= n -> stays n arrays_ok (percentile src j) keep.
Proof using bytes_src.
  intros Hj Hn. unfold percentile.
  apply (stays_assoc n _ (reader extraBit) (fun e => field src 7 (1 + (if 1 <? e then 1 else 0)))).
  eapply stays_bind; [apply (stays_field 7 7 _ (fun e => 1 + (if 1 <? e then 1 else 0))); [lia|]| |lia].
  { intros e He. destruct (Z.ltb_spec 1 e); lia. }
  intros a. apply (stays_cell _ _ 15); [by intros h (_ & H & _)|lia|lia|]. intros l Hl.
  eapply (stays_bind _ 0); [apply stays_store; [lia|]|intros []|lia]. { intros h (? & _ & ? & ?). done. }
  eapply (stays_bind _ 17); [apply (stays_17 17); lia|intros b|lia].
  apply (stays_cell _ _ 15); [by intros h (_ & _ & H & _)|lia|lia|]. intros l' Hl'.
  apply stays_store; [lia|]. intros h (? & ? & _ & ?). done.
Qed.

Lemma stays_colours n : 442 <= n -> stays n arrays_ok (window_colours src) keep.
Proof using bytes_src.
  intros Hn. unfold window_colours.
  eapply (stays_bind _ 51); [apply (stays_for _ 17 _ _ _ 3); [done|done| |done|done]|intros []|lia].
  { intros j Hj. eapply (stays_bind _ 17); [by apply stays_17|intros a|done]. apply (stays_cell _ _ 3); [by intros h (H & _)|lia|done|]. intros l Hl.
    apply stays_store; [done|]. intros h (_ & ? & ? & ?). done. }
  eapply (stays_bind _ 17); [by apply stays_skip|intros []|lia].
  apply (stays_assoc _ _ (reader extraBit) (fun e => field src 4 (1 + (if 4 <? e then 1 else 0)))).
  eapply (stays_bind _ 4); [apply (stays_value 4 4 _ (fun e => 1 + (if 4 <? e then 1 else 0))); [lia|lia|]|intros v; apply stays_pure; intros Hv|lia].
  { intros e He. destruct (Z.ltb_spec 4 e); dlia. }
  eapply (stays_bind _ 0 _ _ _ (fun _ h => num_maxrgb_percentiles h = v /\ arrays_ok h)); [apply stays_set; [done|]|intros []|lia].
  { intros h Hh. split; [apply u8_small; lia|done]. }
  eapply (stays_bind _ 0 _ _ _ (fun c h => c = v /\ arrays_ok h)); [eapply (stays_weaken _ 0 _ (fun h => num_maxrgb_percentiles h = v /\ arrays_ok h)); [by apply stays_data|done|done|]|intros c; apply stays_pure; intros ->|lia].
  { intros a h (-> & -> & H). done. }
  eapply (stays_bind _ 360); [apply (stays_for _ 24 _ _ _ 15); [lia|done| |done|done]|intros []|lia].
  { intros j Hj. apply stays_percentile; lia. }
  apply stays_skip. lia.
Qed.

Lemma stays_knee n : 12 <= n -> stays n arrays_ok (knee_point src) keep.
Proof using bytes_src.
  intros Hn. apply (stays_field 12 n _ (fun e => 1 + (if 5 <? e then 2 else 1))); [lia|]. intros e He. destruct (Z.ltb_spec 5 e); lia.
Qed.

Lemma stays_anchor n j : 0 <= j < 15 -> 10 <= n -> stays n arrays_ok (anchor src j) keep.
Proof using bytes_src.
  intros Hj Hn. unfold anchor.
  apply (stays_assoc n _ (reader extraBit) (fun e => field src 10 (1 + (if 6 <? e then 2 else 1)))).
  eapply stays_bind; [apply (stays_field 10 10 _ (fun e => 1 + (if 6 <? e then 2 else 1))); [lia|]| |lia].
  { intros e He. destruct (Z.ltb_spec 6 e); lia. }
  intros a. apply (stays_cell _ _ 15); [by intros h (_ & _ & _ & H)|lia|lia|]. intros l Hl.
  apply stays_store; [lia|]. intros h (? & ? & ? & _). done.
Qed.

Lemma stays_tone n : 186 <= n -> stays n arrays_ok (window_tone_mapping src) keep.
Proof using bytes_src.
  intros Hn. unfold window_tone_mapping. eapply (stays_bind _ 1); [by apply stays_flag_bit|intros data|lia].
  eapply (stays_bind _ 0); [by apply stays_extra|intros e; apply stays_pure; intros _|lia].
  eapply (stays_bind _ 0); [by apply stays_tone_store|intros []|lia]. apply stays_read; [lia|]. intros present.
  eapply (stays_bind _ 178 _ _ _ keep); [apply stays_if; intros _; [|by apply stays_ret]|intros []|lia].
  - eapply (stays_bind _ 12); [by apply stays_knee|intros x|done]. eapply (stays_bind _ 0); [by apply stays_tone_store|intros []|done].
    eapply (stays_bind _ 12); [by apply stays_knee|intros y|done]. eapply (stays_bind _ 0); [by apply stays_tone_store|intros []|done].
    apply (stays_assoc _ _ (reader extraBit) (fun e => field src 4 (1 + (if 4 <? e then 1 else 0)))).
    eapply (stays_bind _ 4); [apply (stays_field 4 4 _ (fun e => 1 + (if 4 <? e then 1 else 0))); [done|]|intros c|done].
    { intros e' He. destruct (Z.ltb_spec 4 e'); lia. }
    eapply (stays_bind _ 0); [by apply stays_tone_store|intros []|done]. apply stays_read; [done|]. intros version. apply stays_read; [done|]. intros k.
    apply stays_if; [intros _; apply stays_refuse|intros Hk]. apply Z.ltb_ge in Hk.
    apply (stays_for _ 10 _ _ _ 15); [destruct (version =? 1); lia|done| |done|done]. intros j Hj. apply stays_anchor; [destruct (version =? 1); lia|done].
  - eapply (stays_bind _ 1); [by apply stays_flag|intros saturation|lia]. apply stays_if; intros _; [apply stays_skip; lia|by apply stays_ret; [lia|]].
Qed.

(** What a stream of three windows takes at most. *)
Definition max_bits : Z := 56 + 2 + 2 * 153 + 27 + 2511 + 3 * 442 + 2511 + 3 * 186.

Lemma stays_parser : stays max_bits arrays_ok (itu_t_t35 src) keep.
Proof using bytes_src.
  unfold itu_t_t35. eapply (stays_bind _ 56); [by apply stays_codes|intros []|done].
  eapply (stays_bind _ 2); [by apply stays_windows|intros w; apply stays_pure; intros Hw|done].
  eapply (stays_bind _ 306); [apply (stays_for _ 153 _ _ _ 2); [lia|done|by intros; apply stays_geometry|done|done]|intros []|done].
  eapply (stays_bind _ 27); [by apply stays_luminance|intros []|done]. eapply (stays_bind _ 2511); [by apply stays_peak|intros []|done].
  eapply (stays_bind _ 1326); [apply (stays_for _ 442 _ _ _ 3); [lia|done|by intros; apply stays_colours|done|done]|intros []|done].
  eapply (stays_bind _ 2511); [by apply stays_peak|intros []|done].
  apply (stays_for _ 186 _ _ _ 3); [lia|done|by intros; apply stays_tone|done|done].
Qed.

Lemma parse_defined h : arrays_ok h -> max_bits <= 8 * Z.of_nat (length src) ->
  exists r h', Exynos_parsing_user_data_registered_itu_t_t35 src h = Some (r, h') /\ (r = 0 \/ r = -1).
Proof using bytes_src.
  intros Hh Hl. unfold Exynos_parsing_user_data_registered_itu_t_t35.
  destruct (stays_parser {| bit_offset := 0; extraBit := 0; hdr := h |}) as (r & s' & E & _); [done|done|done|]. rewrite E.
  destruct r as [[]|]; eauto.
Qed.
End safety.
