(* ===== verification/HdrApi.v ===== *)
(** * HDR10+ metadata: samples *)

From S2P Require Import Prelude Effects HdrBits HdrData HdrParse HdrMux HdrSei HdrEscape HdrPack HdrMessage HdrWrite HdrPut HdrRead HdrParsed HdrSafe.
(** The registered codes, and a tone mapping with nine anchors. *)
Definition sample_tone : hdr_tone_mapping := {|
  tone_mapping_flag := 1; knee_point_x := 0; knee_point_y := 17; num_bezier_curve_anchors := 9;
  bezier_curve_anchors := [102; 205; 307; 410; 512; 614; 717; 819; 922; 0; 0; 0; 0; 0; 0] |}.
Definition sample : ExynosHdrData_ST2094_40 := {|
  country_code := 0xB5; provider_code := 0x003C; provider_oriented_code := 0x0001; application_identifier := 4; application_version := 1;
  display_maximum_luminance := 400; maxscl := [20000; 0; 5000]; num_maxrgb_percentiles := 9;
  maxrgb_percentages := [1; 5; 10; 25; 50; 75; 90; 95; 99; 0; 0; 0; 0; 0; 0];
  maxrgb_percentiles := [0; 4000; 98; 12; 50; 100; 300; 600; 20000; 0; 0; 0; 0; 0; 0]; tone_mapping := sample_tone |}.

(** A structure before it is filled in. *)
Definition no_tone : hdr_tone_mapping := {|
  tone_mapping_flag := 0; knee_point_x := 0; knee_point_y := 0; num_bezier_curve_anchors := 0; bezier_curve_anchors := replicate 15 0 |}.
Definition no_metadata : ExynosHdrData_ST2094_40 := {|
  country_code := 0; provider_code := 0; provider_oriented_code := 0; application_identifier := 0; application_version := 0;
  display_maximum_luminance := 0; maxscl := replicate 3 0; num_maxrgb_percentiles := 0;
  maxrgb_percentages := replicate 15 0; maxrgb_percentiles := replicate 15 0; tone_mapping := no_tone |}.

(** With the luminances of the targeted display, in [rows] of [cols] cells. *)
Definition sample_message (rows cols : nat) : itu_message := {|
  metadata := sample; targeted := Some (replicate rows (replicate cols 3)); average := 1234; fraction := 5; mastering := None; saturation := Some 9 |}.

Lemma sample_ok : hdr_ok sample.
Proof. by constructor; try (repeat constructor; lia). Qed.

Lemma no_metadata_ok : arrays_ok no_metadata.
Proof. done. Qed.

Lemma sample_message_ok rows cols : (2 <= rows <= 25)%nat -> (2 <= cols <= 25)%nat -> itu_ok (sample_message rows cols).
Proof.
  intros Hr Hc. assert (E : columns (replicate rows (replicate cols 3)) = Z.of_nat cols).
  { destruct rows as [|rows]; [lia|]. unfold columns. cbn. by rewrite length_replicate. }
  constructor; [exact sample_ok|done|done| |done]. cbn [targeted sample_message peak_ok]. rewrite E, length_replicate.
  split; [lia|]. split; [lia|]. apply Forall_replicate. by rewrite length_replicate.
Qed.

(** ** Theorems

    The metadata as a stream and back, streams of any content, and the SEI message in the
    buffer of the video codec. *)

(** ** The stream *)

(** The metadata without optional fields, in whole bytes. *)
Definition plain_stream (d : ExynosHdrData_ST2094_40) : list Z := to_bytes (itu_bits (plain 0 d)).

(** The parser accepts the values. *)
Definition displayable (d : ExynosHdrData_ST2094_40) : Prop :=
  display_maximum_luminance d <= 10000 /\
  (tone_mapping_flag (tone_mapping d) = 1 -> num_bezier_curve_anchors (tone_mapping d) <= if application_version d =? 1 then 9 else 15).

Lemma plain_ok v d : hdr_ok d -> displayable d -> itu_ok (plain v d).
Proof. by intros Hd [H1 H2]. Qed.

(** C12. In a buffer of zeros Exynos_dynamic_meta_to_itu_t_t35 leaves the metadata in the
    syntax of ST 2094-40 and returns its size; the parser reads the same metadata from the
    buffer, except that a 16-bit code comes back exactly if its upper byte is 0. *)
Theorem metadata_roundtrip d h n : hdr_ok d -> displayable d -> arrays_ok h -> (length (plain_stream d) <= n)%nat ->
  exists blob d', Exynos_dynamic_meta_to_itu_t_t35 d (replicate n 0) = Some (Z.of_nat (length (plain_stream d)), blob) /\
    blob = plain_stream d ++ replicate (n - length (plain_stream d)) 0 /\
    Exynos_parsing_user_data_registered_itu_t_t35 blob h = Some (0, d') /\ same_metadata d d' /\
    (provider_code d' = provider_code d <-> provider_code d < 256) /\
    (provider_oriented_code d' = provider_oriented_code d <-> provider_oriented_code d < 256).
Proof.
  intros Hd Hv Hh Hn. exists (plain_stream d ++ replicate (n - length (plain_stream d)) 0), (with_metadata d h).
  split; [by apply dynamic_meta|]. split; [done|]. split; [|split; [by apply with_metadata_same|split]].
  - eapply (parse_reads _ _ (plain 0 d)); [by apply plain_ok|done|done|].
    unfold plain_stream. by rewrite stream_app, stream_to_bytes, <- app_assoc.
  - exact (merged_id _ (ok_provider d Hd)).
  - exact (merged_id _ (ok_oriented d Hd)).
  Unshelve. apply Forall_app. split; [apply to_bytes_range|by apply Forall_replicate].
Qed.

Example metadata_roundtrip_witness : (length (plain_stream sample) <= 80)%nat /\
  exists blob d', Exynos_dynamic_meta_to_itu_t_t35 sample (replicate 80 0) = Some (Z.of_nat (length (plain_stream sample)), blob) /\
    blob = plain_stream sample ++ replicate (80 - length (plain_stream sample)) 0 /\
    Exynos_parsing_user_data_registered_itu_t_t35 blob no_metadata = Some (0, d') /\ same_metadata sample d' /\
    (provider_code d' = provider_code sample <-> provider_code sample < 256) /\
    (provider_oriented_code d' = provider_oriented_code sample <-> provider_oriented_code sample < 256).
Proof.
  assert (H : (length (plain_stream sample) <= 80)%nat) by (vm_compute; lia).
  split; [exact H|]. apply (metadata_roundtrip sample no_metadata 80); [exact sample_ok|by split|exact no_metadata_ok|exact H].
Defined.

(** C13. The parser returns 0 for every message with one window, with or without the
    optional fields, and leaves its metadata in the structure, unless the flag of the tone
    mapping is in the last bit of a byte. *)
Theorem message_parsed src m h rest : Forall is_byte src -> itu_ok m -> arrays_ok h -> flag_position m <> 7%nat ->
  stream_bits src = itu_bits m ++ rest ->
  exists d', Exynos_parsing_user_data_registered_itu_t_t35 src h = Some (0, d') /\ same_metadata (metadata m) d' /\
    provider_code d' = merged (provider_code (metadata m)) /\ provider_oriented_code d' = merged (provider_oriented_code (metadata m)).
Proof.
  intros Hs Hm Hh H7 E. exists (with_metadata (metadata m) h). split; [by eapply parse_reads|].
  split; [apply with_metadata_same; [apply Hm|done]|done].
Qed.

Example message_parsed_witness : let src := to_bytes (itu_bits (sample_message 2 3)) in
  flag_position (sample_message 2 3) <> 7%nat /\
  exists d', Exynos_parsing_user_data_registered_itu_t_t35 src no_metadata = Some (0, d') /\ same_metadata sample d' /\
    provider_code d' = merged (provider_code sample) /\ provider_oriented_code d' = merged (provider_oriented_code sample).
Proof.
  intros src. assert (H : flag_position (sample_message 2 3) <> 7%nat) by (by vm_compute).
  split; [exact H|]. refine (message_parsed src (sample_message 2 3) no_metadata _ _ _ _ H (stream_to_bytes _)).
  - apply to_bytes_range.
  - apply sample_message_ok; lia.
  - exact no_metadata_ok.
Defined.

(** C18. Where the flag of the tone mapping is in the last bit of a byte, which is when one
    display has a luminance array with an odd number of cells, the parser loses it: it
    returns 0 with a structure that says that there is no tone mapping. *)
Theorem tone_mapping_lost src m h rest : Forall is_byte src -> itu_ok m -> arrays_ok h -> flag_position m = 7%nat ->
  stream_bits src = itu_bits m ++ rest ->
  exists d', Exynos_parsing_user_data_registered_itu_t_t35 src h = Some (0, d') /\ tone_mapping_flag (tone_mapping d') = 0 /\
    knee_point_x (tone_mapping d') = knee_point_x (tone_mapping h) /\
    bezier_curve_anchors (tone_mapping d') = bezier_curve_anchors (tone_mapping h).
Proof. intros Hs Hm Hh H7 E. eexists. by split; [eapply parse_loses_flag|]. Qed.

Example tone_mapping_lost_witness : let src := to_bytes (itu_bits (sample_message 3 3)) in
  tone_mapping_flag (tone_mapping sample) = 1 /\ flag_position (sample_message 3 3) = 7%nat /\
  exists d', Exynos_parsing_user_data_registered_itu_t_t35 src no_metadata = Some (0, d') /\ tone_mapping_flag (tone_mapping d') = 0 /\
    knee_point_x (tone_mapping d') = knee_point_x (tone_mapping no_metadata) /\
    bezier_curve_anchors (tone_mapping d') = bezier_curve_anchors (tone_mapping no_metadata).
Proof.
  intros src. assert (H : flag_position (sample_message 3 3) = 7%nat) by (by vm_compute).
  split; [done|]. split; [exact H|]. refine (tone_mapping_lost src (sample_message 3 3) no_metadata _ _ _ _ H (stream_to_bytes _)).
  - apply to_bytes_range.
  - apply sample_message_ok; lia.
  - exact no_metadata_ok.
Defined.

(** C14. Whatever the bytes are, the parser accesses neither the stream nor the arrays of the
    structure outside their bounds and returns 0 or -1, if there are 913 bytes. *)
Theorem any_stream_parsed src h : Forall is_byte src -> arrays_ok h -> (913 <= length src)%nat ->
  exists r d', Exynos_parsing_user_data_registered_itu_t_t35 src h = Some (r, d') /\ (r = 0 \/ r = -1).
Proof. intros Hs Hh Hl. apply parse_defined; [done|done|]. unfold max_bits. lia. Qed.

Example any_stream_parsed_witness : (913 <= length (replicate 913 0xff))%nat /\
  exists r d', Exynos_parsing_user_data_registered_itu_t_t35 (replicate 913 0xff) no_metadata = Some (r, d') /\ (r = 0 \/ r = -1).
Proof.
  assert (H : (913 <= length (replicate 913 0xff))%nat) by (rewrite length_replicate; lia).
  split; [exact H|]. apply (any_stream_parsed (replicate 913 0xff) no_metadata); [by apply Forall_replicate|exact no_metadata_ok|exact H].
Defined.

(** ** The SEI message *)

Lemma message_bounds d : hdr_ok d -> 15 <= Z.of_nat (length (sei_message d)) <= 171.
Proof.
  intros Hd. unfold sei_message. rewrite length_app, length_take, header_length. change (12 `min` 15)%nat with 12%nat.
  set (l := drop 12 (message_header d) ++ payload d ++ [128]).
  assert (Ll : (length l <= 106)%nat).
  { unfold l. rewrite !length_app, length_drop, header_length. pose proof (payload_bound d Hd). simpl length. lia. }
  assert (L3 : (3 <= length l)%nat) by (unfold l; rewrite !length_app, length_drop, header_length; lia).
  pose proof (escape_length 0 l ltac:(lia)). pose proof (escape_longer 0 l). lia.
Qed.

Lemma sei_filled d stream : hdr_ok d -> Z.of_nat (length (sei_message d)) + 7 <= Z.of_nat (length stream) < 2 ^ 28 ->
  Exynos_sei_write d (Z.of_nat (length stream)) stream =
    Some (Z.of_nat (length stream), sei_message d ++ filler (length stream - length (sei_message d) - 7)).
Proof.
  intros Hd Hl. assert (E : ff_bytes d (Z.of_nat (length stream)) = (length stream - length (sei_message d) - 7)%nat) by (unfold ff_bytes; lia).
  destruct (sei_write_all d (Z.of_nat (length stream)) stream Hd) as (buffer & W & Lb & (rest & ->)).
  - lia.
  - rewrite E, length_app, length_filler. lia.
  - rewrite W, E in *. rewrite !length_app, length_filler in *. destruct rest; [|simpl in Lb; lia]. rewrite app_nil_r. do 2 f_equal. lia.
Qed.

(** C15. In a buffer with room for the message and seven bytes more, Exynos_sei_write fills
    every byte: the start code, the NAL unit with the codes, the right payload size and the
    metadata, its payload with an emulation prevention byte before each byte up to 3 that
    follows two zeros, and filler data up to the end.  It returns the size of the buffer. *)
Theorem sei_fills_buffer d stream : hdr_ok d -> Z.of_nat (length (sei_message d)) + 7 <= Z.of_nat (length stream) < 2 ^ 28 ->
  Exynos_sei_write d (Z.of_nat (length stream)) stream =
    Some (Z.of_nat (length stream), sei_message d ++ filler (length stream - length (sei_message d) - 7)).
Proof. apply sei_filled. Qed.

Example sei_fills_buffer_witness : Z.of_nat (length (sei_message sample)) + 7 <= Z.of_nat (length (replicate 100 0)) < 2 ^ 28 /\
  Exynos_sei_write sample (Z.of_nat (length (replicate 100 0))) (replicate 100 0) =
    Some (Z.of_nat (length (replicate 100 0)), sei_message sample ++ filler (length (replicate 100 0) - length (sei_message sample) - 7)).
Proof.
  assert (H : Z.of_nat (length (sei_message sample)) + 7 <= Z.of_nat (length (replicate 100 0)) < 2 ^ 28) by (vm_compute; by split).
  split; [exact H|]. apply (sei_fills_buffer sample); [exact sample_ok|exact H].
Defined.

(** The bytes of the NAL unit before the escaped part, for the registered codes. *)
Definition registered (d : ExynosHdrData_ST2094_40) : Prop :=
  country_code d = 0xB5 /\ provider_code d = 0x003C /\ provider_oriented_code d = 0x0001.

Lemma registered_nal d : hdr_ok d -> registered d ->
  let nal := drop 4 (sei_message d) in
  unescape 0 nal = drop 4 (message_header d) ++ payload d ++ [0x80] /\ emulates 0 nal = false.
Proof.
  intros Hd (E1 & E2 & E3) nal. set (s := 7 + Z.of_nat (length (payload d))).
  pose proof (payload_bound d Hd) as B. assert (Hlen : 7 <= s < 256) by lia.
  set (l := [application_identifier d; application_version d] ++ payload d ++ [0x80]).
  assert (Hl : Forall is_byte l).
  { unfold l. destruct Hd. repeat (apply Forall_cons; split; [done|]). apply Forall_app. split; [apply to_bytes_range|by apply Forall_singleton]. }
  assert (En : nal = [0x4E; 1; 4; s; 0xB5; 0; 0x3C; 0] ++ 1 :: escape 0 l).
  { unfold nal, sei_message, message_header, codes_of. fold s. rewrite E1, E2, E3. done. }
  assert (Eh : drop 4 (message_header d) ++ payload d ++ [0x80] = [0x4E; 1; 4; s; 0xB5; 0; 0x3C; 0] ++ 1 :: l).
  { unfold message_header, codes_of. fold s. rewrite E1, E2, E3. done. }
  pose proof (unescape_escape 0 l ltac:(lia) Hl) as U. pose proof (escape_no_emulation 0 l ltac:(lia) Hl) as M.
  rewrite En, Eh. clear En Eh nal. revert U M. generalize (escape 0 l). intros e U M. clearbody s.
  simpl. rewrite (proj2 (Z.eqb_neq s 0)) by lia. simpl. by rewrite U.
Qed.

(** C16. With the codes that are registered for HDR10+ the NAL unit in the buffer looks like a
    start code nowhere, and a decoder that drops the emulation prevention bytes reads the
    header, the codes, the payload and the trailing bits. *)
Theorem sei_message_decodes d stream : hdr_ok d -> registered d ->
  Z.of_nat (length (sei_message d)) + 7 <= Z.of_nat (length stream) < 2 ^ 28 ->
  exists nal n, Exynos_sei_write d (Z.of_nat (length stream)) stream = Some (Z.of_nat (length stream), [0; 0; 0; 1] ++ nal ++ filler n) /\
    emulates 0 nal = false /\ unescape 0 nal = drop 4 (message_header d) ++ payload d ++ [0x80] /\
    stream_bits (codes_of d ++ payload d) = code_bits d ++ payload_bits d ++ replicate (padding (payload_bits d)) false.
Proof.
  intros Hd Hr Hl. destruct (registered_nal d Hd Hr) as [Eu Ee].
  exists (drop 4 (sei_message d)), (length stream - length (sei_message d) - 7)%nat.
  split; [|split; [exact Ee|split; [exact Eu|]]].
  - by rewrite sei_filled.
  - unfold payload. by rewrite stream_app, stream_codes, stream_to_bytes.
Qed.

Example sei_message_decodes_witness : Z.of_nat (length (sei_message sample)) + 7 <= Z.of_nat (length (replicate 100 0)) < 2 ^ 28 /\
  exists nal n, Exynos_sei_write sample (Z.of_nat (length (replicate 100 0))) (replicate 100 0) =
      Some (Z.of_nat (length (replicate 100 0)), [0; 0; 0; 1] ++ nal ++ filler n) /\
    emulates 0 nal = false /\ unescape 0 nal = drop 4 (message_header sample) ++ payload sample ++ [0x80] /\
    stream_bits (codes_of sample ++ payload sample) = code_bits sample ++ payload_bits sample ++ replicate (padding (payload_bits sample)) false.
Proof.
  assert (H : Z.of_nat (length (sei_message sample)) + 7 <= Z.of_nat (length (replicate 100 0)) < 2 ^ 28) by (vm_compute; by split).
  split; [exact H|]. apply (sei_message_decodes sample); [exact sample_ok|by split|exact H].
Defined.

(** C17. The message and the shortest filler data take 178 bytes at most.  A size that is
    too small is not noticed: as many bytes as they take are written, behind the size that
    was given. *)
Theorem sei_ignores_size d size stream : hdr_ok d -> 0 < size < Z.of_nat (length (sei_message d)) + 7 ->
  Z.of_nat (length (sei_message d)) + 7 <= Z.of_nat (length stream) < 2 ^ 28 ->
  Z.of_nat (length (sei_message d)) + 7 <= 178 /\
  exists buffer, Exynos_sei_write d size stream = Some (Z.of_nat (length (sei_message d)) + 7, buffer) /\
    sei_message d ++ filler 0 `prefix_of` buffer.
Proof.
  intros Hd Hs Hl. pose proof (message_bounds d Hd). split; [lia|].
  assert (E : ff_bytes d size = 0%nat) by (unfold ff_bytes; lia).
  destruct (sei_write_all d size stream Hd) as (buffer & W & _ & P).
  - lia.
  - rewrite E, length_app, length_filler. lia.
  - exists buffer. rewrite W, E in *. split; [|exact P]. rewrite length_app, length_filler. do 2 f_equal. lia.
Qed.

Example sei_ignores_size_witness : 0 < 10 < Z.of_nat (length (sei_message sample)) + 7 /\ Z.of_nat (length (sei_message sample)) + 7 <= 178 /\
  exists buffer, Exynos_sei_write sample 10 (replicate 200 0) = Some (Z.of_nat (length (sei_message sample)) + 7, buffer) /\
    sei_message sample ++ filler 0 `prefix_of` buffer.
Proof.
  assert (H : 0 < 10 < Z.of_nat (length (sei_message sample)) + 7) by (vm_compute; by split).
  assert (H' : Z.of_nat (length (sei_message sample)) + 7 <= Z.of_nat (length (replicate 200 0)) < 2 ^ 28) by (vm_compute; by split).
  split; [exact H|]. apply (sei_ignores_size sample 10 (replicate 200 0)); [exact sample_ok|exact H|exact H'].
Defined.
