(* ===== verification/KmTags.v ===== *)
(** * Keys of the TEE: tags and constants

    [src/tee/TlcKeymint/include/keymint_ta_defs.h]: the tags of key parameters, whose
    upper four bits say how the value is stored, with the other constants that the
    client of the trusted application uses. *)

From S2P Require Import Prelude.
#[local] Open Scope u32_scope.

(** ** Types of tags *)

Definition KM_INVALID : Z := 0 ^<< 28.
Definition KM_ENUM : Z := 1 ^<< 28.
Definition KM_ENUM_REP : Z := 2 ^<< 28.
Definition KM_UINT : Z := 3 ^<< 28.
Definition KM_UINT_REP : Z := 4 ^<< 28.
Definition KM_ULONG : Z := 5 ^<< 28.
Definition KM_DATE : Z := 6 ^<< 28.
Definition KM_BOOL : Z := 7 ^<< 28.
Definition KM_BIGNUM : Z := 8 ^<< 28.
Definition KM_BYTES : Z := 9 ^<< 28.
Definition KM_ULONG_REP : Z := 10 ^<< 28.

Definition keymaster_tag_get_type (tag : Z) : Z := Z.land tag (0xF ^<< 28).

(** ** Tags *)

Definition KM_TAG_INVALID : Z := Z.lor KM_INVALID 0.
Definition KM_TAG_PURPOSE : Z := Z.lor KM_ENUM_REP 1.
Definition KM_TAG_ALGORITHM : Z := Z.lor KM_ENUM 2.
Definition KM_TAG_KEY_SIZE : Z := Z.lor KM_UINT 3.
Definition KM_TAG_BLOCK_MODE : Z := Z.lor KM_ENUM_REP 4.
Definition KM_TAG_DIGEST : Z := Z.lor KM_ENUM_REP 5.
Definition KM_TAG_PADDING : Z := Z.lor KM_ENUM_REP 6.
Definition KM_TAG_CALLER_NONCE : Z := Z.lor KM_BOOL 7.
Definition KM_TAG_MIN_MAC_LENGTH : Z := Z.lor KM_UINT 8.
Definition KM_TAG_EC_CURVE : Z := Z.lor KM_ENUM 10.
Definition KM_TAG_RSA_PUBLIC_EXPONENT : Z := Z.lor KM_ULONG 200.
Definition KM_TAG_INCLUDE_UNIQUE_ID : Z := Z.lor KM_BOOL 202.
Definition KM_TAG_RSA_OAEP_MGF_DIGEST : Z := Z.lor KM_ENUM_REP 203.
Definition KM_TAG_BOOTLOADER_ONLY : Z := Z.lor KM_BOOL 302.
Definition KM_TAG_ROLLBACK_RESISTANCE : Z := Z.lor KM_BOOL 303.
Definition KM_TAG_HARDWARE_TYPE : Z := Z.lor KM_ENUM 304.
Definition KM_TAG_EARLY_BOOT_ONLY : Z := Z.lor KM_BOOL 305.
Definition KM_TAG_ACTIVE_DATETIME : Z := Z.lor KM_DATE 400.
Definition KM_TAG_ORIGINATION_EXPIRE_DATETIME : Z := Z.lor KM_DATE 401.
Definition KM_TAG_USAGE_EXPIRE_DATETIME : Z := Z.lor KM_DATE 402.
Definition KM_TAG_MIN_SECONDS_BETWEEN_OPS : Z := Z.lor KM_UINT 403.
Definition KM_TAG_MAX_USES_PER_BOOT : Z := Z.lor KM_UINT 404.
Definition KM_TAG_USAGE_COUNT_LIMIT : Z := Z.lor KM_UINT 405.
Definition KM_TAG_USER_ID : Z := Z.lor KM_UINT 501.
Definition KM_TAG_USER_SECURE_ID : Z := Z.lor KM_ULONG_REP 502.
Definition KM_TAG_NO_AUTH_REQUIRED : Z := Z.lor KM_BOOL 503.
Definition KM_TAG_USER_AUTH_TYPE : Z := Z.lor KM_ENUM 504.
Definition KM_TAG_AUTH_TIMEOUT : Z := Z.lor KM_UINT 505.
Definition KM_TAG_ALLOW_WHILE_ON_BODY : Z := Z.lor KM_BOOL 506.
Definition KM_TAG_TRUSTED_USER_PRESENCE_REQUIRED : Z := Z.lor KM_BOOL 507.
Definition KM_TAG_TRUSTED_CONFIRMATION_REQUIRED : Z := Z.lor KM_BOOL 508.
Definition KM_TAG_UNLOCKED_DEVICE_REQUIRED : Z := Z.lor KM_BOOL 509.
Definition KM_TAG_APPLICATION_ID : Z := Z.lor KM_BYTES 601.
Definition KM_TAG_APPLICATION_DATA : Z := Z.lor KM_BYTES 700.
Definition KM_TAG_CREATION_DATETIME : Z := Z.lor KM_DATE 701.
Definition KM_TAG_ORIGIN : Z := Z.lor KM_ENUM 702.
Definition KM_TAG_ROOT_OF_TRUST : Z := Z.lor KM_BYTES 704.
Definition KM_TAG_OS_VERSION : Z := Z.lor KM_UINT 705.
Definition KM_TAG_OS_PATCHLEVEL : Z := Z.lor KM_UINT 706.
Definition KM_TAG_UNIQUE_ID : Z := Z.lor KM_BYTES 707.
Definition KM_TAG_ATTESTATION_CHALLENGE : Z := Z.lor KM_BYTES 708.
Definition KM_TAG_ATTESTATION_APPLICATION_ID : Z := Z.lor KM_BYTES 709.
Definition KM_TAG_ATTESTATION_ID_BRAND : Z := Z.lor KM_BYTES 710.
Definition KM_TAG_ATTESTATION_ID_DEVICE : Z := Z.lor KM_BYTES 711.
Definition KM_TAG_ATTESTATION_ID_PRODUCT : Z := Z.lor KM_BYTES 712.
Definition KM_TAG_ATTESTATION_ID_SERIAL : Z := Z.lor KM_BYTES 713.
Definition KM_TAG_ATTESTATION_ID_IMEI : Z := Z.lor KM_BYTES 714.
Definition KM_TAG_ATTESTATION_ID_MEID : Z := Z.lor KM_BYTES 715.
Definition KM_TAG_ATTESTATION_ID_MANUFACTURER : Z := Z.lor KM_BYTES 716.
Definition KM_TAG_ATTESTATION_ID_MODEL : Z := Z.lor KM_BYTES 717.
Definition KM_TAG_VENDOR_PATCHLEVEL : Z := Z.lor KM_UINT 718.
Definition KM_TAG_BOOT_PATCHLEVEL : Z := Z.lor KM_UINT 719.
Definition KM_TAG_DEVICE_UNIQUE_ATTESTATION : Z := Z.lor KM_BOOL 720.
Definition KM_TAG_IDENTITY_CREDENTIAL_KEY : Z := Z.lor KM_BOOL 721.
Definition KM_TAG_STORAGE_KEY : Z := Z.lor KM_BOOL 722.
Definition KM_TAG_ASSOCIATED_DATA : Z := Z.lor KM_BYTES 1000.
Definition KM_TAG_NONCE : Z := Z.lor KM_BYTES 1001.
Definition KM_TAG_MAC_LENGTH : Z := Z.lor KM_UINT 1003.
Definition KM_TAG_RESET_SINCE_ID_ROTATION : Z := Z.lor KM_BOOL 1004.
Definition KM_TAG_CONFIRMATION_TOKEN : Z := Z.lor KM_BYTES 1005.
Definition KM_TAG_CERTIFICATE_SERIAL : Z := Z.lor KM_BIGNUM 1006.
Definition KM_TAG_CERTIFICATE_SUBJECT : Z := Z.lor KM_BYTES 1007.
Definition KM_TAG_CERTIFICATE_NOT_BEFORE : Z := Z.lor KM_DATE 1008.
Definition KM_TAG_CERTIFICATE_NOT_AFTER : Z := Z.lor KM_DATE 1009.
Definition KM_TAG_MAX_BOOT_LEVEL : Z := Z.lor KM_UINT 1010.

(** The labels of [km_is_tag_known]. *)
Definition known_tags : list Z := [
  KM_TAG_PURPOSE; KM_TAG_ALGORITHM; KM_TAG_KEY_SIZE;
  KM_TAG_BLOCK_MODE; KM_TAG_DIGEST; KM_TAG_PADDING;
  KM_TAG_CALLER_NONCE; KM_TAG_MIN_MAC_LENGTH; KM_TAG_EC_CURVE;
  KM_TAG_RSA_PUBLIC_EXPONENT; KM_TAG_INCLUDE_UNIQUE_ID; KM_TAG_RSA_OAEP_MGF_DIGEST;
  KM_TAG_BOOTLOADER_ONLY; KM_TAG_ROLLBACK_RESISTANCE; KM_TAG_HARDWARE_TYPE;
  KM_TAG_EARLY_BOOT_ONLY; KM_TAG_ACTIVE_DATETIME; KM_TAG_ORIGINATION_EXPIRE_DATETIME;
  KM_TAG_USAGE_EXPIRE_DATETIME; KM_TAG_MIN_SECONDS_BETWEEN_OPS; KM_TAG_MAX_USES_PER_BOOT;
  KM_TAG_USAGE_COUNT_LIMIT; KM_TAG_USER_ID; KM_TAG_USER_SECURE_ID;
  KM_TAG_NO_AUTH_REQUIRED; KM_TAG_USER_AUTH_TYPE; KM_TAG_AUTH_TIMEOUT;
  KM_TAG_ALLOW_WHILE_ON_BODY; KM_TAG_TRUSTED_USER_PRESENCE_REQUIRED; KM_TAG_TRUSTED_CONFIRMATION_REQUIRED;
  KM_TAG_UNLOCKED_DEVICE_REQUIRED; KM_TAG_APPLICATION_ID; KM_TAG_APPLICATION_DATA;
  KM_TAG_CREATION_DATETIME; KM_TAG_ORIGIN; KM_TAG_ROOT_OF_TRUST;
  KM_TAG_OS_VERSION; KM_TAG_OS_PATCHLEVEL; KM_TAG_UNIQUE_ID;
  KM_TAG_ATTESTATION_CHALLENGE; KM_TAG_ATTESTATION_APPLICATION_ID; KM_TAG_ATTESTATION_ID_BRAND;
  KM_TAG_ATTESTATION_ID_DEVICE; KM_TAG_ATTESTATION_ID_PRODUCT; KM_TAG_ATTESTATION_ID_SERIAL;
  KM_TAG_ATTESTATION_ID_IMEI; KM_TAG_ATTESTATION_ID_MEID; KM_TAG_ATTESTATION_ID_MANUFACTURER;
  KM_TAG_ATTESTATION_ID_MODEL; KM_TAG_VENDOR_PATCHLEVEL; KM_TAG_BOOT_PATCHLEVEL;
  KM_TAG_DEVICE_UNIQUE_ATTESTATION; KM_TAG_IDENTITY_CREDENTIAL_KEY; KM_TAG_STORAGE_KEY;
  KM_TAG_NONCE; KM_TAG_MAC_LENGTH; KM_TAG_RESET_SINCE_ID_ROTATION;
  KM_TAG_CONFIRMATION_TOKEN; KM_TAG_CERTIFICATE_SERIAL; KM_TAG_CERTIFICATE_SUBJECT;
  KM_TAG_CERTIFICATE_NOT_BEFORE; KM_TAG_CERTIFICATE_NOT_AFTER; KM_TAG_MAX_BOOT_LEVEL].
Definition km_is_tag_known (tag : Z) : bool := bool_decide (tag ∈ known_tags).

(** ** Results *)

Definition KM_ERROR_OK : Z := 0.
Definition KM_ERROR_INCOMPATIBLE_ALGORITHM : Z := -5.
Definition KM_ERROR_UNSUPPORTED_KEY_SIZE : Z := -6.
Definition KM_ERROR_UNSUPPORTED_KEY_FORMAT : Z := -17.
Definition KM_ERROR_INSUFFICIENT_BUFFER_SPACE : Z := -29.
Definition KM_ERROR_UNEXPECTED_NULL_POINTER : Z := -32.
Definition KM_ERROR_INVALID_ARGUMENT : Z := -38.
Definition KM_ERROR_INVALID_TAG : Z := -40.
Definition KM_ERROR_MEMORY_ALLOCATION_FAILED : Z := -41.
Definition KM_ERROR_IMPORT_PARAMETER_MISMATCH : Z := -44.
Definition KM_ERROR_UNKNOWN_ERROR : Z := -1000.

(** ** Keys *)

Definition KM_ALGORITHM_RSA : Z := 1.
Definition KM_ALGORITHM_EC : Z := 3.
Definition KM_ALGORITHM_AES : Z := 32.
Definition KM_ALGORITHM_TRIPLE_DES : Z := 33.
Definition KM_ALGORITHM_HMAC : Z := 128.
Definition KM_EC_CURVE_P_224 : Z := 0.
Definition KM_EC_CURVE_P_256 : Z := 1.
Definition KM_EC_CURVE_P_384 : Z := 2.
Definition KM_EC_CURVE_P_521 : Z := 3.
Definition KM_EC_CURVE_25519 : Z := 4.
Definition KM_PURPOSE_ENCRYPT : Z := 0.
Definition KM_PURPOSE_DECRYPT : Z := 1.
Definition KM_PURPOSE_SIGN : Z := 2.
Definition KM_PURPOSE_VERIFY : Z := 3.
Definition KM_PURPOSE_WRAP_KEY : Z := 5.
Definition KM_PURPOSE_AGREE_KEY : Z := 6.
Definition KM_PURPOSE_ATTEST_KEY : Z := 7.
Definition KM_KEY_FORMAT_X509 : Z := 0.
Definition KM_KEY_FORMAT_PKCS8 : Z := 1.
Definition KM_KEY_FORMAT_RAW : Z := 3.

(** Of [km_shared_util.h]: the curves of the trusted application. *)
Definition ec_curve_nist_p224 : Z := 2.
Definition ec_curve_nist_p256 : Z := 3.
Definition ec_curve_nist_p384 : Z := 4.
Definition ec_curve_nist_p521 : Z := 5.
Definition EC_CURVE_25519 : Z := 100.
Definition CURVE25519_KEYSZ : Z := 32.

Definition check_algorithm_purpose (algorithm purpose : Z) : bool :=
  switch algorithm [
    ([KM_ALGORITHM_AES; KM_ALGORITHM_TRIPLE_DES],
      (purpose =? KM_PURPOSE_ENCRYPT) || (purpose =? KM_PURPOSE_DECRYPT));
    ([KM_ALGORITHM_HMAC; KM_ALGORITHM_EC],
      (purpose =? KM_PURPOSE_SIGN) || (purpose =? KM_PURPOSE_VERIFY) || (purpose =? KM_PURPOSE_AGREE_KEY));
    ([KM_ALGORITHM_RSA],
      (purpose =? KM_PURPOSE_ENCRYPT) || (purpose =? KM_PURPOSE_DECRYPT) || (purpose =? KM_PURPOSE_SIGN) ||
      (purpose =? KM_PURPOSE_VERIFY))] false.

Definition ec_bitlen (curve : Z) : Z :=
  switch curve [
    ([KM_EC_CURVE_P_224], 224);
    ([KM_EC_CURVE_P_256], 256);
    ([KM_EC_CURVE_P_384], 384);
    ([KM_EC_CURVE_P_521], 521);
    ([KM_EC_CURVE_25519], 256)] 0.

(** ** Stored values

    How a value is stored, by the type of its tag. *)
Inductive storage := In32 | In64 | InBool | InBytes.
#[export] Instance storage_eq_dec : EqDecision storage.
Proof. solve_decision. Defined.
Definition storage_of (tag : Z) : option storage :=
  let t := keymaster_tag_get_type tag in
  if bool_decide (t ∈ [KM_ENUM; KM_ENUM_REP; KM_UINT; KM_UINT_REP]) then Some In32
  else if bool_decide (t ∈ [KM_ULONG; KM_ULONG_REP; KM_DATE]) then Some In64
  else if t =? KM_BOOL then Some InBool
  else if bool_decide (t ∈ [KM_BIGNUM; KM_BYTES]) then Some InBytes
  else None.

(** Every known tag has a value that can be stored, and 32 bits. *)
Lemma known_stored tag : km_is_tag_known tag = true -> is_Some (storage_of tag) /\ 0 <= tag < 2 ^ 32.
Proof.
  intros H%bool_decide_eq_true. revert tag H. apply Forall_forall.
  repeat constructor; try discriminate; by eexists.
Qed.
