(* ===== verification/KmBytes.v ===== *)
(** * Keys of the TEE: bytes, input and errors

    The monad of the functions that return a [keymaster_error_t], little-endian numbers,
    and an input: constant bytes with the pointer and the count of [src/tee/TlcKeymint/src]
    that walk over them.  A read outside of the bytes is undefined. *)

From S2P Require Import Prelude Effects.

(** ** Errors

    [Failed e] is a return of the error [e] through the label [end], with the state that
    is left; [Done] a return of [KM_ERROR_OK]. *)
Inductive result (A : Type) := Done (a : A) | Failed (e : Z).
Arguments Done {A}.
Arguments Failed {A}.

Definition KM (S A : Type) : Type := ST S (result A).
#[export] Instance KM_ret S : MRet (KM S) := fun A a s => Some (Done a, s).
#[export] Instance KM_bind S : MBind (KM S) := fun A B k p s =>
  match p s with
  | Some (Done a, s') => k a s'
  | Some (Failed e, s') => Some (Failed e, s')
  | None => None
  end.

Definition fail {S A} (e : Z) : KM S A := fun s => Some (Failed e, s).
Definition CHECK_TRUE {S} (errcode : Z) (expr : bool) : KM S unit := if expr then mret tt else fail errcode.

(** A part of the state. *)
Definition zoom {S T A} (f : S -> T) `{Assign S T f} (o : ST T A) : ST S A := fun s =>
  match o (f s) with Some (a, t) => Some (a, assigned f t s) | None => None end.
Definition lift {S A} (o : ST S A) : KM S A := fun s =>
  match o s with Some (a, s') => Some (Done a, s') | None => None end.
Definition within {S T A} (f : S -> T) `{Assign S T f} (o : KM T A) : KM S A := zoom f o.
Definition assign_to {S T} (f : S -> T) `{Assign S T f} (v : T) : KM S unit := fun s => Some (Done tt, assigned f v s).
Definition field_of {S T} (f : S -> T) : KM S T := fun s => Some (Done (f s), s).

(** [if (ret != KM_ERROR_OK) { c }] behind the label. *)
Definition on_error {S A} (o : KM S A) (c : ST S unit) : KM S A := fun s =>
  match o s with
  | Some (Failed e, s') => match c s' with Some (_, s2) => Some (Failed e, s2) | None => None end
  | r => r
  end.

(** ** Little-endian numbers *)

Fixpoint le (n : nat) (z : Z) : list Z :=
  match n with
  | O => []
  | Datatypes.S n => z `mod` 256 :: le n (z `div` 256)
  end.
Fixpoint of_le (l : list Z) : Z :=
  match l with
  | [] => 0
  | b :: l => b + 256 * of_le l
  end.

Definition is_byte (b : Z) : Prop := 0 <= b < 256.

Lemma length_le n z : length (le n z) = n.
Proof. revert z. induction n as [|n IH]; intros z; simpl; [done|]. by rewrite IH. Qed.

Lemma le_bytes n z : Forall is_byte (le n z).
Proof. revert z. induction n as [|n IH]; intros z; simpl; constructor; [by apply Z.mod_pos_bound|apply IH]. Qed.

Lemma of_le_le n z : of_le (le n z) = z `mod` 2 ^ (8 * Z.of_nat n).
Proof.
  revert z. induction n as [|n IH]; intros z; [by rewrite Z.mod_1_r|]. cbn [le of_le]. rewrite IH.
  replace (8 * Z.of_nat (Datatypes.S n)) with (8 + 8 * Z.of_nat n) by lia.
  rewrite Z.pow_add_r by lia. change (2 ^ 8) with 256. rewrite Z.rem_mul_r by lia. lia.
Qed.

Lemma le_mod n z : le n (z `mod` 2 ^ (8 * Z.of_nat n)) = le n z.
Proof.
  revert z. induction n as [|n IH]; intros z; [done|]. cbn [le].
  replace (8 * Z.of_nat (Datatypes.S n)) with (8 + 8 * Z.of_nat n) by lia.
  rewrite Z.pow_add_r by lia. change (2 ^ 8) with 256. rewrite Z.rem_mul_r by lia. f_equal.
  - rewrite Z.mul_comm, Z.mod_add, Z.mod_mod by lia. done.
  - rewrite Z.mul_comm, Z.div_add, Z.div_small, Z.add_0_l by (try apply Z.mod_pos_bound; lia). apply IH.
Qed.

Lemma of_le_range l : Forall is_byte l -> 0 <= of_le l < 2 ^ (8 * Z.of_nat (length l)).
Proof.
  induction 1 as [|b l Hb Hl IH]; [done|]. cbn [of_le length]. unfold is_byte in Hb.
  replace (8 * Z.of_nat (Datatypes.S (length l))) with (8 + 8 * Z.of_nat (length l)) by lia.
  rewrite Z.pow_add_r by lia. change (2 ^ 8) with 256. nia.
Qed.

Lemma le_of_le l : Forall is_byte l -> le (length l) (of_le l) = l.
Proof.
  induction 1 as [|b l Hb Hl IH]; [done|]. cbn [length le of_le]. unfold is_byte in Hb. rewrite (Z.mul_comm 256).
  rewrite Z.mod_add, Z.mod_small by lia. rewrite Z.div_add, Z.div_small, Z.add_0_l by lia. by rewrite IH.
Qed.

(** ** Input *)

Record cursor := {
  source : list Z;
  place : Z;
  remaining : Z
}.
#[export] Instance cursor_fields : Fields cursor := fun c => {|
  source := source c; place := place c; remaining := remaining c |}.

Abbreviation Reads := (ST cursor).

Definition start (l : list Z) : cursor := {| source := l; place := 0; remaining := Z.of_nat (length l) |}.
Definition cursor_at (l : list Z) (p n : Z) : cursor := {| source := l; place := p; remaining := n |}.

(** [*p], at a distance, and [len]. *)
Definition peek (p : Z) : Reads Z := fun c =>
  if (0 <=? p) && (p <? Z.of_nat (length (source c))) then Some (nth (Z.to_nat p) (source c) 0, c) else None.
Definition byte (i : Z) : Reads Z := fun c => peek (place c + i) c.
Definition bytes_left : Reads Z := fun c => Some (remaining c, c).
Definition here : Reads Z := fun c => Some (place c, c).

(** [p += n; len -= n]. *)
Definition u64 (z : Z) : Z := z `mod` 2 ^ 64.
Definition advance (n : Z) : Reads unit := fun c =>
  Some (tt, c <| place := place c + n |> <| remaining := u64 (remaining c - n) |>).

(** Some bytes: the source of a [memcpy]. *)
Definition bytes_from (p n : Z) : Reads (list Z) := fun c =>
  if (0 <=? p) && (0 <=? n) && (p + n <=? Z.of_nat (length (source c)))
  then Some (take (Z.to_nat n) (drop (Z.to_nat p) (source c)), c) else None.

(** [memcmp(data, a, n) == 0]: both arrays have [n] bytes, or it is undefined. *)
Definition same_bytes (p : Z) (a : list Z) (n : Z) : Reads bool :=
  l ← bytes_from p n;
  if n <=? Z.of_nat (length a) then mret (bool_decide (l = take (Z.to_nat n) a)) else undefined.

(** [a |= pos[i] << (8 * i)] *)
Fixpoint get_le (n : nat) (i a : Z) : Reads Z :=
  match n with
  | O => mret a
  | Datatypes.S n => b ← byte i; get_le n (i + 1) (Z.lor a (b ≪ (8 * i)))
  end.
Definition get_u32 : Reads Z := get_le 4 0 0.
Definition get_u64 : Reads Z := get_le 8 0 0.

(** ** What an input shows

    [occurs src p l]: the bytes at [p] are [l]; [view src p l] is the input with [l]
    ahead. *)

Definition occurs (src : list Z) (p : Z) (l : list Z) : Prop :=
  exists pre post, src = pre ++ l ++ post /\ p = Z.of_nat (length pre).
Definition view (src : list Z) (p : Z) (l : list Z) : cursor := cursor_at src p (Z.of_nat (length l)).

Lemma occurs_start l : occurs l 0 l.
Proof. exists [], []. by rewrite app_nil_r. Qed.

Lemma occurs_app src p l1 l2 : occurs src p (l1 ++ l2) -> occurs src p l1 /\ occurs src (p + Z.of_nat (length l1)) l2.
Proof.
  intros (pre & post & -> & ->). split; [exists pre, (l2 ++ post); by rewrite <- app_assoc|].
  exists (pre ++ l1), post. rewrite length_app, Nat2Z.inj_add, <- !app_assoc. done.
Qed.

Lemma occurs_take src p l n : occurs src p l -> occurs src p (take n l).
Proof. rewrite <- (take_drop n l) at 1. intros H. by apply occurs_app in H as [H _]. Qed.

Lemma occurs_drop src p l n : occurs src p l -> (n <= length l)%nat -> occurs src (p + Z.of_nat n) (drop n l).
Proof.
  intros H Hn. rewrite <- (take_drop n l) in H. apply occurs_app in H as [_ H]. by rewrite length_take_le in H.
Qed.

Lemma peek_occurs src p l i b q n : occurs src p l -> l !! i = Some b ->
  peek (p + Z.of_nat i) (cursor_at src q n) = Some (b, cursor_at src q n).
Proof.
  intros (pre & post & -> & ->) Hi. pose proof (lookup_lt_Some _ _ _ Hi) as Hl. unfold peek. simpl source.
  rewrite !length_app.
  replace (0 <=? _) with true by (symmetry; apply Z.leb_le; lia).
  replace (_ <? _) with true by (symmetry; apply Z.ltb_lt; lia). simpl. do 2 f_equal.
  rewrite <- Nat2Z.inj_add, Nat2Z.id. apply nth_lookup_Some.
  rewrite lookup_app_r by lia. replace (length pre + i - length pre)%nat with i by lia. by rewrite lookup_app_l.
Qed.

Lemma byte_view src p l i b : occurs src p l -> l !! i = Some b ->
  byte (Z.of_nat i) (view src p l) = Some (b, view src p l).
Proof. intros H Hi. by apply (peek_occurs _ _ l). Qed.

Lemma byte_head src p b l : occurs src p (b :: l) -> byte 0 (view src p (b :: l)) = Some (b, view src p (b :: l)).
Proof. intros H. by apply (byte_view _ _ _ 0). Qed.

Lemma advance_view src p l1 l2 : Z.of_nat (length (l1 ++ l2)) < 2 ^ 64 ->
  advance (Z.of_nat (length l1)) (view src p (l1 ++ l2)) = Some (tt, view src (p + Z.of_nat (length l1)) l2).
Proof.
  intros Hl. unfold advance, view, cursor_at, u64. simpl. rewrite length_app in *.
  replace (Z.of_nat (length l1 + length l2) - Z.of_nat (length l1)) with (Z.of_nat (length l2)) by lia.
  rewrite Z.mod_small by lia. done.
Qed.

Lemma advance_drop src p l n : 0 <= n <= Z.of_nat (length l) -> Z.of_nat (length l) < 2 ^ 64 ->
  advance n (view src p l) = Some (tt, view src (p + n) (drop (Z.to_nat n) l)).
Proof.
  intros Hn Hl. pose proof (advance_view src p (take (Z.to_nat n) l) (drop (Z.to_nat n) l)) as E.
  rewrite take_drop, length_take_le, Z2Nat.id in E by lia. by apply E.
Qed.

Lemma bytes_from_occurs src p l q n k : occurs src p l -> k = Z.of_nat (length l) ->
  bytes_from p k (cursor_at src q n) = Some (l, cursor_at src q n).
Proof.
  intros (pre & post & -> & ->) ->. unfold bytes_from. simpl source. rewrite !length_app.
  replace (_ && _) with true by (symmetry; rewrite !andb_true_iff, !Z.leb_le; lia).
  rewrite !Nat2Z.id, drop_app_length, take_app_length. done.
Qed.

Lemma same_bytes_occurs src p l q n a k : occurs src p l -> k = Z.of_nat (length l) -> length l = length a ->
  same_bytes p a k (cursor_at src q n) = Some (bool_decide (l = a), cursor_at src q n).
Proof.
  intros Ho -> Hl. unfold same_bytes. rewrite (bind_some _ _ _ _ _ (bytes_from_occurs _ _ _ _ _ _ Ho eq_refl)).
  rewrite Hl, Nat2Z.id, firstn_all, Z.leb_refl. done.
Qed.

(** ** Numbers of the input *)

Lemma get_le_view n src p l1 l2 i a : occurs src p (l1 ++ l2) -> length l1 = i -> (n <= length l2)%nat -> Forall is_byte l2 ->
  0 <= a < 2 ^ (8 * Z.of_nat i) ->
  get_le n (Z.of_nat i) a (view src p (l1 ++ l2)) =
    Some (a + of_le (take n l2) * 2 ^ (8 * Z.of_nat i), view src p (l1 ++ l2)).
Proof.
  revert l1 l2 i a. induction n as [|n IH]; intros l1 l2 i a Ho Hi Hn Hb Ha; [by rewrite Z.add_0_r|].
  destruct l2 as [|b l2]; [simpl in Hn; lia|]. apply Forall_cons in Hb as [Hb Hb2]. unfold is_byte in Hb. cbn [get_le].
  rewrite (bind_some _ _ _ b (view src p (l1 ++ b :: l2))); [|apply byte_view; [done|subst i; by rewrite list_lookup_middle]].
  replace (Z.lor a (b ≪ (8 * Z.of_nat i))) with (a + b * 2 ^ (8 * Z.of_nat i)).
  2: { rewrite Z.shiftl_mul_pow2 by lia. rewrite Z.lor_comm, Z.add_comm. symmetry. apply (lor_add (8 * Z.of_nat i)); [lia| |done].
       apply Z.mod_mul. lia. }
  replace (Z.of_nat i + 1) with (Z.of_nat (Datatypes.S i)) by lia. rewrite (cons_middle b l1 l2), app_assoc. rewrite (IH (l1 ++ [b]) l2).
  - cbn [take of_le]. rewrite Nat2Z.inj_succ. replace (8 * Z.succ (Z.of_nat i)) with (8 + 8 * Z.of_nat i) by lia.
    rewrite Z.pow_add_r by lia. change (2 ^ 8) with 256. do 2 f_equal. ring.
  - by rewrite <- app_assoc.
  - rewrite length_app. simpl. lia.
  - simpl in Hn. lia.
  - done.
  - rewrite Nat2Z.inj_succ. replace (8 * Z.succ (Z.of_nat i)) with (8 + 8 * Z.of_nat i) by lia.
    rewrite Z.pow_add_r by lia. change (2 ^ 8) with 256. nia.
Qed.

Lemma get_u32_view src p l : occurs src p l -> (4 <= length l)%nat -> Forall is_byte l ->
  get_u32 (view src p l) = Some (of_le (take 4 l), view src p l).
Proof.
  intros Ho Hl Hb. etransitivity; [by apply (get_le_view 4 src p [] l 0 0)|]. by rewrite Z.add_0_l, Z.mul_1_r.
Qed.

Lemma get_u64_view src p l : occurs src p l -> (8 <= length l)%nat -> Forall is_byte l ->
  get_u64 (view src p l) = Some (of_le (take 8 l), view src p l).
Proof.
  intros Ho Hl Hb. etransitivity; [by apply (get_le_view 8 src p [] l 0 0)|]. by rewrite Z.add_0_l, Z.mul_1_r.
Qed.
