(* ===== verification/KmDer.v ===== *)
(** * Keys of the TEE: reading DER

    The readers of tags and lengths of [src/tee/TlcKeymint/src/km_shared_util.cpp].
    [None] is their result [false]. *)

From S2P Require Import Prelude Effects KmBytes.

(** ** Readers *)

Definition read_length : Reads (option Z) :=
  len ← bytes_left;
  if len =? 0 then mret None
  else
    a ← byte 0;
    advance 1 ;;
    l ← (if a <? 0x80 then mret (Some a)
         else if a =? 0x81 then
           len ← bytes_left;
           if len =? 0 then mret None
           else
             l ← byte 0;
             advance 1 ;;
             mret (Some l)
         else if a =? 0x82 then
           len ← bytes_left;
           if len <? 2 then mret None
           else
             hi ← byte 0;
             lo ← byte 1;
             advance 2 ;;
             mret (Some (256 * hi + lo))
         else mret None);
    len ← bytes_left;
    mret (match l with Some l => if l <=? len then Some l else None | None => None end).

Definition read_something_length (tag : Z) : Reads (option Z) :=
  len ← bytes_left;
  if len =? 0 then mret None
  else
    a ← byte 0;
    if a =? tag then
      advance 1 ;;
      read_length
    else mret None.

Definition der_read_integer_length : Reads (option Z) :=
  l ← read_something_length 0x02;
  match l with
  | None => mret None
  | Some l =>
      if 1 <=? l then
        a ← byte 0;
        if a =? 0x00 then
          advance 1 ;;
          mret (Some (l - 1))
        else mret (Some l)
      else mret (Some l)
  end.
Definition der_read_bit_string_length : Reads (option Z) := read_something_length 0x03.
Definition der_read_octet_string_length : Reads (option Z) := read_something_length 0x04.
Definition der_read_oid_length : Reads (option Z) := read_something_length 0x06.
Definition der_read_sequence_length : Reads (option Z) := read_something_length 0x30.

(** The length behind an explicit tag. *)
Definition tagged_length (tag : Z) : Reads (option (Z * Z)) :=
  l ← read_length;
  mret (match l with Some l => Some (tag, l) | None => None end).

Definition der_read_explicit_tag_and_length : Reads (option (Z * Z)) :=
  len ← bytes_left;
  if len =? 0 then mret None
  else
    a ← byte 0;
    advance 1 ;;
    if a <? 0xA0 then mret None
    else if a <? 0xBF then tagged_length (a - 0xA0)
    else
      len ← bytes_left;
      if negb (a =? 0xBF) || (len =? 0) then mret None
      else
        a ← byte 0;
        advance 1 ;;
        if a <? 128 then
          if a <? 31 then mret None else tagged_length a
        else
          len ← bytes_left;
          if len =? 0 then mret None
          else
            b ← byte 0;
            advance 1 ;;
            tagged_length (128 * (a - 128) + b).

(** ** What they accept *)

Inductive length_form : Z -> list Z -> Prop :=
| short_form n : 0 <= n < 0x80 -> length_form n [n]
| long_form_1 n : is_byte n -> length_form n [0x81; n]
| long_form_2 hi lo : is_byte hi -> is_byte lo -> length_form (256 * hi + lo) [0x82; hi; lo].

Definition header (tag n : Z) (h : list Z) : Prop := exists h0, h = tag :: h0 /\ length_form n h0.

Inductive tag_form : Z -> list Z -> Prop :=
| tag_byte t : 0 <= t < 31 -> tag_form t [0xA0 + t]
| tag_high t : 31 <= t < 128 -> tag_form t [0xBF; t]
| tag_two a b : 128 <= a < 256 -> is_byte b -> tag_form (128 * (a - 128) + b) [0xBF; a; b].
Definition explicit_header (r : Z * Z) (h : list Z) : Prop :=
  exists t h0, h = t ++ h0 /\ tag_form (fst r) t /\ length_form (snd r) h0.

(** An unsigned number without its leading zero byte. *)
Definition integer_header (n : Z) (h : list Z) : Prop :=
  header 0x02 n h \/ exists h0, h = h0 ++ [0] /\ 0 <= n /\ header 0x02 (n + 1) h0.

Lemma length_form_bounds n h : length_form n h -> 0 <= n < 2 ^ 16 /\ (1 <= length h <= 3)%nat.
Proof. destruct 1; unfold is_byte in *; simpl; lia. Qed.

Lemma header_bounds tag n h : header tag n h -> 0 <= n < 2 ^ 16 /\ (2 <= length h <= 4)%nat.
Proof. intros (h0 & -> & H%length_form_bounds). simpl. lia. Qed.

Lemma integer_bounds n h : integer_header n h -> 0 <= n < 2 ^ 16.
Proof. intros [Hh%header_bounds|(h0 & _ & Hn & Hh%header_bounds)]; lia. Qed.

(** The bytes ahead: a view that can be read and counted. *)
Definition seen (src : list Z) (p : Z) (l : list Z) : Prop :=
  occurs src p l /\ Forall is_byte l /\ Z.of_nat (length l) < 2 ^ 64.

Lemma seen_app src p l1 l2 : seen src p (l1 ++ l2) -> seen src p l1 /\ seen src (p + Z.of_nat (length l1)) l2.
Proof.
  intros (Ho & Hb & Hl). apply occurs_app in Ho as [H1 H2]. apply Forall_app in Hb as [B1 B2].
  rewrite length_app in Hl. split; split_and!; try done; lia.
Qed.

Lemma seen_start l : Forall is_byte l -> Z.of_nat (length l) < 2 ^ 64 -> seen l 0 l.
Proof. intros Hb Hl. split_and!; [apply occurs_start|done|done]. Qed.

Lemma seen_byte src p l i b : seen src p l -> l !! i = Some b -> byte (Z.of_nat i) (view src p l) = Some (b, view src p l).
Proof. intros (Ho & _). by apply byte_view. Qed.

Lemma seen_advance src p l1 l2 : seen src p (l1 ++ l2) ->
  advance (Z.of_nat (length l1)) (view src p (l1 ++ l2)) = Some (tt, view src (p + Z.of_nat (length l1)) l2).
Proof. intros (_ & _ & Hl). by apply advance_view. Qed.

(** [reads o H]: on bytes that can be read, [o] ends; what it accepts starts with the
    bytes [h] with [H a h], which it consumes, and has the bytes that are announced. *)
Definition reads {A} (o : Reads (option A)) (size : A -> Z) (H : A -> list Z -> Prop) : Prop :=
  forall src p l, seen src p l -> ends o (view src p l) (fun r c =>
    match r with
    | None => True
    | Some a => exists h l', l = h ++ l' /\ H a h /\ size a <= Z.of_nat (length l') /\
        c = view src (p + Z.of_nat (length h)) l'
    end).

(** [takes o size H]: and it accepts all of those. *)
Definition takes {A} (o : Reads (option A)) (size : A -> Z) (H : A -> list Z -> Prop) : Prop :=
  forall src p h l a, seen src p (h ++ l) -> H a h -> size a <= Z.of_nat (length l) ->
    o (view src p (h ++ l)) = Some (Some a, view src (p + Z.of_nat (length h)) l).

(** ** The readers *)

Lemma ends_exactly {S A} (o : ST S A) s a s1 : ends o s (fun r s' => r = a /\ s' = s1) -> o s = Some (a, s1).
Proof. by intros (r & s' & E & -> & ->). Qed.

Lemma ends_left {B} (k : Z -> Reads B) src p l Q :
  ends (k (Z.of_nat (length l))) (view src p l) Q -> ends (bytes_left ≫= k) (view src p l) Q.
Proof. by apply ends_step. Qed.

Lemma ends_byte {B} (k : Z -> Reads B) src p l i b Q : seen src p l -> l !! i = Some b ->
  ends (k b) (view src p l) Q -> ends (byte (Z.of_nat i) ≫= k) (view src p l) Q.
Proof. intros H Hi. by apply ends_step, seen_byte. Qed.

Lemma ends_advance {B} (k : unit -> Reads B) src p l1 l2 n Q : seen src p (l1 ++ l2) -> n = Z.of_nat (length l1) ->
  ends (k tt) (view src (p + n) l2) Q -> ends (advance n ≫= k) (view src p (l1 ++ l2)) Q.
Proof. intros H ->. by apply ends_step, seen_advance. Qed.

Lemma seen_tail src p b l : seen src p (b :: l) -> seen src (p + 1) l.
Proof. intros H. by apply (seen_app _ _ [b]) in H as [_ H]. Qed.

Lemma seen_head src p b l : seen src p (b :: l) -> is_byte b.
Proof. intros (_ & [H _]%Forall_cons & _). done. Qed.

(** The test that the announced bytes are there. *)
Lemma ends_test src p l n Q :
  (n <= Z.of_nat (length l) -> Q (Some n) (view src p l)) -> (Z.of_nat (length l) < n -> Q None (view src p l)) ->
  ends (len ← bytes_left; mret (if n <=? len then Some n else None)) (view src p l) Q.
Proof.
  intros H1 H2. apply ends_left, ends_ret. destruct (Z.leb_spec n (Z.of_nat (length l))); auto.
Qed.

Lemma ends_bind_ret {S A B} (a : A) (k : A -> ST S B) s Q : ends (k a) s Q -> ends (mret a ≫= k) s Q.
Proof. done. Qed.

Lemma ends_assoc {S A B C} (o : ST S A) (k : A -> ST S B) (k' : B -> ST S C) s Q :
  ends (o ≫= (fun a => k a ≫= k')) s Q -> ends ((o ≫= k) ≫= k') s Q.
Proof.
  intros (r & s' & E & H). exists r, s'. split; [|done]. rewrite <- E. unfold mbind, ST_bind. by destruct (o s) as [[]|].
Qed.

(** Steps over the bytes that are known. *)
Ltac walk :=
  repeat (cbn beta iota; lazymatch goal with
  | |- ends ((_ ≫= _) ≫= _) _ _ => apply ends_assoc
  | |- ends (mret _ ≫= _) _ _ => apply ends_bind_ret
  | |- ends (bytes_left ≫= (fun len => mret _)) _ _ => apply ends_test
  | |- ends (bytes_left ≫= _) _ _ => apply ends_left
  | H : seen ?src ?p (?b :: ?l) |- ends (byte 0 ≫= _) (view ?src ?p (?b :: ?l)) _ =>
      apply (ends_byte _ _ _ _ 0 b _ H eq_refl)
  | H : seen ?src ?p (?a :: ?b :: ?l) |- ends (byte 1 ≫= _) (view ?src ?p (?a :: ?b :: ?l)) _ =>
      apply (ends_byte _ _ _ _ 1 b _ H eq_refl)
  | H : seen ?src ?p (?b :: ?l) |- ends (advance 1 ≫= _) (view ?src ?p (?b :: ?l)) _ =>
      apply (ends_advance _ _ _ [b] l 1 _ H eq_refl); apply (seen_app _ _ [b]) in H as [_ H]
  | H : seen ?src ?p (?a :: ?b :: ?l) |- ends (advance 2 ≫= _) (view ?src ?p (?a :: ?b :: ?l)) _ =>
      apply (ends_advance _ _ _ [a; b] l 2 _ H eq_refl); apply (seen_app _ _ [a; b]) in H as [_ H]
  | |- ends (if Z.of_nat (length (_ :: _)) =? 0 then _ else _) _ _ =>
      rewrite (proj2 (Z.eqb_neq (Z.of_nat (length (_ :: _))) 0)) by (simpl length; lia)
  | |- ends (if ?b then _ else _) _ _ =>
      first [replace b with true by (symmetry; first [apply Z.ltb_lt | apply Z.leb_le | apply Z.eqb_eq]; simpl length; lia)
            |replace b with false by (symmetry; first [apply Z.ltb_ge | apply Z.leb_gt | apply Z.eqb_neq]; simpl length; lia)]
  | |- ends ((if ?b then _ else _) ≫= _) _ _ =>
      first [replace b with true by (symmetry; first [apply Z.ltb_lt | apply Z.leb_le | apply Z.eqb_eq]; simpl length; lia)
            |replace b with false by (symmetry; first [apply Z.ltb_ge | apply Z.leb_gt | apply Z.eqb_neq]; simpl length; lia)]
  end).

(** The three forms, with what is behind them. *)
Lemma read_length_form src p h l n Q : seen src p (h ++ l) -> length_form n h ->
  (n <= Z.of_nat (length l) -> Q (Some n) (view src (p + Z.of_nat (length h)) l)) ->
  (Z.of_nat (length l) < n -> Q None (view src (p + Z.of_nat (length h)) l)) ->
  ends read_length (view src p (h ++ l)) Q.
Proof.
  intros H Hf H1 H2. unfold read_length. destruct Hf as [n Hn|n Hn|hi lo Hhi Hlo]; cbn [app] in *; walk.
  all: try done.
  all: cbn [length] in *; rewrite <- Z.add_assoc; done.
Qed.

Lemma read_length_takes : takes read_length id length_form.
Proof.
  intros src p h l a H Hf Hn. apply ends_exactly. apply (read_length_form _ _ _ _ _ _ H Hf); [done|]. unfold id in Hn. lia.
Qed.

Lemma read_length_reads : reads read_length id length_form.
Proof.
  intros src p l H.
  assert (D : (exists n h l', l = h ++ l' /\ length_form n h) \/ ends read_length (view src p l) (fun r _ => r = None)).
  { destruct l as [|a l]; [right; by apply ends_ret|]. pose proof (seen_head _ _ _ _ H) as Ha. unfold is_byte in Ha.
    destruct (Z.lt_ge_cases a 0x80); [left; exists a, [a], l; split; [done|apply short_form; lia]|].
    destruct (decide (a = 0x81)) as [->|N1]; [destruct l as [|b l]|].
    - right. unfold read_length. walk. by apply ends_left, ends_ret.
    - left. exists b, [0x81; b], l. split; [done|]. apply long_form_1. apply seen_tail in H. by apply (seen_head _ _ _ _ H).
    - destruct (decide (a = 0x82)) as [->|N2]; [destruct l as [|b [|c l]]|].
      + right. unfold read_length. walk. by apply ends_left, ends_ret.
      + right. unfold read_length. walk. by apply ends_left, ends_ret.
      + left. exists (256 * b + c), [0x82; b; c], l. split; [done|]. apply long_form_2; [|apply seen_tail in H]; apply seen_tail in H; by apply (seen_head _ _ _ _ H).
      + right. unfold read_length. walk. by apply ends_left, ends_ret. }
  destruct D as [(n & h & l' & -> & Hf)|D]; [|by eapply ends_weaken; [exact D|]; intros ? ? ->].
  apply (read_length_form _ _ _ _ _ _ H Hf); [|done]. intros Hn. by exists h, l'.
Qed.

Lemma read_something_takes tag : takes (read_something_length tag) id (header tag).
Proof.
  intros src p h l a H (h0 & -> & Hf) Hn. apply ends_exactly. unfold read_something_length. cbn [app] in *. walk.
  apply (ends_eq _ _ (Some a) (view src (p + 1 + Z.of_nat (length h0)) l)).
  - by apply read_length_takes.
  - split; [done|]. f_equal. simpl. lia.
Qed.

Lemma read_something_reads tag : reads (read_something_length tag) id (header tag).
Proof.
  intros src p [|a l] H; unfold read_something_length; [by apply ends_ret|]. walk.
  destruct (Z.eqb_spec a tag) as [->|]; [|by apply ends_ret]. walk. eapply ends_weaken; [by apply read_length_reads|].
  intros [n|] c; [|done]. intros (h & l' & -> & Hf & Hn & ->). exists (tag :: h), l'. split_and!; [done|by exists h|done|].
  simpl length. f_equal. lia.
Qed.

Lemma integer_reads : reads der_read_integer_length id integer_header.
Proof.
  intros src p l H. unfold der_read_integer_length. eapply ends_bind; [by apply read_something_reads|].
  intros [n|] c; [|intros _; by apply ends_ret]. intros (h & l' & -> & Hh & Hn & ->).
  apply seen_app in H as [_ H]. destruct (Z.leb_spec 1 n) as [H1|H0].
  - destruct l' as [|b l']; [unfold id in Hn; simpl in Hn; lia|]. walk. destruct (Z.eqb_spec b 0) as [->|].
    + walk. apply ends_ret. exists (h ++ [0]), l'. split_and!.
      * by rewrite <- app_assoc.
      * right. exists h. split_and!; [done|lia|]. by rewrite Z.sub_add.
      * unfold id in *. simpl length in Hn. lia.
      * rewrite length_app. simpl length. f_equal. lia.
    + apply ends_ret. exists h, (b :: l'). split_and!; [done|by left|done|done].
  - apply ends_ret. exists h, l'. split_and!; [done|by left|done|done].
Qed.

Lemma tagged_takes tag src p h l n : seen src p (h ++ l) -> length_form n h -> n <= Z.of_nat (length l) ->
  tagged_length tag (view src p (h ++ l)) = Some (Some (tag, n), view src (p + Z.of_nat (length h)) l).
Proof.
  intros H Hf Hn. unfold tagged_length. by rewrite (bind_some _ _ _ _ _ (read_length_takes _ _ _ _ _ H Hf Hn)).
Qed.

Lemma tagged_reads tag src p t l q : tag_form tag t -> seen src q l -> q = p + Z.of_nat (length t) ->
  ends (tagged_length tag) (view src q l) (fun r c =>
    match r with
    | None => True
    | Some a => exists h l', t ++ l = h ++ l' /\ explicit_header a h /\ snd a <= Z.of_nat (length l') /\
        c = view src (p + Z.of_nat (length h)) l'
    end).
Proof.
  intros Ht H ->. unfold tagged_length. eapply ends_bind; [by apply read_length_reads|].
  intros [n|] c; [|intros _; by apply ends_ret]. intros (h & l' & -> & Hf & Hn & ->). apply ends_ret.
  exists (t ++ h), l'. split_and!; [by rewrite app_assoc|by exists t, h|done|]. rewrite length_app. f_equal. lia.
Qed.

Lemma explicit_takes : takes der_read_explicit_tag_and_length snd explicit_header.
Proof.
  intros src p h l [tag n] H (t & h0 & -> & Ht & Hf) Hn. cbn [fst snd] in *. rewrite <- app_assoc in *.
  apply ends_exactly. unfold der_read_explicit_tag_and_length.
  assert (T : forall q, seen src q (h0 ++ l) -> q = p + Z.of_nat (length t) ->
    ends (tagged_length tag) (view src q (h0 ++ l)) (fun r s' => r = Some (tag, n) /\ s' = view src (p + Z.of_nat (length (t ++ h0))) l)).
  { intros q Hq ->. eapply ends_eq; [by apply tagged_takes|]. split; [done|]. rewrite length_app. f_equal. lia. }
  destruct Ht as [t Ht|t Ht|a b Ha Hb]; cbn [app length] in *; walk.
  - rewrite Z.add_simpl_l. by apply T.
  - cbn [negb orb Z.eqb]. walk. apply T; [done|simpl length; lia].
  - cbn [negb orb]. walk. apply T; [done|simpl length; lia].
Qed.

Lemma explicit_reads : reads der_read_explicit_tag_and_length snd explicit_header.
Proof.
  intros src p [|a l] H; unfold der_read_explicit_tag_and_length; [by apply ends_ret|]. pose proof (seen_head _ _ _ _ H) as Ha. unfold is_byte in Ha. walk.
  destruct (Z.ltb_spec a 0xA0); [by apply ends_ret|]. destruct (Z.ltb_spec a 0xBF) as [Hlt|Hge].
  - replace (a :: l) with ([0xA0 + (a - 0xA0)] ++ l) by (cbn [app]; f_equal; lia). apply (tagged_reads _ _ _ [_]); [apply tag_byte; lia|done|done].
  - apply ends_left. destruct (Z.eqb_spec a 0xBF) as [->|]; [cbn [negb orb]|by apply ends_ret].
    destruct l as [|b l]; [by apply ends_ret|]. pose proof (seen_head _ _ _ _ H) as Hb. unfold is_byte in Hb. walk.
    destruct (Z.ltb_spec b 128); [destruct (Z.ltb_spec b 31); [by apply ends_ret|]|].
    + apply (tagged_reads _ _ p [0xBF; b]); [by apply tag_high|done|simpl length; lia].
    + apply ends_left. destruct l as [|d l]; [by apply ends_ret|]. pose proof (seen_head _ _ _ _ H) as Hd. walk.
      apply (tagged_reads _ _ p [0xBF; b; d]); [apply tag_two; [lia|done]|done|simpl length; lia].
Qed.
