(* ===== verification/KmHeap.v ===== *)
(** * Keys of the TEE: allocated memory

    The objects that [malloc], [calloc] and [new] give, with the structures of
    [keymint_ta_defs.h] that point to them, and the functions of
    [src/tee/TlcKeymint/src/km_shared_util.cpp] that write to them.  An access outside of an object,
    through a null pointer or after [free] is undefined. *)

From S2P Require Import Prelude Effects KmTags KmBytes.

(** ** Objects *)

Abbreviation ptr := (option nat).

Record keymaster_blob_t := {
  data : ptr;
  data_length : Z
}.
#[export] Instance keymaster_blob_t_fields : Fields keymaster_blob_t := fun b => {|
  data := data b; data_length := data_length b |}.

(** The union: what was stored last; [calloc] and [memset] store zeros. *)
Inductive param_value :=
| zeros
| enumerated (z : Z)
| boolean (b : bool)
| integer (z : Z)
| long_integer (z : Z)
| date_time (z : Z)
| blob (b : keymaster_blob_t).

Record keymaster_key_param_t := {
  tag : Z;
  value : param_value
}.
#[export] Instance keymaster_key_param_t_fields : Fields keymaster_key_param_t := fun p => {|
  tag := tag p; value := value p |}.

Record keymaster_key_param_set_t := {
  params : ptr;
  length_ : Z
}.
#[export] Instance keymaster_key_param_set_t_fields : Fields keymaster_key_param_set_t := fun s => {|
  params := params s; length_ := length_ s |}.

Inductive object :=
| Bytes (l : list Z)
| Params (l : list keymaster_key_param_t)
| Blobs (l : list keymaster_blob_t).

(** The number of allocations so far names the next object. *)
Record memory := {
  heap : gmap nat object;
  allocations : nat
}.
#[export] Instance memory_fields : Fields memory := fun m => {|
  heap := heap m; allocations := allocations m |}.

(** The allocator: which allocations succeed, by their number and size, and what is in
    memory that was not initialised. *)
Class Allocator := {
  malloc_ok : nat -> Z -> bool;
  calloc_ok : nat -> Z -> bool;
  rubbish : nat -> Z -> Z
}.

Abbreviation Mem := (ST memory).

Section memory.
Context `{Allocator}.

Definition allocate (ok : nat -> bool) (o : nat -> object) : Mem ptr := fun m =>
  let n := allocations m in
  let m := m <| allocations := Datatypes.S n |> in
  if ok n then Some (Some n, m <| heap := <[n := o n]> (heap m) |>) else Some (None, m).

Definition malloc (size : Z) : Mem ptr :=
  allocate (fun n => malloc_ok n size) (fun n => Bytes (map (rubbish n) (seqZ 0 size))).

Definition sizeof_param : Z := 24.
Definition sizeof_blob : Z := 16.
Definition zero_param : keymaster_key_param_t := {| tag := 0; value := zeros |}.
Definition zero_blob : keymaster_blob_t := {| data := None; data_length := 0 |}.

Definition calloc_params (n : Z) : Mem ptr :=
  allocate (fun k => calloc_ok k (sizeof_param * n)) (fun _ => Params (replicate (Z.to_nat n) zero_param)).
Definition calloc_blobs (n : Z) : Mem ptr :=
  allocate (fun k => calloc_ok k (sizeof_blob * n)) (fun _ => Blobs (replicate (Z.to_nat n) zero_blob)).
End memory.

Definition free (p : ptr) : Mem unit := fun m =>
  match p with
  | None => Some (tt, m)
  | Some l => match heap m !! l with Some _ => Some (tt, m <| heap := delete l (heap m) |>) | None => None end
  end.

Definition object_at (p : ptr) : Mem object := fun m =>
  match p with
  | Some l => match heap m !! l with Some o => Some (o, m) | None => None end
  | None => None
  end.
Definition set_object (p : ptr) (o : object) : Mem unit := fun m =>
  match p with
  | Some l => Some (tt, m <| heap := <[l := o]> (heap m) |>)
  | None => None
  end.

(** ** Bytes *)

(** [memcpy] to a distance from the start of an object. *)
Definition store (p : ptr) (off : Z) (l : list Z) : Mem unit :=
  o ← object_at p;
  match o with
  | Bytes bs =>
      if (0 <=? off) && (off + Z.of_nat (length l) <=? Z.of_nat (length bs))
      then set_object p (Bytes (take (Z.to_nat off) bs ++ l ++ drop (Z.to_nat off + length l) bs))
      else undefined
  | _ => undefined
  end.

(** [pos[i] = (val >> (8 * i)) & 0xFF] *)
Fixpoint set_le (n : nat) (i : Z) (p : ptr) (off val : Z) : Mem unit :=
  match n with
  | O => mret tt
  | Datatypes.S n => store p (off + i) [Z.land (val ≫ (8 * i)) 0xFF] ;; set_le n (i + 1) p off val
  end.
Definition set_u32 (p : ptr) (off val : Z) : Mem unit := set_le 4 0 p off (u32 val).
Definition set_u64 (p : ptr) (off val : Z) : Mem unit := set_le 8 0 p off (u64 val).

(** With the position behind. *)
Definition set_u32_increment_pos (p : ptr) (off val : Z) : Mem Z :=
  set_u32 p off val ;; mret (off + 4).
Definition set_u64_increment_pos (p : ptr) (off val : Z) : Mem Z :=
  set_u64 p off val ;; mret (off + 8).
Definition set_data_increment_pos (p : ptr) (off : Z) (l : list Z) : Mem Z :=
  store p off l ;; mret (off + Z.of_nat (length l)).

(** ** Arrays *)

Definition param_at (p : ptr) (i : Z) : Mem keymaster_key_param_t :=
  o ← object_at p;
  match o with
  | Params l => match l !! Z.to_nat i with
                | Some x => if 0 <=? i then mret x else undefined
                | None => undefined
                end
  | _ => undefined
  end.
Definition set_param (p : ptr) (i : Z) (f : keymaster_key_param_t -> keymaster_key_param_t) : Mem unit :=
  x ← param_at p i;
  o ← object_at p;
  match o with
  | Params l => set_object p (Params (<[Z.to_nat i := f x]> l))
  | _ => undefined
  end.

Definition blob_at (p : ptr) (i : Z) : Mem keymaster_blob_t :=
  o ← object_at p;
  match o with
  | Blobs l => match l !! Z.to_nat i with
               | Some x => if 0 <=? i then mret x else undefined
               | None => undefined
               end
  | _ => undefined
  end.
Definition set_blob (p : ptr) (i : Z) (f : keymaster_blob_t -> keymaster_blob_t) : Mem unit :=
  x ← blob_at p i;
  o ← object_at p;
  match o with
  | Blobs l => set_object p (Blobs (<[Z.to_nat i := f x]> l))
  | _ => undefined
  end.

(** The bytes of a blob: the source of a [memcpy].  A copy of nothing reads nothing. *)
Definition load (p : ptr) (off n : Z) : Mem (list Z) :=
  if n =? 0 then mret []
  else
    o ← object_at p;
    match o with
    | Bytes bs =>
        if (0 <=? off) && (0 <=? n) && (off + n <=? Z.of_nat (length bs))
        then mret (take (Z.to_nat n) (drop (Z.to_nat off) bs)) else undefined
    | _ => undefined
    end.

(** ** The state of a call

    The input, the memory, and the variables that a function returns values through. *)

Record world (X : Type) := {
  input : cursor;
  mem : memory;
  outs : X
}.
Arguments input {X}.
Arguments mem {X}.
Arguments outs {X}.
#[export] Instance world_fields X : Fields (world X) := fun w => {|
  input := input w; mem := mem w; outs := outs w |}.

Definition on_input {X A} (o : Reads A) : KM (world X) A := lift (zoom input o).
Definition on_mem {X A} (o : Mem A) : KM (world X) A := lift (zoom mem o).
Definition out {X T} (f : X -> T) : KM (world X) T := within outs (field_of f).
Definition set_out {X T} (f : X -> T) `{Assign X T f} (v : T) : KM (world X) unit := within outs (assign_to f v).

(** [km_alloc(&a, l)]: [l] is an [uint32_t]. *)
Definition km_alloc `{Allocator} {X} (a : X -> ptr) `{Assign X ptr a} (l : Z) : KM (world X) unit :=
  p ← on_mem (malloc (u32 l));
  set_out a p ;;
  match p with
  | None => fail KM_ERROR_MEMORY_ALLOCATION_FAILED
  | Some _ => on_mem (store p 0 (replicate (Z.to_nat (u32 l)) 0))
  end.

(** A call with [&x->f] for its variable. *)
Definition on_field {X Y A} (f : X -> Y) `{Assign X Y f} (o : KM (world Y) A) : KM (world X) A := fun w =>
  match o {| input := input w; mem := mem w; outs := f (outs w) |} with
  | Some (r, w') => Some (r, {| input := input w'; mem := mem w'; outs := assigned f (outs w') (outs w) |})
  | None => None
  end.

(** ** Objects that are known *)

Definition with_object (m : memory) (l : nat) (o : object) : memory := m <| heap := <[l := o]> (heap m) |>.
Abbreviation with_bytes m l bs := (with_object m l (Bytes bs)).

Lemma object_twice m l o o' : with_object (with_object m l o) l o' = with_object m l o'.
Proof. unfold with_object. cbn. by rewrite insert_insert_eq. Qed.

Lemma set_object_with m l o : set_object (Some l) o m = Some (tt, with_object m l o).
Proof. done. Qed.

Lemma with_object_lookup m l o : heap (with_object m l o) !! l = Some o.
Proof. apply lookup_insert_eq. Qed.

Lemma with_object_same m l o : heap m !! l = Some o -> with_object m l o = m.
Proof. intros E. unfold with_object. destruct m as [h n]. cbn in *. by rewrite insert_id. Qed.

Lemma object_at_known m l o : heap m !! l = Some o -> object_at (Some l) m = Some (o, m).
Proof. intros E. unfold object_at. by rewrite E. Qed.

Lemma store_known m l a b c x off : heap m !! l = Some (Bytes (a ++ b ++ c)) -> off = Z.of_nat (length a) ->
  length x = length b -> store (Some l) off x m = Some (tt, with_bytes m l (a ++ x ++ c)).
Proof.
  intros E -> Hx. unfold store. rewrite (bind_some _ _ _ _ _ (object_at_known _ _ _ E)).
  replace (_ && _) with true by (symmetry; rewrite andb_true_iff, !Z.leb_le, !length_app; lia).
  rewrite Nat2Z.id, take_app_length. replace (drop _ (a ++ b ++ c)) with c; [done|].
  by rewrite app_assoc, drop_app_length' by (rewrite length_app; lia).
Qed.

Lemma set_le_known n m l a b c off i val : heap m !! l = Some (Bytes (a ++ b ++ c)) ->
  off + i = Z.of_nat (length a) -> 0 <= i -> length b = n ->
  set_le n i (Some l) off val m = Some (tt, with_bytes m l (a ++ le n (val ≫ (8 * i)) ++ c)).
Proof.
  revert m a b i. induction n as [|n IH]; intros m a b i E Ho Hi Hb; cbn [set_le].
  - destruct b; [|done]. cbn [app le] in *. by rewrite with_object_same.
  - destruct b as [|x b]; [done|]. injection Hb as Hb. rewrite land_0xff.
    rewrite (bind_some _ _ _ _ _ (store_known _ _ a [x] (b ++ c) [(val ≫ (8 * i)) `mod` 256] _ E Ho eq_refl)).
    rewrite (IH _ (a ++ [(val ≫ (8 * i)) `mod` 256]) b).
    + rewrite object_twice. do 3 f_equal. cbn [le app]. rewrite <- app_assoc. cbn [app]. do 3 f_equal.
      replace (8 * (i + 1)) with (8 * i + 8) by lia. rewrite <- Z.shiftr_shiftr by lia. f_equal. by rewrite Z.shiftr_div_pow2.
    + rewrite with_object_lookup. by rewrite <- app_assoc.
    + rewrite length_app. simpl. lia.
    + lia.
    + done.
Qed.

Lemma set_u32_known m l a b c off val : heap m !! l = Some (Bytes (a ++ b ++ c)) -> off = Z.of_nat (length a) -> length b = 4%nat ->
  set_u32 (Some l) off val m = Some (tt, with_bytes m l (a ++ le 4 val ++ c)).
Proof.
  intros E Ho Hb. unfold set_u32. rewrite (set_le_known 4 m l a b c) by (done || lia). rewrite Z.shiftr_0_r.
  do 6 f_equal. apply (le_mod 4).
Qed.

Lemma set_u64_known m l a b c off val : heap m !! l = Some (Bytes (a ++ b ++ c)) -> off = Z.of_nat (length a) -> length b = 8%nat ->
  set_u64 (Some l) off val m = Some (tt, with_bytes m l (a ++ le 8 val ++ c)).
Proof.
  intros E Ho Hb. unfold set_u64. rewrite (set_le_known 8 m l a b c) by (done || lia). rewrite Z.shiftr_0_r.
  do 6 f_equal. apply (le_mod 8).
Qed.
