(* ===== verification/KmDecode.v ===== *)
(** * Keys of the TEE: keys that are imported

    The functions of [src/tee/TlcKeymint/src/km_shared_util.cpp] that take a key out of its PKCS#8 or raw
    encoding into the format of the trusted application.  The input is [data] and
    [data_len]; [size_t] has 64 bits. *)

From S2P Require Import Prelude Effects KmTags KmBytes KmDer KmHeap.

Definition CHK {S} (expr : bool) : KM S unit := CHECK_TRUE KM_ERROR_INVALID_ARGUMENT expr.

Section steps.
Context {X : Type}.
Abbreviation K := (KM (world X)).

(** [CHK(der_read_...(&l, &data, &data_len))] *)
Definition chk_length {A} (o : Reads (option A)) : K A :=
  r ← on_input o;
  match r with Some n => mret n | None => fail KM_ERROR_INVALID_ARGUMENT end.
(** [... && l == data_len] *)
Definition chk_whole (o : Reads (option Z)) : K Z :=
  n ← chk_length o;
  len ← on_input bytes_left;
  CHK (n =? len) ;;
  mret n.
Definition skip_data (n : Z) : K unit := on_input (advance n).

(** [data_len >= n && data[0] == ... && data[n - 1] == ...], and the bytes are skipped. *)
Fixpoint bytes_are (i : Z) (l : list Z) : Reads bool :=
  match l with
  | [] => mret true
  | x :: l => b ← byte i; if b =? x then bytes_are (i + 1) l else mret false
  end.
Definition starts_with (l : list Z) : Reads bool :=
  len ← bytes_left;
  if len <? Z.of_nat (length l) then mret false else bytes_are 0 l.
Definition expect (l : list Z) : K unit :=
  b ← on_input (starts_with l);
  CHK b ;;
  skip_data (Z.of_nat (length l)).

Fixpoint put_u32s (p : ptr) (off : Z) (l : list Z) : Mem Z :=
  match l with
  | [] => mret off
  | v :: l => off ← set_u32_increment_pos p off v; put_u32s p off l
  end.
End steps.

Definition eckey_oid : list Z := [0x2a; 0x86; 0x48; 0xce; 0x3d; 0x02; 0x01].
Definition p224_oid : list Z := [0x2b; 0x81; 0x04; 0x00; 0x21].
Definition p256_oid : list Z := [0x2a; 0x86; 0x48; 0xce; 0x3d; 0x03; 0x01; 0x07].
Definition p384_oid : list Z := [0x2b; 0x81; 0x04; 0x00; 0x22].
Definition p521_oid : list Z := [0x2b; 0x81; 0x04; 0x00; 0x23].
Definition ed25519key_oid : list Z := [0x2b; 0x65; 0x70].
Definition X25519key_oid : list Z := [0x2b; 0x65; 0x6e].
Definition rsakey_oid : list Z := [0x2a; 0x86; 0x48; 0x86; 0xf7; 0x0d; 0x01; 0x01; 0x01].

(** [len == sizeof(oid) && memcmp(data, oid, len) == 0] *)
Definition oid_is (p len : Z) (oid : list Z) : Reads bool :=
  if len =? Z.of_nat (length oid) then same_bytes p oid len else mret false.

(** The curve with its bits, by its OID. *)
Definition curve_of_oid (p len : Z) : Reads (option (Z * Z)) :=
  b ← oid_is p len p224_oid;
  if (b : bool) then mret (Some (ec_curve_nist_p224, 224))
  else
    b ← oid_is p len p256_oid;
    if (b : bool) then mret (Some (ec_curve_nist_p256, 256))
    else
      b ← oid_is p len p384_oid;
      if (b : bool) then mret (Some (ec_curve_nist_p384, 384))
      else
        b ← oid_is p len p521_oid;
        if (b : bool) then mret (Some (ec_curve_nist_p521, 521)) else mret None.

(** ** Pairs of keys *)

Record key_out := {
  key_data : ptr;
  key_data_len : Z
}.
#[export] Instance key_out_fields : Fields key_out := fun k => {| key_data := key_data k; key_data_len := key_data_len k |}.

Section decode.
Context `{Allocator}.
Abbreviation K := (KM (world key_out)).

(** A copy of input to the key. *)
Definition copy_to_key (off p n : Z) : K unit :=
  l ← on_input (bytes_from p n);
  key ← out key_data;
  on_mem (store key off l).
Definition new_key (len : Z) : K unit :=
  set_out key_data_len len ;;
  km_alloc key_data len.
Definition key_u32s (l : list Z) : K Z :=
  key ← out key_data;
  on_mem (put_u32s key 0 l).

(** The optional constructed [0] with the OID of the curve. *)
Definition curve_again (curve_oid curve_oid_len : Z) : K unit :=
  b ← on_input (starts_with [0xa0]);
  if (b : bool) then
    skip_data 1 ;;
    chk_length read_length ;;
    oid_len ← chk_length der_read_oid_length;
    data ← on_input here;
    same ← on_input (if oid_len =? curve_oid_len then
                       a ← bytes_from curve_oid oid_len; l ← bytes_from data oid_len; mret (bool_decide (l = a))
                     else mret false);
    CHK same ;;
    skip_data oid_len
  else mret tt.

(** Behind the OID of the curve: the key is allocated and filled. *)
Definition fill_ec_key (curve curve_len_bits curve_oid curve_oid_len : Z) : K unit :=
  let curve_len := (curve_len_bits + 7) `div` 8 in
  new_key (24 + 3 * curve_len) ;;
  key_u32s [KM_ALGORITHM_EC; curve_len_bits; curve; curve_len; curve_len; curve_len] ;;
  chk_whole der_read_octet_string_length ;;
  chk_whole der_read_sequence_length ;;
  expect [0x02; 0x01; 0x01] ;;
  os_len ← chk_length der_read_octet_string_length;
  CHK (os_len =? curve_len) ;;
  data ← on_input here;
  copy_to_key (24 + 2 * curve_len) data curve_len ;;
  skip_data curve_len ;;
  curve_again curve_oid curve_oid_len ;;
  expect [0xa1] ;;
  chk_whole read_length ;;
  chk_whole der_read_bit_string_length ;;
  expect [0x00; 0x04] ;;
  data_len ← on_input bytes_left;
  CHK (data_len =? 2 * curve_len) ;;
  data ← on_input here;
  copy_to_key 24 data curve_len ;;
  copy_to_key (24 + curve_len) (data + curve_len) curve_len.

Definition decode_pkcs8_ec : K unit :=
  chk_whole der_read_sequence_length ;;
  expect [0x02; 0x01; 0x00] ;;
  chk_length der_read_sequence_length ;;
  oid_len ← chk_length der_read_oid_length;
  CHK (oid_len =? Z.of_nat (length eckey_oid)) ;;
  data ← on_input here;
  same ← on_input (same_bytes data eckey_oid oid_len);
  CHK same ;;
  skip_data oid_len ;;
  curve_oid_len ← chk_length der_read_oid_length;
  curve_oid ← on_input here;
  c ← on_input (curve_of_oid curve_oid curve_oid_len);
  match c with
  | None => fail KM_ERROR_INVALID_ARGUMENT
  | Some (curve, curve_len_bits) =>
      skip_data curve_oid_len ;;
      fill_ec_key curve curve_len_bits curve_oid curve_oid_len
  end.

(** The key of the curve 25519, without its public part. *)
Definition new_25519_key : K unit :=
  new_key (12 + 2 * CURVE25519_KEYSZ) ;;
  key_u32s [KM_ALGORITHM_EC; 256; EC_CURVE_25519] ;;
  key ← out key_data;
  on_mem (store key 12 (replicate (Z.to_nat CURVE25519_KEYSZ) 0)) ;;
  data ← on_input here;
  copy_to_key (12 + CURVE25519_KEYSZ) data CURVE25519_KEYSZ.

Definition decode_pkcs8_25519 (x25519 : bool) : K unit :=
  chk_whole der_read_sequence_length ;;
  expect [0x02; 0x01; 0x00] ;;
  chk_length der_read_sequence_length ;;
  oid_len ← chk_length der_read_oid_length;
  data ← on_input here;
  ed ← on_input (oid_is data oid_len ed25519key_oid);
  (if (ed : bool) then CHK (negb x25519)
   else
     x ← on_input (oid_is data oid_len X25519key_oid);
     if (x : bool) then CHK x25519 else CHK false) ;;
  skip_data oid_len ;;
  os_len ← chk_whole der_read_octet_string_length;
  CHK (os_len =? 2 + CURVE25519_KEYSZ) ;;
  os_len ← chk_whole der_read_octet_string_length;
  CHK (os_len =? CURVE25519_KEYSZ) ;;
  new_25519_key.

(** A number of an RSA key: its place and its length. *)
Definition rsa_integer : K (Z * Z) :=
  l ← chk_length der_read_integer_length;
  data ← on_input here;
  skip_data l ;;
  mret (data, l).
Fixpoint rsa_integers (n : nat) : K (list (Z * Z)) :=
  match n with
  | O => mret []
  | Datatypes.S n => x ← rsa_integer; l ← rsa_integers n; mret (x :: l)
  end.

Fixpoint put_inputs (off : Z) (l : list (Z * Z)) : K Z :=
  match l with
  | [] => mret off
  | (p, n) :: l =>
      bs ← on_input (bytes_from p n);
      key ← out key_data;
      off ← on_mem (set_data_increment_pos key off bs);
      put_inputs off l
  end.

Definition sum_list (l : list Z) : Z := foldr Z.add 0 l.

Definition decode_pkcs8_rsa : K unit :=
  chk_whole der_read_sequence_length ;;
  expect [0x02; 0x01; 0x00] ;;
  chk_length der_read_sequence_length ;;
  oid_len ← chk_length der_read_oid_length;
  CHK (oid_len =? Z.of_nat (length rsakey_oid)) ;;
  data ← on_input here;
  same ← on_input (same_bytes data rsakey_oid oid_len);
  CHK same ;;
  skip_data oid_len ;;
  expect [0x05; 0x00] ;;
  chk_whole der_read_octet_string_length ;;
  chk_whole der_read_sequence_length ;;
  expect [0x02; 0x01; 0x00] ;;
  numbers ← rsa_integers 8;
  data_len ← on_input bytes_left;
  CHK (data_len =? 0) ;;
  let n_len := nth 0 (map snd numbers) 0 in
  new_key (44 + sum_list (map snd numbers)) ;;
  pos ← key_u32s ([KM_ALGORITHM_RSA; 8 * n_len; 8 * n_len] ++ map snd numbers);
  put_inputs pos numbers ;;
  mret tt.

(** ** Any key *)

Definition decode_raw_symmetric (key_type : Z) : K unit :=
  CHECK_TRUE KM_ERROR_INCOMPATIBLE_ALGORITHM
    ((key_type =? KM_ALGORITHM_AES) || (key_type =? KM_ALGORITHM_TRIPLE_DES) || (key_type =? KM_ALGORITHM_HMAC)) ;;
  data_len ← on_input bytes_left;
  new_key (u64 (4 + 4 + data_len)) ;;
  key_u32s [key_type; 8 * data_len] ;;
  data ← on_input here;
  copy_to_key 8 data data_len.

Definition decode_key_data (key_format key_type curve : Z) (x25519 : bool) : K unit :=
  if key_format =? KM_KEY_FORMAT_PKCS8 then
    if key_type =? KM_ALGORITHM_EC then
      if curve =? KM_EC_CURVE_25519 then decode_pkcs8_25519 x25519 else decode_pkcs8_ec
    else if key_type =? KM_ALGORITHM_RSA then decode_pkcs8_rsa
    else fail KM_ERROR_INCOMPATIBLE_ALGORITHM
  else if key_format =? KM_KEY_FORMAT_RAW then
    if key_type =? KM_ALGORITHM_EC then
      CHECK_TRUE KM_ERROR_INCOMPATIBLE_ALGORITHM (curve =? KM_EC_CURVE_25519) ;;
      data_len ← on_input bytes_left;
      CHK (data_len =? CURVE25519_KEYSZ) ;;
      new_25519_key
    else decode_raw_symmetric key_type
  else fail KM_ERROR_UNSUPPORTED_KEY_FORMAT.
End decode.

(** ** Public keys *)

Record pub_out := {
  pub_curve : Z;
  pub_x : Z;
  pub_x_len : Z;
  pub_y : Z;
  pub_y_len : Z
}.
#[export] Instance pub_out_fields : Fields pub_out := fun o => {|
  pub_curve := pub_curve o; pub_x := pub_x o; pub_x_len := pub_x_len o; pub_y := pub_y o; pub_y_len := pub_y_len o |}.

Definition decode_pkcs8_ec_pub : KM (world pub_out) unit :=
  chk_whole der_read_sequence_length ;;
  chk_length der_read_sequence_length ;;
  oid_len ← chk_length der_read_oid_length;
  data ← on_input here;
  same ← on_input (same_bytes data eckey_oid oid_len);
  CHK same ;;
  skip_data oid_len ;;
  curve_oid_len ← chk_length der_read_oid_length;
  data ← on_input here;
  c ← on_input (curve_of_oid data curve_oid_len);
  match c with
  | None => fail KM_ERROR_INVALID_ARGUMENT
  | Some (curve, curve_len_bits) =>
      let curve_len := (curve_len_bits + 7) `div` 8 in
      set_out pub_curve curve ;;
      skip_data curve_oid_len ;;
      chk_whole der_read_bit_string_length ;;
      expect [0x00; 0x04] ;;
      data_len ← on_input bytes_left;
      CHK (data_len =? 2 * curve_len) ;;
      data ← on_input here;
      set_out pub_x data ;;
      set_out pub_x_len curve_len ;;
      skip_data curve_len ;;
      data ← on_input here;
      set_out pub_y data ;;
      set_out pub_y_len curve_len
  end.
