(* ===== verification/KmSteps.v ===== *)
(** * Keys of the TEE: reasoning about the calls

    [runs o w Q E]: the operation ends without undefined behaviour, with a value and a
    state that satisfy [Q], or with an error, and memory and variables that satisfy [E];
    a rule for each step of the code. *)

From S2P Require Import Prelude Effects KmTags KmBytes KmDer KmHeap KmDecode.

Section runs.
Context {X : Type}.
Abbreviation K := (KM (world X)).
Implicit Types (w : world X) (m : memory) (x : X) (E : Z -> memory -> X -> Prop).

Definition runs {A} (o : K A) w (Q : A -> world X -> Prop) E : Prop :=
  ends (A := result A) o w (fun r w' => match r with Done a => Q a w' | Failed e => E e (mem w') (outs w') end).

Definition W (src : list Z) (p : Z) (l : list Z) m x : world X := {| input := view src p l; mem := m; outs := x |}.

Lemma runs_bind {A B} (o : K A) (k : A -> K B) w Q Q' E :
  runs o w Q' E -> (forall a w', Q' a w' -> runs (k a) w' Q E) -> runs (o ≫= k) w Q E.
Proof.
  intros (r & w' & Eo & H) Hk. unfold runs, ends. unfold mbind, KM_bind. rewrite Eo. destruct r as [a|e]; [by apply Hk|by eexists _, _].
Qed.

Lemma runs_assoc {A B C} (o : K A) (k : A -> K B) (k' : B -> K C) w Q E :
  runs (o ≫= (fun a => k a ≫= k')) w Q E -> runs ((o ≫= k) ≫= k') w Q E.
Proof.
  intros (r & s' & E1 & H). exists r, s'. split; [|done]. rewrite <- E1. unfold mbind, KM_bind. by destruct (o w) as [[[]]|].
Qed.

Lemma runs_last {A} (o : K A) w Q E : runs (o ≫= mret) w Q E -> runs o w Q E.
Proof.
  intros (r & s' & E1 & H). exists r, s'. split; [|done]. rewrite <- E1. unfold mbind, KM_bind. by destruct (o w) as [[[]]|].
Qed.

Lemma runs_weaken {A} (o : K A) w (Q Q' : A -> world X -> Prop) E E' : runs o w Q' E' ->
  (forall a w', Q' a w' -> Q a w') -> (forall e m x, E' e m x -> E e m x) -> runs o w Q E.
Proof. intros H HQ HE. eapply ends_weaken; [exact H|]. intros [a|e] w'; auto. Qed.

Lemma runs_ret {A} (a : A) w (Q : A -> world X -> Prop) E : Q a w -> runs (mret a) w Q E.
Proof. intros H. by apply (ends_eq _ _ (Done a) w). Qed.

Lemma runs_bind_ret {A B} (a : A) (k : A -> K B) w Q E : runs (k a) w Q E -> runs (mret a ≫= k) w Q E.
Proof. done. Qed.

Lemma runs_fail {A} e w (Q : A -> world X -> Prop) E : E e (mem w) (outs w) -> runs (fail e) w Q E.
Proof. intros H. by apply (ends_eq _ _ (Failed e) w). Qed.

Lemma runs_bind_fail {A B} e (k : A -> K B) w Q E : E e (mem w) (outs w) -> runs (fail e ≫= k) w Q E.
Proof. intros H. by apply (ends_eq _ _ (Failed e) w). Qed.

Lemma runs_true {B} e b (k : unit -> K B) w Q E :
  (b = true -> runs (k tt) w Q E) -> (b = false -> E e (mem w) (outs w)) -> runs (CHECK_TRUE e b ≫= k) w Q E.
Proof. destruct b; intros Ht Hf; [by apply Ht|]. by apply runs_bind_fail, Hf. Qed.

Lemma runs_CHK {B} b (k : unit -> K B) c m x Q E : (b = true -> runs (k tt) {| input := c; mem := m; outs := x |} Q E) ->
  (b = false -> E KM_ERROR_INVALID_ARGUMENT m x) -> runs (CHK b ≫= k) {| input := c; mem := m; outs := x |} Q E.
Proof. apply runs_true. Qed.

(** ** Input *)

Lemma runs_input {A B} (o : Reads A) (k : A -> K B) c m x a c' Q E : o c = Some (a, c') ->
  runs (k a) {| input := c'; mem := m; outs := x |} Q E ->
  runs (on_input o ≫= k) {| input := c; mem := m; outs := x |} Q E.
Proof.
  intros Eo H. eapply runs_bind; [|intros a0 w' E0; exact E0]. unfold runs.
  apply (ends_eq _ _ (Done a) {| input := c'; mem := m; outs := x |}); [|done]. unfold on_input, lift, zoom. cbn. by rewrite Eo.
Qed.

Lemma runs_input_ends {A B} (o : Reads A) (k : A -> K B) src p l m x (R : A -> cursor -> Prop) Q E :
  ends o (view src p l) R -> (forall a c, R a c -> runs (k a) {| input := c; mem := m; outs := x |} Q E) ->
  runs (on_input o ≫= k) (W src p l m x) Q E.
Proof. intros (a & c & Eo & H) Hk. eapply runs_input; [exact Eo|]. by apply Hk. Qed.

Lemma runs_left {B} (k : Z -> K B) src p l m x Q E :
  runs (k (Z.of_nat (length l))) (W src p l m x) Q E -> runs (on_input bytes_left ≫= k) (W src p l m x) Q E.
Proof. by apply runs_input. Qed.

Lemma runs_here {B} (k : Z -> K B) src p l m x Q E :
  runs (k p) (W src p l m x) Q E -> runs (on_input here ≫= k) (W src p l m x) Q E.
Proof. by apply runs_input. Qed.

Lemma runs_skip {B} (k : unit -> K B) src p l1 l2 n m x Q E : seen src p (l1 ++ l2) -> n = Z.of_nat (length l1) ->
  runs (k tt) (W src (p + n) l2 m x) Q E -> runs (skip_data n ≫= k) (W src p (l1 ++ l2) m x) Q E.
Proof. intros H -> Hk. eapply runs_input; [by apply seen_advance|done]. Qed.

(** A length of the input, whatever the input, and one that is there. *)
Lemma runs_length {A B} (o : Reads (option A)) size H (k : A -> K B) src p l m x Q E : reads o size H -> seen src p l ->
  E KM_ERROR_INVALID_ARGUMENT m x ->
  (forall a h l', l = h ++ l' -> H a h -> size a <= Z.of_nat (length l') -> seen src (p + Z.of_nat (length h)) l' ->
    runs (k a) (W src (p + Z.of_nat (length h)) l' m x) Q E) ->
  runs (chk_length o ≫= k) (W src p l m x) Q E.
Proof.
  intros Ho Hs HE Hk. unfold chk_length. apply runs_assoc. eapply runs_input_ends; [by apply Ho|].
  intros [a|] c; [|intros _; by apply runs_bind_fail]. intros (h & l' & -> & Ha & Hn & ->). apply runs_bind_ret.
  apply seen_app in Hs as [_ Hs]. by apply Hk.
Qed.

Lemma runs_length_or {A B} (o : Reads (option A)) size H (k : A -> K B) src p l m x Q E : reads o size H -> takes o size H -> seen src p l ->
  ((forall a h l', l = h ++ l' -> H a h -> ~ size a <= Z.of_nat (length l')) -> E KM_ERROR_INVALID_ARGUMENT m x) ->
  (forall a h l', l = h ++ l' -> H a h -> size a <= Z.of_nat (length l') -> seen src (p + Z.of_nat (length h)) l' ->
    runs (k a) (W src (p + Z.of_nat (length h)) l' m x) Q E) ->
  runs (chk_length o ≫= k) (W src p l m x) Q E.
Proof.
  intros Ho Ht Hs HE Hk. unfold chk_length. apply runs_assoc. destruct (Ho _ _ _ Hs) as (r & c & Er & Hr).
  eapply runs_input; [exact Er|]. destruct r as [a|].
  - destruct Hr as (h & l' & -> & Ha & Hn & ->). apply runs_bind_ret. apply seen_app in Hs as [_ Hs]. by apply Hk.
  - apply runs_bind_fail, HE. intros a h l' -> Ha Hn. by rewrite (Ht _ _ _ _ _ Hs Ha Hn) in Er.
Qed.

Lemma runs_length_of {A B} (o : Reads (option A)) size H (k : A -> K B) src p h l a m x Q E : takes o size H ->
  seen src p (h ++ l) -> H a h -> size a <= Z.of_nat (length l) ->
  (seen src (p + Z.of_nat (length h)) l -> runs (k a) (W src (p + Z.of_nat (length h)) l m x) Q E) ->
  runs (chk_length o ≫= k) (W src p (h ++ l) m x) Q E.
Proof.
  intros Ho Hs Ha Hn Hk. unfold chk_length. apply runs_assoc. eapply runs_input; [by apply Ho|]. apply runs_bind_ret.
  apply seen_app in Hs as [_ Hs]. by apply Hk.
Qed.

Lemma runs_whole {B} (o : Reads (option Z)) H (k : Z -> K B) src p l m x Q E : reads o id H -> seen src p l ->
  E KM_ERROR_INVALID_ARGUMENT m x ->
  (forall h l', l = h ++ l' -> H (Z.of_nat (length l')) h -> seen src (p + Z.of_nat (length h)) l' ->
    runs (k (Z.of_nat (length l'))) (W src (p + Z.of_nat (length h)) l' m x) Q E) ->
  runs (chk_whole o ≫= k) (W src p l m x) Q E.
Proof.
  intros Ho Hs HE Hk. unfold chk_whole. apply runs_assoc. eapply runs_length; [done|done|done|].
  intros n h l' -> Hn Hle Hs'. apply runs_assoc, runs_left. apply runs_assoc, runs_CHK; [|done].
  intros ->%Z.eqb_eq. apply runs_bind_ret. by apply Hk.
Qed.

Lemma runs_whole_of {B} (o : Reads (option Z)) H (k : Z -> K B) src p h l m x Q E : takes o id H ->
  seen src p (h ++ l) -> H (Z.of_nat (length l)) h ->
  (seen src (p + Z.of_nat (length h)) l -> runs (k (Z.of_nat (length l))) (W src (p + Z.of_nat (length h)) l m x) Q E) ->
  runs (chk_whole o ≫= k) (W src p (h ++ l) m x) Q E.
Proof.
  intros Ho Hs Ha Hk. unfold chk_whole. apply runs_assoc. eapply runs_length_of; [done|done|done|done|].
  intros Hs'. apply runs_assoc, runs_left. apply runs_assoc, runs_CHK; [|by rewrite Z.eqb_refl].
  intros _. apply runs_bind_ret. by apply Hk.
Qed.

(** ** Bytes that must come *)

Lemma bytes_are_view src p s l1 l2 : seen src p (l1 ++ l2) -> (length s <= length l2)%nat ->
  bytes_are (Z.of_nat (length l1)) s (view src p (l1 ++ l2)) = Some (bool_decide (s `prefix_of` l2), view src p (l1 ++ l2)).
Proof.
  revert l1 l2. induction s as [|b s IH]; intros l1 l2 H Hx; cbn [bytes_are].
  - by rewrite bool_decide_eq_true_2 by apply prefix_nil.
  - destruct l2 as [|c l2]; [simpl in Hx; lia|].
    rewrite (bind_some _ _ _ c (view src p (l1 ++ c :: l2))); [|apply (seen_byte _ _ _ _ _ H); by rewrite list_lookup_middle].
    destruct (Z.eqb_spec c b) as [->|Hn].
    + replace (Z.of_nat (length l1) + 1) with (Z.of_nat (length (l1 ++ [b]))) by (rewrite length_app; simpl; lia).
      rewrite (cons_middle b l1 l2), app_assoc in H |- *. rewrite IH; [|done|simpl in Hx; lia]. do 2 f_equal.
      apply bool_decide_ext. split; [apply prefix_cons|apply prefix_cons_inv_2].
    + rewrite bool_decide_eq_false_2; [done|]. intros Hp%prefix_cons_inv_1. congruence.
Qed.

Lemma starts_with_view src p s l : seen src p l ->
  starts_with s (view src p l) = Some (bool_decide (s `prefix_of` l), view src p l).
Proof.
  intros H. unfold starts_with. rewrite (bind_some _ _ _ (Z.of_nat (length l)) (view src p l)) by done.
  destruct (Z.ltb_spec (Z.of_nat (length l)) (Z.of_nat (length s))) as [Hl|Hl].
  - rewrite bool_decide_eq_false_2; [done|]. intros Hp%prefix_length. lia.
  - apply (bytes_are_view src p s [] l); [done|lia].
Qed.

Lemma runs_expect {B} (k : unit -> K B) src p l s m x Q E : seen src p l ->
  E KM_ERROR_INVALID_ARGUMENT m x ->
  (forall l', l = s ++ l' -> seen src (p + Z.of_nat (length s)) l' -> runs (k tt) (W src (p + Z.of_nat (length s)) l' m x) Q E) ->
  runs (expect s ≫= k) (W src p l m x) Q E.
Proof.
  intros H HE Hk. unfold expect. apply runs_assoc. eapply runs_input; [by apply starts_with_view|].
  apply runs_assoc, runs_CHK; [|done]. intros [l' ->]%bool_decide_eq_true. apply runs_skip; [done|done|].
  apply seen_app in H as [_ H]. by apply Hk.
Qed.

Lemma runs_expect_of {B} (k : unit -> K B) src p s l m x Q E : seen src p (s ++ l) ->
  (seen src (p + Z.of_nat (length s)) l -> runs (k tt) (W src (p + Z.of_nat (length s)) l m x) Q E) ->
  runs (expect s ≫= k) (W src p (s ++ l) m x) Q E.
Proof.
  intros H Hk. unfold expect. apply runs_assoc. eapply runs_input; [by apply starts_with_view|].
  rewrite bool_decide_eq_true_2 by (by apply prefix_app_r). apply runs_assoc, runs_CHK; [|done]. intros _.
  apply runs_skip; [done|done|]. apply seen_app in H as [_ H]. by apply Hk.
Qed.

(** ** Memory and variables *)

Lemma runs_mem {A B} (o : Mem A) (k : A -> K B) c m x a m' Q E : o m = Some (a, m') ->
  runs (k a) {| input := c; mem := m'; outs := x |} Q E ->
  runs (on_mem o ≫= k) {| input := c; mem := m; outs := x |} Q E.
Proof.
  intros Eo H. eapply runs_bind; [|intros a0 w' E0; exact E0]. unfold runs.
  apply (ends_eq _ _ (Done a) {| input := c; mem := m'; outs := x |}); [|done]. unfold on_mem, lift, zoom. cbn. by rewrite Eo.
Qed.

Lemma runs_out {T B} (f : X -> T) (k : T -> K B) c m x Q E :
  runs (k (f x)) {| input := c; mem := m; outs := x |} Q E ->
  runs (out f ≫= k) {| input := c; mem := m; outs := x |} Q E.
Proof. intros H. eapply runs_bind; [|intros a0 w' E0; exact E0]. by apply (ends_eq _ _ (Done (f x)) {| input := c; mem := m; outs := x |}). Qed.

Lemma runs_set_out {T B} (f : X -> T) `{Assign X T f} v (k : unit -> K B) c m x Q E :
  runs (k tt) {| input := c; mem := m; outs := assigned f v x |} Q E ->
  runs (set_out f v ≫= k) {| input := c; mem := m; outs := x |} Q E.
Proof. intros Hk. eapply runs_bind; [|intros a0 w' E0; exact E0]. by apply (ends_eq _ _ (Done tt) {| input := c; mem := m; outs := assigned f v x |}). Qed.

(** [km_alloc]: the allocation fails, or there is a new object of zeros. *)
Definition allocated m : memory := m <| allocations := Datatypes.S (allocations m) |>.

Lemma runs_km_alloc `{Allocator} (a : X -> ptr) `{Assign X ptr a} (k : unit -> K unit) n c m x (Q : unit -> world X -> Prop) E : 0 <= n < 2 ^ 32 ->
  (malloc_ok (allocations m) n = false -> E KM_ERROR_MEMORY_ALLOCATION_FAILED (allocated m) (assigned a None x)) ->
  (malloc_ok (allocations m) n = true ->
    runs (k tt) {| input := c; mem := with_bytes (allocated m) (allocations m) (replicate (Z.to_nat n) 0);
      outs := assigned a (Some (allocations m)) x |} Q E) ->
  runs (km_alloc a n ≫= k) {| input := c; mem := m; outs := x |} Q E.
Proof.
  intros Hn H1 H2. unfold km_alloc. apply runs_assoc. rewrite u32_small by done.
  destruct (malloc_ok (allocations m) n) eqn:Em.
  - eapply runs_mem; [unfold malloc, allocate; cbv zeta; rewrite Em; reflexivity|].
    apply runs_assoc, runs_set_out. eapply runs_mem.
    + apply (store_known _ _ [] (map (rubbish (allocations m)) (seqZ 0 n)) []); cbn; [|done|].
      * rewrite lookup_insert_eq. by rewrite app_nil_r.
      * by rewrite length_replicate, length_map, length_seqZ.
    + cbn [app]. rewrite app_nil_r. specialize (H2 eq_refl).
      match type of H2 with runs _ ?w _ _ => match goal with |- runs _ ?w' _ _ => replace w' with w; [done|] end end.
      f_equal. unfold with_object. cbn. by rewrite insert_insert_eq.
  - eapply runs_mem; [unfold malloc, allocate; cbv zeta; rewrite Em; reflexivity|].
    apply runs_assoc, runs_set_out. apply runs_bind_fail. by apply H1.
Qed.

End runs.
