(* ===== verification/KmImport.v ===== *)
(** * Keys of the TEE: the format of the trusted application

    The buffers that [decode_key_data] fills, and the steps that fill them. *)

From S2P Require Import Prelude Effects KmTags KmBytes KmDer KmHeap KmDecode KmSteps.
(** ** Layouts *)

Definition u32s (l : list Z) : list Z := l ≫= le 4.
Definition size {A} (l : list A) : Z := Z.of_nat (length l).

Lemma size_app {A} (l l' : list A) : size (l ++ l') = size l + size l'.
Proof. unfold size. rewrite length_app. lia. Qed.
Lemma size_nonneg {A} (l : list A) : 0 <= size l.
Proof. unfold size. lia. Qed.

Definition curves : list (list Z * (Z * Z)) := [
  (p224_oid, (ec_curve_nist_p224, 224)); (p256_oid, (ec_curve_nist_p256, 256));
  (p384_oid, (ec_curve_nist_p384, 384)); (p521_oid, (ec_curve_nist_p521, 521))].
Definition curve_len (bits : Z) : Z := (bits + 7) `div` 8.

Definition rsa_key (numbers : list (list Z)) : list Z :=
  let n_len := size (nth 0 numbers []) in
  u32s ([KM_ALGORITHM_RSA; 8 * n_len; 8 * n_len] ++ map size numbers) ++ concat numbers.
Definition ec_key (curve bits : Z) (x y private : list Z) : list Z :=
  u32s [KM_ALGORITHM_EC; bits; curve; curve_len bits; curve_len bits; curve_len bits] ++ x ++ y ++ private.
Definition c25519_key (private : list Z) : list Z :=
  u32s [KM_ALGORITHM_EC; 256; EC_CURVE_25519] ++ replicate (Z.to_nat CURVE25519_KEYSZ) 0 ++ private.
Definition symmetric_key (key_type : Z) (bytes : list Z) : list Z :=
  u32s [key_type; 8 * size bytes] ++ bytes.

(** The keys of a type, with parts of their sizes. *)
Inductive key_blob : Z -> list Z -> Prop :=
| rsa_blob numbers : length numbers = 8%nat -> key_blob KM_ALGORITHM_RSA (rsa_key numbers)
| ec_blob oid curve bits x y private : (oid, (curve, bits)) ∈ curves ->
    size x = curve_len bits -> size y = curve_len bits -> size private = curve_len bits ->
    key_blob KM_ALGORITHM_EC (ec_key curve bits x y private)
| c25519_blob private : size private = CURVE25519_KEYSZ -> key_blob KM_ALGORITHM_EC (c25519_key private)
| symmetric_blob t bytes : t ∈ [KM_ALGORITHM_AES; KM_ALGORITHM_TRIPLE_DES; KM_ALGORITHM_HMAC] ->
    key_blob t (symmetric_key t bytes).

Lemma length_u32s l : length (u32s l) = (4 * length l)%nat.
Proof. induction l as [|v l IH]; [done|]. unfold u32s in *. cbn [mbind list_bind]. rewrite length_app, length_le, IH. simpl. lia. Qed.

Lemma curve_bits oid curve bits : (oid, (curve, bits)) ∈ curves -> 28 <= curve_len bits <= 66.
Proof. intros H. repeat (apply elem_of_cons in H as [[= -> -> ->]|H]; [vm_compute; done|]). by apply elem_of_nil in H. Qed.

(** ** Writing *)

Lemma put_u32s_known m n vs a b c off : heap m !! n = Some (Bytes (a ++ b ++ c)) -> off = size a ->
  length b = (4 * length vs)%nat ->
  put_u32s (Some n) off vs m = Some (off + 4 * size vs, with_bytes m n (a ++ u32s vs ++ c)).
Proof.
  unfold size. revert m a b off. induction vs as [|v vs IH]; intros m a b off Hm Ho Hb; cbn [put_u32s].
  - destruct b; [|done]. cbn [u32s mbind list_bind app length] in *. rewrite Z.add_0_r. by rewrite with_object_same.
  - rewrite <- (take_drop 4 b), <- app_assoc in Hm. unfold set_u32_increment_pos.
    assert (L : length (take 4 b) = 4%nat) by (rewrite length_take; simpl in Hb; lia).
    rewrite (bind_some _ _ _ (off + 4) (with_bytes m n (a ++ le 4 v ++ drop 4 b ++ c))).
    2: { by rewrite (bind_some _ _ _ _ _ (set_u32_known _ _ _ _ _ _ v Hm Ho L)). }
    rewrite (IH _ (a ++ le 4 v) (drop 4 b)).
    + rewrite object_twice. unfold u32s. cbn [mbind list_bind]. rewrite <- !app_assoc. do 2 f_equal. simpl length. lia.
    + rewrite with_object_lookup. by rewrite <- app_assoc.
    + rewrite length_app, length_le. lia.
    + rewrite length_drop. simpl in Hb. lia.
Qed.

Section keys.
Context `{Allocator}.
Abbreviation K := (KM (world key_out)).
Implicit Types (m : memory) (k : key_out) (E : Z -> memory -> key_out -> Prop).

Lemma runs_new_key (f : unit -> K unit) n c m k (Q : unit -> world key_out -> Prop) E : 0 <= n < 2 ^ 32 ->
  (malloc_ok (allocations m) n = false -> E KM_ERROR_MEMORY_ALLOCATION_FAILED (allocated m) {| key_data := None; key_data_len := n |}) ->
  runs (f tt) {| input := c; mem := with_bytes (allocated m) (allocations m) (replicate (Z.to_nat n) 0);
      outs := {| key_data := Some (allocations m); key_data_len := n |} |} Q E ->
  runs (new_key n ≫= f) {| input := c; mem := m; outs := k |} Q E.
Proof.
  intros Hn H1 H2. unfold new_key. apply runs_assoc, runs_set_out. by apply runs_km_alloc.
Qed.

Lemma runs_key_u32s (f : Z -> K unit) vs b d c m n len Q E : length b = (4 * length vs)%nat ->
  runs (f (4 * size vs)) {| input := c; mem := with_bytes m n (u32s vs ++ d); outs := {| key_data := Some n; key_data_len := len |} |} Q E ->
  runs (key_u32s vs ≫= f) {| input := c; mem := with_bytes m n (b ++ d); outs := {| key_data := Some n; key_data_len := len |} |} Q E.
Proof.
  intros Hb Hf. unfold key_u32s. apply runs_assoc, runs_out. cbn [key_data]. eapply runs_mem.
  - apply (put_u32s_known _ _ vs [] b d); [apply with_object_lookup|done|done].
  - by rewrite object_twice.
Qed.

(** A copy, from a place of the input that is known. *)
Lemma runs_copy (f : unit -> K unit) src q l p s nb off a b d bs m n len Q E : bs = a ++ b ++ d -> occurs src p s ->
  nb = size s -> off = size a -> length b = length s ->
  runs (f tt) (W src q l (with_bytes m n (a ++ s ++ d)) {| key_data := Some n; key_data_len := len |}) Q E ->
  runs (copy_to_key off p nb ≫= f) (W src q l (with_bytes m n bs) {| key_data := Some n; key_data_len := len |}) Q E.
Proof.
  intros -> Ho -> -> Hb Hf. unfold copy_to_key. apply runs_assoc. eapply runs_input; [by apply bytes_from_occurs|].
  apply runs_assoc, runs_out. cbn [key_data]. eapply runs_mem.
  - by apply (store_known _ _ a b d); [apply with_object_lookup|done|].
  - by rewrite object_twice.
Qed.

(** ** OIDs *)

Definition curve_of (oid : list Z) : option (Z * Z) :=
  snd <$> List.find (fun c => bool_decide (oid = fst c)) curves.

Lemma oid_is_occurs src p s q l oid : occurs src p s ->
  oid_is p (size s) oid (view src q l) = Some (bool_decide (s = oid), view src q l).
Proof.
  intros Ho. unfold oid_is, size. destruct (Z.eqb_spec (Z.of_nat (length s)) (Z.of_nat (length oid))) as [Hl|Hl].
  - apply same_bytes_occurs; [done|done|lia].
  - rewrite bool_decide_eq_false_2; [done|]. by intros ->.
Qed.

Lemma curve_of_oid_occurs src p s q l : occurs src p s ->
  curve_of_oid p (size s) (view src q l) = Some (curve_of s, view src q l).
Proof.
  intros Ho. unfold curve_of_oid, curve_of, curves. cbn [List.find fst].
  repeat (rewrite (bind_some _ _ _ _ _ (oid_is_occurs _ _ _ _ _ _ Ho)); case_bool_decide; [done|]). done.
Qed.

Lemma curve_of_curves oid c : curve_of oid = Some c <-> (oid, c) ∈ curves.
Proof.
  split.
  - unfold curve_of. intros ([oid' c'] & [Hin E]%List.find_some & [= <-])%fmap_Some. apply bool_decide_eq_true in E. cbn in E. subst oid'.
    by apply list_elem_of_In.
  - intros Hin. repeat (apply elem_of_cons in Hin as [[= -> ->]|Hin]; [done|]). by apply elem_of_nil in Hin.
Qed.
End keys.

(** ** Whatever the input

    The functions that take a key out of its encoding, on any bytes. *)

Section import.
Context `{Allocator}.
Abbreviation K := (KM (world key_out)).
Implicit Types (m : memory) (k : key_out) (E : Z -> memory -> key_out -> Prop).

(** The key is in a new object of its size; nothing else has changed. *)
Definition key_made (t : Z) m (_ : unit) (w : world key_out) : Prop :=
  exists b, key_blob t b /\ outs w = {| key_data := Some (allocations m); key_data_len := size b |} /\
    heap (mem w) = <[allocations m := Bytes b]> (heap m).

(** The caller has the only new object, if there is one. *)
Definition key_left m (_ : Z) (m' : memory) k : Prop :=
  (key_data k = None /\ heap m' = heap m) \/
  (exists b, key_data k = Some (allocations m) /\ heap m' = <[allocations m := Bytes b]> (heap m)).

Lemma left_none m e k : key_data k = None -> key_left m e m k.
Proof. by left. Qed.
Lemma left_failed m e n : key_left m e (allocated m) {| key_data := None; key_data_len := n |}.
Proof. by left. Qed.
Lemma left_some m e b n : key_left m e (with_bytes (allocated m) (allocations m) b) {| key_data := Some (allocations m); key_data_len := n |}.
Proof. right. by exists b. Qed.
Hint Resolve left_none left_failed left_some : core.

(** The key is [b]. *)
Definition key_is m (b : list Z) (_ : unit) (w : world key_out) : Prop :=
  outs w = {| key_data := Some (allocations m); key_data_len := size b |} /\
  mem w = with_bytes (allocated m) (allocations m) b.

Lemma made t m b w : key_blob t b -> key_is m b tt w -> key_made t m tt w.
Proof. intros Hb [Ho Hm]. exists b. by rewrite Hm. Qed.

Lemma curve_len_nat bits oid curve : (oid, (curve, bits)) ∈ curves -> exists c, curve_len bits = Z.of_nat c /\ (28 <= c <= 66)%nat.
Proof. intros Hc%curve_bits. exists (Z.to_nat (curve_len bits)). lia. Qed.

Lemma split_size n (l : list Z) : 0 <= n <= size l -> exists s t, l = s ++ t /\ n = size s.
Proof.
  unfold size. intros Hn. exists (take (Z.to_nat n) l), (drop (Z.to_nat n) l). rewrite take_drop, length_take_le by lia. split; [done|lia].
Qed.

(** ** RSA *)

Lemma runs_rsa_integer (f : Z * Z -> K unit) src p l m k Q E : seen src p l -> E KM_ERROR_INVALID_ARGUMENT m k ->
  (forall q s p' l', occurs src q s -> seen src p' l' -> (length s + length l' <= length l)%nat -> runs (f (q, size s)) (W src p' l' m k) Q E) ->
  runs (rsa_integer ≫= f) (W src p l m k) Q E.
Proof.
  intros Hs HE Hf. unfold rsa_integer. apply runs_assoc. eapply runs_length; [by apply integer_reads|done|done|].
  intros n h l' -> Hh Hn Hs'. unfold id in Hn. apply runs_assoc, runs_here. apply runs_assoc.
  apply integer_bounds in Hh as Hb. destruct (split_size n l') as (s & t & -> & ->); [unfold size; lia|].
  eapply runs_skip; [exact Hs'|done|]. apply runs_bind_ret. destruct (seen_app _ _ _ _ Hs') as [(Ho & _) Hs2].
  apply Hf; [done|done|]. rewrite !length_app. lia.
Qed.

Lemma runs_rsa_integers (f : list (Z * Z) -> K unit) n src p l m k Q E : seen src p l -> E KM_ERROR_INVALID_ARGUMENT m k ->
  (forall places numbers p' l', Forall2 (fun a s => occurs src (fst a) s /\ snd a = size s) places numbers ->
    length numbers = n -> seen src p' l' -> (length (concat numbers) <= length l)%nat ->
    runs (f places) (W src p' l' m k) Q E) ->
  runs (rsa_integers n ≫= f) (W src p l m k) Q E.
Proof.
  revert f src p l. induction n as [|n IH]; intros f src p l Hs HE Hf; cbn [rsa_integers].
  - apply runs_bind_ret. apply (Hf [] []); [done|done|done|simpl; lia].
  - apply runs_assoc. apply runs_rsa_integer; [done|done|]. intros q s p' l' Ho Hs' Hl. apply runs_assoc.
    apply IH; [done|done|]. intros places numbers p2 l2 Hp Hn Hs2 Hc. apply runs_bind_ret. apply (Hf _ (s :: numbers)).
    + by constructor.
    + simpl. by rewrite Hn.
    + done.
    + simpl. rewrite length_app. lia.
Qed.

Lemma runs_put_inputs (f : Z -> K unit) src p l places numbers off a b m n len Q E :
  Forall2 (fun a s => occurs src (fst a) s /\ snd a = size s) places numbers -> off = size a ->
  length b = length (concat numbers) ->
  runs (f (off + size (concat numbers))) (W src p l (with_bytes m n (a ++ concat numbers)) {| key_data := Some n; key_data_len := len |}) Q E ->
  runs (put_inputs off places ≫= f) (W src p l (with_bytes m n (a ++ b)) {| key_data := Some n; key_data_len := len |}) Q E.
Proof.
  unfold size. intros Hp. revert off a b. induction Hp as [|[q x] s places numbers [Ho Hx] Hp IH]; intros off a b Ha Hb Hf; cbn [put_inputs].
  - destruct b; [|done]. simpl in Hf. rewrite Z.add_0_r in Hf. by apply runs_bind_ret.
  - cbn [fst snd] in *. apply runs_assoc. eapply runs_input; [by apply bytes_from_occurs|]. apply runs_assoc, runs_out. cbn [key_data].
    apply runs_assoc. cbn [concat] in *. rewrite length_app in Hb. rewrite <- (take_drop (length s) b).
    assert (Lt : length s = length (take (length s) b)) by (rewrite length_take; lia).
    eapply runs_mem.
    + unfold set_data_increment_pos. erewrite bind_some; [reflexivity|].
      by apply (store_known _ _ a (take (length s) b) (drop (length s) b)); [apply with_object_lookup|done|].
    + rewrite object_twice, app_assoc. apply IH.
      * rewrite length_app. lia.
      * rewrite length_drop. lia.
      * rewrite length_app, <- app_assoc in *. by rewrite Nat2Z.inj_add, Z.add_assoc in Hf.
Qed.

Lemma map_snd_places src places numbers :
  Forall2 (fun a s => occurs src (fst a) s /\ snd a = size s) places numbers -> map snd places = map size numbers.
Proof. induction 1 as [|a s places numbers [_ Ha] _ IH]; [done|]. simpl. by rewrite Ha, IH. Qed.

Lemma sum_sizes (numbers : list (list Z)) : sum_list (map size numbers) = size (concat numbers).
Proof. unfold size. induction numbers as [|s numbers IH]; [done|]. simpl. rewrite IH, length_app. lia. Qed.

(** The object of an RSA key is filled with its numbers. *)
Lemma runs_rsa_key src p l places numbers m k (E : Z -> memory -> key_out -> Prop) :
  Forall2 (fun a s => occurs src (fst a) s /\ snd a = size s) places numbers -> length numbers = 8%nat ->
  size (concat numbers) < 2 ^ 31 ->
  (forall n, malloc_ok (allocations m) n = false -> E KM_ERROR_MEMORY_ALLOCATION_FAILED (allocated m) {| key_data := None; key_data_len := n |}) ->
  runs (new_key (44 + sum_list (map snd places)) ;;
    pos ← key_u32s ([KM_ALGORITHM_RSA; 8 * nth 0 (map snd places) 0; 8 * nth 0 (map snd places) 0] ++ map snd places);
    put_inputs pos places ;; mret tt) (W src p l m k)
    (key_is m (rsa_key numbers)) E.
Proof.
  intros Hp Hn Hb HE. pose proof (map_snd_places _ _ _ Hp) as Em. rewrite Em, sum_sizes.
  assert (En : nth 0 (map size numbers) 0 = size (nth 0 numbers [])) by (by destruct numbers). rewrite En.
  assert (0 <= size (concat numbers)) by (unfold size; lia).
  apply runs_new_key; [lia|apply HE|].
  assert (Er : replicate (Z.to_nat (44 + size (concat numbers))) 0 = replicate 44 0 ++ replicate (length (concat numbers)) 0).
  { rewrite <- replicate_add. f_equal. unfold size in *. lia. }
  rewrite Er. apply (runs_key_u32s _ _ (replicate 44 0)); [rewrite length_replicate, length_app, length_map, Hn; done|].
  apply (runs_put_inputs _ _ _ _ _ numbers _ _ (replicate _ 0)); [done| |by rewrite length_replicate|].
  { unfold size. rewrite length_u32s. lia. }
  apply runs_ret. split; [|done]. cbn [outs W]. f_equal. unfold size, rsa_key. rewrite length_app, length_u32s, length_app, length_map, Hn. simpl length. lia.
Qed.

(** A length and its bytes, which are compared with an OID. *)
Lemma runs_oid {X} (f : unit -> KM (world X) unit) oid src p l m (x : X) Q (E : Z -> memory -> X -> Prop) :
  seen src p l -> E KM_ERROR_INVALID_ARGUMENT m x ->
  (forall p' l', seen src p' l' -> (length l' <= length l)%nat -> runs (f tt) (W src p' l' m x) Q E) ->
  runs (oid_len ← chk_length der_read_oid_length; CHK (oid_len =? size oid) ;; data ← on_input here;
    same ← on_input (same_bytes data oid oid_len); CHK same ;; skip_data oid_len ≫= f) (W src p l m x) Q E.
Proof.
  intros Hs HE Hf. eapply runs_length; [by apply read_something_reads|done|done|]. intros n h l' -> _ Hn Hs'.
  apply runs_CHK; [|done]. intros ->%Z.eqb_eq. destruct (split_size (size oid) l') as (s & t & -> & Hl); [unfold size, id in *; lia|].
  apply runs_here. destruct (seen_app _ _ _ _ Hs') as [(Ho & _) Hs2]. unfold size in *. eapply runs_input.
  { apply same_bytes_occurs; [done|done|lia]. }
  apply runs_CHK; [|done]. intros ->%bool_decide_eq_true. eapply runs_skip; [done|done|].
  apply Hf; [done|]. rewrite !length_app. lia.
Qed.

Lemma decode_rsa_runs src p l m k : seen src p l -> key_data k = None ->
  runs decode_pkcs8_rsa (W src p l m k) (key_made KM_ALGORITHM_RSA m) (key_left m).
Proof.
  intros Hs Hk. unfold decode_pkcs8_rsa.
  eapply runs_whole; [apply read_something_reads|done|by auto|]. clear Hs. intros h1 l1 _ B%header_bounds Hs.
  apply runs_expect; [done|by auto|]. intros l2 -> Hs2. rewrite length_app in B.
  eapply runs_length; [apply read_something_reads|done|by auto|]. clear Hs2. intros n3 h3 l3 -> _ _ Hs3.
  apply (runs_oid _ rsakey_oid); [done|by auto|]. intros p4 l4 Hs4 L4.
  apply runs_expect; [done|by auto|]. intros l5 -> Hs5.
  eapply runs_whole; [apply read_something_reads|done|by auto|]. intros h6 l6 -> _ Hs6.
  eapply runs_whole; [apply read_something_reads|done|by auto|]. intros h7 l7 -> _ Hs7.
  apply runs_expect; [done|by auto|]. intros l8 -> Hs8.
  apply runs_rsa_integers; [done|by auto|]. intros places numbers p9 l9 Hp Hn Hs9 L9.
  apply runs_left, runs_CHK; [|by auto]. intros _.
  eapply runs_weaken; [apply (runs_rsa_key _ _ _ places numbers m k (key_left m)); [done|done| |by auto]| |done].
  - rewrite !length_app in *. unfold size. lia.
  - intros [] w. by apply made, rsa_blob.
Qed.

(** ** Curve 25519 *)

Lemma runs_new_25519_key src p l m k (E : Z -> memory -> key_out -> Prop) : seen src p l -> size l = CURVE25519_KEYSZ ->
  (forall n, malloc_ok (allocations m) n = false -> E KM_ERROR_MEMORY_ALLOCATION_FAILED (allocated m) {| key_data := None; key_data_len := n |}) ->
  runs new_25519_key (W src p l m k) (key_is m (c25519_key l)) E.
Proof.
  intros (Ho & _) Hl HE. unfold size, CURVE25519_KEYSZ in *. apply runs_last. unfold new_25519_key. apply runs_assoc, runs_new_key; [done|apply HE|].
  change (replicate (Z.to_nat (12 + 2 * 32)) 0) with (replicate 12 0 ++ replicate 32 0 ++ replicate 32 0).
  apply runs_assoc, (runs_key_u32s _ _ (replicate 12 0)); [done|]. apply runs_assoc, runs_out. cbn [key_data].
  apply runs_assoc. eapply runs_mem.
  { apply (store_known _ _ (u32s [KM_ALGORITHM_EC; 256; EC_CURVE_25519]) (replicate 32 0) (replicate 32 0)); [apply with_object_lookup|done|done]. }
  rewrite object_twice. apply runs_assoc, runs_here.
  apply (runs_copy _ _ _ _ _ l _ _ (u32s [KM_ALGORITHM_EC; 256; EC_CURVE_25519] ++ replicate 32 0) (replicate 32 0) []);
    [by rewrite <- app_assoc, app_nil_r|done|done|done|by rewrite length_replicate; lia|].
  apply runs_ret. split; cbn [outs mem W].
  - f_equal. unfold c25519_key, size, CURVE25519_KEYSZ. rewrite !length_app, length_u32s, length_replicate. simpl length. lia.
  - by rewrite app_nil_r, <- app_assoc.
Qed.

Lemma runs_new_25519 src p l m k : seen src p l -> size l = CURVE25519_KEYSZ ->
  runs new_25519_key (W src p l m k) (key_made KM_ALGORITHM_EC m) (key_left m).
Proof.
  intros Hs Hl. eapply runs_weaken; [apply (runs_new_25519_key _ _ _ _ _ (key_left m) Hs Hl); by auto| |done].
  intros [] w. by apply made, c25519_blob.
Qed.

Lemma decode_25519_runs x25519 src p l m k : seen src p l -> key_data k = None ->
  runs (decode_pkcs8_25519 x25519) (W src p l m k) (key_made KM_ALGORITHM_EC m) (key_left m).
Proof.
  intros Hs Hk. unfold decode_pkcs8_25519.
  eapply runs_whole; [apply read_something_reads|done|by auto|]. clear Hs. intros h1 l1 _ _ Hs.
  apply runs_expect; [done|by auto|]. intros l2 -> Hs2.
  eapply runs_length; [apply read_something_reads|done|by auto|]. clear Hs2. intros n3 h3 l3 -> _ _ Hs3.
  eapply runs_length; [apply read_something_reads|done|by auto|]. intros n4 h4 l4 -> H4%header_bounds Hn Hs4.
  destruct (split_size n4 l4) as (s & t & -> & ->); [unfold size, id in *; lia|].
  apply runs_here. destruct (seen_app _ _ _ _ Hs4) as [(Ho & _) Hs5]. eapply runs_input; [by apply oid_is_occurs|].
  eapply (runs_bind _ _ _ _ (fun _ w => w = W _ _ _ m k)).
  - case_bool_decide; [by destruct x25519; [apply runs_fail; auto|apply runs_ret]|].
    eapply runs_input; [by apply oid_is_occurs|]. case_bool_decide; [|by apply runs_fail; auto].
    by destruct x25519; [apply runs_ret|apply runs_fail; auto].
  - intros [] w ->. eapply runs_skip; [done|done|].
    eapply runs_whole; [apply read_something_reads|done|by auto|]. intros h6 l6 -> _ Hs6. apply runs_CHK; [|by auto]. intros _.
    eapply runs_whole; [apply read_something_reads|done|by auto|]. intros h7 l7 -> _ Hs7. apply runs_CHK; [|by auto]. intros Hl%Z.eqb_eq.
    by apply runs_new_25519.
Qed.

(** ** Elliptic curves *)

(** The optional OID is skipped. *)
Lemma runs_curve_again (f : unit -> K unit) q oid src p l m k Q E : occurs src q oid -> seen src p l ->
  E KM_ERROR_INVALID_ARGUMENT m k ->
  (forall p' l', seen src p' l' -> runs (f tt) (W src p' l' m k) Q E) ->
  runs (curve_again q (size oid) ≫= f) (W src p l m k) Q E.
Proof.
  intros Hq Hs HE Hf. unfold curve_again. apply runs_assoc. eapply runs_input; [by apply starts_with_view|].
  case_bool_decide as Hp; [destruct Hp as [l' ->]|by apply runs_bind_ret, Hf].
  apply runs_assoc. eapply runs_skip; [done|done|]. apply seen_app in Hs as [_ Hs].
  apply runs_assoc. eapply runs_length; [apply read_length_reads|done|done|]. intros n h1 l1 -> _ _ Hs1.
  apply runs_assoc. eapply runs_length; [apply read_something_reads|done|done|]. intros n2 h2 l2 -> H2%header_bounds Hn2 Hs2.
  apply runs_assoc, runs_here. destruct (split_size n2 l2) as (s & t & -> & ->); [unfold size, id in *; lia|].
  destruct (seen_app _ _ _ _ Hs2) as [(Ho & _) Hs3]. apply runs_assoc.
  eapply (runs_input _ _ _ _ _ (bool_decide (s = oid))).
  { destruct (Z.eqb_spec (size s) (size oid)) as [El|El].
    - unfold view. rewrite (bind_some _ _ _ _ _ (bytes_from_occurs _ _ _ _ _ _ Hq El)). by rewrite (bind_some _ _ _ _ _ (bytes_from_occurs _ _ _ _ _ _ Ho eq_refl)).
    - rewrite bool_decide_eq_false_2; [done|]. by intros ->. }
  apply runs_assoc, runs_CHK; [|done]. intros _. eapply runs_skip; [done|done|]. by apply Hf.
Qed.

Lemma fill_ec_runs oid curve bits q src p l m k : (oid, (curve, bits)) ∈ curves -> occurs src q oid -> seen src p l -> key_data k = None ->
  runs (fill_ec_key curve bits q (size oid)) (W src p l m k) (key_made KM_ALGORITHM_EC m) (key_left m).
Proof.
  intros Ec Hoid Hs6 Hk. unfold fill_ec_key. destruct (curve_len_nat _ _ _ Ec) as (c & Hc & Bc). cbv zeta. fold (curve_len bits). rewrite Hc.
  apply runs_new_key; [lia|by auto|].
  assert (Er : replicate (Z.to_nat (24 + 3 * Z.of_nat c)) 0 = replicate 24 0 ++ replicate c 0 ++ replicate c 0 ++ replicate c 0)
    by (rewrite <- !replicate_add; f_equal; lia).
  rewrite Er. apply (runs_key_u32s _ _ (replicate 24 0)); [done|].
  eapply runs_whole; [apply read_something_reads|done|by auto|]. intros h7 l7 -> _ Hs7.
  eapply runs_whole; [apply read_something_reads|done|by auto|]. intros h8 l8 -> _ Hs8.
  apply runs_expect; [done|by auto|]. intros l9 -> Hs9.
  eapply runs_length; [apply read_something_reads|done|by auto|]. intros n10 h10 l10 -> _ Hn10 Hs10.
  apply runs_CHK; [|by auto]. intros ->%Z.eqb_eq.
  destruct (split_size (Z.of_nat c) l10) as (d & t10 & -> & Hd); [unfold size, id in *; lia|]. unfold size in Hd.
  apply runs_here. destruct (seen_app _ _ _ _ Hs10) as [(Hod & _) Hs11].
  set (U := u32s _). assert (HU : length U = 24%nat) by apply length_u32s.
  apply (runs_copy _ _ _ _ _ d _ _ (U ++ replicate c 0 ++ replicate c 0) (replicate c 0) []);
    [by rewrite <- !app_assoc, app_nil_r|done|done| |by rewrite length_replicate; lia|].
  { unfold size. rewrite !length_app, HU, !length_replicate. lia. }
  eapply runs_skip; [done|done|]. rewrite <- Hd in Hs11.
  apply runs_curve_again; [done|done|by auto|]. intros p12 l12 Hs12.
  apply runs_expect; [done|by auto|]. intros l13 -> Hs13.
  eapply runs_whole; [apply read_length_reads|done|by auto|]. intros h14 l14 -> _ Hs14.
  eapply runs_whole; [apply read_something_reads|done|by auto|]. intros h15 l15 -> _ Hs15.
  apply runs_expect; [done|by auto|]. intros l16 -> Hs16.
  apply runs_left, runs_CHK; [|by auto]. intros Hl%Z.eqb_eq.
  destruct (split_size (Z.of_nat c) l16) as (x & y & -> & Hx); [unfold size; lia|]. unfold size in Hx.
  rewrite length_app in Hl. apply runs_here. destruct (seen_app _ _ _ _ Hs16) as [(Hox & _) (Hoy & _)].
  apply (runs_copy _ _ _ _ _ x _ _ U (replicate c 0) (replicate c 0 ++ d));
    [by rewrite <- !app_assoc, app_nil_r|done|done|by unfold size; rewrite HU|by rewrite length_replicate; lia|].
  apply runs_last, (runs_copy _ _ _ _ _ y _ _ (U ++ x) (replicate c 0) d); [by rewrite <- !app_assoc|by rewrite Hx| | | |].
  { unfold size. lia. }
  { unfold size. rewrite length_app, HU. lia. }
  { rewrite length_replicate. lia. }
  apply runs_ret, (made _ _ (ec_key curve bits x y d)).
  - by apply (ec_blob oid); [done|unfold size; lia..].
  - split; cbn [outs mem W]; unfold ec_key; rewrite Hc; fold U; [|by rewrite <- app_assoc]. f_equal.
    unfold size. rewrite !length_app, HU. lia.
Qed.

Lemma decode_ec_runs src p l m k : seen src p l -> key_data k = None ->
  runs decode_pkcs8_ec (W src p l m k) (key_made KM_ALGORITHM_EC m) (key_left m).
Proof.
  intros Hs Hk. unfold decode_pkcs8_ec.
  eapply runs_whole; [apply read_something_reads|done|by auto|]. clear Hs. intros h1 l1 _ _ Hs.
  apply runs_expect; [done|by auto|]. intros l2 -> Hs2.
  eapply runs_length; [apply read_something_reads|done|by auto|]. clear Hs2. intros n3 h3 l3 -> _ _ Hs3.
  apply (runs_oid _ eckey_oid); [done|by auto|]. intros p4 l4 Hs4 _.
  eapply runs_length; [apply read_something_reads|done|by auto|]. intros n5 h5 l5 -> H5%header_bounds Hn5 Hs5.
  destruct (split_size n5 l5) as (oid & t & -> & ->); [unfold size, id in *; lia|].
  apply runs_here. destruct (seen_app _ _ _ _ Hs5) as [(Hoid & _) Hs6]. eapply runs_input; [by apply curve_of_oid_occurs|].
  destruct (curve_of oid) as [[curve bits]|] eqn:Ec; [|by apply runs_fail; auto]. apply curve_of_curves in Ec.
  eapply runs_skip; [done|done|]. by eapply fill_ec_runs.
Qed.

(** ** Symmetric keys *)

Lemma runs_raw_key t src p l m k (E : Z -> memory -> key_out -> Prop) : seen src p l -> size l + 8 < 2 ^ 32 ->
  t ∈ [KM_ALGORITHM_AES; KM_ALGORITHM_TRIPLE_DES; KM_ALGORITHM_HMAC] ->
  (forall n, malloc_ok (allocations m) n = false -> E KM_ERROR_MEMORY_ALLOCATION_FAILED (allocated m) {| key_data := None; key_data_len := n |}) ->
  runs (decode_raw_symmetric t) (W src p l m k) (key_is m (symmetric_key t l)) E.
Proof.
  intros (Ho & _) Hl Ht HE. apply runs_last. unfold decode_raw_symmetric, size in *.
  apply runs_assoc, runs_true. 2: { intros Hf. exfalso. revert Hf. by repeat (apply elem_of_cons in Ht as [->|Ht]; [done|]); apply elem_of_nil in Ht. }
  intros _. apply runs_assoc, runs_left. unfold u64. rewrite Z.mod_small by lia. apply runs_assoc, runs_new_key; [lia|apply HE|].
  replace (replicate _ 0) with (replicate 8 0 ++ replicate (length l) 0) by (rewrite <- replicate_add; f_equal; lia).
  apply runs_assoc, (runs_key_u32s _ _ (replicate 8 0)); [done|]. apply runs_assoc, runs_here.
  apply (runs_copy _ _ _ _ _ l _ _ (u32s [t; 8 * size l]) (replicate (length l) 0) []);
    [by rewrite app_nil_r|done|done|done|by rewrite length_replicate|]. rewrite app_nil_r.
  apply runs_ret. split; [|done]. cbn [outs W]. f_equal. unfold symmetric_key, size. rewrite length_app, length_u32s. simpl length. lia.
Qed.

Lemma decode_raw_runs t src p l m k : seen src p l -> size l + 8 < 2 ^ 32 -> key_data k = None ->
  runs (decode_raw_symmetric t) (W src p l m k) (key_made t m) (key_left m).
Proof.
  intros Hs Hl Hk. destruct (decide (t ∈ [KM_ALGORITHM_AES; KM_ALGORITHM_TRIPLE_DES; KM_ALGORITHM_HMAC])) as [Ht|Ht].
  - eapply runs_weaken; [apply (runs_raw_key _ _ _ _ _ _ (key_left m) Hs Hl Ht); by auto| |done].
    intros [] w. by apply made, symmetric_blob.
  - unfold decode_raw_symmetric. apply runs_true; [|by auto]. intros Hb. destruct Ht.
    rewrite !orb_true_iff, !Z.eqb_eq in Hb. rewrite !elem_of_cons. tauto.
Qed.

(** ** Any key *)

Lemma decode_key_runs format t curve x25519 src p l m k : seen src p l -> size l + 8 < 2 ^ 32 -> key_data k = None ->
  runs (decode_key_data format t curve x25519) (W src p l m k) (key_made t m) (key_left m).
Proof.
  intros Hs Hl Hk. unfold decode_key_data.
  destruct (format =? KM_KEY_FORMAT_PKCS8); [|destruct (format =? KM_KEY_FORMAT_RAW); [|by apply runs_fail; auto]].
  - destruct (Z.eqb_spec t KM_ALGORITHM_EC) as [->|]; [destruct (curve =? KM_EC_CURVE_25519); [by apply decode_25519_runs|by apply decode_ec_runs]|].
    destruct (Z.eqb_spec t KM_ALGORITHM_RSA) as [->|]; [by apply decode_rsa_runs|by apply runs_fail; auto].
  - destruct (Z.eqb_spec t KM_ALGORITHM_EC) as [->|]; [|by apply decode_raw_runs].
    apply runs_true; [|by auto]. intros _. apply runs_left, runs_CHK; [|by auto]. intros Hc%Z.eqb_eq. by apply runs_new_25519.
Qed.

End import.
