(* ===== verification/KmRoundtrip.v ===== *)
(** * Keys of the TEE: encoded keys

    DER, and the encodings of PKCS#8, RFC 5915 and RFC 8410 that the functions of
    [src/tee/TlcKeymint/src/km_shared_util.cpp] are written to read. *)

From S2P Require Import Prelude Effects KmTags KmBytes KmDer KmHeap KmDecode KmSteps KmImport.
(** ** DER *)

Definition der_length (n : Z) : list Z :=
  if n <? 0x80 then [n] else if n <? 0x100 then [0x81; n] else [0x82; n `div` 256; n `mod` 256].
Definition der (tag : Z) (body : list Z) : list Z := tag :: der_length (size body) ++ body.

(** An unsigned number, most significant byte first. *)
Definition der_unsigned (x : list Z) : list Z :=
  der 0x02 (match x with [] => [0] | b :: _ => if b <? 0x80 then x else 0 :: x end).
Definition minimal (x : list Z) : Prop := head x <> Some 0.

Lemma der_length_form n : 0 <= n < 2 ^ 16 -> length_form n (der_length n).
Proof.
  intros Hn. unfold der_length. destruct (Z.ltb_spec n 0x80); [apply short_form; lia|].
  destruct (Z.ltb_spec n 0x100); [apply long_form_1; unfold is_byte; lia|].
  pose proof (Z.mod_pos_bound n 256 ltac:(lia)). rewrite (Z.div_mod n 256) at 1 by lia.
  apply long_form_2; [|done]. unfold is_byte. split; [by apply Z.div_pos; lia|]. apply Z.div_lt_upper_bound; lia.
Qed.

Lemma der_header tag body : size body < 2 ^ 16 ->
  der tag body = (tag :: der_length (size body)) ++ body /\ header tag (size body) (tag :: der_length (size body)).
Proof. intros Hb. split; [done|]. eexists. split; [done|]. apply der_length_form. unfold size in *. lia. Qed.

Lemma size_der tag body : size body <= size (der tag body).
Proof. unfold size, der. cbn [length]. rewrite length_app. lia. Qed.

(** ** Steps over them *)

Section steps.
Context {X : Type}.
Abbreviation K := (KM (world X)).
Implicit Types (m : memory) (x : X) (E : Z -> memory -> X -> Prop).

Lemma runs_der {B} (k : Z -> K B) tag src p body l m x Q E : seen src p (der tag body ++ l) -> size body < 2 ^ 16 ->
  (forall p', seen src p' (body ++ l) -> runs (k (size body)) (W src p' (body ++ l) m x) Q E) ->
  runs (chk_length (read_something_length tag) ≫= k) (W src p (der tag body ++ l) m x) Q E.
Proof.
  intros Hs Hb Hk. destruct (der_header tag body Hb) as [E1 Hh]. rewrite E1, <- app_assoc in *.
  eapply runs_length_of; [apply read_something_takes|done|done| |].
  - unfold id, size. rewrite length_app. lia.
  - apply Hk.
Qed.

Lemma runs_der_whole {B} (k : Z -> K B) tag src p body m x Q E : seen src p (der tag body) -> size body < 2 ^ 16 ->
  (forall p', seen src p' body -> runs (k (size body)) (W src p' body m x) Q E) ->
  runs (chk_whole (read_something_length tag) ≫= k) (W src p (der tag body) m x) Q E.
Proof.
  intros Hs Hb Hk. destruct (der_header tag body Hb) as [E1 Hh]. rewrite E1 in *.
  eapply runs_whole_of; [apply read_something_takes|done|done|]. apply Hk.
Qed.

Lemma runs_der_oid (f : unit -> K unit) oid src p l m x Q E : seen src p (der 0x06 oid ++ l) -> size oid < 2 ^ 16 ->
  (forall p', seen src p' l -> runs (f tt) (W src p' l m x) Q E) ->
  runs (oid_len ← chk_length der_read_oid_length; CHK (oid_len =? size oid) ;; data ← on_input here;
    same ← on_input (same_bytes data oid oid_len); CHK same ;; skip_data oid_len ≫= f) (W src p (der 0x06 oid ++ l) m x) Q E.
Proof.
  intros Hs Hl Hf. apply runs_der; [done|done|]. intros p' Hs'. apply runs_CHK; [|by rewrite Z.eqb_refl]. intros _.
  apply runs_here. destruct (seen_app _ _ _ _ Hs') as [(Ho & _) Hs2]. eapply runs_input; [by apply same_bytes_occurs|].
  rewrite bool_decide_eq_true_2 by done. apply runs_CHK; [|done]. intros _. eapply runs_skip; [done|done|]. by apply Hf.
Qed.
End steps.

(** ** Keys *)

Definition pkcs8 (algorithm key : list Z) : list Z := der 0x30 ([0x02; 0x01; 0x00] ++ der 0x30 algorithm ++ der 0x04 key).

Definition pkcs8_rsa (numbers : list (list Z)) : list Z :=
  pkcs8 (der 0x06 rsakey_oid ++ [0x05; 0x00]) (der 0x30 ([0x02; 0x01; 0x00] ++ concat (map der_unsigned numbers))).

(** With or without the parameters of the curve in the private key. *)
Definition pkcs8_ec (with_parameters : bool) (oid x y private : list Z) : list Z :=
  pkcs8 (der 0x06 eckey_oid ++ der 0x06 oid)
    (der 0x30 ([0x02; 0x01; 0x01] ++ der 0x04 private ++ (if with_parameters then der 0xa0 (der 0x06 oid) else []) ++
      der 0xa1 (der 0x03 ([0x00; 0x04] ++ x ++ y)))).

Definition pkcs8_25519 (x25519 : bool) (private : list Z) : list Z :=
  pkcs8 (der 0x06 (if x25519 then X25519key_oid else ed25519key_oid)) (der 0x04 private).

(** ** Encoded keys are read

    The functions that take a key out of its encoding, on the encodings of keys. *)

(** The parts of what is shorter than [2^16]. *)
Lemma short_der tag body : size (der tag body) < 2 ^ 16 -> size body < 2 ^ 16.
Proof. pose proof (size_der tag body). lia. Qed.
Lemma short_app (a b : list Z) : size (a ++ b) < 2 ^ 16 -> size a < 2 ^ 16 /\ size b < 2 ^ 16.
Proof. rewrite size_app. pose proof (size_nonneg a). pose proof (size_nonneg b). lia. Qed.

Section roundtrip.
Context `{Allocator}.
Abbreviation K := (KM (world key_out)).
Implicit Types (m : memory) (k : key_out) (E : Z -> memory -> key_out -> Prop).

(** The only error: the allocator has no memory. *)
Definition no_memory m (e : Z) (_ : memory) k : Prop :=
  e = KM_ERROR_MEMORY_ALLOCATION_FAILED /\ exists n, malloc_ok (allocations m) n = false.

Lemma no_memory_intro m n m' k : malloc_ok (allocations m) n = false -> no_memory m KM_ERROR_MEMORY_ALLOCATION_FAILED m' k.
Proof. by split; [|exists n]. Qed.
Hint Resolve no_memory_intro : core.

(** ** RSA *)

Lemma integer_of_unsigned src p x l : seen src p (der_unsigned x ++ l) -> minimal x -> size (der_unsigned x) < 2 ^ 16 ->
  exists p', seen src p' (x ++ l) /\
    der_read_integer_length (view src p (der_unsigned x ++ l)) = Some (Some (size x), view src p' (x ++ l)).
Proof.
  unfold der_unsigned, minimal. intros Hs Hm Hl. set (body := match x with [] => _ | _ => _ end) in *.
  apply short_der in Hl. destruct (der_header 0x02 body Hl) as [E1 Hh]. rewrite E1, <- app_assoc in *.
  assert (R : read_something_length 2 (view src p ((2 :: der_length (size body)) ++ body ++ l)) =
    Some (Some (size body), view src (p + Z.of_nat (length (2 :: der_length (size body)))) (body ++ l))).
  { apply read_something_takes; [done|done|]. unfold id, size. rewrite length_app. lia. }
  apply seen_app in Hs as [_ Hs]. revert R Hs. generalize (p + Z.of_nat (length (2 :: der_length (size body)))) as q. intros q R Hs.
  unfold der_read_integer_length. rewrite (bind_some _ _ _ _ _ R). destruct x as [|b x].
  - subst body. cbn [app] in *. exists (q + 1). split; [by apply (seen_tail _ _ 0)|].
    change (1 <=? size [0]) with true. cbv iota. rewrite (bind_some _ _ _ _ _ (seen_byte _ _ _ 0 0 Hs eq_refl)).
    change (0 =? 0) with true. cbv iota. by rewrite (bind_some _ _ _ _ _ (seen_advance _ _ [0] l Hs)).
  - assert (S1 : 1 <= size body) by (subst body; unfold size; destruct (b <? 0x80); simpl length; lia).
    apply Z.leb_le in S1. rewrite S1. subst body. destruct (Z.ltb_spec b 0x80) as [Hb|Hb]; cbn [app] in *.
    + exists q. split; [done|]. rewrite (bind_some _ _ _ _ _ (seen_byte _ _ _ 0 b Hs eq_refl)).
      replace (b =? 0) with false; [done|]. symmetry. apply Z.eqb_neq. intros ->. by apply Hm.
    + exists (q + 1). split; [by apply (seen_tail _ _ 0)|]. rewrite (bind_some _ _ _ _ _ (seen_byte _ _ _ 0 0 Hs eq_refl)).
      change (0 =? 0) with true. cbv iota. rewrite (bind_some _ _ _ _ _ (seen_advance _ _ [0] (b :: x ++ l) Hs)).
      unfold mret, ST_ret. do 3 f_equal. unfold size. simpl length. lia.
Qed.

Lemma runs_unsigned (f : Z * Z -> K unit) src p s l m k Q E : seen src p (der_unsigned s ++ l) -> minimal s ->
  size (der_unsigned s) < 2 ^ 16 ->
  (forall q p', occurs src q s -> seen src p' l -> runs (f (q, size s)) (W src p' l m k) Q E) ->
  runs (rsa_integer ≫= f) (W src p (der_unsigned s ++ l) m k) Q E.
Proof.
  intros Hs Hm Hl Hf. destruct (integer_of_unsigned _ _ _ _ Hs Hm Hl) as (q & Hq & Er). unfold rsa_integer, chk_length.
  apply runs_assoc, runs_assoc. eapply runs_input; [exact Er|]. apply runs_bind_ret. apply runs_assoc, runs_here. apply runs_assoc.
  eapply runs_skip; [done|done|]. apply runs_bind_ret. destruct (seen_app _ _ _ _ Hq) as [(Ho & _) H2]. by apply Hf.
Qed.

Lemma runs_unsigneds (f : list (Z * Z) -> K unit) numbers src p l m k Q E :
  seen src p (concat (map der_unsigned numbers) ++ l) -> Forall minimal numbers ->
  size (concat (map der_unsigned numbers)) < 2 ^ 16 ->
  (forall places p', Forall2 (fun a s => occurs src (fst a) s /\ snd a = size s) places numbers -> seen src p' l ->
    runs (f places) (W src p' l m k) Q E) ->
  runs (rsa_integers (length numbers) ≫= f) (W src p (concat (map der_unsigned numbers) ++ l) m k) Q E.
Proof.
  intros Hs Hm. revert f p Hs. induction Hm as [|s numbers Hm1 Hm IH]; intros f p Hs Hl Hf; cbn [rsa_integers length map concat app] in *.
  - apply runs_bind_ret. by apply Hf.
  - rewrite <- app_assoc in *. apply short_app in Hl as [L1 L2]. apply runs_assoc. apply runs_unsigned; [done|done|done|].
    intros q p' Ho Hs'. apply runs_assoc. apply IH; [done|done|]. intros places p2 Hp Hs2. apply runs_bind_ret.
    apply Hf; [by constructor|done].
Qed.

Lemma concat_unsigned numbers : size (concat numbers) <= size (concat (map der_unsigned numbers)).
Proof.
  induction numbers as [|x numbers IH]; [done|]. cbn [map concat]. rewrite !size_app.
  assert (size x <= size (der_unsigned x)); [|lia]. unfold der_unsigned. etransitivity; [|apply size_der].
  destruct x as [|b x]; [done|]. destruct (b <? 0x80); unfold size; simpl length; lia.
Qed.

Lemma read_rsa numbers src p m k : seen src p (pkcs8_rsa numbers) -> size (pkcs8_rsa numbers) < 2 ^ 16 ->
  length numbers = 8%nat -> Forall minimal numbers ->
  runs decode_pkcs8_rsa (W src p (pkcs8_rsa numbers) m k) (key_is m (rsa_key numbers)) (no_memory m).
Proof.
  intros Hs Hl Hn Hm. unfold decode_pkcs8_rsa, pkcs8_rsa, pkcs8 in *.
  apply short_der in Hl. apply runs_der_whole; [done|done|]. clear dependent p. intros p1 Hs1.
  apply runs_expect_of; [done|]. intros Hs2. apply short_app in Hl as [_ [La Lk]%short_app]. apply short_der in La, Lk.
  apply runs_der; [done|done|]. clear Hs1 Hs2. intros p3 Hs3. apply short_app in La as [La%short_der _]. rewrite <- app_assoc in *.
  apply (runs_der_oid _ rsakey_oid); [done|done|]. intros p4 Hs4. apply runs_expect_of; [done|]. intros Hs5.
  apply runs_der_whole; [done|done|]. intros p6 Hs6. apply short_der in Lk.
  apply runs_der_whole; [done|done|]. intros p7 Hs7. apply short_app in Lk as [_ Lk].
  apply runs_expect_of; [done|]. intros Hs8. rewrite <- (app_nil_r (concat _)) in *. rewrite <- Hn.
  apply runs_unsigneds; [done|done|by rewrite app_nil_r in Lk|]. intros places p9 Hp Hs9.
  apply runs_left, runs_CHK; [|done]. intros _. apply runs_rsa_key; [done|done| |by eauto].
  pose proof (concat_unsigned numbers). rewrite app_nil_r in Lk. lia.
Qed.

(** ** Elliptic curves *)

Lemma runs_same_curve (b : bool) (f : unit -> K unit) q oid src p l m k Q E : occurs src q oid -> size (der 0x06 oid) < 2 ^ 16 ->
  head l <> Some 0xa0 -> seen src p ((if b then der 0xa0 (der 0x06 oid) else []) ++ l) ->
  (forall p', seen src p' l -> runs (f tt) (W src p' l m k) Q E) ->
  runs (curve_again q (size oid) ≫= f) (W src p ((if b then der 0xa0 (der 0x06 oid) else []) ++ l) m k) Q E.
Proof.
  intros Hq Hl Hh Hs Hf. unfold curve_again. apply runs_assoc. eapply runs_input; [by apply starts_with_view|]. destruct b.
  - destruct (der_header 0xa0 (der 0x06 oid) Hl) as [E1 (h0 & [= <-] & Hf0)]. rewrite E1, <- app_assoc in *. cbn [app] in *.
    rewrite bool_decide_eq_true_2 by (apply prefix_cons, prefix_nil). apply runs_assoc.
    apply (runs_skip _ _ _ [0xa0]); [done|done|]. apply (seen_app _ _ [0xa0]) in Hs as [_ Hs].
    apply runs_assoc. eapply runs_length_of; [apply read_length_takes|done|done| |].
    { unfold id. rewrite length_app. unfold size. lia. }
    intros Hs1. apply short_der in Hl. apply runs_assoc, runs_der; [done|done|]. intros p2 Hs2. apply runs_assoc, runs_here.
    destruct (seen_app _ _ _ _ Hs2) as [(Ho & _) Hs3]. apply runs_assoc. eapply runs_input.
    { rewrite Z.eqb_refl. rewrite (bind_some _ _ (view src p2 (oid ++ l)) oid (view src p2 (oid ++ l))) by (by apply bytes_from_occurs).
      by rewrite (bind_some _ _ (view src p2 (oid ++ l)) oid (view src p2 (oid ++ l))) by (by apply bytes_from_occurs). }
    rewrite bool_decide_eq_true_2 by done. apply runs_assoc, runs_CHK; [|done]. intros _. eapply runs_skip; [done|done|]. by apply Hf.
  - cbn [app] in *. rewrite bool_decide_eq_false_2; [by apply Hf|]. intros [l' ->]. by apply Hh.
Qed.

Lemma size_der_max tag body : size (der tag body) <= size body + 4.
Proof.
  unfold der, size, der_length. cbn [length]. rewrite length_app. destruct (_ <? 0x80); [simpl length; lia|].
  destruct (_ <? 0x100); simpl length; lia.
Qed.

Lemma oid_size oid c : (oid, c) ∈ curves -> size oid <= 8.
Proof. intros H0. repeat (apply elem_of_cons in H0 as [[= -> ->]|H0]; [vm_compute; done|]). by apply elem_of_nil in H0. Qed.

(** Bounds of encodings. *)
Lemma der_le t l n : size l <= n -> size (der t l) <= n + 4.
Proof. pose proof (size_der_max t l). lia. Qed.
Lemma app_le (a b : list Z) n n' : size a <= n -> size b <= n' -> size (a ++ b) <= n + n'.
Proof. rewrite size_app. lia. Qed.

Lemma pkcs8_ec_size b oid curve bits x y d : (oid, (curve, bits)) ∈ curves ->
  size x = curve_len bits -> size y = curve_len bits -> size d = curve_len bits -> size (pkcs8_ec b oid x y d) < 2 ^ 16.
Proof.
  intros Ec Hx Hy Hd. pose proof (curve_bits _ _ _ Ec). pose proof (oid_size _ _ Ec).
  assert (Hp : size (if b then der 0xa0 (der 0x06 oid) else []) <= size oid + 4 + 4).
  { destruct b; [by repeat apply der_le|]. pose proof (size_nonneg oid). unfold size at 1. simpl length. lia. }
  unfold pkcs8_ec, pkcs8. eapply Z.le_lt_trans.
  - repeat first [apply der_le | exact Hp | apply app_le | apply Z.le_refl].
  - change (size [2; 1; 0]) with 3. change (size [2; 1; 1]) with 3. change (size [0; 4]) with 2. change (size eckey_oid) with 7. lia.
Qed.

Lemma fill_ec (b : bool) oid curve bits x y d q src p m k : (oid, (curve, bits)) ∈ curves -> occurs src q oid ->
  size x = curve_len bits -> size y = curve_len bits -> size d = curve_len bits ->
  let key := der 0x30 ([0x02; 0x01; 0x01] ++ der 0x04 d ++ (if b then der 0xa0 (der 0x06 oid) else []) ++
    der 0xa1 (der 0x03 ([0x00; 0x04] ++ x ++ y))) in
  size key < 2 ^ 16 -> seen src p (der 0x04 key) ->
  runs (fill_ec_key curve bits q (size oid)) (W src p (der 0x04 key) m k) (key_is m (ec_key curve bits x y d)) (no_memory m).
Proof.
  intros Ec Hoid Hx Hy Hd key Lk Hs. subst key. destruct (curve_len_nat _ _ _ Ec) as (c & Hc & Bc). unfold fill_ec_key. cbv zeta.
  fold (curve_len bits). rewrite Hc in *. unfold size in Hx, Hy, Hd. apply runs_new_key; [lia|by eauto|].
  assert (Er : replicate (Z.to_nat (24 + 3 * Z.of_nat c)) 0 = replicate 24 0 ++ replicate c 0 ++ replicate c 0 ++ replicate c 0)
    by (rewrite <- !replicate_add; f_equal; lia).
  rewrite Er. apply (runs_key_u32s _ _ (replicate 24 0)); [done|].
  apply runs_der_whole; [done|done|]. intros p1 Hs1. apply short_der in Lk. apply runs_der_whole; [done|done|]. intros p2 Hs2.
  apply runs_expect_of; [done|]. intros Hs3. apply short_app in Lk as [_ Lk]. apply short_app in Lk as [Ld Lk]. apply short_der in Ld.
  apply runs_der; [done|done|]. intros p4 Hs4. apply runs_CHK; [|by unfold size; rewrite Hd, Z.eqb_refl]. intros _.
  apply runs_here. destruct (seen_app _ _ _ _ Hs4) as [(Hod & _) Hs5]. set (U := u32s _). assert (HU : length U = 24%nat) by apply length_u32s.
  apply (runs_copy _ _ _ _ _ d _ _ (U ++ replicate c 0 ++ replicate c 0) (replicate c 0) []);
    [by rewrite <- !app_assoc, app_nil_r|done|done| |by rewrite length_replicate; lia|].
  { unfold size. rewrite !length_app, HU, !length_replicate. lia. }
  eapply runs_skip; [done|done|]. rewrite Hd in Hs5. apply short_app in Lk as [Lp Lk].
  assert (size (der 0x06 oid) < 2 ^ 16) by (eapply Z.le_lt_trans; [by eapply der_le, oid_size|done]).
  apply runs_same_curve; [done|done|done|done|].
  intros p6 Hs6. destruct (der_header 0xa1 (der 0x03 ([0; 4] ++ x ++ y)) ltac:(by apply short_der in Lk)) as [E1 (h0 & [= <-] & Hf)].
  rewrite E1 in *. cbn [app] in Hs6 |- *. apply (runs_expect_of _ _ _ [0xa1]); [done|]. intros Hs7. clear E1.
  eapply runs_whole_of; [apply read_length_takes|done|done|]. intros Hs8. apply short_app in Lk as [_ Lk]. 
  apply runs_der_whole; [done|by apply short_der in Lk|]. intros p9 Hs9. apply (runs_expect_of _ _ _ [0; 4]); [done|]. intros Hs10.
  apply runs_left, runs_CHK; [intros _|by rewrite length_app; intros Hf'%Z.eqb_neq; lia]. apply runs_here.
  destruct (seen_app _ _ _ _ Hs10) as [(Hox & _) (Hoy & _)].
  apply (runs_copy _ _ _ _ _ x _ _ U (replicate c 0) (replicate c 0 ++ d));
    [by rewrite <- !app_assoc, app_nil_r|done|done|by unfold size; rewrite HU|by rewrite length_replicate; lia|].
  apply runs_last, (runs_copy _ _ _ _ _ y _ _ (U ++ x) (replicate c 0) d); [by rewrite <- !app_assoc|by rewrite <- Hx|done| | |].
  { unfold size. rewrite length_app, HU. lia. }
  { rewrite length_replicate. lia. }
  apply runs_ret. split; cbn [outs mem W]; unfold ec_key; rewrite Hc; fold U; [|by rewrite <- app_assoc]. f_equal.
  unfold size. rewrite !length_app, HU. lia.
Qed.

Lemma read_ec b oid curve bits x y d src p m k : seen src p (pkcs8_ec b oid x y d) -> (oid, (curve, bits)) ∈ curves ->
  size x = curve_len bits -> size y = curve_len bits -> size d = curve_len bits ->
  runs decode_pkcs8_ec (W src p (pkcs8_ec b oid x y d) m k) (key_is m (ec_key curve bits x y d)) (no_memory m).
Proof.
  intros Hs Ec Hx Hy Hd. pose proof (pkcs8_ec_size b _ _ _ _ _ _ Ec Hx Hy Hd) as Hl. unfold decode_pkcs8_ec, pkcs8_ec, pkcs8 in *.
  apply short_der in Hl. apply runs_der_whole; [done|done|]. clear dependent p. intros p1 Hs1.
  apply runs_expect_of; [done|]. intros Hs2. apply short_app in Hl as [_ [La Lk]%short_app]. apply short_der in La, Lk.
  apply runs_der; [done|done|]. clear Hs1 Hs2. intros p3 Hs3. apply short_app in La as [La Lo]. apply short_der in La. rewrite <- app_assoc in *.
  apply (runs_der_oid _ eckey_oid); [done|done|]. intros p4 Hs4. pose proof Lo as Lo'. apply short_der in Lo.
  apply runs_der; [done|done|]. intros p5 Hs5. apply runs_here. destruct (seen_app _ _ _ _ Hs5) as [(Hoid & _) Hs6].
  eapply runs_input; [by apply curve_of_oid_occurs|]. rewrite (proj2 (curve_of_curves _ _) Ec). eapply runs_skip; [done|done|].
  by apply fill_ec.
Qed.
(** ** Curve 25519 *)

Lemma read_25519 x25519 d src p m k : seen src p (pkcs8_25519 x25519 d) -> size d = CURVE25519_KEYSZ ->
  runs (decode_pkcs8_25519 x25519) (W src p (pkcs8_25519 x25519 d) m k) (key_is m (c25519_key d)) (no_memory m).
Proof.
  intros Hs Hd. unfold CURVE25519_KEYSZ in Hd. set (oid := if x25519 then X25519key_oid else ed25519key_oid).
  assert (Ho : size oid = 3) by (by destruct x25519).
  assert (Hl : size (pkcs8_25519 x25519 d) < 2 ^ 16).
  { unfold pkcs8_25519, pkcs8. fold oid. eapply Z.le_lt_trans; [repeat first [apply der_le | apply app_le | apply Z.le_refl]|].
    rewrite Ho, Hd. by vm_compute. }
  unfold decode_pkcs8_25519, pkcs8_25519, pkcs8 in *. fold oid in Hs, Hl |- *.
  apply short_der in Hl. apply runs_der_whole; [done|done|]. clear dependent p. intros p1 Hs1.
  apply runs_expect_of; [done|]. intros Hs2. apply short_app in Hl as [_ [La Lk]%short_app]. apply short_der in La, Lk.
  apply runs_der; [done|done|]. clear Hs1 Hs2. intros p3 Hs3. apply short_der in La.
  apply runs_der; [done|done|]. intros p4 Hs4. apply runs_here. destruct (seen_app _ _ _ _ Hs4) as [(Hoid & _) Hs5].
  eapply runs_input; [by apply oid_is_occurs|].
  eapply (runs_bind _ _ _ _ (fun _ w => w = W _ _ _ m k)).
  - destruct x25519; [eapply runs_input; [by apply oid_is_occurs|]|]; by apply runs_ret.
  - intros [] w ->. eapply runs_skip; [done|done|].
    apply runs_der_whole; [done|done|]. intros p6 Hs6.
    assert (E1 : size (der 4 d) = 34) by (unfold der; change (4 :: der_length (size d) ++ d) with ((4 :: der_length (size d)) ++ d); by rewrite size_app, Hd).
    rewrite E1. apply runs_CHK; [intros _|done]. apply short_der in Lk.
    apply runs_der_whole; [done|done|]. intros p7 Hs7. rewrite Hd at 1. apply runs_CHK; [intros _|done].
    apply runs_new_25519_key; [done|done|by eauto].
Qed.

(** ** The encodings of a key *)

Inductive encoded : Z -> Z -> Z -> bool -> list Z -> list Z -> Prop :=
| rsa_encoded numbers curve x25519 : length numbers = 8%nat -> Forall minimal numbers -> size (pkcs8_rsa numbers) < 2 ^ 16 ->
    encoded KM_KEY_FORMAT_PKCS8 KM_ALGORITHM_RSA curve x25519 (pkcs8_rsa numbers) (rsa_key numbers)
| ec_encoded b oid ta_curve bits x y d curve x25519 : (oid, (ta_curve, bits)) ∈ curves ->
    size x = curve_len bits -> size y = curve_len bits -> size d = curve_len bits -> curve <> KM_EC_CURVE_25519 ->
    encoded KM_KEY_FORMAT_PKCS8 KM_ALGORITHM_EC curve x25519 (pkcs8_ec b oid x y d) (ec_key ta_curve bits x y d)
| c25519_encoded d x25519 : size d = CURVE25519_KEYSZ ->
    encoded KM_KEY_FORMAT_PKCS8 KM_ALGORITHM_EC KM_EC_CURVE_25519 x25519 (pkcs8_25519 x25519 d) (c25519_key d)
| c25519_raw d x25519 : size d = CURVE25519_KEYSZ ->
    encoded KM_KEY_FORMAT_RAW KM_ALGORITHM_EC KM_EC_CURVE_25519 x25519 d (c25519_key d)
| symmetric_raw t d curve x25519 : t ∈ [KM_ALGORITHM_AES; KM_ALGORITHM_TRIPLE_DES; KM_ALGORITHM_HMAC] -> size d + 8 < 2 ^ 32 ->
    encoded KM_KEY_FORMAT_RAW t curve x25519 d (symmetric_key t d).

Lemma read_encoded format t curve x25519 data key m k : encoded format t curve x25519 data key -> Forall is_byte data ->
  size data < 2 ^ 64 ->
  runs (decode_key_data format t curve x25519) (W data 0 data m k) (key_is m key) (no_memory m).
Proof.
  intros He Hb Hl. pose proof (seen_start _ Hb Hl) as Hs. destruct He.
  - by apply read_rsa.
  - unfold decode_key_data. apply Z.eqb_neq in H4. cbn -[decode_pkcs8_ec]. rewrite H4. by apply read_ec.
  - by apply read_25519.
  - unfold decode_key_data. change (KM_KEY_FORMAT_RAW =? KM_KEY_FORMAT_PKCS8) with false. cbv iota.
    change (KM_KEY_FORMAT_RAW =? KM_KEY_FORMAT_RAW) with true. cbv iota. apply runs_true; [intros _|done].
    apply runs_left, runs_CHK; [intros _|by unfold size in *; intros Hf%Z.eqb_neq]. by apply runs_new_25519_key; [| |eauto].
  - unfold decode_key_data. change (KM_KEY_FORMAT_RAW =? KM_KEY_FORMAT_PKCS8) with false. cbv iota.
    change (KM_KEY_FORMAT_RAW =? KM_KEY_FORMAT_RAW) with true. cbv iota.
    replace (t =? KM_ALGORITHM_EC) with false; [by apply runs_raw_key; [| | |eauto]|].
    symmetry. apply Z.eqb_neq. intros ->. by repeat (apply elem_of_cons in H0 as [|H0]; [done|]); apply elem_of_nil in H0.
Qed.
End roundtrip.
