(* ===== verification/KmSerial.v ===== *)
(** * Keys of the TEE: key parameters as bytes

    [src/tee/TlcKeymint/src/serialization.cpp], [km_serialize_params]: a first loop computes the size of
    the buffer, in an [uint32_t], and a second one fills it. *)

From S2P Require Import Prelude Effects KmTags KmBytes KmHeap.
#[local] Open Scope u32_scope.

(** ** Members of the union

    Members of the same type share their bytes. *)
Definition as_u32 (v : param_value) : option Z :=
  match v with zeros => Some 0 | enumerated z | integer z => Some z | _ => None end.
Definition as_u64 (v : param_value) : option Z :=
  match v with zeros => Some 0 | long_integer z | date_time z => Some z | _ => None end.
Definition as_bool (v : param_value) : option bool :=
  match v with zeros => Some false | boolean b => Some b | _ => None end.
Definition as_blob (v : param_value) : option keymaster_blob_t :=
  match v with zeros => Some zero_blob | blob b => Some b | _ => None end.
Definition member {S T} (f : param_value -> option T) (p : keymaster_key_param_t) : KM S T :=
  match f (value p) with Some x => mret x | None => lift undefined end.

(** The labels of [switch (keymaster_tag_get_type(tag))]. *)
Definition tag_among (tag : Z) (types : list Z) : bool := bool_decide (keymaster_tag_get_type tag ∈ types).

(** ** The size *)

Record totals := {
  total_size : Z;
  key_size_present : bool;
  rsa_pubexp_present : bool;
  n_serialized_params : Z
}.
#[export] Instance totals_fields : Fields totals := fun t => {|
  total_size := total_size t; key_size_present := key_size_present t; rsa_pubexp_present := rsa_pubexp_present t;
  n_serialized_params := n_serialized_params t |}.

Definition add_size (n : Z) (t : totals) : totals := t <| total_size := total_size t ^+ n |>.

Definition count_param {S} (p : keymaster_key_param_t) (t : totals) : KM S totals :=
  if negb (km_is_tag_known (tag p)) then mret t
  else
    let t := if tag p =? KM_TAG_KEY_SIZE then t <| key_size_present := true |>
             else if tag p =? KM_TAG_RSA_PUBLIC_EXPONENT then t <| rsa_pubexp_present := true |> else t in
    let t := add_size 4 t in
    t ← (if tag_among (tag p) [KM_ENUM; KM_ENUM_REP; KM_UINT; KM_UINT_REP; KM_BOOL] then mret (add_size 4 t)
         else if tag_among (tag p) [KM_ULONG; KM_DATE; KM_ULONG_REP] then mret (add_size 8 t)
         else if tag_among (tag p) [KM_BIGNUM; KM_BYTES] then
           b ← member as_blob p;
           mret (add_size (data_length b) (add_size 4 t))
         else fail KM_ERROR_INVALID_TAG);
    mret (t <| n_serialized_params := n_serialized_params t ^+ 1 |>).

(** [params->params[i]] for the [n] indices from [i]. *)
Fixpoint count_params {X} (n : nat) (i : Z) (a : ptr) (t : totals) : KM (world X) totals :=
  match n with
  | O => mret t
  | Datatypes.S n => p ← on_mem (param_at a i); t ← count_param p t; count_params n (i + 1) a t
  end.

(** ** The bytes *)

Record scoped_buf_ptr_t := {
  buf : ptr;
  buf_size : Z
}.
#[export] Instance scoped_buf_ptr_t_fields : Fields scoped_buf_ptr_t := fun s => {| buf := buf s; buf_size := buf_size s |}.

Definition write_param {X} (b : ptr) (pos : Z) (p : keymaster_key_param_t) : KM (world X) Z :=
  if negb (km_is_tag_known (tag p)) then mret pos
  else
    pos ← on_mem (set_u32_increment_pos b pos (tag p));
    if tag_among (tag p) [KM_ENUM; KM_ENUM_REP] then
      z ← member as_u32 p; on_mem (set_u32_increment_pos b pos z)
    else if tag_among (tag p) [KM_UINT; KM_UINT_REP] then
      z ← member as_u32 p; on_mem (set_u32_increment_pos b pos z)
    else if tag_among (tag p) [KM_BOOL] then
      x ← member as_bool p; on_mem (set_u32_increment_pos b pos (if x : bool then 1 else 0))
    else if tag_among (tag p) [KM_ULONG; KM_ULONG_REP] then
      z ← member as_u64 p; on_mem (set_u64_increment_pos b pos z)
    else if tag_among (tag p) [KM_DATE] then
      z ← member as_u64 p; on_mem (set_u64_increment_pos b pos z)
    else if tag_among (tag p) [KM_BIGNUM; KM_BYTES] then
      x ← member as_blob p;
      pos ← on_mem (set_u32_increment_pos b pos (data_length x));
      l ← on_mem (load (data x) 0 (u32 (data_length x)));
      on_mem (set_data_increment_pos b pos l)
    else fail KM_ERROR_INVALID_TAG.

Fixpoint write_params {X} (n : nat) (i : Z) (a b : ptr) (pos : Z) : KM (world X) Z :=
  match n with
  | O => mret pos
  | Datatypes.S n => p ← on_mem (param_at a i); pos ← write_param b pos p; write_params n (i + 1) a b pos
  end.

Section serialize.
Context `{Allocator}.

(** [params] may be null. *)
Definition km_serialize_params (params_ : option keymaster_key_param_set_t) (key_size rsa_pubexp : Z) :
    KM (world scoped_buf_ptr_t) unit :=
  let n_params := match params_ with Some s => u32 (length_ s) | None => 0 end in
  let a := match params_ with Some s => params s | None => None end in
  t ← count_params (Z.to_nat n_params) 0 a
        {| total_size := 4; key_size_present := false; rsa_pubexp_present := false; n_serialized_params := 0 |};
  let add_key_size := negb (key_size =? 0) && negb (key_size_present t) in
  let add_rsa_pubexp := negb (rsa_pubexp =? 0) && negb (rsa_pubexp_present t) in
  let size := total_size t in
  let size := if add_key_size then size ^+ (4 + 4) else size in
  let size := if add_rsa_pubexp then size ^+ (4 + 8) else size in
  set_out buf_size size ;;
  new_buf ← on_mem (malloc size);
  old ← out buf;
  set_out buf new_buf ;;
  on_mem (free old) ;;
  CHECK_TRUE KM_ERROR_MEMORY_ALLOCATION_FAILED (bool_decide (new_buf <> None)) ;;
  pos ← on_mem (set_u32_increment_pos new_buf 0
          (n_serialized_params t + (if add_key_size then 1 else 0) + (if add_rsa_pubexp then 1 else 0)));
  pos ← write_params (Z.to_nat n_params) 0 a new_buf pos;
  pos ← (if add_key_size then
           pos ← on_mem (set_u32_increment_pos new_buf pos KM_TAG_KEY_SIZE);
           on_mem (set_u32_increment_pos new_buf pos key_size)
         else mret pos);
  (if add_rsa_pubexp then
     pos ← on_mem (set_u32_increment_pos new_buf pos KM_TAG_RSA_PUBLIC_EXPONENT);
     on_mem (set_u64_increment_pos new_buf pos rsa_pubexp) ;;
     mret tt
   else mret tt).
End serialize.

(** ** Parameters and certificates out of bytes

    [src/tee/TlcKeymint/src/serialization.cpp], the functions that take answers of the trusted application
    apart, with those of [keymint_ta_defs.h] that free what they allocate.  Their pointer
    arguments are not null. *)

(** ** Freeing *)

(** One value, [param[i]]. *)
Definition free_param_value (param : ptr) (i : Z) : Mem unit :=
  p ← param_at param i;
  if tag_among (tag p) [KM_BIGNUM; KM_BYTES] then
    match as_blob (value p) with
    | Some b => free (data b) ;; set_param param i (fun p => p <| value := blob (b <| data := None |>) |>)
    | None => undefined
    end
  else mret tt.

Fixpoint keymaster_free_param_values (param_count : nat) (i : Z) (param : ptr) : Mem unit :=
  match param_count with
  | O => mret tt
  | Datatypes.S n => free_param_value param i ;; keymaster_free_param_values n (i + 1) param
  end.

Definition no_params : keymaster_key_param_set_t := {| params := None; length_ := 0 |}.

(** The set that is left. *)
Definition keymaster_free_param_set (set : keymaster_key_param_set_t) : Mem keymaster_key_param_set_t :=
  keymaster_free_param_values (Z.to_nat (length_ set)) 0 (params set) ;;
  free (params set) ;;
  mret no_params.

Record keymaster_key_characteristics_t := {
  hw_enforced : keymaster_key_param_set_t;
  sw_enforced : keymaster_key_param_set_t
}.
#[export] Instance keymaster_key_characteristics_t_fields : Fields keymaster_key_characteristics_t := fun c => {|
  hw_enforced := hw_enforced c; sw_enforced := sw_enforced c |}.

Definition keymaster_free_characteristics (c : keymaster_key_characteristics_t) : Mem keymaster_key_characteristics_t :=
  hw ← keymaster_free_param_set (hw_enforced c);
  sw ← keymaster_free_param_set (sw_enforced c);
  mret {| hw_enforced := hw; sw_enforced := sw |}.

Record keymaster_cert_chain_t := {
  entries : ptr;
  entry_count : Z
}.
#[export] Instance keymaster_cert_chain_t_fields : Fields keymaster_cert_chain_t := fun c => {|
  entries := entries c; entry_count := entry_count c |}.

Fixpoint free_entries (n : nat) (i : Z) (a : ptr) : Mem unit :=
  match n with
  | O => mret tt
  | Datatypes.S n =>
      b ← blob_at a i;
      free (data b) ;;
      set_blob a i (fun _ => zero_blob) ;;
      free_entries n (i + 1) a
  end.

Definition keymaster_free_cert_chain (chain : keymaster_cert_chain_t) : Mem keymaster_cert_chain_t :=
  free_entries (Z.to_nat (entry_count chain)) 0 (entries chain) ;;
  free (entries chain) ;;
  mret {| entries := None; entry_count := 0 |}.

(** Behind the label: the variable is freed after an error. *)
Definition freed_on_error {X A} (f : X -> Mem X) (o : KM (world X) A) : KM (world X) A :=
  on_error o (fun w =>
    match f (outs w) (mem w) with
    | Some (x, m) => Some (tt, w <| mem := m |> <| outs := x |>)
    | None => None
    end).

(** ** Reading *)

Section deserialize.
Context `{Allocator} {X : Type}.

(** [*pos += n; *remain -= n]: [remain] is an [uint32_t]. *)
Definition advance32 (n : Z) : Reads unit := fun c =>
  Some (tt, c <| place := place c + n |> <| remaining := u32 (remaining c - n) |>).
Definition CHECK_remain (n : Z) : KM (world X) unit :=
  remain ← on_input bytes_left;
  CHECK_TRUE KM_ERROR_INSUFFICIENT_BUFFER_SPACE (n <=? remain).
Definition next_u32 : KM (world X) Z :=
  CHECK_remain 4 ;;
  v ← on_input get_u32;
  on_input (advance32 4) ;;
  mret v.
Definition next_u64 : KM (world X) Z :=
  CHECK_remain 8 ;;
  v ← on_input get_u64;
  on_input (advance32 8) ;;
  mret v.

(** [memcpy(dest, *pos, n)] to a new object. *)
Definition next_bytes (dest : ptr) (n : Z) : KM (world X) unit :=
  pos ← on_input here;
  l ← on_input (bytes_from pos n);
  on_mem (store dest 0 l).

Definition set_value (a : ptr) (i : Z) (v : param_value) : KM (world X) unit :=
  on_mem (set_param a i (fun p => p <| value := v |>)).

(** [*param = &params[i]] is read. *)
Definition deserialize_param (a : ptr) (i : Z) : KM (world X) unit :=
  t ← next_u32;
  on_mem (set_param a i (fun p => p <| tag := t |>)) ;;
  if tag_among t [KM_ENUM; KM_ENUM_REP] then
    v ← next_u32; set_value a i (enumerated v)
  else if tag_among t [KM_UINT; KM_UINT_REP] then
    v ← next_u32; set_value a i (integer v)
  else if tag_among t [KM_BOOL] then
    v ← next_u32; set_value a i (boolean (negb (v =? 0)))
  else if tag_among t [KM_ULONG; KM_ULONG_REP] then
    v ← next_u64; set_value a i (long_integer v)
  else if tag_among t [KM_DATE] then
    v ← next_u64; set_value a i (date_time v)
  else if tag_among t [KM_BIGNUM; KM_BYTES] then
    n ← next_u32;
    CHECK_remain n ;;
    d ← on_mem (malloc n);
    set_value a i (blob {| data := d; data_length := 0 |}) ;;
    CHECK_TRUE KM_ERROR_MEMORY_ALLOCATION_FAILED (bool_decide (d <> None)) ;;
    next_bytes d n ;;
    set_value a i (blob {| data := d; data_length := n |}) ;;
    on_input (advance32 n)
  else fail KM_ERROR_INVALID_TAG.

Fixpoint deserialize_params (n : nat) (i : Z) (a : ptr) : KM (world X) unit :=
  match n with
  | O => mret tt
  | Datatypes.S n => deserialize_param a i ;; deserialize_params n (i + 1) a
  end.
End deserialize.

Section answers.
Context `{Allocator}.

Definition deserialize_param_set : KM (world keymaster_key_param_set_t) unit :=
  n ← next_u32;
  set_out length_ n ;;
  if n =? 0 then set_out params None
  else
    a ← on_mem (calloc_params n);
    set_out params a ;;
    CHECK_TRUE KM_ERROR_MEMORY_ALLOCATION_FAILED (bool_decide (a <> None)) ;;
    deserialize_params (Z.to_nat n) 0 a.

Definition km_deserialize_characteristics : KM (world keymaster_key_characteristics_t) unit :=
  freed_on_error keymaster_free_characteristics (
    set_out hw_enforced no_params ;;
    set_out sw_enforced no_params ;;
    on_field hw_enforced deserialize_param_set ;;
    on_field sw_enforced deserialize_param_set).

(** [*blob = &entries[i]] is read. *)
Definition deserialize_entry {X} (a : ptr) (i : Z) : KM (world X) unit :=
  n ← next_u32;
  on_mem (set_blob a i (fun b => b <| data_length := n |>)) ;;
  CHECK_TRUE KM_ERROR_UNKNOWN_ERROR (negb (n =? 0)) ;;
  d ← on_mem (malloc n);
  on_mem (set_blob a i (fun b => b <| data := d |>)) ;;
  CHECK_TRUE KM_ERROR_MEMORY_ALLOCATION_FAILED (bool_decide (d <> None)) ;;
  CHECK_remain n ;;
  next_bytes d n ;;
  on_input (advance32 n).

Fixpoint deserialize_entries {X} (n : nat) (i : Z) (a : ptr) : KM (world X) unit :=
  match n with
  | O => mret tt
  | Datatypes.S n => deserialize_entry a i ;; deserialize_entries n (i + 1) a
  end.

Definition km_deserialize_attestation : KM (world keymaster_cert_chain_t) unit :=
  freed_on_error keymaster_free_cert_chain (
    set_out entries None ;;
    set_out entry_count 0 ;;
    n ← next_u32;
    set_out entry_count n ;;
    if n =? 0 then set_out entries None
    else
      a ← on_mem (calloc_blobs n);
      set_out entries a ;;
      CHECK_TRUE KM_ERROR_MEMORY_ALLOCATION_FAILED (bool_decide (a <> None)) ;;
      deserialize_entries (Z.to_nat n) 0 a).
End answers.
