(* ===== verification/KmParams.v ===== *)
(** * Keys of the TEE: parameters, abstractly

    Parameters with their values, their bytes, and their structures in memory. *)

From S2P Require Import Prelude Effects KmTags KmBytes KmDer KmHeap KmDecode KmSteps KmImport KmSerial.
(** ** Values *)

Inductive param_val :=
| U32 (z : Z)
| Bool (b : bool)
| U64 (z : Z)
| Blob (l : list Z).
Definition param : Type := Z * param_val.

Definition storage_of_val (v : param_val) : storage :=
  match v with U32 _ => In32 | Bool _ => InBool | U64 _ => In64 | Blob _ => InBytes end.
Definition in_range (v : param_val) : Prop :=
  match v with
  | U32 z => 0 <= z < 2 ^ 32
  | Bool _ => True
  | U64 z => 0 <= z < 2 ^ 64
  | Blob l => size l < 2 ^ 32 /\ Forall is_byte l
  end.
Definition good_param (a : param) : Prop :=
  0 <= fst a < 2 ^ 32 /\ storage_of (fst a) = Some (storage_of_val (snd a)) /\ in_range (snd a).

(** The bytes of a value, and those that are read as the value. *)
Definition encode_val (v : param_val) : list Z :=
  match v with
  | U32 z => le 4 z
  | Bool b => le 4 (if b then 1 else 0)
  | U64 z => le 8 z
  | Blob l => le 4 (size l) ++ l
  end.
Definition encode_param (a : param) : list Z := le 4 (fst a) ++ encode_val (snd a).

Inductive val_bytes : param_val -> list Z -> Prop :=
| bytes_encode v : val_bytes v (encode_val v)
| bytes_bool z : 0 <= z < 2 ^ 32 -> val_bytes (Bool (negb (z =? 0))) (le 4 z).
Definition param_bytes (a : param) (w : list Z) : Prop :=
  good_param a /\ exists v, w = le 4 (fst a) ++ v /\ val_bytes (snd a) v.

Inductive params_bytes : list param -> list Z -> Prop :=
| params_nil : params_bytes [] []
| params_cons a w l v : param_bytes a w -> params_bytes l v -> params_bytes (a :: l) (w ++ v).
(** A set: the number of its parameters comes first. *)
Definition set_bytes (l : list param) (w : list Z) : Prop :=
  size l < 2 ^ 32 /\ exists v, w = le 4 (size l) ++ v /\ params_bytes l v.
Definition encode_set (l : list param) : list Z := le 4 (size l) ++ concat (map encode_param l).

(** ** Types of tags *)

Definition storages : list (Z * storage) := [
  (KM_ENUM, In32); (KM_ENUM_REP, In32); (KM_UINT, In32); (KM_UINT_REP, In32); (KM_ULONG, In64); (KM_ULONG_REP, In64);
  (KM_DATE, In64); (KM_BOOL, InBool); (KM_BIGNUM, InBytes); (KM_BYTES, InBytes)].

Lemma storage_type t s : storage_of t = Some s <-> (keymaster_tag_get_type t, s) ∈ storages.
Proof.
  unfold storage_of. cbv zeta. generalize (keymaster_tag_get_type t) as ty. intros ty. split.
  - case_bool_decide as H1; [|case_bool_decide as H2; [|destruct (Z.eqb_spec ty KM_BOOL) as [->|]; [|case_bool_decide as H3; [|done]]]]; intros [= <-].
    + repeat (apply elem_of_cons in H1 as [->|H1]; [by repeat constructor|]). by apply elem_of_nil in H1.
    + repeat (apply elem_of_cons in H2 as [->|H2]; [by repeat constructor|]). by apply elem_of_nil in H2.
    + by repeat constructor.
    + repeat (apply elem_of_cons in H3 as [->|H3]; [by repeat constructor|]). by apply elem_of_nil in H3.
  - intros H. repeat (apply elem_of_cons in H as [[= -> ->]|H]; [done|]). by apply elem_of_nil in H.
Qed.

(** The tests of a tag with a value, one type after the other. *)
Lemma among_storage t l s : tag_among t l = true -> Forall (fun ty => (ty, s) ∈ storages) l -> storage_of t = Some s.
Proof.
  intros Ht%bool_decide_eq_true Hl. apply storage_type. rewrite Forall_forall in Hl. by apply Hl.
Qed.

Ltac decided := apply (bool_decide_eq_true_1 _); vm_compute; reflexivity.

Lemma not_among t s l : storage_of t = Some s -> Forall (fun ty => (ty, s) ∉ storages) l -> tag_among t l = false.
Proof.
  intros H Hl. apply bool_decide_eq_false. intros Hin. apply storage_type in H. rewrite Forall_forall in Hl. by destruct (Hl _ Hin).
Qed.
Lemma all_among t s l : storage_of t = Some s -> Forall (fun c => snd c <> s \/ fst c ∈ l) storages -> tag_among t l = true.
Proof.
  intros H Hl. apply bool_decide_eq_true. apply storage_type in H. rewrite Forall_forall in Hl. by destruct (Hl _ H).
Qed.

(** ** In memory

    A parameter with the object that its value points to, if it does: its number and its
    bytes. *)
Definition owned : Type := ptr * list Z.

Definition represents (p : keymaster_key_param_t) (d : owned) (a : param) : Prop :=
  tag p = fst a /\
  match snd a with
  | U32 z => as_u32 (value p) = Some z /\ d = (None, [])
  | Bool b => as_bool (value p) = Some b /\ d = (None, [])
  | U64 z => as_u64 (value p) = Some z /\ d = (None, [])
  | Blob l => as_blob (value p) = Some {| data := fst d; data_length := size l |} /\ snd d = l
  end.

(** A parameter that can be freed. *)
Definition releasable (p : keymaster_key_param_t) (d : owned) : Prop :=
  if tag_among (tag p) [KM_BIGNUM; KM_BYTES] then exists n, as_blob (value p) = Some {| data := fst d; data_length := n |}
  else fst d = None.

Lemma represents_releasable p d a : good_param a -> represents p d a -> releasable p d.
Proof.
  intros (_ & Hs & _) [Ht H]. unfold releasable. rewrite Ht. destruct (snd a) as [z|b|z|l]; simpl in Hs.
  1-3: rewrite (not_among _ _ _ Hs) by decided; by destruct H as [_ ->].
  rewrite (all_among _ _ _ Hs) by decided. destruct H as [H _]. by eexists.
Qed.

Lemma zero_releasable : releasable zero_param (None, []).
Proof. done. Qed.

(** New objects, and nothing else. *)
Definition fresh (m : memory) : Prop := forall n, (allocations m <= n)%nat -> heap m !! n = None.

Definition adds (d : owned) (m m' : memory) : Prop :=
  (allocations m <= allocations m')%nat /\ fresh m' /\
  match fst d with
  | None => heap m' = heap m
  | Some n => heap m !! n = None /\ (allocations m <= n)%nat /\ heap m' = <[n := Bytes (snd d)]> (heap m)
  end.
Fixpoint adds_all (ds : list owned) (m m' : memory) : Prop :=
  match ds with
  | [] => heap m' = heap m /\ (allocations m <= allocations m')%nat /\ fresh m'
  | d :: ds => exists m1, adds d m m1 /\ adds_all ds m1 m'
  end.

Lemma adds_fresh d m m' : adds d m m' -> fresh m'.
Proof. by intros (_ & H & _). Qed.

Lemma adds_none m m' : heap m' = heap m -> (allocations m <= allocations m')%nat -> fresh m' -> adds (None, []) m m'.
Proof. done. Qed.

Lemma adds_allocations d m m' : adds d m m' -> (allocations m <= allocations m')%nat.
Proof. by intros (H & _). Qed.

Lemma adds_lookup d m m' a : adds d m m' -> (a < allocations m)%nat -> heap m' !! a = heap m !! a.
Proof.
  intros (_ & _ & H) Ha. destruct (fst d) as [n|]; [|by rewrite H]. destruct H as (_ & Hn & ->).
  apply lookup_insert_ne. lia.
Qed.

Lemma adds_all_snoc ds d m m1 m' : adds_all ds m m1 -> adds d m1 m' -> adds_all (ds ++ [d]) m m'.
Proof.
  revert m. induction ds as [|e ds IH]; intros m H Hd; simpl in *.
  - destruct H as (Hh & Ha & Hf). exists m'. destruct Hd as (A1 & F1 & H1). split; [|by split_and!; [| |]].
    split_and!; [lia|done|]. rewrite <- Hh. destruct (fst d) as [n|]; [|done]. destruct H1 as (N1 & L1 & H1). split_and!; [done|lia|done].
  - destruct H as (m2 & He & H). exists m2. split; [done|]. by apply IH.
Qed.

Lemma adds_all_facts ds m m' : adds_all ds m m' -> (allocations m <= allocations m')%nat /\ fresh m' /\
  (forall a, (a < allocations m)%nat -> heap m' !! a = heap m !! a).
Proof.
  revert m. induction ds as [|d ds IH]; intros m; simpl; [by intros (-> & ? & ?)|]. intros (m1 & Hd & H).
  apply IH in H as (A & F & L). pose proof (adds_allocations _ _ _ Hd). split_and!; [lia|done|].
  intros a Ha. rewrite L by lia. by apply (adds_lookup d).
Qed.

(** The heap alone: what [ds] own is added to a heap. *)
Abbreviation heaps := (gmap nat object).
Definition holds_one (d : owned) (h h' : heaps) : Prop :=
  match fst d with
  | None => h' = h
  | Some n => h !! n = None /\ h' = <[n := Bytes (snd d)]> h
  end.
Fixpoint holds (ds : list owned) (h h' : heaps) : Prop :=
  match ds with
  | [] => h' = h
  | d :: ds => exists h1, holds_one d h h1 /\ holds ds h1 h'
  end.

Lemma adds_all_holds ds m m' : adds_all ds m m' -> holds ds (heap m) (heap m').
Proof.
  revert m. induction ds as [|d ds IH]; intros m; cbn [adds_all holds]; [by intros (-> & _)|].
  intros (m1 & (_ & _ & Hd) & H). exists (heap m1). split; [|by apply IH]. unfold holds_one. destruct (fst d); [|done].
  by destruct Hd as (N & _ & ->).
Qed.

Lemma holds_lookup ds h h' n o : holds ds h h' -> h !! n = Some o -> h' !! n = Some o.
Proof.
  revert h. induction ds as [|d ds IH]; intros h; cbn [holds]; [by intros ->|]. intros (h1 & Hd & H) Hn. apply (IH h1); [done|].
  unfold holds_one in Hd. destruct (fst d) as [k|]; [|by subst]. destruct Hd as [Hk ->]. rewrite lookup_insert_ne; [done|]. congruence.
Qed.

Lemma holds_none ds h h' n : holds ds h h' -> h' !! n = None -> h !! n = None.
Proof. intros H Hn. destruct (h !! n) as [o|] eqn:E; [|done]. by rewrite (holds_lookup _ _ _ _ _ H E) in Hn. Qed.

(** An object that was there before is freed. *)
Definition removed (n : nat) (m : memory) : memory := m <| heap := delete n (heap m) |>.
Lemma holds_delete n o ds h h' : holds ds h h' -> h !! n = Some o -> holds ds (delete n h) (delete n h').
Proof.
  revert h. induction ds as [|d ds IH]; intros h; cbn [holds]; [by intros ->|]. intros (h1 & Hd & H) Hn. unfold holds_one in *.
  destruct (fst d) as [k|].
  - destruct Hd as [Hk ->]. assert (k <> n) by congruence. exists (<[k := Bytes (snd d)]> (delete n h)). split_and!.
    + by rewrite lookup_delete_ne.
    + done.
    + rewrite <- delete_insert_ne by done. apply IH; [done|]. by rewrite lookup_insert_ne.
  - subst h1. exists (delete n h). split; [done|]. by apply IH.
Qed.

(** Other objects do not matter. *)
Lemma holds_frame (F : heaps) ds h h' : holds ds h h' -> F ##ₘ h' -> holds ds (F ∪ h) (F ∪ h').
Proof.
  revert h. induction ds as [|d ds IH]; intros h; cbn [holds]; [by intros ->|]. intros (h1 & Hd & H) HF. unfold holds_one in *.
  exists (F ∪ h1). split; [|by apply IH]. destruct (fst d) as [k|]; [|by subst]. destruct Hd as [Hk ->].
  assert (FN : F !! k = None).
  { destruct (F !! k) as [o|] eqn:E; [|done]. pose proof (holds_lookup _ _ _ k (Bytes (snd d)) H (lookup_insert_eq _ _ _)).
    by destruct (map_disjoint_spec F h') as [S _]; destruct (S HF k o (Bytes (snd d))). }
  split; [by rewrite lookup_union_None|]. by rewrite insert_union_r.
Qed.

(** What is added is apart from what was there. *)
Lemma holds_split ds h h' : holds ds h h' -> exists F : heaps, h' = F ∪ h /\ F ##ₘ h /\
  forall h0, F ##ₘ h0 -> holds ds h0 (F ∪ h0).
Proof.
  revert h. induction ds as [|d ds IH]; intros h; cbn [holds].
  - intros ->. exists ∅. split_and!; [by rewrite map_empty_union|apply map_disjoint_empty_l|intros h0 _; by rewrite map_empty_union].
  - intros (h1 & Hd & H). destruct (IH _ H) as (F & -> & D & R). unfold holds_one in *. destruct (fst d) as [k|].
    + destruct Hd as [Hk ->]. apply map_disjoint_insert_r in D as [Fk D]. exists (<[k := Bytes (snd d)]> F). split_and!.
      * rewrite <- insert_union_l. by rewrite <- insert_union_r.
      * by apply map_disjoint_insert_l.
      * intros h0 [D1 D2]%map_disjoint_insert_l. exists (<[k := Bytes (snd d)]> h0). split; [done|].
        rewrite <- insert_union_l, insert_union_r by done. apply R. by apply map_disjoint_insert_r.
    + subst h1. exists F. split_and!; [done|done|]. intros h0 D0. exists h0. split; [done|]. by apply R.
Qed.

(** ** Bytes are read in one way *)

Lemma le_inj n z z' : 0 <= z < 2 ^ (8 * Z.of_nat n) -> 0 <= z' < 2 ^ (8 * Z.of_nat n) -> le n z = le n z' -> z = z'.
Proof. intros Hz Hz' E. apply (f_equal of_le) in E. rewrite !of_le_le, !Z.mod_small in E by done. done. Qed.

Lemma le_app_inj n z z' (l l' : list Z) : 0 <= z < 2 ^ (8 * Z.of_nat n) -> 0 <= z' < 2 ^ (8 * Z.of_nat n) ->
  le n z ++ l = le n z' ++ l' -> z = z' /\ l = l'.
Proof.
  intros Hz Hz' E. apply app_inj_1 in E as [E1 ->]; [|by rewrite !length_le]. split; [|done]. by apply (le_inj n).
Qed.

Lemma val_bytes_inj v v' w w' l l' : storage_of_val v = storage_of_val v' -> in_range v -> in_range v' ->
  val_bytes v w -> val_bytes v' w' -> w ++ l = w' ++ l' -> v = v' /\ w = w' /\ l = l'.
Proof.
  intros Hs Hr Hr' Hw Hw' E.
  assert (B : forall z z' (l l' : list Z), 0 <= z < 2 ^ 32 -> 0 <= z' < 2 ^ 32 -> le 4 z ++ l = le 4 z' ++ l' -> z = z' /\ l = l')
    by (intros; by apply (le_app_inj 4)).
  destruct Hw as [v|z Hz], Hw' as [v'|z' Hz']; simpl in Hs.
  - destruct v as [z|b|z|s], v' as [z'|b'|z'|s']; try done; cbn [encode_val in_range] in *.
    + by apply B in E as [-> ->].
    + apply B in E as [E ->]; [|by destruct b|by destruct b']. by destruct b, b'.
    + by apply (le_app_inj 8) in E as [-> ->].
    + rewrite <- !app_assoc in E. unfold size in *. apply B in E as [E1 E2]; [|lia..].
      apply app_inj_1 in E2 as [-> ->]; [done|lia].
  - destruct v as [z|b|z|s]; try done; cbn [encode_val in_range] in *. apply B in E as [<- ->]; [|by destruct b|done]. by destruct b.
  - destruct v' as [z'|b|z'|s]; try done; cbn [encode_val in_range] in *. apply B in E as [-> ->]; [|done|by destruct b]. by destruct b.
  - by apply B in E as [-> ->].
Qed.

Lemma param_bytes_inj a a' w w' l l' : param_bytes a w -> param_bytes a' w' -> w ++ l = w' ++ l' -> a = a' /\ w = w' /\ l = l'.
Proof.
  destruct a as [t v], a' as [t' v']. intros ((R & S & V) & u & -> & Hu) ((R' & S' & V') & u' & -> & Hu') E. cbn [fst snd] in *.
  rewrite <- !app_assoc in E. apply (le_app_inj 4) in E as [<- E]; [|done..]. rewrite S in S'. injection S' as S'.
  by destruct (val_bytes_inj _ _ _ _ _ _ S' V V' Hu Hu' E) as (-> & -> & ->).
Qed.

Lemma params_bytes_inj l l' w w' r r' : params_bytes l w -> params_bytes l' w' -> length l = length l' -> w ++ r = w' ++ r' ->
  l = l' /\ w = w' /\ r = r'.
Proof.
  intros H. revert l' w'. induction H as [|a w l v Ha H IH]; intros l' w' H' Hl E; destruct H' as [|a' w' l' v' Ha' H']; try done.
  rewrite <- !app_assoc in E. destruct (param_bytes_inj _ _ _ _ _ _ Ha Ha' E) as (-> & -> & E2).
  injection Hl as Hl. by destruct (IH _ _ H' Hl E2) as (-> & -> & ->).
Qed.

Lemma set_bytes_inj l l' w w' r r' : set_bytes l w -> set_bytes l' w' -> w ++ r = w' ++ r' -> l = l' /\ w = w' /\ r = r'.
Proof.
  intros (R & v & -> & H) (R' & v' & -> & H') E. rewrite <- !app_assoc in E. unfold size in *.
  apply (le_app_inj 4) in E as [E1 E]; [|lia..]. destruct (params_bytes_inj _ _ _ _ _ _ H H' ltac:(lia) E) as (-> & -> & ->). done.
Qed.

(** Encoded parameters can be read. *)
Lemma encode_param_bytes a : good_param a -> param_bytes a (encode_param a).
Proof. intros H. split; [done|]. eexists. split; [done|]. apply bytes_encode. Qed.
Lemma encode_params_bytes l : Forall good_param l -> params_bytes l (concat (map encode_param l)).
Proof. induction 1 as [|a l Ha Hl IH]; [constructor|]. cbn [map concat]. constructor; [by apply encode_param_bytes|done]. Qed.
Lemma encode_set_bytes l : Forall good_param l -> size l < 2 ^ 32 -> set_bytes l (encode_set l).
Proof. intros H Hl. split; [done|]. eexists. split; [done|]. by apply encode_params_bytes. Qed.

Lemma val_bytes_bytes v w : in_range v -> val_bytes v w -> Forall is_byte w.
Proof.
  destruct 2 as [v|z Hz]; [|apply le_bytes]. destruct v as [z|b|z|l]; cbn [encode_val]; [apply le_bytes..|].
  apply Forall_app. split; [apply le_bytes|]. by destruct H.
Qed.

Lemma set_bytes_bytes l w : set_bytes l w -> Forall is_byte w.
Proof.
  intros (_ & v & -> & H). apply Forall_app. split; [apply le_bytes|]. induction H as [|a w l v ((_ & _ & Hr) & u & -> & Hu) H IH]; [constructor|].
  apply Forall_app. split; [|done]. apply Forall_app. split; [apply le_bytes|by apply (val_bytes_bytes (snd a))].
Qed.

(** ** What is freed

    The functions that free a parameter set or a chain of certificates give all its
    objects back, whether it was read to its end or not. *)

(** ** Arrays *)

Lemma lookup_pre {A} (pre : list A) x l : (pre ++ x :: l) !! Z.to_nat (size pre) = Some x.
Proof. unfold size. rewrite Nat2Z.id. by rewrite list_lookup_middle. Qed.

Lemma insert_pre {A} (pre : list A) x y l : <[Z.to_nat (size pre) := y]> (pre ++ x :: l) = pre ++ y :: l.
Proof. unfold size. rewrite Nat2Z.id. replace (length pre) with (length pre + 0)%nat by lia. by rewrite insert_app_r. Qed.

Lemma size_pre {A} (pre : list A) : (0 <=? size pre) = true.
Proof. apply Z.leb_le. unfold size. lia. Qed.

Lemma param_at_known m a pre p ps :
  param_at (Some a) (size pre) (with_object m a (Params (pre ++ p :: ps))) = Some (p, with_object m a (Params (pre ++ p :: ps))).
Proof.
  unfold param_at. rewrite (bind_some _ _ _ _ _ (object_at_known _ _ _ (with_object_lookup _ _ _))). by rewrite lookup_pre, size_pre.
Qed.

Lemma set_param_known m a pre p ps f :
  set_param (Some a) (size pre) f (with_object m a (Params (pre ++ p :: ps))) = Some (tt, with_object m a (Params (pre ++ f p :: ps))).
Proof.
  unfold set_param. rewrite (bind_some _ _ _ _ _ (param_at_known _ _ _ _ _)).
  rewrite (bind_some _ _ _ _ _ (object_at_known _ _ _ (with_object_lookup _ _ _))). by rewrite insert_pre, set_object_with, object_twice.
Qed.

Lemma blob_at_known m a pre b bs :
  blob_at (Some a) (size pre) (with_object m a (Blobs (pre ++ b :: bs))) = Some (b, with_object m a (Blobs (pre ++ b :: bs))).
Proof.
  unfold blob_at. rewrite (bind_some _ _ _ _ _ (object_at_known _ _ _ (with_object_lookup _ _ _))). by rewrite lookup_pre, size_pre.
Qed.

Lemma set_blob_known m a pre b bs f :
  set_blob (Some a) (size pre) f (with_object m a (Blobs (pre ++ b :: bs))) = Some (tt, with_object m a (Blobs (pre ++ f b :: bs))).
Proof.
  unfold set_blob. rewrite (bind_some _ _ _ _ _ (blob_at_known _ _ _ _ _)).
  rewrite (bind_some _ _ _ _ _ (object_at_known _ _ _ (with_object_lookup _ _ _))). by rewrite insert_pre, set_object_with, object_twice.
Qed.

Lemma with_object_comm m a o k o' : a <> k -> with_object (with_object m a o) k o' = with_object (with_object m k o') a o.
Proof. intros Hn. unfold with_object. destruct m as [h n]. cbn. by rewrite insert_insert_ne. Qed.

Lemma size_snoc {A} (pre : list A) x : size (pre ++ [x]) = size pre + 1.
Proof. unfold size. rewrite length_app. simpl. lia. Qed.

(** ** One object *)

(** The object that was added first is freed, next to an array. *)
Lemma free_owned d ds h h1 m a o : holds_one d h h1 -> holds ds h1 (heap m) -> heap m !! a = None ->
  exists m2, free (fst d) (with_object m a o) = Some (tt, with_object m2 a o) /\ holds ds h (heap m2) /\ heap m2 !! a = None.
Proof.
  unfold holds_one. intros Hd H Ha. destruct (fst d) as [k|]; cbn [free]; [|subst h1; by exists m].
  destruct Hd as [Hk ->]. pose proof (holds_lookup _ _ _ k (Bytes (snd d)) H (lookup_insert_eq _ _ _)) as Lk.
  assert (a <> k) by congruence. exists (removed k m). split_and!.
  - cbn. rewrite lookup_insert_ne, Lk by done. unfold with_object, removed. cbn. by rewrite delete_insert_ne by done.
  - apply (holds_delete k (Bytes (snd d))) in H; [|apply lookup_insert_eq]. by rewrite delete_insert_id in H.
  - cbn. apply lookup_delete_None. by right.
Qed.

Lemma free_values_all ps ds pre h m a : Forall2 releasable ps ds -> holds ds h (heap m) -> heap m !! a = None ->
  exists m2 ps', keymaster_free_param_values (length ps) (size pre) (Some a) (with_object m a (Params (pre ++ ps))) =
      Some (tt, with_object m2 a (Params (pre ++ ps'))) /\ heap m2 = h.
Proof.
  intros Hr. revert pre h m. induction Hr as [|p d ps ds Hp Hr IH]; intros pre h m H Ha.
  - by exists m, [].
  - destruct H as (h1 & Hd & H). cbn [keymaster_free_param_values length].
    assert (R : exists m2 p', free_param_value (Some a) (size pre) (with_object m a (Params (pre ++ p :: ps))) =
      Some (tt, with_object m2 a (Params (pre ++ p' :: ps))) /\ holds ds h (heap m2) /\ heap m2 !! a = None).
    { unfold free_param_value. rewrite (bind_some _ _ _ _ _ (param_at_known _ _ _ _ _)). unfold releasable in Hp.
      destruct (tag_among (tag p) _).
      - destruct Hp as [n ->]. cbn [data]. destruct (free_owned _ _ _ _ _ a (Params (pre ++ p :: ps)) Hd H Ha) as (m2 & Ef & H2 & Ha2).
        exists m2. eexists. split; [|done]. rewrite (bind_some _ _ _ _ _ Ef). apply set_param_known.
      - exists m, p. split_and!; [done| |done]. unfold holds_one in Hd. rewrite Hp in Hd. by subst h1. }
    destruct R as (m2 & p' & E & H2 & Ha2). rewrite (bind_some _ _ _ _ _ E).
    destruct (IH (pre ++ [p']) h m2 H2 Ha2) as (m3 & ps' & E3 & E4). rewrite size_snoc, <- app_assoc in E3. cbn [app] in E3.
    exists m3, (p' :: ps'). split; [|done]. rewrite E3, <- app_assoc. done.
Qed.

Lemma free_entries_all bs ds pre h m a : Forall2 (fun b d => data b = fst d) bs ds -> holds ds h (heap m) -> heap m !! a = None ->
  exists m2 bs', free_entries (length bs) (size pre) (Some a) (with_object m a (Blobs (pre ++ bs))) =
      Some (tt, with_object m2 a (Blobs (pre ++ bs'))) /\ heap m2 = h.
Proof.
  intros Hr. revert pre h m. induction Hr as [|b d bs ds Hb Hr IH]; intros pre h m H Ha.
  - by exists m, [].
  - destruct H as (h1 & Hd & H). cbn [free_entries length]. rewrite (bind_some _ _ _ _ _ (blob_at_known _ _ _ _ _)).
    destruct (free_owned _ _ _ _ _ a (Blobs (pre ++ b :: bs)) Hd H Ha) as (m2 & Ef & H2 & Ha2).
    rewrite Hb, (bind_some _ _ _ _ _ Ef), (bind_some _ _ _ _ _ (set_blob_known _ _ _ _ _ _)).
    destruct (IH (pre ++ [zero_blob]) h m2 H2 Ha2) as (m3 & bs' & E3 & E4). rewrite size_snoc, <- app_assoc in E3. cbn [app] in E3.
    exists m3, (zero_blob :: bs'). split; [|done]. rewrite E3, <- app_assoc. done.
Qed.

(** ** Sets and chains

    [set_owned s h h']: the heap [h'] is [h] with the objects of the set [s], which was read
    up to some point. *)

Definition set_owned (s : keymaster_key_param_set_t) (h h' : heaps) : Prop :=
  (params s = None /\ length_ s = 0 /\ h' = h) \/
  (exists a ps ds h1, params s = Some a /\ length_ s = size ps /\ Forall2 releasable ps ds /\ holds ds h h1 /\
    h1 !! a = None /\ h' = <[a := Params ps]> h1).

Definition chain_owned (c : keymaster_cert_chain_t) (h h' : heaps) : Prop :=
  (entries c = None /\ entry_count c = 0 /\ h' = h) \/
  (exists a bs ds h1, entries c = Some a /\ entry_count c = size bs /\ Forall2 (fun b d => data b = fst d) bs ds /\ holds ds h h1 /\
    h1 !! a = None /\ h' = <[a := Blobs bs]> h1).

Lemma free_object m2 a o : free (Some a) (with_object m2 a o) = Some (tt, removed a m2).
Proof. unfold free. rewrite with_object_lookup. unfold removed, with_object. cbn. by rewrite delete_insert_eq. Qed.

(** A memory with a heap, as the memory below an object. *)
Definition below (m : memory) (h : heaps) : memory := {| heap := h; allocations := allocations m |}.
Lemma as_object m a o h1 : heap m = <[a := o]> h1 -> m = with_object (below m h1) a o.
Proof. intros E. destruct m as [h n]. cbn in E. by rewrite E. Qed.

Lemma free_set s h m : set_owned s h (heap m) -> exists m2, keymaster_free_param_set s m = Some (no_params, m2) /\ heap m2 = h.
Proof.
  intros [(Hp & Hl & Hh)|(a & ps & ds & h1 & Hp & Hl & Hr & H & Ha & E)]; unfold keymaster_free_param_set.
  - rewrite Hl, Hp. by exists m.
  - rewrite (as_object _ _ _ _ E), Hl, Hp. destruct (free_values_all ps ds [] h (below m h1) a Hr H Ha) as (m3 & ps' & E3 & E4).
    unfold size in *. rewrite Nat2Z.id. cbn [app length] in E3. change (Z.of_nat 0) with 0 in E3. rewrite (bind_some _ _ _ _ _ E3), (bind_some _ _ _ _ _ (free_object _ _ _)).
    exists (removed a m3). split; [done|]. cbn. rewrite E4. apply delete_id. by apply (holds_none _ _ _ _ H).
Qed.

Lemma free_chain c h m : chain_owned c h (heap m) ->
  exists m2, keymaster_free_cert_chain c m = Some ({| entries := None; entry_count := 0 |}, m2) /\ heap m2 = h.
Proof.
  intros [(Hp & Hl & Hh)|(a & bs & ds & h1 & Hp & Hl & Hr & H & Ha & E)]; unfold keymaster_free_cert_chain.
  - rewrite Hl, Hp. by exists m.
  - rewrite (as_object _ _ _ _ E), Hl, Hp. destruct (free_entries_all bs ds [] h (below m h1) a Hr H Ha) as (m3 & bs' & E3 & E4).
    unfold size in *. rewrite Nat2Z.id. cbn [app length] in E3. change (Z.of_nat 0) with 0 in E3. rewrite (bind_some _ _ _ _ _ E3), (bind_some _ _ _ _ _ (free_object _ _ _)).
    exists (removed a m3). split; [done|]. cbn. rewrite E4. apply delete_id. by apply (holds_none _ _ _ _ H).
Qed.

(** A set is apart from what was there, and can be freed next to anything. *)
Lemma set_owned_split s h h' : set_owned s h h' -> exists F : heaps, h' = F ∪ h /\ F ##ₘ h /\
  forall h0, F ##ₘ h0 -> set_owned s h0 (F ∪ h0).
Proof.
  intros [(Hp & Hl & ->)|(a & ps & ds & h1 & Hp & Hl & Hr & H & Ha & ->)].
  - exists ∅. split_and!; [by rewrite map_empty_union|apply map_disjoint_empty_l|]. intros h0 _. left. by rewrite map_empty_union.
  - destruct (holds_split _ _ _ H) as (F & -> & D & R). apply lookup_union_None in Ha as [Fa Ha]. exists (<[a := Params ps]> F). split_and!.
    + by rewrite insert_union_l.
    + by apply map_disjoint_insert_l.
    + intros h0 [D1 D2]%map_disjoint_insert_l. right. exists a, ps, ds, (F ∪ h0). split_and!; [done|done|done|by apply R| |by rewrite insert_union_l].
      by apply lookup_union_None.
Qed.

Lemma set_owned_frame (F : heaps) s h h' : set_owned s h h' -> F ##ₘ h' -> set_owned s (F ∪ h) (F ∪ h').
Proof.
  intros [(Hp & Hl & ->)|(a & ps & ds & h1 & Hp & Hl & Hr & H & Ha & ->)] HF; [by left|right].
  apply map_disjoint_insert_r in HF as [Fa HF]. exists a, ps, ds, (F ∪ h1). split_and!; [done|done|done|by apply holds_frame| |].
  - by apply lookup_union_None.
  - by rewrite insert_union_r.
Qed.

Lemma free_characteristics c h h1 m : set_owned (hw_enforced c) h h1 -> set_owned (sw_enforced c) h1 (heap m) ->
  exists m2, keymaster_free_characteristics c m = Some ({| hw_enforced := no_params; sw_enforced := no_params |}, m2) /\ heap m2 = h.
Proof.
  intros H1 H2. destruct (set_owned_split _ _ _ H2) as (F & E & D & R).
  assert (DF : F ##ₘ h) by (destruct (set_owned_split _ _ _ H1) as (G & E1 & _); rewrite E1 in D; by apply map_disjoint_union_r in D as [_ D]).
  apply (set_owned_frame F) in H1; [|done]. rewrite <- E in H1.
  destruct (free_set _ _ _ H1) as (m1 & E1 & Eh1). unfold keymaster_free_characteristics. rewrite (bind_some _ _ _ _ _ E1).
  destruct (free_set (sw_enforced c) h m1) as (m2 & E2 & Eh2); [rewrite Eh1; by apply R|]. rewrite (bind_some _ _ _ _ _ E2). by exists m2.
Qed.
