(* ===== verification/KmAnswers.v ===== *)
(** * Keys of the TEE: reading what was encoded

    The functions that take answers apart, on any bytes. *)

From S2P Require Import Prelude Effects KmTags KmBytes KmDer KmHeap KmDecode KmSteps KmImport KmSerial KmParams.
(** ** Numbers of the input *)

Section numbers.
Context `{Allocator} {X : Type}.
Abbreviation K := (KM (world X)).
Implicit Types (m : memory) (x : X) (E : Z -> memory -> X -> Prop).

Lemma take_all (l : list Z) n : (n <= length l)%nat -> exists s t, l = s ++ t /\ length s = n.
Proof. intros Hn. exists (take n l), (drop n l). by rewrite take_drop, length_take_le by lia. Qed.

Lemma advance32_view src p (s t : list Z) : size (s ++ t) < 2 ^ 32 ->
  advance32 (size s) (view src p (s ++ t)) = Some (tt, view src (p + size s) t).
Proof.
  unfold size. intros Hl. unfold advance32, view, cursor_at. cbn. rewrite length_app in *. do 3 f_equal.
  replace (Z.of_nat (length s + length t) - Z.of_nat (length s)) with (Z.of_nat (length t)) by lia. by rewrite u32_small by lia.
Qed.

Lemma runs_remain (f : unit -> K unit) n src p l m x Q E : (size l < n -> E KM_ERROR_INSUFFICIENT_BUFFER_SPACE m x) ->
  (n <= size l -> runs (f tt) (W src p l m x) Q E) -> runs (CHECK_remain n ≫= f) (W src p l m x) Q E.
Proof.
  intros HE Hf. unfold CHECK_remain. apply runs_assoc, runs_left, runs_true; intros Hb.
  - apply Hf. by apply Z.leb_le.
  - apply HE. by apply Z.leb_gt.
Qed.

Lemma le_bytes_of n s : Forall is_byte s -> length s = n -> exists z, s = le n z /\ 0 <= z < 2 ^ (8 * Z.of_nat n).
Proof. intros Hs <-. exists (of_le s). rewrite le_of_le by done. split; [done|]. by apply of_le_range. Qed.

Lemma of_le_small n z : 0 <= z < 2 ^ (8 * Z.of_nat n) -> of_le (le n z) = z.
Proof. intros Hz. rewrite of_le_le. by apply Z.mod_small. Qed.

Lemma runs_next_u32 (f : Z -> K unit) src p l m x Q E : seen src p l -> size l < 2 ^ 32 ->
  (size l < 4 -> E KM_ERROR_INSUFFICIENT_BUFFER_SPACE m x) ->
  (forall z l', l = le 4 z ++ l' -> 0 <= z < 2 ^ 32 -> seen src (p + 4) l' -> runs (f z) (W src (p + 4) l' m x) Q E) ->
  runs (next_u32 ≫= f) (W src p l m x) Q E.
Proof.
  intros Hs Hl HE Hf. unfold next_u32. apply runs_assoc, runs_remain; [done|]. intros H4. unfold size in *.
  destruct (take_all l 4 ltac:(lia)) as (s & t & -> & L). destruct (seen_app _ _ _ _ Hs) as [(_ & Bs & _) Ht].
  destruct (le_bytes_of _ s Bs L) as (z & -> & Hz). rewrite length_le in Ht. destruct Hs as (Ho & Hb & _).
  apply runs_assoc. eapply runs_input; [apply get_u32_view; [done|lia|done]|]. rewrite take_app_length' by (by rewrite length_le).
  rewrite of_le_small by done. apply runs_assoc. eapply runs_input; [by apply advance32_view|]. apply runs_bind_ret. by apply Hf.
Qed.

Lemma runs_next_u64 (f : Z -> K unit) src p l m x Q E : seen src p l -> size l < 2 ^ 32 ->
  (size l < 8 -> E KM_ERROR_INSUFFICIENT_BUFFER_SPACE m x) ->
  (forall z l', l = le 8 z ++ l' -> 0 <= z < 2 ^ 64 -> seen src (p + 8) l' -> runs (f z) (W src (p + 8) l' m x) Q E) ->
  runs (next_u64 ≫= f) (W src p l m x) Q E.
Proof.
  intros Hs Hl HE Hf. unfold next_u64. apply runs_assoc, runs_remain; [done|]. intros H4. unfold size in *.
  destruct (take_all l 8 ltac:(lia)) as (s & t & -> & L). destruct (seen_app _ _ _ _ Hs) as [(_ & Bs & _) Ht].
  destruct (le_bytes_of _ s Bs L) as (z & -> & Hz). rewrite length_le in Ht. destruct Hs as (Ho & Hb & _).
  apply runs_assoc. eapply runs_input; [apply get_u64_view; [done|lia|done]|]. rewrite take_app_length' by (by rewrite length_le).
  rewrite of_le_small by done. apply runs_assoc. eapply runs_input; [by apply advance32_view|]. apply runs_bind_ret. by apply Hf.
Qed.

(** ** Objects next to an array *)

Lemma malloc_next m a o n : (a < allocations m)%nat -> fresh m -> 0 <= n ->
  let k := allocations m in
  if malloc_ok k n then exists bs, size bs = n /\
    malloc n (with_object m a o) = Some (Some k, with_object (with_bytes (allocated m) k bs) a o)
  else malloc n (with_object m a o) = Some (None, with_object (allocated m) a o).
Proof.
  intros Ha Hf Hn. cbv zeta. unfold malloc, allocate. cbv zeta. change (allocations (with_object m a o)) with (allocations m).
  destruct (malloc_ok (allocations m) n); [|done].
  exists (map (rubbish (allocations m)) (seqZ 0 n)). split; [unfold size; rewrite length_map, length_seqZ; lia|].
  rewrite with_object_comm by lia. done.
Qed.

Lemma store_next m a o k bs s : a <> k -> length s = length bs ->
  store (Some k) 0 s (with_object (with_bytes m k bs) a o) = Some (tt, with_object (with_bytes m k s) a o).
Proof.
  intros Hn Hl. rewrite (store_known _ _ [] bs [] s).
  - rewrite with_object_comm by done. rewrite object_twice. by rewrite app_nil_r.
  - unfold with_object. cbn. rewrite lookup_insert_ne, lookup_insert_eq by done. by rewrite app_nil_r.
  - done.
  - done.
Qed.

Lemma adds_failed m : fresh m -> adds (None, []) m (allocated m).
Proof. intros Hf. split_and!; [cbn; lia| |done]. intros n Hn. apply Hf. cbn in Hn. lia. Qed.

Lemma adds_new m bs : fresh m -> adds (Some (allocations m), bs) m (with_bytes (allocated m) (allocations m) bs).
Proof.
  intros Hf. split_and!; [cbn; lia| |].
  - intros n Hn. cbn in *. rewrite lookup_insert_ne by lia. apply Hf. lia.
  - split_and!; [by apply Hf|done|done].
Qed.

(** The bytes of a value go to a new object. *)
Lemma runs_next_bytes (f : unit -> K unit) src p s t m a o k bs x Q E : seen src p (s ++ t) -> a <> k -> length s = length bs ->
  runs (f tt) (W src p (s ++ t) (with_object (with_bytes m k s) a o) x) Q E ->
  runs (next_bytes (Some k) (size s) ≫= f) (W src p (s ++ t) (with_object (with_bytes m k bs) a o) x) Q E.
Proof.
  intros Hs Hn Hl Hf. unfold next_bytes. apply runs_assoc, runs_here. destruct (seen_app _ _ _ _ Hs) as [(Ho & _) _].
  apply runs_assoc. eapply runs_input; [by apply bytes_from_occurs|]. eapply runs_mem; [by apply store_next|done].
Qed.

Lemma runs_set_value (f : unit -> K unit) v src p l m a pre q ps x Q E :
  runs (f tt) (W src p l (with_object m a (Params (pre ++ {| tag := tag q; value := v |} :: ps))) x) Q E ->
  runs (set_value (Some a) (size pre) v ≫= f) (W src p l (with_object m a (Params (pre ++ q :: ps))) x) Q E.
Proof. intros Hf. eapply runs_mem; [apply set_param_known|done]. Qed.

End numbers.

(** ** One parameter *)

Definition readable (l : list Z) : Prop := exists a w l', l = w ++ l' /\ param_bytes a w.
(** Why reading fails. *)
Definition refused `{Allocator} (e : Z) : Prop := e = KM_ERROR_MEMORY_ALLOCATION_FAILED /\ exists k n, malloc_ok k n = false.
Definition cause `{Allocator} (P : Prop) (e : Z) : Prop := refused e \/ ~ P.

Lemma val_size v w : val_bytes v w ->
  size w = match v with U32 _ | Bool _ => 4 | U64 _ => 8 | Blob l => 4 + size l end.
Proof. unfold size. destruct 1 as [[z|b|z|l]|z Hz]; cbn [encode_val]; rewrite ?length_app, !length_le; lia. Qed.

Lemma readable_tag t l : 0 <= t < 2 ^ 32 -> readable (le 4 t ++ l) ->
  exists v w l', l = w ++ l' /\ val_bytes v w /\ in_range v /\ storage_of t = Some (storage_of_val v).
Proof.
  intros Ht ([t' v] & w & l' & E & (Hr & Hs & Hv) & u & -> & Hu). cbn [fst snd] in *. rewrite <- app_assoc in E.
  apply (le_app_inj 4) in E as [<- ->]; [|done|done]. by exists v, u, l'.
Qed.

Lemma short_unreadable l : size l < 4 -> ~ readable l.
Proof.
  intros Hl (a & w & l' & -> & _ & u & -> & _). unfold size in *. rewrite !length_app, length_le in Hl. lia.
Qed.

Lemma unreadable_val t l n : 0 <= t < 2 ^ 32 -> size l < n ->
  (forall v w, storage_of t = Some (storage_of_val v) -> val_bytes v w -> n <= size w) -> ~ readable (le 4 t ++ l).
Proof.
  intros Ht Hl Hn (v & w & l' & -> & Hw & _ & Hs)%readable_tag; [|done]. specialize (Hn v w Hs Hw). unfold size in *. rewrite length_app in Hl. lia.
Qed.

Section param.
Context `{Allocator} {X : Type}.
Abbreviation K := (KM (world X)).
Implicit Types (m : memory) (x : X) (E : Z -> memory -> X -> Prop).

(** The two ends of a step that reads the parameter with an index. *)
Definition param_fails m a pre ps x l E : Prop :=
  forall e p' d m', releasable p' d -> adds d m m' -> cause (readable l) e -> E e (with_object m' a (Params (pre ++ p' :: ps))) x.
Definition param_done (f : unit -> K unit) src p m a pre ps x l Q E : Prop :=
  forall p' d v w l' m', l = w ++ l' -> param_bytes v w -> represents p' d v -> adds d m m' -> seen src (p + size w) l' ->
    runs (f tt) (W src (p + size w) l' (with_object m' a (Params (pre ++ p' :: ps))) x) Q E.

Lemma zeros_releasable t : releasable {| tag := t; value := zeros |} (None, []).
Proof. unfold releasable. cbn [tag value]. destruct (tag_among _ _); [by eexists|done]. Qed.

Lemma adds_same m : fresh m -> adds (None, []) m m.
Proof. intros Hf. by split; [|split]. Qed.

Lemma val_size_min v w : val_bytes v w -> 4 <= size w.
Proof. intros Hw%val_size. rewrite Hw. destruct v; unfold size; lia. Qed.

Lemma size_le n z : size (le n z) = Z.of_nat n.
Proof. unfold size. by rewrite length_le. Qed.

Section values.
Context (f : unit -> K unit) (t : Z) (src : list Z) (p : Z) (l : list Z) (m : memory) (a : nat)
  (pre ps : list keymaster_key_param_t) (x : X) (Q : unit -> world X -> Prop) (E : Z -> memory -> X -> Prop).
Hypothesis Ht : 0 <= t < 2 ^ 32.
Hypothesis Hm : fresh m.
Hypothesis Ha : (a < allocations m)%nat.
Hypothesis Hs : seen src (p + 4) l.
Hypothesis Hl : size l < 2 ^ 32.
Hypothesis Fails : param_fails m a pre ps x (le 4 t ++ l) E.
Hypothesis Finishes : param_done f src p m a pre ps x (le 4 t ++ l) Q E.

Let tagged (v : param_value) : object := Params (pre ++ {| tag := t; value := v |} :: ps).

Lemma value_fails e : cause (readable (le 4 t ++ l)) e -> E e (with_object m a (tagged zeros)) x.
Proof. intros He. apply (Fails _ _ (None, [])); [apply zeros_releasable|by apply adds_same|done]. Qed.

Lemma runs_value_32 (c : Z -> param_value) (g : Z -> param_val) :
  (forall z, 0 <= z < 2 ^ 32 -> storage_of t = Some (storage_of_val (g z)) /\ in_range (g z) /\ val_bytes (g z) (le 4 z)) ->
  (forall z, represents {| tag := t; value := c z |} (None, []) (t, g z)) ->
  runs (v ← next_u32; set_value (Some a) (size pre) (c v) ≫= f) (W src (p + 4) l (with_object m a (tagged zeros)) x) Q E.
Proof.
  intros Hg Hc. apply runs_next_u32; [done|done| |].
  - intros H4. apply value_fails. right. apply (unreadable_val _ _ 4); [done|done|]. intros v w _. apply val_size_min.
  - intros z l' El Hz Hs'. apply runs_set_value. destruct (Hg z Hz) as (S1 & R1 & B1).
    replace (p + 4 + 4) with (p + size (le 4 t ++ le 4 z)) in * by (rewrite size_app, !size_le; lia).
    apply (Finishes _ (None, []) (t, g z)).
    + by rewrite El, app_assoc.
    + split; [done|]. by eexists.
    + apply Hc.
    + by apply adds_same.
    + done.
Qed.

Lemma runs_value_64 (c : Z -> param_value) : storage_of t = Some In64 ->
  (forall z, represents {| tag := t; value := c z |} (None, []) (t, U64 z)) ->
  runs (v ← next_u64; set_value (Some a) (size pre) (c v) ≫= f) (W src (p + 4) l (with_object m a (tagged zeros)) x) Q E.
Proof.
  intros Hg Hc. apply runs_next_u64; [done|done| |].
  - intros H4. apply value_fails. right. apply (unreadable_val _ _ 8); [done|done|]. intros v w Hv Hw%val_size.
    rewrite Hw. rewrite Hg in Hv. destruct v; by try discriminate Hv.
  - intros z l' El Hz Hs'. apply runs_set_value.
    replace (p + 4 + 8) with (p + size (le 4 t ++ le 8 z)) in * by (rewrite size_app, !size_le; lia).
    apply (Finishes _ (None, []) (t, U64 z)).
    + by rewrite El, app_assoc.
    + split; [done|]. eexists. split; [done|]. apply (bytes_encode (U64 z)).
    + apply Hc.
    + by apply adds_same.
    + done.
Qed.

Lemma runs_value_bytes : storage_of t = Some InBytes ->
  runs ((n ← next_u32; CHECK_remain n ;; d ← on_mem (malloc n);
    set_value (Some a) (size pre) (blob {| data := d; data_length := 0 |}) ;;
    CHECK_TRUE KM_ERROR_MEMORY_ALLOCATION_FAILED (bool_decide (d <> None)) ;;
    next_bytes d n ;; set_value (Some a) (size pre) (blob {| data := d; data_length := n |}) ;;
    on_input (advance32 n)) ≫= f) (W src (p + 4) l (with_object m a (tagged zeros)) x) Q E.
Proof.
  intros St. assert (Hb : tag_among t [KM_BIGNUM; KM_BYTES] = true) by (by apply (all_among _ _ _ St); decided).
  apply runs_assoc, runs_next_u32; [done|done| |].
  { intros H4. apply value_fails. right. apply (unreadable_val _ _ 4); [done|done|]. intros v w _. apply val_size_min. }
  intros n l' El Hn Hs'. assert (Ln : size l' < 2 ^ 32) by (pose proof Hl as Hl'; rewrite El, size_app in Hl'; pose proof (size_nonneg (le 4 n)); lia).
  apply runs_assoc, runs_remain.
  { intros Hr. apply value_fails. right. rewrite El. intros (v & w & l2 & E1 & Hw & Hv & S1)%readable_tag; [|done]. rewrite St in S1.
    destruct v as [| | |s]; try discriminate S1. inversion Hw as [v Ev Ew|]. subst w v. cbn [encode_val] in E1. rewrite <- app_assoc in E1.
    apply (le_app_inj 4) in E1 as [-> ->]; [|done|destruct Hv; pose proof (size_nonneg s); lia]. rewrite size_app in Hr.
    pose proof (size_nonneg l2). lia. }
  intros Hr. pose proof (malloc_next m a (tagged zeros) n Ha Hm ltac:(lia)) as Hk. cbv zeta in Hk.
  destruct (malloc_ok (allocations m) n) eqn:Em.
  - destruct Hk as (bs & Lb & Ek). apply runs_assoc. eapply runs_mem; [exact Ek|]. apply runs_assoc, runs_set_value. apply runs_assoc, runs_true; [intros _|by rewrite bool_decide_eq_true_2 by done].
    destruct (take_all l' (Z.to_nat n)) as (s & r & -> & Ls); [unfold size in *; lia|]. assert (Es : n = size s) by (unfold size; lia).
    rewrite Es. apply runs_assoc, runs_next_bytes; [done|lia|unfold size in *; lia|]. apply runs_assoc, runs_set_value.
    eapply runs_input; [by apply advance32_view|].
    destruct (seen_app _ _ _ _ Hs') as [(_ & Bs & _) Hs2].
    replace (p + 4 + 4 + size s) with (p + size (le 4 t ++ le 4 n ++ s)) by (rewrite !size_app, !size_le; lia).
    apply (Finishes _ (Some (allocations m), s) (t, Blob s)).
    + by rewrite El, <- !app_assoc.
    + split; [split; [done|split; [done|]]|].
      * split; [lia|done].
      * eexists. split; [done|]. rewrite Es. apply (bytes_encode (Blob s)).
    + done.
    + by apply adds_new.
    + fold (size s) in Hs2. by replace (p + 4 + 4 + size s) with (p + size (le 4 t ++ le 4 n ++ s)) in Hs2 by (rewrite !size_app, !size_le; lia).
  - apply runs_assoc. eapply runs_mem; [exact Hk|]. apply runs_assoc, runs_set_value. apply runs_assoc, runs_true; [by rewrite bool_decide_eq_false_2 by (by intros [])|intros _].
    apply (Fails _ _ (None, [])); [|by apply adds_failed|left; by split; [|by eexists _, _]]. unfold releasable. cbn [tag value]. rewrite Hb. by eexists.
Qed.
End values.

(** The tests of [deserialize_param], with what they mean. *)
Lemma tag_tests t :
  (tag_among t [KM_ENUM; KM_ENUM_REP] = true -> storage_of t = Some In32) /\
  (tag_among t [KM_UINT; KM_UINT_REP] = true -> storage_of t = Some In32) /\
  (tag_among t [KM_BOOL] = true -> storage_of t = Some InBool) /\
  (tag_among t [KM_ULONG; KM_ULONG_REP] = true -> storage_of t = Some In64) /\
  (tag_among t [KM_DATE] = true -> storage_of t = Some In64) /\
  (tag_among t [KM_BIGNUM; KM_BYTES] = true -> storage_of t = Some InBytes).
Proof. split_and!; intros H0; by apply (among_storage _ _ _ H0); decided. Qed.

Lemma no_test t s : storage_of t = Some s -> tag_among t [KM_ENUM; KM_ENUM_REP] = false -> tag_among t [KM_UINT; KM_UINT_REP] = false ->
  tag_among t [KM_BOOL] = false -> tag_among t [KM_ULONG; KM_ULONG_REP] = false -> tag_among t [KM_DATE] = false ->
  tag_among t [KM_BIGNUM; KM_BYTES] = false -> False.
Proof.
  intros Hs%storage_type. unfold tag_among. intros H1%bool_decide_eq_false H2%bool_decide_eq_false H3%bool_decide_eq_false
    H4%bool_decide_eq_false H5%bool_decide_eq_false H6%bool_decide_eq_false.
  revert H1 H2 H3 H4 H5 H6. repeat (apply elem_of_cons in Hs as [[= -> ->]|Hs]; [rewrite !elem_of_cons; tauto|]). by apply elem_of_nil in Hs.
Qed.

Lemma runs_deserialize_param (f : unit -> K unit) src p l m a pre ps x Q E : seen src p l -> size l < 2 ^ 32 -> fresh m ->
  (a < allocations m)%nat -> param_fails m a pre ps x l E -> param_done f src p m a pre ps x l Q E ->
  runs (deserialize_param (Some a) (size pre) ≫= f) (W src p l (with_object m a (Params (pre ++ zero_param :: ps))) x) Q E.
Proof.
  intros Hs Hl Hm Ha HE HQ. unfold deserialize_param. apply runs_assoc, runs_next_u32; [done|done| |].
  { intros H4. apply (HE _ _ (None, [])); [done|by apply adds_same|]. right. by apply short_unreadable. }
  intros t l' -> Ht Hs'. apply runs_assoc. eapply runs_mem; [apply set_param_known|]. cbn [value zero_param].
  assert (Hl' : size l' < 2 ^ 32) by (rewrite size_app in Hl; pose proof (size_nonneg (le 4 t)); lia).
  destruct (tag_tests t) as (T1 & T2 & T3 & T4 & T5 & T6).
  destruct (tag_among t [KM_ENUM; KM_ENUM_REP]) eqn:E1.
  { apply runs_assoc, (runs_value_32 f t src p l' m a pre ps x Q E Ht Hm Ha Hs' Hl' HE HQ enumerated U32); [|done].
    intros z Hz. split_and!; [by apply T1|done..|]. apply (bytes_encode (U32 z)). }
  destruct (tag_among t [KM_UINT; KM_UINT_REP]) eqn:E2.
  { apply runs_assoc, (runs_value_32 f t src p l' m a pre ps x Q E Ht Hm Ha Hs' Hl' HE HQ integer U32); [|done].
    intros z Hz. split_and!; [by apply T2|done..|]. apply (bytes_encode (U32 z)). }
  destruct (tag_among t [KM_BOOL]) eqn:E3.
  { apply runs_assoc, (runs_value_32 f t src p l' m a pre ps x Q E Ht Hm Ha Hs' Hl' HE HQ
      (fun v => boolean (negb (v =? 0))) (fun v => Bool (negb (v =? 0)))); [|done].
    intros z Hz. split_and!; [by apply T3|done|]. by apply bytes_bool. }
  destruct (tag_among t [KM_ULONG; KM_ULONG_REP]) eqn:E4.
  { by apply runs_assoc, (runs_value_64 f t src p l' m a pre ps x Q E Ht Hm Ha Hs' Hl' HE HQ long_integer); [apply T4|]. }
  destruct (tag_among t [KM_DATE]) eqn:E5.
  { by apply runs_assoc, (runs_value_64 f t src p l' m a pre ps x Q E Ht Hm Ha Hs' Hl' HE HQ date_time); [apply T5|]. }
  destruct (tag_among t [KM_BIGNUM; KM_BYTES]) eqn:E6.
  { by apply (runs_value_bytes f t src p l' m a pre ps x Q E Ht Hm Ha Hs' Hl' HE HQ), T6. }
  apply runs_bind_fail. apply (HE _ _ (None, [])); [apply zeros_releasable|by apply adds_same|]. right.
  intros (v & w & l2 & _ & _ & _ & S1)%readable_tag; [|done]. by apply (no_test t _ S1).
Qed.

End param.

(** ** A set of parameters *)

Definition readable_params (n : nat) (l : list Z) : Prop := exists vs w l', l = w ++ l' /\ params_bytes vs w /\ length vs = n.
Definition readable_set (l : list Z) : Prop := exists vs w l', l = w ++ l' /\ set_bytes vs w.

Lemma readable_params_head n l : readable_params (Datatypes.S n) l -> readable l.
Proof.
  intros (vs & w & l' & -> & H & Hn). destruct H as [|v w vs u Hv H]; [done|]. exists v, w, (u ++ l'). split; [by rewrite app_assoc|done].
Qed.
Lemma readable_params_tail n v w l : param_bytes v w -> readable_params (Datatypes.S n) (w ++ l) -> readable_params n l.
Proof.
  intros Hv (vs & w2 & l' & E & H & Hn). destruct H as [|v2 w2 vs u Hv2 H]; [done|]. rewrite <- app_assoc in E.
  destruct (param_bytes_inj _ _ _ _ _ _ Hv Hv2 E) as (_ & _ & ->). injection Hn as Hn. by exists vs, u, l'.
Qed.

Lemma cause_weaken `{Allocator} (P P' : Prop) e : (P' -> P) -> cause P e -> cause P' e.
Proof. intros HP [He|Hn]; [by left|right]. tauto. Qed.

(** Parameters in memory, with their objects and values. *)
Definition all_represent (ps : list keymaster_key_param_t) (xs : list (owned * param)) : Prop :=
  Forall2 (fun p y => represents p (fst y) (snd y)) ps xs.

Lemma all_releasable ps xs w : all_represent ps xs -> params_bytes (map snd xs) w -> Forall2 releasable ps (map fst xs).
Proof.
  intros H. revert w. induction H as [|p [d v] ps xs Hp H IH]; intros w Hb; cbn [map fst snd] in *; [constructor|].
  inversion Hb as [|v' w' l' u Hv Hb' E1 E2]; subst. constructor; [|by apply (IH u)]. apply (represents_releasable p d v); [|done]. by destruct Hv.
Qed.

Lemma zeros_left n m : fresh m -> Forall2 releasable (replicate n zero_param) (replicate n (None, [])) /\ adds_all (replicate n (None, [])) m m.
Proof.
  intros Hm. split.
  - induction n as [|n IH]; cbn [replicate]; constructor; [done|apply IH].
  - induction n as [|n IH]; cbn [replicate adds_all]; [done|]. exists m. by split; [apply adds_same|].
Qed.

Section set.
Context `{Allocator}.

Section params.
Context {X : Type}.
Abbreviation K := (KM (world X)).
Implicit Types (m : memory) (x : X) (E : Z -> memory -> X -> Prop).

Lemma runs_deserialize_params (f : unit -> K unit) n src p l m a pre x Q E : seen src p l -> size l < 2 ^ 32 -> fresh m ->
  (a < allocations m)%nat ->
  (forall e ps ds m', Forall2 releasable ps ds -> length ps = n -> adds_all ds m m' -> cause (readable_params n l) e ->
    E e (with_object m' a (Params (pre ++ ps))) x) ->
  (forall ps xs w l' m', l = w ++ l' -> params_bytes (map snd xs) w -> all_represent ps xs -> length ps = n ->
    adds_all (map fst xs) m m' -> seen src (p + size w) l' ->
    runs (f tt) (W src (p + size w) l' (with_object m' a (Params (pre ++ ps))) x) Q E) ->
  runs (deserialize_params n (size pre) (Some a) ≫= f)
    (W src p l (with_object m a (Params (pre ++ replicate n zero_param))) x) Q E.
Proof.
  revert f p l m pre. induction n as [|n IH]; intros f p l m pre Hs Hl Hm Ha HE HQ; cbn [deserialize_params replicate].
  - apply runs_bind_ret. replace p with (p + size (@nil Z)) by (unfold size; simpl; lia).
    apply (HQ [] [] [] l); [done|constructor|constructor|done|done|]. unfold size. simpl. by rewrite Z.add_0_r.
  - apply runs_assoc. apply runs_deserialize_param; [done|done|done|done| |].
    + intros e p' d m' Hp Hd He. destruct (zeros_left n m' (adds_fresh _ _ _ Hd)) as [Z1 Z2].
      apply (HE _ (p' :: replicate n zero_param) (d :: replicate n (None, []))).
      * by constructor.
      * simpl. by rewrite length_replicate.
      * by exists m'.
      * by eapply cause_weaken; [apply readable_params_head|].
    + intros p' d v w l' m' -> Hv Hp Hd Hs'. assert (Hl' : size l' < 2 ^ 32) by (rewrite size_app in Hl; pose proof (size_nonneg w); lia).
      pose proof (adds_allocations _ _ _ Hd). rewrite (cons_middle p' pre), app_assoc, <- size_snoc with (x := p').
      apply IH; [done|done|by eapply adds_fresh|lia| |].
      * intros e ps ds m2 Hr Hn H2 He. rewrite <- app_assoc. apply (HE _ (p' :: ps) (d :: ds)).
        -- constructor; [|done]. eapply represents_releasable; [|done]. by destruct Hv.
        -- simpl. by rewrite Hn.
        -- by exists m'.
        -- by eapply cause_weaken; [apply (readable_params_tail _ v)|].
      * intros ps xs w2 l2 m2 -> Hb Hr Hn H2 Hs2. rewrite <- app_assoc. rewrite <- Z.add_assoc, <- size_app in *.
        apply (HQ (p' :: ps) ((d, v) :: xs)); [by rewrite app_assoc|by constructor|by constructor|by simpl; rewrite Hn|by exists m'|done].
Qed.
End params.

(** A set in memory: its objects are new. *)
Definition denotes (s : keymaster_key_param_set_t) (vs : list param) (m m' : memory) : Prop :=
  (vs = [] /\ params s = None /\ length_ s = 0 /\ heap m' = heap m /\ fresh m' /\ (allocations m <= allocations m')%nat) \/
  (exists a ps xs m1 m2, params s = Some a /\ length_ s = size ps /\ all_represent ps xs /\ map snd xs = vs /\
    adds_all (map fst xs) m1 m2 /\ heap m1 = heap m /\ heap m !! a = None /\ (allocations m <= a < allocations m1)%nat /\
    m' = with_object m2 a (Params ps)).

Lemma denotes_owned s vs w m m' : denotes s vs m m' -> params_bytes vs w -> set_owned s (heap m) (heap m').
Proof.
  intros [(-> & Hp & Hl & Hh & _)|(a & ps & xs & m1 & m2 & Hp & Hl & Hr & <- & Ha & E1 & Hn & La & ->)] Hb; [by left|right].
  destruct (adds_all_facts _ _ _ Ha) as (_ & _ & Hk). exists a, ps, (map fst xs), (heap m2).
  split_and!; [done|done|by eapply all_releasable|rewrite <- E1; by apply adds_all_holds|rewrite Hk by lia; by rewrite E1|done].
Qed.

Lemma denotes_fresh s vs m m' : denotes s vs m m' -> fresh m' /\ (allocations m <= allocations m')%nat.
Proof.
  intros [(_ & _ & _ & _ & Hf & Ha)|(a & ps & xs & m1 & m2 & _ & _ & _ & _ & Ha & _ & _ & La & ->)]; [done|].
  destruct (adds_all_facts _ _ _ Ha) as (A & F & _). split; [|cbn; lia]. intros n Hn. cbn in *. rewrite lookup_insert_ne by lia. by apply F.
Qed.

Abbreviation K := (KM (world keymaster_key_param_set_t)).

Lemma runs_set src p l m : seen src p l -> size l < 2 ^ 32 -> fresh m -> (forall k n, calloc_ok k n = true) ->
  runs deserialize_param_set (W src p l m no_params)
    (fun _ w => exists vs v l', l = v ++ l' /\ set_bytes vs v /\ denotes (outs w) vs m (mem w) /\
      input w = view src (p + size v) l' /\ seen src (p + size v) l')
    (fun e m' s => set_owned s (heap m) (heap m') /\ cause (readable_set l) e).
Proof.
  intros Hs Hl Hm Hc. apply runs_last. unfold deserialize_param_set. apply runs_assoc, runs_next_u32; [done|done| |].
  { intros H4. split; [by left|]. right. intros (vs & w & l' & -> & _ & v & -> & _). unfold size in *. rewrite !length_app, length_le in H4. lia. }
  intros n l' -> Hn Hs'. apply runs_assoc, runs_set_out. destruct (Z.eqb_spec n 0) as [->|H0].
  - apply runs_set_out, runs_ret. exists [], (le 4 0), l'. split_and?; [done| |by left|done|by rewrite size_le].
    split; [done|]. exists []. split; [done|constructor].
  - apply runs_assoc. unfold calloc_params, allocate. cbv zeta.
    eapply (runs_mem _ _ _ _ _ (Some (allocations m)) (with_object (allocated m) (allocations m) (Params (replicate (Z.to_nat n) zero_param)))).
    { by rewrite Hc. }
    apply runs_assoc, runs_set_out. apply runs_assoc, runs_true; [intros _|done].
    assert (Hl' : size l' < 2 ^ 32) by (rewrite size_app in Hl; pose proof (size_nonneg (le 4 n)); lia).
    pose proof (adds_failed m Hm) as (_ & Hf & _).
    apply (runs_deserialize_params _ _ _ _ _ (allocated m) _ []); [done|done|done|cbn; lia| |].
    + intros e ps ds m' Hr Ln Hd He. split.
      * right. destruct (adds_all_facts _ _ _ Hd) as (_ & _ & Hk). exists (allocations m), ps, ds, (heap m').
        split_and!; [done|unfold size; cbn; lia|done|by apply (adds_all_holds _ (allocated m))|rewrite Hk by (cbn; lia); by apply Hm|done].
      * eapply cause_weaken; [|exact He]. intros (vs & w & l2 & E1 & Rv & v & -> & Hv). rewrite <- app_assoc in E1.
        apply (le_app_inj 4) in E1 as [-> ->]; [|done|unfold size in *; lia]. exists vs, v, l2. split_and!; [done|done|unfold size; lia].
    + intros ps xs w l2 m' -> Hb Hr Ln Hd Hs2. apply runs_ret. exists (map snd xs), (le 4 n ++ w), l2.
      assert (Lx : n = size (map snd xs)) by (unfold size; rewrite length_map, <- (Forall2_length _ _ _ Hr); lia).
      split_and?.
      * by rewrite app_assoc.
      * split; [lia|]. exists w. by rewrite <- Lx.
      * right. exists (allocations m), ps, xs, (allocated m), m'. split_and!; [done|unfold size; cbn; lia|done|done|done|done|by apply Hm|cbn; lia|cbn; lia|done].
      * cbn [input W]. by rewrite size_app, size_le, Z.add_assoc.
      * by rewrite size_app, size_le, Z.add_assoc.
Qed.
End set.

(** ** The characteristics of a key *)

Section calls.
Context {X : Type}.

Lemma runs_on_field {Y A} (f : X -> Y) `{Assign X Y f} (o : KM (world Y) A) c m x Q E :
  runs o {| input := c; mem := m; outs := f x |} Q E ->
  runs (on_field f o) {| input := c; mem := m; outs := x |}
    (fun a w => exists y, Q a {| input := input w; mem := mem w; outs := y |} /\ outs w = assigned f y x)
    (fun e m x' => exists y, E e m y /\ x' = assigned f y x).
Proof.
  intros (r & w & Eo & H1). unfold runs, ends, on_field. cbn. rewrite Eo. eexists _, _. split; [done|].
  destruct w as [ci mi y], r as [a|e]; by exists y.
Qed.

Lemma runs_freed {A} (g : X -> Mem X) (o : KM (world X) A) w Q E E' : runs o w Q E' ->
  (forall e m x, E' e m x -> exists x' m', g x m = Some (x', m') /\ E e m' x') -> runs (freed_on_error g o) w Q E.
Proof.
  intros (r & w' & Eo & H1) HE. unfold runs, ends, freed_on_error, on_error. rewrite Eo. destruct r as [a|e]; [by eexists _, _|].
  destruct (HE _ _ _ H1) as (x' & m' & Eg & He). rewrite Eg. eexists _, _. by split.
Qed.
End calls.

Definition readable_characteristics (l : list Z) : Prop :=
  exists hs ss v1 v2 l', l = v1 ++ v2 ++ l' /\ set_bytes hs v1 /\ set_bytes ss v2.

Lemma set_owned_same h : set_owned no_params h h.
Proof. by left. Qed.

Section characteristics.
Context `{Allocator}.

Lemma runs_characteristics src p l m x : seen src p l -> size l < 2 ^ 32 -> fresh m -> (forall k n, calloc_ok k n = true) ->
  runs km_deserialize_characteristics (W src p l m x)
    (fun _ w => exists hs ss v1 v2 l' m1, l = v1 ++ v2 ++ l' /\ set_bytes hs v1 /\ set_bytes ss v2 /\
      denotes (hw_enforced (outs w)) hs m m1 /\ denotes (sw_enforced (outs w)) ss m1 (mem w) /\
      input w = view src (p + size (v1 ++ v2)) l')
    (fun e m' c => heap m' = heap m /\ c = {| hw_enforced := no_params; sw_enforced := no_params |} /\
      cause (readable_characteristics l) e).
Proof.
  intros Hs Hl Hm Hc. unfold km_deserialize_characteristics. eapply (runs_freed _ _ _ _ _
    (fun e m' c => (exists h1, set_owned (hw_enforced c) (heap m) h1 /\ set_owned (sw_enforced c) h1 (heap m')) /\ cause (readable_characteristics l) e)).
  2: { intros e m' c [(h1 & H1 & H2) He]. destruct (free_characteristics _ _ _ _ H1 H2) as (m2 & E2 & Eh). by eexists _, _. }
  apply runs_set_out, runs_set_out. eapply runs_bind.
  { eapply runs_weaken.
    - apply runs_on_field. by apply runs_set.
    - intros a w' H0. exact H0.
    - intros e m' c (s & [H1 H2] & ->). split; [by exists (heap m'); split; [|apply set_owned_same]|].
      eapply cause_weaken; [|exact H2]. intros (hs & ss & v1 & v2 & l' & -> & Hh & _). by exists hs, v1, (v2 ++ l'). }
  intros [] [ci m1 c] (s & (hs & v1 & l1 & -> & Hh & D1 & Ei & Hs1) & Ec). cbn [mem outs input] in *. subst ci c.
  destruct (denotes_fresh _ _ _ _ D1) as [F1 A1]. assert (Hl1 : size l1 < 2 ^ 32) by (rewrite size_app in Hl; pose proof (size_nonneg v1); lia).
  eapply runs_weaken.
  - apply runs_on_field. by apply (runs_set src (p + size v1) l1 m1).
  - intros [] [ci m2 c] (s2 & (ss & v2 & l2 & -> & H2 & D2 & Ei2 & _) & Ec). cbn [mem outs input] in *. subst ci c.
    exists hs, ss, v1, v2, l2, m1. by rewrite size_app, Z.add_assoc.
  - intros e m' c (s2 & [H2 He] & ->). split.
    + exists (heap m1). split; [|done]. destruct Hh as (_ & v & _ & Hv). by eapply denotes_owned.
    + eapply cause_weaken; [|exact He]. intros (hs' & ss & w1 & w2 & l' & E1 & Hh' & H2').
      destruct (set_bytes_inj _ _ _ _ _ _ Hh Hh' E1) as (_ & _ & ->). by exists ss, w2, l'.
Qed.
End characteristics.

(** ** Chains of certificates

    The function that takes an attestation apart, on any bytes. *)

(** ** Bytes of a chain *)

Definition encode_entry (c : list Z) : list Z := le 4 (size c) ++ c.
Definition good_entry (c : list Z) : Prop := 0 < size c < 2 ^ 32 /\ Forall is_byte c.
Definition encode_chain (cs : list (list Z)) : list Z := le 4 (size cs) ++ concat (map encode_entry cs).
Definition good_chain (cs : list (list Z)) : Prop := size cs < 2 ^ 32 /\ Forall good_entry cs.

Definition readable_entries (n : nat) (l : list Z) : Prop :=
  exists cs l', l = concat (map encode_entry cs) ++ l' /\ Forall good_entry cs /\ length cs = n.
Definition readable_chain (l : list Z) : Prop := exists cs l', l = encode_chain cs ++ l' /\ good_chain cs.

Lemma entry_inj c c' l l' : size c < 2 ^ 32 -> size c' < 2 ^ 32 -> encode_entry c ++ l = encode_entry c' ++ l' -> c = c' /\ l = l'.
Proof.
  unfold encode_entry, size. intros H H'. rewrite <- !app_assoc. intros E. apply (le_app_inj 4) in E as [E1 E2]; [|lia..].
  apply app_inj_1 in E2 as [-> ->]; [done|lia].
Qed.

(** An entry that is the next one. *)
Definition readable_entry (l : list Z) : Prop := exists c l', l = encode_entry c ++ l' /\ good_entry c.

Lemma readable_entries_head n l : readable_entries (Datatypes.S n) l -> readable_entry l.
Proof.
  intros (cs & l' & -> & H & Hn). destruct H as [|c cs Hc H]; [done|]. cbn [map concat]. rewrite <- app_assoc. by eexists _, _.
Qed.
Lemma readable_entries_tail n c l : good_entry c -> readable_entries (Datatypes.S n) (encode_entry c ++ l) -> readable_entries n l.
Proof.
  intros [Hc _] (cs & l' & E & H & Hn). destruct H as [|c' cs [Hc' _] H]; [done|]. cbn [map concat] in E. rewrite <- app_assoc in E.
  apply entry_inj in E as [_ ->]; [|lia..]. injection Hn as Hn. by exists cs, l'.
Qed.

Lemma readable_entry_length n l : 0 <= n < 2 ^ 32 -> readable_entry (le 4 n ++ l) -> 0 < n <= size l.
Proof.
  intros Hn (c & l' & E & [Hc _]). unfold encode_entry in E. rewrite <- app_assoc in E. apply (le_app_inj 4) in E as [-> ->]; [|lia..].
  rewrite size_app. pose proof (size_nonneg l'). lia.
Qed.

Section chain.
Context `{Allocator}.

Section entries.
Context {X : Type}.
Abbreviation K := (KM (world X)).
Implicit Types (m : memory) (x : X) (E : Z -> memory -> X -> Prop).

(** An entry and what it points to. *)
Definition points (b : keymaster_blob_t) (d : owned) : Prop := data b = fst d.
Definition shows (b : keymaster_blob_t) (d : owned) : Prop := points b d /\ data_length b = size (snd d).

Lemma runs_set_blob (f : unit -> K unit) g src p l m a pre b bs x Q E :
  runs (f tt) (W src p l (with_object m a (Blobs (pre ++ g b :: bs))) x) Q E ->
  runs (on_mem (set_blob (Some a) (size pre) g) ≫= f) (W src p l (with_object m a (Blobs (pre ++ b :: bs))) x) Q E.
Proof. intros Hf. eapply runs_mem; [apply set_blob_known|done]. Qed.

Lemma runs_deserialize_entry (f : unit -> K unit) src p l m a pre bs x Q E : seen src p l -> size l < 2 ^ 32 -> fresh m ->
  (a < allocations m)%nat ->
  (forall e b d m', points b d -> adds d m m' -> cause (readable_entry l) e -> E e (with_object m' a (Blobs (pre ++ b :: bs))) x) ->
  (forall b d l' m', l = encode_entry (snd d) ++ l' -> good_entry (snd d) -> shows b d -> adds d m m' ->
    seen src (p + size (encode_entry (snd d))) l' ->
    runs (f tt) (W src (p + size (encode_entry (snd d))) l' (with_object m' a (Blobs (pre ++ b :: bs))) x) Q E) ->
  runs (deserialize_entry (Some a) (size pre) ≫= f) (W src p l (with_object m a (Blobs (pre ++ zero_blob :: bs))) x) Q E.
Proof.
  intros Hs Hl Hm Ha HE HQ. unfold deserialize_entry. apply runs_assoc, runs_next_u32; [done|done| |].
  { intros H4. apply (HE _ _ (None, [])); [done|by apply adds_same|]. right. intros (c & l' & -> & _). unfold encode_entry in H4.
    rewrite !size_app, size_le in H4. pose proof (size_nonneg c). pose proof (size_nonneg l'). lia. }
  intros n l' -> Hn Hs'. assert (Hl' : size l' < 2 ^ 32) by (rewrite size_app in Hl; pose proof (size_nonneg (le 4 n)); lia).
  apply runs_assoc, runs_set_blob. apply runs_assoc, runs_true; intros H0.
  2: { apply (HE _ _ (None, [])); [done|by apply adds_same|]. right. intros Hr%readable_entry_length; [|done].
       apply negb_false_iff in H0. lia. }
  apply negb_true_iff in H0. apply runs_assoc. pose proof (malloc_next m a (Blobs (pre ++ {| data := None; data_length := n |} :: bs)) n Ha Hm ltac:(lia)) as Hk.
  cbv zeta in Hk. destruct (malloc_ok (allocations m) n) eqn:Em.
  - destruct Hk as (cs & Lc & Ek). eapply runs_mem; [exact Ek|]. apply runs_assoc, runs_set_blob. apply runs_assoc, runs_true; [intros _|done].
    apply runs_assoc, runs_remain.
    { intros Hr. apply (HE _ _ (Some (allocations m), cs)); [done|by apply adds_new|]. right. intros Hr2%readable_entry_length; [|done]. lia. }
    intros Hr. destruct (take_all l' (Z.to_nat n)) as (s & r & -> & Ls); [unfold size in *; lia|]. assert (Es : n = size s) by (unfold size; lia).
    rewrite Es. apply runs_assoc, runs_next_bytes; [done|lia|unfold size in *; lia|]. eapply runs_input; [by apply advance32_view|].
    destruct (seen_app _ _ _ _ Hs') as [(_ & Bs & _) Hs2]. fold (size s) in Hs2.
    assert (Ep : p + 4 + size s = p + size (encode_entry s)) by (unfold encode_entry; rewrite size_app, size_le; lia). rewrite Ep in *.
    apply (HQ _ (Some (allocations m), s)); cbn [snd].
    + unfold encode_entry. by rewrite <- app_assoc, <- Es.
    + split; [lia|done].
    + done.
    + by apply adds_new.
    + done.
  - eapply runs_mem; [exact Hk|]. apply runs_assoc, runs_set_blob. apply runs_assoc, runs_true; [done|intros _].
    apply (HE _ _ (None, [])); [done|by apply adds_failed|left; by split; [|by eexists _, _]].
Qed.

Lemma blobs_left n m : fresh m -> Forall2 points (replicate n zero_blob) (replicate n (None, [])) /\ adds_all (replicate n (None, [])) m m.
Proof.
  intros Hm. split.
  - induction n as [|n IH]; cbn [replicate]; constructor; [done|apply IH].
  - induction n as [|n IH]; cbn [replicate adds_all]; [done|]. exists m. by split; [apply adds_same|].
Qed.

Lemma runs_deserialize_entries (f : unit -> K unit) n src p l m a pre x Q E : seen src p l -> size l < 2 ^ 32 -> fresh m ->
  (a < allocations m)%nat ->
  (forall e bs ds m', Forall2 points bs ds -> length bs = n -> adds_all ds m m' -> cause (readable_entries n l) e ->
    E e (with_object m' a (Blobs (pre ++ bs))) x) ->
  (forall bs ds l' m', l = concat (map encode_entry (map snd ds)) ++ l' -> Forall good_entry (map snd ds) -> Forall2 shows bs ds ->
    length bs = n -> adds_all ds m m' -> seen src (p + size (concat (map encode_entry (map snd ds)))) l' ->
    runs (f tt) (W src (p + size (concat (map encode_entry (map snd ds)))) l' (with_object m' a (Blobs (pre ++ bs))) x) Q E) ->
  runs (deserialize_entries n (size pre) (Some a) ≫= f)
    (W src p l (with_object m a (Blobs (pre ++ replicate n zero_blob))) x) Q E.
Proof.
  revert f p l m pre. induction n as [|n IH]; intros f p l m pre Hs Hl Hm Ha HE HQ; cbn [deserialize_entries replicate].
  - apply runs_bind_ret. replace p with (p + size (@nil Z)) by (unfold size; simpl; lia).
    apply (HQ [] [] l); [done|constructor|constructor|done|done|]. unfold size. simpl. by rewrite Z.add_0_r.
  - apply runs_assoc. apply runs_deserialize_entry; [done|done|done|done| |].
    + intros e b d m' Hp Hd He. destruct (blobs_left n m' (adds_fresh _ _ _ Hd)) as [Z1 Z2].
      apply (HE _ (b :: replicate n zero_blob) (d :: replicate n (None, []))).
      * by constructor.
      * simpl. by rewrite length_replicate.
      * by exists m'.
      * by eapply cause_weaken; [apply readable_entries_head|].
    + intros b d l' m' -> Hg Hp Hd Hs'.
      assert (Hl' : size l' < 2 ^ 32) by (rewrite size_app in Hl; pose proof (size_nonneg (encode_entry (snd d))); lia).
      pose proof (adds_allocations _ _ _ Hd). rewrite (cons_middle b pre), app_assoc, <- size_snoc with (x := b).
      apply IH; [done|done|by eapply adds_fresh|lia| |].
      * intros e bs ds m2 Hr Hn H2 He. rewrite <- app_assoc. apply (HE _ (b :: bs) (d :: ds)).
        -- constructor; [by destruct Hp|done].
        -- simpl. by rewrite Hn.
        -- by exists m'.
        -- by eapply cause_weaken; [apply (readable_entries_tail _ (snd d))|].
      * intros bs ds l2 m2 -> Hb Hr Hn H2 Hs2. rewrite <- app_assoc. rewrite <- Z.add_assoc, <- size_app in *.
        apply (HQ (b :: bs) (d :: ds)); [by cbn [map concat]; rewrite <- app_assoc|by constructor|by constructor|by simpl; rewrite Hn|by exists m'|done].
Qed.
End entries.

(** A chain in memory: its objects are new. *)
Definition denotes_chain (c : keymaster_cert_chain_t) (cs : list (list Z)) (m m' : memory) : Prop :=
  (cs = [] /\ entries c = None /\ entry_count c = 0 /\ heap m' = heap m) \/
  (exists a bs ds m1 m2, entries c = Some a /\ entry_count c = size bs /\ Forall2 shows bs ds /\ map snd ds = cs /\
    adds_all ds m1 m2 /\ heap m1 = heap m /\ heap m !! a = None /\ (allocations m <= a < allocations m1)%nat /\
    m' = with_object m2 a (Blobs bs)).

Lemma runs_attestation src p l m x : seen src p l -> size l < 2 ^ 32 -> fresh m -> (forall k n, calloc_ok k n = true) ->
  runs km_deserialize_attestation (W src p l m x)
    (fun _ w => exists cs l', l = encode_chain cs ++ l' /\ good_chain cs /\ denotes_chain (outs w) cs m (mem w) /\
      input w = view src (p + size (encode_chain cs)) l')
    (fun e m' c => heap m' = heap m /\ c = {| entries := None; entry_count := 0 |} /\ cause (readable_chain l) e).
Proof.
  intros Hs Hl Hm Hc. unfold km_deserialize_attestation. eapply (runs_freed _ _ _ _ _
    (fun e m' c => chain_owned c (heap m) (heap m') /\ cause (readable_chain l) e)).
  2: { intros e m' c [H1 He]. destruct (free_chain _ _ _ H1) as (m2 & E2 & Eh). by eexists _, _. }
  apply runs_set_out, runs_set_out. apply runs_last, runs_assoc, runs_next_u32; [done|done| |].
  { intros H4. split; [by left|]. right. intros (cs & l' & -> & _). unfold encode_chain in H4.
    rewrite !size_app, size_le in H4. pose proof (size_nonneg (concat (map encode_entry cs))). pose proof (size_nonneg l'). lia. }
  intros n l' -> Hn Hs'. apply runs_assoc, runs_set_out. destruct (Z.eqb_spec n 0) as [->|H0].
  - apply runs_set_out, runs_ret. exists [], l'. split_and?; [done|by split; [|constructor]|by left|done].
  - apply runs_assoc. unfold calloc_blobs, allocate. cbv zeta.
    eapply (runs_mem _ _ _ _ _ (Some (allocations m)) (with_object (allocated m) (allocations m) (Blobs (replicate (Z.to_nat n) zero_blob)))).
    { by rewrite Hc. }
    apply runs_assoc, runs_set_out. apply runs_assoc, runs_true; [intros _|done].
    assert (Hl' : size l' < 2 ^ 32) by (rewrite size_app in Hl; pose proof (size_nonneg (le 4 n)); lia).
    pose proof (adds_failed m Hm) as (_ & Hf & _).
    apply (runs_deserialize_entries _ _ _ _ _ (allocated m) _ []); [done|done|done|cbn; lia| |].
    + intros e bs ds m' Hr Ln Hd He. split.
      * right. destruct (adds_all_facts _ _ _ Hd) as (_ & _ & Hk). exists (allocations m), bs, ds, (heap m').
        split_and!; [done|unfold size; cbn; lia|done|by apply (adds_all_holds _ (allocated m))|rewrite Hk by (cbn; lia); by apply Hm|done].
      * eapply cause_weaken; [|exact He]. intros (cs & l2 & E1 & Rc & Hcs). unfold encode_chain in E1. rewrite <- app_assoc in E1.
        apply (le_app_inj 4) in E1 as [-> ->]; [|done|unfold size in *; lia]. exists cs, l2. split_and!; [done|done|unfold size; lia].
    + intros bs ds l2 m' -> Hb Hr Ln Hd Hs2. apply runs_ret. exists (map snd ds), l2.
      assert (Lx : n = size (map snd ds)) by (pose proof (Forall2_length _ _ _ Hr); unfold size, owned in *; rewrite length_map; lia).
      unfold encode_chain. rewrite <- Lx. split_and?.
      * by rewrite app_assoc.
      * split; [lia|done].
      * right. exists (allocations m), bs, ds, (allocated m), m'. split_and!; [done|unfold size; cbn; lia|done|done|done|done|by apply Hm|cbn; lia|cbn; lia|done].
      * cbn [input W]. by rewrite size_app, size_le, Z.add_assoc.
Qed.
End chain.
