(* ===== verification/KmWrite.v ===== *)
(** * Keys of the TEE: writing parameters

    The bytes that the second loop of [km_serialize_params] appends to its buffer, and the
    size that the first loop gives: the buffer is filled exactly, unless the size does not
    fit into 32 bits. *)

From S2P Require Import Prelude Effects KmTags KmBytes KmDer KmHeap KmDecode KmSteps KmImport KmSerial KmParams KmAnswers.
(** ** Writing to the end of what was written *)

Lemma set_le_outside n i k off val m bs : heap m !! k = Some (Bytes bs) -> size bs < off + i + Z.of_nat n -> (0 < n)%nat ->
  set_le n i (Some k) off val m = None.
Proof.
  revert m i bs. induction n as [|n IH]; intros m i bs E Hl Hn; [lia|]. cbn [set_le]. set (b := [_]).
  destruct (store (Some k) (off + i) b m) as [[[] m1]|] eqn:Es; [|unfold mbind, ST_bind; by rewrite Es].
  rewrite (bind_some _ _ _ _ _ Es). unfold store in Es. rewrite (bind_some _ _ _ _ _ (object_at_known _ _ _ E)) in Es.
  destruct ((0 <=? off + i) && (off + i + Z.of_nat (length b) <=? Z.of_nat (length bs))) eqn:Eb; [|discriminate Es].
  apply andb_true_iff in Eb as [E1%Z.leb_le E2%Z.leb_le]. cbn [length b] in E2. injection Es as <-. unfold size in *.
  destruct n as [|n]; [lia|]. eapply IH; [apply with_object_lookup| |lia].
  unfold size. rewrite length_app. cbn [length]. rewrite length_take, length_drop. lia.
Qed.

Lemma store_outside k off s m bs : heap m !! k = Some (Bytes bs) -> size bs < off + size s -> store (Some k) off s m = None.
Proof.
  intros E Hl. unfold store. rewrite (bind_some _ _ _ _ _ (object_at_known _ _ _ E)). unfold size in *.
  replace (off + _ <=? _) with false by (symmetry; apply Z.leb_gt; lia). by rewrite andb_false_r.
Qed.

Section appends.
Context {X : Type}.

(** [o] is called with the position behind what was written to the object [k], and appends [w]. *)
Definition appends (m : memory) (k : nat) (o : Z -> KM (world X) Z) (w : list Z) : Prop :=
  forall pre rest c x, o (size pre) {| input := c; mem := with_bytes m k (pre ++ rest); outs := x |} =
    if size w <=? size rest
    then Some (Done (size (pre ++ w)), {| input := c; mem := with_bytes m k (pre ++ w ++ drop (length w) rest); outs := x |})
    else None.

Lemma appends_nothing m k : appends m k (fun pos => mret pos) [].
Proof.
  intros pre rest c x. rewrite app_nil_r. cbn [app length drop]. by replace (size [] <=? size rest) with true
    by (symmetry; apply Z.leb_le; apply size_nonneg).
Qed.

Lemma appends_bind m k o o' w w' : appends m k o w -> appends m k o' w' -> appends m k (fun pos => pos ← o pos; o' pos) (w ++ w').
Proof.
  intros H1 H2 pre rest c x. unfold mbind, KM_bind. rewrite H1. rewrite (size_app w w'). pose proof (size_nonneg w'). pose proof (size_nonneg w).
  destruct (Z.leb_spec (size w) (size rest)) as [L|L].
  - specialize (H2 (pre ++ w) (drop (length w) rest) c x). rewrite <- app_assoc in H2. cbv beta iota. rewrite H2.
    assert (size (drop (length w) rest) = size rest - size w) as -> by (unfold size in *; rewrite length_drop; lia).
    destruct (Z.leb_spec (size w') (size rest - size w)), (Z.leb_spec (size w + size w') (size rest)); try lia; [|done].
    by rewrite !length_app, drop_drop, <- !app_assoc.
  - by destruct (Z.leb_spec (size w + size w') (size rest)); [lia|].
Qed.

Lemma appends_eq m k o o' w : (forall pos c rest x, o pos {| input := c; mem := with_bytes m k rest; outs := x |} =
  o' pos {| input := c; mem := with_bytes m k rest; outs := x |}) -> appends m k o' w -> appends m k o w.
Proof. intros E H pre rest c x. rewrite E. apply H. Qed.

Lemma appends_mem m k (o : Z -> Mem Z) w :
  (forall pre r rest, size r = size w -> o (size pre) (with_bytes m k (pre ++ r ++ rest)) = Some (size (pre ++ w), with_bytes m k (pre ++ w ++ rest))) ->
  (forall pre rest, size rest < size w -> o (size pre) (with_bytes m k (pre ++ rest)) = None) ->
  appends m k (fun pos => on_mem (o pos)) w.
Proof.
  intros H1 H2 pre rest c x. unfold on_mem, lift, zoom. cbn [mem]. destruct (Z.leb_spec (size w) (size rest)) as [L|L].
  - rewrite <- (take_drop (length w) rest) at 1. rewrite H1; [done|]. unfold size in *. rewrite length_take. lia.
  - by rewrite H2.
Qed.

Lemma appends_u32 m k v : appends m k (fun pos => on_mem (set_u32_increment_pos (Some k) pos v)) (le 4 v).
Proof.
  apply appends_mem.
  - intros pre r rest Hr. unfold set_u32_increment_pos. unfold size in Hr. rewrite length_le in Hr.
    rewrite (bind_some _ _ _ tt _ (set_u32_known _ _ pre r rest _ v (with_object_lookup _ _ _) eq_refl ltac:(lia))).
    by rewrite object_twice, size_app, size_le.
  - intros pre rest Hr. unfold set_u32_increment_pos, set_u32, mbind, ST_bind. rewrite size_le in Hr.
    rewrite (set_le_outside 4 0 k _ _ _ (pre ++ rest)); [done|apply with_object_lookup|rewrite size_app; lia|lia].
Qed.

Lemma appends_u64 m k v : appends m k (fun pos => on_mem (set_u64_increment_pos (Some k) pos v)) (le 8 v).
Proof.
  apply appends_mem.
  - intros pre r rest Hr. unfold set_u64_increment_pos. unfold size in Hr. rewrite length_le in Hr.
    rewrite (bind_some _ _ _ tt _ (set_u64_known _ _ pre r rest _ v (with_object_lookup _ _ _) eq_refl ltac:(lia))).
    by rewrite object_twice, size_app, size_le.
  - intros pre rest Hr. unfold set_u64_increment_pos, set_u64, mbind, ST_bind. rewrite size_le in Hr.
    rewrite (set_le_outside 8 0 k _ _ _ (pre ++ rest)); [done|apply with_object_lookup|rewrite size_app; lia|lia].
Qed.

Lemma appends_data m k s : appends m k (fun pos => on_mem (set_data_increment_pos (Some k) pos s)) s.
Proof.
  apply appends_mem.
  - intros pre r rest Hr. unfold set_data_increment_pos.
    rewrite (bind_some _ _ _ tt _ (store_known _ _ pre r rest s _ (with_object_lookup _ _ _) eq_refl ltac:(unfold size in *; lia))).
    by rewrite object_twice, size_app.
  - intros pre rest Hr. unfold set_data_increment_pos, mbind, ST_bind.
    rewrite (store_outside _ _ _ _ (pre ++ rest)); [done|apply with_object_lookup|rewrite size_app; lia].
Qed.

(** ** Parameters that are written *)

(** A parameter in memory, with its value; that of a parameter that is left out does not
    matter. *)
Definition stands (m : memory) (p : keymaster_key_param_t) (v : param_val) : Prop :=
  match v with
  | U32 z => as_u32 (value p) = Some z
  | Bool b => as_bool (value p) = Some b
  | U64 z => as_u64 (value p) = Some z
  | Blob l => exists b, as_blob (value p) = Some b /\ data_length b = size l /\
      (l <> [] -> exists n r, data b = Some n /\ heap m !! n = Some (Bytes (l ++ r)))
  end.
Definition stands_for (m : memory) (p : keymaster_key_param_t) (a : param) : Prop :=
  tag p = fst a /\ (km_is_tag_known (fst a) = true -> good_param a /\ stands m p (snd a)).

(** What is written of a parameter. *)
Definition kept (a : param) : bool := km_is_tag_known (fst a).
Definition written (a : param) : list Z := if kept a then encode_param a else [].

(** The labels of both loops. *)
Lemma labels t s : storage_of t = Some s ->
  match s with
  | In32 => tag_among t [KM_ENUM; KM_ENUM_REP] = true \/
      (tag_among t [KM_ENUM; KM_ENUM_REP] = false /\ tag_among t [KM_UINT; KM_UINT_REP] = true)
  | InBool => tag_among t [KM_ENUM; KM_ENUM_REP] = false /\ tag_among t [KM_UINT; KM_UINT_REP] = false /\ tag_among t [KM_BOOL] = true
  | In64 => tag_among t [KM_ENUM; KM_ENUM_REP] = false /\ tag_among t [KM_UINT; KM_UINT_REP] = false /\ tag_among t [KM_BOOL] = false /\
      (tag_among t [KM_ULONG; KM_ULONG_REP] = true \/ (tag_among t [KM_ULONG; KM_ULONG_REP] = false /\ tag_among t [KM_DATE] = true))
  | InBytes => tag_among t [KM_ENUM; KM_ENUM_REP] = false /\ tag_among t [KM_UINT; KM_UINT_REP] = false /\ tag_among t [KM_BOOL] = false /\
      tag_among t [KM_ULONG; KM_ULONG_REP] = false /\ tag_among t [KM_DATE] = false /\ tag_among t [KM_BIGNUM; KM_BYTES] = true
  end.
Proof.
  intros H%storage_type. unfold tag_among. revert H. generalize (keymaster_tag_get_type t) as ty. intros ty H.
  repeat (apply elem_of_cons in H as [[= -> ->]|H];
    [first [split_and!; vm_compute; reflexivity|left; vm_compute; reflexivity|right; split_and!; vm_compute; reflexivity
      |split_and?; [..|left; vm_compute; reflexivity]; vm_compute; reflexivity
      |split_and?; [..|right; split; vm_compute; reflexivity]; vm_compute; reflexivity]|]).
  by apply elem_of_nil in H.
Qed.

Lemma appends_member {T} m k p (f : param_value -> option T) z (o : T -> Z -> KM (world X) Z) w : f (value p) = Some z ->
  appends m k (o z) w -> appends m k (fun pos => z ← member f p; o z pos) w.
Proof. intros E H. eapply appends_eq; [|exact H]. intros. unfold member. by rewrite E. Qed.

Lemma appends_param m k p a : stands_for m p a -> heap m !! k = None ->
  appends m k (fun pos => write_param (Some k) pos p) (written a).
Proof.
  intros [Et Hk] Hn. unfold written, kept, write_param. rewrite Et. destruct (km_is_tag_known (fst a)) eqn:Ek; cbn [negb]; [|apply appends_nothing].
  destruct (Hk eq_refl) as [(_ & Hs & Hr) Hv]. unfold encode_param. apply appends_bind; [apply appends_u32|].
  apply labels in Hs. destruct (snd a) as [z|b|z|l]; cbn [storage_of_val stands encode_val in_range] in *.
  - destruct Hs as [->|[-> ->]]; (eapply (appends_member _ _ _ _ _ (fun z pos => on_mem (set_u32_increment_pos (Some k) pos z))); [exact Hv|apply appends_u32]).
  - destruct Hs as (-> & -> & ->).
    eapply (appends_member _ _ _ _ _ (fun (x : bool) pos => on_mem (set_u32_increment_pos (Some k) pos (if x then 1 else 0)))); [exact Hv|apply appends_u32].
  - destruct Hs as (-> & -> & -> & [->|[-> ->]]);
      (eapply (appends_member _ _ _ _ _ (fun z pos => on_mem (set_u64_increment_pos (Some k) pos z))); [exact Hv|apply appends_u64]).
  - destruct Hs as (-> & -> & -> & -> & -> & ->). destruct Hv as (b & Eb & El & Hl).
    eapply (appends_member _ _ _ _ _ (fun x pos => pos ← on_mem (set_u32_increment_pos (Some k) pos (data_length x));
      l ← on_mem (load (data x) 0 (u32 (data_length x))); on_mem (set_data_increment_pos (Some k) pos l))); [exact Eb|].
    rewrite El. apply appends_bind; [apply appends_u32|]. eapply appends_eq; [|apply appends_data]. intros pos c rest x.
    rewrite u32_small by (pose proof (size_nonneg l); lia). unfold load. destruct (Z.eqb_spec (size l) 0) as [E0|E0].
    + by destruct l; [|unfold size in E0; simpl in E0; lia].
    + destruct (Hl ltac:(by destruct l)) as (n & r & Ed & En). unfold mbind at 1, KM_bind at 1, on_mem at 1, lift, zoom. cbn [mem].
      rewrite Ed. assert (En' : heap (with_bytes m k rest) !! n = Some (Bytes (l ++ r))) by (cbn; rewrite lookup_insert_ne by congruence; done).
      rewrite (bind_some _ _ _ _ _ (object_at_known _ _ _ En')).
      replace (_ && _) with true by (symmetry; unfold size; rewrite !andb_true_iff, !Z.leb_le, length_app; lia).
      change (drop (Z.to_nat 0) (l ++ r)) with (l ++ r). unfold size. rewrite Nat2Z.id. rewrite take_app_length. done.
Qed.

Lemma appends_params n m k i ar ps as_ : heap m !! k = None -> heap m !! ar = Some (Params ps) ->
  Forall2 (stands_for m) (drop i ps) as_ -> (i + n = length ps)%nat ->
  appends m k (fun pos => write_params n (Z.of_nat i) (Some ar) (Some k) pos) (concat (map written as_)).
Proof.
  revert i as_. induction n as [|n IH]; intros i as_ Hk Har Hps Hl; cbn [write_params].
  - rewrite drop_ge in Hps by lia. inversion Hps; subst. apply appends_nothing.
  - destruct (lookup_lt_is_Some_2 ps i) as [p Ep]; [lia|]. rewrite (drop_S _ _ _ Ep) in Hps. inversion Hps as [|? a ? as2 Ha Hps2]; subst.
    cbn [map concat]. eapply appends_eq; [|apply (appends_bind _ _ (fun pos => write_param (Some k) pos p)
      (fun pos => write_params n (Z.of_nat (Datatypes.S i)) (Some ar) (Some k) pos)); [by apply appends_param|by apply (IH (Datatypes.S i)); [..|lia]]].
    intros pos c rest x. unfold mbind at 1, KM_bind at 1, on_mem at 1, lift, zoom. cbn [mem].
    assert (Har' : heap (with_bytes m k rest) !! ar = Some (Params ps)) by (cbn; rewrite lookup_insert_ne by congruence; done).
    unfold param_at at 1. rewrite (bind_some _ _ _ _ _ (object_at_known _ _ _ Har')). rewrite Nat2Z.id, Ep.
    replace (0 <=? Z.of_nat i) with true by (symmetry; apply Z.leb_le; lia). replace (Z.of_nat i + 1) with (Z.of_nat (Datatypes.S i)) by lia. done.
Qed.
End appends.

(** ** The size of what is written

    [km_serialize_params]: the first loop gives the size of what the second writes, modulo
    2^32. *)

(** ** The first loop *)

Definition has_tag (t : Z) (as_ : list param) : bool := existsb (fun a => fst a =? t) as_.
Definition kept_params (as_ : list param) : list param := List.filter kept as_.

Lemma u32_add a b : u32 (u32 a + b) = u32 (a + b).
Proof. unfold u32. by rewrite Z.add_mod_idemp_l. Qed.

Lemma concat_written as_ : concat (map written as_) = concat (map encode_param (kept_params as_)).
Proof.
  induction as_ as [|a as_ IH]; [done|]. cbn [map concat kept_params List.filter]. rewrite IH. unfold written.
  by destruct (kept a).
Qed.

(** The totals, after some parameters. *)
Definition after (as_ : list param) (t : totals) : totals := {|
  total_size := u32 (total_size t + size (concat (map written as_)));
  key_size_present := key_size_present t || has_tag KM_TAG_KEY_SIZE (kept_params as_);
  rsa_pubexp_present := rsa_pubexp_present t || has_tag KM_TAG_RSA_PUBLIC_EXPONENT (kept_params as_);
  n_serialized_params := u32 (n_serialized_params t + size (kept_params as_)) |}.

Definition small (t : totals) : Prop := 0 <= total_size t < 2 ^ 32 /\ 0 <= n_serialized_params t < 2 ^ 32.

Lemma after_nothing t : small t -> after [] t = t.
Proof.
  intros [H1 H2]. destruct t as [s k r n]. unfold after, size. cbn [total_size key_size_present rsa_pubexp_present n_serialized_params] in *.
  cbn [kept_params List.filter has_tag existsb concat map length Z.of_nat]. rewrite !orb_false_r, !Z.add_0_r, !u32_small by done. done.
Qed.

Lemma kept_cons a as_ : kept_params (a :: as_) = kept_params [a] ++ kept_params as_.
Proof. unfold kept_params. cbn [List.filter]. by destruct (kept a). Qed.

Lemma after_cons a as_ t : after as_ (after [a] t) = after (a :: as_) t.
Proof.
  unfold after. cbn [total_size key_size_present rsa_pubexp_present n_serialized_params]. rewrite (kept_cons a as_). unfold has_tag.
  rewrite !u32_add, !existsb_app, !orb_assoc, <- !Z.add_assoc. change (a :: as_) with ([a] ++ as_). by rewrite map_app, concat_app, !size_app.
Qed.

Lemma after_small as_ t : small (after as_ t).
Proof. split; apply u32_range. Qed.

Lemma size_param t v : size (encode_param (t, v)) =
  4 + match v with U32 _ | Bool _ => 4 | U64 _ => 8 | Blob l => 4 + size l end.
Proof. unfold encode_param. cbn [fst snd]. rewrite size_app, size_le. by rewrite (val_size v) by apply bytes_encode. Qed.

Lemma sizes_labels t s : storage_of t = Some s ->
  tag_among t [KM_ENUM; KM_ENUM_REP; KM_UINT; KM_UINT_REP; KM_BOOL] = (match s with In32 | InBool => true | _ => false end) /\
  tag_among t [KM_ULONG; KM_DATE; KM_ULONG_REP] = (match s with In64 => true | _ => false end) /\
  tag_among t [KM_BIGNUM; KM_BYTES] = (match s with InBytes => true | _ => false end).
Proof.
  intros H%storage_type. unfold tag_among. revert H. generalize (keymaster_tag_get_type t) as ty. intros ty H.
  repeat (apply elem_of_cons in H as [[= -> ->]|H]; [split_and!; vm_compute; reflexivity|]). by apply elem_of_nil in H.
Qed.

Lemma count_param_after {X} m p a t (w : world X) : stands_for m p a -> small t -> count_param p t w = Some (Done (after [a] t), w).
Proof.
  intros [Et Hk] Ht. unfold count_param. rewrite Et. assert (Ew : written a = if km_is_tag_known (fst a) then encode_param a else []) by done.
  assert (Ek : kept_params [a] = if km_is_tag_known (fst a) then [a] else []) by done.
  unfold after. cbn [map concat]. rewrite app_nil_r, Ew, Ek. destruct a as [ta v]. cbn [fst snd] in *. destruct (km_is_tag_known ta); cbn [negb].
  2: { destruct Ht as [H1 H2]. destruct t as [s k r n]. unfold size. cbn [total_size key_size_present rsa_pubexp_present n_serialized_params] in *.
       cbn [has_tag existsb length Z.of_nat]. rewrite !orb_false_r, !Z.add_0_r, !u32_small by done. done. }
  destruct (Hk eq_refl) as [(_ & Hs & _) Hv]. cbn [fst snd] in *. destruct (sizes_labels _ _ Hs) as (-> & -> & ->). rewrite size_param.
  cbn [has_tag existsb]. rewrite !orb_false_r. unfold size at 2. cbn [length fst]. change (Z.of_nat 1) with 1.
  destruct t as [s k r n]. cbn [total_size key_size_present rsa_pubexp_present n_serialized_params].
  destruct v as [z|b|z|l]; cbn [storage_of_val stands fst] in *.
  4: destruct Hv as (b & Eb & El & _).
  all: unfold member, add_size, mbind, KM_bind; rewrite ?Eb, ?El; cbn;
    rewrite ?u32_add; destruct (Z.eqb_spec ta KM_TAG_KEY_SIZE) as [E1|_], (Z.eqb_spec ta KM_TAG_RSA_PUBLIC_EXPONENT) as [E2|_];
    [by rewrite E1 in E2| | |]; unfold mret, KM_ret; cbn; rewrite ?orb_true_r, ?orb_false_r, ?u32_add; unfold assigned; cbn; by rewrite ?El, ?u32_add, <- ?Z.add_assoc, ?u32_add, <- ?Z.add_assoc.
Qed.

Lemma count_params_after {X} n m i ar ps as_ t (w : world X) : mem w = m -> heap m !! ar = Some (Params ps) ->
  Forall2 (stands_for m) (drop i ps) as_ -> (i + n = length ps)%nat -> small t ->
  count_params n (Z.of_nat i) (Some ar) t w = Some (Done (after as_ t), w).
Proof.
  intros Em Har. revert i as_ t. induction n as [|n IH]; intros i as_ t Hps Hl Ht; cbn [count_params].
  - rewrite drop_ge in Hps by lia. inversion Hps; subst. by rewrite after_nothing.
  - destruct (lookup_lt_is_Some_2 ps i) as [p Ep]; [lia|]. rewrite (drop_S _ _ _ Ep) in Hps. inversion Hps as [|? a ? as2 Ha Hps2]; subst.
    unfold mbind, KM_bind, on_mem, lift, zoom, param_at. rewrite (bind_some _ _ _ _ _ (object_at_known _ _ _ Har)). rewrite Nat2Z.id, Ep.
    replace (0 <=? Z.of_nat i) with true by (symmetry; apply Z.leb_le; lia). cbn [mret ST_ret].
    destruct w as [c m x]. cbn. rewrite (count_param_after m p a) by done.
    replace (Z.of_nat i + 1) with (Z.of_nat (Datatypes.S i)) by lia. rewrite <- (after_cons a as2). apply IH; [done|lia|apply after_small].
Qed.

(** ** The call *)

(** A set in memory, or a null pointer. *)
Definition set_stands (m : memory) (s : option keymaster_key_param_set_t) (as_ : list param) : Prop :=
  size as_ < 2 ^ 32 /\
  match s with
  | None => as_ = []
  | Some s => length_ s = size as_ /\
      (as_ = [] \/ exists ar ps, params s = Some ar /\ heap m !! ar = Some (Params ps) /\ Forall2 (stands_for m) ps as_)
  end.

(** The parameters that are written: the known ones, with the size and the exponent if they are not there. *)
Definition extras (as_ : list param) (key_size rsa_pubexp : Z) : list param :=
  (if negb (key_size =? 0) && negb (has_tag KM_TAG_KEY_SIZE as_) then [(KM_TAG_KEY_SIZE, U32 key_size)] else []) ++
  (if negb (rsa_pubexp =? 0) && negb (has_tag KM_TAG_RSA_PUBLIC_EXPONENT as_) then [(KM_TAG_RSA_PUBLIC_EXPONENT, U64 rsa_pubexp)] else []).
Definition sent (as_ : list param) (key_size rsa_pubexp : Z) : list param :=
  kept_params as_ ++ extras (kept_params as_) key_size rsa_pubexp.

Lemma set_stands_array m s as_ : set_stands m s as_ -> as_ <> [] ->
  exists s' ar ps, s = Some s' /\ params s' = Some ar /\ heap m !! ar = Some (Params ps) /\ Forall2 (stands_for m) ps as_ /\ length_ s' = size as_.
Proof.
  intros [_ H] Hn. destruct s as [s|]; [|done]. destruct H as [Hl [H|(ar & ps & Hp & Har & Hps)]]; [done|]. by exists s, ar, ps.
Qed.

Lemma set_count m s as_ : set_stands m s as_ -> Z.to_nat (match s with Some s => u32 (length_ s) | None => 0 end) = length as_.
Proof.
  intros [Hb H]. destruct s as [s|]; [|by subst as_]. destruct H as [-> _]. unfold size in *. rewrite u32_small by lia. lia.
Qed.

Section send.
Context `{Allocator}.
Abbreviation array s := (match s with Some s => params s | None => None end).

Lemma count_set {X} m s as_ t (w : world X) : mem w = m -> set_stands m s as_ -> small t ->
  count_params (length as_) 0 (array s) t w = Some (Done (after as_ t), w).
Proof.
  intros Em H0 Ht. destruct (decide (as_ = [])) as [->|Hn]; [by rewrite after_nothing|].
  destruct (set_stands_array _ _ _ H0 Hn) as (s' & ar & ps & -> & -> & Har & Hps & _). rewrite <- (Forall2_length _ _ _ Hps).
  by apply (count_params_after _ m 0 ar ps).
Qed.

Lemma appends_set {X} m k s as_ : set_stands m s as_ -> heap m !! k = None ->
  appends (X := X) m k (fun pos => write_params (length as_) 0 (array s) (Some k) pos) (concat (map encode_param (kept_params as_))).
Proof.
  intros H0 Hk. rewrite <- concat_written. destruct (decide (as_ = [])) as [->|Hn]; [apply appends_nothing|].
  destruct (set_stands_array _ _ _ H0 Hn) as (s' & ar & ps & -> & -> & Har & Hps & _). rewrite <- (Forall2_length _ _ _ Hps).
  by apply (appends_params _ m k 0 ar ps).
Qed.

(** What is written to the new buffer, from its start. *)
Definition fill {X} (k : nat) (n_params : nat) (a : ptr) (n : Z) (add_key_size add_rsa_pubexp : bool) (key_size rsa_pubexp : Z)
    (pos : Z) : KM (world X) Z :=
  pos ← on_mem (set_u32_increment_pos (Some k) pos n);
  pos ← write_params n_params 0 a (Some k) pos;
  pos ← (if add_key_size then
           pos ← on_mem (set_u32_increment_pos (Some k) pos KM_TAG_KEY_SIZE);
           on_mem (set_u32_increment_pos (Some k) pos key_size)
         else mret pos);
  if add_rsa_pubexp then
    pos ← on_mem (set_u32_increment_pos (Some k) pos KM_TAG_RSA_PUBLIC_EXPONENT);
    on_mem (set_u64_increment_pos (Some k) pos rsa_pubexp)
  else mret pos.

Lemma appends_fill {X} m k s as_ n ks re : set_stands m s as_ -> heap m !! k = None ->
  appends (X := X) m k (fill k (length as_) (array s) n (negb (ks =? 0) && negb (has_tag KM_TAG_KEY_SIZE (kept_params as_)))
    (negb (re =? 0) && negb (has_tag KM_TAG_RSA_PUBLIC_EXPONENT (kept_params as_))) ks re)
    (le 4 n ++ concat (map encode_param (sent as_ ks re))).
Proof.
  intros H0 Hk. unfold fill, sent, extras. rewrite !map_app, !concat_app.
  repeat (apply (appends_bind m k); [|]).
  - apply appends_u32.
  - by apply appends_set.
  - destruct (_ && _); [|apply appends_nothing]. cbn [map concat]. rewrite app_nil_r.
    apply (appends_bind m k (fun pos => on_mem (set_u32_increment_pos (Some k) pos KM_TAG_KEY_SIZE)) (fun pos => on_mem (set_u32_increment_pos (Some k) pos ks)));
      apply appends_u32.
  - destruct (_ && _); [|apply appends_nothing]. cbn [map concat]. rewrite app_nil_r.
    apply (appends_bind m k (fun pos => on_mem (set_u32_increment_pos (Some k) pos KM_TAG_RSA_PUBLIC_EXPONENT)) (fun pos => on_mem (set_u64_increment_pos (Some k) pos re)));
      [apply appends_u32|apply appends_u64].
Qed.

Lemma after_start as_ : after as_ {| total_size := 4; key_size_present := false; rsa_pubexp_present := false; n_serialized_params := 0 |} =
  {| total_size := u32 (4 + size (concat (map encode_param (kept_params as_))));
     key_size_present := has_tag KM_TAG_KEY_SIZE (kept_params as_);
     rsa_pubexp_present := has_tag KM_TAG_RSA_PUBLIC_EXPONENT (kept_params as_);
     n_serialized_params := u32 (size (kept_params as_)) |}.
Proof. unfold after. cbn [total_size key_size_present rsa_pubexp_present n_serialized_params]. by rewrite concat_written. Qed.

Lemma size_sent as_ ks re : size (encode_set (sent as_ ks re)) =
  4 + size (concat (map encode_param (kept_params as_))) +
    (if negb (ks =? 0) && negb (has_tag KM_TAG_KEY_SIZE (kept_params as_)) then 8 else 0) +
    (if negb (re =? 0) && negb (has_tag KM_TAG_RSA_PUBLIC_EXPONENT (kept_params as_)) then 12 else 0).
Proof.
  unfold encode_set, sent, extras. rewrite !map_app, !concat_app, !size_app, size_le.
  assert (forall (b : bool) (a : param), size (concat (map encode_param (if b then [a] else []))) = if b then size (encode_param a) else 0) as E
    by (intros [] a; [cbn [map concat]; by rewrite app_nil_r|done]).
  rewrite !E, !size_param. destruct (_ && _), (_ && _); lia.
Qed.

Lemma count_sent as_ ks re : size (sent as_ ks re) = size (kept_params as_) +
    (if negb (ks =? 0) && negb (has_tag KM_TAG_KEY_SIZE (kept_params as_)) then 1 else 0) +
    (if negb (re =? 0) && negb (has_tag KM_TAG_RSA_PUBLIC_EXPONENT (kept_params as_)) then 1 else 0).
Proof. unfold sent, extras. rewrite !size_app. destruct (_ && _), (_ && _); unfold size; simpl; lia. Qed.

Lemma le_u32 a b : u32 a = u32 b -> le 4 a = le 4 b.
Proof. intros E. rewrite <- (le_mod 4 a), <- (le_mod 4 b). unfold u32 in E. by change (8 * Z.of_nat 4) with 32; rewrite E. Qed.

(** The steps that do not fail. *)
Lemma step_mem {X A B} (o : Mem A) (k : A -> KM (world X) B) c m x a m' : o m = Some (a, m') ->
  (on_mem o ≫= k) {| input := c; mem := m; outs := x |} = k a {| input := c; mem := m'; outs := x |}.
Proof. intros E. unfold mbind, KM_bind, on_mem, lift, zoom. cbn [mem]. by rewrite E. Qed.
Lemma step_set {X T B} (f : X -> T) `{Assign X T f} v (k : unit -> KM (world X) B) c m x :
  (set_out f v ≫= k) {| input := c; mem := m; outs := x |} = k tt {| input := c; mem := m; outs := assigned f v x |}.
Proof. done. Qed.
Lemma step_out {X T B} (f : X -> T) (k : T -> KM (world X) B) c m x :
  (out f ≫= k) {| input := c; mem := m; outs := x |} = k (f x) {| input := c; mem := m; outs := x |}.
Proof. done. Qed.
Lemma step_true {S B} e (k : unit -> KM S B) w : (CHECK_TRUE e true ≫= k) w = k tt w.
Proof. done. Qed.

Lemma fill_ends {X} k l a n (b1 b2 : bool) ks re (w : world X) :
  (pos ← on_mem (set_u32_increment_pos (Some k) 0 n);
   pos ← write_params l 0 a (Some k) pos;
   pos ← (if b1 then
            pos ← on_mem (set_u32_increment_pos (Some k) pos KM_TAG_KEY_SIZE);
            on_mem (set_u32_increment_pos (Some k) pos ks)
          else mret pos);
   (if b2 then
      pos ← on_mem (set_u32_increment_pos (Some k) pos KM_TAG_RSA_PUBLIC_EXPONENT);
      on_mem (set_u64_increment_pos (Some k) pos re) ;; mret tt
    else mret tt)) w =
  match fill k l a n b1 b2 ks re 0 w with
  | Some (Done _, w) => Some (Done tt, w)
  | Some (Failed e, w) => Some (Failed e, w)
  | None => None
  end.
Proof.
  unfold fill, mbind, KM_bind, mret, KM_ret. destruct (on_mem _ w) as [[[pos|e] w1]|]; [|done..].
  destruct (write_params _ _ _ _ _ _) as [[[pos1|e] w2]|]; [|done..].
  destruct b1, b2; repeat (cbv beta iota; match goal with |- context [on_mem ?o ?w] => destruct (on_mem o w) as [[[?|?] ?]|] end; try done); done.
Qed.

(** The call up to its second loop. *)
Lemma serialize_fill s as_ ks re c m x : set_stands m s as_ -> buf x = None ->
  let total := u32 (size (encode_set (sent as_ ks re))) in
  let k := allocations m in
  let n := u32 (size (kept_params as_)) + (if negb (ks =? 0) && negb (has_tag KM_TAG_KEY_SIZE (kept_params as_)) then 1 else 0) +
    (if negb (re =? 0) && negb (has_tag KM_TAG_RSA_PUBLIC_EXPONENT (kept_params as_)) then 1 else 0) in
  km_serialize_params s ks re {| input := c; mem := m; outs := x |} =
  if malloc_ok k total then
    match fill k (length as_) (array s) n (negb (ks =? 0) && negb (has_tag KM_TAG_KEY_SIZE (kept_params as_)))
        (negb (re =? 0) && negb (has_tag KM_TAG_RSA_PUBLIC_EXPONENT (kept_params as_))) ks re 0
        {| input := c; mem := with_bytes (allocated m) k (map (rubbish k) (seqZ 0 total)); outs := {| buf := Some k; buf_size := total |} |} with
    | Some (Done _, w) => Some (Done tt, w)
    | Some (Failed e, w) => Some (Failed e, w)
    | None => None
    end
  else Some (Failed KM_ERROR_MEMORY_ALLOCATION_FAILED, {| input := c; mem := allocated m; outs := {| buf := None; buf_size := total |} |}).
Proof.
  intros H0 Hx. cbv zeta. unfold km_serialize_params. rewrite (set_count _ _ _ H0).
  set (t0 := {| total_size := 4; key_size_present := _; rsa_pubexp_present := _; n_serialized_params := _ |}).
  unfold mbind at 1, KM_bind at 1. rewrite (count_set m _ as_ t0) by done. cbv beta iota. unfold t0. rewrite after_start. clear t0.
  cbn [total_size key_size_present rsa_pubexp_present n_serialized_params].
  set (b1 := negb (ks =? 0) && _). set (b2 := negb (re =? 0) && _). pose proof (size_sent as_ ks re) as Es. fold b1 b2 in Es.
  match goal with |- context [set_out buf_size ?z] => replace z with (u32 (size (encode_set (sent as_ ks re)))) end.
  2: { rewrite Es. destruct b1, b2; rewrite ?u32_add, <- ?Z.add_assoc, ?u32_add; f_equal; lia. }
  generalize (u32 (size (encode_set (sent as_ ks re)))) as total. intros total.
  rewrite step_set, step_mem with (a := if malloc_ok (allocations m) total then Some (allocations m) else None)
    (m' := if malloc_ok (allocations m) total then with_bytes (allocated m) (allocations m) (map (rubbish (allocations m)) (seqZ 0 total)) else allocated m).
  2: { unfold malloc, allocate. cbv zeta. by destruct (malloc_ok _ _). }
  rewrite step_out, step_set. destruct x as [p0 z0]. cbn [buf] in Hx. subst p0. rewrite (step_mem _ _ _ _ _ tt _ eq_refl).
  destruct (malloc_ok (allocations m) total); [|done]. rewrite step_true. apply fill_ends.
Qed.

Lemma set_stands_allocated m s as_ : set_stands m s as_ -> set_stands (allocated m) s as_.
Proof. done. Qed.

(** The second loop fills the buffer, or goes beyond its end. *)
Lemma serialize_ends s as_ ks re c m x : set_stands m s as_ -> fresh m -> buf x = None ->
  let w := encode_set (sent as_ ks re) in
  let k := allocations m in
  km_serialize_params s ks re {| input := c; mem := m; outs := x |} =
  if malloc_ok k (u32 (size w)) then
    if size w <? 2 ^ 32
    then Some (Done tt, {| input := c; mem := with_bytes (allocated m) k w; outs := {| buf := Some k; buf_size := size w |} |})
    else None
  else Some (Failed KM_ERROR_MEMORY_ALLOCATION_FAILED, {| input := c; mem := allocated m; outs := {| buf := None; buf_size := u32 (size w) |} |}).
Proof.
  intros H0 Hm Hx. cbv zeta. rewrite (serialize_fill _ _ ks re c _ _ H0 Hx). destruct (malloc_ok _ _); [|done].
  set (n := u32 (size (kept_params as_)) + _ + _).
  assert (En : le 4 n ++ concat (map encode_param (sent as_ ks re)) = encode_set (sent as_ ks re)).
  { unfold encode_set. f_equal. apply le_u32. rewrite count_sent. unfold n. rewrite <- !Z.add_assoc. apply u32_add. }
  pose proof (appends_fill (X := scoped_buf_ptr_t) (allocated m) (allocations m) s as_ n ks re H0 ltac:(by apply Hm)) as Ha.
  rewrite En in Ha. set (w := encode_set _) in *. set (r := map _ (seqZ 0 _)).
  specialize (Ha [] r c {| buf := Some (allocations m); buf_size := u32 (size w) |}). cbn [app] in Ha.
  change (size []) with 0 in Ha. rewrite Ha. pose proof (u32_range (size w)) as Ru. pose proof (size_nonneg w) as Nw.
  assert (Er : size r = u32 (size w)) by (unfold r, size at 1; rewrite length_map, length_seqZ; lia). rewrite Er.
  destruct (Z.ltb_spec (size w) (2 ^ 32)) as [L|L].
  - rewrite u32_small in * by lia. rewrite Z.leb_refl. rewrite drop_ge by (unfold size in Er; lia). by rewrite app_nil_r.
  - by replace (size w <=? u32 (size w)) with false by (symmetry; apply Z.leb_gt; lia).
Qed.
End send.

(** ** What is written can be read *)

Lemma kept_good m ps as_ : Forall2 (stands_for m) ps as_ -> Forall good_param (kept_params as_).
Proof.
  induction 1 as [|p a ps as_ [_ Ha] H IH]; [constructor|]. rewrite kept_cons. apply Forall_app. split; [|done].
  unfold kept_params. cbn [List.filter]. unfold kept. destruct (km_is_tag_known (fst a)); [|done]. constructor; [by apply Ha|done].
Qed.

Lemma extras_good as_ ks re : 0 <= ks < 2 ^ 32 -> 0 <= re < 2 ^ 64 -> Forall good_param (extras as_ ks re).
Proof.
  intros Hk Hr. unfold extras. apply Forall_app. split; (destruct (_ && _); constructor; [|constructor]); split; try split; try done; by vm_compute.
Qed.

Lemma params_count as_ : size as_ <= size (concat (map encode_param as_)).
Proof.
  induction as_ as [|[t v] as_ IH]; [done|]. cbn [map concat]. rewrite size_app, size_param. unfold size at 1. cbn [length].
  unfold size in *. destruct v; lia.
Qed.

Lemma sent_bytes m s as_ ks re : set_stands m s as_ -> 0 <= ks < 2 ^ 32 -> 0 <= re < 2 ^ 64 -> size (encode_set (sent as_ ks re)) < 2 ^ 32 ->
  set_bytes (sent as_ ks re) (encode_set (sent as_ ks re)).
Proof.
  intros H0 Hk Hr Hl. apply encode_set_bytes.
  - apply Forall_app. split; [|by apply extras_good]. destruct (decide (as_ = [])) as [->|Hn]; [constructor|].
    destruct (set_stands_array _ _ _ H0 Hn) as (s' & ar & ps & _ & _ & _ & Hps & _). by eapply kept_good.
  - unfold encode_set in Hl. rewrite size_app, size_le in Hl. pose proof (params_count (sent as_ ks re)). lia.
Qed.
