(* ===== verification/KmAuth.v ===== *)
(** * Keys of the TEE: authorization lists

    [src/tee/TlcKeymint/src/authlist.cpp]: the parameters of a key that is imported wrapped come as a
    DER sequence of tagged items, which are rewritten for the trusted application.  A first
    loop checks the list and computes the size of the buffer, a second one fills it. *)

From S2P Require Import Prelude Effects KmTags KmBytes KmDer KmHeap KmDecode.
#[local] Open Scope u32_scope.

Definition km_tags : list Z := [
  KM_TAG_PURPOSE; KM_TAG_ALGORITHM; KM_TAG_KEY_SIZE; KM_TAG_BLOCK_MODE; KM_TAG_DIGEST; KM_TAG_PADDING;
  KM_TAG_CALLER_NONCE; KM_TAG_MIN_MAC_LENGTH; KM_TAG_EC_CURVE; KM_TAG_RSA_PUBLIC_EXPONENT;
  KM_TAG_RSA_OAEP_MGF_DIGEST; KM_TAG_ROLLBACK_RESISTANCE; KM_TAG_ACTIVE_DATETIME;
  KM_TAG_ORIGINATION_EXPIRE_DATETIME; KM_TAG_USAGE_EXPIRE_DATETIME; KM_TAG_USER_SECURE_ID;
  KM_TAG_NO_AUTH_REQUIRED; KM_TAG_USER_AUTH_TYPE; KM_TAG_AUTH_TIMEOUT; KM_TAG_ALLOW_WHILE_ON_BODY;
  KM_TAG_TRUSTED_USER_PRESENCE_REQUIRED; KM_TAG_TRUSTED_CONFIRMATION_REQUIRED; KM_TAG_UNLOCKED_DEVICE_REQUIRED;
  KM_TAG_CREATION_DATETIME; KM_TAG_ORIGIN; KM_TAG_ROOT_OF_TRUST; KM_TAG_OS_VERSION; KM_TAG_OS_PATCHLEVEL;
  KM_TAG_ATTESTATION_APPLICATION_ID; KM_TAG_ATTESTATION_ID_BRAND; KM_TAG_ATTESTATION_ID_DEVICE;
  KM_TAG_ATTESTATION_ID_PRODUCT; KM_TAG_ATTESTATION_ID_SERIAL; KM_TAG_ATTESTATION_ID_IMEI;
  KM_TAG_ATTESTATION_ID_MEID; KM_TAG_ATTESTATION_ID_MANUFACTURER; KM_TAG_ATTESTATION_ID_MODEL;
  KM_TAG_VENDOR_PATCHLEVEL; KM_TAG_BOOT_PATCHLEVEL].
Definition TAGID (x : Z) : Z := Z.land x 0x0FFFFFFF.

(** The labels of [switch (km_tag)]. *)
Definition set_tags : list Z := [
  KM_TAG_PURPOSE; KM_TAG_BLOCK_MODE; KM_TAG_DIGEST; KM_TAG_RSA_OAEP_MGF_DIGEST; KM_TAG_PADDING].
Definition integer_tags : list Z := [
  KM_TAG_ALGORITHM; KM_TAG_KEY_SIZE; KM_TAG_MIN_MAC_LENGTH; KM_TAG_EC_CURVE; KM_TAG_USER_AUTH_TYPE; KM_TAG_AUTH_TIMEOUT;
  KM_TAG_ORIGIN; KM_TAG_OS_VERSION; KM_TAG_OS_PATCHLEVEL; KM_TAG_VENDOR_PATCHLEVEL; KM_TAG_BOOT_PATCHLEVEL].
Definition long_tags : list Z := [
  KM_TAG_RSA_PUBLIC_EXPONENT; KM_TAG_ACTIVE_DATETIME; KM_TAG_ORIGINATION_EXPIRE_DATETIME; KM_TAG_USAGE_EXPIRE_DATETIME;
  KM_TAG_USER_SECURE_ID; KM_TAG_CREATION_DATETIME].
Definition null_tags : list Z := [
  KM_TAG_CALLER_NONCE; KM_TAG_ROLLBACK_RESISTANCE; KM_TAG_NO_AUTH_REQUIRED; KM_TAG_ALLOW_WHILE_ON_BODY;
  KM_TAG_TRUSTED_USER_PRESENCE_REQUIRED; KM_TAG_TRUSTED_CONFIRMATION_REQUIRED; KM_TAG_UNLOCKED_DEVICE_REQUIRED].
Definition octet_tags : list Z := [
  KM_TAG_ATTESTATION_CHALLENGE; KM_TAG_ATTESTATION_APPLICATION_ID; KM_TAG_ATTESTATION_ID_BRAND; KM_TAG_ATTESTATION_ID_DEVICE;
  KM_TAG_ATTESTATION_ID_PRODUCT; KM_TAG_ATTESTATION_ID_SERIAL; KM_TAG_ATTESTATION_ID_IMEI; KM_TAG_ATTESTATION_ID_MEID;
  KM_TAG_ATTESTATION_ID_MANUFACTURER; KM_TAG_ATTESTATION_ID_MODEL].
Definition labelled (t : Z) (l : list Z) : bool := bool_decide (t ∈ l).

(** The variables of the caller. *)
Record auth_out := {
  key_params : ptr;
  key_params_len : Z;
  key_type : Z;
  sid : Z
}.
#[export] Instance auth_out_fields : Fields auth_out := fun x => {|
  key_params := key_params x; key_params_len := key_params_len x; key_type := key_type x; sid := sid x |}.
Abbreviation A := (KM (world auth_out)).

(** ** Items

    [len] is the length of the item at the place of the input. *)

(** [len >= 2 && data[0] == tag && data[1] == len - 2] *)
Definition item_is (tag len : Z) : Reads bool :=
  if len <? 2 then mret false
  else
    a ← byte 0;
    if a =? tag then
      b ← byte 1;
      mret (b =? len - 2)
    else mret false.

(** [data[i] == b && ...] *)
Fixpoint bytes_match (l : list (Z * Z)) : Reads bool :=
  match l with
  | [] => mret true
  | (i, x) :: l => b ← byte i; if b =? x then bytes_match l else mret false
  end.

(** A reader for copies of [data] and [len]; what is left of the second. *)
Definition with_length {B} (len : Z) (o : Reads B) : Reads (B * Z) := fun c =>
  match o (c <| remaining := len |>) with
  | Some (r, c') => Some ((r, remaining c'), c)
  | None => None
  end.

(** [*n_params += n; *req_len += r] *)
Definition add_params (n_params n r : Z) : A Z :=
  req_len ← out key_params_len;
  set_out key_params_len (u64 (req_len + r)) ;;
  mret (n_params ^+ n).

Definition root_of_trust : list (Z * Z) :=
  [(0, 0x30); (1, 40); (2, 0x04); (3, 32); (36, 0x01); (37, 1); (39, 0x0A); (40, 1)].

Definition check_AuthorizationItem (km_tag n_params len : Z) : A Z :=
  if labelled km_tag set_tags then
    b ← on_input (item_is 0x31 len);
    CHK b ;;
    CHK (len `mod` 3 =? 2) ;;
    add_params n_params ((len - 2) `div` 3) (u64 ((4 + 4) * ((len - 2) `div` 3)))
  else if labelled km_tag integer_tags then
    b ← on_input (item_is 0x02 len);
    CHK b ;;
    add_params n_params 1 (4 + 4)
  else if labelled km_tag long_tags then
    b ← on_input (item_is 0x02 len);
    CHK b ;;
    add_params n_params 1 (4 + 8)
  else if labelled km_tag null_tags then
    b ← on_input (if len =? 2 then bytes_match [(0, 0x05); (1, 0)] else mret false);
    CHK b ;;
    add_params n_params 1 (4 + 4)
  else if km_tag =? KM_TAG_ROOT_OF_TRUST then
    b ← on_input (if len =? 42 then bytes_match root_of_trust else mret false);
    CHK b ;;
    mret n_params
  else if labelled km_tag octet_tags then
    r ← on_input (with_length len der_read_octet_string_length);
    match r with
    | (Some l, len0) => CHK ((l =? len) && (len0 =? 0)) ;; add_params n_params 1 (u64 (4 + 4 + l))
    | (None, _) => CHK false ;; mret n_params
    end
  else CHK false ;; mret n_params.

(** [v *= 256; v += a[i]], from the byte [i] on, in [w] bits. *)
Fixpoint read_be (w : Z) (n : nat) (i v : Z) : Reads Z :=
  match n with
  | O => mret v
  | Datatypes.S n => b ← byte i; read_be w n (i + 1) (((v * 256) `mod` 2 ^ w + b) `mod` 2 ^ w)
  end.
Definition read_u32 (i l : Z) : Reads Z := read_be 32 (Z.to_nat l) i 0.
Definition read_u64 (i l : Z) : Reads Z := read_be 64 (Z.to_nat l) i 0.

(** The integers of a set, [n] of them from the number [i] on. *)
Fixpoint serialize_set (n : nat) (i km_tag : Z) (b : ptr) (pos : Z) : A Z :=
  match n with
  | O => mret pos
  | Datatypes.S n =>
      x ← on_input (byte (2 + 3 * i));
      CHK (x =? 0x02) ;;
      x ← on_input (byte (2 + 3 * i + 1));
      CHK (x =? 1) ;;
      v32 ← on_input (byte (2 + 3 * i + 2));
      pos ← on_mem (set_u32_increment_pos b pos km_tag);
      pos ← on_mem (set_u32_increment_pos b pos v32);
      serialize_set n (i + 1) km_tag b pos
  end.

(** The parameter is written to the buffer [b]; the position moves. *)
Definition serialize_AuthorizationItem (km_tag : Z) (b : ptr) (pos len : Z) : A Z :=
  if labelled km_tag set_tags then
    x ← on_input (item_is 0x31 len);
    CHK x ;;
    n ← on_input (byte 1);
    CHK (n `mod` 3 =? 0) ;;
    serialize_set (Z.to_nat (n `div` 3)) 0 km_tag b pos
  else if labelled km_tag integer_tags then
    x ← on_input (item_is 0x02 len);
    CHK x ;;
    CHK (len - 2 <=? 4) ;;
    v32 ← on_input (read_u32 2 (len - 2));
    pos ← on_mem (set_u32_increment_pos b pos km_tag);
    pos ← on_mem (set_u32_increment_pos b pos v32);
    (if km_tag =? KM_TAG_ALGORITHM then set_out key_type v32 else mret tt) ;;
    mret pos
  else if labelled km_tag long_tags then
    x ← on_input (item_is 0x02 len);
    CHK x ;;
    CHK (len - 2 <=? 8) ;;
    v64 ← on_input (read_u64 2 (len - 2));
    pos ← on_mem (set_u32_increment_pos b pos km_tag);
    pos ← on_mem (set_u64_increment_pos b pos v64);
    (if km_tag =? KM_TAG_USER_SECURE_ID then set_out sid v64 else mret tt) ;;
    mret pos
  else if labelled km_tag null_tags then
    x ← on_input (if len =? 2 then bytes_match [(0, 0x05); (1, 0)] else mret false);
    CHK x ;;
    pos ← on_mem (set_u32_increment_pos b pos km_tag);
    on_mem (set_u32_increment_pos b pos 1)
  else if km_tag =? KM_TAG_ROOT_OF_TRUST then mret pos
  else if labelled km_tag octet_tags then
    x ← on_input (item_is 0x04 len);
    CHK x ;;
    pos ← on_mem (set_u32_increment_pos b pos km_tag);
    pos ← on_mem (set_u32_increment_pos b pos (len - 2));
    p ← on_input here;
    l ← on_input (bytes_from (p + 2) (len - 2));
    on_mem (set_data_increment_pos b pos l)
  else CHK false ;; mret pos.

(** ** Lists

    The tags from the index [i] on. *)
Fixpoint find_tag (tag : Z) (tags : list Z) : list Z :=
  match tags with
  | [] => []
  | t :: ts => if TAGID t =? tag then tags else find_tag tag ts
  end.

(** [while (len)]: every turn consumes bytes, so that the length of the input is enough for [fuel]. *)
Fixpoint items_loop {T} (item : Z -> T -> Z -> A T) (fuel : nat) (tags : list Z) (s : T) : A T :=
  len ← on_input bytes_left;
  if len =? 0 then mret s
  else
    match fuel with
    | O => lift undefined
    | Datatypes.S fuel =>
        r ← chk_length der_read_explicit_tag_and_length;
        match find_tag (fst r) tags with
        | [] => fail KM_ERROR_INVALID_ARGUMENT
        | (km_tag :: _) as tags =>
            s ← item km_tag s (snd r);
            skip_data (snd r) ;;
            items_loop item fuel tags s
        end
    end.

Definition check_AuthorizationList (fuel : nat) : A Z :=
  set_out key_params_len 4 ;;
  items_loop check_AuthorizationItem fuel km_tags 0.
Definition serialize_AuthorizationList (fuel : nat) (b : ptr) (pos : Z) : A Z :=
  items_loop (fun t pos len => serialize_AuthorizationItem t b pos len) fuel km_tags pos.

(** A call that gets copies of [p] and [len]. *)
Definition with_copies {X B} (o : KM (world X) B) : KM (world X) B := fun w =>
  match o w with
  | Some (r, w') => Some (r, w' <| input := input w |>)
  | None => None
  end.

Definition parse_AuthorizationList `{Allocator} : A unit :=
  chk_whole der_read_sequence_length ;;
  len ← on_input bytes_left;
  n_params ← with_copies (check_AuthorizationList (Z.to_nat len));
  req_len ← out key_params_len;
  km_alloc key_params req_len ;;
  b ← out key_params;
  on_mem (set_u32 b 0 n_params) ;;
  with_copies (serialize_AuthorizationList (Z.to_nat len) b 4) ;;
  mret tt.
