(* ===== verification/KmAuthList.v ===== *)
(** * Keys of the TEE: what an authorization list says

    Items and lists with their parameters; the steps that read them. *)

From S2P Require Import Prelude Effects KmTags KmBytes KmDer KmHeap KmDecode KmSteps KmImport KmSerial KmParams KmAnswers KmWrite KmAuth.
(** ** Items *)

Definition big_endian (s : list Z) : Z := fold_left (fun v b => v * 256 + b) s 0.
Definition triples (vs : list Z) : list Z := concat (map (fun v => [0x02; 1; v]) vs).
Definition tlv (t : Z) (s : list Z) : list Z := t :: size s :: s.
Definition placed (v : list Z) (l : list (Z * Z)) : Prop := Forall (fun e => v !! Z.to_nat (fst e) = Some (snd e)) l.

(** The parameters of the value [v] with a tag. *)
Definition item (t : Z) (v : list Z) (ps : list param) : Prop :=
  if labelled t set_tags then exists vs, v = tlv 0x31 (triples vs) /\ ps = map (fun z => (t, U32 z)) vs
  else if labelled t integer_tags then exists s, v = tlv 0x02 s /\ size s <= 4 /\ ps = [(t, U32 (big_endian s))]
  else if labelled t long_tags then exists s, v = tlv 0x02 s /\ size s <= 8 /\ ps = [(t, U64 (big_endian s))]
  else if labelled t null_tags then v = tlv 0x05 [] /\ ps = [(t, Bool true)]
  else if t =? KM_TAG_ROOT_OF_TRUST then size v = 42 /\ placed v root_of_trust /\ ps = []
  else False.

(** What the first loop counts: parameters, and bytes. *)
Definition claim (t : Z) (v : list Z) (n r : Z) : Prop :=
  if labelled t set_tags then exists s, v = tlv 0x31 s /\ size s = 3 * n /\ r = 8 * n
  else if labelled t integer_tags then (exists s, v = tlv 0x02 s) /\ n = 1 /\ r = 8
  else if labelled t long_tags then (exists s, v = tlv 0x02 s) /\ n = 1 /\ r = 12
  else if labelled t null_tags then v = tlv 0x05 [] /\ n = 1 /\ r = 8
  else if t =? KM_TAG_ROOT_OF_TRUST then size v = 42 /\ placed v root_of_trust /\ n = 0 /\ r = 0
  else False.

Definition params_size (ps : list param) : Z := size (concat (map encode_param ps)).

Lemma size_triples vs : size (triples vs) = 3 * size vs.
Proof.
  unfold triples. induction vs as [|v vs IH]; [done|]. cbn [map concat]. rewrite size_app, IH. unfold size. simpl length. lia.
Qed.

Lemma params_size_cons a ps : params_size (a :: ps) = size (encode_param a) + params_size ps.
Proof. unfold params_size. cbn [map concat]. apply size_app. Qed.

Lemma params_size_u32s t vs : params_size (map (fun z => (t, U32 z)) vs) = 8 * size vs.
Proof.
  induction vs as [|v vs IH]; [done|]. cbn [map]. rewrite params_size_cons, IH. unfold encode_param. cbn [fst snd encode_val].
  rewrite size_app, !size_le. unfold size. simpl length. lia.
Qed.

Lemma params_size_one a : params_size [a] = size (encode_param a).
Proof. rewrite params_size_cons. unfold params_size. cbn [map concat]. unfold size at 2. simpl length. lia. Qed.

(** Every item is counted as it is. *)
Lemma item_claim t v ps : item t v ps -> claim t v (size ps) (params_size ps).
Proof.
  unfold item, claim. destruct (labelled t set_tags); [|destruct (labelled t integer_tags); [|destruct (labelled t long_tags);
    [|destruct (labelled t null_tags); [|destruct (t =? KM_TAG_ROOT_OF_TRUST); [|done]]]]].
  - intros (vs & -> & ->). exists (triples vs). rewrite size_triples, params_size_u32s. unfold size at 2 4. by rewrite length_map.
  - intros (s & -> & _ & ->). rewrite params_size_one. split; [by eexists|done].
  - intros (s & -> & _ & ->). rewrite params_size_one. split; [by eexists|done].
  - intros (-> & ->). rewrite params_size_one. done.
  - intros (Hv & Hp & ->). done.
Qed.

Lemma tlv_inj t s s' : tlv t s = tlv t s' -> s = s'.
Proof. by injection 1. Qed.

Lemma claim_unique t v n r n' r' : claim t v n r -> claim t v n' r' -> n = n' /\ r = r'.
Proof.
  unfold claim. destruct (labelled t set_tags); [|repeat (destruct (labelled t _) || destruct (t =? _)); intuition congruence].
  intros (s & -> & Hs & ->) (s' & E & Hs' & ->). apply tlv_inj in E as <-. lia.
Qed.

Lemma claim_bounds t v n r : claim t v n r -> 0 <= n /\ 0 <= r <= 8 * size v /\ n <= size v.
Proof.
  unfold claim. destruct (labelled t set_tags); [|destruct (labelled t integer_tags); [|destruct (labelled t long_tags);
    [|destruct (labelled t null_tags); [|destruct (t =? KM_TAG_ROOT_OF_TRUST); [|done]]]]].
  - intros (s & -> & Hs & ->). unfold tlv, size in *. cbn [length]. lia.
  - intros ([s ->] & -> & ->). unfold tlv, size in *. cbn [length]. lia.
  - intros ([s ->] & -> & ->). unfold tlv, size in *. cbn [length]. lia.
  - intros (-> & -> & ->). unfold tlv, size in *. cbn [length]. lia.
  - intros (Hv & _ & -> & ->). lia.
Qed.

(** ** Lists

    The tags come in the order of [km_tags]. *)
Inductive items : list Z -> list Z -> list param -> Prop :=
| no_items tags : items tags [] []
| more_items tags tag h t tags' v ps l qs : explicit_header (tag, size v) h -> find_tag tag tags = t :: tags' -> item t v ps ->
    items (t :: tags') l qs -> items tags (h ++ v ++ l) (ps ++ qs).
Inductive claims : list Z -> list Z -> Z -> Z -> Prop :=
| no_claims tags : claims tags [] 0 0
| more_claims tags tag h t tags' v n r l n' r' : explicit_header (tag, size v) h -> find_tag tag tags = t :: tags' -> claim t v n r ->
    claims (t :: tags') l n' r' -> claims tags (h ++ v ++ l) (n + n') (r + r').

Definition auth_list (l : list Z) (ps : list param) : Prop :=
  exists h body, l = h ++ body /\ header 0x30 (size body) h /\ items km_tags body ps.

(** ** Headers come in one way *)

Lemma takes_unique {B} (o : Reads (option B)) sz H src p h h' l l' a a' : takes o sz H -> seen src p (h ++ l) ->
  h ++ l = h' ++ l' -> H a h -> H a' h' -> sz a <= Z.of_nat (length l) -> sz a' <= Z.of_nat (length l') ->
  a = a' /\ h = h' /\ l = l'.
Proof.
  intros Ho Hs E Ha Ha' Hn Hn'. pose proof (Ho _ _ _ _ _ Hs Ha Hn) as E1. rewrite E in Hs. pose proof (Ho _ _ _ _ _ Hs Ha' Hn') as E2.
  rewrite E, E2 in E1. unfold view, cursor_at in E1. injection E1 as -> E3 E4. split; [done|]. apply app_inj_1; [lia|done].
Qed.

Lemma explicit_nonempty r h : explicit_header r h -> h <> [].
Proof. intros (t & h0 & -> & Ht & _). by destruct Ht. Qed.

Lemma items_next src p tags tag h v l ps : seen src p (h ++ v ++ l) -> explicit_header (tag, size v) h -> items tags (h ++ v ++ l) ps ->
  exists t tags' ps1 qs, find_tag tag tags = t :: tags' /\ item t v ps1 /\ items (t :: tags') l qs /\ ps = ps1 ++ qs.
Proof.
  intros Hs Hh Hi. remember (h ++ v ++ l) as b eqn:E. destruct Hi as [tags|tags tag' h' t tags' v' ps l' qs Hh' Hf Hi Hr].
  - apply explicit_nonempty in Hh. by destruct h.
  - unfold size in *. destruct (takes_unique _ _ _ _ _ _ _ _ _ _ _ explicit_takes Hs E Hh' Hh) as ([= -> Hn] & -> & E2).
    1-2: cbn [snd]; rewrite length_app; lia.
    apply app_inj_1 in E2 as [-> ->]; [|lia]. by exists t, tags', ps, qs.
Qed.

Lemma auth_list_body src p h body ps : seen src p (h ++ body) -> header 0x30 (size body) h -> auth_list (h ++ body) ps -> items km_tags body ps.
Proof.
  intros Hs Hh (h' & body' & E & Hh' & Hi). unfold size in *.
  destruct (takes_unique _ _ _ _ _ _ _ _ _ _ _ (read_something_takes 0x30) Hs E Hh Hh') as (_ & _ & ->); [unfold id; lia..|done].
Qed.

(** ** Steps *)

Lemma byte_here src p l i b : seen src p l -> 0 <= i -> l !! Z.to_nat i = Some b -> byte i (view src p l) = Some (b, view src p l).
Proof. intros Hs Hi Hb. rewrite <- (Z2Nat.id i) by done. by apply seen_byte. Qed.

Lemma item_is_view src p t v l : seen src p (v ++ l) ->
  exists b, item_is t (size v) (view src p (v ++ l)) = Some (b, view src p (v ++ l)) /\ (b = true <-> exists s, v = tlv t s).
Proof.
  intros Hs. unfold item_is. destruct (Z.ltb_spec (size v) 2) as [L|L].
  - exists false. split; [done|]. split; [done|]. intros [s ->]. unfold tlv, size in L. simpl length in L. lia.
  - destruct v as [|a [|b s]]; [unfold size in L; simpl length in L; lia..|]. cbn [app] in *.
    rewrite (bind_some _ _ _ _ _ (byte_here _ _ _ 0 a Hs ltac:(lia) eq_refl)). destruct (Z.eqb_spec a t) as [->|Hn].
    + rewrite (bind_some _ _ _ _ _ (byte_here _ _ _ 1 b Hs ltac:(lia) eq_refl)). eexists. split; [done|]. rewrite Z.eqb_eq.
      replace (size (t :: b :: s) - 2) with (size s) by (unfold size; cbn [length]; lia). split; [intros ->; by exists s|by intros [s' [= -> <-]]].
    + exists false. split; [done|]. split; [done|]. by intros [s' [= -> _ _]].
Qed.

Lemma bytes_at_view src p v l bs : seen src p (v ++ l) -> Forall (fun e => 0 <= fst e < size v) bs ->
  exists b, bytes_match bs (view src p (v ++ l)) = Some (b, view src p (v ++ l)) /\ (b = true <-> placed v bs).
Proof.
  intros Hs. induction 1 as [|[i x] bs Hi Hbs IH]; cbn [bytes_match].
  - exists true. split; [done|]. by split; [constructor|].
  - cbn [fst] in Hi. destruct (lookup_lt_is_Some_2 v (Z.to_nat i)) as [y Hy]; [unfold size in Hi; lia|].
    assert (Hy' : (v ++ l) !! Z.to_nat i = Some y) by (by apply lookup_app_l_Some).
    rewrite (bind_some _ _ _ _ _ (byte_here _ _ _ i y Hs ltac:(lia) Hy')). unfold placed in *. setoid_rewrite Forall_cons. cbn [fst snd]. rewrite Hy.
    destruct (Z.eqb_spec y x) as [->|Hn].
    + destruct IH as (b & Eb & Hb). exists b. split; [done|]. rewrite Hb. by split; [|intros []].
    + exists false. split; [done|]. split; [done|]. intros [[= E] _]. done.
Qed.

Lemma read_be_view w src p pre s l v : 0 <= w -> seen src p (pre ++ s ++ l) ->
  read_be w (length s) (size pre) (v `mod` 2 ^ w) (view src p (pre ++ s ++ l)) =
    Some (fold_left (fun v b => v * 256 + b) s v `mod` 2 ^ w, view src p (pre ++ s ++ l)).
Proof.
  intros Hw. assert (Nw : 2 ^ w <> 0) by (apply Z.pow_nonzero; lia).
  revert pre v. induction s as [|b s IH]; intros pre v Hs; cbn [read_be fold_left length]; [done|].
  rewrite (bind_some _ _ _ _ _ (byte_here _ _ _ (size pre) b Hs (size_nonneg _) (lookup_pre _ _ _))).
  replace ((((v `mod` 2 ^ w) * 256) `mod` 2 ^ w + b) `mod` 2 ^ w) with ((v * 256 + b) `mod` 2 ^ w).
  - specialize (IH (pre ++ [b]) (v * 256 + b)). rewrite <- app_assoc, size_snoc in IH. by apply IH.
  - rewrite Z.add_mod_idemp_l by done. rewrite <- (Z.add_mod_idemp_l (v * 256)), <- (Z.add_mod_idemp_l (_ * 256)) by done. by rewrite Z.mul_mod_idemp_l.
Qed.

(** ** Both loops over an authorization list

    The first loop accepts what is laid out as items, and counts it; the second accepts
    the items, and fills the buffer exactly. *)

Section loops.
Context {C : Type}.
Implicit Types (E : Z -> memory -> auth_out -> Prop) (Q : C -> world auth_out -> Prop).

(** ** Items that are checked *)

Definition counted (r : Z) (x : auth_out) : auth_out := x <| key_params_len := u64 (key_params_len x + r) |>.

Lemma u64_small z : 0 <= z < 2 ^ 64 -> u64 z = z.
Proof. apply Z.mod_small. Qed.

Lemma runs_add_params (f : Z -> A C) n k r c m x Q E :
  runs (f (u32 (n + k))) {| input := c; mem := m; outs := counted r x |} Q E ->
  runs (add_params n k r ≫= f) {| input := c; mem := m; outs := x |} Q E.
Proof. intros Hf. unfold add_params. apply runs_assoc, runs_out, runs_assoc, runs_set_out, runs_bind_ret. done. Qed.

Lemma runs_test (o : Reads bool) (P : Prop) (f : unit -> A C) src p l m x Q E :
  (exists b, o (view src p l) = Some (b, view src p l) /\ (b = true <-> P)) ->
  (~ P -> E KM_ERROR_INVALID_ARGUMENT m x) -> (P -> runs (f tt) (W src p l m x) Q E) ->
  runs ((b ← on_input o; CHK b) ≫= f) (W src p l m x) Q E.
Proof.
  intros (b & Eb & Hb) HE Hf. apply runs_assoc. eapply runs_input; [exact Eb|]. apply runs_CHK; intros Hb2.
  - apply Hf. tauto.
  - apply HE. rewrite <- Hb, Hb2. done.
Qed.

(** The test, then the rest. *)
Lemma runs_test_then {B} (o : Reads bool) (P : Prop) (k : A B) (f : B -> A C) src p l m x Q E :
  (exists b, o (view src p l) = Some (b, view src p l) /\ (b = true <-> P)) ->
  (~ P -> E KM_ERROR_INVALID_ARGUMENT m x) -> (P -> runs (k ≫= f) (W src p l m x) Q E) ->
  runs ((b ← on_input o; CHK b ;; k) ≫= f) (W src p l m x) Q E.
Proof.
  intros (b & Eb & Hb) HE Hf. apply runs_assoc. eapply runs_input; [exact Eb|]. apply runs_assoc, runs_CHK; intros Hb2.
  - apply Hf. tauto.
  - apply HE. rewrite <- Hb, Hb2. done.
Qed.

Lemma null_view src p v l : seen src p (v ++ l) ->
  exists b, (if size v =? 2 then bytes_match [(0, 0x05); (1, 0)] else mret false) (view src p (v ++ l)) = Some (b, view src p (v ++ l)) /\
    (b = true <-> v = tlv 0x05 []).
Proof.
  intros Hs. destruct (Z.eqb_spec (size v) 2) as [H2|H2].
  - destruct (bytes_at_view src p v l [(0, 0x05); (1, 0)] Hs) as (b & Eb & Hb); [repeat constructor; cbn; lia|].
    exists b. split; [done|]. rewrite Hb. destruct v as [|a [|c [|? ?]]]; try (unfold size in H2; simpl length in H2; lia).
    unfold placed. rewrite Forall_cons, Forall_singleton. cbn. unfold tlv, size. cbn. split; [intros [[= ->] [= ->]]; done|intros [= -> ->]; done].
  - exists false. split; [done|]. split; [done|]. by intros ->.
Qed.

Lemma root_view src p v l : seen src p (v ++ l) ->
  exists b, (if size v =? 42 then bytes_match root_of_trust else mret false) (view src p (v ++ l)) = Some (b, view src p (v ++ l)) /\
    (b = true <-> size v = 42 /\ placed v root_of_trust).
Proof.
  intros Hs. destruct (Z.eqb_spec (size v) 42) as [H2|H2].
  - destruct (bytes_at_view src p v l root_of_trust Hs) as (b & Eb & Hb); [repeat constructor; cbn; lia|].
    exists b. split; [done|]. rewrite Hb. tauto.
  - exists false. split; [done|]. split; [done|]. by intros [].
Qed.

(** The length of an octet string is never that of its item. *)
Lemma runs_octet (f : Z -> A C) src p v l m x Q E n : seen src p (v ++ l) -> E KM_ERROR_INVALID_ARGUMENT m x ->
  runs ((r ← on_input (with_length (size v) der_read_octet_string_length);
    match r with
    | (Some l, len0) => CHK ((l =? size v) && (len0 =? 0)) ;; add_params n 1 (u64 (4 + 4 + l))
    | (None, _) => CHK false ;; mret n
    end) ≫= f) (W src p (v ++ l) m x) Q E.
Proof.
  intros Hs HE. apply runs_assoc.
  assert (Hv : seen src p v) by (by apply seen_app in Hs as [Hs _]).
  destruct (read_something_reads 0x04 src p v Hv) as (r & c & Er & Hr).
  eapply (runs_input _ _ _ _ _ (r, remaining c) (view src p (v ++ l))).
  { unfold with_length, der_read_octet_string_length. change ((view src p (v ++ l)) <| remaining := size v |>) with (view src p v). by rewrite Er. }
  destruct r as [n'|].
  - destruct Hr as (h & l' & -> & Hh & Hn & ->). apply runs_assoc, runs_CHK; [|done]. intros [E1%Z.eqb_eq _]%andb_true_iff.
    unfold size, id in *. rewrite length_app in E1. apply header_bounds in Hh. lia.
  - apply runs_assoc, runs_CHK; done.
Qed.

Lemma runs_check_item (f : Z -> A C) t n src p v l m x Q E : seen src p (v ++ l) -> 0 <= key_params_len x < 2 ^ 64 -> 0 <= n < 2 ^ 32 ->
  ((forall ps, ~ item t v ps) -> E KM_ERROR_INVALID_ARGUMENT m x) ->
  (forall k r, claim t v k r -> 8 * size v < 2 ^ 32 -> runs (f (u32 (n + k))) (W src p (v ++ l) m (counted r x)) Q E) ->
  8 * size v < 2 ^ 32 ->
  runs (check_AuthorizationItem t n (size v) ≫= f) (W src p (v ++ l) m x) Q E.
Proof.
  intros Hs Hx Hn HE Hf Hv. unfold check_AuthorizationItem, item, claim in *.
  destruct (labelled t set_tags).
  { apply (runs_test_then _ _ _ _ _ _ _ _ _ _ _ (item_is_view _ _ 0x31 _ _ Hs)).
    - intros Hn2. apply HE. intros ps (vs & -> & _). apply Hn2. by eexists.
    - intros [s ->]. assert (Es : size (tlv 0x31 s) = 2 + size s) by (unfold tlv, size; cbn [length]; lia).
      apply runs_assoc, runs_CHK; intros Hb.
      + apply Z.eqb_eq in Hb. rewrite Es in Hb |- *. replace (2 + size s - 2) with (size s) by lia.
        assert (H3 : size s = 3 * (size s `div` 3)) by (clear -Hb; dlia).
        apply runs_add_params. pose proof (size_nonneg s). rewrite u64_small by lia. apply Hf; [|done]. by exists s.
      + apply HE. intros ps (vs & E0 & _). apply tlv_inj in E0 as ->. rewrite Es, size_triples in Hb. apply Z.eqb_neq in Hb. apply Hb.
        replace (2 + 3 * size vs) with (2 + size vs * 3) by lia. by rewrite Z.mod_add. }
  destruct (labelled t integer_tags).
  { apply (runs_test_then _ _ _ _ _ _ _ _ _ _ _ (item_is_view _ _ 0x02 _ _ Hs)).
    - intros Hn2. apply HE. intros ps (s & -> & _). apply Hn2. by eexists.
    - intros Hs2. apply runs_add_params. by apply Hf. }
  destruct (labelled t long_tags).
  { apply (runs_test_then _ _ _ _ _ _ _ _ _ _ _ (item_is_view _ _ 0x02 _ _ Hs)).
    - intros Hn2. apply HE. intros ps (s & -> & _). apply Hn2. by eexists.
    - intros Hs2. apply runs_add_params. by apply Hf. }
  destruct (labelled t null_tags).
  { apply (runs_test_then _ _ _ _ _ _ _ _ _ _ _ (null_view _ _ _ _ Hs)).
    - intros Hn2. apply HE. intros ps (E0 & _). by apply Hn2.
    - intros Hs2. apply runs_add_params. by apply Hf. }
  destruct (t =? KM_TAG_ROOT_OF_TRUST).
  { apply (runs_test_then _ _ _ _ _ _ _ _ _ _ _ (root_view _ _ _ _ Hs)).
    - intros Hn2. apply HE. intros ps (? & ? & _). by apply Hn2.
    - intros Hs2. apply runs_bind_ret. specialize (Hf 0 0). destruct Hs2. rewrite Z.add_0_r, u32_small in Hf by done.
      assert (Ec : counted 0 x = x) by (destruct x as [k z t0 s0]; cbn in Hx; unfold counted, assigned; cbn; by rewrite Z.add_0_r, u64_small).
      rewrite Ec in Hf. by apply Hf. }
  destruct (labelled t octet_tags).
  { apply runs_octet; [done|]. apply HE. intros ps []. }
  apply runs_assoc, runs_CHK; [done|]. intros _. apply HE. intros ps [].
Qed.

(** ** Lists that are checked *)

(** What the first loop leaves in the length. *)
Definition some_length (x x' : auth_out) : Prop := exists z, x' = x <| key_params_len := z |>.

Lemma some_length_refl x : some_length x x.
Proof. exists (key_params_len x). by destruct x. Qed.
Lemma some_length_counted r x x' : some_length (counted r x) x' -> some_length x x'.
Proof. intros [z ->]. exists z. by destruct x. Qed.

Lemma counted_twice r r' x : counted r' (counted r x) = counted (r + r') x.
Proof.
  destruct x as [k z t s]. unfold counted, assigned. cbn. unfold u64. by rewrite Z.add_mod_idemp_l, Z.add_assoc.
Qed.
Lemma u32_add_twice n k k' : u32 (u32 (n + k) + k') = u32 (n + (k + k')).
Proof. unfold u32. by rewrite Z.add_mod_idemp_l, Z.add_assoc. Qed.

Lemma find_tag_none tag tags : find_tag tag tags = [] \/ exists t tags', find_tag tag tags = t :: tags'.
Proof. destruct (find_tag tag tags) as [|t tags']; [by left|right; by eexists _, _]. Qed.

(** The bytes of the value of an item. *)
Lemma value_split (l : list Z) n : 0 <= n <= size l -> exists v l', l = v ++ l' /\ size v = n.
Proof.
  intros Hn. unfold size in *. exists (take (Z.to_nat n) l), (drop (Z.to_nat n) l). rewrite take_drop, length_take. split; [done|lia].
Qed.

Lemma explicit_bounds tag n h : explicit_header (tag, n) h -> 0 <= n < 2 ^ 16.
Proof. intros (t & h0 & _ & _ & H%length_form_bounds). cbn [snd] in H. lia. Qed.

(** A turn of a loop: the header and the tag. *)
Lemma runs_turn {T} (it : Z -> T -> Z -> A T) (f : T -> A C) fuel tags s src p l m x Q E : seen src p l -> l <> [] ->
  ((forall ps, ~ items tags l ps) -> E KM_ERROR_INVALID_ARGUMENT m x) ->
  (forall h v l' tag t tags', l = h ++ v ++ l' -> explicit_header (tag, size v) h -> find_tag tag tags = t :: tags' -> size v < 2 ^ 16 ->
    seen src (p + size h) (v ++ l') -> seen src (p + size h + size v) l' ->
    runs (it t s (size v) ≫= (fun s => (skip_data (size v) ;; items_loop it fuel (t :: tags') s) ≫= f)) (W src (p + size h) (v ++ l') m x) Q E) ->
  runs (items_loop it (Datatypes.S fuel) tags s ≫= f) (W src p l m x) Q E.
Proof.
  intros Hs Hl HE Hf. cbn [items_loop]. apply runs_assoc, runs_left. destruct (Z.eqb_spec (Z.of_nat (length l)) 0) as [H0|_]; [by destruct l|].
  apply runs_assoc. eapply runs_length_or; [apply explicit_reads|apply explicit_takes|done| |].
  - intros Hn. apply HE. intros ps Hi. destruct Hi as [|tags tag h t tags' v ps l qs Hh Hf0 _ _]; [done|].
    apply (Hn _ h (v ++ l) eq_refl Hh). cbn [snd]. unfold size. rewrite length_app. lia.
  - intros [tag n] h l' -> Hh Hn Hs'. cbn [fst snd] in *. pose proof (explicit_bounds _ _ _ Hh) as Hb.
    destruct (value_split l' n ltac:(unfold size; lia)) as (v & l2 & -> & <-). destruct (seen_app _ _ _ _ Hs') as [_ Hs2].
    destruct (find_tag tag tags) as [|t tags'] eqn:Ef.
    + apply runs_bind_fail, HE. intros ps Hi. destruct (items_next _ _ _ _ _ _ _ _ Hs Hh Hi) as (t & tags' & ps1 & qs & Ef' & _). by rewrite Ef in Ef'.
    + apply runs_assoc. apply (Hf h v l2 tag); [done|done|done|lia|done|exact Hs2].
Qed.

Lemma runs_skip_value (f : unit -> A C) src p v l m x Q E : seen src p (v ++ l) ->
  runs (f tt) (W src (p + size v) l m x) Q E -> runs (skip_data (size v) ≫= f) (W src p (v ++ l) m x) Q E.
Proof. intros Hs Hf. by eapply runs_skip. Qed.

Lemma runs_check_list (f : Z -> A C) fuel tags n src p l m x Q E : seen src p l -> (length l <= fuel)%nat -> 0 <= key_params_len x < 2 ^ 64 ->
  0 <= n < 2 ^ 32 ->
  (forall x', (forall ps, ~ items tags l ps) -> some_length x x' -> E KM_ERROR_INVALID_ARGUMENT m x') ->
  (forall k r, claims tags l k r -> runs (f (u32 (n + k))) (W src (p + size l) [] m (counted r x)) Q E) ->
  runs (items_loop check_AuthorizationItem fuel tags n ≫= f) (W src p l m x) Q E.
Proof.
  revert tags n p l x f. induction fuel as [|fuel IH]; intros tags n p l x f Hs Hl Hx Hn HE Hf.
  2: destruct (decide (l = [])) as [Hnil|Hne].
  1-2: destruct l; [|first [discriminate Hnil|simpl in Hl; lia]]; cbn [items_loop]; apply runs_assoc, runs_left, runs_bind_ret;
    specialize (Hf 0 0 (no_claims _)); rewrite Z.add_0_r, u32_small in Hf by done; unfold size in Hf; simpl length in Hf; rewrite Z.add_0_r in Hf;
    assert (Ec : counted 0 x = x) by (destruct x as [k z t0 s0]; cbn in Hx; unfold counted, assigned; cbn; by rewrite Z.add_0_r, u64_small);
    by rewrite Ec in Hf.
  apply runs_turn; [done|done|intros Hi; apply HE; [exact Hi|apply some_length_refl]|].
  intros h v l' tag t tags' -> Hh Ef Hv Hs1 Hs2. apply runs_check_item; [done|done|done| | |lia].
  - intros Hi. apply HE; [|apply some_length_refl]. intros ps Hps.
    destruct (items_next _ _ _ _ _ _ _ _ Hs Hh Hps) as (t' & tags2 & ps1 & qs & Ef' & Hi1 & _). rewrite Ef in Ef'. injection Ef' as <- <-. by apply (Hi ps1).
  - intros k r Hc _. apply runs_assoc, runs_skip_value; [done|]. apply IH.
    + done.
    + rewrite !length_app in Hl. apply explicit_nonempty in Hh. destruct h; [done|]. simpl in Hl. lia.
    + destruct x as [a z ty s]. unfold counted. cbn. apply Z.mod_pos_bound. lia.
    + apply u32_range.
    + intros x' Hi Hx'. apply HE; [|by eapply some_length_counted]. intros ps Hps.
      destruct (items_next _ _ _ _ _ _ _ _ Hs Hh Hps) as (t' & tags2 & ps1 & qs & Ef' & _ & Hi2 & _). rewrite Ef in Ef'. injection Ef' as <- <-. by apply (Hi qs).
    + intros k' r' Hc'. rewrite counted_twice, u32_add_twice. replace (p + size h + size v + size l') with (p + size (h ++ v ++ l')) by (rewrite !size_app; lia).
      apply Hf. by eapply more_claims.
Qed.
End loops.
