(* ===== verification/KmAuthParse.v ===== *)
(** * Keys of the TEE: the second loop over an authorization list

    It accepts the items, and fills the buffer of the counted size exactly. *)

From S2P Require Import Prelude Effects KmTags KmBytes KmDer KmHeap KmDecode KmSteps KmImport KmSerial KmParams KmAnswers KmWrite KmAuth KmAuthList.
Section loops.
Context {C : Type}.
Implicit Types (E : Z -> memory -> auth_out -> Prop) (Q : C -> world auth_out -> Prop).

Definition encoded_params (ps : list param) : list Z := concat (map encode_param ps).

(** Bytes that are appended, where there is room. *)
Lemma runs_appends (w : list Z) (o : Z -> A Z) (f : Z -> A C) m b pre rest c x Q E : appends m b o w -> size w <= size rest ->
  (forall rest', size rest' = size rest - size w -> rest' = drop (length w) rest ->
    runs (f (size (pre ++ w))) {| input := c; mem := with_bytes m b ((pre ++ w) ++ rest'); outs := x |} Q E) ->
  runs (o (size pre) ≫= f) {| input := c; mem := with_bytes m b (pre ++ rest); outs := x |} Q E.
Proof.
  intros Ho Hw Hf. eapply runs_bind; [|intros a w' E0; exact E0]. specialize (Ho pre rest c x). rewrite (proj2 (Z.leb_le _ _) Hw) in Ho.
  eapply ends_eq; [exact Ho|]. rewrite app_assoc. apply Hf; [|done]. unfold size in *. rewrite length_drop. lia.
Qed.

Lemma runs_put_u32 v (f : Z -> A C) m b pre rest c x Q E : 4 <= size rest ->
  (forall rest', size rest' = size rest - 4 -> rest' = drop 4 rest ->
    runs (f (size (pre ++ le 4 v))) {| input := c; mem := with_bytes m b ((pre ++ le 4 v) ++ rest'); outs := x |} Q E) ->
  runs (on_mem (set_u32_increment_pos (Some b) (size pre) v) ≫= f) {| input := c; mem := with_bytes m b (pre ++ rest); outs := x |} Q E.
Proof. intros Hr Hf. by apply (runs_appends (le 4 v) (fun pos => on_mem (set_u32_increment_pos (Some b) pos v))); [apply appends_u32|rewrite size_le..]. Qed.

Lemma runs_put_u64 v (f : Z -> A C) m b pre rest c x Q E : 8 <= size rest ->
  (forall rest', size rest' = size rest - 8 -> rest' = drop 8 rest ->
    runs (f (size (pre ++ le 8 v))) {| input := c; mem := with_bytes m b ((pre ++ le 8 v) ++ rest'); outs := x |} Q E) ->
  runs (on_mem (set_u64_increment_pos (Some b) (size pre) v) ≫= f) {| input := c; mem := with_bytes m b (pre ++ rest); outs := x |} Q E.
Proof. intros Hr Hf. by apply (runs_appends (le 8 v) (fun pos => on_mem (set_u64_increment_pos (Some b) pos v))); [apply appends_u64|rewrite size_le..]. Qed.

(** ** Sets of integers *)

Abbreviation u32_params t vs := (map (fun z => (t, U32 z)) vs).

Lemma encoded_cons a ps : encoded_params (a :: ps) = encode_param a ++ encoded_params ps.
Proof. done. Qed.

Lemma runs_serialize_set (f : Z -> A C) n i t b pre rest src p k done_ w l m x Q E :
  seen src p ((0x31 :: k :: done_ ++ w) ++ l) -> size done_ = 3 * i -> size w = 3 * Z.of_nat n -> 8 * Z.of_nat n <= size rest ->
  ((forall vs, w <> triples vs) -> forall bs, size bs = size (pre ++ rest) -> E KM_ERROR_INVALID_ARGUMENT (with_bytes m b bs) x) ->
  (forall vs rest', w = triples vs -> rest' = drop (length (encoded_params (u32_params t vs))) rest ->
    runs (f (size (pre ++ encoded_params (u32_params t vs))))
      (W src p ((0x31 :: k :: done_ ++ w) ++ l) (with_bytes m b ((pre ++ encoded_params (u32_params t vs)) ++ rest')) x) Q E) ->
  runs (serialize_set n i t (Some b) (size pre) ≫= f) (W src p ((0x31 :: k :: done_ ++ w) ++ l) (with_bytes m b (pre ++ rest)) x) Q E.
Proof.
  revert i pre rest done_ w. induction n as [|n IH]; intros i pre rest done_ w Hs Hd Hw Hr HE Hf; cbn [serialize_set].
  - destruct w; [|unfold size in Hw; simpl length in Hw; lia]. apply runs_bind_ret. specialize (Hf [] rest eq_refl eq_refl).
    unfold encoded_params in Hf. cbn [map concat] in Hf. by rewrite app_nil_r in Hf.
  - destruct w as [|a1 [|a2 [|a3 w]]]; try (unfold size in Hw; simpl length in Hw; lia).
    assert (Hb : forall j y, [a1; a2; a3] !! j = Some y -> ((0x31 :: k :: done_ ++ a1 :: a2 :: a3 :: w) ++ l) !! Z.to_nat (2 + 3 * i + Z.of_nat j) = Some y).
    { intros j y Hy. replace (Z.to_nat _) with (length (0x31%Z :: k :: done_) + j)%nat by (unfold size in Hd; simpl length; lia).
      replace ((0x31 :: k :: done_ ++ a1 :: a2 :: a3 :: w) ++ l) with ((0x31 :: k :: done_) ++ [a1; a2; a3] ++ (w ++ l)) by (by rewrite !app_comm_cons, <- !app_assoc).
      rewrite lookup_app_r, Nat.add_sub' by lia. by apply lookup_app_l_Some. }
    pose proof (size_nonneg done_). assert (H8 : 8 <= size rest) by lia.
    apply runs_assoc. eapply runs_input; [apply (byte_here _ _ _ _ a1 Hs); [lia|]; rewrite <- (Hb 0%nat a1 eq_refl); f_equal; lia|].
    apply runs_assoc, runs_CHK; intros B1.
    2: { apply HE; [|done]. intros [|v vs]; [discriminate|]. intros [= -> _]. done. }
    apply Z.eqb_eq in B1 as ->.
    apply runs_assoc. eapply runs_input; [apply (byte_here _ _ _ _ a2 Hs); [lia|]; rewrite <- (Hb 1%nat a2 eq_refl); f_equal; lia|].
    apply runs_assoc, runs_CHK; intros B2.
    2: { apply HE; [|done]. intros [|v vs]; [discriminate|]. intros [= -> _]. done. }
    apply Z.eqb_eq in B2 as ->.
    apply runs_assoc. eapply runs_input; [apply (byte_here _ _ _ _ a3 Hs); [lia|]; rewrite <- (Hb 2%nat a3 eq_refl); f_equal; lia|].
    apply runs_assoc, runs_put_u32; [lia|]. intros r1 S1 ->.
    apply runs_assoc, runs_put_u32; [lia|]. intros r2 S2 ->.
    replace ((0x31 :: k :: done_ ++ 2 :: 1 :: a3 :: w) ++ l) with ((0x31 :: k :: (done_ ++ [2; 1; a3]) ++ w) ++ l) in * by (by rewrite <- !app_assoc).
    assert (Ev : forall vs, encoded_params (u32_params t (a3 :: vs)) = le 4 t ++ le 4 a3 ++ encoded_params (u32_params t vs))
      by (intros vs; cbn [map]; rewrite encoded_cons; unfold encode_param; by rewrite <- app_assoc).
    apply (IH (i + 1) ((pre ++ le 4 t) ++ le 4 a3) _ (done_ ++ [2; 1; a3]) w).
    + done.
    + rewrite size_app, Hd. unfold size. simpl length. lia.
    + unfold size in *. simpl length in Hw. lia.
    + lia.
    + intros Hn bs Hbs. apply HE; [|rewrite Hbs, !size_app, !size_le; unfold size in *; rewrite S2; lia].
      intros [|v vs]; [discriminate|]. intros [= -> Ew]. by apply (Hn vs).
    + intros vs rest' -> ->. specialize (Hf (a3 :: vs) _ eq_refl eq_refl). rewrite Ev in Hf. rewrite !length_app, !length_le in Hf.
      rewrite !drop_drop, <- !app_assoc. by rewrite <- !app_assoc in Hf.
Qed.

(** ** Items *)

(** What the loop keeps of a parameter for its caller. *)
Definition note (x : auth_out) (a : param) : auth_out :=
  match snd a with
  | U32 z => if fst a =? KM_TAG_ALGORITHM then x <| key_type := z |> else x
  | U64 z => if fst a =? KM_TAG_USER_SECURE_ID then x <| sid := z |> else x
  | _ => x
  end.
Definition noted (x : auth_out) (ps : list param) : auth_out := fold_left note ps x.

Lemma set_not_algorithm t : labelled t set_tags = true -> (t =? KM_TAG_ALGORITHM) = false.
Proof. intros H. apply Z.eqb_neq. intros ->. by vm_compute in H. Qed.

Lemma noted_set t x vs : labelled t set_tags = true -> noted x (u32_params t vs) = x.
Proof.
  intros Ht%set_not_algorithm. unfold noted. induction vs as [|v vs IH]; [done|]. cbn [map fold_left]. unfold note at 2. cbn [fst snd]. by rewrite Ht.
Qed.

Lemma big_endian_range s : Forall is_byte s -> 0 <= big_endian s < 2 ^ (8 * size s).
Proof.
  unfold big_endian. assert (G : forall v k, 0 <= k -> 0 <= v < 2 ^ k -> Forall is_byte s -> 0 <= fold_left (fun v b => v * 256 + b) s v < 2 ^ (k + 8 * size s)).
  { induction s as [|b s IH]; intros v k Hk Hv Hs; cbn [fold_left]; [by rewrite Z.add_0_r|]. apply Forall_cons in Hs as [Hb Hs]. unfold is_byte in Hb.
    replace (k + 8 * size (b :: s)) with (k + 8 + 8 * size s) by (unfold size; simpl length; lia). apply IH; [lia| |done].
    rewrite Z.pow_add_r by lia. change (2 ^ 8) with 256. lia. }
  intros Hs. by apply (G 0 0).
Qed.

(** The number of an integer of at most [n] bytes. *)
Lemma runs_number w n s l (f : Z -> A C) src p m x Q E : seen src p (tlv 0x02 s ++ l) -> size s <= n -> w = 8 * n ->
  runs (f (big_endian s)) (W src p (tlv 0x02 s ++ l) m x) Q E ->
  runs (on_input (read_be w (Z.to_nat (size (tlv 0x02 s) - 2)) 2 0) ≫= f) (W src p (tlv 0x02 s ++ l) m x) Q E.
Proof.
  intros Hs Hn -> Hf. assert (Bs : Forall is_byte s) by (destruct Hs as (_ & [[_ [_ Bs]%Forall_cons]%Forall_cons _]%Forall_app & _); done).
  pose proof (big_endian_range s Bs) as Hr. pose proof (size_nonneg s).
  assert (El : Z.to_nat (size (tlv 0x02 s) - 2) = length s) by (unfold tlv, size; cbn [length]; lia). rewrite El.
  eapply runs_input; [|exact Hf]. pose proof (read_be_view (8 * n) src p [0x02; size s] s l 0 ltac:(lia) Hs) as Er.
  rewrite Z.mod_0_l in Er by (apply Z.pow_nonzero; lia). etransitivity; [exact Er|]. fold (big_endian s).
  rewrite Z.mod_small; [done|]. split; [lia|]. eapply Z.lt_le_trans; [apply Hr|]. apply Z.pow_le_mono_r; lia.
Qed.

(** A number is read and written, and kept for the caller. *)
Lemma runs_write_number (k : nat) (c : Z -> param_val) (put : Z -> Z -> A Z) (keep : Z -> A unit) (f : Z -> A C) t b src p v l m pre rest x Q E :
  seen src p (v ++ l) -> 4 + Z.of_nat k <= size rest ->
  (forall z, encode_val (c z) = le k z) -> (forall z, appends m b (put z) (le k z)) ->
  (forall z (f' : unit -> A C) w, runs (f' tt) (w <| outs := note (outs w) (t, c z) |>) Q E -> runs (keep z ≫= f') w Q E) ->
  ((forall s, v = tlv 0x02 s -> ~ size s <= Z.of_nat k) -> E KM_ERROR_INVALID_ARGUMENT (with_bytes m b (pre ++ rest)) x) ->
  (forall s, v = tlv 0x02 s -> size s <= Z.of_nat k ->
    runs (f (size (pre ++ encoded_params [(t, c (big_endian s))]))) (W src p (v ++ l)
      (with_bytes m b ((pre ++ encoded_params [(t, c (big_endian s))]) ++ drop (length (encoded_params [(t, c (big_endian s))])) rest))
      (noted x [(t, c (big_endian s))])) Q E) ->
  runs ((y ← on_input (item_is 0x02 (size v));
    CHK y ;;
    CHK (size v - 2 <=? Z.of_nat k) ;;
    z ← on_input (read_be (8 * Z.of_nat k) (Z.to_nat (size v - 2)) 2 0);
    pos ← on_mem (set_u32_increment_pos (Some b) (size pre) t);
    pos ← put z pos;
    keep z ;;
    mret pos) ≫= f) (W src p (v ++ l) (with_bytes m b (pre ++ rest)) x) Q E.
Proof.
  intros Hs Hr Hc Hp Hk HE Hf. apply (runs_test_then _ _ _ _ _ _ _ _ _ _ _ (item_is_view _ _ 0x02 _ _ Hs)).
  { intros Hn. apply HE. intros s ->. destruct Hn. by eexists. }
  intros [s ->]. assert (El : size (tlv 0x02 s) - 2 = size s) by (unfold tlv, size; cbn [length]; lia).
  apply runs_assoc, runs_CHK; rewrite El; intros Hb.
  2: { apply HE. intros s' E0%tlv_inj. subst s'. by apply Z.leb_gt in Hb; lia. }
  apply Z.leb_le in Hb. specialize (Hf s eq_refl Hb). rewrite <- El.
  apply runs_assoc, (runs_number _ (Z.of_nat k)); [done|done|done|]. apply runs_assoc, runs_put_u32; [lia|]. intros r1 S1 ->.
  apply runs_assoc, (runs_appends (le k (big_endian s))); [apply Hp|rewrite size_le; lia|]. intros r2 S2 ->.
  apply runs_assoc, Hk, runs_bind_ret. unfold encoded_params, encode_param in Hf. cbn [map concat fst snd] in Hf.
  rewrite Hc, app_nil_r, (app_assoc pre), length_app, !length_le in Hf. by rewrite drop_drop, length_le.
Qed.

Lemma runs_keep {T} (g : auth_out -> T) `{Assign auth_out T g} (c : bool) (z : T) (f' : unit -> A C) (w : world auth_out) Q E :
  runs (f' tt) (w <| outs := if c then (outs w) <| g := z |> else outs w |>) Q E ->
  runs ((if c then set_out g z else mret tt) ≫= f') w Q E.
Proof. destruct w as [i m x]. intros Hf. destruct c; [by apply runs_set_out|by apply runs_bind_ret]. Qed.

Lemma runs_serialize_item (f : Z -> A C) t b src p v l m pre rest x n r Q E :
  seen src p (v ++ l) -> claim t v n r -> r <= size rest ->
  ((forall ps, ~ item t v ps) -> forall bs, size bs = size (pre ++ rest) -> E KM_ERROR_INVALID_ARGUMENT (with_bytes m b bs) x) ->
  (forall ps, item t v ps ->
    runs (f (size (pre ++ encoded_params ps))) (W src p (v ++ l)
      (with_bytes m b ((pre ++ encoded_params ps) ++ drop (length (encoded_params ps)) rest)) (noted x ps)) Q E) ->
  runs (serialize_AuthorizationItem t (Some b) (size pre) (size v) ≫= f) (W src p (v ++ l) (with_bytes m b (pre ++ rest)) x) Q E.
Proof.
  intros Hs Hc Hr HE Hf. unfold serialize_AuthorizationItem, item, claim in *. destruct (labelled t set_tags) eqn:E1.
  { apply (runs_test_then _ _ _ _ _ _ _ _ _ _ _ (item_is_view _ _ 0x31 _ _ Hs)).
    { intros Hn2. apply HE; [|done]. intros ps (vs & -> & _). apply Hn2. by eexists. }
    destruct Hc as (s & -> & H3 & ->). intros _. apply runs_assoc. eapply runs_input; [apply (byte_here _ _ _ 1 (size s) Hs); done|].
    rewrite H3. replace (3 * n) with (n * 3) by lia. rewrite Z.mod_mul, Z.div_mul by lia. apply runs_assoc, runs_CHK; [intros _|done].
    pose proof (size_nonneg s). apply (runs_serialize_set _ (Z.to_nat n) 0 t b pre rest src p (size s) [] s l); [done|done|lia|lia| |].
    - intros Hn bs Hbs. apply HE; [|done]. intros ps (vs & E0 & _). apply tlv_inj in E0. by apply (Hn vs).
    - intros vs rest' -> ->. rewrite <- (noted_set t x vs) at 1 by done. apply Hf. by exists vs. }
  destruct (labelled t integer_tags).
  { destruct Hc as (_ & -> & ->). apply (runs_write_number 4 U32 (fun z pos => on_mem (set_u32_increment_pos (Some b) pos z))
      (fun z => if t =? KM_TAG_ALGORITHM then set_out key_type z else mret tt)); [done|lia|done|intros z; apply appends_u32|intros z f' w; apply runs_keep| |].
    - intros Hn. apply HE; [|done]. intros ps (s & E0 & H4 & _). by apply (Hn s).
    - intros s -> H4. apply Hf. by exists s. }
  destruct (labelled t long_tags).
  { destruct Hc as (_ & -> & ->). apply (runs_write_number 8 U64 (fun z pos => on_mem (set_u64_increment_pos (Some b) pos z))
      (fun z => if t =? KM_TAG_USER_SECURE_ID then set_out sid z else mret tt)); [done|lia|done|intros z; apply appends_u64|intros z f' w; apply runs_keep| |].
    - intros Hn. apply HE; [|done]. intros ps (s & E0 & H4 & _). by apply (Hn s).
    - intros s -> H4. apply Hf. by exists s. }
  destruct (labelled t null_tags).
  { apply (runs_test_then _ _ _ _ _ _ _ _ _ _ _ (null_view _ _ _ _ Hs)).
    { intros Hn2. apply HE; [|done]. intros ps (E0 & _). by apply Hn2. }
    intros ->. destruct Hc as (_ & -> & ->). apply runs_assoc, runs_put_u32; [lia|]. intros r1 S1 ->.
    apply runs_put_u32; [lia|]. intros r2 S2 ->. specialize (Hf [(t, Bool true)] ltac:(done)).
    unfold encoded_params, encode_param in Hf. cbn [map concat fst snd encode_val] in Hf.
    rewrite app_nil_r, (app_assoc pre), length_app, !length_le in Hf. rewrite drop_drop. exact Hf. }
  destruct (t =? KM_TAG_ROOT_OF_TRUST); [|done].
  apply runs_bind_ret. destruct Hc as (H42 & Hp & _). specialize (Hf [] ltac:(done)).
  unfold encoded_params in Hf. cbn [map concat] in Hf. by rewrite app_nil_r in Hf.
Qed.
End loops.

(** ** Authorization lists, both loops

    [parse_AuthorizationList] accepts the authorization lists, of any length, and gives
    the bytes of their parameters. *)

Lemma claims_next src p tags tag h v l n r : seen src p (h ++ v ++ l) -> explicit_header (tag, size v) h -> claims tags (h ++ v ++ l) n r ->
  exists t tags' n1 r1 n2 r2, find_tag tag tags = t :: tags' /\ claim t v n1 r1 /\ claims (t :: tags') l n2 r2 /\ n = n1 + n2 /\ r = r1 + r2.
Proof.
  intros Hs Hh Hi. remember (h ++ v ++ l) as b eqn:E. destruct Hi as [tags|tags tag' h' t tags' v' n1 r1 l' n2 r2 Hh' Hf Hi Hr].
  - apply explicit_nonempty in Hh. by destruct h.
  - unfold size in *. destruct (takes_unique _ _ _ _ _ _ _ _ _ _ _ explicit_takes Hs E Hh' Hh) as ([= -> Hn] & -> & E2).
    1-2: cbn [snd]; rewrite length_app; lia.
    apply app_inj_1 in E2 as [-> ->]; [|lia]. by exists t, tags', n1, r1, n2, r2.
Qed.

Lemma claims_bounds tags l n r : claims tags l n r -> 0 <= n <= size l /\ 0 <= r <= 8 * size l.
Proof.
  induction 1 as [tags|tags tag h t tags' v n r l n' r' Hh Hf Hc Hr IH]; [done|]. apply claim_bounds in Hc.
  rewrite !size_app. pose proof (size_nonneg h). lia.
Qed.

Lemma items_claims tags l ps : items tags l ps -> claims tags l (size ps) (params_size ps).
Proof.
  induction 1 as [tags|tags tag h t tags' v ps l qs Hh Hf Hi Hr IH]; [constructor|].
  unfold params_size in *. rewrite map_app, concat_app, !size_app. by eapply more_claims; [done|done|apply item_claim|].
Qed.

Lemma claims_unique src p tags l n r n' r' : seen src p l -> claims tags l n r -> claims tags l n' r' -> n = n' /\ r = r'.
Proof.
  intros Hs H. revert p n' r' Hs. induction H as [tags|tags tag h t tags' v n r l n2 r2 Hh Hf Hc Hr IH]; intros p n' r' Hs H'.
  - remember ([] : list Z) as b eqn:E. destruct H' as [|? ? h ? ? ? ? ? ? ? ? Hh]; [done|]. apply explicit_nonempty in Hh. by destruct h.
  - destruct (claims_next _ _ _ _ _ _ _ _ _ Hs Hh H') as (t' & tags2 & n1 & r1 & n3 & r3 & Ef & Hc' & Hr' & -> & ->).
    rewrite Hf in Ef. injection Ef as <- <-. destruct (claim_unique _ _ _ _ _ _ Hc Hc') as [<- <-].
    rewrite app_assoc in Hs. apply seen_app in Hs as [_ Hs]. by destruct (IH _ _ _ Hs Hr') as [<- <-].
Qed.

Lemma encoded_app ps qs : encoded_params (ps ++ qs) = encoded_params ps ++ encoded_params qs.
Proof. unfold encoded_params. by rewrite map_app, concat_app. Qed.

Lemma noted_app x ps qs : noted x (ps ++ qs) = noted (noted x ps) qs.
Proof. apply fold_left_app. Qed.

(** The variables that the second loop does not touch. *)
Definition same_buffer (x x' : auth_out) : Prop := key_params x' = key_params x /\ key_params_len x' = key_params_len x.
Lemma same_buffer_noted x ps : same_buffer x (noted x ps).
Proof.
  unfold noted, same_buffer. revert x. induction ps as [|a ps IH]; intros x; [done|]. cbn [fold_left]. destruct (IH (note x a)) as [-> ->].
  unfold note. destruct (snd a); [|done| |done]; by destruct (_ =? _).
Qed.

Section parse.
Context {C : Type}.
Implicit Types (E : Z -> memory -> auth_out -> Prop) (Q : C -> world auth_out -> Prop).

Lemma runs_serialize_list (f : Z -> A C) fuel tags b src p l m pre rest x n r Q E : seen src p l -> (length l <= fuel)%nat ->
  claims tags l n r -> size rest = r ->
  ((forall ps, ~ items tags l ps) -> forall bs x', size bs = size (pre ++ rest) -> same_buffer x x' -> E KM_ERROR_INVALID_ARGUMENT (with_bytes m b bs) x') ->
  (forall ps, items tags l ps -> runs (f (size (pre ++ encoded_params ps))) (W src (p + size l) [] (with_bytes m b (pre ++ encoded_params ps)) (noted x ps)) Q E) ->
  runs (items_loop (fun t pos len => serialize_AuthorizationItem t (Some b) pos len) fuel tags (size pre) ≫= f) (W src p l (with_bytes m b (pre ++ rest)) x) Q E.
Proof.
  revert tags p l pre rest x n r. induction fuel as [|fuel IH]; intros tags p l pre rest x n r Hs Hl Hc Hr HE Hf.
  2: destruct (decide (l = [])) as [Hnil|Hne].
  1-2: destruct l; [|first [discriminate Hnil|simpl in Hl; lia]]; cbn [items_loop]; apply runs_assoc, runs_left, runs_bind_ret;
    destruct (claims_unique _ _ _ _ _ _ _ _ Hs Hc (no_claims _)) as [-> ->]; destruct rest; [|unfold size in Hr; simpl in Hr; lia];
    specialize (Hf [] (no_items _)); change (encoded_params []) with (@nil Z) in Hf; change (size (@nil Z)) with 0 in Hf;
    rewrite Z.add_0_r, app_nil_r in Hf; by rewrite app_nil_r.
  apply runs_turn; [done|done|intros Hi; by apply (HE Hi)|].
  intros h v l' tag t tags' -> Hh Ef Hv Hs1 Hs2.
  destruct (claims_next _ _ _ _ _ _ _ _ _ Hs Hh Hc) as (t' & tags2 & n1 & r1 & n2 & r2 & Ef' & Hc1 & Hc2 & -> & ->). rewrite Ef in Ef'. injection Ef' as <- <-.
  pose proof (claims_bounds _ _ _ _ Hc2) as (_ & R2 & _).
  apply (runs_serialize_item _ t b src _ v l' m pre rest x n1 r1); [done|done|lia| |].
  - intros Hi bs Hbs. apply HE; [|done|done]. intros ps Hps.
    destruct (items_next _ _ _ _ _ _ _ _ Hs Hh Hps) as (t' & tags2 & ps1 & qs & Ef' & Hi1 & _). rewrite Ef in Ef'. injection Ef' as <- <-. by apply (Hi ps1).
  - intros ps Hi. destruct (claim_unique _ _ _ _ _ _ Hc1 (item_claim _ _ _ Hi)) as [_ E1].
    assert (Ed : size (encoded_params ps) + size (drop (length (encoded_params ps)) rest) = size rest).
    { unfold params_size, encoded_params in *. rewrite <- E1. unfold size in *. rewrite length_drop. lia. }
    assert (E1' : r1 = size (encoded_params ps)) by exact E1.
    apply runs_assoc, runs_skip_value; [done|]. apply (IH _ _ _ _ _ _ n2 r2); [done| |done|lia| |].
    + rewrite !length_app in Hl. apply explicit_nonempty in Hh. destruct h; [done|]. simpl in Hl. lia.
    + intros Hn bs x' Hbs Hx. apply HE; [|rewrite Hbs, !size_app; lia|].
      * intros ps0 Hps. destruct (items_next _ _ _ _ _ _ _ _ Hs Hh Hps) as (t' & tags2 & ps1 & qs & Ef' & _ & Hi2 & _). rewrite Ef in Ef'. injection Ef' as <- <-. by apply (Hn qs).
      * unfold same_buffer in *; destruct Hx as [-> ->]. apply same_buffer_noted.
    + intros qs Hq. replace (p + size h + size v + size l') with (p + size (h ++ v ++ l')) by (rewrite !size_app; lia).
      rewrite <- app_assoc, <- encoded_app, <- noted_app. apply Hf. by eapply more_items.
Qed.

Lemma runs_copies {B} (o : A B) (k : B -> A C) c m x Q E :
  runs o {| input := c; mem := m; outs := x |} (fun a w => runs (k a) {| input := c; mem := mem w; outs := outs w |} Q E) E ->
  runs (with_copies o ≫= k) {| input := c; mem := m; outs := x |} Q E.
Proof.
  intros (r & w & Eo & H1). unfold runs, ends, with_copies, mbind, KM_bind. rewrite Eo. destruct w as [ci mi xi], r as [a|e]; [exact H1|by eexists _, _].
Qed.
End parse.

(** ** The function *)

Definition reset_length (x : auth_out) : auth_out := x <| key_params_len := 4 |>.

Section call.
Context `{Allocator}.

(** What is left: the bytes of the parameters, or an error, and what was allocated. *)
Lemma runs_parse_auth src p l m x : seen src p l ->
  runs parse_AuthorizationList (W src p l m x)
    (fun _ w => exists ps, auth_list l ps /\ mem w = with_bytes (allocated m) (allocations m) (encode_set ps) /\
      outs w = noted (x <| key_params := Some (allocations m) |> <| key_params_len := size (encode_set ps) |>) ps)
    (fun e m' x' => (e = KM_ERROR_INVALID_ARGUMENT /\ (forall ps, ~ auth_list l ps) \/ refused e) /\
      ((m' = m /\ key_params x' = key_params x) \/ (m' = allocated m /\ key_params x' = None) \/
       exists bs, m' = with_bytes (allocated m) (allocations m) bs /\ key_params x' = Some (allocations m))).
Proof.
  intros Hs. apply runs_last. unfold parse_AuthorizationList. unfold chk_whole. apply runs_assoc, runs_assoc.
  eapply runs_length_or; [apply read_something_reads|apply read_something_takes|done| |].
  { intros Hn. split; [left|by left]. split; [done|]. intros ps (h & body & -> & Hh & _). by apply (Hn _ _ _ eq_refl Hh). }
  intros n h l' -> Hh Hn Hs'. unfold id in Hn. apply runs_assoc, runs_left. apply runs_assoc, runs_CHK; intros Hb.
  2: { split; [left|by left]. split; [done|]. intros ps (h' & body & E1 & Hh' & _). apply Z.eqb_neq in Hb. apply Hb.
       by destruct (takes_unique _ _ _ _ _ _ _ _ _ _ _ (read_something_takes 0x30) Hs E1 Hh Hh') as (-> & -> & ->). }
  apply Z.eqb_eq in Hb as ->. fold (size l') in *. apply runs_bind_ret.
  assert (NB : (forall ps, ~ items km_tags l' ps) -> forall ps, ~ auth_list (h ++ l') ps)
    by (intros Hi ps Hps; apply (Hi ps); by apply (auth_list_body src p h l')).
  pose proof (header_bounds _ _ _ Hh) as [Hb _]. apply runs_assoc, runs_left, runs_assoc, runs_copies.
  apply runs_last. unfold check_AuthorizationList. apply runs_assoc, runs_set_out. apply runs_check_list; [done|lia|done|done| |].
  { intros x' Hi [z ->]. split; [left; by split; [|apply NB]|]. left. by destruct x. }
  intros k r Hc. pose proof (claims_bounds _ _ _ _ Hc) as [Bk Br]. apply runs_ret. cbn [mem outs W].
  apply runs_assoc, runs_out. assert (Er : key_params_len (counted r (reset_length x)) = 4 + r) by (unfold counted; cbn; by rewrite u64_small by lia).
  unfold reset_length in Er. rewrite Er. apply runs_assoc, runs_km_alloc; [lia| |].
  { intros Em. split; [right; by split; [|by eexists _, _]|]. right. left. split; [done|]. by destruct x. }
  intros Em. apply runs_assoc, runs_out. replace (key_params _) with (Some (allocations m)) by (by destruct x).
  assert (Ez : replicate (Z.to_nat (4 + r)) 0 = replicate 4 0 ++ replicate (Z.to_nat r) 0) by (rewrite <- replicate_add; f_equal; lia).
  apply runs_assoc. eapply runs_mem.
  { apply (set_u32_known _ _ [] (replicate 4 0) (replicate (Z.to_nat r) 0)); [cbn [app]; rewrite <- Ez; apply with_object_lookup|done|done]. }
  rewrite object_twice. cbn [app]. apply runs_assoc, runs_copies. apply runs_last. unfold serialize_AuthorizationList.
  apply (runs_serialize_list _ _ km_tags (allocations m) src _ l' _ (le 4 (u32 (0 + k)))  _ _ k r); [done|lia|done|unfold size; rewrite length_replicate; lia| |].
  - intros Hi bs x' _ [Hx _]. split; [left; by split; [|apply NB]|]. right. right. exists bs. split; [done|]. rewrite Hx. by destruct x.
  - intros ps Hi. apply runs_ret, runs_bind_ret, runs_ret. cbn [mem outs W].
    destruct (claims_unique _ _ _ _ _ _ _ _ Hs' Hc (items_claims _ _ _ Hi)) as [-> ->]. exists ps.
    assert (Es : encode_set ps = le 4 (u32 (0 + size ps)) ++ encoded_params ps) by (unfold encode_set; by rewrite Z.add_0_l, u32_small by lia).
    split_and!; [by exists h, l'|by rewrite Es|]. rewrite Es, size_app, size_le. f_equal. destruct x. unfold counted, assigned. cbn. f_equal. by rewrite u64_small by lia.
Qed.
End call.

(** ** Values that can be read back *)

Lemma labelled_stored t l s : labelled t l = true -> forallb (fun t => bool_decide (storage_of t = Some s) && (0 <=? t) && (t <? 2 ^ 32)) l = true ->
  storage_of t = Some s /\ 0 <= t < 2 ^ 32.
Proof.
  intros Ht%bool_decide_eq_true Hl. rewrite forallb_forall in Hl. specialize (Hl t ltac:(by apply list_elem_of_In)).
  rewrite !andb_true_iff, bool_decide_eq_true, Z.leb_le, Z.ltb_lt in Hl. tauto.
Qed.

Lemma item_good t v ps : Forall is_byte v -> item t v ps -> Forall good_param ps.
Proof.
  intros Hv. unfold item, good_param. destruct (labelled t set_tags) eqn:E1; [|destruct (labelled t integer_tags) eqn:E2; [|destruct (labelled t long_tags) eqn:E3;
    [|destruct (labelled t null_tags) eqn:E4; [|destruct (t =? KM_TAG_ROOT_OF_TRUST); [|done]]]]].
  - intros (vs & -> & ->). destruct (labelled_stored _ _ In32 E1 ltac:(by vm_compute)) as [Hs Ht]. apply Forall_map, Forall_forall. intros z Hz.
    assert (Bz : is_byte z).
    { unfold tlv, triples in Hv. do 2 apply Forall_cons in Hv as [_ Hv]. rewrite Forall_forall in Hv.
      apply Hv, list_elem_of_In, in_concat. exists [2; 1; z]. split; [|simpl; tauto]. apply in_map_iff. exists z. split; [done|]. by apply list_elem_of_In. }
    split; [exact Ht|split; [exact Hs|]]. unfold is_byte in Bz. cbn [snd in_range]. lia.
  - intros (s & -> & Hn & ->). destruct (labelled_stored _ _ In32 E2 ltac:(by vm_compute)) as [Hs Ht]. constructor; [|constructor].
    split; [exact Ht|split; [exact Hs|]]. do 2 apply Forall_cons in Hv as [_ Hv]. pose proof (big_endian_range s Hv) as Hr. cbn [snd in_range]. split; [lia|].
    eapply Z.lt_le_trans; [apply Hr|]. apply Z.pow_le_mono_r; lia.
  - intros (s & -> & Hn & ->). destruct (labelled_stored _ _ In64 E3 ltac:(by vm_compute)) as [Hs Ht]. constructor; [|constructor].
    split; [exact Ht|split; [exact Hs|]]. do 2 apply Forall_cons in Hv as [_ Hv]. pose proof (big_endian_range s Hv) as Hr. cbn [snd in_range]. split; [lia|].
    eapply Z.lt_le_trans; [apply Hr|]. apply Z.pow_le_mono_r; lia.
  - intros (-> & ->). destruct (labelled_stored _ _ InBool E4 ltac:(by vm_compute)) as [Hs Ht]. constructor; [|constructor]. by split.
  - intros (_ & _ & ->). constructor.
Qed.

Lemma auth_list_bytes l ps : Forall is_byte l -> auth_list l ps -> set_bytes ps (encode_set ps).
Proof.
  intros Hl (h & body & -> & Hh & Hi). apply Forall_app in Hl as [_ Hl]. apply encode_set_bytes.
  - clear Hh. induction Hi as [tags|tags tag h' t tags' v ps l qs Hh Hf Hv Hr IH]; [constructor|]. apply Forall_app in Hl as [_ [Bv Bl]%Forall_app].
    apply Forall_app. split; [by apply (item_good t v)|by apply IH].
  - pose proof (items_claims _ _ _ Hi) as Hc. apply claims_bounds in Hc. apply header_bounds in Hh. lia.
Qed.

(** ** Strings are refused *)

Lemma labelled_other t l : labelled t l = true -> forallb (fun t => bool_decide (t ∉ octet_tags)) l = true -> t ∉ octet_tags.
Proof.
  intros Ht%bool_decide_eq_true Hl. rewrite forallb_forall in Hl. specialize (Hl t ltac:(by apply list_elem_of_In)). by apply bool_decide_eq_true in Hl.
Qed.

Lemma item_tags t v ps : item t v ps -> Forall (fun a : param => fst a ∉ octet_tags) ps.
Proof.
  unfold item. destruct (labelled t set_tags) eqn:E1; [|destruct (labelled t integer_tags) eqn:E2; [|destruct (labelled t long_tags) eqn:E3;
    [|destruct (labelled t null_tags) eqn:E4; [|destruct (t =? KM_TAG_ROOT_OF_TRUST); [|done]]]]].
  - intros (vs & -> & ->). pose proof (labelled_other _ _ E1 ltac:(by vm_compute)) as Ht. apply Forall_map, Forall_forall. by intros z _.
  - intros (s & -> & _ & ->). pose proof (labelled_other _ _ E2 ltac:(by vm_compute)) as Ht. by constructor.
  - intros (s & -> & _ & ->). pose proof (labelled_other _ _ E3 ltac:(by vm_compute)) as Ht. by constructor.
  - intros (-> & ->). pose proof (labelled_other _ _ E4 ltac:(by vm_compute)) as Ht. by constructor.
  - intros (_ & _ & ->). constructor.
Qed.

Lemma auth_list_tags l ps : auth_list l ps -> Forall (fun a : param => fst a ∉ octet_tags) ps.
Proof.
  intros (h & body & _ & _ & Hi). induction Hi as [tags|tags tag h' t tags' v ps l' qs Hh Hf Hv Hr IH]; [constructor|].
  apply Forall_app. split; [by apply (item_tags t v)|done].
Qed.
