(* ===== verification/KmWrap.v ===== *)
(** * Keys of the TEE: wrapped keys

    [src/tee/TlcKeymint/src/tlcKeymint_if.cpp], [parse_SecureKeyWrapper], and the start of
    [TEE_ImportWrappedKey], which has the authorization list of the wrapper parsed.
    Pointers into the data are distances from its start; an address that is computed wraps
    around at 2^64. *)

From S2P Require Import Prelude Effects KmTags KmBytes KmDer KmHeap KmDecode KmSteps KmImport KmSerial KmParams KmAnswers KmWrite KmAuth KmAuthList KmAuthParse.
Record wrapper := {
  encrypted_transport_key : Z;
  encrypted_transport_key_len : Z;
  IV : list Z;
  IV_len : Z;
  key_description : Z;
  key_description_len : Z;
  key_format : Z;
  key_authlist : Z;
  key_authlist_len : Z;
  encrypted_key : Z;
  encrypted_key_len : Z;
  wrapped_tag : list Z
}.
#[export] Instance wrapper_fields : Fields wrapper := fun x => {|
  encrypted_transport_key := encrypted_transport_key x; encrypted_transport_key_len := encrypted_transport_key_len x;
  IV := IV x; IV_len := IV_len x;
  key_description := key_description x; key_description_len := key_description_len x; key_format := key_format x;
  key_authlist := key_authlist x; key_authlist_len := key_authlist_len x;
  encrypted_key := encrypted_key x; encrypted_key_len := encrypted_key_len x; wrapped_tag := wrapped_tag x |}.
Abbreviation P := (KM (world wrapper)).

(** [p += n; len -= n], for any [n]. *)
Definition move_pos (n : Z) : P unit := on_input (fun c =>
  Some (tt, c <| place := u64 (place c + n) |> <| remaining := u64 (remaining c - n) |>)).

(** [memcpy] to an array of the caller. *)
Definition copy_out (f : wrapper -> list Z) `{Assign wrapper (list Z) f} (l : list Z) : P unit :=
  old ← out f;
  if Z.of_nat (length l) <=? Z.of_nat (length old) then set_out f (l ++ drop (length l) old) else lift undefined.

(** [len >= n && p[0] == ... && p[k] == ...] for the first bytes [l]; [n] is not less than their number. *)
Definition has (n : Z) (l : list Z) : Reads bool :=
  len ← bytes_left;
  if len <? n then mret false else bytes_are 0 l.

(** [p += n; len -= n] behind a string that was announced; its start is kept. *)
Definition keep (f : wrapper -> Z) `{Assign wrapper Z f} (n : Z) : P unit :=
  p ← on_input here;
  set_out f p ;;
  move_pos n.

(** The function, in four parts. *)
Definition read_transport_key : P unit :=
  chk_whole der_read_sequence_length ;;
  b ← on_input (has 3 [0x02; 1; 0]);
  CHK b ;;
  move_pos 3 ;;
  n ← chk_length der_read_octet_string_length;
  set_out encrypted_transport_key_len n ;;
  keep encrypted_transport_key n.
Definition read_IV : P unit :=
  b ← on_input (has 2 [0x04]);
  CHK b ;;
  n ← on_input (byte 1);
  CHK (n <=? 16) ;;
  set_out IV_len n ;;
  move_pos 2 ;;
  len ← on_input bytes_left;
  CHK (n <=? len) ;;
  p ← on_input here;
  l ← on_input (bytes_from p n);
  copy_out IV l ;;
  move_pos n.
Definition read_key_description : P unit :=
  p ← on_input here;
  set_out key_description p ;;
  sublen ← chk_length der_read_sequence_length;
  set_out key_description_len (u64 (2 + sublen)) ;;
  b ← on_input (has 3 [0x02; 1]);
  CHK b ;;
  f ← on_input (byte 2);
  set_out key_format f ;;
  move_pos 3 ;;
  let n := u64 (sublen - 3) in
  set_out key_authlist_len n ;;
  keep key_authlist n.
Definition read_encrypted_key : P unit :=
  n ← chk_length der_read_octet_string_length;
  set_out encrypted_key_len n ;;
  keep encrypted_key n ;;
  len ← on_input bytes_left;
  b ← on_input (if len =? 18 then bytes_are 0 [0x04; 16] else mret false);
  CHK b ;;
  p ← on_input here;
  l ← on_input (bytes_from (p + 2) 16);
  copy_out wrapped_tag l.

Definition parse_SecureKeyWrapper : P unit :=
  read_transport_key ;;
  read_IV ;;
  read_key_description ;;
  read_encrypted_key.

(** The variables of [TEE_ImportWrappedKey]. *)
Record import_out := {
  unwrapped : wrapper;
  list_out : auth_out
}.
#[export] Instance import_out_fields : Fields import_out := fun x => {|
  unwrapped := unwrapped x; list_out := list_out x |}.

(** A call with other data. *)
Definition call_at {X A} (p n : Z) (o : KM (world X) A) : KM (world X) A := fun w =>
  o (w <| input := cursor_at (source (input w)) p n |>).

Definition parse_wrapped_key `{Allocator} : KM (world import_out) unit :=
  on_field unwrapped parse_SecureKeyWrapper ;;
  x ← out unwrapped;
  on_field list_out (call_at (key_authlist x) (key_authlist_len x) parse_AuthorizationList) ;;
  y ← out list_out;
  CHK (negb (key_type y =? 0)).

(** ** Wrapped keys that are taken apart

    What [parse_SecureKeyWrapper] accepts, and the pointers and lengths that it gives. *)

(** ** Steps *)

Section steps.
Context {C : Type}.
Implicit Types (E : Z -> memory -> wrapper -> Prop) (Q : C -> world wrapper -> Prop) (x : wrapper) (m : memory).

(** The bytes ahead, at an address of the data. *)
Definition ahead (src : list Z) (p : Z) (l : list Z) : Prop := seen src p l /\ 0 <= p /\ p + size l < 2 ^ 64.

Lemma ahead_app src p s t : ahead src p (s ++ t) -> ahead src (p + size s) t.
Proof.
  intros (Hs & Hp & Hl). rewrite size_app in Hl. pose proof (size_nonneg s). apply seen_app in Hs as [_ Hs]. split; [exact Hs|lia].
Qed.

Lemma runs_move (k : unit -> P C) src p s t n m x Q E : ahead src p (s ++ t) -> n = size s ->
  runs (k tt) (W src (p + size s) t m x) Q E -> runs (move_pos n ≫= k) (W src p (s ++ t) m x) Q E.
Proof.
  intros (_ & Hp & Hl) -> Hk. eapply runs_input; [|exact Hk]. rewrite size_app in Hl. pose proof (size_nonneg s). pose proof (size_nonneg t).
  unfold view, cursor_at. cbn. rewrite (u64_small (p + size s)) by lia. do 3 f_equal. rewrite length_app. unfold size in *.
  replace (Z.of_nat (length s + length t) - Z.of_nat (length s)) with (Z.of_nat (length t)) by lia. by rewrite u64_small by lia.
Qed.

(** Back, over the last bytes. *)
Lemma runs_back (k : unit -> P C) src p s t n m x Q E : ahead src p (s ++ t) -> n = u64 (- size s) -> s <> [] ->
  runs (k tt) (W src p (s ++ t) m x) Q E -> runs (move_pos n ≫= k) (W src (p + size s) t m x) Q E.
Proof.
  intros (_ & Hp & Hl) -> Hn Hk. eapply runs_input; [|exact Hk]. rewrite size_app in Hl. pose proof (size_nonneg s). pose proof (size_nonneg t).
  unfold view, cursor_at. cbn. unfold u64. rewrite Z.add_mod_idemp_r, Zminus_mod_idemp_r by lia. replace (p + size s + - size s) with p by lia. rewrite (Z.mod_small p) by lia.
  do 3 f_equal. rewrite length_app. unfold size in *. replace (Z.of_nat (length t) - - Z.of_nat (length s)) with (Z.of_nat (length s + length t)) by lia. by rewrite Z.mod_small by lia.
Qed.

Lemma runs_has (s : list Z) n (k : bool -> P C) src p l m x Q E : seen src p l -> Z.of_nat (length s) <= n ->
  (~ (s `prefix_of` l /\ n <= size l) -> runs (k false) (W src p l m x) Q E) ->
  (forall t, l = s ++ t -> n <= size l -> runs (k true) (W src p l m x) Q E) ->
  runs (on_input (has n s) ≫= k) (W src p l m x) Q E.
Proof.
  intros Hs Hn Hf Ht. assert (Eh : has n s (view src p l) = Some (bool_decide (s `prefix_of` l /\ n <= size l), view src p l)).
  { unfold has. rewrite (bind_some _ _ _ (Z.of_nat (length l)) (view src p l)) by done. fold (size l).
    destruct (Z.ltb_spec (size l) n) as [L|L].
    - rewrite bool_decide_eq_false_2; [done|]. intros [_ ?]. lia.
    - etransitivity; [apply (bytes_are_view src p s [] l Hs); unfold size in L; lia|]. cbn [app]. do 2 f_equal. apply bool_decide_ext. tauto. }
  eapply runs_input; [exact Eh|]. case_bool_decide as Hb; [|by apply Hf]. destruct Hb as [[t ->] Hl]. by apply (Ht t).
Qed.

Lemma runs_keep_string (f : wrapper -> Z) `{Assign wrapper Z f} (k : unit -> P C) src p s t n m x Q E : ahead src p (s ++ t) -> n = size s ->
  runs (k tt) (W src (p + size s) t m (assigned f p x)) Q E -> runs (keep f n ≫= k) (W src p (s ++ t) m x) Q E.
Proof. intros Hs -> Hk. unfold keep. apply runs_assoc, runs_here, runs_assoc, runs_set_out. by apply runs_move. Qed.

Lemma runs_copy_out (f : wrapper -> list Z) `{Assign wrapper (list Z) f} (k : unit -> P C) l c m x Q E : size l <= size (f x) ->
  runs (k tt) {| input := c; mem := m; outs := assigned f (l ++ drop (length l) (f x)) x |} Q E ->
  runs (copy_out f l ≫= k) {| input := c; mem := m; outs := x |} Q E.
Proof.
  unfold size. intros Hl Hk. unfold copy_out. apply runs_assoc, runs_out. rewrite (proj2 (Z.leb_le _ _) Hl). by apply runs_set_out.
Qed.

Lemma runs_bytes (k : list Z -> P C) src p s t q n m x Q E : seen src p (s ++ t) -> q = p -> n = size s ->
  runs (k s) (W src p (s ++ t) m x) Q E -> runs (on_input (bytes_from q n) ≫= k) (W src p (s ++ t) m x) Q E.
Proof.
  intros Hs -> -> Hk. eapply runs_input; [|exact Hk]. destruct (seen_app _ _ _ _ Hs) as [(Ho & _) _]. by apply bytes_from_occurs.
Qed.
End steps.

(** ** The four parts *)

(** The sequence with its version and the encrypted transport key. *)
Definition transport_part (l h ht tk rest : list Z) : Prop :=
  exists body, l = h ++ body /\ body = [0x02; 1; 0] ++ ht ++ tk ++ rest /\ header 0x30 (size body) h /\ header 0x04 (size tk) ht.
Definition iv_part (l iv rest : list Z) : Prop := l = [0x04; size iv] ++ iv ++ rest /\ size iv <= 16.
Definition description_part (l : list Z) (n : Z) (hd : list Z) (f : Z) (rest : list Z) : Prop :=
  l = hd ++ [0x02; 1; f] ++ rest /\ header 0x30 n hd /\ n <= 3 + size rest.
Definition key_part (l hk key tag : list Z) : Prop := l = hk ++ key ++ [0x04; 16] ++ tag /\ header 0x04 (size key) hk /\ size tag = 16.

Section parts.
Context {C : Type}.
Implicit Types (E : Z -> memory -> wrapper -> Prop) (Q : C -> world wrapper -> Prop) (x : wrapper) (m : memory).

Lemma runs_transport (k : unit -> P C) src p l m x Q E : ahead src p l ->
  ((forall h ht tk rest, ~ transport_part l h ht tk rest) -> forall x', E KM_ERROR_INVALID_ARGUMENT m x') ->
  (forall h ht tk rest, transport_part l h ht tk rest -> let q := p + size h + 3 + size ht in ahead src (q + size tk) rest ->
    runs (k tt) (W src (q + size tk) rest m (x <| encrypted_transport_key_len := size tk |> <| encrypted_transport_key := q |>)) Q E) ->
  runs (read_transport_key ≫= k) (W src p l m x) Q E.
Proof.
  intros Hl HE Hk. pose proof Hl as (Hs & _). unfold read_transport_key, chk_whole. apply runs_assoc, runs_assoc.
  eapply runs_length_or; [apply read_something_reads|apply read_something_takes|done| |].
  { intros Hn. apply HE. intros h ht tk rest (body & E0 & _ & Hh & _). by apply (Hn _ _ _ E0 Hh). }
  intros n h body -> Hh Hn _. apply runs_assoc, runs_left. apply runs_assoc, runs_CHK; intros Hb.
  2: { apply HE. intros h' ht tk rest (body' & E0 & _ & Hh' & _). apply Z.eqb_neq in Hb. apply Hb.
       by destruct (takes_unique _ _ _ _ _ _ _ _ _ _ _ (read_something_takes 0x30) Hs E0 Hh Hh') as (-> & -> & ->). }
  apply Z.eqb_eq in Hb as ->. fold (size body) in *. apply runs_bind_ret. apply ahead_app in Hl. fold (size h) in *.
  assert (U : forall h' ht tk rest, transport_part (h ++ body) h' ht tk rest -> body = [0x02; 1; 0] ++ ht ++ tk ++ rest /\ header 0x04 (size tk) ht).
  { intros h' ht tk rest (body' & E0 & E1 & Hh' & Ht).
    by destruct (takes_unique _ _ _ _ _ _ _ _ _ _ _ (read_something_takes 0x30) Hs E0 Hh Hh') as (_ & _ & ->). }
  apply runs_assoc, runs_has; [by destruct Hl|done| |].
  { intros Hn2. apply runs_assoc, runs_CHK; [done|intros _]. apply HE. intros h' ht tk rest [-> _]%U. apply Hn2.
    split; [by apply prefix_app_r|]. rewrite size_app. change (size [2; 1; 0]) with 3. pose proof (size_nonneg (ht ++ tk ++ rest)). lia. }
  intros t -> _. apply runs_assoc, runs_CHK; [intros _|done]. apply runs_assoc, runs_move; [done|done|]. apply ahead_app in Hl. pose proof Hl as (Ht & _).
  apply runs_assoc. eapply runs_length_or; [apply read_something_reads|apply read_something_takes|done| |].
  { intros Hn2. apply HE. intros h' ht tk rest [E0 Hht]%U. injection E0 as ->. apply (Hn2 _ _ _ eq_refl Hht). unfold id, size. rewrite length_app. lia. }
  intros n ht t' -> Hht Hn2 _. fold (size ht) in *. pose proof (header_bounds _ _ _ Hht) as [Bn _]. unfold id in Hn2. fold (size t') in Hn2.
  destruct (value_split t' n ltac:(lia)) as (tk & rest & -> & <-). apply runs_assoc, runs_set_out. apply ahead_app in Hl. change (size [2; 1; 0]) with 3 in *.
  apply runs_keep_string; [done|done|]. apply Hk; [|by apply ahead_app]. by exists ([2; 1; 0] ++ ht ++ tk ++ rest).
Qed.

Lemma iv_unique l iv rest iv' rest' : iv_part l iv rest -> iv_part l iv' rest' -> iv = iv' /\ rest = rest'.
Proof. intros [-> _] [[= E1 E2] _]. unfold size in *. apply app_inj_1 in E2; [done|lia]. Qed.

Lemma runs_iv (k : unit -> P C) src p l m x Q E : ahead src p l -> size (IV x) = 16 ->
  ((forall iv rest, ~ iv_part l iv rest) -> forall x', E KM_ERROR_INVALID_ARGUMENT m x') ->
  (forall iv rest, iv_part l iv rest -> ahead src (p + 2 + size iv) rest ->
    runs (k tt) (W src (p + 2 + size iv) rest m (x <| IV_len := size iv |> <| IV := iv ++ drop (length iv) (IV x) |>)) Q E) ->
  runs (read_IV ≫= k) (W src p l m x) Q E.
Proof.
  intros Hl Hx HE Hk. pose proof Hl as (Hs & _). unfold read_IV. apply runs_assoc, runs_has; [done|done| |].
  { intros Hn. apply runs_assoc, runs_CHK; [done|intros _]. apply HE. intros iv rest [-> _]. apply Hn.
    split; [by apply (prefix_app_r [4] [4])|]. rewrite size_app. change (size [4; size iv]) with 2. pose proof (size_nonneg (iv ++ rest)). lia. }
  intros t -> H2. apply runs_assoc, runs_CHK; [intros _|done]. destruct t as [|n t]; [done|]. cbn [app] in *.
  apply runs_assoc. eapply runs_input; [apply (byte_here _ _ _ 1 n Hs); done|]. apply runs_assoc, runs_CHK; intros Hb.
  2: { apply HE. intros iv rest [[= -> _] Hiv]. apply Z.leb_gt in Hb. lia. }
  apply Z.leb_le in Hb. apply runs_assoc, runs_set_out. apply runs_assoc. apply (runs_move _ _ _ [4; n] t); [done|done|]. change (size [4; n]) with 2.
  apply (ahead_app _ _ [4; n] t) in Hl. change (size [4; n]) with 2 in Hl. pose proof Hl as (Ht & _).
  apply runs_assoc, runs_left. apply runs_assoc, runs_CHK; intros Hb2.
  2: { apply HE. intros iv rest [[= -> ->] _]. apply Z.leb_gt in Hb2. rewrite length_app in Hb2. unfold size in Hb2. lia. }
  apply Z.leb_le in Hb2. fold (size t) in Hb2. assert (Bn : is_byte n) by (destruct Hs as (_ & [_ [B _]%Forall_cons]%Forall_cons & _); done). unfold is_byte in Bn.
  destruct (value_split t n ltac:(lia)) as (iv & rest & -> & <-). apply runs_assoc, runs_here.
  apply runs_assoc, runs_bytes; [done|done|done|]. apply runs_assoc, runs_copy_out; [destruct x; cbn in *; lia|].
  apply runs_move; [done|done|]. specialize (Hk iv rest ltac:(done)). destruct x. by apply Hk, ahead_app.
Qed.

Lemma description_unique src p l n hd f rest n' hd' f' rest' : seen src p l ->
  description_part l n hd f rest -> description_part l n' hd' f' rest' -> n = n' /\ hd = hd' /\ f = f' /\ rest = rest'.
Proof.
  intros Hs (-> & Hh & Hn) (E0 & Hh' & Hn'). destruct (takes_unique _ _ _ _ _ _ _ _ _ _ _ (read_something_takes 0x30) Hs E0 Hh Hh') as (-> & -> & E1).
  1-2: unfold id, size in *; cbn [app length]; lia.
  by injection E1 as -> ->.
Qed.

(** Behind the description: its length from the start of its first integer on, even where
    that is less than the integer's. *)
Definition behind_description (n f : Z) (rest : list Z) : list Z := drop (Z.to_nat n) ([0x02; 1; f] ++ rest).
Definition described (p n f : Z) (hd : list Z) (x : wrapper) : wrapper :=
  x <| key_description := p |> <| key_description_len := 2 + n |> <| key_format := f |>
    <| key_authlist_len := u64 (n - 3) |> <| key_authlist := p + size hd + 3 |>.

Lemma runs_description (k : unit -> P C) src p l m x Q E : ahead src p l ->
  ((forall n hd f rest, ~ description_part l n hd f rest) -> forall x', E KM_ERROR_INVALID_ARGUMENT m x') ->
  (forall n hd f rest, description_part l n hd f rest -> ahead src (p + size hd + n) (behind_description n f rest) ->
    runs (k tt) (W src (p + size hd + n) (behind_description n f rest) m (described p n f hd x)) Q E) ->
  runs (read_key_description ≫= k) (W src p l m x) Q E.
Proof.
  intros Hl HE Hk. pose proof Hl as (Hs & _). unfold read_key_description. apply runs_assoc, runs_here, runs_assoc, runs_set_out, runs_assoc.
  eapply runs_length_or; [apply read_something_reads|apply read_something_takes|done| |].
  { intros Hn. apply HE. intros n hd f rest (E0 & Hh & Hle). apply (Hn _ _ _ E0 Hh). unfold id, size in *. cbn [app length]. lia. }
  intros n hd t -> Hh Hn _. fold (size hd) in *. unfold id in Hn. fold (size t) in Hn. pose proof (header_bounds _ _ _ Hh) as [Bn _]. apply ahead_app in Hl.
  apply runs_assoc, runs_set_out. rewrite (u64_small (2 + n)) by lia.
  assert (U : forall n' hd' f rest, description_part (hd ++ t) n' hd' f rest -> t = [0x02; 1; f] ++ rest).
  { intros n' hd' f rest (E0 & Hh' & Hn'). destruct (takes_unique _ _ _ _ _ _ _ _ _ _ _ (read_something_takes 0x30) Hs E0 Hh Hh') as (_ & _ & E1).
    1-2: unfold id, size in *; cbn [app length]; lia.
    done. }
  apply runs_assoc, runs_has; [by destruct Hl|done| |].
  { intros Hn2. apply runs_assoc, runs_CHK; [done|intros _]. apply HE. intros n' hd' f rest ->%U. apply Hn2.
    split; [by apply (prefix_app_r [2; 1] [2; 1])|]. rewrite size_app. change (size [2; 1; f]) with 3. pose proof (size_nonneg rest). lia. }
  intros t' -> H3. apply runs_assoc, runs_CHK; [intros _|done]. destruct t' as [|f rest]; [done|]. cbn [app] in *. pose proof Hl as (Ht & _).
  apply runs_assoc. eapply runs_input; [apply (byte_here _ _ _ 2 f Ht); done|]. apply runs_assoc, runs_set_out.
  apply runs_assoc. apply (runs_move _ _ _ [2; 1; f] rest); [done|done|]. change (size [2; 1; f]) with 3. cbv zeta. apply runs_assoc, runs_set_out.
  assert (Hd : description_part (hd ++ 2 :: 1 :: f :: rest) n hd f rest) by (split_and!; [done|done|unfold size in *; cbn [length] in Hn; lia]).
  specialize (Hk n hd f rest Hd). unfold keep. apply runs_assoc, runs_here, runs_assoc, runs_set_out. unfold behind_description in Hk. cbn [app] in Hk.
  destruct (value_split ([2; 1; f] ++ rest) n ltac:(cbn [app]; lia)) as (s & t & Es & En). cbn [app] in Es.
  assert (Ed : drop (Z.to_nat n) (2 :: 1 :: f :: rest) = t) by (rewrite Es, <- En; unfold size; by rewrite Nat2Z.id, drop_app_length).
  rewrite Ed in Hk. pose proof Hl as Hl2. rewrite Es in Hl2. pose proof (ahead_app _ _ _ _ Hl2) as Hl3. rewrite En in Hl3. specialize (Hk Hl3).
  destruct (Z.le_gt_cases 3 n) as [G|G].
  - rewrite u64_small by lia. destruct s as [|s1 [|s2 [|s3 s]]]; try (unfold size in En; cbn [length] in En; lia). injection Es as <- <- <- ->.
    apply (ahead_app _ _ [2; 1; f]) in Hl. change (size [2; 1; f]) with 3 in Hl.
    assert (E4 : n - 3 = size s) by (unfold size in *; cbn [length] in En; lia). apply runs_move; [done|done|].
    replace (p + size hd + 3 + size s) with (p + size hd + n) by lia. rewrite <- (u64_small (n - 3)) by lia. destruct x. exact Hk.
  - (* Back to the byte behind [n]. *)
    destruct (value_split [2; 1; f] n ltac:(unfold size; cbn [length]; lia)) as (a & b & Eab & Ea).
    assert (Et : t = b ++ rest) by (assert (E5 : s ++ t = a ++ (b ++ rest)) by (rewrite <- Es, app_assoc, <- Eab; done); apply app_inj_1 in E5 as [_ ->]; [done|unfold size in *; lia]).
    assert (Lb : size b = 3 - n) by (apply (f_equal size) in Eab; rewrite size_app in Eab; change (size [2; 1; f]) with 3 in Eab; lia).
    replace (p + size hd + 3) with (p + size hd + n + size b) at 1 by lia. rewrite Et in Hk, Hl3.
    apply runs_back; [exact Hl3|rewrite Lb; f_equal; lia|intros ->; unfold size in Lb; cbn [length] in Lb; lia|]. destruct x. exact Hk.
Qed.

Lemma runs_key (k : unit -> P C) src p l m x Q E : ahead src p l -> size (wrapped_tag x) = 16 ->
  ((forall hk key tag, ~ key_part l hk key tag) -> forall x', E KM_ERROR_INVALID_ARGUMENT m x') ->
  (forall hk key tag w, key_part l hk key tag -> mem w = m -> source (input w) = src ->
    outs w = x <| encrypted_key_len := size key |> <| encrypted_key := p + size hk |> <| wrapped_tag := tag |> -> runs (k tt) w Q E) ->
  runs (read_encrypted_key ≫= k) (W src p l m x) Q E.
Proof.
  intros Hl Hx HE Hk. pose proof Hl as (Hs & _). unfold read_encrypted_key. apply runs_assoc.
  eapply runs_length_or; [apply read_something_reads|apply read_something_takes|done| |].
  { intros Hn. apply HE. intros hk key tag (E0 & Hh & _). apply (Hn _ _ _ E0 Hh). unfold id, size. rewrite length_app. lia. }
  intros n hk t -> Hh Hn _. fold (size hk) in *. unfold id in Hn. fold (size t) in Hn. pose proof (header_bounds _ _ _ Hh) as [Bn _]. apply ahead_app in Hl.
  destruct (value_split t n ltac:(lia)) as (key & rest & -> & <-). apply runs_assoc, runs_set_out. apply runs_assoc, runs_keep_string; [done|done|].
  apply ahead_app in Hl. pose proof Hl as (Hr & _).
  assert (U : forall hk' key' tag, key_part (hk ++ key ++ rest) hk' key' tag -> rest = [0x04; 16] ++ tag /\ size tag = 16).
  { intros hk' key' tag (E0 & Hh' & Ht). destruct (takes_unique _ _ _ _ _ _ _ _ _ _ _ (read_something_takes 0x04) Hs E0 Hh Hh') as (Ek & -> & E1).
    1-2: unfold id, size in *; rewrite ?length_app; lia.
    unfold size in *. apply app_inj_1 in E1 as [_ ->]; [done|lia]. }
  apply runs_assoc, runs_left.
  assert (Eh : exists b, (if Z.of_nat (length rest) =? 18 then bytes_are 0 [4; 16] else mret false) (view src (p + size hk + size key) rest) =
    Some (b, view src (p + size hk + size key) rest) /\ (b = true <-> exists tag, rest = [0x04; 16] ++ tag /\ size tag = 16)).
  { destruct (Z.eqb_spec (Z.of_nat (length rest)) 18) as [L|L].
    - eexists. split; [apply (bytes_are_view _ _ [4; 16] [] rest Hr); cbn [length]; lia|]. rewrite bool_decide_eq_true.
      split; [intros [tag ->]; exists tag; split; [done|unfold size; cbn [app length] in L; lia]|by intros (tag & -> & _); apply prefix_app_r].
    - exists false. split; [done|]. split; [done|]. intros (tag & -> & Ht). unfold size in Ht. cbn [app length] in L. lia. }
  destruct Eh as (b & Eb & Hb). apply runs_assoc. eapply runs_input; [exact Eb|]. apply runs_assoc, runs_CHK; intros Hb2.
  2: { apply HE. intros hk' key' tag Hp%U. assert (b = true) by (apply Hb; by exists tag). congruence. }
  apply Hb in Hb2 as (tag & -> & Ht). apply runs_assoc, runs_here. cbn [app] in *.
  apply runs_assoc. eapply runs_input; [apply (bytes_from_occurs _ (p + size hk + size key + 2) tag); [|unfold size in Ht; lia]|].
  { apply (seen_app _ _ [4; 16]) in Hr as [_ (Ho & _)]. exact Ho. }
  apply runs_copy_out; [destruct x; cbn in *; lia|]. apply (Hk hk key tag); [done|done|done|]. destruct x. cbn in Hx |- *.
  rewrite drop_ge by (unfold size in *; lia). by rewrite app_nil_r.
Qed.
End parts.

(** ** The function *)

Definition wrapper_shape (l h ht tk iv : list Z) (n : Z) (hd : list Z) (f : Z) (rest hk key tag : list Z) : Prop :=
  exists rest1 rest2, transport_part l h ht tk rest1 /\ iv_part rest1 iv rest2 /\ description_part rest2 n hd f rest /\
    key_part (behind_description n f rest) hk key tag.

(** The starts of the parts: the encrypted transport key, the description, and what is behind it. *)
Definition transport_at (p : Z) (h ht : list Z) : Z := p + size h + 3 + size ht.
Definition description_at (p : Z) (h ht tk iv : list Z) : Z := transport_at p h ht + size tk + 2 + size iv.
Definition found (p : Z) (h ht tk iv : list Z) (n : Z) (hd : list Z) (f : Z) (hk key tag : list Z) (x : wrapper) : wrapper := {|
  encrypted_transport_key := transport_at p h ht;
  encrypted_transport_key_len := size tk;
  IV := iv ++ drop (length iv) (IV x);
  IV_len := size iv;
  key_description := description_at p h ht tk iv;
  key_description_len := 2 + n;
  key_format := f;
  key_authlist := description_at p h ht tk iv + size hd + 3;
  key_authlist_len := u64 (n - 3);
  encrypted_key := description_at p h ht tk iv + size hd + n + size hk;
  encrypted_key_len := size key;
  wrapped_tag := tag |}.

Lemma transport_unique src p l h ht tk rest h' ht' tk' rest' : seen src p l -> transport_part l h ht tk rest -> transport_part l h' ht' tk' rest' ->
  h = h' /\ ht = ht' /\ tk = tk' /\ rest = rest'.
Proof.
  intros Hs (body & -> & -> & Hh & Ht) (body' & E0 & E1 & Hh' & Ht').
  destruct (takes_unique _ _ _ _ _ _ _ _ _ _ _ (read_something_takes 0x30) Hs E0 Hh Hh') as (_ & <- & <-); [unfold id, size; lia..|].
  injection E1 as E1. apply seen_app in Hs as [_ Hs]. apply (seen_app _ _ [2; 1; 0]) in Hs as [_ Hs].
  destruct (takes_unique _ _ _ _ _ _ _ _ _ _ _ (read_something_takes 0x04) Hs E1 Ht Ht') as (El & <- & E2).
  1-2: unfold id, size; rewrite length_app; lia.
  unfold size in El. by apply app_inj_1 in E2 as [<- <-]; [|lia].
Qed.

Lemma runs_wrapper src p l m x : ahead src p l -> size (IV x) = 16 -> size (wrapped_tag x) = 16 ->
  runs parse_SecureKeyWrapper (W src p l m x)
    (fun _ w => mem w = m /\ source (input w) = src /\ exists h ht tk iv n hd f rest hk key tag, wrapper_shape l h ht tk iv n hd f rest hk key tag /\
      outs w = found p h ht tk iv n hd f hk key tag x)
    (fun e m' _ => e = KM_ERROR_INVALID_ARGUMENT /\ m' = m /\ forall h ht tk iv n hd f rest hk key tag, ~ wrapper_shape l h ht tk iv n hd f rest hk key tag).
Proof.
  intros Hl Hi Ht. pose proof Hl as (Hs & _). unfold parse_SecureKeyWrapper. apply runs_transport; [done| |].
  { intros Hn x'. split_and!; [done|done|]. intros h ht tk iv n hd f rest hk key tag (r1 & r2 & H1 & _). by apply (Hn h ht tk r1). }
  intros h ht tk r1 H1 q Hl1. apply runs_iv; [done|by destruct x| |].
  { intros Hn x'. split_and!; [done|done|]. intros h' ht' tk' iv n hd f rest hk key tag (r1' & r2 & H1' & H2 & _).
    destruct (transport_unique _ _ _ _ _ _ _ _ _ _ _ Hs H1 H1') as (<- & <- & <- & <-). by apply (Hn iv r2). }
  intros iv r2 H2 Hl2. pose proof Hl2 as (Hs2 & _). apply runs_description; [done| |].
  { intros Hn x'. split_and!; [done|done|]. intros h' ht' tk' iv' n hd f rest hk key tag (r1' & r2' & H1' & H2' & H3 & _).
    destruct (transport_unique _ _ _ _ _ _ _ _ _ _ _ Hs H1 H1') as (<- & <- & <- & <-). destruct (iv_unique _ _ _ _ _ H2 H2') as [<- <-]. by apply (Hn n hd f rest). }
  intros n hd f rest H3 Hl3. apply runs_last, runs_key; [done|by destruct x| |].
  { intros Hn x'. split_and!; [done|done|]. intros h' ht' tk' iv' n' hd' f' rest' hk key tag (r1' & r2' & H1' & H2' & H3' & H4).
    destruct (transport_unique _ _ _ _ _ _ _ _ _ _ _ Hs H1 H1') as (<- & <- & <- & <-). destruct (iv_unique _ _ _ _ _ H2 H2') as [<- <-].
    destruct (description_unique _ _ _ _ _ _ _ _ _ _ _ Hs2 H3 H3') as (<- & <- & <- & <-). by apply (Hn hk key tag). }
  intros hk key tag w H4 Em Es Eo. apply runs_ret. do 2 (split; [done|]). exists h, ht, tk, iv, n, hd, f, rest, hk, key, tag. split; [by exists r1, r2|].
  rewrite Eo. by destruct x.
Qed.

(** ** With the authorization list *)

Lemma far_byte {B} (k : Z -> Reads B) src p l i b n R : occurs src p l -> l !! i = Some b -> ends (k b) (cursor_at src p n) R ->
  ends (byte (Z.of_nat i) ≫= k) (cursor_at src p n) R.
Proof. intros Ho Hi. apply ends_step. by apply (peek_occurs _ _ l). Qed.

Lemma far_advance {B} (k : unit -> Reads B) src p j n R : 0 <= n - j < 2 ^ 64 -> ends (k tt) (cursor_at src (p + j) (n - j)) R ->
  ends (advance j ≫= k) (cursor_at src p n) R.
Proof. intros Hn. apply ends_step. unfold advance, cursor_at. cbn. by rewrite u64_small. Qed.

Lemma far_left {B} (k : Z -> Reads B) src p n R : ends (k n) (cursor_at src p n) R -> ends (bytes_left ≫= k) (cursor_at src p n) R.
Proof. by apply ends_step. Qed.

Lemma occurs_tail src p b l : occurs src p (b :: l) -> occurs src (p + 1) l.
Proof. intros Ho. by apply (occurs_app _ _ [b]) in Ho as [_ Ho]. Qed.

(** The end of [read_length], with much data left. *)
Lemma far_test src p n a : a < n -> ends (len ← bytes_left; mret (if a <=? len then Some a else None)) (cursor_at src p n)
  (fun r c => match r with Some a => a < remaining c | None => True end).
Proof. intros Ha. apply far_left, ends_ret. by rewrite (proj2 (Z.leb_le a n)) by lia. Qed.

(** A sequence whose length is less than that of the data, for which too many bytes are announced. *)
Lemma far_sequence src q l n : occurs src q l -> Forall is_byte l -> (4 <= length l)%nat -> 2 ^ 32 <= n < 2 ^ 64 ->
  ends der_read_sequence_length (cursor_at src q n) (fun r c => match r with Some a => a < remaining c | None => True end).
Proof.
  intros Ho Hb Hl Hn. destruct l as [|b0 [|b1 [|b2 [|b3 l]]]]; try (simpl in Hl; lia).
  repeat (apply Forall_cons in Hb as [? Hb]). unfold is_byte in *. unfold der_read_sequence_length, read_something_length.
  apply far_left. rewrite (proj2 (Z.eqb_neq n 0)) by lia. apply (far_byte _ _ _ _ 0 b0 _ _ Ho eq_refl). destruct (b0 =? 48); [|by apply ends_ret].
  apply far_advance; [lia|]. apply occurs_tail in Ho. unfold read_length. apply far_left. rewrite (proj2 (Z.eqb_neq (n - 1) 0)) by lia.
  apply (far_byte _ _ _ _ 0 b1 _ _ Ho eq_refl). apply far_advance; [lia|]. apply occurs_tail in Ho.
  destruct (b1 <? 128); [apply ends_bind_ret, far_test; lia|]. destruct (b1 =? 129).
  - apply ends_assoc, far_left. rewrite (proj2 (Z.eqb_neq (n - 1 - 1) 0)) by lia. apply ends_assoc, (far_byte _ _ _ _ 0 b2 _ _ Ho eq_refl).
    apply ends_assoc, far_advance; [lia|]. apply ends_bind_ret, far_test. lia.
  - destruct (b1 =? 130); [|apply ends_bind_ret, far_left, ends_ret; done].
    apply ends_assoc, far_left. rewrite (proj2 (Z.ltb_ge (n - 1 - 1) 2)) by lia. apply ends_assoc, (far_byte _ _ _ _ 0 b2 _ _ Ho eq_refl).
    apply ends_assoc, (far_byte _ _ _ _ 1 b3 _ _ Ho eq_refl). apply ends_assoc, far_advance; [lia|]. apply ends_bind_ret, far_test. lia.
Qed.

Section import.
Context `{Allocator}.

Lemma runs_parse_far src q l n m x : occurs src q l -> Forall is_byte l -> (4 <= length l)%nat -> 2 ^ 32 <= n < 2 ^ 64 ->
  runs parse_AuthorizationList {| input := cursor_at src q n; mem := m; outs := x |} (fun _ _ => False)
    (fun e m' x' => e = KM_ERROR_INVALID_ARGUMENT /\ m' = m /\ x' = x).
Proof.
  intros Ho Hb Hl Hn. apply runs_last. unfold parse_AuthorizationList, chk_whole, chk_length. apply runs_assoc, runs_assoc, runs_assoc.
  destruct (far_sequence src q l n Ho Hb Hl Hn) as (r & c & Er & Hr). eapply runs_input; [exact Er|]. destruct r as [a|]; [|by apply runs_bind_fail].
  apply runs_bind_ret. apply runs_assoc. eapply runs_input; [done|]. apply runs_assoc, runs_CHK; [|done]. intros E0%Z.eqb_eq. lia.
Qed.

Lemma shape_ahead src p l h ht tk iv n hd f rest hk key tag : ahead src p l -> wrapper_shape l h ht tk iv n hd f rest hk key tag ->
  ahead src (description_at p h ht tk iv + size hd + 3) rest.
Proof.
  intros Hl (r1 & r2 & (body & -> & -> & _) & (-> & _) & (-> & _) & _).
  do 8 apply ahead_app in Hl. change (size [2; 1; 0]) with 3 in Hl. change (size [2; 1; f]) with 3 in Hl. change (size [4; size iv]) with 2 in Hl. exact Hl.
Qed.

Lemma shape_length l h ht tk iv n hd f rest hk key tag : wrapper_shape l h ht tk iv n hd f rest hk key tag ->
  0 <= n < 2 ^ 16 /\ n <= 3 + size rest /\ 17 + n <= 3 + size rest.
Proof.
  intros (r1 & r2 & _ & _ & (_ & Hh & Hn) & (E & Hk & Ht)). pose proof (header_bounds _ _ _ Hh) as [Bn _]. pose proof (header_bounds _ _ _ Hk) as [_ Bk].
  split_and!; [lia|lia|done|]. apply (f_equal size) in E. unfold behind_description, size in *. rewrite !length_app, length_drop in E. cbn [app length] in E. lia.
Qed.

(** The call for the list, with the pointer and the length of the wrapper. *)
Lemma runs_list src p l h ht tk iv n hd f rest hk key tag m x : ahead src p l -> wrapper_shape l h ht tk iv n hd f rest hk key tag ->
  runs parse_AuthorizationList {| input := cursor_at src (description_at p h ht tk iv + size hd + 3) (u64 (n - 3)); mem := m; outs := x |}
    (fun _ w => exists ps, 3 <= n /\ auth_list (take (Z.to_nat (n - 3)) rest) ps /\ mem w = with_bytes (allocated m) (allocations m) (encode_set ps) /\
      outs w = noted (x <| key_params := Some (allocations m) |> <| key_params_len := size (encode_set ps) |>) ps)
    (fun e m' x' => (e = KM_ERROR_INVALID_ARGUMENT \/ refused e) /\
      ((m' = m /\ key_params x' = key_params x) \/ (m' = allocated m /\ key_params x' = None) \/
       exists bs, m' = with_bytes (allocated m) (allocations m) bs /\ key_params x' = Some (allocations m))).
Proof.
  intros Hl Hsh. pose proof (shape_ahead _ _ _ _ _ _ _ _ _ _ _ _ _ _ Hl Hsh) as (Hs & _). destruct (shape_length _ _ _ _ _ _ _ _ _ _ _ _ Hsh) as (Bn & Hn & Hr).
  destruct (Z.le_gt_cases 3 n) as [G|G].
  - set (al := take (Z.to_nat (n - 3)) rest). assert (La : u64 (n - 3) = size al) by (unfold al, size in *; rewrite length_take, u64_small by lia; lia).
    rewrite La. eapply runs_weaken; [apply (runs_parse_auth src _ al)| |].
    + rewrite <- (take_drop (Z.to_nat (n - 3)) rest) in Hs. by apply seen_app in Hs as [Hs _].
    + intros [] w (ps & H1 & H2 & H3). by exists ps.
    + intros e m' x' [He Hm]. split; [|done]. destruct He as [[-> _]|He]; [by left|by right].
  - destruct Hs as (Ho & Hb & _). eapply runs_weaken; [apply (runs_parse_far src _ rest); [done|done|unfold size in Hr; lia|]| |].
    + unfold u64. replace (n - 3) with (2 ^ 64 + (n - 3) + (-1) * 2 ^ 64) by lia. rewrite Z.mod_add by lia. rewrite Z.mod_small by lia. lia.
    + done.
    + intros e m' x' (-> & -> & ->). split; [by left|by left].
Qed.

Lemma runs_wrapped_key src p l m x : ahead src p l -> size (IV (unwrapped x)) = 16 -> size (wrapped_tag (unwrapped x)) = 16 ->
  runs parse_wrapped_key (W src p l m x)
    (fun _ w => exists h ht tk iv n hd f rest hk key tag ps, wrapper_shape l h ht tk iv n hd f rest hk key tag /\
      3 <= n /\ auth_list (take (Z.to_nat (n - 3)) rest) ps /\ mem w = with_bytes (allocated m) (allocations m) (encode_set ps) /\
      unwrapped (outs w) = found p h ht tk iv n hd f hk key tag (unwrapped x) /\
      list_out (outs w) = noted ((list_out x) <| key_params := Some (allocations m) |> <| key_params_len := size (encode_set ps) |>) ps /\
      key_type (list_out (outs w)) <> 0)
    (fun e m' x' => (e = KM_ERROR_INVALID_ARGUMENT \/ refused e) /\
      ((m' = m /\ key_params (list_out x') = key_params (list_out x)) \/ (m' = allocated m /\ key_params (list_out x') = None) \/
       exists bs, m' = with_bytes (allocated m) (allocations m) bs /\ key_params (list_out x') = Some (allocations m))).
Proof.
  intros Hl Hi Ht. unfold parse_wrapped_key. eapply runs_bind.
  { eapply runs_weaken; [by apply runs_on_field, runs_wrapper|intros a w Hw; exact Hw|].
    intros e m' x' (y & (-> & -> & _) & ->). split; [by left|]. left. by destruct x. }
  intros [] [ci mi xi] (y & (Em & Es & h & ht & tk & iv & n & hd & f & rest & hk & key & tag & Hsh & Ey) & Ex). cbn [mem outs input] in *. subst mi xi y.
  destruct x as [x1 x2], ci as [s0 p0 n0]. cbn in Es. subst s0. apply runs_out. eapply runs_bind.
  { eapply runs_weaken; [apply runs_on_field|intros a w Hw; exact Hw|].
    - exact (runs_list src p l h ht tk iv n hd f rest hk key tag m x2 Hl Hsh).
    - intros e m' x' (y & [He Hm] & ->). split; [exact He|]. exact Hm. }
  intros [] [ci2 mi xi] (y & (ps & H3 & Ha & Em & Ey) & Ex). cbn [mem outs input] in *. subst mi xi y. apply runs_out, runs_last, runs_CHK; intros Hb.
  - apply runs_ret. exists h, ht, tk, iv, n, hd, f, rest, hk, key, tag, ps. apply negb_true_iff, Z.eqb_neq in Hb. by split_and!.
  - split; [by left|]. right. right. exists (encode_set ps). split; [done|].
    destruct (same_buffer_noted (x2 <| key_params := Some (allocations m) |> <| key_params_len := size (encode_set ps) |>) ps) as [E1 _]. exact E1.
Qed.
End import.
