(* ===== verification/KmApi.v ===== *)
(** * Keys of the TEE: theorems

    What the client of the trusted application promises for keys, parameters, answers and
    wrapped keys. *)

From S2P Require Import Prelude Effects KmTags KmBytes KmDer KmHeap KmDecode KmSteps KmImport KmRoundtrip KmSerial KmParams KmAnswers KmWrite KmAuth KmAuthList KmAuthParse KmWrap.

(** ** For the examples *)

Definition empty_memory : memory := {| heap := ∅; allocations := 0 |}.
Definition plenty : Allocator := {| malloc_ok := fun _ _ => true; calloc_ok := fun _ _ => true; rubbish := fun _ _ => 0 |}.
Definition no_calloc : Allocator := {| malloc_ok := fun _ _ => true; calloc_ok := fun _ _ => false; rubbish := fun _ _ => 0 |}.
Definition no_key : key_out := {| key_data := None; key_data_len := 0 |}.
Definition no_chars : keymaster_key_characteristics_t := {| hw_enforced := no_params; sw_enforced := no_params |}.
Definition no_chain : keymaster_cert_chain_t := {| entries := None; entry_count := 0 |}.
Definition no_buf : scoped_buf_ptr_t := {| buf := None; buf_size := 0 |}.
Definition no_auth : auth_out := {| key_params := None; key_params_len := 0; key_type := 0; sid := 0 |}.

(** An AES key that may encrypt and decrypt. *)
Definition sample_list : list Z := [0x30; 15; 0xA1; 8; 0x31; 6; 0x02; 1; 0; 0x02; 1; 1; 0xA2; 3; 0x02; 1; 32].
Definition sample_body : list Z :=
  [0x02; 1; 0] ++ [0x04; 2; 7; 7] ++ [0x04; 2; 8; 8] ++ [0x30; 20; 0x02; 1; 3] ++ sample_list ++ [0x04; 2; 9; 9] ++ [0x04; 16] ++ replicate 16 5.
Definition sample_wrapper : list Z := [0x30; size sample_body] ++ sample_body.
Definition sample_vars : import_out := {|
  unwrapped := {| encrypted_transport_key := 0; encrypted_transport_key_len := 0; IV := replicate 16 0; IV_len := 0; key_description := 0;
    key_description_len := 0; key_format := 0; key_authlist := 0; key_authlist_len := 0; encrypted_key := 0; encrypted_key_len := 0;
    wrapped_tag := replicate 16 0 |};
  list_out := no_auth |}.

Lemma fresh_empty : fresh empty_memory.
Proof. intros n _. apply lookup_empty. Qed.

Definition set_of_two : list Z := encode_set [(KM_TAG_ALGORITHM, U32 KM_ALGORITHM_AES); (KM_TAG_APPLICATION_ID, Blob [1; 2; 3])].

(** ** A failed allocation *)

Section failed.
Context `{Allocator}.

Lemma no_array_runs src p n l m : seen src p (le 4 n ++ l) -> size (le 4 n ++ l) < 2 ^ 32 -> 0 < n < 2 ^ 32 ->
  calloc_ok (allocations m) (sizeof_param * n) = false ->
  runs deserialize_param_set (W src p (le 4 n ++ l) m no_params) (fun _ _ => False) (fun _ _ s => s = {| params := None; length_ := n |}).
Proof.
  intros Hs Hl Hn Hc. apply runs_last. unfold deserialize_param_set. apply runs_assoc, runs_next_u32; [done|done| |].
  { intros H4. rewrite size_app, size_le in H4. pose proof (size_nonneg l). lia. }
  intros n' l' E0 Hn' _. apply (le_app_inj 4) in E0 as [<- <-]; [|lia..]. apply runs_assoc, runs_set_out.
  destruct (Z.eqb_spec n 0); [lia|]. apply runs_assoc. eapply runs_mem; [unfold calloc_params, allocate; cbv zeta; by rewrite Hc|].
  apply runs_assoc, runs_set_out. apply runs_assoc, runs_true; [intros Hb; by apply bool_decide_eq_true in Hb|done].
Qed.

Lemma no_entries_runs src p n l m x : seen src p (le 4 n ++ l) -> size (le 4 n ++ l) < 2 ^ 32 -> 0 < n < 2 ^ 32 ->
  calloc_ok (allocations m) (sizeof_blob * n) = false ->
  runs (set_out entries None ;; set_out entry_count 0 ;; n ← next_u32; set_out entry_count n ;;
    if n =? 0 then set_out entries None
    else
      a ← on_mem (calloc_blobs n);
      set_out entries a ;;
      CHECK_TRUE KM_ERROR_MEMORY_ALLOCATION_FAILED (bool_decide (a <> None)) ;;
      deserialize_entries (Z.to_nat n) 0 a) (W src p (le 4 n ++ l) m x)
    (fun _ _ => False) (fun _ _ c => c = {| entries := None; entry_count := n |}).
Proof.
  intros Hs Hl Hn Hc. apply runs_set_out, runs_set_out, runs_last, runs_assoc, runs_next_u32; [done|done| |].
  { intros H4. rewrite size_app, size_le in H4. pose proof (size_nonneg l). lia. }
  intros n' l' E0 Hn' _. apply (le_app_inj 4) in E0 as [<- <-]; [|lia..]. apply runs_assoc, runs_set_out.
  destruct (Z.eqb_spec n 0); [lia|]. apply runs_assoc. eapply runs_mem; [unfold calloc_blobs, allocate; cbv zeta; by rewrite Hc|].
  apply runs_assoc, runs_set_out. apply runs_assoc, runs_true; [intros Hb; by apply bool_decide_eq_true in Hb|done].
Qed.

Lemma freed_faults {X A} (g : X -> Mem X) (o : KM (world X) A) w P : runs o w (fun _ _ => False) P -> (forall e m x, P e m x -> g x m = None) ->
  freed_on_error g o w = None.
Proof.
  intros (r & w' & Eo & H1) Hg. unfold freed_on_error, on_error. rewrite Eo. destruct r as [a|e]; [done|]. by rewrite (Hg _ _ _ H1).
Qed.

Lemma long_header t n h : header t n h -> 128 <= n -> 3 <= size h.
Proof. intros (h0 & -> & Hf) Hn. unfold size. destruct Hf; cbn [length]; lia. Qed.

Lemma positive_nat n : 0 < n -> exists k, Z.to_nat n = Datatypes.S k.
Proof. intros Hn. exists (Z.to_nat (n - 1)). lia. Qed.
End failed.

(** ** Theorems *)

Section theorems.
Context `{Allocator}.
Implicit Types (m : memory).

(** C20. Whatever the bytes of a key are, [decode_key_data] accesses none outside of them and
    none outside of its buffer; if it succeeds, the caller has one new object, of exactly
    the size of a key of the type in the format of the trusted application. *)
Theorem any_key_decoded format t curve x25519 data_ m k : Forall is_byte data_ -> size data_ + 8 < 2 ^ 32 -> key_data k = None ->
  runs (decode_key_data format t curve x25519) {| input := start data_; mem := m; outs := k |} (key_made t m) (key_left m).
Proof. intros Hb Hl Hk. apply (decode_key_runs _ _ _ _ data_ 0 data_); [apply seen_start; [done|unfold size in Hl; lia]|done|done]. Qed.

(** C19. A key that is encoded, in PKCS#8 with RSA, one of the four NIST curves, Ed25519 or
    X25519, or raw, is decoded to exactly its numbers, with any minimal DER lengths and
    unsigned integers; the only error is that there is no memory. *)
Theorem key_roundtrip format t curve x25519 data_ key m k : encoded format t curve x25519 data_ key -> Forall is_byte data_ -> size data_ < 2 ^ 64 ->
  runs (decode_key_data format t curve x25519) {| input := start data_; mem := m; outs := k |} (key_is m key) (no_memory m).
Proof. intros He Hb Hl. by apply read_encoded. Qed.

(** C22. [km_serialize_params] writes the number and the encodings of the known parameters,
    with the key size and the exponent if they are asked for and not there, and fills its
    buffer with them exactly; but the size is computed modulo 2^32, and if they take more, it
    writes beyond the end of the buffer. *)
Theorem serialized_exactly s as_ key_size rsa_pubexp c m x : set_stands m s as_ -> fresh m -> buf x = None ->
  let w := encode_set (sent as_ key_size rsa_pubexp) in
  let k := allocations m in
  km_serialize_params s key_size rsa_pubexp {| input := c; mem := m; outs := x |} =
  if malloc_ok k (u32 (size w)) then
    if size w <? 2 ^ 32
    then Some (Done tt, {| input := c; mem := with_bytes (allocated m) k w; outs := {| buf := Some k; buf_size := size w |} |})
    else None
  else Some (Failed KM_ERROR_MEMORY_ALLOCATION_FAILED, {| input := c; mem := allocated m; outs := {| buf := None; buf_size := u32 (size w) |} |}).
Proof. apply serialize_ends. Qed.

(** C21. What [km_serialize_params] writes, [deserialize_param_set] reads to the end, as the
    known parameters with the two that were added; it fails only without memory. *)
Theorem parameters_roundtrip s as_ key_size rsa_pubexp c m x m2 : set_stands m s as_ -> fresh m -> buf x = None ->
  0 <= key_size < 2 ^ 32 -> 0 <= rsa_pubexp < 2 ^ 64 ->
  size (encode_set (sent as_ key_size rsa_pubexp)) < 2 ^ 32 -> fresh m2 -> (forall k n, malloc_ok k n = true) -> (forall k n, calloc_ok k n = true) ->
  exists bytes k m', km_serialize_params s key_size rsa_pubexp {| input := c; mem := m; outs := x |} =
      Some (Done tt, {| input := c; mem := m'; outs := {| buf := Some k; buf_size := size bytes |} |}) /\
    heap m' !! k = Some (Bytes bytes) /\
    runs deserialize_param_set {| input := start bytes; mem := m2; outs := no_params |}
      (fun _ w => denotes (outs w) (sent as_ key_size rsa_pubexp) m2 (mem w) /\ remaining (input w) = 0) (fun _ _ _ => False).
Proof.
  intros Hs Hm Hx Hks Hre Hl Hm2 Hma Hca. set (bytes := encode_set _) in *.
  exists bytes, (allocations m), (with_bytes (allocated m) (allocations m) bytes). split; [|split].
  - rewrite (serialize_ends s as_) by done. fold bytes. rewrite Hma. by rewrite (proj2 (Z.ltb_lt _ _) Hl).
  - apply with_object_lookup.
  - pose proof (sent_bytes m s as_ key_size rsa_pubexp Hs Hks Hre Hl) as Hb. fold bytes in Hb.
    eapply runs_weaken; [apply (runs_set bytes 0 bytes m2); [|done|done|done]| |].
    + apply seen_start; [by apply (set_bytes_bytes _ _ Hb)|unfold size in Hl; lia].
    + intros [] w (vs & v & l' & E0 & Hv & Hd & Ei & _).
      destruct (set_bytes_inj _ _ _ _ [] l' Hb Hv ltac:(by rewrite app_nil_r)) as (<- & <- & <-). split; [exact Hd|]. by rewrite Ei.
    + intros e m' s' [_ [[_ (k & n & Hk)]|Hn]]; [by rewrite Hma in Hk|]. apply Hn. exists (sent as_ key_size rsa_pubexp), bytes, []. by rewrite app_nil_r.
Qed.

(** C23. Whatever the bytes of an answer are, [km_deserialize_characteristics] reads none
    beyond them and either gives both sets, with all parameters and values of the encoding
    and every object new, or leaves the heap as it was and both sets empty; it fails only
    without memory or on bytes that do not start with two encoded sets.  That is, if
    [calloc] does not fail. *)
Theorem any_characteristics l m x : Forall is_byte l -> size l < 2 ^ 32 -> fresh m -> (forall k n, calloc_ok k n = true) ->
  runs km_deserialize_characteristics {| input := start l; mem := m; outs := x |}
    (fun _ w => exists hs ss v1 v2 l' m1, l = v1 ++ v2 ++ l' /\ set_bytes hs v1 /\ set_bytes ss v2 /\
      denotes (hw_enforced (outs w)) hs m m1 /\ denotes (sw_enforced (outs w)) ss m1 (mem w))
    (fun e m' c => heap m' = heap m /\ c = {| hw_enforced := no_params; sw_enforced := no_params |} /\
      cause (readable_characteristics l) e).
Proof.
  intros Hb Hl Hm Hc. eapply runs_weaken; [apply (runs_characteristics l 0 l m x); [apply seen_start; [done|unfold size in Hl; lia]|done..]| |].
  - intros [] w (hs & ss & v1 & v2 & l' & m1 & E0 & H1 & H2 & D1 & D2 & _). by exists hs, ss, v1, v2, l', m1.
  - done.
Qed.

(** C26. If [calloc] fails, for a set or for a chain of certificates, the functions that free
    what was read go over the array that is not there: they access memory through a null
    pointer, in both calls that take answers apart. *)
Theorem failed_calloc_faults n l m x y : Forall is_byte l -> 0 < n < 2 ^ 32 -> size l + 4 < 2 ^ 32 ->
  calloc_ok (allocations m) (sizeof_param * n) = false -> calloc_ok (allocations m) (sizeof_blob * n) = false ->
  km_deserialize_characteristics {| input := start (le 4 n ++ l); mem := m; outs := x |} = None /\
  km_deserialize_attestation {| input := start (le 4 n ++ l); mem := m; outs := y |} = None.
Proof.
  intros Hb Hn Hl Hp Hc. destruct (positive_nat n ltac:(lia)) as [k Hk].
  assert (Hl4 : size (le 4 n ++ l) < 2 ^ 32) by (rewrite size_app, size_le; lia).
  assert (Hs : seen (le 4 n ++ l) 0 (le 4 n ++ l)) by (apply seen_start; [apply Forall_app; split; [apply le_bytes|done]|unfold size in Hl4; lia]).
  split.
  - eapply (freed_faults _ _ _ (fun _ _ c => hw_enforced c = {| params := None; length_ := n |})).
    + apply runs_set_out, runs_set_out. eapply runs_bind.
      * eapply runs_weaken; [apply runs_on_field; by apply (no_array_runs _ 0 n l m)|intros a w Hw; exact Hw|].
        intros e m' c (s & -> & ->). done.
      * by intros a w (s & Hf & _).
    + intros e m' c Hc'. unfold keymaster_free_characteristics, keymaster_free_param_set. rewrite Hc'. cbn [length_ params]. by rewrite Hk.
  - eapply (freed_faults _ _ _ (fun _ _ c => c = {| entries := None; entry_count := n |})).
    + by apply (no_entries_runs _ 0 n l m).
    + intros e m' c ->. unfold keymaster_free_cert_chain. cbn [entry_count entries]. by rewrite Hk.
Qed.

(** C24. Whatever its bytes are, [parse_AuthorizationList] accesses nothing outside of the list
    and of its buffer; it succeeds on the lists of tagged values of [km_tags], in their
    order, and only on those, and fills a buffer of exactly the right size with parameters
    that can be read back; it keeps the last algorithm and the last secure user.  Nothing
    that is accepted has an attestation id or the id of an application. *)
Theorem any_authorization_list l m x : Forall is_byte l -> size l < 2 ^ 64 ->
  runs parse_AuthorizationList {| input := start l; mem := m; outs := x |}
    (fun _ w => exists ps, auth_list l ps /\ set_bytes ps (encode_set ps) /\ mem w = with_bytes (allocated m) (allocations m) (encode_set ps) /\
      outs w = noted (x <| key_params := Some (allocations m) |> <| key_params_len := size (encode_set ps) |>) ps /\
      Forall (fun a => fst a ∉ octet_tags) ps)
    (fun e m' x' => (e = KM_ERROR_INVALID_ARGUMENT /\ (forall ps, ~ auth_list l ps) \/ refused e) /\
      ((m' = m /\ key_params x' = key_params x) \/ (m' = allocated m /\ key_params x' = None) \/
       exists bs, m' = with_bytes (allocated m) (allocations m) bs /\ key_params x' = Some (allocations m))).
Proof.
  intros Hb Hl. eapply runs_weaken; [apply (runs_parse_auth l 0 l m x), seen_start; [done|unfold size in Hl; lia]| |done].
  intros [] w (ps & Ha & Hm & Ho). exists ps. split; [exact Ha|split; [by apply (auth_list_bytes l)|split; [exact Hm|split; [exact Ho|]]]].
  by apply (auth_list_tags l).
Qed.

(** C25. Whatever the bytes of a wrapped key are, taking it apart and parsing its authorization
    list access nothing outside of them; if both succeed, the bytes are those of a wrapper,
    the pointers and lengths are those of its strings, and the list is the one between the
    format and the end of the description.  But the length of the description counts 2
    bytes for its header, and is too small from 128 bytes on. *)
Theorem any_wrapped_key l m x : Forall is_byte l -> size l < 2 ^ 64 -> size (IV (unwrapped x)) = 16 -> size (wrapped_tag (unwrapped x)) = 16 ->
  runs parse_wrapped_key {| input := start l; mem := m; outs := x |}
    (fun _ w => exists h ht tk iv n hd f rest hk key tag ps, wrapper_shape l h ht tk iv n hd f rest hk key tag /\
      3 <= n /\ auth_list (take (Z.to_nat (n - 3)) rest) ps /\ mem w = with_bytes (allocated m) (allocations m) (encode_set ps) /\
      unwrapped (outs w) = found 0 h ht tk iv n hd f hk key tag (unwrapped x) /\
      list_out (outs w) = noted ((list_out x) <| key_params := Some (allocations m) |> <| key_params_len := size (encode_set ps) |>) ps /\
      key_type (list_out (outs w)) <> 0 /\
      (128 <= n -> key_description_len (unwrapped (outs w)) < size hd + n))
    (fun e m' x' => (e = KM_ERROR_INVALID_ARGUMENT \/ refused e) /\
      ((m' = m /\ key_params (list_out x') = key_params (list_out x)) \/ (m' = allocated m /\ key_params (list_out x') = None) \/
       exists bs, m' = with_bytes (allocated m) (allocations m) bs /\ key_params (list_out x') = Some (allocations m))).
Proof.
  intros Hb Hl Hi Ht. assert (Ha : ahead l 0 l) by (split; [apply seen_start; [done|unfold size in Hl; lia]|lia]).
  eapply runs_weaken; [by apply (runs_wrapped_key l 0 l m x)| |done].
  intros [] w (h & ht & tk & iv & n & hd & f & rest & hk & key & tag & ps & Hs & H3 & Hp & Hm & Eu & El & Hk).
  exists h, ht, tk, iv, n, hd, f, rest, hk, key, tag, ps. repeat (split; [assumption|]). rewrite Eu. intros Hn.
  destruct Hs as (r1 & r2 & _ & _ & (_ & Hh & _) & _). pose proof (long_header _ _ _ Hh Hn). cbn [found key_description_len]. lia.
Qed.
End theorems.

(** ** Examples *)

Definition list_of (r : option (result unit * world auth_out)) : option (result unit * (option object * (Z * Z))) :=
  match r with
  | Some (x, w) => Some (x, (match key_params (outs w) with Some k => heap (mem w) !! k | None => None end, (key_type (outs w), sid (outs w))))
  | None => None
  end.
Definition parse_list (l : list Z) := list_of (@parse_AuthorizationList plenty {| input := start l; mem := empty_memory; outs := no_auth |}).

Example sample_list_parsed : parse_list sample_list = Some (Done tt, (Some (Bytes (encode_set
  [(KM_TAG_PURPOSE, U32 KM_PURPOSE_ENCRYPT); (KM_TAG_PURPOSE, U32 KM_PURPOSE_DECRYPT); (KM_TAG_ALGORITHM, U32 KM_ALGORITHM_AES)])), (KM_ALGORITHM_AES, 0))).
Proof. by vm_compute. Qed.

(** A brand, as an octet string of two bytes. *)
Example attestation_id_refused : parse_list [0x30; 8; 0xBF; 0x85; 0x46; 4; 0x04; 2; 65; 66] = Some (Failed KM_ERROR_INVALID_ARGUMENT, (None, (0, 0))).
Proof. by vm_compute. Qed.

(** A description of two bytes, of which the format is the tag of the key that follows:
    the wrapper is accepted, but its list is not. *)
Example short_description_refused :
  let l := [0x02; 1; 0] ++ [0x04; 0] ++ [0x04; 0] ++ [0x30; 2; 0x02; 1; 4; 0] ++ [0x04; 16] ++ replicate 16 5 in
  let o := {| input := start (0x30 :: size l :: l); mem := empty_memory; outs := sample_vars |} in
  match on_field unwrapped parse_SecureKeyWrapper o, @parse_wrapped_key plenty o with
  | Some (Done _, w), Some (Failed e, _) => key_authlist_len (unwrapped (outs w)) = 2 ^ 64 - 1 /\ e = KM_ERROR_INVALID_ARGUMENT
  | _, _ => False
  end.
Proof. vm_compute. by split. Qed.

(** A public key on P-256, with the OID of the algorithm. *)
Definition public_key (oid : list Z) : list Z :=
  let point := [0x03; 66; 0x00; 0x04] ++ replicate 64 1 in
  let oids := [0x06; size oid] ++ oid ++ [0x06; 8] ++ p256_oid in
  let body := [0x30; size oids] ++ oids ++ point in
  [0x30; size body] ++ body.
Definition no_pub : pub_out := {| pub_curve := 0; pub_x := 0; pub_x_len := 0; pub_y := 0; pub_y_len := 0 |}.
Definition public_result (oid : list Z) : option (result unit) :=
  option_map fst (decode_pkcs8_ec_pub {| input := start (public_key oid); mem := empty_memory; outs := no_pub |}).

(** [decode_pkcs8_ec_pub] compares as many bytes as the OID has: none of an empty one, and
    more than [eckey_oid] has of a longer one. *)
Example public_oids : public_result eckey_oid = Some (Done tt) /\ public_result [] = Some (Done tt) /\ public_result (eckey_oid ++ [1]) = None.
Proof. vm_compute. by split_and!. Qed.

(** ** The hypotheses hold *)

Lemma bytes_checked l : forallb (fun b => (0 <=? b) && (b <? 256)) l = true -> Forall is_byte l.
Proof.
  rewrite forallb_forall. intros H0. apply Forall_forall. intros b Hb%list_elem_of_In%H0. unfold is_byte. rewrite andb_true_iff, Z.leb_le, Z.ltb_lt in Hb. lia.
Qed.

Definition sample_ec : list Z := pkcs8_ec true p256_oid (replicate 32 1) (replicate 32 2) (replicate 32 3).

Example any_key_decoded_witness : Forall is_byte sample_ec /\ size sample_ec + 8 < 2 ^ 32 /\
  runs (@decode_key_data plenty KM_KEY_FORMAT_PKCS8 KM_ALGORITHM_EC KM_EC_CURVE_P_256 false) {| input := start sample_ec; mem := empty_memory; outs := no_key |}
    (key_made KM_ALGORITHM_EC empty_memory) (key_left empty_memory).
Proof.
  assert (Hb : Forall is_byte sample_ec) by (apply bytes_checked; by vm_compute). assert (Hl : size sample_ec + 8 < 2 ^ 32) by (by vm_compute).
  split; [exact Hb|split; [exact Hl|]]. apply (any_key_decoded (H := plenty)); [exact Hb|exact Hl|reflexivity].
Defined.

Example key_roundtrip_witness :
  encoded KM_KEY_FORMAT_PKCS8 KM_ALGORITHM_EC KM_EC_CURVE_P_256 false sample_ec (ec_key ec_curve_nist_p256 256 (replicate 32 1) (replicate 32 2) (replicate 32 3)) /\
  runs (@decode_key_data plenty KM_KEY_FORMAT_PKCS8 KM_ALGORITHM_EC KM_EC_CURVE_P_256 false) {| input := start sample_ec; mem := empty_memory; outs := no_key |}
    (key_is empty_memory (ec_key ec_curve_nist_p256 256 (replicate 32 1) (replicate 32 2) (replicate 32 3))) (@no_memory plenty empty_memory).
Proof.
  assert (He : encoded KM_KEY_FORMAT_PKCS8 KM_ALGORITHM_EC KM_EC_CURVE_P_256 false sample_ec (ec_key ec_curve_nist_p256 256 (replicate 32 1) (replicate 32 2) (replicate 32 3))).
  { apply (ec_encoded true p256_oid); try reflexivity; [|discriminate]. unfold curves. rewrite !elem_of_cons. tauto. }
  split; [exact He|]. apply (key_roundtrip (H := plenty)); [exact He|apply bytes_checked; by vm_compute|by vm_compute].
Defined.

Example serialized_exactly_witness : set_stands empty_memory None [] /\
  let w := encode_set (sent [] 2048 65537) in
  @km_serialize_params plenty None 2048 65537 {| input := start []; mem := empty_memory; outs := no_buf |} =
  if @malloc_ok plenty 0 (u32 (size w)) then
    if size w <? 2 ^ 32
    then Some (Done tt, {| input := start []; mem := with_bytes (allocated empty_memory) 0 w; outs := {| buf := Some 0%nat; buf_size := size w |} |})
    else None
  else Some (Failed KM_ERROR_MEMORY_ALLOCATION_FAILED, {| input := start []; mem := allocated empty_memory; outs := {| buf := None; buf_size := u32 (size w) |} |}).
Proof.
  assert (Hs : set_stands empty_memory None []) by (split; reflexivity). split; [exact Hs|].
  apply (serialized_exactly (H := plenty) None [] 2048 65537 (start []) empty_memory no_buf Hs fresh_empty eq_refl).
Defined.

Example parameters_roundtrip_witness : set_stands empty_memory None [] /\
  exists bytes k m', @km_serialize_params plenty None 2048 65537 {| input := start []; mem := empty_memory; outs := no_buf |} =
      Some (Done tt, {| input := start []; mem := m'; outs := {| buf := Some k; buf_size := size bytes |} |}) /\
    heap m' !! k = Some (Bytes bytes) /\
    runs (@deserialize_param_set plenty) {| input := start bytes; mem := empty_memory; outs := no_params |}
      (fun _ w => denotes (outs w) (sent [] 2048 65537) empty_memory (mem w) /\ remaining (input w) = 0) (fun _ _ _ => False).
Proof.
  assert (Hs : set_stands empty_memory None []) by (split; reflexivity). split; [exact Hs|].
  apply (parameters_roundtrip (H := plenty) None [] 2048 65537 (start []) empty_memory no_buf empty_memory Hs fresh_empty eq_refl); [by vm_compute|by vm_compute|by vm_compute|exact fresh_empty|reflexivity|reflexivity].
Defined.

Example any_characteristics_witness : Forall is_byte (set_of_two ++ encode_set []) /\
  runs (@km_deserialize_characteristics plenty) {| input := start (set_of_two ++ encode_set []); mem := empty_memory; outs := no_chars |}
    (fun _ w => exists hs ss v1 v2 l' m1, set_of_two ++ encode_set [] = v1 ++ v2 ++ l' /\ set_bytes hs v1 /\ set_bytes ss v2 /\
      denotes (hw_enforced (outs w)) hs empty_memory m1 /\ denotes (sw_enforced (outs w)) ss m1 (mem w))
    (fun e m' c => heap m' = heap empty_memory /\ c = {| hw_enforced := no_params; sw_enforced := no_params |} /\
      @cause plenty (readable_characteristics (set_of_two ++ encode_set [])) e).
Proof.
  assert (Hb : Forall is_byte (set_of_two ++ encode_set [])) by (apply bytes_checked; by vm_compute). split; [exact Hb|].
  apply (any_characteristics (H := plenty)); [exact Hb|by vm_compute|exact fresh_empty|reflexivity].
Defined.

Example failed_calloc_faults_witness : @calloc_ok no_calloc 0 (sizeof_param * 1) = false /\
  @km_deserialize_characteristics no_calloc {| input := start (le 4 1 ++ []); mem := empty_memory; outs := no_chars |} = None /\
  @km_deserialize_attestation no_calloc {| input := start (le 4 1 ++ []); mem := empty_memory; outs := no_chain |} = None.
Proof. split; [reflexivity|]. apply (failed_calloc_faults (H := no_calloc) 1 [] empty_memory no_chars no_chain); [constructor|lia|by vm_compute|reflexivity|reflexivity]. Defined.

Example any_authorization_list_witness : Forall is_byte sample_list /\
  runs (@parse_AuthorizationList plenty) {| input := start sample_list; mem := empty_memory; outs := no_auth |}
    (fun _ w => exists ps, auth_list sample_list ps /\ set_bytes ps (encode_set ps) /\
      mem w = with_bytes (allocated empty_memory) 0 (encode_set ps) /\
      outs w = noted (no_auth <| key_params := Some 0%nat |> <| key_params_len := size (encode_set ps) |>) ps /\
      Forall (fun a => fst a ∉ octet_tags) ps)
    (fun e m' x' => (e = KM_ERROR_INVALID_ARGUMENT /\ (forall ps, ~ auth_list sample_list ps) \/ @refused plenty e) /\
      ((m' = empty_memory /\ key_params x' = None) \/ (m' = allocated empty_memory /\ key_params x' = None) \/
       exists bs, m' = with_bytes (allocated empty_memory) 0 bs /\ key_params x' = Some 0%nat)).
Proof.
  assert (Hb : Forall is_byte sample_list) by (apply bytes_checked; by vm_compute). split; [exact Hb|].
  apply (any_authorization_list (H := plenty) sample_list empty_memory no_auth); [exact Hb|by vm_compute].
Defined.

Example any_wrapped_key_witness : Forall is_byte sample_wrapper /\
  runs (@parse_wrapped_key plenty) {| input := start sample_wrapper; mem := empty_memory; outs := sample_vars |}
    (fun _ w => exists h ht tk iv n hd f rest hk key tag ps, wrapper_shape sample_wrapper h ht tk iv n hd f rest hk key tag /\
      3 <= n /\ auth_list (take (Z.to_nat (n - 3)) rest) ps /\ mem w = with_bytes (allocated empty_memory) 0 (encode_set ps) /\
      unwrapped (outs w) = found 0 h ht tk iv n hd f hk key tag (unwrapped sample_vars) /\
      list_out (outs w) = noted (no_auth <| key_params := Some 0%nat |> <| key_params_len := size (encode_set ps) |>) ps /\
      key_type (list_out (outs w)) <> 0 /\
      (128 <= n -> key_description_len (unwrapped (outs w)) < size hd + n))
    (fun e m' x' => (e = KM_ERROR_INVALID_ARGUMENT \/ @refused plenty e) /\
      ((m' = empty_memory /\ key_params (list_out x') = None) \/ (m' = allocated empty_memory /\ key_params (list_out x') = None) \/
       exists bs, m' = with_bytes (allocated empty_memory) 0 bs /\ key_params (list_out x') = Some 0%nat)).
Proof.
  assert (Hb : Forall is_byte sample_wrapper) by (apply bytes_checked; by vm_compute). split; [exact Hb|].
  apply (any_wrapped_key (H := plenty) sample_wrapper empty_memory sample_vars); [exact Hb|by vm_compute|reflexivity|reflexivity].
Defined.
